(* ===== verification/_CoqProject ===== *)
-Q . S2P
Prelude.v
HostUtils.v
Irq.v
Timers.v
Device.v
Pl192.v
Clk.v
Rtc.v
Wdt.v
Uart.v
Pwm.v
St.v
I2c.v
Gpio.v
Ptimer.v
Json.v
Qdict.v
Qobject.v
Qjson.v
QjsonParse.v
QjsonPrint.v
QjsonTrip.v
Physmem.v
PhysPages.v
PhysRam.v
PhysZones.v
PhysAccess.v
PhysRw.v
PhysSubpages.v
PhysIo.v
PhysSafe.v
NetSum.v
NetQueue.v
ArmCpu.v
ArmModes.v
ArmPsr.v
ArmExc.v
ArmEntry.v
ArmSafe.v
ArmMmu.v
ArmWalk.v
ArmTlb.v
ArmTlbInv.v
ArmLoad.v
ArmStore.v
ArmCp15.v
ArmSys.v
ArmArith.v
ArmNeon.v
ArmNeonSat.v
ArmNeonLanes.v
Board.v
