(* ===== verification/Prelude.v ===== *)
(** * The S5PC110 emulator: a verification library

    This library models parts of a fork of QEMU that emulates the Samsung S5PC110 board
    (an ARM Cortex-A8 system-on-chip), and proves them correct.  File names below are
    relative to src/; the files of the library are in the order they are compiled.

    ** How the parts of the program interact

    The guest processor reads and writes physical memory (exec.c).  The page table of
    exec.c leads each access to a RAM block or to the handlers of a device.  A device of the
    board keeps a register file; its read and write handlers change it, start timers (vl.c,
    through ptimer.c for counters) and drive interrupt lines (hw/irq.c).  Lines of the same
    source meet in the board's multiplexer (hw/s5pc1xx.c) and end in the chain of four PL192
    interrupt controllers (hw/pl192.c), the first of which drives the IRQ and FIQ inputs of
    the processor.  The clock controller (hw/s5pc1xx_clk.c) computes the frequencies the
    timers of the devices run at.  Pins lead through the GPIO controller (hw/s5pc1xx_gpio.c) to
    the serial ports, PWM outputs and I2C buses (hw/i2c.c).  The processor (target-arm/helper.c) takes an
    interrupt by switching to the mode of the exception with its banked registers.  Its
    translated code loads and stores through a software TLB (softmmu_template.h); a miss
    walks the page tables in guest memory (target-arm/helper.c) and fills an entry
    (exec.c); pages that hold translated code are kept off the direct path by their dirty
    bits.  A management program talks to the emulator in JSON: bytes
    go through json-lexer.c and json-streamer.c to the parser, json-parser.c, which builds
    QObject values (qdict.c, qlist.c, qstring.c, ...); qjson.c prints such values back.
    Network cards hand packets to a queue (net/queue.c), which delivers them to the other
    clients of the hub (net.c).

    ** Conventions

    A C function is a Gallina function with the same name and the same control flow.
    Integers are [Z], with the width of the C type written out wherever an operation can
    leave it ([wrap w], [u32], [not32], [s32] for an int; [long] is 64 bits, the host is
    LP64).  A counter of type int wraps at 2^32, as it does on the machine (the
    standard leaves that open); theorems that need it exact bound the input.  Code with
    state is a computation in [ST]: it takes a state, and ends in [Ok] with a result and a
    new state, or in [Err]: [HwError] is a call of hw_error(), abort() or a failed assert(),
    [Fault] is undefined behaviour of C (an index out of bounds, a NULL pointer), and
    [OutOfFuel] is the recursion budget of the model.  Every theorem that says an operation
    is safe excludes all three, or names the one that remains.  Pointers between objects of
    one array are indices, so aliasing is visible: the controllers are one list, the clock
    tree is one list, the RAM blocks are one list.  Function pointers are names that a
    dispatch function interprets, or an operation of a class when the callee is another
    component.

    ** Files

    - Prelude: the monad, its weakest preconditions [wp], record update, lemmas on bits
      and lists, the tactics of the library.
    - HostUtils: host-utils.c, host-utils.h, cutils.c and helpers of vl.c and
      qemu-common.h.  128-bit products and quotients ([mulu64], [muldiv64]), bit scans,
      mktimegm against the calendar counted day by day.
    - Irq: hw/irq.c (qemu_set_irq, inverted and split lines) and the interrupt multiplexer
      of hw/s5pc1xx.c.  The class [IrqBank] with its laws is what a device may rely on.  A
      parent line is always the OR of its sources.
    - Timers: the timer queues of vl.c, with the host alarm.  The queues refine a finite map
      from timers to deadlines; running them fires each due timer once and in order and
      comes to an end, if no callback touches the other due timers; the alarm is never later than the first deadline; migration keeps a
      timer.  The class [TimerBank] is the interface of the devices.
    - Device: what the devices with registers share (class [RegFile]).
    - Pl192: hw/pl192.c.  The recursion along the daisy chain settles; then each
      controller's output is exactly the function of its inputs the manual gives; the
      priority search returns the lowest numbered pending source of the best priority;
      register accesses are safe; an interrupt raised on the board is delivered to the
      processor.  The paths on which the chain goes wrong (an acknowledge that walks off the
      last controller, a fast interrupt lost in the chain) are stated as theorems too.
    - Clk: hw/s5pc1xx_clk.c.  After every register write the rates of the tree satisfy the
      divider equations, and a write is safe exactly under the stated condition.
    - Rtc, Wdt, Ptimer: hw/s5pc1xx_rtc.c, hw/s5pc1xx_wdt.c and hw/ptimer.c, on top of
      Device; Wdt takes its frequency from Clk.  Calendar steps against a calendar
      function, tick and alarm conditions, the watchdog's reset, the down counter.
    - Uart, Pwm, St: hw/s5pc1xx_uart.c, hw/s5pc1xx_pwm.c and hw/s5pc1xx_st.c.  A serial
      port refines a bounded queue, whose overflow policy is a parameter of the
      specification ([half_fill] is the code's, and a bug); writes of the
      control register start, stop and reload the PWM timers as the manual says; the system
      timer divides its ticks exactly and does not drift.
    - I2c: hw/i2c.c, hw/bitbang_i2c.c, hw/s5pc1xx_i2c_gpio.c and hw/s5pc1xx_i2c.c.  Driving
      the two lines of a bus with the waveform of a transaction does that transaction to
      the slave; the registers of the controller do the same; an address without a slave is
      acknowledged all the same.
    - Gpio: hw/s5pc1xx_gpio.c.  Functions of pins are looked up in the table of the code and
      called through the table of handlers; pin interrupts are latched until they are
      acknowledged, which the extended ones cannot be; the inputs 0 to 15 end in hw_error.
    - Json: json-lexer.c and json-streamer.c.  The lexer's table is the code's; it accepts
      exactly the given grammar of tokens, and never emits anything but a token of it; the
      streamer cuts a token stream where its counts of open braces and brackets are both
      zero, which is less than nesting, however the bytes are cut into calls.
    - Qdict, Qobject: the hash table of qdict.c refines a finite map; the values of
      qint.c, qbool.c, qfloat.c, qstring.c, qlist.c and the typed lookups.
    - Qjson, QjsonParse, QjsonPrint, QjsonTrip: json-parser.c and qjson.c.  The parser is
      total on the messages of the streamer, format arguments included; strings of the
      Basic Multilingual Plane are decoded to what was encoded; a printed value is read
      back as the same value if its strings are such and have no backslash.
    - Physmem, PhysPages, PhysRam, PhysZones, PhysSubpages: the physical address space
      of exec.c.  Registering a range of memory changes the map from addresses to targets
      on that range and nowhere else, for whole pages and for parts of a page; the list of
      RAM blocks refines a map from offsets to host addresses; I/O zones are allocated and
      freed without disturbing each other.
    - PhysAccess, PhysRw, PhysIo, PhysSafe: the accesses of exec.c.  Memory reads back what
      was written and nothing else changes; a mapping is contiguous host memory or the
      bounce buffer; a buffer is cut into aligned device accesses that cover it exactly; the
      invariant of the address space holds in every reachable state and makes every
      operation succeed; the sequence every board performs (allocate RAM, register it, use
      it) works.
    - NetSum, NetQueue: net/checksum.c, net/queue.c and the hub of net.c.  The checksum put into
      a packet with a header of at least 20 bytes makes the receiver's check succeed; the
      queue, whose receivers may send and flush while they run, neither loses nor doubles
      packets, and does not reorder them while no callback is queued and the receiver is
      ready; the hub is one of its receivers.
    - ArmCpu, ArmModes, ArmPsr: the state of target-arm/cpu.h, reset, register banks and the
      status registers.  A mode switch changes the representation of the banked register
      file of the architecture ([contents]) and no register of it; a write of the status
      register changes the bits of its mask.
    - ArmExc, ArmEntry, ArmSafe: do_interrupt for both profiles.  An exception is entered
      as the architecture says; a handler that keeps the registers and returns is
      invisible; from reset on, the operations within their conditions succeed.
    - ArmMmu, ArmWalk: get_phys_addr, for ARMv5, ARMv6 and the protection unit.  [translate]
      is the walk as a function of the words of memory; addresses of one page of
      1 KiB are translated alike; the protection is exact for data accesses.
    - ArmTlb, ArmTlbInv, ArmLoad, ArmStore: the software TLB of exec.c, the loads and
      stores of softmmu_template.h and the dirty bits.  The invariant [tlb_inv] says that
      every entry leads where the page tables do, and that stores to a page whose code must be
      watched are checked; fills, loads, stores and the protection of code keep it, so
      that an aligned load or store does what the page tables in memory say.
    - ArmCp15, ArmSys: the instructions that access coprocessor 15 (set_cp15, get_cp15).
      Every register that changes the translation flushes the TLB, so that [tlb_inv]
      survives any sequence of register writes; the registers read back what was written,
      through their masks.
    - ArmArith: the integer helpers of target-arm/op_helper.c, helper.c and op_addsub.h.
      Flag-setting, saturating and parallel instructions against integer arithmetic: the
      flags of the architecture's AddWithCarry, clamping with the sticky flag, exact lanes.
    - ArmNeon, ArmNeonSat, ArmNeonLanes: the vector helpers on integer lanes
      (target-arm/neon_helper.c).  Saturating ones clamp each lane and record it, those that
      work on whole words compute each lane, VZIP and VUZP are inverse permutations of the
      register file; the helpers that do something else than their instruction are
      stated as they behave ([neon_departures]).
    - Board: hw/arm_pic.c and the interrupt test of cpu-exec.c.  An interrupt of a device goes
      through the controllers to the processor, whose handler reads the vector of that
      interrupt, silences the device, and returns to the interrupted state.

    ** Bounds and fuel

    - pl192_update, pl192_raise and pl192_lower call each other along the chain: fuel
      [2 * S n] for [n] controllers, enough by [chain_total].
    - qemu_run_timers: one unit of fuel per due timer and one for the end.
    - the parser: one unit more than the number of tokens; parsing consumes a token per
      nested call.
    - cpu_register_physical_memory: one iteration per page of the range.
    - cpu_physical_memory_rw: one iteration per byte of the buffer at most.
    - a load or store: one unit per fill of the TLB and one more, so two are enough for an
      access inside a page ([load_through_tlb], [store_through_tlb]).
    - an access inside a page of subpages follows at most one step per subpage.
    - the tick and interrupt handlers of the system timer call each other two deep.
    - the loop of the carry-less product shifts a byte of each operand: eight turns.
    - the packet queue: two turns per packet the receivers may still send, one per packet in
      the queue and two more ([net_queue_delivers]); the carries of a checksum: two.
    - muldiv64 and the calendar functions are not recursive or recurse over years.

    ** Parameters

    Code outside the repository is a parameter: the functions of libc on floating-point
    numbers (class [Libc] in Qjson), the host's clock, the address qemu_vmalloc returns.  The
    devices behind an I/O zone are the operations of the class [Devices], so that the
    theorems on accesses hold for any device.  The interrupt controller of the M profile and
    the debugger's calls are the classes [NvicOps] and [Semihosting]; the invalidation of
    translated code is [TbCache], with the law [TbLaws] that it changes no memory and only sets
    dirty bits; tb_flush is [TbFlush] with the law [TbFlushLaws], and the callbacks of the
    coprocessors a board may add are [Coprocessors].  The slaves of an I2C bus are [I2CSlave],
    the bus as its masters see it is [I2CBus], and the devices behind the pins are [GpioIo].
    The receivers and callbacks of a packet queue are [NetHandlers], the clients of the hub are
    [NetClients]; that they send boundedly many packets ([PaidHandlers]) or are always
    ready ([ReadyHandlers]) is a hypothesis of the theorems that need it.

    ** What is not modelled

    Dynamic translation (tcg/, target-*/translate.c, cpu-exec.c and the half of exec.c that
    manages translated code) would need a semantics of the guest and host instruction sets;
    what physical memory asks of it (invalidating code) is recorded as a trace.  The check of
    watchpoints and instruction counting are left out.  Reference
    counts of QObjects are not modelled: values are immutable in the functions treated.
    The block layer, user networking (slirp and the host's interfaces), displays, audio, character devices and user-mode
    emulation are mostly calls into the host.  Third-party code in the tree (softfloat,
    slirp, the disassemblers of binutils) is left out, with the vector and VFP helpers that
    only call softfloat.  Pairs of network clients without a hub are left out, as are the
    creation and configuration of clients.  The keypad, the touch screen
    converter, the power management unit, the audio and SPI interfaces, storage and display of
    the board are devices of the same kind as the modelled ones, and are left out.

    * Prelude: what every component of the development shares

    - C integers are [Z] with their width written out ([wrap w], [u32], [not32]);
    - a device handler is a computation in the state-and-error monad [ST]:
      it threads the device state and may end in an [err] ([HwError] is a call of
      hw_error(), i.e. abort(); [Fault] is C undefined behaviour such as an array
      access out of bounds; [OutOfFuel] is an exhausted recursion budget);
    - [wp E m Q s] says that running [m] from [s] ends in a result satisfying
      [Q], or in an error that [E] tolerates;
    - [<| f := v |>] updates one field of a record;
    - generic lemmas on bits and lists, and the tactics the proofs share. *)
From stdpp Require Export base tactics numbers list option.
From Stdlib Require Export ZArith Lia Bool.

#[global] Open Scope Z_scope.

(** ** Record update: [Eta] gives the eta expansion of a record, the setter of a
    projection is read off it. *)
Class Eta (R : Type) := eta : R -> R.
Class Setter {R T : Type} (p : R -> T) := upd : (T -> T) -> R -> R.

Ltac solve_setter :=
  match goal with
  | |- @Setter ?R ?T ?p =>
      let inst := constr:(_ : Eta R) in
      exact (fun (f : T -> T) (r : R) =>
        ltac:(let e := eval hnf in inst in
              let b := eval cbv beta in (e r) in
              let g := eval pattern (p r) in b in
              match g with ?h _ =>
                let res := eval cbv beta in (h (f (p r))) in exact res end))
  end.
#[export] Hint Extern 1 (Setter _) => solve_setter : typeclass_instances.

Declare Scope upd_scope.
Delimit Scope upd_scope with upd.
Notation "r <| p := v |>" := (upd (p := p) (fun _ => v) r)
  (at level 1, left associativity, p at level 0, v at level 200, format "r <| p  :=  v |>") : upd_scope.
#[global] Open Scope upd_scope.

(** ** Outcomes of C code *)
Inductive err : Type :=
| HwError      (** hw_error(): the emulator prints a message and aborts *)
| Fault        (** undefined behaviour of C: bad index, NULL dereference *)
| OutOfFuel.   (** the model's recursion budget ran out *)

#[export] Instance err_eq_dec : EqDecision err.
Proof. solve_decision. Defined.

Inductive outcome (A : Type) : Type :=
| Ok (a : A)
| Err (e : err).
Arguments Ok {A} a.
Arguments Err {A} e.

Definition ST (S A : Type) : Type := S -> outcome (A * S).

#[export] Instance ST_ret (S : Type) : MRet (ST S) := fun A a s => Ok (a, s).
#[export] Instance ST_bind (S : Type) : MBind (ST S) := fun A B f m s =>
  match m s with
  | Ok (a, s') => f a s'
  | Err e => Err e
  end.

Definition get {S} : ST S S := fun s => Ok (s, s).
Definition gets {S A} (f : S -> A) : ST S A := fun s => Ok (f s, s).
Definition modify {S} (f : S -> S) : ST S unit := fun s => Ok (tt, f s).
Definition put {S} (s' : S) : ST S unit := fun _ => Ok (tt, s').
Definition throw {S A} (e : err) : ST S A := fun _ => Err e.
Definition hw_error {S A} : ST S A := throw HwError.
(** Reading through a C index or pointer: [None] is undefined behaviour. *)
Definition deref {S A} (o : option A) : ST S A :=
  match o with Some a => mret a | None => throw Fault end.
Definition when {S} (b : bool) (m : ST S unit) : ST S unit :=
  if b then m else mret tt.

Fixpoint for_each {S B} (l : list B) (f : B -> ST S unit) : ST S unit :=
  match l with
  | [] => mret tt
  | x :: l' => f x ;; for_each l' f
  end.

(** Running a computation for its final state / its result. *)
Definition exec {S A} (m : ST S A) (s : S) : option S :=
  match m s with Ok (_, s') => Some s' | Err _ => None end.
Definition result {S A} (m : ST S A) (s : S) : option A :=
  match m s with Ok (a, _) => Some a | Err _ => None end.

(** ** Weakest preconditions *)
Definition wp {S A} (E : err -> Prop) (m : ST S A) (Q : A -> S -> Prop) (s : S) : Prop :=
  match m s with
  | Ok (a, s') => Q a s'
  | Err e => E e
  end.

(** Tolerated errors: none at all; any; only a deliberate abort. *)
Definition no_err : err -> Prop := fun _ => False.
Definition any_err : err -> Prop := fun _ => True.
Definition only_hw : err -> Prop := fun e => e = HwError.
Definition not_fuel : err -> Prop := fun e => e <> OutOfFuel.

Section wp_rules.
  Context {S : Type} (E : err -> Prop).

Lemma wp_bind {A B} (m : ST S A) (f : A -> ST S B) Q s :
    wp E (m ≫= f) Q s <-> wp E m (fun a s' => wp E (f a) Q s') s.
  Proof. unfold wp, mbind, ST_bind. destruct (m s) as [[a s']|e]; done. Qed.

Lemma wp_ret {A} (a : A) Q (s : S) : wp E (mret a) Q s <-> Q a s.
  Proof. done. Qed.
Lemma wp_get Q (s : S) : wp E get Q s <-> Q s s.
  Proof. done. Qed.
Lemma wp_gets {A} (f : S -> A) Q (s : S) : wp E (gets f) Q s <-> Q (f s) s.
  Proof. done. Qed.
Lemma wp_modify (f : S -> S) Q (s : S) : wp E (modify f) Q s <-> Q tt (f s).
  Proof. done. Qed.
Lemma wp_put (s' : S) Q (s : S) : wp E (put s') Q s <-> Q tt s'.
  Proof. done. Qed.
Lemma wp_throw {A} e Q (s : S) : wp E (throw (A := A) e) Q s <-> E e.
  Proof. done. Qed.
Lemma wp_deref_Some {A} (a : A) Q (s : S) : wp E (deref (Some a)) Q s <-> Q a s.
  Proof. done. Qed.
Lemma wp_when (b : bool) (m : ST S unit) Q s :
    wp E (when b m) Q s <-> if b then wp E m Q s else Q tt s.
  Proof. by destruct b. Qed.

Lemma wp_mono {A} (m : ST S A) (Q Q' : A -> S -> Prop) s :
    wp E m Q s -> (forall a s', Q a s' -> Q' a s') -> wp E m Q' s.
  Proof. unfold wp. destruct (m s) as [[a s']|e]; auto. Qed.

Lemma wp_and {A} (m : ST S A) (Q Q' : A -> S -> Prop) s :
    wp E m Q s -> wp E m Q' s -> wp E m (fun a s' => Q a s' /\ Q' a s') s.
  Proof. unfold wp. destruct (m s) as [[a s']|e]; auto. Qed.

  (** A computation meets its postcondition iff every outcome does. *)
Lemma wp_ok {A} (m : ST S A) Q s a s' :
    wp E m Q s -> m s = Ok (a, s') -> Q a s'.
  Proof. unfold wp. intros H Heq. by rewrite Heq in H. Qed.
Lemma wp_err {A} (m : ST S A) Q s e : wp E m Q s -> m s = Err e -> E e.
  Proof. unfold wp. intros H Heq. by rewrite Heq in H. Qed.

Lemma wp_for_each {B} (I : S -> Prop) (l : list B) (f : B -> ST S unit) s :
    I s -> (forall x s', x ∈ l -> I s' -> wp E (f x) (fun _ => I) s') ->
    wp E (for_each l f) (fun _ => I) s.
  Proof.
    revert s. induction l as [|x l IH]; intros s HI Hf; simpl.
    - by apply wp_ret.
    - apply wp_bind. eapply wp_mono; [apply Hf; [left|done]|].
      intros [] s' HI'. apply IH; [done|]. intros y s'' Hy. apply Hf. by right.
  Qed.

Lemma wp_for_each_seq (I : nat -> S -> Prop) a n (f : nat -> ST S unit) s :
    I a s -> (forall i s', (a <= i < a + n)%nat -> I i s' -> wp E (f i) (fun _ => I (Datatypes.S i)) s') ->
    wp E (for_each (seq a n) f) (fun _ => I (a + n)%nat) s.
  Proof.
    revert a s. induction n as [|n IH]; intros a s HI Hf; simpl.
    - apply wp_ret. by rewrite Nat.add_0_r.
    - apply wp_bind. eapply wp_mono; [apply Hf; [lia|done]|].
      intros [] s' HI'. rewrite <- Nat.add_succ_comm. apply IH; [done|].
      intros i s'' Hi. apply Hf. lia.
  Qed.
End wp_rules.

Lemma wp_total_ex {S A} (m : ST S A) Q s :
  wp no_err m Q s <-> exists a s', m s = Ok (a, s') /\ Q a s'.
Proof.
  unfold wp, no_err. destruct (m s) as [[a s']|e]; split.
  - intros H. by exists a, s'.
  - by intros (a' & s'' & [= -> ->] & H).
  - done.
  - by intros (a' & s'' & ? & _).
Qed.

Lemma wp_err_weaken {S A} (E E' : err -> Prop) (m : ST S A) Q s :
  wp E m Q s -> (forall e, E e -> E' e) -> wp E' m Q s.
Proof. unfold wp. destruct (m s) as [[a s']|e]; auto. Qed.

Lemma wp_no_err {S A} (E : err -> Prop) (m : ST S A) Q s : wp no_err m Q s -> wp E m Q s.
Proof. intros H. eapply wp_err_weaken; [exact H|]. by intros e []. Qed.

(** One symbolic step of a handler. *)
Ltac wp_step :=
  lazymatch goal with
  | |- wp _ (mbind _ _) _ _ => apply (proj2 (wp_bind _ _ _ _ _))
  | |- wp _ (mret _) _ _ => apply (proj2 (wp_ret _ _ _ _))
  | |- wp _ get _ _ => apply (proj2 (wp_get _ _ _))
  | |- wp _ (gets _) _ _ => apply (proj2 (wp_gets _ _ _ _))
  | |- wp _ (modify _) _ _ => apply (proj2 (wp_modify _ _ _ _))
  | |- wp _ (put _) _ _ => apply (proj2 (wp_put _ _ _ _))
  | |- wp _ hw_error _ _ => apply (proj2 (wp_throw _ _ _ _))
  | |- wp _ (throw _) _ _ => apply (proj2 (wp_throw _ _ _ _))
  | |- wp _ (deref (Some _)) _ _ => apply (proj2 (wp_deref_Some _ _ _ _))
  | |- wp _ (when _ _) _ _ => apply (proj2 (wp_when _ _ _ _ _))
  end.
(** Case analysis on the condition the handler branches on. *)
Tactic Notation "wp_if" "as" ident(E) :=
  lazymatch goal with |- wp _ (if ?b then _ else _) _ _ => destruct b eqn:E end.
Ltac wp_if := let E := fresh "Hif" in wp_if as E.
Ltac wp_steps := repeat (wp_step; cbv beta).

(** ** Machine words *)
Definition wrap (w x : Z) : Z := x mod 2 ^ w.
Definition fits (w x : Z) : Prop := 0 <= x < 2 ^ w.
(** [~x] on uint32_t. *)
Definition not32 (x : Z) : Z := wrap 32 (Z.lnot x).
(** The value in an int: what [++], [--] and a conversion from uint32_t leave there. *)
Definition s32 (x : Z) : Z := let y := wrap 32 x in if y <? 2 ^ 31 then y else y - 2 ^ 32.
(** [1 << i], for a shift within the width. *)
Definition bit (i : Z) : Z := Z.shiftl 1 i.
(** A C integer used as a condition. *)
Definition truth (x : Z) : bool := negb (x =? 0).

#[export] Instance fits_dec w x : Decision (fits w x).
Proof. unfold fits. apply _. Defined.

(** Array accesses at a C index; [None] is out of bounds. *)
Definition rd {A} (l : list A) (i : Z) : option A :=
  if 0 <=? i then l !! Z.to_nat i else None.
Definition wr {A} (l : list A) (i : Z) (v : A) : option (list A) :=
  if (0 <=? i) && (i <? Z.of_nat (length l)) then Some (<[Z.to_nat i := v]> l) else None.

Create HintDb fits discriminated.
Create HintDb bits discriminated.

Lemma fits_bits w x : 0 <= w ->
  fits w x <-> 0 <= x /\ forall i, w <= i -> Z.testbit x i = false.
Proof.
  intros Hw. unfold fits. split.
  - intros [H0 H1]. split; [done|]. intros i Hi.
    destruct (decide (x = 0)) as [->|Hx]; [apply Z.bits_0|].
    apply Z.bits_above_log2; [done|].
    apply Z.log2_lt_pow2; [lia|]. eapply Z.lt_le_trans; [done|]. by apply Z.pow_le_mono_r.
  - intros [H0 H1]. split; [done|].
    enough (x = x mod 2 ^ w) as Heq by (pose proof (Z.mod_pos_bound x (2 ^ w)); lia).
    apply Z.bits_inj'. intros i Hi. destruct (Z.lt_ge_cases i w).
    + by rewrite Z.mod_pow2_bits_low.
    + rewrite Z.mod_pow2_bits_high by lia. by apply H1.
Qed.

Lemma fits_wrap w x : 0 <= w -> fits w (wrap w x).
Proof. intros. apply Z.mod_pos_bound. lia. Qed.
Lemma wrap_fits w x : fits w x -> wrap w x = x.
Proof. apply Z.mod_small. Qed.
Lemma wrap_idem w x : 0 <= w -> wrap w (wrap w x) = wrap w x.
Proof. intros. by apply wrap_fits, fits_wrap. Qed.
Lemma fits_le w w' x : 0 <= w <= w' -> fits w x -> fits w' x.
Proof.
  unfold fits. intros Hw [H0 H1]. split; [done|].
  eapply Z.lt_le_trans; [done|]. apply Z.pow_le_mono_r; lia.
Qed.
Lemma s32_id x : - 2 ^ 31 <= x < 2 ^ 31 -> s32 x = x.
Proof.
  intros Hx. unfold s32, wrap. destruct (Z.le_gt_cases 0 x).
  - rewrite Z.mod_small by lia. by destruct (Z.ltb_spec x (2 ^ 31)); [|lia].
  - rewrite <- (Z.mod_unique x (2 ^ 32) (-1) (x + 2 ^ 32)) by lia.
    destruct (Z.ltb_spec (x + 2 ^ 32) (2 ^ 31)); lia.
Qed.
Lemma s32_small x : 0 <= x < 2 ^ 31 -> s32 x = x.
Proof. intros. apply s32_id. lia. Qed.
(** Counting in an int is counting modulo 2^32. *)
Lemma s32_add_l x y : s32 (s32 x + y) = s32 (x + y).
Proof.
  unfold s32 at 1 3. cbv zeta.
  enough (wrap 32 (s32 x + y) = wrap 32 (x + y)) as -> by done.
  unfold s32, wrap. destruct (x mod 2 ^ 32 <? 2 ^ 31).
  - apply Z.add_mod_idemp_l. lia.
  - replace (x mod 2 ^ 32 - 2 ^ 32 + y) with (x mod 2 ^ 32 + y + (-1) * 2 ^ 32) by lia.
    rewrite Z.mod_add by lia. apply Z.add_mod_idemp_l. lia.
Qed.
Lemma s32_idem x : s32 (s32 x) = s32 x.
Proof. pose proof (s32_add_l x 0) as H. by rewrite !Z.add_0_r in H. Qed.
Lemma fits_land_l w x y : 0 <= w -> fits w x -> 0 <= y -> fits w (Z.land x y).
Proof.
  intros Hw. rewrite !fits_bits by done. intros [H0 H1] Hy. split.
  - apply Z.land_nonneg. by left.
  - intros i Hi. rewrite Z.land_spec, H1; done.
Qed.
Lemma fits_land w x y : 0 <= w -> fits w x -> fits w y -> fits w (Z.land x y).
Proof. intros Hw Hx [Hy _]. by apply fits_land_l. Qed.
Lemma fits_land_r w x y : 0 <= w -> 0 <= x -> fits w y -> fits w (Z.land x y).
Proof. intros. rewrite Z.land_comm. by apply fits_land_l. Qed.
Lemma fits_lor w x y : 0 <= w -> fits w x -> fits w y -> fits w (Z.lor x y).
Proof.
  intros Hw. rewrite !fits_bits by done. intros [H0 H1] [H2 H3]. split.
  - by apply Z.lor_nonneg.
  - intros i Hi. rewrite Z.lor_spec, H1, H3; done.
Qed.
Lemma fits_not32 x : fits 32 (not32 x).
Proof. by apply fits_wrap. Qed.
Lemma fits_shiftr w x n : 0 <= w -> 0 <= n -> fits w x -> fits w (Z.shiftr x n).
Proof.
  intros Hw Hn. rewrite !fits_bits by done. intros [H0 H1]. split.
  - by apply Z.shiftr_nonneg.
  - intros i Hi. rewrite Z.shiftr_spec by lia. apply H1. lia.
Qed.
Lemma fits_bit i w : 0 <= i < w -> fits w (bit i).
Proof.
  intros Hi. unfold fits, bit. rewrite Z.shiftl_mul_pow2, Z.mul_1_l by lia. split.
  - apply Z.pow_nonneg. lia.
  - apply Z.pow_lt_mono_r; lia.
Qed.
#[export] Hint Resolve fits_wrap fits_land fits_lor fits_not32 fits_shiftr : fits.

Lemma bit_testbit i j : 0 <= i -> Z.testbit (bit i) j = (i =? j).
Proof.
  intros Hi. unfold bit. rewrite Z.shiftl_mul_pow2, Z.mul_1_l by done.
  by apply Z.pow2_bits_eqb.
Qed.
Lemma wrap_testbit w x i : 0 <= w -> Z.testbit (wrap w x) i = (i <? w) && Z.testbit x i.
Proof.
  intros Hw. unfold wrap. destruct (Z.ltb_spec i w).
  - by rewrite Z.mod_pow2_bits_low.
  - rewrite Z.mod_pow2_bits_high by lia. done.
Qed.
Lemma not32_testbit x i :
  0 <= i -> Z.testbit (not32 x) i = (i <? 32) && negb (Z.testbit x i).
Proof. intros. unfold not32. by rewrite wrap_testbit, Z.lnot_spec. Qed.
Lemma fits_testbit w x i : 0 <= w -> fits w x -> w <= i -> Z.testbit x i = false.
Proof. intros Hw Hx. by apply fits_bits. Qed.

Lemma truth_true x : truth x = true <-> x <> 0.
Proof. unfold truth. rewrite negb_true_iff, Z.eqb_neq. done. Qed.
Lemma truth_false x : truth x = false <-> x = 0.
Proof. unfold truth. rewrite negb_false_iff, Z.eqb_eq. done. Qed.
(** [x & (1 << i)] as a condition tests bit [i]. *)
Lemma truth_land_bit x i : 0 <= i -> truth (Z.land x (bit i)) = Z.testbit x i.
Proof.
  intros Hi. destruct (Z.testbit x i) eqn:Hb.
  - apply truth_true. intros H0. apply (f_equal (fun y => Z.testbit y i)) in H0.
    rewrite Z.land_spec, Hb, bit_testbit, Z.eqb_refl, Z.bits_0 in H0 by done. done.
  - apply truth_false. apply Z.bits_inj'. intros j Hj.
    rewrite Z.land_spec, bit_testbit, Z.bits_0 by done.
    destruct (Z.eqb_spec i j) as [->|]; [by rewrite Hb|by rewrite andb_false_r].
Qed.

(** [hi << w | lo] for a [lo] below [2^w] is a sum. *)
Lemma or_disjoint hi lo w : 0 <= w -> fits w lo -> Z.lor (hi * 2 ^ w) lo = hi * 2 ^ w + lo.
Proof.
  intros Hw Hlo. rewrite <- Z.lxor_lor, <- Z.add_nocarry_lxor; [done| |].
  - apply Z.bits_inj'. intros i Hi. rewrite Z.land_spec, Z.bits_0.
    destruct (Z.lt_ge_cases i w).
    + by rewrite Z.mul_pow2_bits_low.
    + rewrite (fits_testbit w lo i) by done. by rewrite andb_false_r.
  - apply Z.bits_inj'. intros i Hi. rewrite Z.land_spec, Z.bits_0.
    destruct (Z.lt_ge_cases i w).
    + by rewrite Z.mul_pow2_bits_low.
    + rewrite (fits_testbit w lo i) by done. by rewrite andb_false_r.
Qed.

(** ** Arrays *)
Lemma rd_Some {A} (l : list A) i :
  0 <= i < Z.of_nat (length l) -> exists x, rd l i = Some x /\ l !! Z.to_nat i = Some x.
Proof.
  intros Hi. unfold rd. destruct (Z.leb_spec 0 i); [|lia].
  destruct (l !! Z.to_nat i) as [x|] eqn:Hx; [by exists x|].
  apply lookup_ge_None in Hx. lia.
Qed.
Lemma rd_lookup {A} (l : list A) i x : rd l i = Some x -> 0 <= i /\ l !! Z.to_nat i = Some x.
Proof. unfold rd. destruct (Z.leb_spec 0 i); done. Qed.
Lemma rd_bound {A} (l : list A) i x : rd l i = Some x -> 0 <= i < Z.of_nat (length l).
Proof. intros [? H]%rd_lookup. apply lookup_lt_Some in H. lia. Qed.
Lemma rd_Forall {A} (P : A -> Prop) (l : list A) i x : Forall P l -> rd l i = Some x -> P x.
Proof. intros HP [_ H]%rd_lookup. by eapply Forall_lookup_1. Qed.
Lemma wr_Some {A} (l : list A) i v :
  0 <= i < Z.of_nat (length l) -> wr l i v = Some (<[Z.to_nat i := v]> l).
Proof. intros Hi. unfold wr.
  destruct (Z.leb_spec 0 i), (Z.ltb_spec i (Z.of_nat (length l))); simpl; done || lia. Qed.
Lemma wr_inv {A} (l l' : list A) i v :
  wr l i v = Some l' -> 0 <= i < Z.of_nat (length l) /\ l' = <[Z.to_nat i := v]> l.
Proof.
  unfold wr. destruct (Z.leb_spec 0 i), (Z.ltb_spec i (Z.of_nat (length l))); simpl; try done.
  intros [= <-]. done.
Qed.
Lemma wr_length {A} (l l' : list A) i v : wr l i v = Some l' -> length l' = length l.
Proof. intros [_ ->]%wr_inv. apply length_insert. Qed.
Lemma wr_Forall {A} (P : A -> Prop) (l l' : list A) i v :
  Forall P l -> P v -> wr l i v = Some l' -> Forall P l'.
Proof. intros Hl Hv [_ ->]%wr_inv. by apply Forall_insert. Qed.
Lemma rd_wr {A} (l l' : list A) i j v :
  wr l i v = Some l' -> rd l' j = if i =? j then Some v else rd l j.
Proof.
  intros [Hi ->]%wr_inv. unfold rd. destruct (Z.eqb_spec i j) as [->|Hne].
  - destruct (Z.leb_spec 0 j); [|lia]. apply list_lookup_insert_eq. lia.
  - destruct (Z.leb_spec 0 j); [|done]. apply list_lookup_insert_ne. lia.
Qed.

Lemma deref_wp {S A} E (o : option A) (Q : A -> S -> Prop) s a :
  o = Some a -> Q a s -> wp E (deref o) Q s.
Proof. by intros ->. Qed.
