(* ===== verification/HostUtils.v ===== *)
(** * HostUtils: integer helpers (host-utils.c, host-utils.h, vl.c, qemu-common.h,
    cutils.c)

    The portable branches of the helpers are modelled, those compiled when the host
    compiler or CPU offers no builtin; integers carry the width C gives them. *)
From S2P Require Import Prelude.

(** ** 64 x 64 -> 128 bit multiplication *)
(** A 128-bit value is the pair (low, high) the C code writes through two pointers. *)
Definition add128 (plow phigh a b : Z) : Z * Z :=
  let plow := wrap 64 (plow + a) in
  let phigh := if plow <? a then wrap 64 (phigh + 1) else phigh in
  (plow, wrap 64 (phigh + b)).

Definition not64 (x : Z) : Z := wrap 64 (Z.lnot x).
Definition neg128 (plow phigh : Z) : Z * Z := add128 (not64 plow) (not64 phigh) 1 0.

Definition mul64 (a b : Z) : Z * Z :=
  let a0 := wrap 32 a in let a1 := wrap 32 (Z.shiftr a 32) in
  let b0 := wrap 32 b in let b1 := wrap 32 (Z.shiftr b 32) in
  let v := wrap 64 (a0 * b0) in
  let '(plow, phigh) := (v, 0) in
  let v := wrap 64 (a0 * b1) in
  let '(plow, phigh) := add128 plow phigh (wrap 64 (Z.shiftl v 32)) (Z.shiftr v 32) in
  let v := wrap 64 (a1 * b0) in
  let '(plow, phigh) := add128 plow phigh (wrap 64 (Z.shiftl v 32)) (Z.shiftr v 32) in
  let v := wrap 64 (a1 * b1) in
  (plow, wrap 64 (phigh + v)).

Definition mulu64 (a b : Z) : Z * Z := mul64 a b.

(** [-a] on int64_t: the negation of INT64_MIN overflows, which is undefined. *)
Definition neg64 (a : Z) : option Z := if a =? - 2 ^ 63 then None else Some (- a).

(** int64_t arguments are Z in [-2^63, 2^63); [None] is undefined behaviour. *)
Definition muls64 (a b : Z) : option (Z * Z) :=
  let sa := a <? 0 in
  a ← (if sa then neg64 a else Some a);
  let sb := b <? 0 in
  b ← (if sb then neg64 b else Some b);
  let '(plow, phigh) := mul64 (wrap 64 a) (wrap 64 b) in
  Some (if xorb sa sb then neg128 plow phigh else (plow, phigh)).

(** ** muldiv64: (a * b) / c with a 96-bit intermediate *)
Definition muldiv64 (a b c : Z) : Z :=
  let low := wrap 32 a in
  let high := wrap 32 (Z.shiftr a 32) in
  let rl := wrap 64 (low * b) in
  let rh := wrap 64 (high * b) in
  let rh := wrap 64 (rh + Z.shiftr rl 32) in
  let res_high := wrap 32 (rh / c) in
  let res_low := wrap 32 (wrap 64 (wrap 64 (Z.shiftl (rh mod c) 32)
                                   + Z.land rl 0xffffffff) / c) in
  Z.lor (Z.shiftl res_high 32) res_low.

(** ** Bit scans *)
Definition clz32_step (m k : Z) '(val, cnt) : Z * Z :=
  if truth (Z.land val m) then (val, cnt) else (wrap 32 (Z.shiftl val k), cnt + k).
Definition clz32 (val : Z) : Z :=
  let '(val, cnt) := clz32_step 0xFFFF0000 16 (val, 0) in
  let '(val, cnt) := clz32_step 0xFF000000 8 (val, cnt) in
  let '(val, cnt) := clz32_step 0xF0000000 4 (val, cnt) in
  let '(val, cnt) := clz32_step 0xC0000000 2 (val, cnt) in
  let '(val, cnt) := clz32_step 0x80000000 1 (val, cnt) in
  if truth (Z.land val 0x80000000) then cnt else cnt + 1.
Definition clo32 (val : Z) : Z := clz32 (not32 val).
Definition clz64 (val : Z) : Z :=
  let '(cnt, val) := if truth (Z.shiftr val 32) then (0, Z.shiftr val 32) else (32, val) in
  cnt + clz32 (wrap 32 val).
Definition clo64 (val : Z) : Z := clz64 (not64 val).

Definition ctz32_step (m k : Z) '(val, cnt) : Z * Z :=
  if truth (Z.land val m) then (val, cnt) else (Z.shiftr val k, cnt + k).
Definition ctz32 (val : Z) : Z :=
  let '(val, cnt) := ctz32_step 0x0000FFFF 16 (val, 0) in
  let '(val, cnt) := ctz32_step 0x000000FF 8 (val, cnt) in
  let '(val, cnt) := ctz32_step 0x0000000F 4 (val, cnt) in
  let '(val, cnt) := ctz32_step 0x00000003 2 (val, cnt) in
  let '(val, cnt) := ctz32_step 0x00000001 1 (val, cnt) in
  if truth (Z.land val 0x00000001) then cnt else cnt + 1.
Definition cto32 (val : Z) : Z := ctz32 (not32 val).
Definition ctz64 (val : Z) : Z :=
  let '(cnt, val) := if truth (wrap 32 val) then (0, val) else (32, Z.shiftr val 32) in
  cnt + ctz32 (wrap 32 val).
Definition cto64 (val : Z) : Z := ctz64 (not64 val).
Definition qemu_fls (i : Z) : Z := 32 - clz32 (wrap 32 i).

(** ** BCD bytes *)
Definition to_bcd (val : Z) : Z :=
  let val := wrap 8 val in wrap 8 (Z.lor (Z.shiftl (val / 10) 4) (val mod 10)).
Definition from_bcd (val : Z) : Z :=
  let val := wrap 8 val in wrap 8 (Z.shiftr val 4 * 10 + Z.land val 0x0f).

(** ** Broken-down time *)
(** The fields of struct tm the code uses; [tm_mon] is 0-based and [tm_year] counts
    from 1900. *)
Record tm := mkTm {
  tm_sec : Z; tm_min : Z; tm_hour : Z; tm_mday : Z; tm_mon : Z; tm_year : Z; tm_wday : Z
}.
#[export] Instance eta_tm : Eta tm := fun r =>
  mkTm (tm_sec r) (tm_min r) (tm_hour r) (tm_mday r) (tm_mon r) (tm_year r) (tm_wday r).

(** An int expression: a value outside the type's range is an overflow. *)
Definition int32 (x : Z) : option Z :=
  if (- 2 ^ 31 <=? x) && (x <? 2 ^ 31) then Some x else None.

(** Seconds since 1970 of a UTC date.  C's [/] truncates; the product with 86400 is
    computed in int before it is converted to time_t. *)
Definition mktimegm (t : tm) : option Z :=
  let y := tm_year t + 1900 in
  let m := tm_mon t + 1 in
  let d := tm_mday t in
  let '(m, y) := if m <? 3 then (m + 12, y - 1) else (m, y) in
  t0 ← int32 (86400 * (d + Z.quot (153 * m - 457) 5 + 365 * y + Z.quot y 4 - Z.quot y 100
                       + Z.quot y 400 - 719469));
  Some (t0 + (3600 * tm_hour t + 60 * tm_min t + tm_sec t)).

(** ** Correctness *)
Lemma wrap_nonneg_lt w x : 0 <= w -> 0 <= wrap w x < 2 ^ w.
Proof. apply fits_wrap. Qed.
Lemma split32 a : fits 64 a ->
  a = wrap 32 a + 2 ^ 32 * wrap 32 (Z.shiftr a 32) /\ fits 32 (wrap 32 a) /\
  fits 32 (wrap 32 (Z.shiftr a 32)).
Proof.
  unfold fits, wrap. intros Ha. rewrite Z.shiftr_div_pow2 by lia.
  pose proof (Z.div_mod a (2 ^ 32)) as H.
  rewrite (Z.mod_small (a / 2 ^ 32)); [|split; [apply Z.div_pos; lia|apply Z.div_lt_upper_bound; lia]].
  pose proof (Z.mod_pos_bound a (2 ^ 32)).
  assert (0 <= a / 2 ^ 32 < 2 ^ 32) by (split; [apply Z.div_pos|apply Z.div_lt_upper_bound]; lia).
  lia.
Qed.

(** The 128-bit value of a (low, high) pair. *)
Definition val128 (p : Z * Z) : Z := p.1 + 2 ^ 64 * p.2.

Lemma add128_val plow phigh a b :
  fits 64 plow -> fits 64 phigh -> fits 64 a -> fits 64 b ->
  let r := add128 plow phigh a b in
  val128 r = (val128 (plow, phigh) + val128 (a, b)) mod 2 ^ 128 /\ fits 64 r.1 /\ fits 64 r.2.
Proof.
  unfold fits, add128, val128, wrap. intros. cbn [fst snd].
  set (l := (plow + a) mod 2 ^ 64).
  assert ((l = plow + a /\ plow + a < 2 ^ 64) \/ (l = plow + a - 2 ^ 64 /\ 2 ^ 64 <= plow + a)) as Hl.
  { subst l. destruct (Z.lt_ge_cases (plow + a) (2 ^ 64)); [left|right].
    - rewrite Z.mod_small; lia.
    - split; [|lia]. rewrite <- (Z.mod_small (plow + a - 2 ^ 64) (2 ^ 64)) by lia.
      rewrite <- (Z_mod_plus_full (plow + a - 2 ^ 64) 1). f_equal. lia. }
  set (h := (_ + b) mod 2 ^ 64).
  assert (exists c, 0 <= c <= 1 /\ l = plow + a - 2 ^ 64 * c /\
            exists k, h = phigh + c + b - 2 ^ 64 * k) as (c & Hc & Hlc & k & Hk).
  { subst h. destruct (Z.ltb_spec l a).
    - exists 1. split; [lia|]. split; [lia|].
      exists ((phigh + 1) / 2 ^ 64 + ((phigh + 1) mod 2 ^ 64 + b) / 2 ^ 64).
      pose proof (Z.div_mod (phigh + 1) (2 ^ 64)).
      pose proof (Z.div_mod ((phigh + 1) mod 2 ^ 64 + b) (2 ^ 64)). lia.
    - exists 0. split; [lia|]. split; [lia|]. exists ((phigh + b) / 2 ^ 64).
      pose proof (Z.div_mod (phigh + b) (2 ^ 64)). lia. }
  assert (0 <= h < 2 ^ 64) by (apply Z.mod_pos_bound; lia).
  assert (0 <= l < 2 ^ 64) by lia. split; [|lia].
  apply (Z.mod_unique_pos _ _ k); lia.
Qed.

Lemma mul64_val a b : fits 64 a -> fits 64 b ->
  val128 (mul64 a b) = a * b /\ fits 64 (mul64 a b).1 /\ fits 64 (mul64 a b).2.
Proof.
  intros Ha Hb.
  destruct (split32 a Ha) as (Ea & Ha0 & Ha1), (split32 b Hb) as (Eb & Hb0 & Hb1).
  unfold mul64. set (a0 := wrap 32 a) in *. set (a1 := wrap 32 (Z.shiftr a 32)) in *.
  set (b0 := wrap 32 b) in *. set (b1 := wrap 32 (Z.shiftr b 32)) in *.
  assert (forall x y, fits 32 x -> fits 32 y -> 0 <= x * y <= (2 ^ 32 - 1) * (2 ^ 32 - 1)) as Hm
    by (unfold fits; intros; nia).
  assert (forall x y, fits 32 x -> fits 32 y -> wrap 64 (x * y) = x * y) as Hw.
  { intros x y Hx Hy. apply wrap_fits. specialize (Hm x y Hx Hy). unfold fits. lia. }
  rewrite !Hw by done.
  assert (forall x y, fits 32 x -> fits 32 y ->
    fits 64 (wrap 64 (Z.shiftl (x * y) 32)) /\ fits 64 (Z.shiftr (x * y) 32) /\
    val128 (wrap 64 (Z.shiftl (x * y) 32), Z.shiftr (x * y) 32) = 2 ^ 32 * (x * y)) as Hs.
  { intros x y Hx Hy. specialize (Hm x y Hx Hy). split; [by apply fits_wrap|].
    unfold val128, wrap. cbn [fst snd].
    rewrite Z.shiftl_mul_pow2, Z.shiftr_div_pow2 by lia.
    assert (0 <= x * y / 2 ^ 32 < 2 ^ 32)
      by (split; [apply Z.div_pos|apply Z.div_lt_upper_bound]; lia).
    split; [unfold fits; lia|].
    change (2 ^ 64) with (2 ^ 32 * 2 ^ 32) at 1. rewrite Zmult_mod_distr_r.
    pose proof (Z.div_mod (x * y) (2 ^ 32)). lia. }
  destruct (Hs a0 b1) as (F1 & F2 & V1); [done|done|].
  destruct (Hs a1 b0) as (F3 & F4 & V2); [done|done|].
  destruct (add128_val (a0 * b0) 0 (wrap 64 (Z.shiftl (a0 * b1) 32)) (Z.shiftr (a0 * b1) 32))
    as (R1 & G1 & G2); try done.
  { specialize (Hm a0 b0 Ha0 Hb0). unfold fits. lia. }
  destruct (add128 (a0 * b0) 0 _ _) as [l1 h1]. cbn [fst snd] in *.
  destruct (add128_val l1 h1 (wrap 64 (Z.shiftl (a1 * b0) 32)) (Z.shiftr (a1 * b0) 32))
    as (R2 & G3 & G4); try done.
  destruct (add128 l1 h1 _ _) as [l2 h2]. cbn [fst snd] in *.
  rewrite V1 in R1. rewrite V2, R1 in R2. unfold val128 in *. cbn [fst snd] in *.
  pose proof (Hm a0 b0 Ha0 Hb0). pose proof (Hm a0 b1 Ha0 Hb1).
  pose proof (Hm a1 b0 Ha1 Hb0). pose proof (Hm a1 b1 Ha1 Hb1).
  rewrite Z.mod_small in R2; rewrite (Z.mod_small (a0 * b0 + _ + _)) in * by lia; [|lia].
  assert (0 <= h2 + a1 * b1 < 2 ^ 64) as Hh by (unfold fits in *; nia).
  unfold wrap. rewrite (Z.mod_small (h2 + _)) by done. split; [nia|done].
Qed.

Lemma not64_val x : fits 64 x -> not64 x = 2 ^ 64 - 1 - x.
Proof.
  unfold fits, not64, wrap. intros H. rewrite <- (Z_mod_plus_full _ 1), Z.mod_small;
    unfold Z.lnot; lia.
Qed.
Lemma neg128_val l h : fits 64 l -> fits 64 h ->
  val128 (neg128 l h) = (- val128 (l, h)) mod 2 ^ 128.
Proof.
  intros Hl Hh. unfold neg128. rewrite !not64_val by done.
  destruct (add128_val (2 ^ 64 - 1 - l) (2 ^ 64 - 1 - h) 1 0) as (-> & _ & _);
    try (unfold fits in *; lia).
  unfold val128. cbn [fst snd]. rewrite <- (Z_mod_plus_full (- _) 1). f_equal. lia.
Qed.

Lemma abs64 x : - 2 ^ 63 < x < 2 ^ 63 ->
  (if x <? 0 then neg64 x else Some x) = Some (Z.abs x) /\ fits 64 (Z.abs x).
Proof.
  intros Hx. unfold neg64, fits. destruct (Z.ltb_spec x 0).
  - destruct (Z.eqb_spec x (- 2 ^ 63)); [lia|]. split; [f_equal; lia|lia].
  - split; [f_equal; lia|lia].
Qed.

(** The portable 64-bit multiplications are exact.  mulu64 returns the full
    128-bit product of any two uint64_t, no carry being lost; muls64 returns the
    product of two int64_t in 128-bit two's complement for every pair without
    INT64_MIN, whose negation is undefined. *)
Theorem mul64_exact a b :
  (fits 64 a -> fits 64 b -> val128 (mulu64 a b) = a * b) /\
  (- 2 ^ 63 < a < 2 ^ 63 -> - 2 ^ 63 < b < 2 ^ 63 ->
   val128 <$> muls64 a b = Some ((a * b) mod 2 ^ 128)) /\
  (a = - 2 ^ 63 -> muls64 a b = None).
Proof.
  split; [intros; by apply mul64_val|]. split; [|by intros ->]. intros Ha Hb.
  destruct (abs64 a Ha) as [Ea Fa], (abs64 b Hb) as [Eb Fb].
  unfold muls64. rewrite Ea. cbn [mbind option_bind]. rewrite Eb. cbn [mbind option_bind].
  rewrite !wrap_fits by done.
  destruct (mul64_val (Z.abs a) (Z.abs b)) as (Hv & Hl & Hh); [done|done|].
  destruct (mul64 _ _) as [l h]. cbn [fst snd fmap option_fmap option_map] in *. f_equal.
  assert (val128 (l, h) = val128 (l, h) mod 2 ^ 128) as Hm.
  { unfold fits, val128 in *. cbn [fst snd] in *. rewrite Z.mod_small; lia. }
  rewrite Hv in Hm. destruct (Z.ltb_spec a 0), (Z.ltb_spec b 0); cbn [xorb];
    rewrite ?neg128_val, Hv by done; try rewrite Hm; f_equal; lia.
Qed.

Lemma muldiv64_val a b c : fits 64 a -> fits 32 b -> 0 < c < 2 ^ 32 ->
  muldiv64 a b c = (a * b / c) mod 2 ^ 64.
Proof.
  intros Ha Hb Hc. destruct (split32 a Ha) as (Ea & Ha0 & Ha1). unfold muldiv64.
  set (lo := wrap 32 a) in *. set (hi := wrap 32 (Z.shiftr a 32)) in *.
  unfold fits in Hb, Ha0, Ha1.
  assert (0 <= lo * b <= (2 ^ 32 - 1) * (2 ^ 32 - 1)) as Hl by nia.
  assert (0 <= hi * b <= (2 ^ 32 - 1) * (2 ^ 32 - 1)) as Hh by nia.
  rewrite (wrap_fits 64 (lo * b)), (wrap_fits 64 (hi * b)) by (unfold fits; lia).
  rewrite Z.shiftr_div_pow2 by lia.
  assert (0 <= lo * b / 2 ^ 32 < 2 ^ 32) as Hq
    by (split; [apply Z.div_pos|apply Z.div_lt_upper_bound]; lia).
  rewrite (wrap_fits 64 (hi * b + _)) by (unfold fits; lia).
  set (rh := hi * b + lo * b / 2 ^ 32) in *.
  change 0xffffffff with (Z.ones 32). rewrite Z.land_ones by lia.
  set (rl := lo * b mod 2 ^ 32).
  assert (a * b = 2 ^ 32 * rh + rl) as Hab.
  { subst rh rl. pose proof (Z.div_mod (lo * b) (2 ^ 32)). nia. }
  pose proof (Z.mod_pos_bound (lo * b) (2 ^ 32) ltac:(lia)) as Hrl. fold rl in Hrl.
  pose proof (Z.mod_pos_bound rh c ltac:(lia)) as Hr.
  rewrite !Z.shiftl_mul_pow2 by lia.
  rewrite (wrap_fits 64 (rh mod c * 2 ^ 32)) by (unfold fits; nia).
  rewrite (wrap_fits 64 (rh mod c * 2 ^ 32 + rl)) by (unfold fits; nia).
  set (q := (rh mod c * 2 ^ 32 + rl) / c).
  assert (0 <= q < 2 ^ 32) as Hqq.
  { subst q. split; [apply Z.div_pos; nia|apply Z.div_lt_upper_bound; nia]. }
  rewrite (wrap_fits 32 q) by done.
  assert (a * b / c = 2 ^ 32 * (rh / c) + q) as ->.
  { rewrite Hab. subst q. pose proof (Z.div_mod rh c ltac:(lia)) as Hd.
    replace (2 ^ 32 * rh + rl) with ((2 ^ 32 * (rh / c)) * c + (rh mod c * 2 ^ 32 + rl)) by nia.
    by rewrite Z.div_add_l by lia. }
  assert (0 <= rh / c) as Hrc by (apply Z.div_pos; nia).
  unfold wrap.
  rewrite (or_disjoint ((rh / c) mod 2 ^ 32) q 32) by (done || lia).
  pose proof (Z.div_mod (rh / c) (2 ^ 32) ltac:(lia)) as Hd.
  pose proof (Z.mod_pos_bound (rh / c) (2 ^ 32) ltac:(lia)).
  apply (Z.mod_unique_pos _ _ (rh / c / 2 ^ 32)); lia.
Qed.

(** Muldiv64 computes (a * b) / c: for every uint64_t [a] and uint32_t [b] and
    [c], c non-zero, the result is the exact quotient, truncated to 64 bits when it
    does not fit; the 96-bit intermediate product never overflows. *)
Theorem muldiv64_spec a b c : fits 64 a -> fits 32 b -> 0 < c < 2 ^ 32 ->
  muldiv64 a b c = (a * b / c) mod 2 ^ 64.
Proof. apply muldiv64_val. Qed.

(** ** Bit scans *)
Lemma top_mask w k val : 0 <= k <= w -> fits w val ->
  truth (Z.land val (Z.shiftl (Z.ones k) (w - k))) = (2 ^ (w - k) <=? val).
Proof.
  intros Hk Hv. assert (Z.land val (Z.shiftl (Z.ones k) (w - k)) = val / 2 ^ (w - k) * 2 ^ (w - k)) as ->.
  { rewrite <- Z.shiftl_mul_pow2, <- Z.shiftr_div_pow2, <- Z.ldiff_ones_r by lia.
    apply Z.bits_inj'. intros i Hi. rewrite Z.land_spec, Z.ldiff_spec, Z.shiftl_spec by lia.
    rewrite !Z.testbit_ones by lia. destruct (Z.lt_ge_cases i w).
    - f_equal. destruct (Z.leb_spec 0 (i - (w - k))), (Z.ltb_spec (i - (w - k)) k),
        (Z.leb_spec 0 i), (Z.ltb_spec i (w - k)); simpl; done || lia.
    - by rewrite (fits_testbit w val i) by (done || lia). }
  unfold fits in Hv. pose proof (Z.div_mod val (2 ^ (w - k)) ltac:(lia)).
  pose proof (Z.mod_pos_bound val (2 ^ (w - k)) ltac:(lia)).
  apply eq_bool_prop_intro. rewrite !Is_true_true, truth_true, Z.leb_le.
  split; intros; [|nia].
  assert (0 <= val / 2 ^ (w - k)) by (apply Z.div_pos; lia).
  assert (val / 2 ^ (w - k) <> 0) by (intros E; rewrite E in *; lia). nia.
Qed.

(** After the step that may shift by [k] the value is at least 2^(32-k). *)
Definition clz_inv (v : Z) (n : Z) '(val, cnt) : Prop :=
  fits 32 val /\ 0 <= cnt /\ val = v * 2 ^ cnt /\ 2 ^ (32 - n) <= val.
Lemma clz_step v k vc : 0 <= k <= 16 -> clz_inv v (2 * k) vc ->
  clz_inv v k (clz32_step (Z.shiftl (Z.ones k) (32 - k)) k vc).
Proof.
  destruct vc as [val cnt]. intros Hk (Hf & Hc & Hv & Hlo). unfold clz32_step.
  rewrite (top_mask 32) by (done || lia). destruct (Z.leb_spec (2 ^ (32 - k)) val); [done|].
  assert (2 ^ (32 - 2 * k) * 2 ^ k = 2 ^ (32 - k)) as Hp by (rewrite <- Z.pow_add_r by lia; f_equal; lia).
  assert (2 ^ (32 - k) * 2 ^ k = 2 ^ 32) as Hp' by (rewrite <- Z.pow_add_r by lia; f_equal; lia).
  assert (0 < 2 ^ k) by lia. unfold fits in *. rewrite Z.shiftl_mul_pow2 by lia.
  assert (2 ^ (32 - k) <= val * 2 ^ k < 2 ^ 32) by nia.
  assert (2 ^ (cnt + k) = 2 ^ cnt * 2 ^ k) as Hpk by (apply Z.pow_add_r; lia).
  rewrite wrap_fits by (unfold fits; lia). unfold clz_inv, fits.
  split; [lia|]. split; [lia|]. split; [|lia]. rewrite Hpk, Hv. lia.
Qed.

Lemma clz32_log2 v : fits 32 v -> clz32 v = if v =? 0 then 32 else 31 - Z.log2 v.
Proof.
  intros Hf. destruct (Z.eqb_spec v 0) as [->|Hne]; [reflexivity|]. unfold clz32.
  assert (clz_inv v (2 * 16) (v, 0)) as H by (unfold clz_inv, fits in *; lia).
  apply (clz_step v 16) in H; [|lia]. change (Z.shiftl _ _) with 0xFFFF0000 in H.
  destruct (clz32_step 0xFFFF0000 16 (v, 0)).
  apply (clz_step v 8) in H; [|lia]. change (Z.shiftl _ _) with 0xFF000000 in H.
  destruct (clz32_step 0xFF000000 8 _).
  apply (clz_step v 4) in H; [|lia]. change (Z.shiftl _ _) with 0xF0000000 in H.
  destruct (clz32_step 0xF0000000 4 _).
  apply (clz_step v 2) in H; [|lia]. change (Z.shiftl _ _) with 0xC0000000 in H.
  destruct (clz32_step 0xC0000000 2 _).
  apply (clz_step v 1) in H; [|lia]. change (Z.shiftl _ _) with 0x80000000 in H.
  destruct (clz32_step 0x80000000 1 _) as [val cnt]. destruct H as (Hv & Hc & He & Hlo).
  change 0x80000000 with (Z.shiftl (Z.ones 1) (32 - 1)). rewrite (top_mask 32) by (done || lia).
  destruct (Z.leb_spec (2 ^ (32 - 1)) val); [|lia].
  unfold fits in *. assert (cnt <= 31).
  { destruct (Z.le_gt_cases cnt 31); [done|].
    assert (2 ^ 32 <= 2 ^ cnt) by (apply Z.pow_le_mono_r; lia). nia. }
  rewrite (Z.log2_unique v (31 - cnt)); try lia.
  assert (2 ^ (31 - cnt) * 2 ^ cnt = 2 ^ 31) by (rewrite <- Z.pow_add_r by lia; f_equal; lia).
  assert (2 ^ Z.succ (31 - cnt) * 2 ^ cnt = 2 ^ 32) by (rewrite <- Z.pow_add_r by lia; f_equal; lia).
  assert (0 < 2 ^ cnt) by lia. change (2 ^ (32 - 1)) with (2 ^ 31) in *. nia.
Qed.

(** [i] is the lowest set bit of [v]. *)
Definition lowest_bit (v i : Z) : Prop :=
  0 <= i /\ Z.testbit v i = true /\ forall j, j < i -> Z.testbit v j = false.

Definition ctz_inv (v n : Z) '(val, cnt) : Prop :=
  0 <= cnt /\ v = val * 2 ^ cnt /\ val mod 2 ^ n <> 0.
Lemma ctz_step v k vc : 0 <= k -> ctz_inv v (2 * k) vc ->
  ctz_inv v k (ctz32_step (Z.ones k) k vc).
Proof.
  destruct vc as [val cnt]. intros Hk (Hc & Hv & Hlo). unfold ctz32_step.
  rewrite Z.land_ones by lia. destruct (truth (val mod 2 ^ k)) eqn:Ht.
  - apply truth_true in Ht. done.
  - apply truth_false in Ht. rewrite Z.shiftr_div_pow2 by lia.
    pose proof (Z.div_mod val (2 ^ k) ltac:(lia)) as Hd. rewrite Ht in Hd.
    split; [lia|]. split.
    + rewrite Hv, Z.pow_add_r by lia. nia.
    + intros H0. apply Hlo. rewrite Hd, Z.add_0_r.
      replace (2 * k) with (k + k) by lia. rewrite Z.pow_add_r by lia.
      rewrite Zmult_mod_distr_l, H0. lia.
Qed.
Lemma ctz32_lowest v : 0 <= v -> v mod 2 ^ 32 <> 0 -> lowest_bit v (ctz32 v).
Proof.
  intros Hf Hne. unfold ctz32.
  assert (ctz_inv v (2 * 16) (v, 0)) as H by (split_and!; [lia..|done]).
  apply (ctz_step v 16) in H; [|lia]. change (Z.ones 16) with 0x0000FFFF in H.
  destruct (ctz32_step 0x0000FFFF 16 (v, 0)).
  apply (ctz_step v 8) in H; [|lia]. change (Z.ones 8) with 0x000000FF in H.
  destruct (ctz32_step 0x000000FF 8 _).
  apply (ctz_step v 4) in H; [|lia]. change (Z.ones 4) with 0x0000000F in H.
  destruct (ctz32_step 0x0000000F 4 _).
  apply (ctz_step v 2) in H; [|lia]. change (Z.ones 2) with 0x00000003 in H.
  destruct (ctz32_step 0x00000003 2 _).
  apply (ctz_step v 1) in H; [|lia]. change (Z.ones 1) with 0x00000001 in H.
  destruct (ctz32_step 0x00000001 1 _) as [val cnt]. destruct H as (Hc & Hv & Hodd).
  change 0x00000001 with (Z.ones 1). rewrite Z.land_ones by lia.
  rewrite (proj2 (truth_true _)) by done. split_and!; [done| |].
  - rewrite Hv, Z.mul_pow2_bits, Z.sub_diag, Z.bit0_odd by lia.
    pose proof (Zmod_odd val). change (2 ^ 1) with 2 in Hodd. by destruct (Z.odd val).
  - intros j Hj. rewrite Hv. by apply Z.mul_pow2_bits_low.
Qed.

(** [n] is the length of the run of bits [b] at the top (bottom) of the [w]-bit
    word [v]. *)
Definition leading (w v : Z) (b : bool) (n : Z) : Prop :=
  0 <= n <= w /\ (forall i, w - n <= i < w -> Z.testbit v i = b) /\
  (n < w -> Z.testbit v (w - 1 - n) = negb b).
Definition trailing (w v : Z) (b : bool) (n : Z) : Prop :=
  0 <= n <= w /\ (forall i, 0 <= i < n -> Z.testbit v i = b) /\
  (n < w -> Z.testbit v n = negb b).

Lemma leading_log2 w v n : 0 <= w -> fits w v ->
  n = (if v =? 0 then w else w - 1 - Z.log2 v) -> leading w v false n.
Proof.
  unfold fits. intros Hw Hv ->. destruct (Z.eqb_spec v 0) as [->|Hne].
  - split_and!; [lia..| |lia]. intros. apply Z.bits_0.
  - pose proof (Z.log2_nonneg v). assert (Z.log2 v < w) by (apply Z.log2_lt_pow2; lia).
    split_and!; [lia..| |].
    + intros. apply Z.bits_above_log2; lia.
    + intros _. replace (w - 1 - _) with (Z.log2 v) by lia. apply Z.bit_log2. lia.
Qed.
Lemma leading_not w v n : 0 <= w -> leading w (wrap w (Z.lnot v)) false n -> leading w v true n.
Proof.
  intros Hw (Hn & H1 & H2).
  assert (forall i, 0 <= i < w -> Z.testbit v i = negb (Z.testbit (wrap w (Z.lnot v)) i)) as E.
  { intros i Hi. rewrite wrap_testbit, Z.lnot_spec by lia.
    rewrite (proj2 (Z.ltb_lt i w)) by lia. by destruct (Z.testbit v i). }
  split_and!; [lia..| |].
  - intros i Hi. by rewrite E, H1 by lia.
  - intros Hlt. by rewrite E, H2 by lia.
Qed.
Lemma trailing_lowest w v n : 0 <= n <= w -> lowest_bit v n -> trailing w v false n.
Proof. intros Hn (H0 & H1 & H2). split_and!; [lia..| |done]. intros. apply H2. lia. Qed.
Lemma trailing_not w v n : 0 <= w -> trailing w (wrap w (Z.lnot v)) false n -> trailing w v true n.
Proof.
  intros Hw (Hn & H1 & H2).
  assert (forall i, 0 <= i < w -> Z.testbit v i = negb (Z.testbit (wrap w (Z.lnot v)) i)) as E.
  { intros i Hi. rewrite wrap_testbit, Z.lnot_spec by lia.
    rewrite (proj2 (Z.ltb_lt i w)) by lia. by destruct (Z.testbit v i). }
  split_and!; [lia..| |].
  - intros i Hi. by rewrite E, H1 by lia.
  - intros Hlt. by rewrite E, H2 by lia.
Qed.

Lemma clz32_leading v : fits 32 v -> leading 32 v false (clz32 v).
Proof. intros Hv. apply leading_log2; [lia|done|]. rewrite clz32_log2 by done. done. Qed.
Lemma clz64_log2 v : fits 64 v -> clz64 v = if v =? 0 then 64 else 63 - Z.log2 v.
Proof.
  intros Hv. unfold clz64, fits in *. rewrite Z.shiftr_div_pow2 by lia.
  assert (0 <= v / 2 ^ 32 < 2 ^ 32) by (split; [apply Z.div_pos|apply Z.div_lt_upper_bound]; lia).
  destruct (truth (v / 2 ^ 32)) eqn:Ht.
  - apply truth_true in Ht. rewrite wrap_fits, clz32_log2 by (unfold fits; lia).
    rewrite (proj2 (Z.eqb_neq _ 0)) by done. rewrite (proj2 (Z.eqb_neq v 0)).
    + assert (2 ^ 32 <= v).
      { destruct (Z.lt_ge_cases v (2 ^ 32)); [|done]. exfalso. apply Ht, Z.div_small. lia. }
      assert (32 <= Z.log2 v) by (apply Z.log2_le_pow2; lia).
      rewrite <- Z.shiftr_div_pow2 by lia. rewrite Z.log2_shiftr by lia. lia.
    + intros ->. by apply Ht.
  - apply truth_false in Ht. assert (v < 2 ^ 32) by (apply Z.div_small_iff in Ht; lia).
    rewrite wrap_fits, clz32_log2 by (unfold fits; lia). destruct (v =? 0); lia.
Qed.
Lemma clz64_leading v : fits 64 v -> leading 64 v false (clz64 v).
Proof. intros Hv. apply leading_log2; [lia|done|]. rewrite clz64_log2 by done. done. Qed.
(** Shifting by the leading zeros stays within the word. *)
Lemma clz64_shift v k : fits 64 v -> 0 <= k <= clz64 v -> 0 <= v * 2 ^ k < 2 ^ 64.
Proof.
  intros Hv Hk. rewrite clz64_log2 in Hk by done. unfold fits in Hv.
  destruct (Z.eqb_spec v 0) as [->|Hne]; [lia|].
  pose proof (Z.log2_spec v ltac:(lia)) as [_ Hlt].
  assert (2 ^ Z.succ (Z.log2 v) * 2 ^ (63 - Z.log2 v) = 2 ^ 64) as Hp.
  { pose proof (Z.log2_nonneg v). rewrite <- Z.pow_add_r by lia. f_equal. lia. }
  assert (2 ^ k <= 2 ^ (63 - Z.log2 v)) by (apply Z.pow_le_mono_r; lia).
  assert (0 < 2 ^ k) by lia. nia.
Qed.
Lemma ctz32_trailing v : fits 32 v -> trailing 32 v false (ctz32 v).
Proof.
  intros Hv. destruct (Z.eq_dec v 0) as [->|Hne].
  { split_and!; [done..| |done]. intros. apply Z.bits_0. }
  assert (lowest_bit v (ctz32 v)) as Hl.
  { unfold fits in Hv. apply ctz32_lowest; [lia|]. rewrite Z.mod_small; lia. }
  apply trailing_lowest; [|done]. destruct Hl as (H0 & H1 & _). split; [done|].
  destruct (Z.le_gt_cases (ctz32 v) 32); [done|].
  by rewrite (fits_testbit 32 v) in H1 by (done || lia).
Qed.
Lemma fits_high v : fits 64 v -> fits 32 (Z.shiftr v 32).
Proof.
  unfold fits. intros. rewrite Z.shiftr_div_pow2 by lia.
  split; [apply Z.div_pos; lia|apply Z.div_lt_upper_bound; lia].
Qed.
Lemma ctz64_trailing v : fits 64 v -> trailing 64 v false (ctz64 v).
Proof.
  intros Hv. unfold ctz64. destruct (truth (wrap 32 v)) eqn:Ht.
  - apply truth_true in Ht. destruct (ctz32_trailing (wrap 32 v)) as (Hn & H1 & H2); [by apply fits_wrap|].
    assert (forall i, 0 <= i < 32 -> Z.testbit v i = Z.testbit (wrap 32 v) i) as E.
    { intros. rewrite wrap_testbit by lia. by rewrite (proj2 (Z.ltb_lt i 32)) by lia. }
    assert (ctz32 (wrap 32 v) < 32).
    { destruct (Z.lt_ge_cases (ctz32 (wrap 32 v)) 32); [done|]. exfalso. apply Ht.
      apply Z.bits_inj'. intros i Hi. rewrite Z.bits_0. destruct (Z.lt_ge_cases i 32).
      - apply H1. lia.
      - eapply fits_testbit; [|by apply (fits_wrap 32)|]; lia. }
    cbv iota. rewrite Z.add_0_l. split_and!; [lia..| |].
    + intros. rewrite E by lia. by apply H1.
    + intros _. rewrite E by lia. by apply H2.
  - apply truth_false in Ht. rewrite wrap_fits by (by apply fits_high).
    destruct (ctz32_trailing (Z.shiftr v 32)) as (Hn & H1 & H2); [by apply fits_high|].
    split_and!; [lia..| |].
    + intros i Hi. destruct (Z.lt_ge_cases i 32).
      * transitivity (Z.testbit (wrap 32 v) i); [|by rewrite Ht, Z.bits_0].
        rewrite wrap_testbit by lia. by rewrite (proj2 (Z.ltb_lt i 32)) by lia.
      * replace i with ((i - 32) + 32) by lia. rewrite <- Z.shiftr_spec by lia. apply H1. lia.
    + intros Hlt. rewrite Z.add_comm, <- Z.shiftr_spec by lia. apply H2. lia.
Qed.

(** The bit scans count what their names say: clz/clo return the length of the
    run of zeros/ones at the top of the word, ctz/cto the run at its bottom, and
    the full width for a word of one kind of bits only. *)
Theorem bit_scans v :
  (fits 32 v -> leading 32 v false (clz32 v) /\ leading 32 v true (clo32 v) /\
                trailing 32 v false (ctz32 v) /\ trailing 32 v true (cto32 v)) /\
  (fits 64 v -> leading 64 v false (clz64 v) /\ leading 64 v true (clo64 v) /\
                trailing 64 v false (ctz64 v) /\ trailing 64 v true (cto64 v)).
Proof.
  unfold clo32, clo64, cto32, cto64, not32, not64. split; intros Hv; split_and!;
    [by apply clz32_leading|apply leading_not; [lia|]; apply clz32_leading
    |by apply ctz32_trailing|apply trailing_not; [lia|]; apply ctz32_trailing
    |by apply clz64_leading|apply leading_not; [lia|]; apply clz64_leading
    |by apply ctz64_trailing|apply trailing_not; [lia|]; apply ctz64_trailing];
    by apply fits_wrap.
Qed.

(** ** BCD *)
Lemma bcd_roundtrip v : 0 <= v < 100 -> from_bcd (to_bcd v) = v.
Proof.
  intros Hv.
  assert (forallb (fun n => from_bcd (to_bcd (Z.of_nat n)) =? Z.of_nat n) (seq 0 100) = true) as H
    by (vm_compute; reflexivity).
  rewrite forallb_forall in H. specialize (H (Z.to_nat v)). rewrite Z2Nat.id in H by lia.
  apply Z.eqb_eq, H. apply in_seq. lia.
Qed.

(** ** The calendar *)
(** The Gregorian calendar, counted day by day. *)
Definition leap (y : Z) : bool :=
  (y mod 4 =? 0) && negb (y mod 100 =? 0) || (y mod 400 =? 0).
Definition month_len (y m : Z) : Z :=
  if m =? 2 then (if leap y then 29 else 28)
  else if (m =? 4) || (m =? 6) || (m =? 9) || (m =? 11) then 30 else 31.
Fixpoint days_of_years (n : nat) : Z :=
  match n with
  | O => 0
  | S n => days_of_years n + (if leap (1970 + Z.of_nat n) then 366 else 365)
  end.
Fixpoint days_of_months (y : Z) (n : nat) : Z :=
  match n with O => 0 | S n => days_of_months y n + month_len y (Z.of_nat n + 1) end.
(** Days from 1 January 1970 to day [d] of month [m] of year [y]. *)
Definition day_number (y m d : Z) : Z :=
  days_of_years (Z.to_nat (y - 1970)) + days_of_months y (Z.to_nat (m - 1)) + (d - 1).

Lemma leap_div y : 1 <= y ->
  (if leap y then 1 else 0) =
  (y / 4 - y / 100 + y / 400) - ((y - 1) / 4 - (y - 1) / 100 + (y - 1) / 400).
Proof.
  intros Hy. unfold leap.
  assert (forall k, k > 0 -> y / k - (y - 1) / k = if y mod k =? 0 then 1 else 0) as H.
  { intros k Hk. pose proof (Z.div_mod y k ltac:(lia)). pose proof (Z.mod_pos_bound y k ltac:(lia)).
    destruct (Z.eqb_spec (y mod k) 0).
    - rewrite <- (Z.div_unique_pos (y - 1) k (y / k - 1) (k - 1)); lia.
    - rewrite <- (Z.div_unique_pos (y - 1) k (y / k) (y mod k - 1)); lia. }
  pose proof (H 4 ltac:(lia)). pose proof (H 100 ltac:(lia)). pose proof (H 400 ltac:(lia)).
  destruct (Z.eqb_spec (y mod 4) 0), (Z.eqb_spec (y mod 100) 0), (Z.eqb_spec (y mod 400) 0);
    cbn [andb orb negb]; try lia; exfalso; Z.to_euclidean_division_equations; lia.
Qed.

Lemma days_of_years_closed n : let y := 1969 + Z.of_nat n in
  days_of_years n = 365 * Z.of_nat n + (y / 4 - y / 100 + y / 400) - 477.
Proof.
  induction n as [|n IH]; [reflexivity|]. cbn [days_of_years]. cbv zeta in *. rewrite IH.
  pose proof (leap_div (1970 + Z.of_nat n) ltac:(lia)) as H.
  replace (1970 + Z.of_nat n - 1) with (1969 + Z.of_nat n) in H by lia.
  replace (1969 + Z.of_nat (S n)) with (1970 + Z.of_nat n) by lia.
  destruct (leap _); lia.
Qed.

Lemma days_of_months_closed y m : 1 <= m <= 12 ->
  days_of_months y (Z.to_nat (m - 1)) =
  if m <? 3 then (153 * (m + 12) - 457) / 5 - 306
  else (153 * m - 457) / 5 + 59 + (if leap y then 1 else 0).
Proof.
  intros Hm. assert (m = 1 \/ m = 2 \/ m = 3 \/ m = 4 \/ m = 5 \/ m = 6 \/ m = 7 \/ m = 8 \/
                     m = 9 \/ m = 10 \/ m = 11 \/ m = 12) as H by lia.
  destruct_or? H; subst m; cbv -[leap]; by destruct (leap y).
Qed.

Lemma years_bound y :
  let n := 365 * (y - 1970) + ((y - 1) / 4 - (y - 1) / 100 + (y - 1) / 400) - 477 in
  (1970 <= y <= 2037 -> -10 <= n <= 24480) /\ (2039 <= y -> 25180 <= n).
Proof. cbv zeta. split; intros; Z.to_euclidean_division_equations; lia. Qed.

(** The day count of mktimegm, before its product with 86400. *)
Definition mktimegm_days (y m d : Z) : Z :=
  let '(m, y) := if m <? 3 then (m + 12, y - 1) else (m, y) in
  d + Z.quot (153 * m - 457) 5 + 365 * y + Z.quot y 4 - Z.quot y 100 + Z.quot y 400 - 719469.
Lemma mktimegm_days_calendar y m d : 1970 <= y -> 1 <= m <= 12 ->
  mktimegm_days y m d = day_number y m d.
Proof.
  intros Hy Hm. unfold mktimegm_days, day_number.
  rewrite days_of_years_closed, days_of_months_closed by done. cbv zeta.
  replace (1969 + Z.of_nat (Z.to_nat (y - 1970))) with (y - 1) by lia.
  pose proof (leap_div y ltac:(lia)). rewrite Z2Nat.id by lia.
  destruct (Z.ltb_spec m 3); rewrite !Z.quot_div_nonneg by lia; lia.
Qed.

(** Mktimegm agrees with the Gregorian calendar: for every time of day on day [d]
    of month [m] of a year from 1970 to 2037 it returns the seconds elapsed since
    1 January 1970; from 2039 on the int product overflows, which is undefined. *)
Theorem mktimegm_calendar y m d h mi s w :
  1 <= m <= 12 -> 1 <= d <= 31 ->
  let r := mktimegm (mkTm s mi h d (m - 1) (y - 1900) w) in
  (1970 <= y <= 2037 -> r = Some (86400 * day_number y m d + 3600 * h + 60 * mi + s)) /\
  (2039 <= y -> r = None).
Proof.
  intros Hm Hd.
  assert (mktimegm (mkTm s mi h d (m - 1) (y - 1900) w) =
          t0 ← int32 (86400 * mktimegm_days y m d); Some (t0 + (3600 * h + 60 * mi + s))) as ->.
  { unfold mktimegm, mktimegm_days. cbn [tm_sec tm_min tm_hour tm_mday tm_mon tm_year].
    replace (y - 1900 + 1900) with y by lia. replace (m - 1 + 1) with m by lia.
    by destruct (m <? 3). }
  assert (forall y m, 0 <= days_of_months y m) as Hmn.
  { intros y0 k. induction k as [|k IH]; cbn [days_of_months]; [lia|]. unfold month_len.
    repeat match goal with |- context [if ?b then _ else _] => destruct b end; lia. }
  cbv zeta. split; intros Hy; rewrite mktimegm_days_calendar by lia; unfold int32, day_number;
    rewrite days_of_years_closed; cbv zeta;
    replace (1969 + Z.of_nat (Z.to_nat (y - 1970))) with (y - 1) by lia; rewrite Z2Nat.id by lia;
    set (n := y - 1970); set (c := (y - 1) / 4 - (y - 1) / 100 + (y - 1) / 400);
    pose proof (Hmn y (Z.to_nat (m - 1))).
  - assert (days_of_months y (Z.to_nat (m - 1)) <= 336).
    { rewrite days_of_months_closed by done. 
      destruct (Z.ltb_spec m 3), (leap y); clear c; Z.to_euclidean_division_equations; lia. }
    assert (-10 <= 365 * n + c - 477 <= 24480) by (by apply years_bound).
    rewrite (proj2 (Z.leb_le _ _)), (proj2 (Z.ltb_lt _ _)) by lia. cbn. f_equal. lia.
  - assert (25180 <= 365 * n + c - 477) by (by apply years_bound).
    rewrite (proj2 (Z.ltb_ge _ _)) by lia. by rewrite andb_false_r.
Qed.

(** ** Witnesses *)
Example mul64_exact_witness :
  val128 (mulu64 0xffffffffffffffff 0xfffffffffffffffe) = 0xffffffffffffffff * 0xfffffffffffffffe /\
  val128 <$> muls64 (- 2 ^ 63 + 1) 3 = Some (((- 2 ^ 63 + 1) * 3) mod 2 ^ 128).
Proof.
  split.
  - apply (mul64_exact 0xffffffffffffffff 0xfffffffffffffffe); unfold fits; lia.
  - apply (mul64_exact (- 2 ^ 63 + 1) 3); lia.
Defined.
Example muldiv64_spec_witness :
  muldiv64 0xffffffffffff 66000000 1000000000 = 18577348462903.
Proof. rewrite (muldiv64_spec 0xffffffffffff 66000000 1000000000) by (unfold fits; lia). reflexivity. Defined.
Example bit_scans_witness : leading 32 0x00010000 false 15 /\ trailing 64 0xff true 8.
Proof.
  split.
  - change 15 with (clz32 0x00010000). apply (bit_scans 0x00010000). unfold fits; lia.
  - change 8 with (cto64 0xff). apply (bit_scans 0xff). unfold fits; lia.
Defined.

Example mktimegm_calendar_witness :
  mktimegm (mkTm 0 0 0 1 1 100 2) = Some (86400 * day_number 2000 2 1) /\
  mktimegm (mkTm 0 0 0 1 0 139 6) = None.
Proof.
  split.
  - pose proof (mktimegm_calendar 2000 2 1 0 0 0 2 ltac:(lia) ltac:(lia)) as [H _].
    specialize (H ltac:(lia)). vm_compute in H |- *. exact H.
  - pose proof (mktimegm_calendar 2039 1 1 0 0 0 6 ltac:(lia) ltac:(lia)) as [_ H].
    specialize (H ltac:(lia)). vm_compute in H |- *. exact H.
Defined.
