(* ===== verification/Irq.v ===== *)
(** * Irq: interrupt lines (hw/irq.c) and the board's interrupt multiplexer
    (hw/s5pc1xx.c)

    A qemu_irq is a pointer to a handler of another device.  Here it is a pin
    number of an [IrqBank]: a type of states [P] with the operation [set_irq].
    [IrqBankLaws] is what a bank promises to the devices that drive its pins; the
    devices' theorems are proved against it.  Two banks are given: plain wires
    (below) and the input pins of the board's PL192 chain (file Pl192). *)
From S2P Require Import Prelude.

Class IrqBank (P : Type) := set_irq : nat -> Z -> ST P unit.

(** What a driver may rely on: from a good state a valid pin takes any level, the
    bank stays good, that pin has the level, and no other pin changes. *)
Class IrqBankLaws (P : Type) {B : IrqBank P} := {
  irq_inv : P -> Prop;
  irq_pin : nat -> Prop;
  irq_level : P -> nat -> bool;
  set_irq_spec p n l : irq_inv p -> irq_pin n ->
    wp no_err (set_irq n l)
       (fun _ p' => irq_inv p' /\ irq_level p' n = truth l /\
                    forall m, m <> n -> irq_level p' m = irq_level p m) p
}.

Section qemu_irq.
  Context {P : Type} `{!IrqBank P}.

  (** [irq] is NULL or a pin. *)
Definition qemu_set_irq (irq : option nat) (level : Z) : ST P unit :=
    match irq with
    | None => mret tt
    | Some n => set_irq n level
    end.
Definition qemu_irq_raise (irq : option nat) : ST P unit := qemu_set_irq irq 1.
Definition qemu_irq_lower (irq : option nat) : ST P unit := qemu_set_irq irq 0.
Definition qemu_irq_pulse (irq : option nat) : ST P unit :=
    qemu_set_irq irq 1 ;; qemu_set_irq irq 0.
  (** The handler of the line made by qemu_irq_invert. *)
Definition qemu_notirq (irq : option nat) (level : Z) : ST P unit :=
    qemu_set_irq irq (Z.b2z (negb (truth level))).
  (** qemu_irq_invert raises the line it inverts, since inputs start low. *)
Definition qemu_irq_invert (irq : option nat) : ST P unit := qemu_irq_raise irq.

  (** Running a computation on one half of a pair. *)
Definition on_bank {D A} (m : ST P A) : ST (D * P) A := fun '(d, p) =>
    match m p with Ok (a, p') => Ok (a, (d, p')) | Err e => Err e end.
Definition on_dev {D A} (m : ST D A) : ST (D * P) A := fun '(d, p) =>
    match m d with Ok (a, d') => Ok (a, (d', p)) | Err e => Err e end.

Lemma wp_on_bank {D A} E (m : ST P A) (Q : A -> D * P -> Prop) d p :
    wp E (on_bank m) Q (d, p) <-> wp E m (fun a p' => Q a (d, p')) p.
  Proof. unfold wp, on_bank. by destruct (m p) as [[??]|]. Qed.
Lemma wp_on_dev {D A} E (m : ST D A) (Q : A -> D * P -> Prop) d p :
    wp E (on_dev m) Q (d, p) <-> wp E m (fun a d' => Q a (d', p)) d.
  Proof. unfold wp, on_dev. by destruct (m d) as [[??]|]. Qed.

  Context `{!IrqBankLaws P}.

  (** The level an observer sees on a possibly unconnected line. *)
Definition line_valid (irq : option nat) : Prop :=
    match irq with None => True | Some n => irq_pin n end.
Definition line_is (p : P) (irq : option nat) (b : bool) : Prop :=
    match irq with None => True | Some n => irq_level p n = b end.
Definition lines_same_but (p p' : P) (irq : option nat) : Prop :=
    forall m, Some m <> irq -> irq_level p' m = irq_level p m.

Lemma qemu_set_irq_spec p irq l :
    irq_inv p -> line_valid irq ->
    wp no_err (qemu_set_irq irq l)
       (fun _ p' => irq_inv p' /\ line_is p' irq (truth l) /\ lines_same_but p p' irq) p.
  Proof.
    intros Hp Hv. destruct irq as [n|]; simpl in *.
    - eapply wp_mono; [by apply set_irq_spec|]. intros [] p' (Hp' & Hl & Hm).
      split; [done|]. split; [done|]. intros m Hne. apply Hm. congruence.
    - apply wp_ret. split; [done|]. split; [done|]. by intros m.
  Qed.
End qemu_irq.

(** ** Plain wires *)
Abbreviation wires := (list bool).
#[export] Instance wires_bank : IrqBank wires := fun n l =>
  modify (fun p => <[n := truth l]> p).

(** [qemu_allocate_irqs(h, o, n)]: [n] lines, initially low. *)
Definition qemu_allocate_irqs (n : nat) : wires := replicate n false.

(** Wires with [k] lines; the laws hold for every [k]. *)
Section wires.
  Context (k : nat).
#[export, program] Instance wires_laws : IrqBankLaws wires := {|
    irq_inv p := length p = k;
    irq_pin n := (n < k)%nat;
    irq_level p n := nth n p false
  |}.
  Next Obligation.
    intros p n l Hp Hn. simpl in *. apply wp_modify. split; [by rewrite length_insert|]. split.
    - erewrite nth_lookup_Some; [done|]. apply list_lookup_insert_eq. lia.
    - intros m Hm. rewrite !nth_lookup. by rewrite list_lookup_insert_ne.
  Qed.
End wires.

(** ** struct irq_multiplexer_s: several sources ORed onto one line *)
Module Mux.
Record mux := mkMux { parent : option nat; count : Z; mask : list Z }.
#[export] Instance eta_mux : Eta mux := fun r => mkMux (parent r) (count r) (mask r).

  (** irq_multiplexer(): the mask gets (n + 7) << 3 zero bytes. *)
Definition irq_multiplexer (irq : option nat) (n : nat) : mux :=
    mkMux irq 0 (replicate ((n + 7) * 8) 0).

  Section handler.
    Context {P : Type} `{!IrqBank P}.

Definition irq_mult_handler (irq level : Z) : ST (mux * P) unit :=
      '(s, _) ← get;
      m ← deref (rd (mask s) (Z.shiftr irq 3));
      let old_level := Z.land (Z.shiftr m (Z.land irq 7)) 1 in
      (if negb (truth old_level) && truth level then
         mask' ← deref (wr (mask s) (Z.shiftr irq 3)
                           (wrap 8 (Z.lor m (bit (Z.land irq 7)))));
         let s := s <| count := count s + 1 |> <| mask := mask' |> in
         on_dev (put s) ;;
         if count s =? 1 then on_bank (qemu_irq_raise (parent s)) else mret tt
       else mret tt) ;;
      (if truth old_level && negb (truth level) then
         mask' ← deref (wr (mask s) (Z.shiftr irq 3)
                           (wrap 8 (Z.land m (Z.lnot (bit (Z.land irq 7))))));
         let s := s <| count := count s - 1 |> <| mask := mask' |> in
         on_dev (put s) ;;
         if count s =? 0 then on_bank (qemu_irq_lower (parent s)) else mret tt
       else mret tt).
  End handler.

  (** Input [i] as recorded in the mask. *)
Definition input (s : mux) (i : nat) : bool :=
    match rd (mask s) (Z.shiftr (Z.of_nat i) 3) with
    | Some m => Z.testbit m (Z.land (Z.of_nat i) 7)
    | None => false
    end.
Fixpoint count_true (f : nat -> bool) (n : nat) : Z :=
    match n with O => 0 | S n => Z.b2z (f n) + count_true f n end.

Lemma count_true_ext f g n :
    (forall i, (i < n)%nat -> f i = g i) -> count_true f n = count_true g n.
  Proof.
    induction n as [|n IH]; intros H; simpl; [done|].
    rewrite H, IH; [done| |lia]. intros. apply H. lia.
  Qed.
Lemma count_true_set f g n k : (k < n)%nat ->
    (forall i, (i < n)%nat -> i <> k -> g i = f i) ->
    count_true g n = count_true f n - Z.b2z (f k) + Z.b2z (g k).
  Proof.
    induction n as [|n IH]; intros Hk H; [lia|]. simpl.
    destruct (decide (k = n)) as [->|Hne].
    - rewrite (count_true_ext g f n); [lia|]. intros. apply H; lia.
    - rewrite IH by (lia || intros; apply H; lia). rewrite (H n) by lia. lia.
  Qed.
Lemma count_true_nonneg f n : 0 <= count_true f n.
  Proof. induction n as [|n IH]; simpl; [lia|]. destruct (f n); simpl; lia. Qed.
Lemma count_true_pos f n : (0 <? count_true f n) = existsb f (seq 0 n).
  Proof.
    induction n as [|n IH]; [done|]. rewrite seq_S, existsb_app. simpl.
    rewrite <- IH. pose proof (count_true_nonneg f n).
    destruct (f n); simpl; rewrite ?orb_true_r, ?orb_false_r; [|done].
    apply Z.ltb_lt. lia.
  Qed.

  (** Indexing a bit set by byte and bit of the byte. *)
Lemma byte_bit_inj i j :
    Z.shiftr i 3 = Z.shiftr j 3 -> Z.land i 7 = Z.land j 7 -> i = j.
  Proof.
    rewrite !Z.shiftr_div_pow2 by lia. change 7 with (Z.ones 3).
    rewrite !Z.land_ones by lia. intros H1 H2.
    rewrite (Z.div_mod i (2 ^ 3)), (Z.div_mod j (2 ^ 3)) by lia. congruence.
  Qed.
Lemma bit_idx_range i : 0 <= Z.land i 7 < 8.
  Proof. change 7 with (Z.ones 3). rewrite Z.land_ones by lia. by apply Z.mod_pos_bound. Qed.

Lemma input_write s m m' mask' i irq (b : bool) :
    rd (mask s) (Z.shiftr (Z.of_nat irq) 3) = Some m ->
    wr (mask s) (Z.shiftr (Z.of_nat irq) 3) m' = Some mask' ->
    (forall k, 0 <= k < 8 ->
       Z.testbit m' k = if k =? Z.land (Z.of_nat irq) 7 then b else Z.testbit m k) ->
    input (s <| mask := mask' |>) i = if decide (i = irq) then b else input s i.
  Proof.
    intros Hm Hw Hb. unfold input. cbn. rewrite (rd_wr _ _ _ _ _ Hw).
    destruct (Z.eqb_spec (Z.shiftr (Z.of_nat irq) 3) (Z.shiftr (Z.of_nat i) 3)) as [He|He].
    - rewrite Hb by apply bit_idx_range. rewrite <- He, Hm.
      destruct (Z.eqb_spec (Z.land (Z.of_nat i) 7) (Z.land (Z.of_nat irq) 7)) as [H7|H7].
      + rewrite decide_True; [done|]. apply Nat2Z.inj, byte_bit_inj; congruence.
      + rewrite decide_False; [done|]. congruence.
    - rewrite decide_False; [done|]. congruence.
  Qed.

  Section spec.
    Context {P : Type} `{!IrqBank P, !IrqBankLaws P}.

    (** [n] inputs: the count is the number of active inputs and the parent's line
        is high exactly when there is one. *)
Definition mux_inv (n : nat) : mux * P -> Prop := fun '(s, p) =>
      irq_inv p /\ line_valid (parent s) /\
      Z.of_nat n <= 8 * Z.of_nat (length (mask s)) /\
      count s = count_true (input s) n /\
      line_is p (parent s) (0 <? count s).

    (** Writing one mask byte moves the count by the change of that input. *)
Lemma mux_write n irq s m m' mask' (b : bool) :
      (irq < n)%nat -> count s = count_true (input s) n ->
      rd (mask s) (Z.shiftr (Z.of_nat irq) 3) = Some m ->
      wr (mask s) (Z.shiftr (Z.of_nat irq) 3) m' = Some mask' ->
      (forall k, 0 <= k < 8 ->
         Z.testbit m' k = if k =? Z.land (Z.of_nat irq) 7 then b else Z.testbit m k) ->
      let s' := s <| mask := mask' |> in
      (forall i, input s' i = if decide (i = irq) then b else input s i) /\
      count_true (input s') n = count s - Z.b2z (input s irq) + Z.b2z b.
    Proof.
      intros Hn Hc Hm Hw Hb. cbv zeta.
      assert (forall i, input (s <| mask := mask' |>) i
                        = if decide (i = irq) then b else input s i) as Hi
        by (intros i; by eapply input_write).
      split; [done|]. rewrite (count_true_set (input s) _ n irq), Hi, decide_True; try done; [lia|].
      intros i _ Hne. by rewrite Hi, decide_False.
    Qed.

Lemma set_byte_bit m k j : 0 <= k < 8 -> 0 <= j < 8 ->
      Z.testbit (wrap 8 (Z.lor m (bit k))) j = if j =? k then true else Z.testbit m j.
    Proof.
      intros. rewrite wrap_testbit, Z.lor_spec, bit_testbit by lia.
      rewrite (proj2 (Z.ltb_lt j 8)), (Z.eqb_sym k) by lia.
      destruct (j =? k); by rewrite ?orb_true_r, ?orb_false_r.
    Qed.
Lemma clear_byte_bit m k j : 0 <= k < 8 -> 0 <= j < 8 ->
      Z.testbit (wrap 8 (Z.land m (Z.lnot (bit k)))) j = if j =? k then false else Z.testbit m j.
    Proof.
      intros. rewrite wrap_testbit, Z.land_spec, Z.lnot_spec, bit_testbit by lia.
      rewrite (proj2 (Z.ltb_lt j 8)), (Z.eqb_sym k) by lia.
      destruct (j =? k); simpl; by rewrite ?andb_true_r, ?andb_false_r.
    Qed.

    (** The parent's line follows the new count. *)
Lemma mux_settle n s p (c : bool) l :
      irq_inv p -> line_valid (parent s) -> Z.of_nat n <= 8 * Z.of_nat (length (mask s)) ->
      count s = count_true (input s) n ->
      (if c then truth l = (0 <? count s) else line_is p (parent s) (0 <? count s)) ->
      wp no_err (if c then on_bank (qemu_set_irq (parent s) l) else mret tt)
         (fun _ sp => mux_inv n sp /\ sp.1 = s) (s, p).
    Proof.
      intros Hp Hv Hlen Hc Hl. destruct c.
      - apply wp_on_bank. eapply wp_mono; [by apply qemu_set_irq_spec|].
        intros [] p' (Hp' & Hl' & _). rewrite Hl in Hl'. done.
      - apply wp_ret. done.
    Qed.

    (** One branch of the handler: input [irq] goes to [b], the count moves by
        [d], and the parent's line is driven when the count reaches [z]. *)
Lemma mux_branch n irq s p m m' (b : bool) d z (Q : unit -> mux * P -> Prop) :
      (irq < n)%nat -> mux_inv n (s, p) -> input s irq = negb b ->
      0 <= Z.shiftr (Z.of_nat irq) 3 < Z.of_nat (length (mask s)) ->
      rd (mask s) (Z.shiftr (Z.of_nat irq) 3) = Some m ->
      (forall k, 0 <= k < 8 ->
         Z.testbit m' k = if k =? Z.land (Z.of_nat irq) 7 then b else Z.testbit m k) ->
      d = (if b then 1 else -1) -> z = Z.b2z b ->
      (forall s' p', mux_inv n (s', p') -> parent s' = parent s ->
         (forall i, input s' i = if decide (i = irq) then b else input s i) -> Q tt (s', p')) ->
      wp no_err (mask' ← deref (wr (mask s) (Z.shiftr (Z.of_nat irq) 3) m');
                 on_dev (put (s <| count := count s + d |> <| mask := mask' |>)) ;;
                 if count s + d =? z
                 then on_bank (qemu_set_irq (parent s) (Z.b2z b)) else mret tt) Q (s, p).
    Proof.
      intros Hn (Hp & Hv & Hlen & Hc & Hl) Hold Hi Hm Hm' -> -> HQ. wp_steps.
      eapply deref_wp; [by apply wr_Some|]. wp_steps. apply wp_on_dev, wp_put.
      destruct (mux_write n irq s m _ _ b Hn Hc Hm (wr_Some _ _ _ Hi) Hm') as [Hin Hct].
      pose proof (count_true_nonneg (input s) n) as Hnn. rewrite Hold in Hct.
      match type of Hct with count_true (input ?s') _ = _ =>
        set (c' := count s + (if b then 1 else -1)) in *;
        pose proof (count_true_nonneg (input s') n) as Hnn';
        assert (c' = count_true (input (s' <| count := c' |>)) n) as Hc' by
          (etrans; [|symmetry; exact Hct]; subst c'; destruct b; simpl; lia)
      end.
      match goal with |- wp _ _ _ (?s1, _) =>
        eapply wp_mono; [refine (mux_settle n s1 p (c' =? Z.b2z b) (Z.b2z b) _ _ _ _ _); try done|]
      end.
      - cbn. by rewrite length_insert.
      - cbn. destruct (Z.eqb_spec c' (Z.b2z b)) as [->|Hne]; [by destruct b|].
        replace (0 <? c') with (0 <? count s); [done|].
        destruct b; simpl in *; subst c'; apply eq_bool_prop_intro; rewrite !Is_true_true, !Z.ltb_lt; lia.
      - intros [] [s' p'] [Hinv Heq]. cbn in Heq. subst s'. by apply HQ.
    Qed.

    (** What the handler does to the recorded inputs and to the count. *)
Lemma mux_handler_inv n irq level s p :
      (irq < n)%nat -> mux_inv n (s, p) ->
      wp no_err (irq_mult_handler (Z.of_nat irq) level)
         (fun _ sp => mux_inv n sp /\ parent sp.1 = parent s /\
            forall i, input sp.1 i = if decide (i = irq) then truth level else input s i)
         (s, p).
    Proof.
      intros Hn Hinv. pose proof Hinv as (Hp & Hv & Hlen & Hc & Hl).
      unfold irq_mult_handler. wp_steps.
      assert (0 <= Z.shiftr (Z.of_nat irq) 3 < Z.of_nat (length (mask s))) as Hi.
      { rewrite Z.shiftr_div_pow2 by lia. split; [apply Z.div_pos; lia|].
        apply Z.div_lt_upper_bound; lia. }
      destruct (rd_Some (mask s) _ Hi) as (m & Hm & _). eapply deref_wp; [done|].
      pose proof (bit_idx_range (Z.of_nat irq)) as Hr.
      assert (truth (Z.land (Z.shiftr m (Z.land (Z.of_nat irq) 7)) 1) = input s irq) as ->.
      { change 1 with (bit 0). rewrite truth_land_bit, Z.shiftr_spec by lia.
        unfold input. by rewrite Hm. }
      destruct (input s irq) eqn:Hold, (truth level) eqn:Hlev; cbn [negb andb]; apply wp_bind.
      - wp_steps. split; [done|]. split; [done|]. intros i. by case_decide; subst.
      - apply wp_ret. eapply (mux_branch n irq s p m _ false (-1)); try done.
        intros k Hk. by apply clear_byte_bit.
      - eapply (mux_branch n irq s p m _ true 1); try done.
        intros k Hk. by apply set_byte_bit.
      - wp_steps. split; [done|]. split; [done|]. intros i. by case_decide; subst.
    Qed.
    (** The level of each input after a sequence of changes. *)
Fixpoint levels_after (l : list (nat * Z)) (f : nat -> bool) (i : nat) : bool :=
      match l with
      | [] => f i
      | (k, level) :: l => levels_after l (fun j => if decide (j = k) then truth level else f j) i
      end.
Lemma levels_after_ext l f g i :
      (forall j, f j = g j) -> levels_after l f i = levels_after l g i.
    Proof.
      revert f g. induction l as [|[k lv] l IH]; intros f g H; simpl; [done|].
      apply IH. intros j. by rewrite H.
    Qed.

Lemma mux_run n l s p : Forall (fun x => (x.1 < n)%nat) l -> mux_inv n (s, p) ->
      wp no_err (for_each l (fun x => irq_mult_handler (Z.of_nat x.1) x.2))
         (fun _ sp => mux_inv n sp /\ parent sp.1 = parent s /\
            forall i, input sp.1 i = levels_after l (input s) i) (s, p).
    Proof.
      revert s p. induction l as [|[k lv] l IH]; intros s p Hl Hinv; simpl.
      - by apply wp_ret.
      - apply Forall_cons_1 in Hl as [Hk Hl]. simpl in Hk. wp_steps.
        eapply wp_mono; [by apply mux_handler_inv|]. intros [] [s1 p1] (Hinv1 & Hp1 & Hi1).
        eapply wp_mono; [by apply IH|]. simpl in *. intros [] [s2 p2] (Hinv2 & Hp2 & Hi2).
        split; [done|]. split; [congruence|]. intros i. rewrite Hi2. by apply levels_after_ext.
    Qed.

Lemma input_zero par n i : input (irq_multiplexer par n) i = false.
    Proof.
      unfold input, irq_multiplexer. cbn [mask].
      destruct (rd _ _) as [m|] eqn:Hm; [|done].
      apply rd_lookup in Hm as [_ Hm]. apply lookup_replicate in Hm as [-> _]. apply Z.bits_0.
    Qed.
Lemma count_true_false f n : (forall i, f i = false) -> count_true f n = 0.
    Proof. intros H. induction n as [|n IH]; simpl; [done|]. by rewrite H, IH. Qed.

    (** The multiplexer is a wired OR.  Whatever sequence of level changes its
        [n] inputs see from the moment irq_multiplexer() returns, no handler
        faults and the parent line is high exactly when some input's last level
        is high. *)
Theorem mux_parent_is_or par n l p :
      irq_inv p -> line_valid par -> line_is p par false ->
      Forall (fun x => (x.1 < n)%nat) l ->
      wp no_err (for_each l (fun x => irq_mult_handler (Z.of_nat x.1) x.2))
         (fun _ sp => line_is sp.2 par
                        (existsb (levels_after l (fun _ => false)) (seq 0 n)))
         (irq_multiplexer par n, p).
    Proof.
      intros Hp Hv Hlow Hl.
      assert (mux_inv n (irq_multiplexer par n, p)) as Hinv.
      { split_and!; try done.
        - unfold irq_multiplexer. cbn. rewrite length_replicate. lia.
        - symmetry. apply count_true_false. intros i. apply input_zero. }
      eapply wp_mono; [by apply mux_run|].
      intros [] [s' p'] ((_ & _ & _ & Hc & Hline) & Hpar & Hin). simpl in *.
      rewrite Hpar in Hline. replace (existsb _ _) with (0 <? count s'); [done|].
      rewrite Hc, count_true_pos. induction (seq 0 n) as [|i l0 IH]; simpl; [done|].
      rewrite IH, Hin. f_equal. apply levels_after_ext, input_zero.
    Qed.
  End spec.
End Mux.

(** Three sources on one wire: raise 0 and 2, lower 0: the parent stays high. *)
Example mux_parent_is_or_witness :
  exists s p, exec (for_each [(0%nat, 1); (2%nat, 1); (0%nat, 0)]
                      (fun x => Mux.irq_mult_handler (Z.of_nat x.1) x.2))
                   (Mux.irq_multiplexer (Some 1%nat) 3, qemu_allocate_irqs 2) = Some (s, p)
              /\ nth 1 p false = true.
Proof.
  pose proof (Mux.mux_parent_is_or (IrqBankLaws0 := wires_laws 2) (Some 1%nat) 3
    [(0%nat, 1); (2%nat, 1); (0%nat, 0)] (qemu_allocate_irqs 2)
    eq_refl ltac:(simpl; lia) eq_refl ltac:(repeat constructor; simpl; lia)) as H.
  vm_compute in H. do 2 eexists. split; [vm_compute; reflexivity|exact H].
Defined.
