(* ===== verification/Timers.v ===== *)
(** * Timers: the timer queues (vl.c, qemu-timer.h)

    Each clock has a list of active timers, sorted by expiry time.  The host alarm
    that interrupts the emulator is the one-shot timer of dynticks_rearm_timer:
    [host_timer] is what timer_gettime() reports, in microseconds, 0 when disarmed.
    The clocks' values are inputs ([now]); expiry times are int64_t nanoseconds
    (milliseconds for the real-time clock) taken without overflow.

    [TimerBank] is what a device sees of this file, [EnvLaws] what it may rely on. *)
From S2P Require Import Prelude HostUtils Irq.
From stdpp Require Import sets.
From Stdlib Require Import Sorted.
#[local] Open Scope Z_scope.

(** The unit of vm_clock deadlines, and muldiv64 with C's division by zero. *)
Definition get_ticks_per_sec : Z := 1000000000.
Definition muldiv {S} (a b c : Z) : ST S Z := if c =? 0 then throw Fault else mret (muldiv64 a b c).

(** ** State *)
Definition QEMU_CLOCK_REALTIME : nat := 0.
Definition QEMU_CLOCK_VIRTUAL : nat := 1.
Definition QEMU_CLOCK_HOST : nat := 2.
Definition ALARM_FLAG_DYNTICKS : Z := 0x1.
Definition ALARM_FLAG_EXPIRED : Z := 0x2.
Definition MIN_TIMER_REARM_US : Z := 250.
Definition INT32_MAX : Z := 2 ^ 31 - 1.

(** A timer is its identity and its clock; [expire_time] and [next] are the entry of
    the list it is in. *)
Record QEMUTimer := mkTimer { t_id : nat; t_clock : nat }.
Abbreviation queue := (list (nat * Z)).

Record timers := mkTimers {
  active_timers : list queue;
  now : list Z;
  alarm_flags : Z;
  host_timer : Z;
  use_icount : bool;
  notified : bool
}.
#[export] Instance eta_timers : Eta timers := fun r => mkTimers
  (active_timers r) (now r) (alarm_flags r) (host_timer r) (use_icount r) (notified r).

(** ** The lists *)
(** Unlinking the first node of the timer. *)
Fixpoint unlink (id : nat) (l : queue) : queue :=
  match l with
  | [] => []
  | (i, e) :: l => if (i =? id)%nat then l else (i, e) :: unlink id l
  end.
(** Linking before the first node that expires later. *)
Fixpoint link (id : nat) (expire_time : Z) (l : queue) : queue :=
  match l with
  | [] => [(id, expire_time)]
  | (i, e) :: l' => if e >? expire_time then (id, expire_time) :: l
                    else (i, e) :: link id expire_time l'
  end.
(** Whether that is at the head of the list. *)
Definition links_at_head (expire_time : Z) (l : queue) : bool :=
  match l with [] => true | (_, e) :: _ => e >? expire_time end.

Definition get_queue (c : nat) : ST timers queue := s ← get; deref (active_timers s !! c).
Definition set_queue (c : nat) (l : queue) : ST timers unit :=
  modify (fun s => s <| active_timers := <[c := l]> (active_timers s) |>).

Definition qemu_get_clock (c : nat) : ST timers Z := s ← get; deref (now s !! c).

Definition qemu_del_timer (ts : QEMUTimer) : ST timers unit :=
  l ← get_queue (t_clock ts); set_queue (t_clock ts) (unlink (t_id ts) l).

(** ** The host alarm *)
Definition queue_head (c : nat) : ST timers (option Z) :=
  l ← get_queue c; mret (snd <$> head l).

(** [if (active) { d = expire - clock; if (d < delta) delta = d; }] *)
Definition nearer (c : nat) (scale delta : Z) : ST timers Z :=
  h ← queue_head c;
  match h with
  | None => mret delta
  | Some e => t ← qemu_get_clock c;
              mret (if (e - t) * scale <? delta then (e - t) * scale else delta)
  end.

Definition qemu_next_deadline : ST timers Z :=
  h ← queue_head QEMU_CLOCK_VIRTUAL;
  delta ← (match h with
           | None => mret INT32_MAX
           | Some e => t ← qemu_get_clock QEMU_CLOCK_VIRTUAL; mret (e - t)
           end);
  delta ← nearer QEMU_CLOCK_HOST 1 delta;
  mret (if delta <? 0 then 0 else delta).

Definition qemu_next_deadline_dyntick : ST timers Z :=
  s ← get;
  delta ← (if use_icount s then mret INT32_MAX
           else d ← qemu_next_deadline; mret ((d + 999) / 1000));
  delta ← nearer QEMU_CLOCK_REALTIME 1000 delta;
  mret (if delta <? MIN_TIMER_REARM_US then MIN_TIMER_REARM_US else delta).

Definition dynticks_rearm_timer : ST timers unit :=
  rt ← queue_head QEMU_CLOCK_REALTIME;
  vm ← queue_head QEMU_CLOCK_VIRTUAL;
  ho ← queue_head QEMU_CLOCK_HOST;
  match rt, vm, ho with
  | None, None, None => mret tt
  | _, _, _ =>
    nearest_delta_us ← qemu_next_deadline_dyntick;
    s ← get;
    let current_us := host_timer s in
    if truth current_us && (current_us <=? nearest_delta_us) then mret tt
    else modify (fun s => s <| host_timer := nearest_delta_us |>)
  end.

Definition alarm_has_dynticks (s : timers) : bool := truth (Z.land (alarm_flags s) ALARM_FLAG_DYNTICKS).
Definition qemu_rearm_alarm_timer : ST timers unit :=
  s ← get; when (alarm_has_dynticks s) dynticks_rearm_timer.

Definition qemu_notify_event : ST timers unit := modify (fun s => s <| notified := true |>).

(** ** Operations *)
Definition qemu_mod_timer (ts : QEMUTimer) (expire_time : Z) : ST timers unit :=
  qemu_del_timer ts ;;
  l ← get_queue (t_clock ts);
  set_queue (t_clock ts) (link (t_id ts) expire_time l) ;;
  when (links_at_head expire_time l)
    (s ← get;
     when (Z.land (alarm_flags s) ALARM_FLAG_EXPIRED =? 0) qemu_rearm_alarm_timer ;;
     when (use_icount s) qemu_notify_event).

Definition qemu_timer_pending (ts : QEMUTimer) : ST timers bool :=
  l ← get_queue (t_clock ts); mret (existsb (fun t : nat * Z => (t.1 =? t_id ts)%nat) l).

Definition qemu_timer_expired (timer_head : option (nat * Z)) (current_time : Z) : bool :=
  match timer_head with None => false | Some (_, e) => e <=? current_time end.

(** qemu_run_timers: the callbacks run on the queues and on the rest of the machine
    [D]; they may change the queues, so the loop has no syntactic measure. *)
Fixpoint qemu_run_timers {D} (cb : nat -> ST (D * timers) unit) (fuel : nat) (c : nat)
    (current_time : Z) : ST (D * timers) unit :=
  match fuel with
  | O => throw OutOfFuel
  | S fuel =>
    l ← on_bank (get_queue c);
    match l with
    | [] => mret tt
    | (id, e) :: l' =>
      if e >? current_time then mret tt
      else on_bank (set_queue c l') ;; cb id ;; qemu_run_timers cb fuel c current_time
    end
  end.

(** qemu_put_timer / qemu_get_timer: the migrated word is -1 for an idle timer. *)
Definition timer_expire (ts : QEMUTimer) : ST timers (option Z) :=
  l ← get_queue (t_clock ts);
  mret (snd <$> find (fun t : nat * Z => (t.1 =? t_id ts)%nat) l).
Definition qemu_put_timer (ts : QEMUTimer) : ST timers Z :=
  p ← qemu_timer_pending ts;
  e ← timer_expire ts;
  mret (match p with true => wrap 64 (default 0 e) | false => wrap 64 (-1) end).
(** The conversion of a uint64_t to int64_t. *)
Definition s64 (x : Z) : Z := if x <? 2 ^ 63 then x else x - 2 ^ 64.
Definition qemu_get_timer (ts : QEMUTimer) (word : Z) : ST timers unit :=
  if word =? wrap 64 (-1) then qemu_del_timer ts else qemu_mod_timer ts (s64 word).

(** ** Lists sorted by expiry *)
Definition before (a b : nat * Z) : Prop := a.2 <= b.2.
Definition queue_ok (l : queue) : Prop := StronglySorted before l /\ NoDup l.*1.
(** The expiry of a timer in a queue. *)
Fixpoint expiry (id : nat) (l : queue) : option Z :=
  match l with
  | [] => None
  | (i, e) :: l => if (i =? id)%nat then Some e else expiry id l
  end.

Lemma expiry_None id l : expiry id l = None <-> id ∉ l.*1.
Proof.
  induction l as [|[i e] l IH]; cbn; [set_solver|].
  destruct (Nat.eqb_spec i id) as [->|Hne]; [set_solver|]. rewrite IH. set_solver.
Qed.
Lemma expiry_elem id e l : NoDup l.*1 -> (id, e) ∈ l <-> expiry id l = Some e.
Proof.
  induction l as [|[i f] l IH]; cbn; [set_solver|]. intros [Hi Hl]%NoDup_cons.
  rewrite elem_of_cons. destruct (Nat.eqb_spec i id) as [->|Hne].
  - split; [|intros [= ->]; by left]. intros [H|H]; [congruence|]. exfalso. apply Hi.
    apply list_elem_of_fmap. by exists (id, e).
  - rewrite IH by done. split; [intros [H|H]; [congruence|done]|by right].
Qed.

Lemma unlink_sub id l x : x ∈ unlink id l -> x ∈ l.
Proof.
  induction l as [|[i e] l IH]; cbn; [done|].
  destruct (i =? id)%nat; rewrite !elem_of_cons; naive_solver.
Qed.
Lemma expiry_unlink id j l : NoDup l.*1 ->
  expiry j (unlink id l) = if (j =? id)%nat then None else expiry j l.
Proof.
  induction l as [|[i e] l IH]; cbn; [by destruct (j =? id)%nat|]. intros [Hi Hl]%NoDup_cons.
  destruct (Nat.eqb_spec i id) as [->|Hne]; cbn.
  - destruct (Nat.eqb_spec j id) as [->|]; [by apply expiry_None|].
    destruct (Nat.eqb_spec id j); [congruence|done].
  - rewrite IH by done. destruct (Nat.eqb_spec i j), (Nat.eqb_spec j id); congruence.
Qed.
Lemma unlink_ok id l : queue_ok l -> queue_ok (unlink id l).
Proof.
  intros [Hs Hn]. induction l as [|[i e] l IH]; [done|]. cbn in *.
  apply StronglySorted_inv in Hs as [Hs Hf]. apply NoDup_cons in Hn as [Hi Hn].
  destruct (i =? id)%nat; [done|]. destruct (IH Hs Hn) as [Hs' Hn']. split; cbn.
  - constructor; [done|]. apply Forall_forall. intros x Hx%unlink_sub.
    by eapply Forall_forall in Hf.
  - constructor; [|done]. intros Hin. apply Hi. apply list_elem_of_fmap in Hin as (x & -> & Hx).
    apply list_elem_of_fmap. exists x. split; [done|]. by eapply unlink_sub.
Qed.

Lemma link_split id e l : queue_ok l ->
  exists l1 l2, l = l1 ++ l2 /\ link id e l = l1 ++ (id, e) :: l2 /\
    Forall (fun x => x.2 <= e) l1 /\ Forall (fun x => e < x.2) l2 /\
    links_at_head e l = (match l1 with [] => true | _ => false end).
Proof.
  intros [Hs _]. induction l as [|[i f] l IH]; cbn.
  { exists [], []. by repeat split. }
  apply StronglySorted_inv in Hs as [Hs Hf]. destruct (Z.gtb_spec f e).
  - exists [], ((i, f) :: l). split_and!; try done. constructor; [cbn; lia|].
    eapply Forall_impl; [exact Hf|]. unfold before. cbn. intros. lia.
  - destruct (IH Hs) as (l1 & l2 & -> & -> & H1 & H2 & _). exists ((i, f) :: l1), l2.
    split_and!; try done. constructor; [cbn; lia|done].
Qed.
Lemma sorted_app l1 l2 : StronglySorted before l1 -> StronglySorted before l2 ->
  (forall x y, x ∈ l1 -> y ∈ l2 -> before x y) -> StronglySorted before (l1 ++ l2).
Proof.
  induction l1 as [|x l1 IH]; cbn; [done|]. intros [H1 Hf]%StronglySorted_inv H2 H.
  constructor; [apply IH; [done..|]; intros; apply H; [by right|done]|].
  apply Forall_app. split; [done|]. apply Forall_forall. intros y Hy. apply H; [by left|done].
Qed.
Lemma sorted_app_inv l1 l2 : StronglySorted before (l1 ++ l2) ->
  StronglySorted before l1 /\ StronglySorted before l2.
Proof.
  induction l1 as [|x l1 IH]; cbn; [intros; split; [constructor|done]|].
  intros [H Hf]%StronglySorted_inv. destruct (IH H). split; [|done].
  constructor; [done|]. by apply Forall_app in Hf as [? _].
Qed.
Lemma link_ok id e l : queue_ok l -> id ∉ l.*1 -> queue_ok (link id e l).
Proof.
  intros Hok Hid. destruct (link_split id e l Hok) as (l1 & l2 & -> & -> & H1 & H2 & _).
  destruct Hok as [Hs Hn]. apply sorted_app_inv in Hs as [Hs1 Hs2].
  rewrite Forall_forall in H1, H2. split.
  - apply sorted_app; [done| |].
    + constructor; [done|]. apply Forall_forall. intros x Hx. unfold before. cbn.
      specialize (H2 x Hx). lia.
    + intros x y Hx Hy. unfold before. specialize (H1 x Hx).
      apply elem_of_cons in Hy as [->|Hy]; [done|]. specialize (H2 y Hy). lia.
  - rewrite fmap_app in *. cbn. rewrite NoDup_app in *. rewrite NoDup_cons. set_solver.
Qed.
Lemma expiry_link id e j l : id ∉ l.*1 ->
  expiry j (link id e l) = if (j =? id)%nat then Some e else expiry j l.
Proof.
  induction l as [|[i f] l IH]; cbn; intros Hid.
  - rewrite Nat.eqb_sym. by destruct (j =? id)%nat.
  - destruct (f >? e); cbn.
    + rewrite Nat.eqb_sym. by destruct (j =? id)%nat.
    + rewrite IH by set_solver. destruct (Nat.eqb_spec i j), (Nat.eqb_spec j id); try done. set_solver.
Qed.

(** ** Specification *)
Definition timers_ok (s : timers) : Prop :=
  length (active_timers s) = 3%nat /\ length (now s) = 3%nat /\
  Forall queue_ok (active_timers s) /\ 0 <= host_timer s.
Definition queue_of (s : timers) (c : nat) : queue := default [] (active_timers s !! c).
(** When the timer fires, [None] when it is idle. *)
Definition deadline (s : timers) (ts : QEMUTimer) : option Z :=
  expiry (t_id ts) (queue_of s (t_clock ts)).

Lemma queue_exists s c : timers_ok s -> (c < 3)%nat -> active_timers s !! c = Some (queue_of s c).
Proof.
  intros (Hl & _) Hc. unfold queue_of.
  destruct (lookup_lt_is_Some_2 (active_timers s) c) as [q ->]; [lia|done].
Qed.
Lemma queue_of_ok s c : timers_ok s -> queue_ok (queue_of s c).
Proof.
  intros (_ & _ & Hf & _). unfold queue_of. destruct (active_timers s !! c) as [q|] eqn:Hq.
  - by eapply Forall_lookup_1.
  - split; constructor.
Qed.
Lemma get_queue_wp E s c Q : timers_ok s -> (c < 3)%nat -> Q (queue_of s c) s ->
  wp E (get_queue c) Q s.
Proof. intros Hs Hc HQ. unfold get_queue. wp_steps. eapply deref_wp; [by apply queue_exists|done]. Qed.
Lemma get_clock_wp E s c Q : timers_ok s -> (c < 3)%nat ->
  (forall t, now s !! c = Some t -> Q t s) -> wp E (qemu_get_clock c) Q s.
Proof.
  intros (_ & Hl & _) Hc HQ. unfold qemu_get_clock. wp_steps.
  destruct (lookup_lt_is_Some_2 (now s) c) as [t Ht]; [lia|].
  eapply deref_wp; [done|]. by apply HQ.
Qed.

Definition with_queue (s : timers) (c : nat) (l : queue) : timers :=
  s <| active_timers := <[c := l]> (active_timers s) |>.
Lemma with_queue_ok s c l : timers_ok s -> queue_ok l -> timers_ok (with_queue s c l).
Proof.
  intros (Hl & Hn & Hf & Hh) Hq. split_and!; cbn; [by rewrite length_insert|done| |done].
  by apply Forall_insert.
Qed.
Lemma queue_of_with s c l c' : timers_ok s -> (c < 3)%nat ->
  queue_of (with_queue s c l) c' = if (c' =? c)%nat then l else queue_of s c'.
Proof.
  intros (Hl & _) Hc. unfold queue_of, with_queue. cbn.
  destruct (Nat.eqb_spec c' c) as [->|Hne].
  - by rewrite list_lookup_insert_eq by lia.
  - by rewrite list_lookup_insert_ne.
Qed.
Lemma with_queue_twice s c l l' : with_queue (with_queue s c l) c l' = with_queue s c l'.
Proof. unfold with_queue. cbn. by rewrite list_insert_insert_eq. Qed.

(** The alarm part of the state, and what re-arming may change. *)
Definition same_queues (s s' : timers) : Prop :=
  active_timers s' = active_timers s /\ now s' = now s /\ alarm_flags s' = alarm_flags s /\
  use_icount s' = use_icount s.

(** How many microseconds from now an entry of clock [c] expiring at [e] needs the
    alarm, rounded up. *)
Definition due_us (s : timers) (c : nat) (e : Z) : Z :=
  match c with
  | O => (e - default 0 (now s !! 0%nat)) * 1000
  | S _ => (Z.max 0 (e - default 0 (now s !! c)) + 999) / 1000
  end.
(** The alarm is armed, and early enough for every active timer (never earlier than
    the minimum period). *)
Definition alarm_covers (s : timers) (h : Z) : Prop :=
  0 < h /\ forall c id e, (c < 3)%nat -> (id, e) ∈ queue_of s c ->
  h <= Z.max MIN_TIMER_REARM_US (due_us s c e).

Lemma head_least (l : queue) e0 id e : queue_ok l -> snd <$> head l = Some e0 -> (id, e) ∈ l -> e0 <= e.
Proof.
  intros [Hs _] Hh Hin. destruct l as [|[i f] l]; [done|]. cbn in Hh. simplify_eq.
  apply elem_of_cons in Hin as [[= -> ->]|Hin]; [done|].
  apply StronglySorted_inv in Hs as [_ Hf]. rewrite Forall_forall in Hf. apply (Hf _ Hin).
Qed.
Lemma head_none (l : queue) : snd <$> head l = None -> l = [].
Proof. by destruct l. Qed.

Lemma queue_head_wp E s c Q : timers_ok s -> (c < 3)%nat ->
  Q (snd <$> head (queue_of s c)) s -> wp E (queue_head c) Q s.
Proof. intros. unfold queue_head. wp_steps. apply get_queue_wp; [done..|]. by wp_steps. Qed.

Lemma nearer_wp E s c scale delta (Q : Z -> timers -> Prop) : timers_ok s -> (c < 3)%nat ->
  (forall d, d <= delta ->
     (forall e, snd <$> head (queue_of s c) = Some e -> d <= (e - default 0 (now s !! c)) * scale) ->
     Q d s) -> wp E (nearer c scale delta) Q s.
Proof.
  intros Hs Hc HQ. unfold nearer. wp_step. apply queue_head_wp; [done..|].
  destruct (snd <$> head (queue_of s c)) as [e|] eqn:He.
  - wp_step. apply get_clock_wp; [done..|]. intros t Ht. wp_steps. apply HQ.
    + destruct (Z.ltb_spec ((e - t) * scale) delta); lia.
    + intros e' [= <-]. rewrite Ht. cbn. destruct (Z.ltb_spec ((e - t) * scale) delta); lia.
  - wp_steps. by apply HQ.
Qed.

(** The computed deadline is at most the need of every active timer. *)
Lemma next_deadline_wp s : timers_ok s ->
  wp no_err qemu_next_deadline (fun d s' => s' = s /\ 0 <= d /\
    forall c id e, (c = 1 \/ c = 2)%nat -> (id, e) ∈ queue_of s c ->
    d <= Z.max 0 (e - default 0 (now s !! c))) s.
Proof.
  intros Hs. unfold qemu_next_deadline. wp_step. unfold QEMU_CLOCK_VIRTUAL, QEMU_CLOCK_HOST.
  apply queue_head_wp; [done|lia|]. wp_step.
  apply (wp_mono _ _ (fun d s' => s' = s /\
    forall e, snd <$> head (queue_of s 1) = Some e -> d <= e - default 0 (now s !! 1%nat))).
  - destruct (snd <$> head (queue_of s 1)) as [e|] eqn:He.
    + wp_step. apply get_clock_wp; [done|lia|]. intros t Ht. wp_steps. split; [done|].
      intros e' [= <-]. by rewrite Ht.
    + by wp_steps.
  - intros d s' [-> Hd]. wp_step. apply nearer_wp; [done|lia|]. intros d' Hle Hd'. wp_steps.
    split; [done|]. split; [destruct (Z.ltb_spec d' 0); lia|]. intros c id e Hc Hin.
    assert (d' <= e - default 0 (now s !! c)).
    { destruct (snd <$> head (queue_of s c)) as [e0|] eqn:He.
      - pose proof (head_least _ _ _ _ (queue_of_ok s c Hs) He Hin).
        destruct Hc as [->| ->]; [specialize (Hd _ He)|specialize (Hd' _ He)]; lia.
      - apply head_none in He. rewrite He in Hin. set_solver. }
    destruct (Z.ltb_spec d' 0); lia.
Qed.

Lemma dyntick_wp s : timers_ok s ->
  wp no_err qemu_next_deadline_dyntick
     (fun d s' => s' = s /\ 0 < d /\ (use_icount s = false -> alarm_covers s d)) s.
Proof.
  intros Hs. unfold qemu_next_deadline_dyntick. wp_step. wp_step. wp_step.
  destruct (use_icount s).
  { wp_steps. unfold QEMU_CLOCK_REALTIME. apply nearer_wp; [done|lia|]. intros d' _ _. wp_steps.
    split; [done|]. split; [|done]. unfold MIN_TIMER_REARM_US. destruct (Z.ltb_spec d' 250); lia. }
  wp_step.
  eapply wp_mono; [apply next_deadline_wp, Hs|]. intros d s' (-> & H0 & Hd). wp_steps.
  unfold QEMU_CLOCK_REALTIME. apply nearer_wp; [done|lia|]. intros d' Hle Hd'. wp_steps.
  split; [done|]. assert (0 < (if d' <? MIN_TIMER_REARM_US then MIN_TIMER_REARM_US else d'))
    by (unfold MIN_TIMER_REARM_US; destruct (Z.ltb_spec d' 250); lia).
  split; [done|]. intros _. split; [done|]. intros c id e Hc Hin.
  assert (d' <= due_us s c e); [|unfold MIN_TIMER_REARM_US; destruct (Z.ltb_spec d' 250); lia].
  destruct c as [|c]; cbn [due_us].
  - destruct (snd <$> head (queue_of s 0)) as [e0|] eqn:He.
    + pose proof (head_least _ _ _ _ (queue_of_ok s 0 Hs) He Hin). specialize (Hd' _ eq_refl). lia.
    + apply head_none in He. rewrite He in Hin. set_solver.
  - etrans; [exact Hle|]. apply Z.div_le_mono; [lia|].
    specialize (Hd (S c) id e ltac:(lia) Hin). lia.
Qed.

Lemma rearm_wp s : timers_ok s -> (exists c, (c < 3)%nat /\ queue_of s c <> []) ->
  wp no_err dynticks_rearm_timer (fun _ s' => same_queues s s' /\ 0 < host_timer s' /\
    (use_icount s = false -> alarm_covers s (host_timer s'))) s.
Proof.
  intros Hs (c & Hc & Hq). unfold dynticks_rearm_timer.
  unfold QEMU_CLOCK_REALTIME, QEMU_CLOCK_VIRTUAL, QEMU_CLOCK_HOST.
  wp_step. apply queue_head_wp; [done|lia|]. wp_step. apply queue_head_wp; [done|lia|].
  wp_step. apply queue_head_wp; [done|lia|].
  assert (wp no_err (nearest_delta_us ← qemu_next_deadline_dyntick;
     s ← get;
     if truth (host_timer s) && (host_timer s <=? nearest_delta_us) then mret tt
     else modify (fun s => s <| host_timer := nearest_delta_us |>))
     (fun _ s' => same_queues s s' /\ 0 < host_timer s' /\
        (use_icount s = false -> alarm_covers s (host_timer s'))) s) as H.
  { wp_step. eapply wp_mono; [by apply dyntick_wp|]. intros d s' (-> & Hp & Hd). wp_steps.
    wp_if as E; wp_steps; [|done]. split; [done|].
    apply andb_true_iff in E as [E1%truth_true E2%Z.leb_le]. pose proof (proj2 (proj2 (proj2 Hs))).
    split; [lia|]. intros Hi. split; [lia|]. intros c' id e Hc' Hin.
    destruct (Hd Hi) as [_ Hcov]. specialize (Hcov c' id e Hc' Hin). lia. }
  destruct (snd <$> head (queue_of s 0)) as [e0|] eqn:H0; [done|].
  destruct (snd <$> head (queue_of s 1)) as [e1|] eqn:H1; [done|].
  destruct (snd <$> head (queue_of s 2)) as [e2|] eqn:H2; [done|].
  exfalso. apply Hq. destruct c as [|[|[|]]]; [by apply head_none..|lia].
Qed.

Lemma same_queues_ok s s' : timers_ok s -> same_queues s s' -> 0 <= host_timer s' -> timers_ok s'.
Proof. unfold timers_ok. intros (H1 & H2 & H3 & _) (E1 & E2 & _) H. by rewrite E1, E2. Qed.
Lemma same_queues_of s s' c : same_queues s s' -> queue_of s' c = queue_of s c.
Proof. unfold queue_of. by intros (-> & _). Qed.

Lemma del_timer_wp E s ts (Q : unit -> timers -> Prop) : timers_ok s -> (t_clock ts < 3)%nat ->
  (let s' := with_queue s (t_clock ts) (unlink (t_id ts) (queue_of s (t_clock ts))) in
   timers_ok s' -> Q tt s') -> wp E (qemu_del_timer ts) Q s.
Proof.
  intros Hs Hc HQ. unfold qemu_del_timer, set_queue. wp_step. apply get_queue_wp; [done..|]. wp_steps.
  apply HQ, with_queue_ok; [done|]. by apply unlink_ok, queue_of_ok.
Qed.

(** The queue in which timer [ts] is linked by qemu_mod_timer. *)
Definition modded (s : timers) (ts : QEMUTimer) (e : Z) : timers :=
  with_queue s (t_clock ts) (link (t_id ts) e (unlink (t_id ts) (queue_of s (t_clock ts)))).

Lemma modded_ok s ts e : timers_ok s -> timers_ok (modded s ts e).
Proof.
  intros Hs. apply with_queue_ok; [done|]. pose proof (queue_of_ok s (t_clock ts) Hs) as Hq.
  apply link_ok; [by apply unlink_ok|]. apply expiry_None.
  rewrite expiry_unlink by apply Hq. by rewrite Nat.eqb_refl.
Qed.
Lemma modded_deadline s ts e ts' : timers_ok s -> (t_clock ts < 3)%nat ->
  deadline (modded s ts e) ts' =
  if (t_clock ts' =? t_clock ts)%nat && (t_id ts' =? t_id ts)%nat then Some e else deadline s ts'.
Proof.
  intros Hs Hc. unfold deadline, modded. rewrite queue_of_with by done.
  destruct (Nat.eqb_spec (t_clock ts') (t_clock ts)) as [->|]; [|done].
  destruct (queue_of_ok s (t_clock ts) Hs) as [_ Hn].
  rewrite expiry_link; [|apply expiry_None; rewrite expiry_unlink by done; by rewrite Nat.eqb_refl].
  rewrite expiry_unlink by done. by destruct (t_id ts' =? t_id ts)%nat.
Qed.

(** qemu_mod_timer links the timer; apart from the queues only the alarm changes, and
    when it links at the head it re-arms a one-shot alarm that has not expired. *)
Lemma mod_timer_wp s ts e : timers_ok s -> (t_clock ts < 3)%nat ->
  wp no_err (qemu_mod_timer ts e) (fun _ s' =>
    same_queues (modded s ts e) s' /\ 0 <= host_timer s' /\
    (use_icount s = false -> alarm_has_dynticks s = true ->
     Z.land (alarm_flags s) ALARM_FLAG_EXPIRED = 0 ->
     if links_at_head e (unlink (t_id ts) (queue_of s (t_clock ts)))
     then alarm_covers s' (host_timer s') else host_timer s' = host_timer s)) s.
Proof.
  intros Hs Hc. unfold qemu_mod_timer. wp_step. apply del_timer_wp; [done..|]. intros s1 Hs1.
  subst s1. wp_step. apply get_queue_wp; [done..|]. rewrite queue_of_with by done.
  rewrite Nat.eqb_refl. unfold set_queue. wp_steps. fold (with_queue (with_queue s (t_clock ts)
    (unlink (t_id ts) (queue_of s (t_clock ts)))) (t_clock ts) (link (t_id ts) e (unlink (t_id ts)
    (queue_of s (t_clock ts))))).
  rewrite with_queue_twice. fold (modded s ts e). pose proof (modded_ok s ts e Hs) as Hm.
  pose proof (proj2 (proj2 (proj2 Hm))) as Hh.
  destruct (links_at_head _ _) eqn:Hhd; [|done]. wp_step. wp_step. wp_step.
  apply (wp_mono _ _ (fun _ s' => same_queues (modded s ts e) s' /\ 0 <= host_timer s' /\
    (use_icount s = false -> alarm_has_dynticks s = true ->
     Z.land (alarm_flags s) ALARM_FLAG_EXPIRED = 0 -> alarm_covers s' (host_timer s')))).
  - apply wp_when.
    destruct (Z.eqb_spec (Z.land (alarm_flags (modded s ts e)) ALARM_FLAG_EXPIRED) 0) as [Hx|Hx].
    2: { split; [done|]. split; [done|]. intros _ _ H. by destruct Hx. }
    unfold qemu_rearm_alarm_timer. wp_step. wp_step. wp_step.
    destruct (alarm_has_dynticks (modded s ts e)) eqn:Hd.
    2: { split; [done|]. split; [done|]. intros _ H. unfold alarm_has_dynticks in *. cbn in Hd. congruence. }
    eapply wp_mono; [apply rearm_wp; [done|]|].
    + exists (t_clock ts). split; [done|]. unfold modded. rewrite queue_of_with by done.
      rewrite Nat.eqb_refl. destruct (unlink _ _) as [|[i f] l]; [done|]. cbn. by destruct (f >? e).
    + intros [] s' (Hsq & H0 & Hcov). split; [done|]. split; [lia|]. intros Hi _ _. split; [done|].
      destruct (Hcov Hi) as [_ Hcov']. intros c id f Hc' Hin.
      rewrite (same_queues_of _ _ _ Hsq) in Hin.
      specialize (Hcov' c id f Hc' Hin). unfold due_us in *. by rewrite (proj1 (proj2 Hsq)).
  - intros [] s' (Hsq & H0 & Hcov). wp_step. by destruct (use_icount (modded s ts e)).
Qed.

(** ** Running the due timers *)
(** The identities of the timers due at [t], in the order of the list. *)
Definition due (t : Z) (l : queue) : list nat := (filter (fun x => x.2 <= t) l).*1.

Lemma due_cons t i e l : due t ((i, e) :: l) = if decide (e <= t) then i :: due t l else due t l.
Proof. unfold due. rewrite filter_cons. cbn. by case_decide. Qed.
Lemma due_nil t l : Forall (fun x => t < x.2) l -> due t l = [].
Proof.
  induction l as [|[i e] l IH]; [done|]. intros [H1 H2]%Forall_cons_1. rewrite due_cons.
  cbn in H1. destruct (decide (e <= t)); [lia|]. by apply IH.
Qed.
Lemma due_later t l : StronglySorted before l -> (forall x, head l = Some x -> t < x.2) -> due t l = [].
Proof.
  intros Hs Hh. apply due_nil. destruct l as [|y l]; [constructor|]. specialize (Hh y eq_refl).
  apply StronglySorted_inv in Hs as [_ Hf]. constructor; [done|].
  eapply Forall_impl; [exact Hf|]. unfold before. intros. lia.
Qed.

Section run.
  Context {D : Type} (cb : nat -> ST (D * timers) unit) (c : nat) (t : Z).

  (** The callbacks, with a log of the order in which they run. *)
Definition logged (id : nat) : ST (D * list nat * timers) unit := fun '(d, log, s) =>
    match cb id (d, s) with
    | Ok (_, (d', s')) => Ok (tt, (d', log ++ [id], s'))
    | Err e => Err e
    end.

  (** A callback that leaves the list of timers due at [t] as it is: it arms none at or
      before the present and neither disarms nor moves one that is due; whatever else it
      does. *)
Definition cb_future (id : nat) : Prop := forall d s, timers_ok s ->
    wp no_err (cb id)
       (fun _ ds' => timers_ok ds'.2 /\ due t (queue_of ds'.2 c) = due t (queue_of s c)) (d, s).

Lemma run_timers_due fuel d log s : (c < 3)%nat -> timers_ok s ->
    (forall id, id ∈ due t (queue_of s c) -> cb_future id) ->
    (length (due t (queue_of s c)) < fuel)%nat ->
    wp no_err (qemu_run_timers logged fuel c t) (fun _ ds' =>
      ds'.1.2 = log ++ due t (queue_of s c) /\ timers_ok ds'.2 /\
      due t (queue_of ds'.2 c) = []) (d, log, s).
  Proof.
    intros Hc. revert d log s. induction fuel as [|fuel IH]; intros d log s Hs Hcb Hf; [lia|].
    cbn [qemu_run_timers]. wp_step. apply wp_on_bank, get_queue_wp; [done..|].
    pose proof (queue_of_ok s c Hs) as Hq. destruct (queue_of s c) as [|[id e] l] eqn:E.
    - wp_steps. cbn. by rewrite app_nil_r, E.
    - pose proof Hq as [Hso Hnd]. destruct (Z.gtb_spec e t) as [He|He].
      + wp_steps. assert (due t ((id, e) :: l) = []) as ->
          by (apply due_later; [done|intros x [= <-]; cbn; lia]).
        cbn [fst snd]. rewrite app_nil_r, E. split_and!; try done.
        apply due_later; [done|intros x [= <-]; cbn; lia].
      + rewrite due_cons in *. destruct (decide (e <= t)) as [_|]; [|lia].
        wp_step. unfold set_queue. apply wp_on_bank. wp_steps. fold (with_queue s c l).
        assert (queue_ok l) as Hl.
        { apply StronglySorted_inv in Hso as [? _]. apply NoDup_cons in Hnd as [_ ?]. done. }
        assert (timers_ok (with_queue s c l)) as Hs1 by (by apply with_queue_ok).
        assert (queue_of (with_queue s c l) c = l) as Hql
          by (by rewrite queue_of_with, Nat.eqb_refl by done).
        assert (cb_future id) as Hid by (apply Hcb; by left).
        specialize (Hid d (with_queue s c l) Hs1). unfold wp in Hid. unfold wp at 1, logged at 1.
        destruct (cb id (d, with_queue s c l)) as [[[] [d' s']]|err]; [|done].
        destruct Hid as [Hs' Hdue]. cbn [snd] in *. rewrite Hql in Hdue.
        eapply wp_mono; [apply (IH d' (log ++ [id]) s' Hs')|].
        * rewrite Hdue. intros i Hi. apply Hcb. by right.
        * rewrite Hdue. cbn in Hf. lia.
        * intros [] ds' (H1 & H2). rewrite H1, Hdue, <- app_assoc. done.
  Qed.
End run.

(** ** Properties *)
(** C13: the timer queues implement a map from timers to deadlines.  qemu_mod_timer
    sets the deadline of its timer and of no other, whether or not it was pending, and
    links it behind every timer due no later (so equal deadlines fire in the order
    they were set) and before the rest; qemu_del_timer clears the deadline of its
    timer only; qemu_timer_pending reads it.  All keep the lists sorted and free of
    duplicates. *)
Theorem timers_map s ts e : timers_ok s -> (t_clock ts < 3)%nat ->
  wp no_err (qemu_mod_timer ts e) (fun _ s' => timers_ok s' /\
    (forall ts', deadline s' ts' =
       if (t_clock ts' =? t_clock ts)%nat && (t_id ts' =? t_id ts)%nat
       then Some e else deadline s ts') /\
    exists l1 l2, queue_of s' (t_clock ts) = l1 ++ (t_id ts, e) :: l2 /\
      Forall (fun x => x.2 <= e) l1 /\ Forall (fun x => e < x.2) l2) s /\
  wp no_err (qemu_del_timer ts) (fun _ s' => timers_ok s' /\
    forall ts', deadline s' ts' =
       if (t_clock ts' =? t_clock ts)%nat && (t_id ts' =? t_id ts)%nat
       then None else deadline s ts') s /\
  wp no_err (qemu_timer_pending ts) (fun b s' => s' = s /\
    (b = true <-> deadline s ts <> None)) s.
Proof.
  intros Hs Hc. pose proof (queue_of_ok s (t_clock ts) Hs) as Hq. split_and!.
  - eapply wp_mono; [by apply mod_timer_wp|]. intros [] s' (Hsq & H0 & _).
    split; [by eapply same_queues_ok; [apply modded_ok|..]|]. split.
    + intros ts'. unfold deadline at 1. rewrite (same_queues_of _ _ _ Hsq).
      by apply (modded_deadline s ts e ts').
    + rewrite (same_queues_of _ _ _ Hsq). unfold modded. rewrite queue_of_with, Nat.eqb_refl by done.
      destruct (link_split (t_id ts) e (unlink (t_id ts) (queue_of s (t_clock ts))))
        as (l1 & l2 & _ & -> & H1 & H2 & _); [by apply unlink_ok|]. by exists l1, l2.
  - apply del_timer_wp; [done..|]. intros s' Hs'. split; [done|]. intros ts'.
    unfold deadline, s'. rewrite queue_of_with by done.
    destruct (Nat.eqb_spec (t_clock ts') (t_clock ts)) as [->|]; [|done].
    rewrite expiry_unlink by apply Hq. by destruct (t_id ts' =? t_id ts)%nat.
  - unfold qemu_timer_pending. wp_step. apply get_queue_wp; [done..|]. wp_steps. split; [done|].
    unfold deadline. induction (queue_of s (t_clock ts)) as [|[i f] l IH]; cbn; [naive_solver|].
    destruct (i =? t_id ts)%nat; [naive_solver|]. apply IH.
    destruct Hq as [H1 H2]. apply StronglySorted_inv in H1 as [? _].
    apply NoDup_cons in H2 as [_ ?]. done.
Qed.

(** No wake-up is missed.  If the one-shot host alarm is armed early enough for
    every active timer, it still is after qemu_mod_timer, for the new timer too, up to
    the minimum period of 250 microseconds. *)
Theorem mod_timer_wakeup s ts e : timers_ok s -> (t_clock ts < 3)%nat ->
  use_icount s = false -> alarm_has_dynticks s = true ->
  Z.land (alarm_flags s) ALARM_FLAG_EXPIRED = 0 ->
  let waking s := forall c id e, (c < 3)%nat -> (id, e) ∈ queue_of s c ->
    0 < host_timer s <= Z.max MIN_TIMER_REARM_US (due_us s c e) in
  waking s -> wp no_err (qemu_mod_timer ts e) (fun _ s' => waking s') s.
Proof.
  intros Hs Hc Hi Hd Hx waking Hw. eapply wp_mono; [by apply mod_timer_wp|].
  intros [] s' (Hsq & H0 & Hcov). specialize (Hcov Hi Hd Hx).
  destruct (links_at_head _ _) eqn:Hhd.
  - intros c id f Hc' Hin. destruct Hcov as [H1 H2]. split; [done|]. by eapply H2.
  - intros c id f Hc' Hin. rewrite Hcov. unfold due_us. rewrite (proj1 (proj2 Hsq)).
    rewrite (same_queues_of _ _ _ Hsq) in Hin. unfold modded in Hin.
    change (now (modded s ts e)) with (now s). fold (due_us s c f).
    rewrite queue_of_with in Hin by done. destruct (Nat.eqb_spec c (t_clock ts)) as [->|Hne].
    2: { by eapply Hw. }
    pose proof (queue_of_ok s (t_clock ts) Hs) as Hq.
    destruct (link_split (t_id ts) e (unlink (t_id ts) (queue_of s (t_clock ts))))
      as (l1 & l2 & El & Ek & H1 & H2 & Hl); [by apply unlink_ok|].
    rewrite Ek in Hin. rewrite Hl in Hhd. destruct l1 as [|[i0 e0] l1]; [done|].
    assert ((id, f) ∈ queue_of s (t_clock ts) \/ (id, f) = (t_id ts, e)) as [Hin'|[= -> ->]].
    { apply elem_of_app in Hin as [Hin|Hin%elem_of_cons].
      - left. apply (unlink_sub (t_id ts)). rewrite El. set_solver.
      - destruct Hin as [->|Hin]; [by right|]. left. apply (unlink_sub (t_id ts)). rewrite El. set_solver. }
    + by eapply Hw.
    + assert ((i0, e0) ∈ queue_of s (t_clock ts)) as Hin'
        by (apply (unlink_sub (t_id ts)); rewrite El; set_solver).
      specialize (Hw _ _ _ Hc Hin'). apply Forall_cons_1 in H1 as [H1 _]. cbn in H1.
      split; [lia|]. etrans; [apply Hw|]. apply Z.max_le_compat_l.
      destruct (t_clock ts); cbn [due_us]; [lia|]. apply Z.div_le_mono; lia.
Qed.

(** C34: qemu_run_timers runs exactly the timers that are due, each once and in the
    order of their deadlines, and leaves none due, as long as each callback leaves the
    timers of its clock that are due and have not run yet as they are ([cb_future]): it
    may arm, move and delete timers due after the present, but arms none for the present
    or before, and neither deletes a due timer nor gives it another deadline (either would
    keep that timer from running now, or change the order).  The loop ends after as many turns as there
    are due timers. *)
Theorem run_timers_fires {D} (cb : nat -> ST (D * timers) unit) c t d s :
  (c < 3)%nat -> timers_ok s -> (forall id, id ∈ due t (queue_of s c) -> cb_future cb c t id) ->
  wp no_err (qemu_run_timers (logged cb) (S (length (due t (queue_of s c)))) c t)
     (fun _ ds' => ds'.1.2 = due t (queue_of s c) /\ timers_ok ds'.2 /\
                   Forall (fun x => t < x.2) (queue_of ds'.2 c)) (d, [], s).
Proof.
  intros Hc Hs Hcb. eapply wp_mono; [apply run_timers_due; [done..|lia]|].
  intros [] ds' (H1 & H2 & H3). split; [done|]. split; [done|]. apply Forall_forall. intros x Hx.
  destruct (Z.lt_ge_cases t x.2) as [|Hle]; [done|]. exfalso.
  assert (x.1 ∈ due t (queue_of ds'.2 c)) as Hin.
  { apply list_elem_of_fmap. exists x. split; [done|]. by apply list_elem_of_filter. }
  rewrite H3 in Hin. set_solver.
Qed.

(** A timer survives migration: loading the word qemu_put_timer saved gives the
    timer the deadline it had, or none, on any destination, for every deadline that is
    an int64_t other than -1, the word of an idle timer. *)
Theorem timer_migrates s s0 ts : timers_ok s -> timers_ok s0 -> (t_clock ts < 3)%nat ->
  (forall e, deadline s ts = Some e -> - 2 ^ 63 <= e < 2 ^ 63 /\ e <> -1) ->
  wp no_err (qemu_put_timer ts) (fun w s' => s' = s /\
    wp no_err (qemu_get_timer ts w) (fun _ s1 => deadline s1 ts = deadline s ts) s0) s.
Proof.
  intros Hs Hs0 Hc Hr. unfold qemu_put_timer, qemu_timer_pending, timer_expire.
  wp_step. wp_step. apply get_queue_wp; [done..|]. wp_steps. apply get_queue_wp; [done..|]. wp_steps.
  split; [done|].
  assert (forall l, existsb (fun t : nat * Z => (t.1 =? t_id ts)%nat) l =
    match expiry (t_id ts) l with Some _ => true | None => false end) as E1.
  { intros l. induction l as [|[i f] l IH]; cbn; [done|]. by destruct (i =? t_id ts)%nat. }
  assert (forall l, snd <$> find (fun t : nat * Z => (t.1 =? t_id ts)%nat) l = expiry (t_id ts) l) as E2.
  { intros l. induction l as [|[i f] l IH]; cbn; [done|]. by destruct (i =? t_id ts)%nat. }
  rewrite E1, E2. fold (deadline s ts). unfold qemu_get_timer.
  destruct (deadline s ts) as [e|].
  - specialize (Hr e eq_refl). change (default 0 (Some e)) with e. unfold wrap.
    change ((-1) mod 2 ^ 64) with (2 ^ 64 - 1).
    assert (e mod 2 ^ 64 = if e <? 0 then e + 2 ^ 64 else e) as ->.
    { destruct (Z.ltb_spec e 0); [|by rewrite Z.mod_small by lia].
      rewrite <- (Z_mod_plus_full e 1), Z.mod_small; lia. }
    destruct (Z.eqb_spec (if e <? 0 then e + 2 ^ 64 else e) (2 ^ 64 - 1)) as [Heq|_].
    { destruct (Z.ltb_spec e 0); lia. }
    assert (s64 (if e <? 0 then e + 2 ^ 64 else e) = e) as ->.
    { unfold s64. destruct (Z.ltb_spec e 0), (Z.ltb_spec (if true then e + 2 ^ 64 else e) (2 ^ 63));
        destruct (Z.ltb_spec e (2 ^ 63)); lia. }
    eapply wp_mono; [by apply mod_timer_wp|]. intros [] s' (Hsq & _ & _). unfold deadline.
    rewrite (same_queues_of _ _ _ Hsq). fold (deadline (modded s0 ts e) ts).
    by rewrite modded_deadline, !Nat.eqb_refl by done.
  - rewrite Z.eqb_refl. apply del_timer_wp; [done..|]. intros s1 _. unfold deadline, s1.
    rewrite queue_of_with, Nat.eqb_refl by done.
    rewrite expiry_unlink by apply (queue_of_ok s0 (t_clock ts) Hs0). by rewrite Nat.eqb_refl.
Qed.

(** ** What a device sees *)
(** A device's environment [E]: its lines, and timers of vm_clock named by number. *)
Class TimerBank (E : Type) := {
  vm_clock : ST E Z;
  mod_timer : nat -> Z -> ST E unit;
  del_timer : nat -> ST E unit
}.

(** The laws of an environment: lines and timers do not interfere. *)
Class EnvLaws (E : Type) `{!IrqBank E, !TimerBank E} := {
  env_irq_laws :: IrqBankLaws E;
  vm_now : E -> Z;
  armed : E -> nat -> option Z;
  set_irq_frame e n l : irq_inv e -> irq_pin n ->
    wp no_err (set_irq n l) (fun _ e' => vm_now e' = vm_now e /\ forall i, armed e' i = armed e i) e;
  vm_clock_spec e : irq_inv e -> wp no_err vm_clock (fun t e' => t = vm_now e /\ e' = e) e;
  mod_timer_spec e i t : irq_inv e ->
    wp no_err (mod_timer i t) (fun _ e' => irq_inv e' /\ vm_now e' = vm_now e /\
      (forall n, irq_level e' n = irq_level e n) /\
      forall j, armed e' j = if (j =? i)%nat then Some t else armed e j) e;
  del_timer_spec e i : irq_inv e ->
    wp no_err (del_timer i) (fun _ e' => irq_inv e' /\ vm_now e' = vm_now e /\
      (forall n, irq_level e' n = irq_level e n) /\
      forall j, armed e' j = if (j =? i)%nat then None else armed e j) e
}.

(** Driving a possibly unconnected line of an environment. *)
Lemma env_set_irq {E} `{!IrqBank E, !TimerBank E, !EnvLaws E} (e : E) irq l :
  irq_inv e -> line_valid irq ->
  wp no_err (qemu_set_irq irq l) (fun _ e' => irq_inv e' /\ line_is e' irq (truth l) /\
    lines_same_but e e' irq /\ vm_now e' = vm_now e /\ forall i, armed e' i = armed e i) e.
Proof.
  intros He Hv. destruct irq as [n|].
  - eapply wp_mono; [apply wp_and; [by apply set_irq_spec|by apply set_irq_frame]|].
    intros [] e' ((H1 & H2 & H3) & H4 & H5). split; [done|]. split; [done|]. split; [|done].
    intros m Hm. apply H3. congruence.
  - apply wp_ret. split; [done|]. split; [done|]. by split; [intros m|].
Qed.

(** A down counter reloaded every [n] ticks, [k] ticks after a reload. *)
Lemma countdown_bounds n k : 0 < n -> 1 <= n - k mod n <= n.
Proof. intros Hn. pose proof (Z.mod_pos_bound k n Hn). lia. Qed.
Lemma muldiv_ticks {S} Er (a b : Z) (Q : Z -> S -> Prop) s : fits 64 a -> fits 32 b ->
  Q ((a * b / 1000000000) mod 2 ^ 64) s -> wp Er (muldiv a b get_ticks_per_sec) Q s.
Proof.
  intros Ha Hb HQ. unfold muldiv, get_ticks_per_sec. cbn [Z.eqb]. apply wp_ret.
  by rewrite muldiv64_val by (done || lia).
Qed.

Section board.
  Context {P : Type} `{!IrqBank P}.
Definition vm_timer (i : nat) : QEMUTimer := mkTimer i QEMU_CLOCK_VIRTUAL.
#[export] Instance board_irqs : IrqBank (P * timers) := fun n l => on_dev (set_irq n l).
#[export] Instance board_timers : TimerBank (P * timers) := {|
    vm_clock := on_bank (qemu_get_clock QEMU_CLOCK_VIRTUAL);
    mod_timer i t := on_bank (qemu_mod_timer (vm_timer i) t);
    del_timer i := on_bank (qemu_del_timer (vm_timer i))
  |}.

  Context `{!IrqBankLaws P}.
#[export, program] Instance board_irq_laws : IrqBankLaws (P * timers) := {|
    irq_inv e := irq_inv e.1 /\ timers_ok e.2;
    irq_pin := irq_pin (P := P);
    irq_level e := irq_level e.1
  |}.
  Next Obligation.
    intros [p t] n l [Hp Ht] Hn. apply wp_on_dev. eapply wp_mono; [by apply set_irq_spec|].
    intros [] p' (H1 & H2 & H3). done.
  Qed.
#[export, program] Instance board_env_laws : EnvLaws (P * timers) := {|
    vm_now e := default 0 (now e.2 !! QEMU_CLOCK_VIRTUAL);
    armed e i := deadline e.2 (vm_timer i)
  |}.
  Next Obligation.
    intros [p t] n l [Hp Ht] Hn. apply wp_on_dev. eapply wp_mono; [by apply set_irq_spec|]. done.
  Qed.
  Next Obligation.
    intros [p t] [Hp Ht]. apply wp_on_bank, get_clock_wp; [done|unfold QEMU_CLOCK_VIRTUAL; lia|].
    intros x Hx. cbn in *. by rewrite Hx.
  Qed.
  Next Obligation.
    intros [p t] i e [Hp Ht]. apply wp_on_bank.
    eapply wp_mono; [apply mod_timer_wp; [done|unfold vm_timer, QEMU_CLOCK_VIRTUAL; cbn; lia]|].
    intros [] t' (Hsq & H0 & _). cbn. split; [split; [done|]|].
    { by eapply same_queues_ok; [apply modded_ok|..]. }
    split; [by rewrite (proj1 (proj2 Hsq))|]. split; [done|]. intros j. unfold deadline at 1.
    rewrite (same_queues_of _ _ _ Hsq). apply (modded_deadline t (vm_timer i) e (vm_timer j)); [done|].
    unfold vm_timer, QEMU_CLOCK_VIRTUAL; cbn; lia.
  Qed.
  Next Obligation.
    intros [p t] i [Hp Ht]. apply wp_on_bank.
    assert (t_clock (vm_timer i) < 3)%nat as Hc by (unfold vm_timer, QEMU_CLOCK_VIRTUAL; cbn; lia).
    apply del_timer_wp; [done..|]. intros t' Ht'. cbn. split; [done|]. split; [done|].
    split; [done|]. intros j. unfold deadline, t'. rewrite queue_of_with by done. cbn.
    rewrite expiry_unlink by apply (queue_of_ok t _ Ht). done.
  Qed.
End board.

(** ** Witnesses *)
Definition demo_timers : timers :=
  mkTimers [[]; [(7%nat, 100); (2%nat, 2000000)]; []] [0; 1000; 0] ALARM_FLAG_DYNTICKS 250 false false.
Lemma demo_timers_ok : timers_ok demo_timers.
Proof.
  split; [done|]. split; [done|]. split; [|done].
  constructor; [split; constructor|]. constructor; [|constructor; [split; constructor|constructor]].
  split; [repeat constructor; unfold before; cbn; lia|]. apply (bool_decide_unpack _). reflexivity.
Qed.
Example timers_map_witness :
  wp no_err (qemu_timer_pending (vm_timer 2)) (fun b s' => s' = demo_timers /\
    (b = true <-> deadline demo_timers (vm_timer 2) <> None)) demo_timers.
Proof.
  apply (timers_map demo_timers (vm_timer 2) 5); [apply demo_timers_ok|unfold vm_timer, QEMU_CLOCK_VIRTUAL; cbn; lia].
Defined.
Example mod_timer_wakeup_witness :
  wp no_err (qemu_mod_timer (vm_timer 3) 70000) (fun _ s' => forall c id e, (c < 3)%nat ->
    (id, e) ∈ queue_of s' c -> 0 < host_timer s' <= Z.max MIN_TIMER_REARM_US (due_us s' c e))
    demo_timers.
Proof.
  apply (mod_timer_wakeup demo_timers (vm_timer 3) 70000); try reflexivity.
  - apply demo_timers_ok.
  - cbn; unfold QEMU_CLOCK_VIRTUAL; lia.
  - intros c id e Hc Hin. unfold MIN_TIMER_REARM_US. cbn [host_timer demo_timers]. lia.
Defined.
Example run_timers_fires_witness :
  wp no_err (qemu_run_timers (logged (fun _ => mret tt)) 2 QEMU_CLOCK_VIRTUAL 1000)
     (fun _ ds' => ds'.1.2 = [7%nat] /\ timers_ok ds'.2 /\
                   Forall (fun x => 1000 < x.2) (queue_of ds'.2 QEMU_CLOCK_VIRTUAL))
     (tt, [], demo_timers).
Proof.
  apply (run_timers_fires (fun _ => mret tt) QEMU_CLOCK_VIRTUAL 1000 tt demo_timers);
    [unfold QEMU_CLOCK_VIRTUAL; lia|apply demo_timers_ok|].
  intros id _ d s Hs. by apply wp_ret.
Defined.
Example timer_migrates_witness :
  wp no_err (qemu_put_timer (vm_timer 2)) (fun w s' => s' = demo_timers /\
    wp no_err (qemu_get_timer (vm_timer 2) w)
       (fun _ s1 => deadline s1 (vm_timer 2) = deadline demo_timers (vm_timer 2)) demo_timers) demo_timers.
Proof.
  apply (timer_migrates demo_timers demo_timers (vm_timer 2)); try apply demo_timers_ok.
  - unfold vm_timer, QEMU_CLOCK_VIRTUAL; cbn; lia.
  - intros e He. vm_compute in He. injection He as <-. lia.
Defined.
