(* ===== verification/Device.v ===== *)
(** * Device: what the timer devices share

    A device with a register array is an instance of [RegFile]; its handlers run in
    [ST (D * E)], [E] being the environment of interrupt lines and timers (files Irq
    and Timers).  The file gives the register accesses with their rules, and a board
    of plain wires and idle timers for concrete runs. *)
From S2P Require Import Prelude HostUtils Irq Timers.

#[local] Open Scope Z_scope.

(** A device state with an array of registers. *)
Class RegFile (D : Type) := {
  regs : D -> list Z;
  with_regs : list Z -> D -> D;
  regs_with : forall l d, regs (with_regs l d) = l
}.

Section device.
  Context {D E : Type}.
Definition dev : ST (D * E) D := s ← get; mret s.1.
Definition set_dev (f : D -> D) : ST (D * E) unit := on_dev (modify f).
Lemma dev_wp Er (s : D) (e : E) (Q : D -> D * E -> Prop) : Q s (s, e) -> wp Er dev Q (s, e).
Proof. done. Qed.
Lemma set_dev_wp Er f (s : D) (e : E) (Q : unit -> D * E -> Prop) :
  Q tt (f s, e) -> wp Er (set_dev f) Q (s, e).
Proof. done. Qed.

  Context `{!RegFile D}.
Definition reg (i : Z) : ST (D * E) Z := s ← dev; deref (rd (regs s) i).
Definition set_reg (i v : Z) : ST (D * E) unit :=
  s ← dev; a ← deref (wr (regs s) i v); set_dev (with_regs a).

(** The value of a register, and the state with one changed. *)
Definition rv (s : D) (i : Z) : Z := default 0 (rd (regs s) i).
Definition with_reg (s : D) (i v : Z) : D := with_regs (<[Z.to_nat i := v]> (regs s)) s.

Lemma with_reg_length s i v : length (regs (with_reg s i v)) = length (regs s).
Proof. unfold with_reg. by rewrite regs_with, length_insert. Qed.
Lemma rd_with_reg s i v j : 0 <= i < Z.of_nat (length (regs s)) ->
  rd (regs (with_reg s i v)) j = if i =? j then Some v else rd (regs s) j.
Proof. intros Hi. unfold with_reg. rewrite regs_with. apply (rd_wr (regs s)), wr_Some, Hi. Qed.
Lemma rv_with_reg s i v j : 0 <= i < Z.of_nat (length (regs s)) ->
  rv (with_reg s i v) j = if i =? j then v else rv s j.
Proof. intros Hi. unfold rv. rewrite rd_with_reg by done. by destruct (i =? j). Qed.

Lemma reg_wp Er (s : D) (e : E) i (Q : Z -> D * E -> Prop) :
  0 <= i < Z.of_nat (length (regs s)) -> Q (rv s i) (s, e) -> wp Er (reg i) Q (s, e).
Proof.
  intros Hi HQ. unfold reg. wp_step. apply dev_wp.
  destruct (rd_Some (regs s) i Hi) as (v & Hv & _). eapply deref_wp; [done|].
  unfold rv in HQ. by rewrite Hv in HQ.
Qed.
Lemma set_reg_wp Er (s : D) (e : E) i v (Q : unit -> D * E -> Prop) :
  0 <= i < Z.of_nat (length (regs s)) -> Q tt (with_reg s i v, e) -> wp Er (set_reg i v) Q (s, e).
Proof.
  intros Hi HQ. unfold set_reg. wp_step. apply dev_wp. wp_step.
  eapply deref_wp; [by apply wr_Some|]. by apply set_dev_wp.
Qed.
End device.

(** The index is within the array, whose length a hypothesis gives for some state with
    the same registers. *)
Ltac in_regs :=
  rewrite ?with_reg_length;
  first [lia
        | match goal with
          | H : length (regs ?s) = _ |- context [length (regs ?t)] =>
              change (length (regs t)) with (length (regs s)); lia
          end].

(** ** A concrete board: [n] wires, no timer armed, vm_clock at [t] *)
Definition board_at (n : nat) (t : Z) : wires * timers :=
  (qemu_allocate_irqs n, mkTimers [[]; []; []] [0; t; 0] ALARM_FLAG_DYNTICKS 0 false false).
Definition board_laws (n : nat) : EnvLaws (wires * timers) := board_env_laws (IrqBankLaws0 := wires_laws n).
Lemma board_at_ok n t : irq_inv (IrqBankLaws := @env_irq_laws _ _ _ (board_laws n)) (board_at n t).
Proof.
  split; [apply length_replicate|]. split; [done|]. split; [done|]. split; [|done].
  repeat (constructor; [split; constructor|]). constructor.
Qed.
