(* ===== verification/Pl192.v ===== *)
(** * Pl192: the ARM PrimeCell PL192 vectored interrupt controller (hw/pl192.c)

    The board chains four controllers: VIC0 drives the CPU's IRQ and FIQ lines,
    and VIC(j+1) hands its interrupts to VIC(j) through the daisy-chain fields.
    The handlers follow [daisy] and [daisy_callback] pointers, so they run on the
    store of all controllers, a list indexed by the controller's number.  The
    recursion of pl192_raise / pl192_lower / pl192_update along the chain has a
    fuel; [chain_total] shows that [2 * S n] is enough for [n] controllers. *)
From S2P Require Import Prelude Irq.

Definition PL192_INT_SOURCES : Z := 32.
Definition PL192_DAISY_IRQ : Z := PL192_INT_SOURCES.
Definition PL192_NO_IRQ : Z := PL192_INT_SOURCES + 1.
Definition PL192_PRIO_LEVELS : Z := 16.

Definition PL192_IRQSTATUS : Z := 0x00.
Definition PL192_FIQSTATUS : Z := 0x04.
Definition PL192_RAWINTR : Z := 0x08.
Definition PL192_INTSELECT : Z := 0x0C.
Definition PL192_INTENABLE : Z := 0x10.
Definition PL192_INTENCLEAR : Z := 0x14.
Definition PL192_SOFTINT : Z := 0x18.
Definition PL192_SOFTINTCLEAR : Z := 0x1C.
Definition PL192_PROTECTION : Z := 0x20.
Definition PL192_SWPRIORITYMASK : Z := 0x24.
Definition PL192_PRIORITYDAISY : Z := 0x28.
Definition PL192_VECTADDR : Z := 0xF00.
Definition PL190_ITCR : Z := 0x300.
Definition PL190_VECTADDR : Z := 0x30.
Definition PL190_DEFVECTADDR : Z := 0x34.

(** struct pl192_state_s.  [irq] and [fiq] are the parent lines: [None] is the
    NULL qemu_irq, [Some b] a connected line at level [b].  [daisy] and
    [daisy_callback] are indices into the store, [None] being NULL. *)
Record pl192_state := mkPl192 {
  irq_status : Z; fiq_status : Z; rawintr : Z; intselect : Z; intenable : Z;
  softint : Z; protection : Z; sw_priority_mask : Z;
  vect_addr : list Z; vect_priority : list Z; address : Z;
  current : Z; current_highest : Z;
  stack_i : Z; priority_stack : list Z; irq_stack : list Z; priority : Z;
  daisy_vectaddr : Z; daisy_priority : Z; daisy_callback : option nat; daisy_input : Z;
  irq : option bool; fiq : option bool;
  daisy : option nat
}.
#[export] Instance eta_pl192 : Eta pl192_state := fun r => mkPl192
  (irq_status r) (fiq_status r) (rawintr r) (intselect r) (intenable r)
  (softint r) (protection r) (sw_priority_mask r)
  (vect_addr r) (vect_priority r) (address r)
  (current r) (current_highest r)
  (stack_i r) (priority_stack r) (irq_stack r) (priority r)
  (daisy_vectaddr r) (daisy_priority r) (daisy_callback r) (daisy_input r)
  (irq r) (fiq r) (daisy r).

Definition pl192_id : list Z := [0x92; 0x11; 0x04; 0x00; 0x0D; 0xF0; 0x05; 0xB1].

Abbreviation store := (list pl192_state).

(** [*s] for the controller [s]; dereferencing a dangling index is a fault. *)
Definition the (i : nat) : ST store pl192_state :=
  st ← get; deref (st !! i).
Definition set_the (i : nat) (f : pl192_state -> pl192_state) : ST store unit :=
  s ← the i; modify (fun st => <[i := f s]> st).

(** [if (s->irq)]: the qemu_irq is not NULL. *)
Definition connected (l : option bool) : bool :=
  match l with Some _ => true | None => false end.

(** pl192_priority_sorter(): [prio_irq] holds, per level, the last source written.
    The first loop clears it; the second runs over the sources downwards; the
    third looks for the first enabled level that has one. *)
Fixpoint sorter_fill (s : pl192_state) (n : nat) (prio_irq : list Z) : option (list Z) :=
  match n with
  | O => Some prio_irq
  | S n =>
      let i := Z.of_nat n in
      prio_irq ← (if truth (Z.land (irq_status s) (bit i))
                  then p ← rd (vect_priority s) i; wr prio_irq p i
                  else Some prio_irq);
      sorter_fill s n prio_irq
  end.
Fixpoint sorter_scan (s : pl192_state) (prio_irq : list Z) (i : Z) (n : nat) : option Z :=
  match n with
  | O => Some PL192_NO_IRQ
  | S n =>
      v ← rd prio_irq i;
      if truth (Z.land (sw_priority_mask s) (bit i)) && (v <=? PL192_DAISY_IRQ)
      then Some v
      else sorter_scan s prio_irq (i + 1) n
  end.
Definition pl192_priority_sorter (s : pl192_state) : option Z :=
  let prio_irq := replicate (Z.to_nat PL192_PRIO_LEVELS) PL192_NO_IRQ in
  prio_irq ← (if truth (daisy_input s)
              then wr prio_irq (daisy_priority s) PL192_DAISY_IRQ
              else Some prio_irq);
  prio_irq ← sorter_fill s (Z.to_nat PL192_INT_SOURCES) prio_irq;
  sorter_scan s prio_irq 0 (Z.to_nat PL192_PRIO_LEVELS).

(** pl192_raise, pl192_lower and pl192_update call each other along the chain. *)
Fixpoint pl192_raise (fuel : nat) (s : nat) (is_fiq : bool) : ST store unit :=
  match fuel with
  | O => throw OutOfFuel
  | S fuel =>
      v ← the s;
      if is_fiq then
        match fiq v with
        | Some _ => set_the s (fun v => v <| fiq := Some true |>)
        | None =>
            match daisy v with
            | Some d => pl192_raise fuel d is_fiq
            | None => hw_error
            end
        end
      else
        match irq v with
        | Some _ => set_the s (fun v => v <| irq := Some true |>)
        | None =>
            match daisy v with
            | Some d =>
                set_the d (fun w => w <| daisy_vectaddr := address v |>
                                      <| daisy_callback := Some s |>
                                      <| daisy_input := 1 |>) ;;
                pl192_update fuel d
            | None => hw_error
            end
        end
  end
with pl192_lower (fuel : nat) (s : nat) (is_fiq : bool) : ST store unit :=
  match fuel with
  | O => throw OutOfFuel
  | S fuel =>
      v ← the s;
      when (is_fiq && connected (fiq v))
        (set_the s (fun v => v <| fiq := Some false |>)) ;;
      when (negb is_fiq && connected (irq v))
        (set_the s (fun v => v <| irq := Some false |>)) ;;
      match daisy v with
      | Some d =>
          if negb is_fiq then
            set_the d (fun w => w <| daisy_input := 0 |>) ;;
            pl192_update fuel d
          else pl192_lower fuel d is_fiq
      | None => mret tt
      end
  end
with pl192_update (fuel : nat) (s : nat) : ST store unit :=
  match fuel with
  | O => throw OutOfFuel
  | S fuel =>
      set_the s (fun v => v <| irq_status :=
        Z.land (Z.land (Z.lor (rawintr v) (softint v)) (intenable v)) (not32 (intselect v)) |>) ;;
      set_the s (fun v => v <| fiq_status :=
        Z.land (Z.land (Z.lor (rawintr v) (softint v)) (intenable v)) (intselect v) |>) ;;
      v ← the s;
      (if truth (fiq_status v) then pl192_raise fuel s true else pl192_lower fuel s true) ;;
      v ← the s;
      if truth (irq_status v) || truth (daisy_input v) then
        h ← deref (pl192_priority_sorter v);
        set_the s (fun v => v <| current_highest := h |>) ;;
        (if h <? PL192_INT_SOURCES then
           a ← deref (rd (vect_addr v) h); set_the s (fun v => v <| address := a |>)
         else set_the s (fun v => v <| address := daisy_vectaddr v |>)) ;;
        if negb (h =? current v) then
          p ← (if h <? PL192_INT_SOURCES then deref (rd (vect_priority v) h) else mret 0);
          if (h <? PL192_INT_SOURCES) && (priority v <=? p) then mret tt
          else if (h =? PL192_DAISY_IRQ) && (priority v <=? daisy_priority v) then mret tt
          else if h <=? PL192_DAISY_IRQ then pl192_raise fuel s false
          else pl192_lower fuel s false
        else mret tt
      else
        set_the s (fun v => v <| current_highest := PL192_NO_IRQ |>) ;;
        pl192_lower fuel s false
  end.

(** The budget every handler below runs the chain with. *)
Definition chain_fuel (st : store) : nat := 2 * S (length st).
Definition update (s : nat) : ST store unit :=
  st ← get; pl192_update (chain_fuel st) s.
Definition lower (s : nat) (is_fiq : bool) : ST store unit :=
  st ← get; pl192_lower (chain_fuel st) s is_fiq.

Definition pl192_mask_priority (s : nat) : ST store unit :=
  v ← the s;
  if PL192_INT_SOURCES <=? stack_i v then hw_error
  else
    set_the s (fun v => v <| stack_i := stack_i v + 1 |>) ;;
    p ← (if current v =? PL192_DAISY_IRQ then mret (daisy_priority v)
         else deref (rd (vect_priority v) (current v)));
    set_the s (fun v => v <| priority := p |>) ;;
    v ← the s;
    ps ← deref (wr (priority_stack v) (stack_i v) (priority v));
    set_the s (fun v => v <| priority_stack := ps |>) ;;
    iq ← deref (wr (irq_stack v) (stack_i v) (wrap 8 (current v)));
    set_the s (fun v => v <| irq_stack := iq |>).

Definition pl192_unmask_priority (s : nat) : ST store unit :=
  v ← the s;
  if stack_i v <? 1 then hw_error
  else
    set_the s (fun v => v <| stack_i := stack_i v - 1 |>) ;;
    v ← the s;
    p ← deref (rd (priority_stack v) (stack_i v));
    set_the s (fun v => v <| priority := p |>) ;;
    c ← deref (rd (irq_stack v) (stack_i v));
    set_the s (fun v => v <| current := c |>).

Definition pl192_irq_ack (s : nat) : ST store Z :=
  v ← the s;
  let is_daisy := current_highest v =? PL192_DAISY_IRQ in
  let res := address v in
  set_the s (fun v => v <| current := current_highest v |>) ;;
  pl192_mask_priority s ;;
  v ← the s;
  (if is_daisy : bool then c ← deref (daisy_callback v); pl192_mask_priority c else mret tt) ;;
  update s ;;
  mret res.

Definition pl192_irq_fin (s : nat) : ST store unit :=
  v ← the s;
  let is_daisy := current v =? PL192_DAISY_IRQ in
  pl192_unmask_priority s ;;
  v ← the s;
  (if is_daisy : bool then c ← deref (daisy_callback v); pl192_unmask_priority c else mret tt) ;;
  update s ;;
  v ← the s;
  if current v =? PL192_NO_IRQ then lower s false else mret tt.

Definition pl192_read (s : nat) (offset : Z) : ST store Z :=
  v ← the s;
  if truth (Z.land offset 3) then hw_error
  else if (0xfe0 <=? offset) && (offset <? 0x1000) then
    deref (rd pl192_id (Z.shiftr (offset - 0xfe0) 2))
  else if (0x100 <=? offset) && (offset <? 0x180) then
    deref (rd (vect_addr v) (Z.shiftr (offset - 0x100) 2))
  else if (0x200 <=? offset) && (offset <? 0x280) then
    deref (rd (vect_priority v) (Z.shiftr (offset - 0x200) 2))
  else if offset =? PL192_IRQSTATUS then mret (irq_status v)
  else if offset =? PL192_FIQSTATUS then mret (fiq_status v)
  else if offset =? PL192_RAWINTR then mret (rawintr v)
  else if offset =? PL192_INTSELECT then mret (intselect v)
  else if offset =? PL192_INTENABLE then mret (intenable v)
  else if offset =? PL192_SOFTINT then mret (softint v)
  else if offset =? PL192_PROTECTION then mret (protection v)
  else if offset =? PL192_SWPRIORITYMASK then mret (sw_priority_mask v)
  else if offset =? PL192_PRIORITYDAISY then mret (daisy_priority v)
  else if (offset =? PL192_INTENCLEAR) || (offset =? PL192_SOFTINTCLEAR) then hw_error
  else if offset =? PL192_VECTADDR then pl192_irq_ack s
  else if (offset =? PL190_ITCR) || (offset =? PL190_VECTADDR)
          || (offset =? PL190_DEFVECTADDR) then mret 0
  else hw_error.

Definition pl192_write (s : nat) (offset value : Z) : ST store unit :=
  v ← the s;
  if truth (Z.land offset 3) then hw_error
  else if (0xfe0 <=? offset) && (offset <? 0x1000) then hw_error
  else if (0x100 <=? offset) && (offset <? 0x180) then
    a ← deref (wr (vect_addr v) (Z.shiftr (offset - 0x100) 2) value);
    set_the s (fun v => v <| vect_addr := a |>) ;; update s
  else if (0x200 <=? offset) && (offset <? 0x280) then
    a ← deref (wr (vect_priority v) (Z.shiftr (offset - 0x200) 2) (Z.land value 0xf));
    set_the s (fun v => v <| vect_priority := a |>) ;; update s
  else if offset =? PL192_IRQSTATUS then mret tt
  else if (offset =? PL192_FIQSTATUS) || (offset =? PL192_RAWINTR) then hw_error
  else if offset =? PL192_INTSELECT then
    set_the s (fun v => v <| intselect := value |>) ;; update s
  else if offset =? PL192_INTENABLE then
    set_the s (fun v => v <| intenable := Z.lor (intenable v) value |>) ;; update s
  else if offset =? PL192_INTENCLEAR then
    set_the s (fun v => v <| intenable := Z.land (intenable v) (not32 value) |>) ;; update s
  else if offset =? PL192_SOFTINT then
    set_the s (fun v => v <| softint := Z.lor (softint v) value |>) ;; update s
  else if offset =? PL192_SOFTINTCLEAR then
    set_the s (fun v => v <| softint := Z.land (softint v) (not32 value) |>) ;; update s
  else if offset =? PL192_PROTECTION then
    set_the s (fun v => v <| protection := Z.land value 1 |>) ;; update s
  else if offset =? PL192_SWPRIORITYMASK then
    set_the s (fun v => v <| sw_priority_mask := Z.land value 0xffff |>) ;; update s
  else if offset =? PL192_PRIORITYDAISY then
    set_the s (fun v => v <| daisy_priority := Z.land value 0xf |>) ;; update s
  else if offset =? PL192_VECTADDR then pl192_irq_fin s
  else if (offset =? PL190_ITCR) || (offset =? PL190_VECTADDR)
          || (offset =? PL190_DEFVECTADDR) then mret tt
  else hw_error.

(** The handler of input [irq] (0..31, as allocated by qdev_init_gpio_in). *)
Definition pl192_irq_handler (s : nat) (irq level : Z) : ST store unit :=
  (if truth level
   then set_the s (fun v => v <| rawintr := Z.lor (rawintr v) (wrap 32 (bit irq)) |>)
   else set_the s (fun v => v <| rawintr := Z.land (rawintr v) (not32 (bit irq)) |>)) ;;
  update s.

(** A zeroed pl192_state whose parent lines are connected or not. *)
Definition pl192_zero (irq fiq : option bool) : pl192_state :=
  mkPl192 0 0 0 0 0 0 0 0 (replicate 32 0) (replicate 32 0) 0 0 0
          0 (replicate 17 0) (replicate 17 0) 0 0 0 None 0 irq fiq None.

Definition pl192_reset (s : pl192_state) : pl192_state :=
  s <| vect_priority := replicate 32 0xf |>
    <| sw_priority_mask := 0xffff |>
    <| daisy_priority := 0xf |>
    <| current := PL192_NO_IRQ |>
    <| current_highest := PL192_NO_IRQ |>
    <| stack_i := 0 |>
    <| priority_stack := <[0%nat := 0x10]> (priority_stack s) |>
    <| irq_stack := <[0%nat := PL192_NO_IRQ]> (irq_stack s) |>
    <| priority := 0x10 |>.

Definition pl192_init1 (irq fiq : option bool) : pl192_state :=
  pl192_reset (pl192_zero irq fiq).

(** pl192_chain(first, next): next->daisy = first. *)
Definition pl192_chain (first next : nat) : ST store unit :=
  set_the next (fun v => v <| daisy := Some first |>).

(** The board (s5pc110_init): VIC0 has the CPU's lines, VIC(j) chains to VIC(j-1). *)
Definition S5PC1XX_VIC_N : nat := 4.
Definition S5PC1XX_VIC_SIZE : Z := 32.
Fixpoint board_chain (j : nat) (n : nat) : ST store unit :=
  match n with
  | O => mret tt
  | S n => pl192_chain (j - 1) j ;; board_chain (S j) n
  end.
Definition board_vics_unchained : store :=
  (pl192_init1 (Some false) (Some false))
    :: replicate (S5PC1XX_VIC_N - 1) (pl192_init1 None None).
Definition board_vics : option store :=
  exec (board_chain 1 (S5PC1XX_VIC_N - 1)) board_vics_unchained.
(** s5pc1xx_get_irq(s, n): input pin n % 32 of VIC n / 32. *)
#[export] Instance pl192_bank : IrqBank store := fun n level =>
  pl192_irq_handler (Z.to_nat (Z.of_nat n / S5PC1XX_VIC_SIZE))
                    (Z.of_nat n `mod` S5PC1XX_VIC_SIZE) level.

Ltac vlia := unfold PL192_NO_IRQ, PL192_DAISY_IRQ, PL192_INT_SOURCES in *; lia.

(** ** Well-formed controllers and chains *)

(** Ranges and array sizes, all on fields no update of the chain touches. *)
Definition vic_ok (s : pl192_state) : Prop :=
  fits 32 (rawintr s) /\ fits 32 (intselect s) /\ fits 32 (intenable s) /\ fits 32 (softint s) /\
  length (vect_addr s) = 32%nat /\
  length (vect_priority s) = 32%nat /\ Forall (fun p => 0 <= p < 16) (vect_priority s) /\
  0 <= daisy_priority s < 16 /\ fits 16 (sw_priority_mask s) /\
  0 <= stack_i s <= 16 /\
  length (priority_stack s) = 17%nat /\ length (irq_stack s) = 17%nat /\
  Forall (fun c => 0 <= c <= 33) (irq_stack s) /\ 0 <= current s <= 33.

#[export] Instance vic_ok_dec s : Decision (vic_ok s).
Proof. unfold vic_ok. apply _. Defined.

(** Controller [i] is the root and has both parent lines, or it is chained to an
    earlier one. *)
Definition link_ok (i : nat) (s : pl192_state) : Prop :=
  match daisy s with
  | None => connected (irq s) = true /\ connected (fiq s) = true
  | Some d => (d < i)%nat
  end.

(** The callback is set before the daisy input can be noticed anywhere. *)
Definition cb_ok (n : nat) (s : pl192_state) : Prop :=
  match daisy_callback s with
  | Some c => (c < n)%nat
  | None => daisy_input s = 0 /\ current_highest s <> PL192_DAISY_IRQ /\
            current s <> PL192_DAISY_IRQ /\ PL192_DAISY_IRQ ∉ irq_stack s
  end.

Definition chain_ok (st : store) : Prop :=
  forall i s, st !! i = Some s -> vic_ok s /\ link_ok i s /\ cb_ok (length st) s.

(** What an update of the chain leaves alone: everything but the pending status,
    the output of the sorter, the daisy inputs and the levels of the lines. *)
Definition static (s : pl192_state) : pl192_state :=
  s <| irq_status := 0 |> <| fiq_status := 0 |> <| address := 0 |> <| current_highest := 0 |>
    <| daisy_vectaddr := 0 |> <| daisy_callback := None |> <| daisy_input := 0 |>
    <| irq := option_map (fun _ => false) (irq s) |>
    <| fiq := option_map (fun _ => false) (fiq s) |>.
(** What driving its own lines leaves alone. *)
Definition nolines (s : pl192_state) : pl192_state :=
  s <| irq := option_map (fun _ => false) (irq s) |>
    <| fiq := option_map (fun _ => false) (fiq s) |>.

Lemma vic_ok_static s s' : static s = static s' -> vic_ok s -> vic_ok s'.
Proof. intros H Hs. change (vic_ok (static s')). by rewrite <- H. Qed.
Lemma connected_map (l : option bool) :
  connected (option_map (fun _ => false) l) = connected l.
Proof. by destruct l. Qed.
Lemma link_ok_static i s s' : static s = static s' -> link_ok i s -> link_ok i s'.
Proof.
  intros H. unfold link_ok.
  pose proof (f_equal daisy H) as Hd. cbn in Hd. rewrite <- Hd.
  destruct (daisy s); [done|].
  rewrite <- (connected_map (irq s)), <- (connected_map (fiq s)).
  rewrite <- (connected_map (irq s')), <- (connected_map (fiq s')).
  change (option_map (fun _ => false) (irq s)) with (irq (static s)).
  change (option_map (fun _ => false) (fiq s)) with (fiq (static s)).
  by rewrite H.
Qed.

(** ** The effect of running on controller [i]: later ones are untouched, all keep
    their static part. *)
Definition evolves (i : nat) (st st' : store) : Prop :=
  chain_ok st' /\ length st' = length st /\
  (forall j, (i < j)%nat -> st' !! j = st !! j) /\
  (forall j s, st !! j = Some s -> exists s', st' !! j = Some s' /\ static s' = static s).

Lemma evolves_refl i st : chain_ok st -> evolves i st st.
Proof. intros H. split_and!; eauto. Qed.
Lemma evolves_trans i st1 st2 st3 :
  evolves i st1 st2 -> evolves i st2 st3 -> evolves i st1 st3.
Proof.
  intros (_ & Hl & Hj & Hs) (Hc' & Hl' & Hj' & Hs'). split_and!; [done|congruence| |].
  - intros j ?. by rewrite Hj', Hj.
  - intros j s Hlk. destruct (Hs _ _ Hlk) as (s1 & H1 & E1).
    destruct (Hs' _ _ H1) as (s2 & H2 & E2). exists s2. split; [done|congruence].
Qed.
Lemma evolves_le d i st st' : (d <= i)%nat -> evolves d st st' -> evolves i st st'.
Proof. intros Hd (Hc & Hl & Hj & Hs). split_and!; try done. intros j ?. apply Hj. lia. Qed.

Lemma chain_ok_set st i s s' :
  chain_ok st -> st !! i = Some s -> vic_ok s' -> link_ok i s' -> cb_ok (length st) s' ->
  chain_ok (<[i := s']> st).
Proof.
  intros Hc Hi Hv Hl Hcb j w Hj. rewrite length_insert.
  destruct (decide (i = j)) as [<-|Hne].
  - rewrite list_lookup_insert_eq in Hj by (by eapply lookup_lt_Some). by injection Hj as <-.
  - rewrite list_lookup_insert_ne in Hj by done. by apply Hc.
Qed.
(** Changing volatile fields only. *)
Lemma evolves_set st i s s' :
  chain_ok st -> st !! i = Some s -> static s' = static s -> cb_ok (length st) s' ->
  evolves i st (<[i := s']> st).
Proof.
  intros Hc Hi Hst Hcb. destruct (Hc _ _ Hi) as (Hv & Hl & _). split_and!.
  - eapply chain_ok_set; eauto using vic_ok_static, link_ok_static.
  - apply length_insert.
  - intros j ?. apply list_lookup_insert_ne. lia.
  - intros j w Hj. destruct (decide (i = j)) as [<-|Hne].
    + exists s'. rewrite list_lookup_insert_eq by (by eapply lookup_lt_Some). split; congruence.
    + exists w. by rewrite list_lookup_insert_ne.
Qed.

Lemma the_wp E i s (Q : pl192_state -> store -> Prop) st :
  st !! i = Some s -> Q s st -> wp E (the i) Q st.
Proof. intros Hi HQ. unfold the. wp_steps. by eapply deref_wp. Qed.
Lemma set_the_wp E i s f (Q : unit -> store -> Prop) st :
  st !! i = Some s -> Q tt (<[i := f s]> st) -> wp E (set_the i f) Q st.
Proof. intros Hi HQ. unfold set_the. wp_steps. by eapply the_wp. Qed.

(** ** The priority sorter *)

(** [src s v p]: source [v] is pending at priority level [p]. *)
Definition src (s : pl192_state) (v p : Z) : Prop :=
  (0 <= v < 32 /\ Z.testbit (irq_status s) v = true /\ rd (vect_priority s) v = Some p) \/
  (v = PL192_DAISY_IRQ /\ truth (daisy_input s) = true /\ p = daisy_priority s).
(** [candidate s v p]: it is not masked by software either. *)
Definition candidate (s : pl192_state) (v p : Z) : Prop :=
  src s v p /\ Z.testbit (sw_priority_mask s) p = true.
(** What the sorter promises: the candidate of the lowest level, and at one level
    the lowest-numbered one, the daisy input coming last. *)
Definition is_best (s : pl192_state) (v : Z) : Prop :=
  (v = PL192_NO_IRQ /\ forall w p, ~ candidate s w p) \/
  exists p, candidate s v p /\
    forall w q, candidate s w q -> p < q \/ (p = q /\ v <= w).

(** Entry of level [p] after the sources numbered [n] and up have been recorded. *)
Definition level_entry (s : pl192_state) (n : Z) (p v : Z) : Prop :=
  (v = PL192_NO_IRQ /\ forall w, src s w p -> w < n) \/
  (src s v p /\ n <= v /\ forall w, src s w p -> w < n \/ v <= w).

Lemma src_range s v p : src s v p -> 0 <= v <= 32.
Proof. unfold src, PL192_DAISY_IRQ, PL192_INT_SOURCES. intros [[? _]|[-> _]]; lia. Qed.

Lemma sorter_fill_spec s n l : vic_ok s -> (n <= 32)%nat -> length l = 16%nat ->
  (forall p, 0 <= p < 16 -> exists v, rd l p = Some v /\ level_entry s (Z.of_nat n) p v) ->
  exists l', sorter_fill s n l = Some l' /\ length l' = 16%nat /\
    forall p, 0 <= p < 16 -> exists v, rd l' p = Some v /\ level_entry s 0 p v.
Proof.
  intros (_ & _ & _ & _ & _ & Hlp & Hfp & _). revert l.
  induction n as [|n IH]; intros l Hn Hl Hinv; [by exists l|].
  cbn [sorter_fill]. rewrite truth_land_bit by lia.
  destruct (rd_Some (vect_priority s) (Z.of_nat n) ltac:(lia)) as (p0 & Hp0 & _).
  pose proof (rd_Forall _ _ _ _ Hfp Hp0) as Hr. cbv beta in Hr.
  assert (forall w p, src s w p -> w <> Z.of_nat n \/
            (p = p0 /\ Z.testbit (irq_status s) (Z.of_nat n) = true)) as Hsrc.
  { intros w p [(? & Hb & Hp)|(-> & _)].
    - destruct (decide (w = Z.of_nat n)) as [->|]; [right|by left]. split; congruence.
    - left. unfold PL192_DAISY_IRQ, PL192_INT_SOURCES. lia. }
  destruct (Z.testbit _ _) eqn:Hb; cbn [mbind option_bind].
  - rewrite Hp0. cbn. rewrite wr_Some by lia. cbn. apply IH; [lia|by rewrite length_insert|].
    intros p Hp. rewrite (rd_wr l _ p0 p (Z.of_nat n) (wr_Some l p0 _ ltac:(lia))).
    destruct (Z.eqb_spec p0 p) as [<-|Hne].
    + eexists. split; [done|]. right. split; [left; split_and!; (done || lia)|]. split; [lia|].
      intros w Hw. destruct (src_range _ _ _ Hw). lia.
    + destruct (Hinv p Hp) as (v & Hv & He). exists v. split; [done|].
      destruct He as [[-> H]|(H1 & H2 & H3)]; [left|right]; split_and!; try done; try lia.
      * intros w Hw. specialize (H w Hw). destruct (Hsrc _ _ Hw) as [?|[? ?]]; lia.
      * intros w Hw. destruct (H3 w Hw), (Hsrc _ _ Hw) as [?|[? ?]]; lia.
  - apply IH; [lia|done|]. intros p Hp. destruct (Hinv p Hp) as (v & Hv & He).
    exists v. split; [done|].
    destruct He as [[-> H]|(H1 & H2 & H3)]; [left|right]; split_and!; try done; try lia.
    + intros w Hw. specialize (H w Hw). destruct (Hsrc _ _ Hw) as [|[_ ?]]; [lia|congruence].
    + intros w Hw. destruct (H3 w Hw), (Hsrc _ _ Hw) as [|[_ ?]]; try lia; congruence.
Qed.

Lemma src_prio s v p : vic_ok s -> src s v p -> 0 <= p < 16.
Proof.
  intros (_ & _ & _ & _ & _ & _ & Hfp & Hd & _) [(_ & _ & Hp)|(_ & _ & ->)]; [|done].
  by eapply rd_Forall in Hfp.
Qed.

Lemma sorter_scan_spec s l i n : vic_ok s -> 0 <= i -> i + Z.of_nat n = 16 ->
  (forall p, 0 <= p < 16 -> exists v, rd l p = Some v /\ level_entry s 0 p v) ->
  (forall w p, candidate s w p -> i <= p) ->
  exists v, sorter_scan s l i n = Some v /\ is_best s v.
Proof.
  intros Hok. revert i. induction n as [|n IH]; intros i Hi Hn Hl Hlow; cbn [sorter_scan].
  - eexists. split; [done|]. left. split; [done|]. intros w p Hc.
    specialize (Hlow _ _ Hc). destruct Hc as [Hs _]. apply src_prio in Hs; [lia|done].
  - destruct (Hl i ltac:(lia)) as (v & Hv & He). rewrite Hv. cbn [mbind option_bind].
    rewrite truth_land_bit by done.
    destruct (Z.testbit (sw_priority_mask s) i) eqn:Hm; cbn [andb].
    + destruct He as [[-> H]|(H1 & H2 & H3)].
      * replace (PL192_NO_IRQ <=? PL192_DAISY_IRQ) with false by done.
        apply IH; try lia; try done. intros w p Hc. specialize (Hlow _ _ Hc).
        destruct (decide (p = i)) as [->|]; [|lia]. destruct Hc as [Hs _].
        specialize (H _ Hs). apply src_range in Hs. lia.
      * rewrite (proj2 (Z.leb_le v PL192_DAISY_IRQ)) by (apply src_range in H1; unfold PL192_DAISY_IRQ, PL192_INT_SOURCES; lia).
        exists v. split; [done|]. right. exists i. split; [done|].
        intros w q Hc. specialize (Hlow _ _ Hc). destruct (decide (i = q)) as [<-|]; [right|left; lia].
        split; [done|]. destruct Hc as [Hs _]. destruct (H3 w Hs); [|done].
        apply src_range in Hs. lia.
    + apply IH; try lia; try done. intros w p Hc. specialize (Hlow _ _ Hc).
      destruct (decide (p = i)) as [->|]; [|lia]. destruct Hc as [_ Hs]. congruence.
Qed.

Lemma is_best_unique s v w : is_best s v -> is_best s w -> v = w.
Proof.
  intros [[-> Hv]|(p & Hv & Hv')] [[-> Hw]|(q & Hw & Hw')]; try done.
  - by destruct (Hv _ _ Hw).
  - by destruct (Hw _ _ Hv).
  - destruct (Hv' _ _ Hw), (Hw' _ _ Hv); lia.
Qed.

Lemma sorter_init s : vic_ok s ->
  exists l, (if truth (daisy_input s)
      then wr (replicate (Z.to_nat PL192_PRIO_LEVELS) PL192_NO_IRQ) (daisy_priority s) PL192_DAISY_IRQ
      else Some (replicate (Z.to_nat PL192_PRIO_LEVELS) PL192_NO_IRQ)) = Some l /\
    length l = 16%nat /\
    forall p, 0 <= p < 16 -> exists v, rd l p = Some v /\ level_entry s 32 p v.
Proof.
  intros (_ & _ & _ & _ & _ & _ & _ & Hd & _).
  assert (forall p, 0 <= p < 16 ->
    rd (replicate (Z.to_nat PL192_PRIO_LEVELS) PL192_NO_IRQ) p = Some PL192_NO_IRQ) as Hrep.
  { intros p Hp. unfold rd. destruct (Z.leb_spec 0 p); [|lia].
    apply lookup_replicate_2. unfold PL192_PRIO_LEVELS. lia. }
  destruct (truth (daisy_input s)) eqn:Ht.
  - eexists. split; [apply wr_Some; by rewrite length_replicate|].
    split; [by rewrite length_insert|]. intros p Hp.
    erewrite rd_wr by (apply wr_Some; by rewrite length_replicate).
    rewrite Hrep by done. destruct (Z.eqb_spec (daisy_priority s) p) as [<-|Hne].
    + eexists. split; [done|]. right. split; [by right|]. split; [done|].
      intros w Hw. apply src_range in Hw. unfold PL192_DAISY_IRQ, PL192_INT_SOURCES. lia.
    + eexists. split; [done|]. left. split; [done|].
      intros w [[? _]|(-> & _ & ->)]; [lia|done].
  - eexists. split; [done|]. split; [done|]. intros p Hp. rewrite Hrep by done.
    eexists. split; [done|]. left. split; [done|]. intros w [[? _]|(_ & ? & _)]; [lia|congruence].
Qed.

(** The sorter answers the best candidate. *)
Lemma sorter_best s : vic_ok s ->
  exists v, pl192_priority_sorter s = Some v /\ is_best s v.
Proof.
  intros Hok. unfold pl192_priority_sorter.
  destruct (sorter_init s Hok) as (l & -> & Hlen & Hl).
  cbn [mbind option_bind].
  destruct (sorter_fill_spec s 32 l Hok ltac:(lia) Hlen Hl) as (l' & Hf & Hlen' & Hl').
  change (Z.to_nat PL192_INT_SOURCES) with 32%nat. rewrite Hf. cbn [mbind option_bind].
  apply sorter_scan_spec; try done. intros w p [Hs _]. apply src_prio in Hs; [lia|done].
Qed.

(** ** The chain always settles *)

(** A run on controller [i] that leaves it in state [s']. *)
Definition drives (i : nat) (s' : pl192_state) (st st' : store) : Prop :=
  evolves i st st' /\ st' !! i = Some s'.

(** Driving a connected line of a controller; a NULL line stays NULL. *)
Definition drive_line (is_fiq level : bool) (s : pl192_state) : pl192_state :=
  if is_fiq then s <| fiq := option_map (fun _ => level) (fiq s) |>
  else s <| irq := option_map (fun _ => level) (irq s) |>.

(** The pending status a controller computes from its inputs. *)
Definition with_status (s : pl192_state) : pl192_state :=
  let pending := Z.land (Z.lor (rawintr s) (softint s)) (intenable s) in
  s <| irq_status := Z.land pending (not32 (intselect s)) |>
    <| fiq_status := Z.land pending (intselect s) |>.

(** The controller's output after the sorter chose [h]: the IRQ line goes high when
    [h] is a source above the current priority, low when there is none, and keeps
    its level when [h] is being serviced or is masked by priority. *)
Definition settle (s : pl192_state) (h : Z) : pl192_state :=
  let masked := if h <? PL192_INT_SOURCES
                then priority s <=? default 0 (rd (vect_priority s) h)
                else (h =? PL192_DAISY_IRQ) && (priority s <=? daisy_priority s) in
  let s' := s <| current_highest := h |>
              <| address := if h <? PL192_INT_SOURCES then default 0 (rd (vect_addr s) h)
                            else daisy_vectaddr s |> in
  if (h =? current s) || masked then s'
  else drive_line false (h <=? PL192_DAISY_IRQ) s'.

(** The whole effect of pl192_update on the controller it is called for. *)
Definition updated (s : pl192_state) : pl192_state :=
  let s := with_status s in
  let s := drive_line true (truth (fiq_status s)) s in
  if truth (irq_status s) || truth (daisy_input s) then
    settle s (default PL192_NO_IRQ (pl192_priority_sorter s))
  else drive_line false false (s <| current_highest := PL192_NO_IRQ |>).

Definition raise_total (fuel : nat) : Prop := forall i st s b,
  chain_ok st -> st !! i = Some s -> ((if b : bool then i + 1 else 2 * i + 1) <= fuel)%nat ->
  wp no_err (pl192_raise fuel i b) (fun _ st' => drives i (drive_line b true s) st st') st.
Definition lower_total (fuel : nat) : Prop := forall i st s b,
  chain_ok st -> st !! i = Some s -> ((if b : bool then i + 1 else 2 * i + 1) <= fuel)%nat ->
  wp no_err (pl192_lower fuel i b) (fun _ st' => drives i (drive_line b false s) st st') st.
Definition update_total (fuel : nat) : Prop := forall i st s,
  chain_ok st -> st !! i = Some s -> (2 * i + 2 <= fuel)%nat ->
  wp no_err (pl192_update fuel i) (fun _ st' => drives i (updated s) st st') st.

Lemma chain_lookup_daisy st i s d :
  chain_ok st -> st !! i = Some s -> daisy s = Some d -> (d < i)%nat /\ exists t, st !! d = Some t.
Proof.
  intros Hc Hi Hd. destruct (Hc _ _ Hi) as (_ & Hl & _). unfold link_ok in Hl. rewrite Hd in Hl.
  split; [done|]. apply lookup_lt_is_Some_2. apply lookup_lt_Some in Hi. lia.
Qed.

(** Changing the volatile part of [i]. *)
Lemma drives_set i s s' st :
  chain_ok st -> st !! i = Some s -> static s' = static s ->
  (cb_ok (length st) s -> cb_ok (length st) s') -> drives i s' st (<[i := s']> st).
Proof.
  intros Hc Hi Hs Hcb. destruct (Hc _ _ Hi) as (_ & _ & Hcb'). split.
  - eapply evolves_set; eauto.
  - apply list_lookup_insert_eq. by eapply lookup_lt_Some.
Qed.
Lemma drives_refl i s st : chain_ok st -> st !! i = Some s -> drives i s st st.
Proof. intros. split; [by apply evolves_refl|done]. Qed.
(** Running the rest of the chain. *)
Lemma drives_below d i s st st' :
  (d < i)%nat -> st !! i = Some s -> evolves d st st' -> drives i s st st'.
Proof.
  intros Hd Hi He. split; [eapply evolves_le; [|done]; lia|].
  destruct He as (_ & _ & Hj & _). by rewrite Hj.
Qed.
Lemma drives_trans i s1 s2 st1 st2 st3 :
  drives i s1 st1 st2 -> drives i s2 st2 st3 -> drives i s2 st1 st3.
Proof. intros [He _] [He' Hs]. split; [by eapply evolves_trans|done]. Qed.
Lemma drives_ok i s st st' : drives i s st st' -> chain_ok st' /\ st' !! i = Some s.
Proof. intros [[? _] ?]. done. Qed.

(** [set_the] on volatile fields, in the middle of a run. *)
Lemma set_the_drives i s0 s (f : pl192_state -> pl192_state) st st0 (Q : unit -> store -> Prop) :
  drives i s st0 st -> static (f s) = static s ->
  (cb_ok (length st) s -> cb_ok (length st) (f s)) ->
  (forall st', drives i (f s) st0 st' -> Q tt st') -> s0 = s ->
  wp no_err (set_the i f) Q st.
Proof.
  intros Hd Hs Hcb HQ ->. destruct (drives_ok _ _ _ _ Hd) as [Hc Hi].
  eapply set_the_wp; [done|]. apply HQ. eapply drives_trans; [done|]. by eapply drives_set.
Qed.

Lemma static_drive_line b l s : static (drive_line b l s) = static s.
Proof. unfold static, drive_line. destruct b; cbn; by destruct (irq s), (fiq s). Qed.
Lemma cb_drive_line n b l s : cb_ok n s -> cb_ok n (drive_line b l s).
Proof. by destruct b. Qed.

(** Feeding the daisy input of a controller. *)
Lemma evolves_feed d (t t' : pl192_state) st :
  chain_ok st -> st !! d = Some t -> static t' = static t ->
  match daisy_callback t' with
  | Some c => (c < length st)%nat
  | None => daisy_callback t = None /\ daisy_input t' = 0 /\ current_highest t' = current_highest t
  end -> evolves d st (<[d := t']> st).
Proof.
  intros Hc Hd Hs Hcb. eapply evolves_set; [done|done|done|].
  destruct (Hc _ _ Hd) as (_ & _ & Hold). unfold cb_ok in *.
  destruct (daisy_callback t'); [done|]. destruct Hcb as (Hn & Hi & Hh). rewrite Hn in Hold.
  assert (current t' = current t) as -> by exact (f_equal current Hs).
  assert (irq_stack t' = irq_stack t) as -> by exact (f_equal irq_stack Hs).
  rewrite Hh. destruct Hold as (_ & H1 & H2 & H3). done.
Qed.

Lemma raise_step fuel : raise_total fuel -> update_total fuel -> raise_total (S fuel).
Proof.
  intros IHr IHu i st s b Hc Hi Hf. cbn [pl192_raise]. wp_steps. eapply the_wp; [done|].
  destruct (Hc _ _ Hi) as (_ & Hl & _). unfold link_ok in Hl.
  assert (forall q, (if b then fiq s else irq s) = Some q ->
    drives i (drive_line b true s) st
      (<[i := if b then s <| fiq := Some true |> else s <| irq := Some true |>]> st)) as Hset.
  { intros q Hq. replace (if b then s <| fiq := Some true |> else s <| irq := Some true |>)
      with (drive_line b true s) by (unfold drive_line; destruct b; by rewrite Hq).
    eapply drives_set; eauto using static_drive_line, cb_drive_line. }
  assert ((if b then fiq s else irq s) = None -> drive_line b true s = s) as Hnone.
  { destruct s, b; cbn; by intros ->. }
  assert ((if b then fiq s else irq s) = None -> exists d, daisy s = Some d) as Hdaisy.
  { destruct (daisy s) as [d|]; [by exists d|]. destruct Hl, b, (irq s), (fiq s); done. }
  destruct b.
  - destruct (fiq s) as [l|] eqn:Hq; [eapply set_the_wp; [done|]; by eapply Hset|].
    destruct (Hdaisy eq_refl) as [d Hd]. rewrite Hd, Hnone by done.
    destruct (chain_lookup_daisy _ _ _ _ Hc Hi Hd) as (Hlt & t & Ht).
    eapply wp_mono; [eapply IHr; try done; lia|]. intros _ st' [He _]. by eapply drives_below.
  - destruct (irq s) as [l|] eqn:Hq; [eapply set_the_wp; [done|]; by eapply Hset|].
    destruct (Hdaisy eq_refl) as [d Hd]. rewrite Hd, Hnone by done.
    destruct (chain_lookup_daisy _ _ _ _ Hc Hi Hd) as (Hlt & t & Ht).
    wp_steps. eapply set_the_wp; [done|].
    match goal with |- wp _ _ _ ?st1 => assert (evolves d st st1) as He1 end.
    { eapply evolves_feed; try done. cbn. by eapply lookup_lt_Some. }
    eapply wp_mono; [eapply IHu; [by destruct He1| |lia]|].
    + apply list_lookup_insert_eq. by eapply lookup_lt_Some.
    + intros _ st' [He _]. eapply drives_below; [done|done|]. by eapply evolves_trans.
Qed.

(** Clearing a line of [i] if it is connected. *)
Lemma clear_line_wp i s s0 (b : bool) st0 st (Q : unit -> store -> Prop) :
  drives i s st0 st -> (if b then fiq s0 else irq s0) = (if b then fiq s else irq s) ->
  (forall st', drives i (drive_line b false s) st0 st' -> Q tt st') ->
  wp no_err (when (connected (if b then fiq s0 else irq s0))
     (set_the i (fun v => if b then v <| fiq := Some false |> else v <| irq := Some false |>))) Q st.
Proof.
  intros Hd Hs HQ. rewrite Hs. apply wp_when.
  destruct (if b then fiq s else irq s) as [l|] eqn:Hq; cbn [connected].
  - eapply (set_the_drives i s s); try done.
    + destruct b; unfold static; cbn; by rewrite Hq.
    + by destruct b.
    + intros st' Hd'. apply HQ. unfold drive_line. destruct b; by rewrite Hq.
  - apply HQ. replace (drive_line b false s) with s; [done|]. destruct s, b; cbn in *; by subst.
Qed.

Lemma lower_step fuel : lower_total fuel -> update_total fuel -> lower_total (S fuel).
Proof.
  intros IHl IHu i st s b Hc Hi Hf. cbn [pl192_lower]. wp_steps. eapply the_wp; [done|].
  assert (wp no_err (when (b && connected (fiq s)) (set_the i (fun v => v <| fiq := Some false |>)) ;;
                     when (negb b && connected (irq s)) (set_the i (fun v => v <| irq := Some false |>)))
             (fun _ st' => drives i (drive_line b false s) st st') st) as Hlines.
  { apply wp_bind. destruct b; cbn [negb andb].
    - eapply (clear_line_wp i s s true); [by apply drives_refl|done|]. by intros st' Hd.
    - by eapply (clear_line_wp i s s false); [apply drives_refl|done|]. }
  apply wp_bind in Hlines. apply wp_bind. eapply wp_mono; [exact Hlines|].
  intros [] st1 H1. apply wp_bind. eapply wp_mono; [exact H1|]. clear Hlines H1.
  intros [] st2 Hd. destruct (drives_ok _ _ _ _ Hd) as [Hc2 Hi2].
  assert (daisy (drive_line b false s) = daisy s) as Hds by (by destruct b).
  destruct (daisy s) as [d|]; [|by apply wp_ret].
  destruct (chain_lookup_daisy _ _ _ _ Hc2 Hi2 Hds) as (Hlt & t & Ht).
  destruct b; cbn [negb].
  - eapply wp_mono; [eapply IHl; try done; lia|]. intros _ st' [He _].
    eapply drives_trans; [done|]. by eapply drives_below.
  - wp_steps. eapply set_the_wp; [done|].
    match goal with |- wp _ _ _ ?st1 => assert (evolves d st2 st1) as He1 end.
    { eapply evolves_feed; try done. destruct (Hc2 _ _ Ht) as (_ & _ & Hcb). unfold cb_ok in Hcb.
      cbn. by destruct (daisy_callback t). }
    eapply wp_mono; [eapply IHu; [by destruct He1| |lia]|].
    + apply list_lookup_insert_eq. by eapply lookup_lt_Some.
    + intros _ st' [He _]. eapply drives_trans; [done|].
      eapply drives_below; [done|done|]. by eapply evolves_trans.
Qed.

Lemma best_range s v : is_best s v -> 0 <= v <= 33.
Proof.
  intros [[-> _]|(p & [Hs _] & _)].
  - unfold PL192_NO_IRQ, PL192_INT_SOURCES. lia.
  - apply src_range in Hs. lia.
Qed.
Lemma best_daisy s : is_best s PL192_DAISY_IRQ -> daisy_input s <> 0.
Proof.
  intros [[? _]|(p & [[[H _]|(_ & Ht & _)] _] & _)]; [done| |by apply truth_true].
  unfold PL192_DAISY_IRQ, PL192_INT_SOURCES in H. lia.
Qed.
Lemma cb_ok_best n s v : is_best s v -> cb_ok n s -> cb_ok n (s <| current_highest := v |>).
Proof.
  unfold cb_ok. cbn. destruct (daisy_callback s); [done|].
  intros Hb (H1 & H2 & H3 & H4). split_and!; try done. intros ->. by apply best_daisy in Hb.
Qed.
Lemma cb_ok_idle n s : cb_ok n s -> cb_ok n (s <| current_highest := PL192_NO_IRQ |>).
Proof.
  unfold cb_ok. cbn. destruct (daisy_callback s); [done|]. intros (? & ? & ? & ?). by split_and!.
Qed.

(** The tail of pl192_update, once the sorter has answered [h]. *)
Lemma settle_wp fuel i s h st0 st :
  raise_total fuel -> lower_total fuel -> (2 * i + 1 <= fuel)%nat ->
  drives i s st0 st -> vic_ok s -> is_best s h ->
  wp no_err
    (set_the i (fun v => v <| current_highest := h |>) ;;
     (if h <? PL192_INT_SOURCES then
        a ← deref (rd (vect_addr s) h); set_the i (fun v => v <| address := a |>)
      else set_the i (fun v => v <| address := daisy_vectaddr v |>)) ;;
     if negb (h =? current s) then
       p ← (if h <? PL192_INT_SOURCES then deref (rd (vect_priority s) h) else mret 0);
       if (h <? PL192_INT_SOURCES) && (priority s <=? p) then mret tt
       else if (h =? PL192_DAISY_IRQ) && (priority s <=? daisy_priority s) then mret tt
       else if h <=? PL192_DAISY_IRQ then pl192_raise fuel i false
       else pl192_lower fuel i false
     else mret tt)
    (fun _ st' => drives i (settle s h) st0 st') st.
Proof.
  intros IHr IHl Hf Hd Hok Hb. pose proof (best_range _ _ Hb) as Hr.
  pose proof Hok as (_ & _ & _ & _ & Hla & Hlp & _).
  apply wp_bind. eapply set_the_drives; [done|done|by apply cb_ok_best| |done].
  intros st1 Hd1. apply wp_bind.
  set (a := if h <? PL192_INT_SOURCES then default 0 (rd (vect_addr s) h) else daisy_vectaddr s).
  assert (wp no_err
     (if h <? PL192_INT_SOURCES then
        a ← deref (rd (vect_addr s) h); set_the i (fun v => v <| address := a |>)
      else set_the i (fun v => v <| address := daisy_vectaddr v |>))
     (fun _ st' => drives i (s <| current_highest := h |> <| address := a |>) st0 st') st1) as Ha.
  { subst a. destruct (Z.ltb_spec h PL192_INT_SOURCES) as [Hlt|Hge].
    - destruct (rd_Some (vect_addr s) h ltac:(vlia)) as (a & Ha & _). rewrite Ha. wp_steps.
      eapply set_the_drives; by try done.
    - eapply set_the_drives; by try done. }
  eapply wp_mono; [exact Ha|]. clear Ha. intros [] st2 Hd2.
  unfold settle. fold a. set (s2 := s <| current_highest := h |> <| address := a |>) in *.
  change (current s2) with (current s). change (vect_priority s2) with (vect_priority s).
  change (priority s2) with (priority s). change (daisy_priority s2) with (daisy_priority s).
  destruct (h =? current s); cbn [negb orb]; [by apply wp_ret|].
  destruct (drives_ok _ _ _ _ Hd2) as [Hc2 Hi2].
  assert (forall b, b = (h <=? PL192_DAISY_IRQ) ->
    wp no_err (if b then pl192_raise fuel i false else pl192_lower fuel i false)
       (fun _ st' => drives i (drive_line false (h <=? PL192_DAISY_IRQ) s2) st0 st') st2) as Hfin.
  { intros b ->. destruct (h <=? PL192_DAISY_IRQ).
    - eapply wp_mono; [by eapply IHr|]. intros [] st' H. by eapply drives_trans.
    - eapply wp_mono; [by eapply IHl|]. intros [] st' H. by eapply drives_trans. }
  apply wp_bind. destruct (Z.ltb_spec h PL192_INT_SOURCES) as [Hlt|Hge].
  - destruct (rd_Some (vect_priority s) h ltac:(vlia)) as (p & Hp & _). rewrite Hp.
    change (default 0 (Some p)) with p. wp_steps. cbn [andb].
    destruct (priority s <=? p); [by apply wp_ret|].
    rewrite (proj2 (Z.eqb_neq h PL192_DAISY_IRQ)) by vlia.
    by apply Hfin.
  - wp_steps. cbn [andb]. destruct (_ && _); [by apply wp_ret|]. by apply Hfin.
Qed.

Lemma update_step fuel : raise_total fuel -> lower_total fuel -> update_total (S fuel).
Proof.
  intros IHr IHl i st s Hc Hi Hf. cbn [pl192_update].
  pose proof (drives_refl i s st Hc Hi) as Hd. destruct (Hc _ _ Hi) as (Hok & _).
  apply wp_bind. eapply set_the_drives; [exact Hd|done|done| |done]. intros st1 Hd1.
  apply wp_bind. eapply set_the_drives; [exact Hd1|done|done| |done]. intros st2 Hd2.
  change (drives i (with_status s) st st2) in Hd2. clear Hd Hd1 st1.
  destruct (drives_ok _ _ _ _ Hd2) as [Hc2 Hi2].
  apply wp_bind. eapply the_wp; [done|]. apply wp_bind.
  set (s1 := drive_line true (truth (fiq_status (with_status s))) (with_status s)).
  assert (wp no_err (if truth (fiq_status (with_status s)) then pl192_raise fuel i true
                     else pl192_lower fuel i true) (fun _ st' => drives i s1 st st') st2) as Hfiq.
  { subst s1. destruct (truth (fiq_status (with_status s))).
    - eapply wp_mono; [eapply IHr; try done; lia|]. intros [] st' H. by eapply drives_trans.
    - eapply wp_mono; [eapply IHl; try done; lia|]. intros [] st' H. by eapply drives_trans. }
  eapply wp_mono; [exact Hfiq|]. clear Hfiq. intros [] st3 Hd3.
  destruct (drives_ok _ _ _ _ Hd3) as [Hc3 Hi3].
  apply wp_bind. eapply the_wp; [done|]. unfold updated. fold s1.
  change (irq_status (with_status s)) with (irq_status s1).
  assert (vic_ok s1) as Hok1 by (by eapply vic_ok_static; [symmetry; apply static_drive_line|]).
  destruct (truth (irq_status s1) || truth (daisy_input s1)).
  - destruct (sorter_best s1 Hok1) as (h & Hh & Hb). rewrite Hh. apply wp_bind, wp_deref_Some.
    apply settle_wp; try done. lia.
  - apply wp_bind. eapply set_the_drives; [exact Hd3|done| | |done].
    { apply cb_ok_idle. }
    intros st4 Hd4. destruct (drives_ok _ _ _ _ Hd4) as [Hc4 Hi4].
    eapply wp_mono; [eapply IHl; try done; lia|]. intros [] st' H. by eapply drives_trans.
Qed.

Lemma chain_total fuel : raise_total fuel /\ lower_total fuel /\ update_total fuel.
Proof.
  induction fuel as [|fuel (IHr & IHl & IHu)].
  - split_and!; intros i st s; [intros b| intros b|]; intros _ _ Hf; try destruct b; lia.
  - split_and!; [by apply raise_step|by apply lower_step|by apply update_step].
Qed.

Lemma update_drives i st s : chain_ok st -> st !! i = Some s ->
  wp no_err (update i) (fun _ st' => drives i (updated s) st st') st.
Proof.
  intros Hc Hi. unfold update. wp_steps. eapply (proj2 (proj2 (chain_total _))); [done|done|].
  apply lookup_lt_Some in Hi. unfold chain_fuel. lia.
Qed.

Lemma lower_settles i st s b : chain_ok st -> st !! i = Some s ->
  wp no_err (lower i b) (fun _ st' => drives i (drive_line b false s) st st') st.
Proof.
  intros Hc Hi. unfold lower. wp_steps. eapply (proj1 (proj2 (chain_total _))); [done|done|].
  apply lookup_lt_Some in Hi. unfold chain_fuel. destruct b; lia.
Qed.

(** A register write followed by an update: [f] is the write. *)
Lemma config_update i s f st : chain_ok st -> st !! i = Some s ->
  vic_ok (f s) -> (link_ok i s -> link_ok i (f s)) ->
  (cb_ok (length st) s -> cb_ok (length st) (f s)) ->
  wp no_err (set_the i f ;; update i)
     (fun _ st' => drives i (updated (f s)) (<[i := f s]> st) st') st.
Proof.
  intros Hc Hi Hv Hl Hcb. destruct (Hc _ _ Hi) as (_ & Hl0 & Hcb0).
  apply wp_bind. eapply set_the_wp; [done|]. apply update_drives.
  - eapply chain_ok_set; eauto.
  - apply list_lookup_insert_eq. by eapply lookup_lt_Some.
Qed.

Ltac reg_update i s st :=
  lazymatch goal with
  | |- context [set_the _ ?f] =>
      refine (config_update i s f st _ _ _ (fun H => H) (fun H => H)); try done
  end.

(** ** Input pins *)
Definition pin_level (st : store) (n : nat) : bool :=
  match st !! (n / 32)%nat with
  | Some s => Z.testbit (rawintr s) (Z.of_nat (n mod 32))
  | None => false
  end.

Lemma evolves_rawintr i st st' j s : evolves i st st' -> st !! j = Some s ->
  exists s', st' !! j = Some s' /\ rawintr s' = rawintr s.
Proof.
  intros (_ & _ & _ & Hs) Hj. destruct (Hs _ _ Hj) as (s' & Hs' & E). exists s'.
  split; [done|]. exact (f_equal rawintr E).
Qed.

(** The new value of rawintr when input [k] goes to level [l]. *)
Definition raw_set (s : pl192_state) (k l : Z) : Z :=
  if truth l then Z.lor (rawintr s) (wrap 32 (bit k)) else Z.land (rawintr s) (not32 (bit k)).
Lemma raw_set_fits s k l : fits 32 (rawintr s) -> fits 32 (raw_set s k l).
Proof. intros. unfold raw_set. destruct (truth l); auto with fits lia. Qed.
Lemma raw_set_testbit s k l j : 0 <= k < 32 -> 0 <= j < 32 ->
  Z.testbit (raw_set s k l) j = if j =? k then truth l else Z.testbit (rawintr s) j.
Proof.
  intros Hk Hj. unfold raw_set. destruct (truth l).
  - rewrite Z.lor_spec, wrap_testbit, bit_testbit, (Z.eqb_sym k), (proj2 (Z.ltb_lt j 32)) by lia.
    destruct (j =? k); by rewrite ?orb_true_r, ?orb_false_r.
  - rewrite Z.land_spec, not32_testbit, bit_testbit, (Z.eqb_sym k), (proj2 (Z.ltb_lt j 32)) by lia.
    destruct (j =? k); simpl; by rewrite ?andb_true_r, ?andb_false_r.
Qed.

Lemma irq_handler_settles i st s k l : chain_ok st -> st !! i = Some s -> 0 <= k < 32 ->
  wp no_err (pl192_irq_handler i k l)
     (fun _ st' => drives i (updated (s <| rawintr := raw_set s k l |>))
                     (<[i := s <| rawintr := raw_set s k l |>]> st) st') st.
Proof.
  intros Hc Hi Hk. unfold pl192_irq_handler.
  assert (vic_ok (s <| rawintr := raw_set s k l |>)) as Hv.
  { destruct (Hc _ _ Hi) as ((Hr & H) & _). split; [by apply raw_set_fits|exact H]. }
  revert Hv. unfold raw_set. destruct (truth l); intros Hv; reg_update i s st.
Qed.

(** Pins of the first [k] controllers satisfy what the devices rely on. *)
#[export, program] Instance pl192_bank_laws (k : nat) : IrqBankLaws store := {|
  irq_inv st := chain_ok st /\ length st = k;
  irq_pin n := (n < 32 * k)%nat;
  irq_level := pin_level
|}.
Next Obligation.
  intros k st n l [Hc Hk] Hn. simpl in *.
  assert (n / 32 < length st)%nat as Hlt by (apply Nat.Div0.div_lt_upper_bound; lia).
  apply lookup_lt_is_Some_2 in Hlt as [s Hs]. unfold set_irq, pl192_bank.
  change S5PC1XX_VIC_SIZE with (Z.of_nat 32).
  rewrite <- Nat2Z.inj_div, Nat2Z.id, <- Nat2Z.inj_mod.
  pose proof (Nat.mod_upper_bound n 32 ltac:(lia)) as Hm.
  eapply wp_mono; [eapply irq_handler_settles; try done; lia|].
  set (s1 := s <| rawintr := raw_set s (Z.of_nat (n mod 32)) l |>).
  set (st1 := <[(n / 32)%nat := s1]> st). intros _ st' [He Hi']. split_and!.
  - by destruct He.
  - destruct He as (_ & Hl & _). rewrite Hl. subst st1. by rewrite length_insert.
  - assert (st1 !! (n / 32)%nat = Some s1) as H1
      by (apply list_lookup_insert_eq; by eapply lookup_lt_Some).
    destruct (evolves_rawintr _ _ _ _ _ He H1) as (s' & Hs' & Hr').
    unfold pin_level. rewrite Hs', Hr'. subst s1. cbn [rawintr].
    etrans; [apply raw_set_testbit; lia|]. by rewrite Z.eqb_refl.
  - intros m Hne. unfold pin_level.
    pose proof (Nat.mod_upper_bound m 32 ltac:(lia)) as Hmm.
    destruct (decide (m / 32 = n / 32)%nat) as [Hd|Hd].
    + assert (st1 !! (m / 32)%nat = Some s1) as H1
        by (rewrite Hd; apply list_lookup_insert_eq; by eapply lookup_lt_Some).
      destruct (evolves_rawintr _ _ _ _ _ He H1) as (s' & -> & ->). rewrite Hd, Hs.
      etrans; [apply raw_set_testbit; lia|].
      rewrite (proj2 (Z.eqb_neq _ _)); [done|]. intros E%Nat2Z.inj. apply Hne.
      rewrite (Nat.div_mod_eq m 32), (Nat.div_mod_eq n 32). congruence.
    + assert (st1 !! (m / 32)%nat = st !! (m / 32)%nat) as H1
        by (apply list_lookup_insert_ne; congruence).
      destruct (st !! (m / 32)%nat) as [t|] eqn:Ht.
      * by destruct (evolves_rawintr _ _ _ _ _ He H1) as (s' & -> & ->).
      * destruct He as (_ & Hl & _). rewrite (lookup_ge_None_2 st'); [done|].
        rewrite Hl. by apply lookup_ge_None_1.
Qed.

(** ** The lines a controller drives *)

(** [settle] keeps everything the sorter looks at. *)
Lemma settle_best s h v : is_best s v -> is_best (settle s h) v.
Proof. unfold settle. by destruct (_ || _). Qed.
Lemma settle_fields s h :
  irq_status (settle s h) = irq_status s /\ fiq_status (settle s h) = fiq_status s /\
  fiq (settle s h) = fiq s /\ current (settle s h) = current s /\
  priority (settle s h) = priority s /\ daisy_input (settle s h) = daisy_input s /\
  static (settle s h) = static s /\ current_highest (settle s h) = h.
Proof.
  unfold settle. destruct (_ || _); split_and!; try done.
  by rewrite static_drive_line.
Qed.
Lemma updated_static s : static (updated s) = static s.
Proof.
  unfold updated. set (s1 := drive_line true _ _).
  assert (static s1 = static s) as H1 by (subst s1; by rewrite static_drive_line).
  destruct (_ || _).
  - destruct (settle_fields s1 (default PL192_NO_IRQ (pl192_priority_sorter s1)))
      as (_ & _ & _ & _ & _ & _ & -> & _). done.
  - by rewrite static_drive_line.
Qed.
(** The status registers show what is pending and enabled. *)
Definition status_ok (s : pl192_state) : Prop :=
  let pending := Z.land (Z.lor (rawintr s) (softint s)) (intenable s) in
  irq_status s = Z.land pending (not32 (intselect s)) /\
  fiq_status s = Z.land pending (intselect s).
Lemma updated_status s : status_ok (updated s).
Proof.
  unfold updated. set (s1 := drive_line true _ _).
  assert (status_ok s1) as H1 by done.
  destruct (_ || _); [|done]. unfold settle. by destruct (_ || _).
Qed.

(** What the two parent lines of a controller show after an update. *)
Definition lines_follow (s' : pl192_state) (old_irq : option bool) : Prop :=
  status_ok s' /\
  (forall b, fiq s' = Some b -> b = truth (fiq_status s')) /\
  (irq_status s' = 0 -> daisy_input s' = 0 -> irq s' <> Some true) /\
  (is_best s' PL192_NO_IRQ -> current s' <> PL192_NO_IRQ -> irq s' <> Some true) /\
  (forall h p, candidate s' h p -> is_best s' h -> p < priority s' -> h <> current s' ->
     connected (irq s') = true -> irq s' = Some true) /\
  (forall h p, candidate s' h p -> is_best s' h -> priority s' <= p \/ h = current s' ->
     irq s' = old_irq).

Lemma settle_masked s h p : vic_ok s -> candidate s h p ->
  (if h <? PL192_INT_SOURCES then priority s <=? default 0 (rd (vect_priority s) h)
   else (h =? PL192_DAISY_IRQ) && (priority s <=? daisy_priority s)) = (priority s <=? p).
Proof.
  intros _ [[(Hh & _ & Hp)|(-> & _ & ->)] _].
  - rewrite (proj2 (Z.ltb_lt h PL192_INT_SOURCES)) by vlia. by rewrite Hp.
  - done.
Qed.

Lemma settle_candidate s h v p : candidate (settle s h) v p -> candidate s v p.
Proof. unfold settle. destruct (_ || _); exact id. Qed.
Lemma settle_status s h : status_ok s -> status_ok (settle s h).
Proof. unfold settle. destruct (_ || _); exact id. Qed.

Lemma settle_lines s h : vic_ok s -> status_ok s ->
  (forall b, fiq s = Some b -> b = truth (fiq_status s)) ->
  truth (irq_status s) || truth (daisy_input s) = true -> is_best s h ->
  lines_follow (settle s h) (irq s).
Proof.
  intros Hok Hst Hfiq Hact Hb.
  destruct (settle_fields s h) as (E1 & E2 & E3 & E4 & E5 & E6 & _).
  assert (forall v, is_best (settle s h) v -> v = h) as Hu.
  { intros v Hv. eapply is_best_unique; [done|]. by apply settle_best. }
  assert (forall v p, candidate (settle s h) v p -> candidate s v p) as Hcand.
  { apply settle_candidate. }
  unfold lines_follow. rewrite E1, E2, E3, E4, E5, E6.
  split; [by apply settle_status|]. split_and!.
  - done.
  - intros H1 H2. by rewrite H1, H2 in Hact.
  - intros Hno%Hu Hc. subst h. unfold settle.
    rewrite (proj2 (Z.eqb_neq _ _)) by done. cbn. by destruct (irq s).
  - intros v p Hv%Hcand ->%Hu Hp Hc. unfold settle.
    rewrite (proj2 (Z.eqb_neq _ _)) by done. rewrite (settle_masked _ _ p) by done.
    rewrite (proj2 (Z.leb_gt _ _)) by done. cbn [orb]. destruct Hv as [Hv _].
    apply src_range in Hv. rewrite (proj2 (Z.leb_le h PL192_DAISY_IRQ)) by vlia.
    cbn. by destruct (irq s).
  - intros v p Hv%Hcand ->%Hu Hp. unfold settle. rewrite (settle_masked _ _ p) by done.
    destruct (Z.eqb_spec h (current s)); [done|]. destruct Hp as [Hp|]; [|done].
    by rewrite (proj2 (Z.leb_le _ _)).
Qed.

(** C6: the CPU's lines follow the interrupt state.  After every update of a
    controller the status registers hold exactly the pending, enabled sources; a
    connected FIQ line is high iff a FIQ source is pending; a connected IRQ line is
    high when the best pending source is more urgent than the level being serviced
    and is not already in service, low when nothing is pending, low again when all
    pending sources are masked by software, and unchanged otherwise. *)
Theorem update_lines i st s : chain_ok st -> st !! i = Some s ->
  wp no_err (update i)
     (fun _ st' => exists s', st' !! i = Some s' /\ lines_follow s' (irq s)) st.
Proof.
  intros Hc Hi. eapply wp_mono; [by apply update_drives|]. intros _ st' [_ Hi'].
  exists (updated s). split; [done|]. destruct (Hc _ _ Hi) as (Hok & _).
  pose proof (updated_status s) as Hst. revert Hst. unfold updated.
  set (s1 := drive_line true _ _). intros Hst.
  assert (vic_ok s1) as Hok1 by (by eapply vic_ok_static; [symmetry; apply static_drive_line|]).
  assert (forall b, fiq s1 = Some b -> b = truth (fiq_status s1)) as Hfiq.
  { intros b. subst s1. cbn. destruct (fiq s); [|done]. by intros [= <-]. }
  destruct (truth (irq_status s1) || truth (daisy_input s1)) eqn:Hact.
  - destruct (sorter_best s1 Hok1) as (h & Hh & Hb). rewrite Hh.
    change (irq s) with (irq s1). by apply settle_lines.
  - apply orb_false_iff in Hact as [Ha%truth_false Hb%truth_false].
    assert (forall v p, ~ candidate s1 v p) as Hno.
    { intros v p [[(_ & Hbit & _)|(_ & Hd & _)] _].
      - rewrite Ha, Z.bits_0 in Hbit. done.
      - by rewrite Hb in Hd. }
    split; [done|]. split_and!; try done.
    + intros _ _. cbn. by destruct (irq s).
    + intros _ _. cbn. by destruct (irq s).
    + intros h p Hcd. by destruct (Hno h p).
    + intros h p Hcd. by destruct (Hno h p).
Qed.

(** ** Register accesses never leave the model's arrays *)

(** After an operation the chain is as well-formed and as long as before. *)
Definition still_ok (st st' : store) : Prop := chain_ok st' /\ length st' = length st.

Lemma config_still_ok i s f st : chain_ok st -> st !! i = Some s ->
  vic_ok (f s) -> (link_ok i s -> link_ok i (f s)) ->
  (cb_ok (length st) s -> cb_ok (length st) (f s)) ->
  wp no_err (set_the i f ;; update i) (fun _ st' => still_ok st st') st.
Proof.
  intros. eapply wp_mono; [by eapply config_update|]. intros _ st' [(Hc & Hl & _) _].
  split; [done|]. by rewrite Hl, length_insert.
Qed.

(** Popping the priority stack. *)
Lemma unmask_spec i s st : chain_ok st -> st !! i = Some s ->
  wp (fun e => e = HwError /\ stack_i s < 1) (pl192_unmask_priority i)
     (fun _ st' => still_ok st st' /\ exists s', st' !! i = Some s' /\
        daisy_callback s' = daisy_callback s /\
        1 <= stack_i s /\ stack_i s' = stack_i s - 1 /\
        rd (priority_stack s) (stack_i s') = Some (priority s') /\
        rd (irq_stack s) (stack_i s') = Some (current s') /\
        priority_stack s' = priority_stack s /\ irq_stack s' = irq_stack s) st.
Proof.
  intros Hc Hi. destruct (Hc _ _ Hi) as (Hok & Hl & Hcb).
  pose proof Hok as (O1 & O2 & O3 & O4 & O5 & O6 & O7 & O8 & O9 & O10 & O11 & O12 & O13 & O14).
  unfold pl192_unmask_priority. wp_steps. eapply the_wp; [done|].
  destruct (Z.ltb_spec (stack_i s) 1) as [|Hge]; [by apply wp_throw|].
  assert (i < length st)%nat as Hlt by (by eapply lookup_lt_Some).
  destruct (rd_Some (priority_stack s) (stack_i s - 1) ltac:(lia)) as (p & Hp & _).
  destruct (rd_Some (irq_stack s) (stack_i s - 1) ltac:(lia)) as (c & Hcur & _).
  pose proof (rd_Forall _ _ _ _ O13 Hcur) as Hrc. cbv beta in Hrc.
  wp_steps. eapply set_the_wp; [done|]. wp_steps.
  eapply the_wp; [by apply list_lookup_insert_eq|]. wp_steps. eapply deref_wp; [exact Hp|].
  wp_steps. eapply set_the_wp; [by apply list_lookup_insert_eq|]. rewrite list_insert_insert_eq.
  wp_steps. eapply deref_wp; [exact Hcur|]. eapply set_the_wp; [by apply list_lookup_insert_eq|].
  rewrite list_insert_insert_eq. split; [split|].
  - eapply chain_ok_set; [done|done| |done|].
    + repeat (split; [assumption|]). cbn. split; [lia|]. repeat (split; [assumption|]). exact Hrc.
    + unfold cb_ok in *. cbn. destruct (daisy_callback s); [done|].
      destruct Hcb as (C1 & C2 & C3 & C4). split_and!; try done.
      intros E. apply C4. rewrite <- E. cbn. apply rd_lookup in Hcur as [_ Hcur].
      by eapply list_elem_of_lookup_2.
  - apply length_insert.
  - eexists. split; [by apply list_lookup_insert_eq|]. cbn. split_and!; done.
Qed.

Lemma irq_fin_safe i s st : chain_ok st -> st !! i = Some s ->
  wp only_hw (pl192_irq_fin i) (fun _ st' => still_ok st st') st.
Proof.
  intros Hc Hi. destruct (Hc _ _ Hi) as (_ & _ & Hcb). unfold pl192_irq_fin.
  apply wp_bind. eapply the_wp; [done|]. apply wp_bind.
  eapply wp_mono; [by eapply wp_err_weaken; [by eapply unmask_spec|intros ? [? _]]|].
  intros [] st1 ([Hc1 Hl1] & s1 & Hi1 & Hcb1 & _).
  apply wp_bind. eapply the_wp; [done|]. apply wp_bind.
  assert (wp only_hw (if current s =? PL192_DAISY_IRQ
            then c ← deref (daisy_callback s1); pl192_unmask_priority c else mret tt)
            (fun _ st' => still_ok st1 st') st1) as Hcbk.
  { rewrite Hcb1. unfold cb_ok in Hcb. destruct (Z.eqb_spec (current s) PL192_DAISY_IRQ).
    - destruct (daisy_callback s) as [c|]; [|by destruct Hcb as (_ & _ & ? & _)].
      wp_steps. destruct (lookup_lt_is_Some_2 st1 c ltac:(lia)) as [t Ht].
      eapply wp_mono; [by eapply wp_err_weaken; [by eapply unmask_spec|intros ? [? _]]|].
      by intros [] st' [? _].
    - by apply wp_ret. }
  eapply wp_mono; [exact Hcbk|]. intros [] st2 [Hc2 Hl2].
  destruct (lookup_lt_is_Some_2 st2 i) as [s2 Hi2]; [apply lookup_lt_Some in Hi; lia|].
  apply wp_bind. eapply wp_mono; [apply wp_no_err; by eapply update_drives|]. intros [] st3 [(Hc3 & Hl3 & _) Hi3].
  apply wp_bind. eapply the_wp; [done|]. wp_if.
  - eapply wp_mono; [apply wp_no_err; by eapply lower_settles|].
    intros [] st4 [(Hc4 & Hl4 & _) _]. split; [done|congruence].
  - apply wp_ret. split; [done|congruence].
Qed.

Lemma fits_land_mask w x m : 0 <= w -> 0 <= x -> fits w m -> fits w (Z.land x m).
Proof. apply fits_land_r. Qed.
Lemma land_0xf_range x : 0 <= Z.land x 0xf < 16.
Proof. change 0xf with (Z.ones 4). rewrite Z.land_ones by lia. by apply Z.mod_pos_bound. Qed.

(** [vic_ok] of a state that differs in a field or two from a well-formed one. *)
Ltac vic_ok_tac :=
  unfold vic_ok in *; cbn;
  repeat lazymatch goal with H : _ /\ _ |- _ => destruct H end;
  repeat lazymatch goal with |- _ /\ _ => split end;
  first [assumption | lia | solve [auto with fits lia] | apply land_0xf_range
        | apply fits_land_mask; [lia | unfold fits in *; lia | done]].

(** Whatever offset and 32-bit value the guest
    writes to whichever controller of a well-formed chain, pl192_write either stops
    in hw_error or completes in a well-formed chain: it never indexes an array out
    of bounds or follows a NULL pointer, the end-of-interrupt path included. *)
Lemma write_safe i s offset value st : chain_ok st -> st !! i = Some s ->
  fits 32 value ->
  wp only_hw (pl192_write i offset value) (fun _ st' => still_ok st st') st.
Proof.
  intros Hc Hi Hv. destruct (Hc _ _ Hi) as (Hok & _).
  pose proof Hok as (O1 & O2 & O3 & O4 & O5 & O6 & O7 & O8 & O9 & O10).
  assert (still_ok st st) as Hst by done.
  assert (forall f, vic_ok (f s) -> (link_ok i s -> link_ok i (f s)) ->
    (cb_ok (length st) s -> cb_ok (length st) (f s)) ->
    wp only_hw (set_the i f ;; update i) (fun _ st' => still_ok st st') st) as Hcfg.
  { intros. apply wp_no_err. by eapply config_still_ok. }
  assert (forall (a b : Z), a <= offset < a + 0x80 -> 0 <= Z.shiftr (offset - a) 2 < 32) as Hidx.
  { intros a _ Ha. rewrite Z.shiftr_div_pow2 by lia. split; [apply Z.div_pos; lia|].
    apply Z.div_lt_upper_bound; lia. }
  unfold pl192_write. apply wp_bind. eapply the_wp; [done|].
  do 2 (wp_if; [by apply wp_throw|]).
  wp_if as E1.
  { apply wp_bind. eapply deref_wp; [apply wr_Some; rewrite O5; apply (Hidx _ 0); lia|].
    apply Hcfg; try done. repeat (split; [assumption|]). cbn. rewrite length_insert.
    repeat (split; [assumption|]). assumption. }
  wp_if as E2.
  { apply wp_bind. eapply deref_wp; [apply wr_Some; rewrite O6; apply (Hidx _ 0); lia|].
    apply Hcfg; try done. repeat (split; [assumption|]). cbn. rewrite length_insert.
    split; [done|]. split; [|split; [done|]; by split].
    apply Forall_insert; [done|apply land_0xf_range]. }
  clear Hidx E1 E2.
  repeat (wp_if; [first [by apply wp_throw | by apply wp_ret | by eapply irq_fin_safe
                             | apply Hcfg; try done]|]); [..|by apply wp_throw].
  all: vic_ok_tac.
Qed.

(** ** Acknowledge and end of interrupt *)

(** The top of the priority stack is the level and source in service. *)
Definition top_ok (s : pl192_state) : Prop :=
  rd (priority_stack s) (stack_i s) = Some (priority s) /\
  rd (irq_stack s) (stack_i s) = Some (current s).

(** Pushing a vectored source. *)
Lemma mask_spec i s st : chain_ok st -> st !! i = Some s ->
  0 <= current s < 32 -> stack_i s < 16 ->
  wp no_err (pl192_mask_priority i)
     (fun _ st' => still_ok st st' /\ exists s', st' !! i = Some s' /\
        current s' = current s /\ stack_i s' = stack_i s + 1 /\ top_ok s' /\
        rd (vect_priority s) (current s) = Some (priority s') /\
        (forall k, k <= stack_i s -> rd (priority_stack s') k = rd (priority_stack s) k /\
                                     rd (irq_stack s') k = rd (irq_stack s) k)) st.
Proof.
  intros Hc Hi Hcur Hst. destruct (Hc _ _ Hi) as (Hok & Hl & Hcb).
  pose proof Hok as (O1 & O2 & O3 & O4 & O5 & O6 & O7 & O8 & O9 & O10 & O11 & O12 & O13 & O14).
  assert (i < length st)%nat as Hlt by (by eapply lookup_lt_Some).
  unfold pl192_mask_priority. apply wp_bind. eapply the_wp; [done|].
  destruct (Z.leb_spec PL192_INT_SOURCES (stack_i s)) as [|_]; [vlia|].
  apply wp_bind. eapply set_the_wp; [done|].
  rewrite (proj2 (Z.eqb_neq (current s) PL192_DAISY_IRQ)) by vlia.
  destruct (rd_Some (vect_priority s) (current s) ltac:(lia)) as (p & Hp & _).
  apply wp_bind. eapply deref_wp; [exact Hp|]. apply wp_bind.
  eapply set_the_wp; [by apply list_lookup_insert_eq|]. rewrite list_insert_insert_eq.
  apply wp_bind. eapply the_wp; [by apply list_lookup_insert_eq|]. cbn.
  pose proof (wr_Some (priority_stack s) (stack_i s + 1) p ltac:(lia)) as Hw1.
  rewrite (wrap_fits 8 (current s)) by (unfold fits; lia).
  pose proof (wr_Some (irq_stack s) (stack_i s + 1) (current s) ltac:(lia)) as Hw2.
  apply wp_bind. eapply deref_wp; [exact Hw1|]. apply wp_bind.
  eapply set_the_wp; [by apply list_lookup_insert_eq|]. rewrite list_insert_insert_eq.
  apply wp_bind. eapply deref_wp; [exact Hw2|].
  eapply set_the_wp; [by apply list_lookup_insert_eq|]. rewrite list_insert_insert_eq.
  split; [split|].
  - eapply chain_ok_set; [done|done| |done|].
    + repeat (split; [assumption|]). cbn. rewrite !length_insert. split; [lia|].
      split; [done|]. split; [done|]. split; [apply Forall_insert; [done|lia]|done].
    + unfold cb_ok in *. cbn. destruct (daisy_callback s); [done|].
      destruct Hcb as (C1 & C2 & C3 & C4). split_and!; try done.
      intros Hin. apply list_elem_of_lookup_1 in Hin as [k Hk].
      apply list_lookup_insert_Some in Hk as [(_ & E & _)|[_ Hk]]; [vlia|].
      apply C4. by eapply list_elem_of_lookup_2.
  - apply length_insert.
  - eexists. split; [by apply list_lookup_insert_eq|]. unfold top_ok. cbn. split_and!; try done.
    + by rewrite (rd_wr _ _ _ _ _ Hw1), Z.eqb_refl.
    + by rewrite (rd_wr _ _ _ _ _ Hw2), Z.eqb_refl.
    + intros k Hk. rewrite (rd_wr _ _ _ _ _ Hw1), (rd_wr _ _ _ _ _ Hw2).
      by rewrite (proj2 (Z.eqb_neq _ _)) by lia.
Qed.

Lemma static_fields s s' : static s' = static s ->
  current s' = current s /\ stack_i s' = stack_i s /\ priority s' = priority s /\
  priority_stack s' = priority_stack s /\ irq_stack s' = irq_stack s /\
  vect_priority s' = vect_priority s.
Proof.
  intros H. split_and!.
  - exact (f_equal current H).
  - exact (f_equal stack_i H).
  - exact (f_equal priority H).
  - exact (f_equal priority_stack H).
  - exact (f_equal irq_stack H).
  - exact (f_equal vect_priority H).
Qed.

(** Acknowledging an interrupt.  When the best source is a vectored one and the
    priority stack is not full, reading VECTADDR returns its vector address, makes it
    the source in service, raises the priority level to that source's and pushes
    both; the controller stays well-formed and the stack below is untouched. *)
Lemma irq_ack_spec i s st : chain_ok st -> st !! i = Some s ->
  0 <= current_highest s < 32 -> stack_i s < 16 ->
  wp no_err (pl192_irq_ack i)
     (fun a st' => a = address s /\ still_ok st st' /\ exists s', st' !! i = Some s' /\
        current s' = current_highest s /\ stack_i s' = stack_i s + 1 /\ top_ok s' /\
        rd (vect_priority s) (current_highest s) = Some (priority s') /\
        (forall k, k <= stack_i s -> rd (priority_stack s') k = rd (priority_stack s) k /\
                                     rd (irq_stack s') k = rd (irq_stack s) k)) st.
Proof.
  intros Hc Hi Hcur Hst. destruct (Hc _ _ Hi) as (Hok & Hl & Hcb).
  assert (i < length st)%nat as Hlt by (by eapply lookup_lt_Some).
  unfold pl192_irq_ack. apply wp_bind. eapply the_wp; [done|].
  rewrite (proj2 (Z.eqb_neq (current_highest s) PL192_DAISY_IRQ)) by vlia.
  apply wp_bind. eapply set_the_wp; [done|]. apply wp_bind.
  set (s0 := s <| current := current_highest s |>).
  assert (chain_ok (<[i := s0]> st)) as Hc0.
  { eapply chain_ok_set; [done|done| |done|].
    - destruct Hok as (O1 & O2 & O3 & O4 & O5 & O6 & O7 & O8 & O9 & O10 & O11 & O12 & O13 & O14).
      repeat (split; [assumption|]). cbn. lia.
    - unfold cb_ok in *. cbn. destruct (daisy_callback s); [done|].
      destruct Hcb as (C1 & C2 & C3 & C4). by split_and!. }
  eapply wp_mono; [apply (mask_spec i s0); [done|by apply list_lookup_insert_eq|done|done]|].
  intros [] st1 ([Hc1 Hl1] & s1 & Hi1 & E1 & E2 & [T1 T2] & E3 & E4).
  apply wp_bind. eapply the_wp; [done|]. apply wp_bind, wp_ret, wp_bind.
  eapply wp_mono; [by eapply update_drives|]. intros [] st2 [(Hc2 & Hl2 & _) Hi2].
  apply wp_ret. split; [done|]. split; [split; [done|]|].
  { by rewrite Hl2, Hl1, length_insert. }
  exists (updated s1). destruct (static_fields _ _ (updated_static s1))
    as (F1 & F2 & F3 & F4 & F5 & F6).
  unfold top_ok. rewrite F1, F2, F3, F4, F5. split_and!; done.
Qed.

(** Interrupts nest.  Acknowledging a vectored interrupt and then signalling its
    end restores the source in service, the priority level and the depth of the
    priority stack, so the interrupted handler continues at its own level. *)
Theorem ack_fin_restores i s st : chain_ok st -> st !! i = Some s -> top_ok s ->
  0 <= current_highest s < 32 -> stack_i s < 16 ->
  wp no_err (pl192_irq_ack i ;; pl192_irq_fin i)
     (fun _ st' => still_ok st st' /\ exists s', st' !! i = Some s' /\ top_ok s' /\
        current s' = current s /\ priority s' = priority s /\ stack_i s' = stack_i s) st.
Proof.
  intros Hc Hi [Htp Htc] Hcur Hst. apply wp_bind.
  eapply wp_mono; [by eapply irq_ack_spec|].
  intros a st1 (_ & [Hc1 Hl1] & s1 & Hi1 & E1 & E2 & _ & _ & E4).
  destruct (Hc _ _ Hi) as ((_ & _ & _ & _ & _ & _ & _ & _ & _ & Hsi & _) & _).
  unfold pl192_irq_fin. apply wp_bind. eapply the_wp; [done|]. apply wp_bind.
  eapply wp_mono; [eapply wp_err_weaken; [by eapply unmask_spec|intros e [_ ?]; lia]|].
  intros [] st2 ([Hc2 Hl2] & s2 & Hi2 & _ & _ & D1 & D2 & D3 & D4 & D5).
  apply wp_bind. eapply the_wp; [done|]. apply wp_bind.
  rewrite E1, (proj2 (Z.eqb_neq (current_highest s) PL192_DAISY_IRQ)) by vlia.
  apply wp_ret, wp_bind. eapply wp_mono; [by eapply update_drives|].
  intros [] st3 [(Hc3 & Hl3 & _) Hi3]. apply wp_bind. eapply the_wp; [done|].
  assert (stack_i s2 = stack_i s) as Hs2 by lia.
  destruct (E4 (stack_i s) ltac:(lia)) as [K1 K2]. rewrite Hs2, K1, Htp in D2.
  rewrite Hs2, K2, Htc in D3. injection D2 as D2. injection D3 as D3.
  assert (forall s4, static s4 = static s2 -> top_ok s4 /\
    current s4 = current s /\ priority s4 = priority s /\ stack_i s4 = stack_i s) as Hend.
  { intros s4 (F1 & F2 & F3 & F4 & F5 & _)%static_fields. unfold top_ok.
    rewrite F1, F2, F3, F4, F5, D4, D5, Hs2, <- D2, <- D3, K1, K2. done. }
  wp_if.
  - eapply wp_mono; [by eapply lower_settles|]. intros [] st4 [(Hc4 & Hl4 & _) Hi4].
    split; [split; [done|congruence]|]. eexists. split; [done|]. apply Hend.
    by rewrite static_drive_line, updated_static.
  - apply wp_ret. split; [split; [done|congruence]|]. eexists. split; [done|].
    apply Hend, updated_static.
Qed.

(** VECTADDR apart, a read has no side effect: it either stops in hw_error or returns with every controller unchanged. *)
Lemma read_safe i s offset st : chain_ok st -> st !! i = Some s ->
  offset <> PL192_VECTADDR ->
  wp only_hw (pl192_read i offset) (fun _ st' => st' = st) st.
Proof.
  intros Hc Hi Hoff. destruct (Hc _ _ Hi) as (Hok & _).
  pose proof Hok as (_ & _ & _ & _ & O5 & O6 & _).
  assert (forall a n, a <= offset < a + 4 * n -> 0 <= Z.shiftr (offset - a) 2 < n) as Hidx.
  { intros a n Ha. rewrite Z.shiftr_div_pow2 by lia. split; [apply Z.div_pos; lia|].
    apply Z.div_lt_upper_bound; lia. }
  assert (forall (l : list Z) a n, Z.of_nat (length l) = n -> a <= offset < a + 4 * n ->
    wp only_hw (deref (rd l (Z.shiftr (offset - a) 2))) (fun _ st' => st' = st) st) as Harr.
  { intros l a n Hl Ha. destruct (rd_Some l (Z.shiftr (offset - a) 2)) as (x & Hx & _).
    - rewrite Hl. by apply Hidx.
    - by eapply deref_wp. }
  unfold pl192_read. apply wp_bind. eapply the_wp; [done|].
  wp_if; [by apply wp_throw|].
  wp_if as E0; [eapply (Harr _ _ 8); [done|lia]|].
  wp_if as E1; [eapply (Harr _ _ 32); [by rewrite O5|lia]|].
  wp_if as E2; [eapply (Harr _ _ 32); [by rewrite O6|lia]|].
  rewrite (proj2 (Z.eqb_neq offset PL192_VECTADDR) Hoff).
  repeat (wp_if; [first [by apply wp_throw | by apply wp_ret]|]); by apply wp_throw.
Qed.

(** Set and clear registers.  A write to INTENABLE or SOFTINT sets exactly the
    given bits of the register, one to INTENCLEAR or SOFTINTCLEAR clears exactly
    them, and INTSELECT takes the value written; whatever the chain does in the
    update that follows, the register reads back so. *)
Theorem write_set_clear i s st value : chain_ok st -> st !! i = Some s -> fits 32 value ->
  let reads f v st' := exists s', st' !! i = Some s' /\ f s' = v in
  wp no_err (pl192_write i PL192_INTENABLE value)
     (fun _ => reads intenable (Z.lor (intenable s) value)) st /\
  wp no_err (pl192_write i PL192_INTENCLEAR value)
     (fun _ => reads intenable (Z.ldiff (intenable s) value)) st /\
  wp no_err (pl192_write i PL192_SOFTINT value)
     (fun _ => reads softint (Z.lor (softint s) value)) st /\
  wp no_err (pl192_write i PL192_SOFTINTCLEAR value)
     (fun _ => reads softint (Z.ldiff (softint s) value)) st /\
  wp no_err (pl192_write i PL192_INTSELECT value) (fun _ => reads intselect value) st.
Proof.
  intros Hc Hi Hv reads. destruct (Hc _ _ Hi) as (Hok & _).
  pose proof Hok as (O1 & O2 & O3 & O4 & O5).
  assert (forall x, fits 32 x -> Z.ldiff x value = Z.land x (not32 value)) as Hld.
  { intros x Hx. apply Z.bits_inj'. intros j Hj.
    rewrite Z.ldiff_spec, Z.land_spec, not32_testbit by done.
    destruct (Z.ltb_spec j 32); [done|]. by rewrite (fits_testbit 32 x j). }
  rewrite !Hld by done.
  assert (forall f (g : pl192_state -> Z) v, vic_ok (f s) -> (link_ok i s -> link_ok i (f s)) ->
    (cb_ok (length st) s -> cb_ok (length st) (f s)) ->
    g (f s) = v -> (forall x, g (static x) = g x) ->
    wp no_err (set_the i f ;; update i) (fun _ => reads g v) st) as Hset.
  { intros f g v Hf Hl Hcb Hg Hgs. eapply wp_mono; [by eapply config_update|].
    intros [] st' [_ Hi']. exists (updated (f s)). split; [done|].
    by rewrite <- Hgs, updated_static, Hgs. }
  unfold pl192_write. split_and!; apply wp_bind; (eapply the_wp; [done|]);
    (apply Hset; try done); vic_ok_tac.
Qed.

(** ** The board's four controllers *)
Definition irq_line (st : store) : option bool :=
  match st with v :: _ => irq v | [] => None end.
Definition fiq_line (st : store) : option bool :=
  match st with v :: _ => fiq v | [] => None end.
(** The guest enables interrupt [n] at its controller. *)
Definition enable_irq (n : nat) : ST store unit :=
  pl192_write (n / 32) PL192_INTENABLE (bit (Z.of_nat (n mod 32))).
Definition on_board {A} (m : ST store A) : outcome (A * store) :=
  match board_vics with Some st => m st | None => Err Fault end.

(** What can be seen of the board after a successful run. *)
Definition observe {A B} (m : ST store A) (f : store -> B) : option B :=
  match on_board m with Ok (_, st) => Some (f st) | Err _ => None end.

Definition check_delivery (n : nat) : bool :=
  match on_board (enable_irq n ;; set_irq n 1) with
  | Ok (_, st1) =>
      bool_decide (irq_line st1 = Some true) &&
      match set_irq n 0 st1 with
      | Ok (_, st2) => bool_decide (irq_line st2 = Some false)
      | Err _ => false
      end
  | Err _ => false
  end.

Lemma forallb_seq_nat (f : nat -> bool) a n m :
  forallb f (seq a n) = true -> (a <= m < a + n)%nat -> f m = true.
Proof. rewrite forallb_forall. intros H Hm. apply H. apply in_seq. lia. Qed.

(** Every interrupt of the board reaches the CPU.  On the chain s5pc110_init
    builds, for each of the 128 interrupt numbers, enabling it and raising its pin
    raises the CPU's IRQ line through the daisy chain, and lowering the pin lowers
    the line again. *)
Theorem board_irq_delivery n : (n < 128)%nat ->
  exists st1 st2, on_board (enable_irq n ;; set_irq n 1) = Ok (tt, st1) /\
    irq_line st1 = Some true /\
    set_irq n 0 st1 = Ok (tt, st2) /\ irq_line st2 = Some false.
Proof.
  intros Hn. assert (check_delivery n = true) as H
    by (eapply (forallb_seq_nat _ 0 128); [by vm_compute|lia]).
  unfold check_delivery in H.
  destruct (on_board _) as [[[] st1]|]; [|done]. apply andb_true_iff in H as [H1%bool_decide_eq_true H].
  destruct (set_irq n 0 st1) as [[[] st2]|] eqn:E; [|done]. apply bool_decide_eq_true in H.
  exists st1, st2. by rewrite E.
Qed.

Definition check_ack (n : nat) : bool :=
  bool_decide ((match on_board (enable_irq n ;; set_irq n 1 ;; pl192_read 0 PL192_VECTADDR) with
                | Ok _ => None | Err e => Some e end)
               = if (n <? 32)%nat then None else Some Fault).

(** Acknowledging a daisy-chained interrupt is undefined behaviour.  For every
    interrupt of VIC1..VIC3, the guest's read of VIC0's VECTADDR makes
    pl192_mask_priority index vect_priority with the chained controller's
    [current], which is still PL192_NO_IRQ = 33; for VIC0's own interrupts the same
    sequence is defined. *)
Theorem daisy_ack_faults n : (32 <= n < 128)%nat ->
  on_board (enable_irq n ;; set_irq n 1 ;; pl192_read 0 PL192_VECTADDR) = Err Fault.
Proof.
  intros Hn. assert (check_ack n = true) as H
    by (eapply (forallb_seq_nat _ 0 128); [by vm_compute|lia]).
  unfold check_ack in H. apply bool_decide_eq_true in H.
  rewrite (proj2 (Nat.ltb_ge n 32)) in H by lia.
  destruct (on_board _) as [|e]; [done|]. congruence.
Qed.

Fixpoint acks (k : nat) : ST store unit :=
  match k with O => mret tt | S k => pl192_read 0 PL192_VECTADDR ;; acks k end.

(** The guest can overflow the priority stack.  With one interrupt pending,
    sixteen reads of VECTADDR without an end-of-interrupt write are defined, and the
    seventeenth writes past the 17-entry arrays: the bound pl192_mask_priority tests
    is PL192_INT_SOURCES (32) instead of PL192_PRIO_LEVELS (16). *)
Theorem ack_stack_overflow :
  observe (enable_irq 3 ;; set_irq 3 1 ;; acks 16) (fun st => stack_i <$> head st)
    = Some (Some 16) /\
  on_board (enable_irq 3 ;; set_irq 3 1 ;; acks 17) = Err Fault.
Proof. split; vm_compute; reflexivity. Qed.

(** The guest routes interrupt [n] to FIQ, enables it, and its device raises it. *)
Definition fiq_request (n : nat) : ST store unit :=
  pl192_write (n / 32) PL192_INTSELECT (bit (Z.of_nat (n mod 32))) ;;
  enable_irq n ;; set_irq n 1.
Definition check_fiq (n : nat) : bool :=
  bool_decide (observe (fiq_request n) (fun st => (fiq_line st, fiq_status <$> st !! (n / 32)%nat))
               = Some (Some (n <? 32)%nat, Some (bit (Z.of_nat (n mod 32))))).

(** FIQs of chained controllers are lost.  A FIQ source of VIC0 leaves the CPU's
    FIQ line high; for every source of VIC1..VIC3 the same request ends with the
    line low although the controller's FIQSTATUS shows the FIQ pending: the
    pl192_update that VIC1 forces on VIC0 while lowering its IRQ finds VIC0's own
    FIQSTATUS zero and lowers the line again. *)
Theorem chained_fiq_lost n : (n < 128)%nat ->
  observe (fiq_request n) (fun st => (fiq_line st, fiq_status <$> st !! (n / 32)%nat))
  = Some (Some (n <? 32)%nat, Some (bit (Z.of_nat (n mod 32)))).
Proof.
  intros Hn. eapply (proj1 (bool_decide_eq_true _)).
  change (check_fiq n = true). eapply (forallb_seq_nat _ 0 128); [by vm_compute|lia].
Qed.

(** ** The properties of the sorter, the chain and the register file *)

(** C14: the priority sorter is correct.  On every well-formed controller
    pl192_priority_sorter stays within its arrays and returns the pending,
    software-enabled source of the lowest priority level, ties going to the lowest
    source number and the daisy input last, or PL192_NO_IRQ when there is none. *)
Theorem sorter_spec s : vic_ok s ->
  exists v, pl192_priority_sorter s = Some v /\ is_best s v /\
    forall w, is_best s w -> w = v.
Proof.
  intros Hok. destruct (sorter_best s Hok) as (v & Hv & Hb). exists v.
  split_and!; [done|done|]. intros w Hw. by eapply is_best_unique.
Qed.

(** C5: the chain always settles.  In every well-formed chain of controllers,
    pl192_update terminates without hw_error or undefined behaviour, whatever the
    mutual recursion between pl192_raise, pl192_lower and pl192_update along the
    chain; the chain stays well-formed, controllers further from the CPU are
    untouched, no configuration register of any controller changes, and the
    controller itself ends in the state [updated] specifies. *)
Theorem update_settles i st s : chain_ok st -> st !! i = Some s ->
  wp no_err (update i) (fun _ st' => drives i (updated s) st st') st.
Proof. apply update_drives. Qed.

(** Guest accesses are memory-safe.  Whatever controller of a well-formed chain
    the guest accesses, at whatever offset and with whatever 32-bit value: a write
    either stops in hw_error or completes in a well-formed chain, the
    end-of-interrupt path included; a read other than VECTADDR either stops in
    hw_error or changes nothing.  Neither indexes an array out of bounds or follows
    a NULL pointer. *)
Theorem accesses_safe i s offset value st : chain_ok st -> st !! i = Some s ->
  fits 32 value ->
  wp only_hw (pl192_write i offset value) (fun _ st' => still_ok st st') st /\
  (offset <> PL192_VECTADDR ->
   wp only_hw (pl192_read i offset) (fun _ st' => st' = st) st).
Proof. intros Hc Hi Hv. split; [by eapply write_safe|by eapply read_safe]. Qed.

(** ** Witnesses *)
Lemma chain_ok_single s : vic_ok s -> link_ok 0 s -> cb_ok 1 s -> chain_ok [s].
Proof. intros ? ? ? i t Hi. destruct i as [|i]; simpl in Hi; by simplify_eq. Qed.

(** A root controller with input 3 pending and enabled. *)
Definition demo_vic : pl192_state :=
  (pl192_init1 (Some false) (Some false))
    <| rawintr := 8 |> <| intenable := 8 |> <| irq_status := 8 |> <| current_highest := 3 |>.
Lemma demo_ok : chain_ok [demo_vic].
Proof.
  apply chain_ok_single; [by apply (bool_decide_unpack _); vm_compute|done|].
  unfold cb_ok. cbn. split_and!; try done. by apply (bool_decide_unpack _); vm_compute.
Qed.

Example sorter_spec_witness : pl192_priority_sorter demo_vic = Some 3 /\
  exists v, pl192_priority_sorter demo_vic = Some v /\ is_best demo_vic v /\
    forall w, is_best demo_vic w -> w = v.
Proof.
  split; [by vm_compute|]. apply sorter_spec. by apply (bool_decide_unpack _); vm_compute.
Defined.
Example update_settles_witness :
  wp no_err (update 0) (fun _ st' => drives 0 (updated demo_vic) [demo_vic] st') [demo_vic].
Proof. apply update_settles; [apply demo_ok|reflexivity]. Defined.
Example update_lines_witness :
  wp no_err (update 0)
     (fun _ st' => exists s', st' !! 0%nat = Some s' /\ lines_follow s' (irq demo_vic)) [demo_vic].
Proof. apply update_lines; [apply demo_ok|reflexivity]. Defined.
Example accesses_safe_witness :
  wp only_hw (pl192_write 0 PL192_INTENABLE 1) (fun _ st' => still_ok [demo_vic] st') [demo_vic] /\
  (PL192_INTENABLE <> PL192_VECTADDR ->
   wp only_hw (pl192_read 0 PL192_INTENABLE) (fun _ st' => st' = [demo_vic]) [demo_vic]).
Proof. eapply accesses_safe; [apply demo_ok|reflexivity|split; lia]. Defined.
Example ack_fin_restores_witness : exists st s',
  (pl192_irq_ack 0 ;; pl192_irq_fin 0) [demo_vic] = Ok (tt, st) /\ st !! 0%nat = Some s' /\
  current s' = PL192_NO_IRQ /\ priority s' = 0x10.
Proof.
  pose proof (ack_fin_restores 0 demo_vic [demo_vic] demo_ok eq_refl (conj eq_refl eq_refl)
    ltac:(vm_compute; split; congruence) ltac:(vm_compute; reflexivity)) as H.
  apply wp_total_ex in H as ([] & st & Hrun & _ & s' & Hs & _ & Hc & Hp & _). by exists st, s'.
Defined.
Example write_set_clear_witness :
  exists st s', pl192_write 0 PL192_INTENCLEAR 8 [demo_vic] = Ok (tt, st) /\
    st !! 0%nat = Some s' /\ intenable s' = 0.
Proof.
  pose proof (write_set_clear 0 demo_vic [demo_vic] 8 demo_ok eq_refl ltac:(split; lia))
    as (_ & H & _).
  apply wp_total_ex in H as ([] & st & Hrun & s' & Hs & He). by exists st, s'.
Defined.
Example board_irq_delivery_witness : (35 < 128)%nat /\ exists st1 st2,
  on_board (enable_irq 35 ;; set_irq 35 1) = Ok (tt, st1) /\ irq_line st1 = Some true /\
  set_irq 35 0 st1 = Ok (tt, st2) /\ irq_line st2 = Some false.
Proof. split; [lia|]. apply board_irq_delivery. lia. Defined.
Example daisy_ack_faults_witness :
  on_board (enable_irq 35 ;; set_irq 35 1 ;; pl192_read 0 PL192_VECTADDR) = Err Fault.
Proof. apply daisy_ack_faults. lia. Defined.
Example chained_fiq_lost_witness :
  observe (fiq_request 35) (fun st => (fiq_line st, fiq_status <$> st !! 1%nat))
  = Some (Some false, Some 8).
Proof. exact (chained_fiq_lost 35 ltac:(lia)). Defined.
