(* ===== verification/Clk.v ===== *)
(** * Clk: the clock controller (hw/s5pc1xx_clk.c)

    The clock tree is a static array of [Clk] structures linked by pointers; a
    pointer is a position in [onchip_clks].  The state of the device is the
    register file [CmuStat] and the array.  unsigned long is the 64-bit type of an
    LP64 host. *)
From S2P Require Import Prelude HostUtils.
From stdpp Require Import strings sets.

#[local] Open Scope Z_scope.

(** ** Register offsets and fields *)
Definition APLL_CON : Z := 0x100.
Definition MPLL_CON : Z := 0x108.
Definition EPLL_CON : Z := 0x110.
Definition VPLL_CON : Z := 0x120.
Definition ONENAND_SHIFT : Z := 28.
Definition MUX133_SHIFT : Z := 24.
Definition MUX166_SHIFT : Z := 20.
Definition MUX200_SHIFT : Z := 16.
Definition VPLL_SHIFT : Z := 12.
Definition EPLL_SHIFT : Z := 8.
Definition MPLL_SHIFT : Z := 4.
Definition APLL_SHIFT : Z := 0.
Definition MFC_SHIFT : Z := 4.
Definition G3D_SHIFT : Z := 0.
Definition MUX_PWM_SHIFT : Z := 12.
Definition MUX_ONEDRAM_SHIFT : Z := 24.
Definition MUX_HPM_SHIFT : Z := 16.
Definition MUX_SPDIF_SHIFT : Z := 12.
Definition MUX_AUDIO_2_SHIFT : Z := 8.
Definition MUX_AUDIO_1_SHIFT : Z := 4.
Definition MUX_AUDIO_0_SHIFT : Z := 0.
Definition PCLK66_SHIFT : Z := 28.
Definition HCLK133_SHIFT : Z := 24.
Definition PCLK83_SHIFT : Z := 20.
Definition HCLK166_SHIFT : Z := 16.
Definition PCLK100_SHIFT : Z := 12.
Definition HCLK200_SHIFT : Z := 8.
Definition A2M_SHIFT : Z := 4.
Definition DIV_PWM_SHIFT : Z := 12.
Definition DIV_AUDIO_2_SHIFT : Z := 8.
Definition DIV_AUDIO_1_SHIFT : Z := 4.
Definition DIV_AUDIO_0_SHIFT : Z := 0.
Definition XOM_0 : Z := 0.
Definition VPLLSRC_SEL : Z := 1.
Definition ALL_MUX_BITS_5 : Z := 0xffff.
Definition ALL_DIV_BITS_5 : Z := 0xffff.
Definition NONE : Z := (-1).
Definition S5PC1XX_CLK_REG_MEM_SIZE : Z := 0x1110.
Definition ALL_MUX_BITS_0 : Z :=
  foldr Z.lor 0 (map bit [ONENAND_SHIFT; MUX133_SHIFT; MUX166_SHIFT; MUX200_SHIFT;
                          VPLL_SHIFT; EPLL_SHIFT; MPLL_SHIFT; APLL_SHIFT]).
Definition ALL_DIV_BITS_0 : Z :=
  foldr Z.lor 0 [Z.shiftl 7 PCLK66_SHIFT; Z.shiftl 0xf HCLK133_SHIFT; Z.shiftl 7 PCLK83_SHIFT;
                 Z.shiftl 0xf HCLK166_SHIFT; Z.shiftl 7 PCLK100_SHIFT; Z.shiftl 7 HCLK200_SHIFT;
                 Z.shiftl 7 A2M_SHIFT; Z.shiftl 7 APLL_SHIFT].

(** ** State *)
Record CmuStat := mkCmu {
  lock_data : list Z; conf_data : list Z; clk_src : list Z; src_mask : list Z;
  clk_div : list Z; clk_gate : list Z; clk_out : Z
}.
#[export] Instance eta_cmu : Eta CmuStat := fun r => mkCmu
  (lock_data r) (conf_data r) (clk_src r) (src_mask r) (clk_div r) (clk_gate r) (clk_out r).

(** [parents] is the array of nine pointers, NULL beyond the initialiser. *)
Record Clk := mkClk {
  name : string; alias : option string; parent : option nat; parents : list (option nat);
  enabled : Z; rate : Z; div_val : Z; mult_val : Z;
  mux_shift : Z; div_shift : Z; src_reg_num : Z; div_reg_num : Z
}.
#[export] Instance eta_clk : Eta Clk := fun r => mkClk
  (name r) (alias r) (parent r) (parents r) (enabled r) (rate r) (div_val r) (mult_val r)
  (mux_shift r) (div_shift r) (src_reg_num r) (div_reg_num r).

Definition static_clk (name : string) (alias : option string) (ps : list nat)
    (rate div_val mux_shift div_shift src_reg_num div_reg_num : Z) : Clk :=
  mkClk name alias None (map Some ps ++ replicate (9 - length ps) None)
    0 rate div_val 0 mux_shift div_shift src_reg_num div_reg_num.

(** Positions of the clocks in [onchip_clks]: a [Clk *] is such a position. *)
Definition p_xtal_osc12m : nat := 0.
Definition p_xtal_osc27m : nat := 1.
Definition p_xtal_usb_osc48m : nat := 2.
Definition p_xtal_rtc_osc32k : nat := 3.
Definition p_sclk_hdmi27m : nat := 4.
Definition p_fin_pll : nat := 5.
Definition p_apll : nat := 6.
Definition p_mpll : nat := 7.
Definition p_epll : nat := 8.
Definition p_vpll : nat := 9.
Definition p_sclk_apll : nat := 10.
Definition p_sclk_mpll : nat := 11.
Definition p_sclk_epll : nat := 12.
Definition p_sclk_vpll : nat := 13.
Definition p_sclk_a2m : nat := 14.
Definition p_hclk133 : nat := 15.
Definition p_pclk66 : nat := 16.
Definition p_hclk166 : nat := 17.
Definition p_pclk83 : nat := 18.
Definition p_armclk : nat := 19.
Definition p_hclk200 : nat := 20.
Definition p_pclk100 : nat := 21.
Definition p_hclk100 : nat := 22.
Definition p_sclk_pwm : nat := 23.
Definition p_sclk_audio_0 : nat := 24.
Definition p_sclk_audio_1 : nat := 25.
Definition p_sclk_audio_2 : nat := 26.
Definition p_sclk_spdif : nat := 27.
Definition xtal_osc12m : Clk :=
  static_clk "XXTI" None
    []
    24000000 0 NONE NONE 0 0.
Definition xtal_osc27m : Clk :=
  static_clk "XXTI27" None
    []
    27000000 0 NONE NONE 0 0.
Definition xtal_usb_osc48m : Clk :=
  static_clk "XusbXTI" None
    []
    24000000 0 NONE NONE 0 0.
Definition xtal_rtc_osc32k : Clk :=
  static_clk "XrtcXTI" None
    []
    32768 0 NONE NONE 0 0.
Definition sclk_hdmi27m : Clk :=
  static_clk "SCLK_HDMI27M" (Some "clkin")
    [p_xtal_osc27m]
    0 0 NONE NONE 0 0.
Definition fin_pll : Clk :=
  static_clk "fin_pll" (Some "clkin")
    [(if truth XOM_0 then p_xtal_usb_osc48m else p_xtal_osc12m)]
    0 0 NONE NONE 0 0.
Definition apll : Clk :=
  static_clk "apll" None
    [p_fin_pll]
    0 0 NONE NONE 0 0.
Definition mpll : Clk :=
  static_clk "mpll" None
    [p_fin_pll]
    0 0 NONE NONE 0 0.
Definition epll : Clk :=
  static_clk "epll" None
    [p_fin_pll]
    0 0 NONE NONE 0 0.
Definition vpll : Clk :=
  static_clk "vpll" None
    [(if truth VPLLSRC_SEL then p_sclk_hdmi27m else p_fin_pll)]
    0 0 NONE NONE 0 0.
Definition sclk_apll : Clk :=
  static_clk "sclk_apll" None
    [p_fin_pll; p_apll]
    0 0 APLL_SHIFT NONE 0 0.
Definition sclk_mpll : Clk :=
  static_clk "sclk_mpll" None
    [p_fin_pll; p_mpll]
    0 0 MPLL_SHIFT NONE 0 0.
Definition sclk_epll : Clk :=
  static_clk "sclk_epll" None
    [p_fin_pll; p_epll]
    0 0 EPLL_SHIFT NONE 0 0.
Definition sclk_vpll : Clk :=
  static_clk "sclk_vpll" None
    [p_fin_pll; p_vpll]
    0 0 VPLL_SHIFT NONE 0 0.
Definition sclk_a2m : Clk :=
  static_clk "sclk_a2m" None
    [p_sclk_apll]
    0 0 NONE A2M_SHIFT 0 0.
Definition hclk133 : Clk :=
  static_clk "hclk_133" None
    [p_sclk_mpll; p_sclk_a2m]
    0 0 MUX133_SHIFT HCLK133_SHIFT 0 0.
Definition pclk66 : Clk :=
  static_clk "pclk_66" None
    [p_hclk133]
    0 0 NONE PCLK66_SHIFT 0 0.
Definition hclk166 : Clk :=
  static_clk "hclk_166" None
    [p_sclk_mpll; p_sclk_a2m]
    0 0 MUX166_SHIFT HCLK166_SHIFT 0 0.
Definition pclk83 : Clk :=
  static_clk "pclk_83" None
    [p_hclk166]
    0 0 NONE PCLK83_SHIFT 0 0.
Definition armclk : Clk :=
  static_clk "armclk" None
    [p_sclk_apll; p_sclk_mpll]
    0 0 MUX200_SHIFT APLL_SHIFT 0 0.
Definition hclk200 : Clk :=
  static_clk "hclk_200" None
    [p_armclk]
    0 0 NONE HCLK200_SHIFT 0 0.
Definition pclk100 : Clk :=
  static_clk "pclk_100" None
    [p_hclk200]
    0 0 NONE PCLK100_SHIFT 0 0.
Definition hclk100 : Clk :=
  static_clk "hclk_100" None
    [p_hclk200]
    0 2 NONE NONE 0 0.
Definition sclk_pwm : Clk :=
  static_clk "sclk_pwm" None
    [p_xtal_osc12m; p_xtal_usb_osc48m; p_sclk_hdmi27m; p_sclk_hdmi27m; p_sclk_hdmi27m; p_sclk_hdmi27m; p_sclk_mpll; p_sclk_epll; p_sclk_vpll]
    0 0 MUX_PWM_SHIFT DIV_PWM_SHIFT 5 5.
Definition sclk_audio_0 : Clk :=
  static_clk "sclk_audio_0" None
    [p_xtal_osc12m; p_xtal_usb_osc48m; p_sclk_hdmi27m; p_sclk_hdmi27m; p_sclk_hdmi27m; p_sclk_hdmi27m; p_sclk_mpll; p_sclk_epll; p_sclk_vpll]
    0 0 MUX_AUDIO_0_SHIFT DIV_AUDIO_0_SHIFT 6 6.
Definition sclk_audio_1 : Clk :=
  static_clk "sclk_audio_1" None
    [p_xtal_osc12m; p_xtal_usb_osc48m; p_sclk_hdmi27m; p_sclk_hdmi27m; p_sclk_hdmi27m; p_sclk_hdmi27m; p_sclk_mpll; p_sclk_epll; p_sclk_vpll]
    0 0 MUX_AUDIO_1_SHIFT DIV_AUDIO_1_SHIFT 6 6.
Definition sclk_audio_2 : Clk :=
  static_clk "sclk_audio_2" None
    [p_xtal_osc12m; p_xtal_usb_osc48m; p_sclk_hdmi27m; p_sclk_hdmi27m; p_sclk_hdmi27m; p_sclk_hdmi27m; p_sclk_mpll; p_sclk_epll; p_sclk_vpll]
    0 0 MUX_AUDIO_2_SHIFT DIV_AUDIO_2_SHIFT 6 6.
Definition sclk_spdif : Clk :=
  static_clk "sclk_spdif" None
    [p_sclk_audio_0; p_sclk_audio_1; p_sclk_audio_2]
    0 0 MUX_SPDIF_SHIFT NONE 6 0.
Definition onchip_clks : list Clk :=
  [xtal_osc12m; xtal_osc27m; xtal_usb_osc48m; xtal_rtc_osc32k; sclk_hdmi27m; fin_pll; apll; mpll; epll; vpll; sclk_apll; sclk_mpll; sclk_epll; sclk_vpll; sclk_a2m; hclk133; pclk66; hclk166; pclk83; armclk; hclk200; pclk100; hclk100; sclk_pwm; sclk_audio_0; sclk_audio_1; sclk_audio_2; sclk_spdif].

Record clkst := mkClkst { cmu : CmuStat; clks : list Clk }.
#[export] Instance eta_clkst : Eta clkst := fun r => mkClkst (cmu r) (clks r).

(** ** Operations *)
(** Dereferencing a [Clk *]. *)
Definition the_clk (i : nat) : ST clkst Clk := s ← get; deref (clks s !! i).
Definition set_clk (i : nat) (c : Clk) : ST clkst unit :=
  modify (fun s => s <| clks := <[i := c]> (clks s) |>).
Definition set_cmu (f : CmuStat -> CmuStat) : ST clkst unit :=
  modify (fun s => s <| cmu := f (cmu s) |>).

Definition s5pc1xx_findclk (nm : string) : ST clkst nat :=
  s ← get;
  match list_find (fun c => name c = nm \/ alias c = Some nm) (clks s) with
  | Some (i, _) => mret i
  | None => hw_error
  end.
Definition s5pc1xx_clk_getrate (i : nat) : ST clkst Z := c ← the_clk i; mret (rate c).

(** The selector of a clock's multiplexer. *)
Definition parent_num (src : list Z) (c : Clk) : option Z :=
  if NONE <? mux_shift c
  then r ← rd src (src_reg_num c); Some (Z.land (Z.shiftr r (mux_shift c)) 0xf)
  else Some 0.
Definition s5pc1xx_clk_reparent : ST clkst unit :=
  s ← get;
  for_each (seq 0 (length (clks s))) (fun i =>
    cur ← the_clk i;
    s ← get;
    n ← deref (parent_num (clk_src (cmu s)) cur);
    p ← deref (rd (parents cur) n);
    set_clk i (cur <| parent := p |>)).

(** [x ?: y] *)
Definition elvis (x y : Z) : Z := if truth x then x else y.
(** The body of the loop of s5pc1xx_clk_rate_update. *)
Definition clk_rate_update (i : nat) : ST clkst unit :=
  cur ← the_clk i;
  s ← get;
  let cur := cur <| div_val := elvis (div_val cur) 1 |> in
  let cur := cur <| mult_val := elvis (mult_val cur) 1 |> in
  cur ← (if NONE <? div_shift cur then
           r ← deref (rd (clk_div (cmu s)) (div_reg_num cur));
           mret (cur <| div_val := Z.land (Z.shiftr r (div_shift cur)) 0xf + 1 |>)
         else mret cur);
  cur ← (match parent cur with
         | None => mret cur
         | Some p => c ← the_clk p;
                     mret (cur <| rate := muldiv64 (rate c) (mult_val cur) (div_val cur) |>)
         end);
  set_clk i cur.
Definition s5pc1xx_clk_rate_update : ST clkst unit :=
  s ← get; for_each (seq 0 (length (clks s))) clk_rate_update.

Definition s5pc1xx_clk_setrate (i : nat) (divide multiply : Z) : ST clkst unit :=
  cur ← the_clk i; set_clk i (cur <| div_val := divide |> <| mult_val := multiply |>).

(** [x << n] in C: a negative count is undefined. *)
Definition shl (x n : Z) : ST clkst Z := if n <? 0 then throw Fault else mret (Z.shiftl x n).

(** One case of set_pll_conf: PLL [pll], its selector clock [mux], exponent [sdiv]. *)
Definition pll_case (pll mux : nat) (val sdiv : Z) : ST clkst unit :=
  c ← the_clk pll;
  let en := Z.land (Z.shiftr val 31) 0x1 in
  set_clk pll (c <| enabled := en |>) ;;
  s ← get;
  m ← the_clk mux;
  r ← deref (rd (clk_src (cmu s)) 0);
  let b := bit (mux_shift m) in
  src ← deref (wr (clk_src (cmu s)) 0 (if truth en then Z.lor r b else Z.land r (not32 b)));
  set_cmu (fun c => c <| clk_src := src |>) ;;
  d ← shl (Z.land (Z.shiftr val 8) 0x3F) sdiv;
  s5pc1xx_clk_setrate pll d (Z.land (Z.shiftr val 16) 0x3FF).

Definition set_pll_conf (offset val : Z) : ST clkst unit :=
  let k := Z.shiftr (offset - 0x100) 3 in
  if k =? 0 then pll_case p_apll p_sclk_apll val (Z.land val 0x7 - 1)
  else if k =? 1 then pll_case p_mpll p_sclk_mpll val (Z.land val 0x7)
  else if k =? 2 then pll_case p_epll p_sclk_epll val (Z.land val 0x7)
  else if k =? 4 then pll_case p_vpll p_sclk_vpll val (Z.land val 0x7)
  else hw_error.

(** [case lo ... hi] *)
Definition within (lo hi x : Z) : bool := (lo <=? x) && (x <=? hi).

(** [(1 << ((v >> sh) & 1)) << sh] *)
Definition onehot1 (v sh : Z) : Z := Z.shiftl (bit (Z.land (Z.shiftr v sh) 0x1)) sh.
(** [((v >> sh) << 1) & 6 | (v >> sh) & 1] *)
Definition field3 (v sh : Z) : Z :=
  Z.lor (Z.land (wrap 32 (Z.shiftl (Z.shiftr v sh) 1)) 0x6) (Z.land (Z.shiftr v sh) 0x1).

Definition register_read (offset : Z) : ST clkst Z :=
  s ← get;
  let s := cmu s in
  if within 0x000 0x020 offset then deref (rd (lock_data s) (Z.shiftr offset 3))
  else if within 0x100 0x120 offset then deref (rd (conf_data s) (Z.shiftr (offset - 0x100) 3))
  else if within 0x200 0x218 offset then deref (rd (clk_src s) (Z.shiftr (offset - 0x200) 2))
  else if within 0x280 0x284 offset then deref (rd (src_mask s) (Z.shiftr (offset - 0x280) 2))
  else if within 0x300 0x31C offset then deref (rd (clk_div s) (Z.shiftr (offset - 0x300) 2))
  else if within 0x400 0x488 offset then deref (rd (clk_gate s) (Z.shiftr (offset - 0x400) 2))
  else if offset =? 0x500 then mret (clk_out s)
  else if (offset =? 0x1000) || (offset =? 0x1004) then mret 0
  else if offset =? 0x1100 then
    r ← deref (rd (clk_src s) 0);
    mret (foldr Z.lor 0 (map (onehot1 r)
            [ONENAND_SHIFT; MUX133_SHIFT; MUX166_SHIFT; MUX200_SHIFT;
             VPLL_SHIFT; EPLL_SHIFT; MPLL_SHIFT; APLL_SHIFT]))
  else if offset =? 0x1104 then
    r6 ← deref (rd (clk_src s) 6);
    r2 ← deref (rd (clk_src s) 2);
    mret (Z.lor (Z.lor (Z.lor (onehot1 r6 MUX_HPM_SHIFT)
                              (Z.shiftl (field3 r6 MUX_ONEDRAM_SHIFT) 8))
                       (Z.shiftl (field3 r2 MFC_SHIFT) MFC_SHIFT))
                (Z.shiftl (field3 r2 G3D_SHIFT) G3D_SHIFT))
  else hw_error.

(** [a[i] &= m] *)
Definition mask_reg (a : list Z) (i m : Z) : option (list Z) :=
  r ← rd a i; wr a i (Z.land r m).

Definition register_write (offset val : Z) : ST clkst unit :=
  s ← get;
  let c := cmu s in
  if within 0x000 0x020 offset then
    a ← deref (wr (lock_data c) (Z.shiftr offset 3) val);
    set_cmu (fun c => c <| lock_data := a |>)
  else if within 0x100 0x120 offset then
    a ← deref (wr (conf_data c) (Z.shiftr (offset - 0x100) 3) (Z.lor val (bit 29)));
    set_cmu (fun c => c <| conf_data := a |>) ;;
    set_pll_conf offset val ;;
    s5pc1xx_clk_reparent ;;
    s5pc1xx_clk_rate_update
  else if within 0x200 0x218 offset then
    a ← deref (wr (clk_src c) (Z.shiftr (offset - 0x200) 2) val);
    a ← deref (mask_reg a 0 ALL_MUX_BITS_0);
    a ← deref (mask_reg a 5 ALL_MUX_BITS_5);
    set_cmu (fun c => c <| clk_src := a |>) ;;
    s5pc1xx_clk_reparent
  else if within 0x280 0x284 offset then
    a ← deref (wr (src_mask c) (Z.shiftr (offset - 0x280) 2) val);
    set_cmu (fun c => c <| src_mask := a |>)
  else if within 0x300 0x31C offset then
    a ← deref (wr (clk_div c) (Z.shiftr (offset - 0x300) 2) val);
    a ← deref (mask_reg a 0 ALL_DIV_BITS_0);
    a ← deref (mask_reg a 5 ALL_DIV_BITS_5);
    set_cmu (fun c => c <| clk_div := a |>) ;;
    s5pc1xx_clk_rate_update
  else if within 0x400 0x488 offset then
    a ← deref (wr (clk_gate c) (Z.shiftr (offset - 0x400) 2) val);
    set_cmu (fun c => c <| clk_gate := a |>)
  else if offset =? 0x500 then set_cmu (fun c => c <| clk_out := val |>)
  else hw_error.

(** The zeroed device that qdev allocates. *)
Definition clk_zero : clkst :=
  mkClkst (mkCmu (replicate 5 0) (replicate 5 0) (replicate 7 0) (replicate 2 0)
                 (replicate 8 0) (replicate 23 0) 0) onchip_clks.

Definition s5pc1xx_clk_init : ST clkst unit :=
  set_cmu (fun c => c <| clk_div := <[0%nat := 0x14131330]> (clk_div c) |>) ;;
  set_cmu (fun c => c <| clk_src := <[0%nat := 0x10001111]> (clk_src c) |>) ;;
  set_cmu (fun c => c <| clk_src := <[4%nat := 0x66666666]> (clk_src c) |>) ;;
  set_cmu (fun c => c <| clk_src := <[5%nat := 0x777]> (clk_src c) |>) ;;
  set_cmu (fun c => c <| clk_src := <[6%nat := 0x1000000]> (clk_src c) |>) ;;
  s5pc1xx_clk_reparent ;;
  s5pc1xx_clk_rate_update ;;
  register_write APLL_CON 0xA0C80601 ;;
  register_write MPLL_CON 0xA29B0C01 ;;
  register_write EPLL_CON 0xA0600602 ;;
  register_write VPLL_CON 0xA06C0603.

(** ** Invariant *)
(** The fields the code never changes. *)
Definition fixed (c : Clk) : Clk :=
  c <| parent := None |> <| enabled := 0 |> <| rate := 0 |> <| div_val := 0 |>
    <| mult_val := 0 |>.

(** Every multiplexer selects one of its nine inputs. *)
Definition sel_ok (src : list Z) (c : Clk) : bool :=
  match parent_num src c with Some n => n <=? 8 | None => false end.
Definition src_ok (src : list Z) : bool := forallb (sel_ok src) onchip_clks.

Definition words_ok (c : Clk) : Prop :=
  fits 64 (rate c) /\ fits 32 (div_val c) /\ fits 32 (mult_val c).

Record clk_inv (s : clkst) : Prop := {
  inv_lens : length (lock_data (cmu s)) = 5%nat /\ length (conf_data (cmu s)) = 5%nat /\
             length (clk_src (cmu s)) = 7%nat /\ length (src_mask (cmu s)) = 2%nat /\
             length (clk_div (cmu s)) = 8%nat /\ length (clk_gate (cmu s)) = 23%nat;
  inv_fixed : fixed <$> clks s = fixed <$> onchip_clks;
  inv_tree : forall i c p, clks s !! i = Some c -> parent c = Some p -> (p < i)%nat;
  inv_words : Forall words_ok (clks s);
  inv_src0 : forall r, rd (clk_src (cmu s)) 0 = Some r -> Z.land r ALL_MUX_BITS_0 = r;
  inv_sel : src_ok (clk_src (cmu s)) = true
}.

(** What the static data satisfies. *)
Definition static_ok (i : nat) (c : Clk) : bool :=
  within 0 6 (src_reg_num c) && within 0 7 (div_reg_num c) &&
  (length (parents c) =? 9)%nat && (-1 <=? mux_shift c) && (-1 <=? div_shift c) &&
  forallb (fun p => match p with Some p => (p <? i)%nat | None => true end) (parents c) &&
  (negb (NONE <? mux_shift c) || negb (src_reg_num c =? 0) ||
   (Z.land (Z.shiftr ALL_MUX_BITS_0 (mux_shift c)) 0xf =? 1)).
Lemma onchip_static i c : onchip_clks !! i = Some c -> static_ok i c = true.
Proof.
  assert (forallb (fun i => match onchip_clks !! i with Some c => static_ok i c | None => true end)
            (seq 0 28) = true) as H by (vm_compute; reflexivity).
  intros Hi. rewrite forallb_forall in H. specialize (H i). rewrite Hi in H. apply H, in_seq.
  apply lookup_lt_Some in Hi. change (length onchip_clks) with 28%nat in Hi. lia.
Qed.

Lemma fixed_fields c c' : fixed c = fixed c' ->
  name c = name c' /\ parents c = parents c' /\ mux_shift c = mux_shift c' /\
  div_shift c = div_shift c' /\ src_reg_num c = src_reg_num c' /\
  div_reg_num c = div_reg_num c'.
Proof. destruct c, c'. cbn. intros [=]. by subst. Qed.
Lemma fixed_parent_num src c c' : fixed c = fixed c' -> parent_num src c = parent_num src c'.
Proof.
  intros (_ & _ & Hm & _ & Hs & _)%fixed_fields. unfold parent_num. by rewrite Hm, Hs.
Qed.

Lemma clks_onchip (l : list Clk) i c : fixed <$> l = fixed <$> onchip_clks -> l !! i = Some c ->
  exists c0, onchip_clks !! i = Some c0 /\ fixed c = fixed c0.
Proof.
  intros Hf Hi. assert ((fixed <$> onchip_clks) !! i = Some (fixed c)) as H.
  { rewrite <- Hf. change map with (@fmap list list_fmap Clk Clk) in *.
    by rewrite list_lookup_fmap, Hi. }
  apply list_lookup_fmap_Some in H as (c0 & Hc0 & Heq). by exists c0.
Qed.
Lemma clks_static (l : list Clk) i c : fixed <$> l = fixed <$> onchip_clks -> l !! i = Some c ->
  static_ok i c = true.
Proof.
  intros Hf Hi. destruct (clks_onchip l i c Hf Hi) as (c0 & H0 & Heq).
  apply onchip_static in H0. unfold static_ok in *.
  apply fixed_fields in Heq as (_ & -> & -> & -> & -> & ->). done.
Qed.
Lemma fixed_insert (l : list Clk) i c c' : l !! i = Some c -> fixed c' = fixed c ->
  fixed <$> <[i := c']> l = fixed <$> l.
Proof.
  intros Hi Heq. rewrite list_fmap_insert, Heq. apply list_insert_id. by rewrite list_lookup_fmap, Hi.
Qed.

(** A pass over the clocks that rewrites each one in turn; [I i] is what holds when
    the first [i] are done. *)
Lemma wp_clks E (I : nat -> clkst -> Prop) (f : nat -> ST clkst unit) s :
  (fixed <$> clks s) = (fixed <$> onchip_clks) -> I 0%nat s ->
  (forall i c s', clks s' !! i = Some c -> static_ok i c = true ->
     (fixed <$> clks s') = (fixed <$> onchip_clks) -> I i s' ->
     wp E (f i) (fun _ s'' => (fixed <$> clks s'') = (fixed <$> onchip_clks) /\ I (S i) s'') s') ->
  wp E (for_each (seq 0 (length (clks s))) f)
     (fun _ s' => (fixed <$> clks s') = (fixed <$> onchip_clks) /\ I 28%nat s') s.
Proof.
  intros Hf HI Hstep.
  assert (length (clks s) = 28%nat) as Hlen
    by (rewrite <- (length_fmap fixed), Hf; reflexivity). rewrite Hlen.
  pose proof (wp_for_each_seq E (fun i s' => (fixed <$> clks s') = (fixed <$> onchip_clks) /\ I i s')
                0 28 f s) as H.
  apply H; [done|]. intros i s' Hi [Hf' HI'].
  assert (length (clks s') = 28%nat) as Hlen'
    by (rewrite <- (length_fmap fixed), Hf'; reflexivity).
  destruct (lookup_lt_is_Some_2 (clks s') i) as [c Hc]; [lia|].
  apply (Hstep i c); try done. by eapply clks_static.
Qed.

Definition unparented (c : Clk) : Clk := c <| parent := None |>.

Lemma rd_parent src i c n : static_ok i c = true -> parent_num src c = Some n -> n <= 8 ->
  exists p, rd (parents c) n = Some p /\ (forall j, p = Some j -> (j < i)%nat).
Proof.
  unfold static_ok. intros H Hn Hle. rewrite !andb_true_iff in H.
  destruct H as [[[[[_ Hlen] _] _] Hps] _]. apply Nat.eqb_eq in Hlen.
  assert (0 <= n) as H0.
  { unfold parent_num in Hn. destruct (NONE <? mux_shift c); [|by simplify_eq].
    destruct (rd src _); simplify_eq/=. apply Z.land_nonneg. by right. }
  destruct (rd_Some (parents c) n) as (p & Hp & Hl); [lia|].
  exists p. split; [done|]. intros j ->. apply Nat.ltb_lt.
  rewrite forallb_forall in Hps. apply (Hps (Some j)).
  apply list_elem_of_In. by eapply list_elem_of_lookup_2.
Qed.

(** Re-parenting follows the multiplexers when each selects an existing input. *)
Lemma reparent_spec s :
  (fixed <$> clks s) = (fixed <$> onchip_clks) -> src_ok (clk_src (cmu s)) = true ->
  wp no_err s5pc1xx_clk_reparent (fun _ s' =>
    cmu s' = cmu s /\ (fixed <$> clks s') = (fixed <$> onchip_clks) /\
    (unparented <$> clks s') = (unparented <$> clks s) /\
    (forall i c, clks s' !! i = Some c ->
       exists n, parent_num (clk_src (cmu s)) c = Some n /\ rd (parents c) n = Some (parent c) /\
                 (forall p, parent c = Some p -> (p < i)%nat))) s.
Proof.
  intros Hf Hsrc. unfold s5pc1xx_clk_reparent. wp_steps.
  eapply wp_mono; [apply (wp_clks _ (fun k s' => cmu s' = cmu s /\
    (unparented <$> clks s') = (unparented <$> clks s) /\
    forall i c, (i < k)%nat -> clks s' !! i = Some c ->
       exists n, parent_num (clk_src (cmu s)) c = Some n /\ rd (parents c) n = Some (parent c) /\
                 (forall p, parent c = Some p -> (p < i)%nat))); [done| |]|].
  - split; [done|]. split; [done|]. intros i c Hi. lia.
  - intros i c s' Hc Hst Hf' (Hcmu & Hun & Hdone). unfold the_clk. wp_steps.
    eapply deref_wp; [done|]. wp_steps. rewrite Hcmu.
    destruct (clks_onchip _ _ _ Hf' Hc) as (c0 & Hc0 & Heq).
    unfold src_ok in Hsrc. rewrite forallb_forall in Hsrc.
    specialize (Hsrc c0). unfold sel_ok in Hsrc.
    rewrite <- (fixed_parent_num _ c c0) in Hsrc by done.
    destruct (parent_num (clk_src (cmu s)) c) as [n|] eqn:Hn; [|by discriminate Hsrc;
      apply list_elem_of_In; eapply list_elem_of_lookup_2].
    assert (n <= 8) by (apply Z.leb_le, Hsrc, list_elem_of_In; by eapply list_elem_of_lookup_2).
    destruct (rd_parent _ _ _ _ Hst Hn) as (p & Hp & Hlt); [done|].
    eapply deref_wp; [done|]. wp_step. eapply deref_wp; [done|]. unfold set_clk. wp_steps.
    cbn [clks cmu upd]. split; [by erewrite fixed_insert by done|]. split; [done|]. split.
    + rewrite list_fmap_insert. rewrite list_insert_id; [done|].
      by rewrite list_lookup_fmap, Hc.
    + intros j d Hj Hd. destruct (decide (j = i)) as [->|Hne].
      * rewrite list_lookup_insert_eq in Hd by (by eapply lookup_lt_Some). simplify_eq.
        exists n. split; [by rewrite <- Hn; apply fixed_parent_num|]. done.
      * rewrite list_lookup_insert_ne in Hd by done. apply (Hdone j); [lia|done].
  - intros [] s' (Hf' & Hcmu & Hun & Hall). split_and!; try done.
    intros i c Hc. apply Hall; [|done].
    apply lookup_lt_Some in Hc. rewrite <- (length_fmap fixed), Hf' in Hc.
    change (length (fixed <$> onchip_clks)) with 28%nat in Hc. lia.
Qed.

(** A multiplexer that selects beyond the array of inputs reads out of bounds. *)
Lemma reparent_fault s :
  (fixed <$> clks s) = (fixed <$> onchip_clks) -> src_ok (clk_src (cmu s)) = false ->
  wp (eq Fault) s5pc1xx_clk_reparent (fun _ _ => False) s.
Proof.
  intros Hf Hsrc. unfold s5pc1xx_clk_reparent. wp_steps.
  eapply wp_mono; [apply (wp_clks _ (fun k s' => cmu s' = cmu s /\
    forall i c, (i < k)%nat -> onchip_clks !! i = Some c -> sel_ok (clk_src (cmu s)) c = true));
    [done| |]|].
  - split; [done|]. intros i c Hi. lia.
  - intros i c s' Hc Hst Hf' (Hcmu & Hdone). unfold the_clk. wp_steps.
    eapply deref_wp; [done|]. wp_steps. rewrite Hcmu.
    destruct (clks_onchip _ _ _ Hf' Hc) as (c0 & Hc0 & Heq).
    destruct (parent_num (clk_src (cmu s)) c) as [n|] eqn:Hn; [|done]. wp_steps.
    destruct (rd (parents c) n) as [p|] eqn:Hp; [|done]. unfold set_clk. wp_steps.
    cbn [clks cmu upd]. split; [by erewrite fixed_insert by done|]. split; [done|].
    intros j d Hj Hd. destruct (decide (j = i)) as [->|Hne]; [|apply (Hdone j); [lia|done]].
    assert (d = c0) as -> by congruence.
    unfold sel_ok. rewrite <- (fixed_parent_num _ c c0), Hn by done.
    apply rd_bound in Hp. unfold static_ok in Hst. rewrite !andb_true_iff in Hst.
    destruct Hst as [[[[[_ Hlen%Nat.eqb_eq] _] _] _] _]. apply Z.leb_le. lia.
  - intros [] s' (Hf' & Hcmu & Hall). apply not_true_iff_false in Hsrc. apply Hsrc.
    apply forallb_forall. intros c Hc%list_elem_of_In. apply list_elem_of_lookup in Hc as [i Hi].
    apply (Hall i); [|done]. apply lookup_lt_Some in Hi.
    change (length onchip_clks) with 28%nat in Hi. lia.
Qed.

(** ** Rates *)
(** Clock [c] runs at its parent's rate times [mult_val] over [div_val], and
    [div_val] is the register's field plus one where the clock has a divider. *)
Definition rate_ok (s : clkst) (c : Clk) : Prop :=
  (NONE < div_shift c -> exists r, rd (clk_div (cmu s)) (div_reg_num c) = Some r /\
     div_val c = Z.land (Z.shiftr r (div_shift c)) 0xf + 1) /\
  0 < div_val c /\ 0 < mult_val c /\
  forall p, parent c = Some p ->
    exists pc, clks s !! p = Some pc /\ rate c = (rate pc * mult_val c / div_val c) mod 2 ^ 64.

Lemma elvis_pos x : fits 32 x -> 0 < elvis x 1 /\ fits 32 (elvis x 1).
Proof. unfold elvis, fits, truth. intros H. destruct (Z.eqb_spec x 0); simpl; lia. Qed.
Lemma field_fits r sh : 0 < Z.land (Z.shiftr r sh) 0xf + 1 /\ fits 32 (Z.land (Z.shiftr r sh) 0xf + 1).
Proof.
  change 0xf with (Z.ones 4). rewrite Z.land_ones by lia. unfold fits.
  pose proof (Z.mod_pos_bound (Z.shiftr r sh) (2 ^ 4)). lia.
Qed.
Lemma muldiv64_fits a b c : fits 64 a -> fits 32 b -> 0 < c -> fits 32 c ->
  muldiv64 a b c = (a * b / c) mod 2 ^ 64 /\ fits 64 (muldiv64 a b c).
Proof.
  intros Ha Hb Hc Hc'. rewrite muldiv64_val by (unfold fits in *; done || lia).
  split; [done|]. by apply (fits_wrap 64).
Qed.

(** What one step of the pass computes. *)
Definition updated_clk (s : clkst) (c c' : Clk) : Prop :=
  fixed c' = fixed c /\ parent c' = parent c /\ words_ok c' /\ rate_ok s c' /\
  (parent c = None -> rate c' = rate c).

Lemma clk_rate_update_spec i c s :
  clks s !! i = Some c -> static_ok i c = true -> (forall p, parent c = Some p -> (p < i)%nat) ->
  Forall words_ok (clks s) -> length (clk_div (cmu s)) = 8%nat ->
  wp no_err (clk_rate_update i) (fun _ s' => exists c',
    cmu s' = cmu s /\ clks s' = <[i := c']> (clks s) /\ updated_clk s c c') s.
Proof.
  intros Hc Hst Hp Hw Hlen. assert (words_ok c) as (Hr & Hd & Hm) by (by eapply Forall_lookup_1).
  destruct (elvis_pos _ Hd) as [Hd0 Hd1], (elvis_pos _ Hm) as [Hm0 Hm1].
  unfold clk_rate_update, the_clk. wp_steps. eapply deref_wp; [done|]. wp_steps.
  set (cur := c <| div_val := _ |> <| mult_val := _ |>).
  apply (wp_mono _ _ (fun cur' s' => s' = s /\ fixed cur' = fixed c /\ parent cur' = parent c /\
    rate cur' = rate c /\ words_ok cur' /\ 0 < div_val cur' /\ 0 < mult_val cur' /\
    (NONE < div_shift cur' -> exists r, rd (clk_div (cmu s)) (div_reg_num cur') = Some r /\
       div_val cur' = Z.land (Z.shiftr r (div_shift cur')) 0xf + 1))).
  { unfold static_ok in Hst. rewrite !andb_true_iff in Hst.
    destruct Hst as [[[[[[_ Hdr] _] _] _] _] _]. unfold within in Hdr.
    wp_if as Hs.
    - destruct (rd_Some (clk_div (cmu s)) (div_reg_num c)) as (r & Hrd & _); [lia|].
      wp_step. eapply deref_wp; [exact Hrd|]. wp_step. destruct (field_fits r (div_shift c)).
      split_and!; try done. intros _. by exists r.
    - wp_step. split_and!; try done. intros Hs'. apply Z.ltb_ge in Hs. lia. }
  intros cur' s' (-> & Hfx & Hpa & Hra & (Hw1 & Hw2 & Hw3) & Hdp & Hmp & Hdv).
  clearbody cur. wp_step. rewrite Hpa. destruct (parent c) as [p|] eqn:Hpc.
  - specialize (Hp p eq_refl). destruct (lookup_lt_is_Some_2 (clks s) p) as [pc Hpp].
    { apply lookup_lt_Some in Hc. lia. }
    wp_steps. eapply deref_wp; [done|]. unfold set_clk. wp_steps.
    assert (words_ok pc) as (Hpr & _) by (by eapply Forall_lookup_1).
    destruct (muldiv64_fits (rate pc) (mult_val cur') (div_val cur')) as [Hmd Hmf]; [done..|].
    eexists. split; [done|]. split; [done|].
    split; [by rewrite <- Hfx|]. split; [cbn; congruence|]. split; [done|]. split; [|by rewrite Hpc].
    split; [exact Hdv|]. split; [done|]. split; [done|].
    intros q Hq. cbn in Hq. assert (q = p) as -> by congruence. exists pc. split; [done|exact Hmd].
  - unfold set_clk. wp_steps. exists cur'. split; [done|]. split; [done|].
    split; [done|]. split; [congruence|]. split; [done|]. split; [|by intros].
    split; [exact Hdv|]. split; [done|]. split; [done|]. intros q Hq. congruence.
Qed.

(** Rewriting clock [i] does not disturb a clock whose parent comes before [i]. *)
Lemma rate_ok_insert s s' i c' d :
  cmu s' = cmu s -> clks s' = <[i := c']> (clks s) ->
  (forall p, parent d = Some p -> (p < i)%nat) -> rate_ok s d -> rate_ok s' d.
Proof.
  intros Hcmu Hcl Hp (H1 & H2 & H3 & H4). split; [by rewrite Hcmu|]. split; [done|]. split; [done|].
  intros p Hpp. destruct (H4 p Hpp) as (pc & Hpc & Hr). exists pc. split; [|done].
  rewrite Hcl, list_lookup_insert_ne; [done|]. specialize (Hp p Hpp). lia.
Qed.

Lemma rate_update_spec s :
  (fixed <$> clks s) = (fixed <$> onchip_clks) ->
  (forall i c p, clks s !! i = Some c -> parent c = Some p -> (p < i)%nat) ->
  Forall words_ok (clks s) -> length (clk_div (cmu s)) = 8%nat ->
  wp no_err s5pc1xx_clk_rate_update (fun _ s' =>
    cmu s' = cmu s /\ (fixed <$> clks s') = (fixed <$> onchip_clks) /\
    (parent <$> clks s') = (parent <$> clks s) /\ Forall words_ok (clks s') /\
    Forall (rate_ok s') (clks s')) s.
Proof.
  intros Hf Htree Hw Hlen. unfold s5pc1xx_clk_rate_update. wp_steps.
  eapply wp_mono; [apply (wp_clks _ (fun k s' => cmu s' = cmu s /\
    (parent <$> clks s') = (parent <$> clks s) /\ Forall words_ok (clks s') /\
    forall i c, (i < k)%nat -> clks s' !! i = Some c -> rate_ok s' c)); [done| |]|].
  - split_and!; [done..|]. intros i c Hi. lia.
  - intros i c s' Hc Hst Hf' (Hcmu & Hpar & Hw' & Hdone).
    assert (forall j d p, clks s' !! j = Some d -> parent d = Some p -> (p < j)%nat) as Htree'.
    { intros j d p Hd Hp.
      assert ((parent <$> clks s) !! j = Some (Some p)) as H by (by rewrite <- Hpar, list_lookup_fmap, Hd, <- Hp).
      apply list_lookup_fmap_Some in H as (d' & Hd' & Hp'). by eapply Htree. }
    eapply wp_mono; [apply clk_rate_update_spec; try done; [intros p Hp; by eapply Htree'|by rewrite Hcmu]|].
    intros [] s'' (c' & Hcmu'' & Hcl & Hfx & Hpa & Hwd & Hrok & _).
    assert (i < length (clks s'))%nat as Hi by (by eapply lookup_lt_Some).
    split; [rewrite Hcl; by erewrite fixed_insert by done|]. split; [congruence|]. split.
    { rewrite Hcl, list_fmap_insert, Hpa, list_insert_id; [done|]. by rewrite list_lookup_fmap, Hc. }
    split; [rewrite Hcl; by apply Forall_insert|].
    intros j d Hj Hd. rewrite Hcl in Hd. destruct (decide (j = i)) as [->|Hne].
    + rewrite list_lookup_insert_eq in Hd by done. simplify_eq.
      eapply (rate_ok_insert s' s'' i); try done. intros p Hp. rewrite Hpa in Hp. by eapply Htree'.
    + rewrite list_lookup_insert_ne in Hd by done.
      apply (rate_ok_insert s' s'' i c'); try done; [|apply (Hdone j); [lia|done]].
      intros p Hp. specialize (Htree' _ _ _ Hd Hp). lia.
  - intros [] s' (Hf' & Hcmu & Hpar & Hw' & Hall). split_and!; try done.
    apply Forall_lookup. intros i c Hc. apply (Hall i); [|done].
    apply lookup_lt_Some in Hc. rewrite <- (length_fmap fixed), Hf' in Hc.
    change (length (fixed <$> onchip_clks)) with 28%nat in Hc. lia.
Qed.

(** ** Writes *)
Definition sel_field (v sh : Z) : Z := Z.land (Z.shiftr v sh) 0xf.

(** The writes that stay within C: the APLL exponent is not zero (it is decremented
    and used as a shift count), no multiplexer selects beyond its nine inputs, and
    the gating register exists. *)
Definition write_defined (offset val : Z) : bool :=
  if within 0x100 0x120 offset
  then negb (within 0x100 0x107 offset && (Z.land val 0x7 =? 0))
  else if within 0x200 0x218 offset then
    let k := Z.shiftr (offset - 0x200) 2 in
    if k =? 5 then sel_field val MUX_PWM_SHIFT <=? 8
    else if k =? 6 then forallb (fun sh => sel_field val sh <=? 8)
                          [MUX_AUDIO_0_SHIFT; MUX_AUDIO_1_SHIFT; MUX_AUDIO_2_SHIFT; MUX_SPDIF_SHIFT]
    else true
  else if within 0x400 0x488 offset then offset <? 0x45C
  else true.

(** The multiplexers of the tree, as (register, shift). *)
Definition mux_of (c : Clk) : list (Z * Z) :=
  if NONE <? mux_shift c then [(src_reg_num c, mux_shift c)] else [].
Definition mux_ok (src : list Z) (m : Z * Z) : bool :=
  match rd src m.1 with Some v => sel_field v m.2 <=? 8 | None => false end.
Lemma src_ok_muxes src : src_ok src = forallb (mux_ok src) (flat_map mux_of onchip_clks).
Proof.
  unfold src_ok. induction onchip_clks as [|c l IH]; [done|]. simpl.
  rewrite forallb_app, IH. f_equal. unfold sel_ok, parent_num, mux_of.
  destruct (NONE <? mux_shift c); [|done]. simpl. unfold mux_ok. simpl.
  by destruct (rd src (src_reg_num c)); rewrite ?andb_true_r.
Qed.

Lemma mux0_field v sh : Z.land v ALL_MUX_BITS_0 = v ->
  sh ∈ [0; 4; 8; 12; 16; 20; 24; 28] -> (sel_field v sh <=? 8) = true.
Proof.
  intros Hv Hsh. unfold sel_field. rewrite <- Hv, Z.shiftr_land, <- Z.land_assoc.
  assert (Z.land (Z.shiftr ALL_MUX_BITS_0 sh) 0xf = 1) as ->.
  { repeat (apply elem_of_cons in Hsh as [->|Hsh]; [reflexivity|]). by apply elem_of_nil in Hsh. }
  change 1 with (Z.ones 1). rewrite Z.land_ones by lia.
  pose proof (Z.mod_pos_bound (Z.shiftr v sh) (2 ^ 1)). apply Z.leb_le. lia.
Qed.
Lemma src_ok_fields src r0 r5 r6 :
  rd src 0 = Some r0 -> rd src 5 = Some r5 -> rd src 6 = Some r6 ->
  Z.land r0 ALL_MUX_BITS_0 = r0 ->
  src_ok src = (sel_field r5 MUX_PWM_SHIFT <=? 8) &&
    forallb (fun sh => sel_field r6 sh <=? 8)
      [MUX_AUDIO_0_SHIFT; MUX_AUDIO_1_SHIFT; MUX_AUDIO_2_SHIFT; MUX_SPDIF_SHIFT].
Proof.
  intros H0 H5 H6 Hm. rewrite src_ok_muxes.
  change (flat_map mux_of onchip_clks) with
    [(0, 0); (0, 4); (0, 8); (0, 12); (0, 24); (0, 20); (0, 16); (5, 12);
     (6, 0); (6, 4); (6, 8); (6, 12)].
  cbn [forallb]. unfold mux_ok. cbn [fst snd]. rewrite H0, H5, H6.
  rewrite !(mux0_field r0) by (done || set_solver). done.
Qed.

Lemma mask_reg_spec a i m : 0 <= i < Z.of_nat (length a) ->
  exists r a', rd a i = Some r /\ mask_reg a i m = Some a' /\ length a' = length a /\
    forall j, rd a' j = if i =? j then Some (Z.land r m) else rd a j.
Proof.
  intros Hi. destruct (rd_Some a i Hi) as (r & Hr & _). exists r.
  unfold mask_reg. rewrite Hr. cbn [mbind option_bind].
  eexists. split; [done|]. split; [by apply wr_Some|]. split; [apply length_insert|].
  intros j. apply (rd_wr a _ i j). by apply wr_Some.
Qed.
Lemma sel_field_mask5 v : sel_field (Z.land v ALL_MUX_BITS_5) MUX_PWM_SHIFT = sel_field v MUX_PWM_SHIFT.
Proof. unfold sel_field. by rewrite Z.shiftr_land, <- Z.land_assoc. Qed.

(** The selectors after a write of register [k] of CLK_SRC. *)
Lemma src_write src k val r0 :
  length src = 7%nat -> 0 <= k <= 6 -> src_ok src = true -> rd src 0 = Some r0 ->
  Z.land r0 ALL_MUX_BITS_0 = r0 ->
  exists a1 a2 a3, wr src k val = Some a1 /\ mask_reg a1 0 ALL_MUX_BITS_0 = Some a2 /\
    mask_reg a2 5 ALL_MUX_BITS_5 = Some a3 /\ length a3 = 7%nat /\
    (forall r, rd a3 0 = Some r -> Z.land r ALL_MUX_BITS_0 = r) /\
    src_ok a3 = (if k =? 5 then sel_field val MUX_PWM_SHIFT <=? 8
                 else if k =? 6 then forallb (fun sh => sel_field val sh <=? 8)
                   [MUX_AUDIO_0_SHIFT; MUX_AUDIO_1_SHIFT; MUX_AUDIO_2_SHIFT; MUX_SPDIF_SHIFT]
                 else true).
Proof.
  intros Hlen Hk Hok H0 Hm0.
  destruct (rd_Some src 5) as (r5 & H5 & _); [lia|]. destruct (rd_Some src 6) as (r6 & H6 & _); [lia|].
  rewrite (src_ok_fields src r0 r5 r6) in Hok by done. apply andb_true_iff in Hok as [Hok5 Hok6].
  assert (wr src k val = Some (<[Z.to_nat k := val]> src)) as Hw by (apply wr_Some; lia).
  set (a1 := <[Z.to_nat k := val]> src) in *.
  assert (length a1 = 7%nat) as L1 by (by rewrite <- Hlen; eapply wr_length).
  destruct (mask_reg_spec a1 0 ALL_MUX_BITS_0) as (q0 & a2 & Hq0 & Ha2 & L2 & R2); [lia|].
  destruct (mask_reg_spec a2 5 ALL_MUX_BITS_5) as (q5 & a3 & Hq5 & Ha3 & L3 & R3); [lia|].
  exists a1, a2, a3. split; [done|]. split; [done|]. split; [done|]. split; [congruence|].
  assert (rd a3 0 = Some (Z.land q0 ALL_MUX_BITS_0)) as H30 by (rewrite R3, R2; done).
  assert (Z.land (Z.land q0 ALL_MUX_BITS_0) ALL_MUX_BITS_0 = Z.land q0 ALL_MUX_BITS_0) as Hid
    by (by rewrite <- Z.land_assoc, Z.land_diag).
  split; [intros r Hr; by simplify_eq|].
  assert (rd a3 6 = Some (if k =? 6 then val else r6)) as H36.
  { rewrite R3, R2. cbn [Z.eqb Pos.eqb]. rewrite (rd_wr _ _ _ _ _ Hw). destruct (k =? 6); done. }
  assert (q5 = if k =? 5 then val else r5) as ->.
  { rewrite R2 in Hq5. cbn [Z.eqb Pos.eqb] in Hq5. rewrite (rd_wr _ _ _ _ _ Hw) in Hq5.
    destruct (k =? 5); congruence. }
  rewrite (src_ok_fields a3 _ _ _ H30 (R3 5) H36 Hid), sel_field_mask5.
  destruct (Z.eqb_spec k 5) as [->|];
    [change (if 5 =? 6 then val else r6) with r6; by rewrite Hok6, andb_true_r|].
  rewrite Hok5. destruct (Z.eqb_spec k 6); [done|]. by rewrite Hok6.
Qed.

(** ** The invariant is preserved *)
Lemma fmap_lookup_inv {A B} (f : A -> B) (l l' : list A) i x :
  f <$> l' = f <$> l -> l' !! i = Some x -> exists y, l !! i = Some y /\ f y = f x.
Proof.
  intros Hf Hi. assert ((f <$> l) !! i = Some (f x)) as H by (by rewrite <- Hf, list_lookup_fmap, Hi).
  apply list_lookup_fmap_Some in H as (y & Hy & Heq). by exists y.
Qed.

Lemma inv_reparent s : clk_inv s ->
  wp no_err s5pc1xx_clk_reparent (fun _ s' => clk_inv s' /\ cmu s' = cmu s /\
    (rate <$> clks s') = (rate <$> clks s)) s.
Proof.
  intros [Hl Hf Ht Hw H0 Hs]. eapply wp_mono; [by apply reparent_spec|].
  intros [] s' (Hcmu & Hf' & Hun & Hall). split; [|split; [done|]].
  - constructor; rewrite ?Hcmu; try done.
    + intros i c p Hc Hp. destruct (Hall i c Hc) as (n & _ & _ & Hlt). by apply Hlt.
    + apply Forall_lookup. intros i c Hc. destruct (fmap_lookup_inv _ _ _ _ _ Hun Hc) as (d & Hd & Heq).
      assert (words_ok d) as Hwd by (by eapply Forall_lookup_1). destruct c, d. by simplify_eq/=.
  - assert (forall l, rate <$> l = rate <$> (unparented <$> l)) as H
      by (intros l; rewrite <- list_fmap_compose; by apply list_fmap_ext).
    by rewrite H, Hun, <- H.
Qed.

Lemma inv_rate_update s : clk_inv s ->
  wp no_err s5pc1xx_clk_rate_update (fun _ s' => clk_inv s' /\ Forall (rate_ok s') (clks s')) s.
Proof.
  intros [Hl Hf Ht Hw H0 Hs]. eapply wp_mono; [apply rate_update_spec; try done; apply Hl|].
  intros [] s' (Hcmu & Hf' & Hpa & Hw' & Hall). split; [|done].
  constructor; rewrite ?Hcmu; try done. intros i c p Hc Hp.
  destruct (fmap_lookup_inv _ _ _ _ _ Hpa Hc) as (d & Hd & Heq). eapply (Ht i d); [done|congruence].
Qed.

Lemma inv_set_clk s i c c' : clk_inv s -> clks s !! i = Some c ->
  fixed c' = fixed c -> parent c' = parent c -> words_ok c' ->
  clk_inv (s <| clks := <[i := c']> (clks s) |>).
Proof.
  intros [Hl Hf Ht Hw H0 Hs] Hc Hfx Hpa Hwd. constructor; cbn; try done.
  - by erewrite fixed_insert.
  - intros j d p Hd Hp. destruct (decide (j = i)) as [->|Hne].
    + rewrite list_lookup_insert_eq in Hd by (by eapply lookup_lt_Some). simplify_eq.
      eapply (Ht i c); [done|congruence].
    + rewrite list_lookup_insert_ne in Hd by done. by eapply Ht.
  - by apply Forall_insert.
Qed.

(** A change of registers other than the selectors. *)
Lemma inv_set_regs s f : clk_inv s -> clk_src (f (cmu s)) = clk_src (cmu s) ->
  length (lock_data (f (cmu s))) = 5%nat /\ length (conf_data (f (cmu s))) = 5%nat /\
  length (src_mask (f (cmu s))) = 2%nat /\ length (clk_div (f (cmu s))) = 8%nat /\
  length (clk_gate (f (cmu s))) = 23%nat ->
  clk_inv (s <| cmu := f (cmu s) |>).
Proof.
  intros [Hl Hf Ht Hw H0 Hs] Hsrc Hls. constructor; cbn; rewrite ?Hsrc; try done. tauto.
Qed.
(** A change of the selectors to ones that are in range. *)
Lemma inv_set_src s a : clk_inv s -> length a = 7%nat ->
  (forall r, rd a 0 = Some r -> Z.land r ALL_MUX_BITS_0 = r) -> src_ok a = true ->
  clk_inv (s <| cmu := (cmu s) <| clk_src := a |> |>).
Proof.
  intros [Hl Hf Ht Hw H0 Hs] Hla Ha0 Ha. constructor; cbn; try done. tauto.
Qed.

Lemma clk_exists s i : clk_inv s -> (i < 28)%nat -> exists c, clks s !! i = Some c.
Proof.
  intros Hi Hlt. apply lookup_lt_is_Some_2. rewrite <- (length_fmap fixed), (inv_fixed s Hi). done.
Qed.

(** The mask of the selectors is closed under setting and clearing its bits. *)
Lemma mux_mask_set r sh : sh ∈ [0; 4; 8; 12] -> Z.land r ALL_MUX_BITS_0 = r ->
  Z.land (Z.lor r (bit sh)) ALL_MUX_BITS_0 = Z.lor r (bit sh) /\
  Z.land (Z.land r (not32 (bit sh))) ALL_MUX_BITS_0 = Z.land r (not32 (bit sh)).
Proof.
  intros Hsh Hr. split.
  - rewrite Z.land_lor_distr_l, Hr. f_equal.
    repeat (apply elem_of_cons in Hsh as [->|Hsh]; [reflexivity|]). by apply elem_of_nil in Hsh.
  - rewrite <- Z.land_assoc, (Z.land_comm (not32 _)), Z.land_assoc, Hr. done.
Qed.

Lemma pll_case_inv s pll mux val sdiv : clk_inv s -> fits 32 val -> 0 <= sdiv <= 7 ->
  (pll < 28)%nat -> mux ∈ [10; 11; 12; 13]%nat ->
  wp no_err (pll_case pll mux val sdiv) (fun _ => clk_inv) s.
Proof.
  intros Hs Hv Hsd Hp Hm. unfold pll_case, the_clk, set_clk, set_cmu. wp_steps.
  destruct (clk_exists s pll Hs Hp) as [c Hc]. eapply deref_wp; [done|]. wp_steps.
  set (s1 := s <| clks := _ |>).
  assert (clk_inv s1) as Hs1.
  { eapply inv_set_clk; try done. by apply (Forall_lookup_1 _ _ _ _ (inv_words s Hs) Hc). }
  clearbody s1. clear s Hs c Hc.
  assert (mux < 28)%nat as Hm28 by (repeat (apply elem_of_cons in Hm as [->|Hm]; [lia|]); by apply elem_of_nil in Hm).
  destruct (clk_exists s1 mux Hs1 Hm28) as [m Hmx]. eapply deref_wp; [done|]. wp_steps.
  assert (mux_shift m ∈ [0; 4; 8; 12]) as Hsh.
  { destruct (clks_onchip _ _ _ (inv_fixed s1 Hs1) Hmx) as (m0 & Hm0 & Heq).
    apply fixed_fields in Heq as (_ & _ & -> & _).
    repeat (apply elem_of_cons in Hm as [->|Hm]; [injection Hm0 as <-; cbn; set_solver|]).
    by apply elem_of_nil in Hm. }
  destruct (inv_lens s1 Hs1) as (_ & _ & Hlen & _).
  destruct (rd_Some (clk_src (cmu s1)) 0) as (r0 & Hr0 & _); [lia|].
  destruct (rd_Some (clk_src (cmu s1)) 5) as (r5 & Hr5 & _); [lia|].
  destruct (rd_Some (clk_src (cmu s1)) 6) as (r6 & Hr6 & _); [lia|].
  eapply deref_wp; [done|]. wp_step.
  pose proof (inv_src0 s1 Hs1 _ Hr0) as Hmask. destruct (mux_mask_set r0 _ Hsh Hmask) as [Hset Hclr].
  set (nr := if truth _ then _ else _).
  assert (Z.land nr ALL_MUX_BITS_0 = nr) as Hnr by (subst nr; by destruct (truth _)).
  eapply deref_wp; [apply wr_Some; lia|]. wp_steps.
  set (src' := <[Z.to_nat 0 := nr]> (clk_src (cmu s1))) in *.
  assert (wr (clk_src (cmu s1)) 0 nr = Some src') as Hw by (apply wr_Some; lia).
  set (s2 := s1 <| cmu := _ |>).
  assert (clk_inv s2) as Hs2.
  { assert (rd src' 0 = Some nr) as H0 by (by rewrite (rd_wr _ _ _ _ _ Hw)).
    apply inv_set_src; [done|by subst src'; rewrite length_insert| |].
    - intros r Hr. congruence.
    - pose proof (inv_sel s1 Hs1) as Hok. rewrite (src_ok_fields _ r0 r5 r6) in Hok by done.
      rewrite (src_ok_fields _ nr r5 r6); try done; by rewrite (rd_wr _ _ _ _ _ Hw). }
  unfold shl. destruct (Z.ltb_spec sdiv 0); [lia|]. wp_steps.
  unfold s5pc1xx_clk_setrate, the_clk, set_clk. wp_steps.
  destruct (clk_exists s2 pll Hs2 Hp) as [c Hc]. eapply deref_wp; [done|]. wp_steps.
  destruct (Forall_lookup_1 _ _ _ _ (inv_words s2 Hs2) Hc) as (Hw1 & Hw2 & Hw3).
  eapply inv_set_clk; try done. split; [done|]. cbn. split.
  - change 0x3F with (Z.ones 6). rewrite Z.land_ones, Z.shiftl_mul_pow2 by lia.
    pose proof (Z.mod_pos_bound (Z.shiftr val 8) (2 ^ 6) ltac:(lia)).
    assert (1 <= 2 ^ sdiv <= 2 ^ 7) by (split; [|apply Z.pow_le_mono_r]; lia).
    unfold fits. nia.
  - change 0x3FF with (Z.ones 10). rewrite Z.land_ones by lia.
    pose proof (Z.mod_pos_bound (Z.shiftr val 16) (2 ^ 10) ltac:(lia)). unfold fits. lia.
Qed.

Lemma within_spec lo hi x : within lo hi x = true <-> lo <= x <= hi.
Proof. unfold within. rewrite andb_true_iff, !Z.leb_le. done. Qed.
Lemma idx_bound lo hi n off : 0 <= n -> within lo hi off = true ->
  0 <= Z.shiftr (off - lo) n <= (hi - lo) / 2 ^ n.
Proof.
  intros Hn H%within_spec. rewrite Z.shiftr_div_pow2 by done.
  split; [apply Z.div_pos; lia|]. apply Z.div_le_mono; lia.
Qed.

Definition sets_rates (offset : Z) : bool := within 0x100 0x120 offset || within 0x300 0x31C offset.

(** What every write that stays within C achieves. *)
Definition write_post (s : clkst) (offset : Z) (s' : clkst) : Prop :=
  clk_inv s' /\ (sets_rates offset = true -> Forall (rate_ok s') (clks s')) /\
  (sets_rates offset = false -> (rate <$> clks s') = (rate <$> clks s)).

(** Storing one word of a register array that is not a selector. *)
Lemma store_reg s offset a i v (set : list Z -> CmuStat -> CmuStat) :
  clk_inv s -> sets_rates offset = false -> 0 <= i < Z.of_nat (length a) ->
  (forall a', length a' = length a -> clk_inv (s <| cmu := set a' (cmu s) |>)) ->
  wp only_hw (a' ← deref (wr a i v); set_cmu (set a')) (fun _ => write_post s offset) s.
Proof.
  intros Hs Hn Hi Hset. wp_steps. eapply deref_wp; [by apply wr_Some|].
  unfold set_cmu. wp_steps. split; [apply Hset, length_insert|]. by rewrite Hn.
Qed.

Lemma pll_write s offset val : clk_inv s -> fits 32 val -> within 0x100 0x120 offset = true ->
  negb (within 0x100 0x107 offset && (Z.land val 0x7 =? 0)) = true ->
  wp only_hw (set_pll_conf offset val ;; s5pc1xx_clk_reparent ;; s5pc1xx_clk_rate_update)
     (fun _ s' => clk_inv s' /\ Forall (rate_ok s') (clks s')) s.
Proof.
  intros Hs Hv Hoff Hdef. wp_step.
  apply (wp_mono _ _ (fun _ => clk_inv)).
  2: { intros [] s1 Hs1. wp_step. apply wp_no_err. eapply wp_mono; [by apply inv_reparent|].
       intros [] s2 (Hs2 & _). by apply wp_no_err, inv_rate_update. }
  assert (0 <= Z.land val 0x7 <= 7) as H7.
  { change (Z.land val 0x7) with (Z.land val (Z.ones 3)). rewrite Z.land_ones by lia.
    pose proof (Z.mod_pos_bound val (2 ^ 3) ltac:(lia)). lia. }
  pose proof (idx_bound 0x100 0x120 3 offset ltac:(lia) Hoff) as Hk.
  unfold set_pll_conf. cbv zeta. destruct (Z.eqb_spec (Z.shiftr (offset - 0x100) 3) 0) as [H0|].
  - apply wp_no_err, pll_case_inv; try done; [|unfold p_apll; lia|set_solver].
    assert (within 0x100 0x107 offset = true) as Hw.
    { apply within_spec. apply within_spec in Hoff.
      rewrite Z.shiftr_div_pow2 in H0 by lia. apply Z.div_small_iff in H0; lia. }
    rewrite Hw, andb_true_l, negb_true_iff, Z.eqb_neq in Hdef. lia.
  - repeat (wp_if; [apply wp_no_err, pll_case_inv; try done;
                    [unfold p_mpll, p_epll, p_vpll; lia|set_solver]|]).
    done.
Qed.

Lemma register_write_defined s offset val :
  clk_inv s -> fits 32 val -> write_defined offset val = true ->
  wp only_hw (register_write offset val) (fun _ => write_post s offset) s.
Proof.
  intros Hs Hv Hdef. pose proof (inv_lens s Hs) as (L1 & L2 & L3 & L4 & L5 & L6).
  unfold register_write. wp_steps. cbv zeta.
  wp_if as E1.
  { rewrite <- (Z.sub_0_r offset). pose proof (idx_bound 0 0x20 3 offset ltac:(lia) E1).
    change ((0x20 - 0) / 2 ^ 3) with 4 in *. rewrite Z.sub_0_r in *.
    apply (store_reg s offset (lock_data (cmu s)) _ _ (fun a c => c <| lock_data := a |>));
      [done| |lia|].
    - apply within_spec in E1. unfold sets_rates, within. lia.
    - intros a Ha. apply (inv_set_regs s (fun c => c <| lock_data := a |>)); [done..|]. cbn. lia. }
  wp_if as E2.
  { pose proof (idx_bound 0x100 0x120 3 offset ltac:(lia) E2) as Hi.
    change ((0x120 - 0x100) / 2 ^ 3) with 4 in *.
    unfold write_defined in Hdef. rewrite E2 in Hdef.
    wp_step. eapply deref_wp; [apply wr_Some; lia|]. wp_step. unfold set_cmu at 1. wp_step.
    set (a := <[_ := _]> (conf_data (cmu s))).
    assert (length a = 5%nat) by (subst a; by rewrite length_insert).
    eapply wp_mono; [apply pll_write; try done|].
    - apply (inv_set_regs s (fun c => c <| conf_data := a |>)); [done..|]. cbn. lia.
    - intros [] s' [Hs' Hr]. split; [done|]. split; [done|].
      unfold sets_rates. by rewrite E2. }
  assert (write_defined offset val =
    if within 0x200 0x218 offset then
    let k := Z.shiftr (offset - 0x200) 2 in
    if k =? 5 then sel_field val MUX_PWM_SHIFT <=? 8
    else if k =? 6 then forallb (fun sh => sel_field val sh <=? 8)
                          [MUX_AUDIO_0_SHIFT; MUX_AUDIO_1_SHIFT; MUX_AUDIO_2_SHIFT; MUX_SPDIF_SHIFT]
    else true
  else if within 0x400 0x488 offset then offset <? 0x45C
  else true) as Hd by (unfold write_defined; by rewrite E2).
  rewrite Hd in Hdef. clear Hd.
  wp_if as E3.
  { pose proof (idx_bound 0x200 0x218 2 offset ltac:(lia) E3) as Hi.
    change ((0x218 - 0x200) / 2 ^ 2) with 6 in *. cbv zeta in Hdef.
    destruct (rd_Some (clk_src (cmu s)) 0) as (r0 & Hr0 & _); [lia|].
    destruct (src_write (clk_src (cmu s)) _ val r0 L3 Hi (inv_sel s Hs) Hr0 (inv_src0 s Hs _ Hr0))
      as (a1 & a2 & a3 & Ha1 & Ha2 & Ha3 & Hl3 & Hm3 & Hok).
    rewrite Hdef in Hok.
    wp_step. eapply deref_wp; [done|]. wp_step. eapply deref_wp; [done|]. wp_step.
    eapply deref_wp; [done|]. unfold set_cmu. wp_steps.
    assert (clk_inv (s <| cmu := (cmu s) <| clk_src := a3 |> |>)) as Hs' by (by apply inv_set_src).
    apply wp_no_err. eapply wp_mono; [apply inv_reparent, Hs'|].
    intros [] s' (Hs'' & _ & Hr). split; [done|]. split; [|done].
    intros Hb. exfalso. unfold sets_rates, within in *. lia. }
  wp_if as E4.
  { pose proof (idx_bound 0x280 0x284 2 offset ltac:(lia) E4) as Hi.
    change ((0x284 - 0x280) / 2 ^ 2) with 1 in *.
    apply (store_reg s offset (src_mask (cmu s)) _ _ (fun a c => c <| src_mask := a |>));
      [done| |lia|].
    - apply within_spec in E4. unfold sets_rates, within. lia.
    - intros a Ha. apply (inv_set_regs s (fun c => c <| src_mask := a |>)); [done..|]. cbn. lia. }
  wp_if as E5.
  { pose proof (idx_bound 0x300 0x31C 2 offset ltac:(lia) E5) as Hi.
    change ((0x31C - 0x300) / 2 ^ 2) with 7 in *.
    wp_step. eapply deref_wp; [apply wr_Some; lia|]. wp_step.
    set (a1 := <[_ := val]> _).
    assert (length a1 = 8%nat) as Hl1 by (subst a1; by rewrite length_insert).
    destruct (mask_reg_spec a1 0 ALL_DIV_BITS_0) as (q0 & a2 & _ & -> & Hl2 & _); [lia|]. wp_steps.
    destruct (mask_reg_spec a2 5 ALL_DIV_BITS_5) as (q5 & a3 & _ & -> & Hl3 & _); [lia|]. wp_steps.
    unfold set_cmu. wp_steps.
    assert (clk_inv (s <| cmu := (cmu s) <| clk_div := a3 |> |>)) as Hs'.
    { apply (inv_set_regs s (fun c => c <| clk_div := a3 |>)); [done..|]. cbn. lia. }
    apply wp_no_err. eapply wp_mono; [apply inv_rate_update, Hs'|].
    intros [] s' (Hs'' & Hr). split; [done|]. split; [done|].
    unfold sets_rates. by rewrite E5, orb_true_r. }
  assert (sets_rates offset = false) as Hnr by (unfold sets_rates; by rewrite E2, E5).
  wp_if as E6.
  { apply Z.ltb_lt in Hdef.
    assert (0 <= Z.shiftr (offset - 0x400) 2 < 23).
    { apply within_spec in E6. rewrite Z.shiftr_div_pow2 by lia.
      split; [apply Z.div_pos; lia|apply Z.div_lt_upper_bound; lia]. }
    apply (store_reg s offset (clk_gate (cmu s)) _ _ (fun a c => c <| clk_gate := a |>));
      [done|done|lia|].
    intros a Ha. apply (inv_set_regs s (fun c => c <| clk_gate := a |>)); [done..|]. cbn. lia. }
  wp_if as E7; [|by wp_steps]. unfold set_cmu. wp_steps. split; [|by rewrite Hnr].
  apply (inv_set_regs s (fun c => c <| clk_out := val |>)); [done..|]. cbn. lia.
Qed.

Lemma wp_fault {A} (m : ST clkst A) s : wp (eq Fault) m (fun _ _ => False) s -> m s = Err Fault.
Proof. unfold wp. destruct (m s) as [[a s']|e]; [done|]. by intros <-. Qed.

Lemma register_write_fault s offset val :
  clk_inv s -> fits 32 val -> write_defined offset val = false ->
  wp (eq Fault) (register_write offset val) (fun _ _ => False) s.
Proof.
  intros Hs Hv Hdef. pose proof (inv_lens s Hs) as (L1 & L2 & L3 & L4 & L5 & L6).
  unfold write_defined in Hdef. unfold register_write. wp_steps. cbv zeta.
  assert (within 0x000 0x020 offset = false) as ->.
  { apply not_true_iff_false. intros Hw. apply within_spec in Hw.
    unfold within in Hdef. destruct (_ && _) eqn:E in Hdef; [lia|].
    destruct (_ && _) eqn:E' in Hdef; [lia|]. destruct (_ && _) eqn:E'' in Hdef; [lia|done]. }
  wp_if as E2.
  { apply negb_false_iff, andb_true_iff in Hdef as [Hw H7%Z.eqb_eq].
    pose proof (idx_bound 0x100 0x120 3 offset ltac:(lia) E2) as Hi.
    change ((0x120 - 0x100) / 2 ^ 3) with 4 in *.
    wp_step. eapply deref_wp; [apply wr_Some; lia|]. unfold set_cmu at 1. wp_steps.
    set (a := <[_ := _]> (conf_data (cmu s))).
    assert (length a = 5%nat) by (subst a; by rewrite length_insert).
    set (s1 := s <| cmu := _ |>).
    assert (clk_inv s1) as Hs1
      by (apply (inv_set_regs s (fun c => c <| conf_data := a |>)); [done..|]; cbn; lia).
    clearbody s1. unfold set_pll_conf. cbv zeta.
    assert (Z.shiftr (offset - 0x100) 3 = 0) as ->.
    { apply within_spec in Hw. rewrite Z.shiftr_div_pow2 by lia. apply Z.div_small. lia. }
    cbn [Z.eqb]. unfold pll_case, the_clk, set_clk, set_cmu. wp_steps.
    destruct (clk_exists s1 p_apll Hs1 ltac:(unfold p_apll; lia)) as [c Hc].
    eapply deref_wp; [done|]. wp_steps. cbn [clks cmu upd].
    destruct (lookup_lt_is_Some_2 (<[p_apll := c <| enabled := Z.land (Z.shiftr val 31) 1 |>]> (clks s1))
                p_sclk_apll) as [m Hm].
    { rewrite length_insert, <- (length_fmap fixed), (inv_fixed s1 Hs1). unfold p_sclk_apll. cbn. lia. }
    eapply deref_wp; [done|]. wp_steps. pose proof (inv_lens s1 Hs1) as (_ & _ & Hl & _).
    destruct (rd_Some (clk_src (cmu s1)) 0) as (r & Hr & _); [lia|].
    eapply deref_wp; [done|]. wp_steps. eapply deref_wp; [apply wr_Some; lia|]. wp_steps.
    rewrite H7. done. }
  wp_if as E3.
  { pose proof (idx_bound 0x200 0x218 2 offset ltac:(lia) E3) as Hi.
    change ((0x218 - 0x200) / 2 ^ 2) with 6 in *. cbv zeta in Hdef.
    destruct (rd_Some (clk_src (cmu s)) 0) as (r0 & Hr0 & _); [lia|].
    destruct (src_write (clk_src (cmu s)) _ val r0 L3 Hi (inv_sel s Hs) Hr0 (inv_src0 s Hs _ Hr0))
      as (a1 & a2 & a3 & Ha1 & Ha2 & Ha3 & Hl3 & Hm3 & Hok).
    rewrite Hdef in Hok.
    wp_step. eapply deref_wp; [done|]. wp_step. eapply deref_wp; [done|]. wp_step.
    eapply deref_wp; [done|]. unfold set_cmu. wp_steps.
    apply reparent_fault; [apply (inv_fixed s Hs)|done]. }
  destruct (within 0x400 0x488 offset) eqn:E6; [|done]. apply Z.ltb_ge in Hdef.
  assert (within 0x280 0x284 offset = false) as -> by (apply within_spec in E6; unfold within; lia).
  assert (within 0x300 0x31C offset = false) as -> by (apply within_spec in E6; unfold within; lia).
  assert (23 <= Z.shiftr (offset - 0x400) 2).
  { rewrite Z.shiftr_div_pow2 by lia. apply Z.div_le_lower_bound; lia. }
  wp_step. unfold wr. rewrite (proj2 (Z.ltb_ge _ _)) by lia. by rewrite andb_false_r.
Qed.

(** ** The booted controller *)
Definition clk_boot : clkst := Eval vm_compute in
  match exec s5pc1xx_clk_init clk_zero with Some s => s | None => clk_zero end.
Lemma clk_boot_ok : s5pc1xx_clk_init clk_zero = Ok (tt, clk_boot).
Proof. vm_compute. reflexivity. Qed.

Definition words_okb (c : Clk) : bool :=
  within 0 (2 ^ 64 - 1) (rate c) && within 0 (2 ^ 32 - 1) (div_val c) &&
  within 0 (2 ^ 32 - 1) (mult_val c).
Definition tree_okb (s : clkst) (i : nat) : bool :=
  match clks s !! i with
  | Some c => match parent c with Some p => (p <? i)%nat | None => true end
  | None => true
  end.
Lemma clk_boot_inv : clk_inv clk_boot.
Proof.
  constructor.
  - vm_compute. tauto.
  - vm_compute. reflexivity.
  - assert (forallb (tree_okb clk_boot) (seq 0 28) = true) as H by (vm_compute; reflexivity).
    rewrite forallb_forall in H. intros i c p Hc Hp. specialize (H i).
    unfold tree_okb in H. rewrite Hc, Hp in H. apply Nat.ltb_lt, H, in_seq.
    apply lookup_lt_Some in Hc. assert (length (clks clk_boot) = 28%nat) by (vm_compute; reflexivity). lia.
  - assert (forallb words_okb (clks clk_boot) = true) as H by (vm_compute; reflexivity).
    rewrite forallb_forall in H. apply Forall_forall. intros c Hc%list_elem_of_In.
    specialize (H c Hc). unfold words_okb in H. rewrite !andb_true_iff, !within_spec in H.
    unfold words_ok, fits. lia.
  - assert (rd (clk_src (cmu clk_boot)) 0 = Some 0x10001111) as E by (vm_compute; reflexivity).
    intros r Hr. rewrite E in Hr. injection Hr as <-. reflexivity.
  - vm_compute. reflexivity.
Qed.

(** ** Properties *)
(** After s5pc1xx_clk_init the clock tree runs at the board's frequencies: the
    initialisation never faults, no rate is left to the previous state, and a driver
    that looks a clock up by name finds it with the frequency listed here. *)
Theorem clk_boot_rates :
  (fun c => (name c, rate c)) <$> clks clk_boot =
    [("XXTI", 24000000); ("XXTI27", 27000000); ("XusbXTI", 24000000); ("XrtcXTI", 32768);
     ("SCLK_HDMI27M", 27000000); ("fin_pll", 24000000); ("apll", 800000000);
     ("mpll", 667000000); ("epll", 96000000); ("vpll", 60750000); ("sclk_apll", 800000000);
     ("sclk_mpll", 667000000); ("sclk_epll", 96000000); ("sclk_vpll", 60750000);
     ("sclk_a2m", 200000000); ("hclk_133", 133400000); ("pclk_66", 66700000);
     ("hclk_166", 166750000); ("pclk_83", 83375000); ("armclk", 800000000);
     ("hclk_200", 200000000); ("pclk_100", 100000000); ("hclk_100", 100000000);
     ("sclk_pwm", 24000000); ("sclk_audio_0", 24000000); ("sclk_audio_1", 24000000);
     ("sclk_audio_2", 24000000); ("sclk_spdif", 24000000)] /\
  s5pc1xx_clk_init clk_zero = Ok (tt, clk_boot) /\
  (fun c => result (i ← s5pc1xx_findclk (name c); s5pc1xx_clk_getrate i) clk_boot)
    <$> clks clk_boot = (fun c => Some (rate c)) <$> clks clk_boot /\
  result (s5pc1xx_findclk "clkin") clk_boot = Some p_sclk_hdmi27m.
Proof.
  split; [vm_compute; reflexivity|]. split; [apply clk_boot_ok|].
  split; vm_compute; reflexivity.
Qed.

(** Exactly which register writes are defined.  In every reachable state a write
    that [write_defined] admits either completes with the invariant intact or ends in
    hw_error(), and every other write is undefined behaviour of C: an APLL exponent
    of zero shifts by -1, a selector above 8 reads beyond [parents], and an offset
    from 0x45C in the gating block writes beyond [clk_gate]. *)
Theorem clk_write_safe s offset val : clk_inv s -> fits 32 val ->
  (write_defined offset val = true ->
     wp only_hw (register_write offset val) (fun _ => clk_inv) s) /\
  (write_defined offset val = false -> register_write offset val s = Err Fault).
Proof.
  intros Hs Hv. split; intros Hd.
  - eapply wp_mono; [by apply register_write_defined|]. by intros [] s' (Hs' & _).
  - apply wp_fault. by apply register_write_fault.
Qed.

(** C36: one pass over the tree settles every rate.  After a write to a PLL or divider
    register each clock with a parent runs at its parent's rate times its multiplier
    over its divisor, the divisor is the register's field plus one where the clock has
    one, and both are non-zero. *)
Theorem clk_rates_settle s offset val : clk_inv s -> fits 32 val ->
  write_defined offset val = true -> sets_rates offset = true ->
  wp only_hw (register_write offset val) (fun _ s' => Forall (rate_ok s') (clks s')) s.
Proof.
  intros Hs Hv Hd Hr. eapply wp_mono; [by apply register_write_defined|].
  intros [] s' (_ & H & _). by apply H.
Qed.

Definition clk_stale : clkst := Eval vm_compute in
  match exec (register_write 0x200 0x10011111) clk_boot with Some s => s | None => clk_zero end.

(** A write to a clock source register re-parents the tree and leaves every rate
    as it was: at boot, selecting the MPLL for the ARM clock (CLK_SRC0) keeps its rate
    at the 800 MHz of the APLL although its new parent runs at 667 MHz. *)
Theorem clk_src_keeps_rates :
  (forall s offset val, clk_inv s -> fits 32 val ->
   write_defined offset val = true -> within 0x200 0x218 offset = true ->
   wp only_hw (register_write offset val)
      (fun _ s' => (rate <$> clks s') = (rate <$> clks s)) s) /\
  register_write 0x200 0x10011111 clk_boot = Ok (tt, clk_stale) /\
  (fun c => (parent c, rate c)) <$> clks clk_stale !! p_armclk
    = Some (Some p_sclk_mpll, 800000000) /\
  rate <$> clks clk_stale !! p_sclk_mpll = Some 667000000.
Proof.
  split; [|split_and!; vm_compute; reflexivity]. intros s offset val Hs Hv Hd Hr.
  eapply wp_mono; [by apply register_write_defined|]. intros [] s' (_ & _ & H). apply H.
  unfold sets_rates, within in *. lia.
Qed.

(** ** Witnesses *)
Example clk_write_safe_witness :
  register_write 0x100 0xA0C80600 clk_boot = Err Fault /\
  register_write 0x460 0 clk_boot = Err Fault /\
  wp only_hw (register_write 0x218 0x8888) (fun _ => clk_inv) clk_boot.
Proof.
  split; [|split].
  - apply (clk_write_safe clk_boot 0x100 0xA0C80600); [apply clk_boot_inv|unfold fits; lia|reflexivity].
  - apply (clk_write_safe clk_boot 0x460 0); [apply clk_boot_inv|unfold fits; lia|reflexivity].
  - apply (clk_write_safe clk_boot 0x218 0x8888); [apply clk_boot_inv|unfold fits; lia|reflexivity].
Defined.
Example clk_rates_settle_witness :
  wp only_hw (register_write 0x300 0x14131331) (fun _ s' => Forall (rate_ok s') (clks s')) clk_boot.
Proof.
  apply (clk_rates_settle clk_boot 0x300 0x14131331);
    [apply clk_boot_inv|unfold fits; lia|reflexivity|reflexivity].
Defined.
Example clk_src_keeps_rates_witness :
  wp only_hw (register_write 0x214 0x6777)
     (fun _ s' => (rate <$> clks s') = (rate <$> clks clk_boot)) clk_boot.
Proof.
  apply (proj1 clk_src_keeps_rates clk_boot 0x214 0x6777);
    [apply clk_boot_inv|unfold fits; lia|reflexivity|reflexivity].
Defined.
