(* ===== verification/Rtc.v ===== *)
(** * Rtc: the real time clock (hw/s5pc1xx_rtc.c)

    The state is the register array, the tick timer's frequency and last tick, and the
    broken-down time; the two interrupt lines are pins and the two timers numbers of
    the environment [E].  The host's date ([host]) is an input. *)
From S2P Require Import Prelude HostUtils Irq Timers Device.
From stdpp Require Import sets.
#[local] Open Scope Z_scope.

Definition INT_PEND : Z := 0x30.
Definition RTC_CON : Z := 0x40.
Definition TIC_CNT : Z := 0x44.
Definition RTC_ALM : Z := 0x50.
Definition ALM_SEC : Z := 0x54.
Definition ALM_MIN : Z := 0x58.
Definition ALM_HOUR : Z := 0x5C.
Definition ALM_DAY : Z := 0x60.
Definition ALM_MON : Z := 0x64.
Definition ALM_YEAR : Z := 0x68.
Definition BCD_SEC : Z := 0x70.
Definition BCD_MIN : Z := 0x74.
Definition BCD_HOUR : Z := 0x78.
Definition BCD_DAY : Z := 0x7C.
Definition BCD_WEEKDAY : Z := 0x80.
Definition BCD_MON : Z := 0x84.
Definition BCD_YEAR : Z := 0x88.
Definition CUR_TIC_CNT : Z := 0x90.
Definition INT_ALM : Z := 0x02.
Definition INT_TIC : Z := 0x01.
Definition TIC_EN : Z := 0x100.
Definition TIC_CK_SEL_SHIFT : Z := 4.
Definition CLK_RST : Z := 0x08.
Definition RTC_EN : Z := 0x01.
Definition ALM_EN : Z := 0x40.
Definition YEAR_EN : Z := 0x20.
Definition MON_EN : Z := 0x10.
Definition DAY_EN : Z := 0x08.
Definition HOUR_EN : Z := 0x04.
Definition MIN_EN : Z := 0x02.
Definition SEC_EN : Z := 0x01.

Record S5pc1xxRTCState := mkRtc {
  rtc_regs : list Z;
  periodic_timer : nat;
  freq_out : Z;
  last_tick : Z;
  cur_tic_cnt : Z;
  tick_irq : option nat;
  second_timer : nat;
  current_tm : tm;
  alm_irq : option nat
}.
#[export] Instance eta_rtc : Eta S5pc1xxRTCState := fun r => mkRtc
  (rtc_regs r) (periodic_timer r) (freq_out r) (last_tick r) (cur_tic_cnt r) (tick_irq r)
  (second_timer r) (current_tm r) (alm_irq r).

#[export, program] Instance rtc_regfile : RegFile S5pc1xxRTCState := {|
  regs := rtc_regs;
  with_regs l s := s <| rtc_regs := l |>
|}.
Next Obligation. done. Qed.

(** ** The date *)
(** [tm->tm_sec] and so on are int; [%] and [/] truncate. *)
Definition get_date (r : Z -> Z) (t : tm) : tm :=
  t <| tm_sec := from_bcd (Z.land (r BCD_SEC) 0x7F) |>
    <| tm_min := from_bcd (Z.land (r BCD_MIN) 0x7F) |>
    <| tm_hour := from_bcd (Z.land (r BCD_HOUR) 0x3F) |>
    <| tm_wday := from_bcd (Z.land (r BCD_WEEKDAY) 0x07) |>
    <| tm_mday := from_bcd (Z.land (r BCD_DAY) 0x3F) |>
    <| tm_mon := from_bcd (Z.land (r BCD_MON) 0x1F) - 1 |>
    <| tm_year := 100 + from_bcd (Z.land (r BCD_YEAR) 0xFF)
                  + from_bcd (Z.land (Z.shiftr (r BCD_YEAR) 8) 0xF) * 100 |>.

Definition date_regs (t : tm) : list (Z * Z) :=
  [(BCD_SEC, to_bcd (tm_sec t)); (BCD_MIN, to_bcd (tm_min t)); (BCD_HOUR, to_bcd (tm_hour t));
   (BCD_WEEKDAY, to_bcd (tm_wday t)); (BCD_DAY, to_bcd (tm_mday t));
   (BCD_MON, to_bcd (tm_mon t + 1));
   (BCD_YEAR, Z.lor (to_bcd (Z.rem (tm_year t - 100) 100))
                    (Z.shiftl (to_bcd (Z.quot (Z.rem (tm_year t - 100) 1000) 100)) 8))].

(** Month is between 0 and 11. *)
Definition get_days_in_month (month year : Z) : Z :=
  match rd [31; 28; 31; 30; 31; 30; 31; 31; 30; 31; 30; 31] month with
  | None => 31
  | Some d => if (month =? 1) && (Z.rem year 4 =? 0) then d + 1 else d
  end.

(** The comparison [(unsigned)x >= n] of an int. *)
Definition uge (x n : Z) : bool := n <=? wrap 32 x.

Definition s5pc1xx_rtc_next_second (t : tm) : tm :=
  let t := t <| tm_sec := tm_sec t + 1 |> in
  if uge (tm_sec t) 60 then
    let t := t <| tm_sec := 0 |> <| tm_min := tm_min t + 1 |> in
    if uge (tm_min t) 60 then
      let t := t <| tm_min := 0 |> <| tm_hour := tm_hour t + 1 |> in
      if uge (tm_hour t) 24 then
        let t := t <| tm_hour := 0 |> <| tm_wday := tm_wday t + 1 |> in
        let t := if uge (tm_wday t) 8 then t <| tm_wday := 1 |> else t in
        let days_in_month := get_days_in_month (tm_mon t) (tm_year t) in
        let t := t <| tm_mday := tm_mday t + 1 |> in
        if tm_mday t <? 1 then t <| tm_mday := 1 |>
        else if tm_mday t >? days_in_month then
          let t := t <| tm_mday := 1 |> <| tm_mon := tm_mon t + 1 |> in
          if tm_mon t >=? 12 then t <| tm_mon := 0 |> <| tm_year := tm_year t + 1 |> else t
        else t
      else t
    else t
  else t.

(** The alarm condition of s5pc1xx_rtc_second_update, on the register values. *)
Definition alarm_enabled (alm : Z) : bool :=
  truth (Z.land alm ALM_EN) &&
  (truth (Z.land alm SEC_EN) || truth (Z.land alm MIN_EN) || truth (Z.land alm HOUR_EN) ||
   truth (Z.land alm DAY_EN) || truth (Z.land alm MON_EN) || truth (Z.land alm YEAR_EN)).
Definition alarm_matches (r : Z -> Z) (t : tm) : bool :=
  let off en := negb (truth (Z.land (r RTC_ALM) en)) in
  ((Z.land (r ALM_SEC) 0x7F =? to_bcd (tm_sec t)) || off SEC_EN) &&
  ((Z.land (r ALM_MIN) 0x7F =? to_bcd (tm_min t)) || off MIN_EN) &&
  ((Z.land (r ALM_HOUR) 0x3F =? to_bcd (tm_hour t)) || off HOUR_EN) &&
  ((Z.land (r ALM_DAY) 0x3F =? to_bcd (tm_mday t)) || off DAY_EN) &&
  ((Z.land (r ALM_MON) 0x1F =? to_bcd (tm_mon t)) || off MON_EN) &&
  (((Z.land (r ALM_YEAR) 0xFF =? to_bcd (Z.rem (tm_year t - 100) 100)) &&
    (Z.land (Z.shiftr (r ALM_YEAR) 8) 0xF =? to_bcd (Z.quot (Z.rem (tm_year t - 100) 1000) 100)))
   || off YEAR_EN).

(** ** Handlers *)
Section handlers.
  Context {E : Type} `{!IrqBank E, !TimerBank E} (host : tm).
  Abbreviation RTC := (ST (S5pc1xxRTCState * E)).

  (** The registers as a function, for the pure parts; all indices are in range. *)
Definition file : RTC (Z -> Z) := s ← dev; mret (rv s).

Definition s5pc1xx_rtc_get_date : RTC unit :=
    f ← file; set_dev (fun s => s <| current_tm := get_date f (current_tm s) |>).
Definition s5pc1xx_rtc_set_date (t : tm) : RTC unit :=
    set_dev (fun s => s <| current_tm := t |>) ;;
    for_each (date_regs t) (fun '(i, v) => set_reg i v).

Definition s5pc1xx_rtc_set_timer : RTC unit :=
    last ← on_bank vm_clock;
    set_dev (fun s => s <| last_tick := wrap 64 last |>) ;;
    tic ← reg TIC_CNT;
    s ← dev;
    d ← muldiv tic get_ticks_per_sec (freq_out s);
    on_bank (mod_timer (periodic_timer s) (s64 (wrap 64 (wrap 64 last + d)))).

Definition s5pc1xx_rtc_periodic_tick : RTC unit :=
    con ← reg RTC_CON;
    s ← dev;
    if truth (Z.land con TIC_EN) then
      on_bank (qemu_irq_raise (tick_irq s)) ;;
      pend ← reg INT_PEND;
      set_reg INT_PEND (Z.lor pend INT_TIC) ;;
      s5pc1xx_rtc_set_timer
    else
      set_dev (fun s => s <| last_tick := 0 |>) ;;
      on_bank (del_timer (periodic_timer s)).

Definition s5pc1xx_rtc_periodic_update : RTC unit :=
    con ← reg RTC_CON;
    let freq_code := Z.land (Z.shiftr con TIC_CK_SEL_SHIFT) 0xF in
    set_dev (fun s => s <| freq_out := 32768 / bit freq_code |>).

Definition s5pc1xx_rtc_second_update : RTC unit :=
    con ← reg RTC_CON;
    s ← dev;
    if truth (Z.land con RTC_EN) then
      f ← file;
      when (alarm_enabled (f RTC_ALM) && alarm_matches f (current_tm s))
        (on_bank (qemu_irq_raise (alm_irq s)) ;;
         pend ← reg INT_PEND;
         set_reg INT_PEND (Z.lor pend INT_ALM)) ;;
      set_dev (fun s => s <| current_tm := s5pc1xx_rtc_next_second (current_tm s) |>) ;;
      s ← dev;
      s5pc1xx_rtc_set_date (current_tm s) ;;
      t ← on_bank vm_clock;
      on_bank (mod_timer (second_timer s) (s64 (wrap 64 (wrap 64 t + get_ticks_per_sec))))
    else on_bank (del_timer (second_timer s)).

Definition s5pc1xx_rtc_reset : RTC unit :=
    con ← reg RTC_CON;
    set_reg RTC_CON (Z.land con (not32 TIC_EN)) ;;
    s5pc1xx_rtc_periodic_tick ;;
    con ← reg RTC_CON;
    set_reg RTC_CON (Z.land con (not32 RTC_EN)) ;;
    s5pc1xx_rtc_second_update ;;
    for_each (map (fun k => 0x30 + 4 * Z.of_nat k) (seq 0 24)) (fun i => set_reg i 0) ;;
    set_dev (fun s => s <| last_tick := 0 |> <| freq_out := 0 |>).

Definition s5pc1xx_rtc_get_date_from_host : RTC unit := s5pc1xx_rtc_set_date host.

Definition plain_regs : list Z := [TIC_CNT; RTC_ALM; ALM_SEC; ALM_MIN; ALM_HOUR; ALM_DAY; ALM_MON; ALM_YEAR].
Definition bcd_regs : list Z := [BCD_SEC; BCD_MIN; BCD_HOUR; BCD_WEEKDAY; BCD_DAY; BCD_MON; BCD_YEAR].
Definition listed (l : list Z) (x : Z) : bool := existsb (Z.eqb x) l.

Definition s5pc1xx_rtc_read (offset : Z) : RTC Z :=
    if (offset =? INT_PEND) || (offset =? RTC_CON) || listed plain_regs offset || listed bcd_regs offset
    then reg offset
    else if offset =? CUR_TIC_CNT then
      tic ← reg TIC_CNT;
      s ← dev;
      v ← (if truth (freq_out s) && truth (last_tick s) && truth tic then
             t ← on_bank vm_clock;
             m ← muldiv (wrap 64 (t - last_tick s)) (freq_out s) get_ticks_per_sec;
             mret (wrap 64 (tic - m mod tic))
           else mret 0);
      set_dev (fun s => s <| cur_tic_cnt := v |>) ;;
      mret (wrap 32 v)
    else hw_error.

Definition s5pc1xx_rtc_write (offset value : Z) : RTC unit :=
    if offset =? INT_PEND then
      s ← dev;
      when (truth (Z.land value INT_TIC)) (on_bank (qemu_irq_lower (tick_irq s))) ;;
      when (truth (Z.land value INT_ALM)) (on_bank (qemu_irq_lower (alm_irq s))) ;;
      pend ← reg INT_PEND;
      set_reg INT_PEND (Z.land pend (not32 (Z.land value (Z.lor INT_TIC INT_ALM))))
    else if offset =? RTC_CON then
      value ← (if truth (Z.land value CLK_RST)
               then s5pc1xx_rtc_reset ;; mret (Z.land value (not32 CLK_RST))
               else mret value);
      con ← reg RTC_CON;
      when (Z.land value RTC_EN >? Z.land con RTC_EN)
        (set_reg RTC_CON (Z.lor con RTC_EN) ;;
         s5pc1xx_rtc_get_date_from_host ;;
         s5pc1xx_rtc_second_update) ;;
      con ← reg RTC_CON;
      if Z.land value TIC_EN >? Z.land con TIC_EN then
        set_reg RTC_CON value ;;
        s5pc1xx_rtc_periodic_update ;;
        s5pc1xx_rtc_set_timer
      else
        s ← dev;
        when (Z.land value TIC_EN <? Z.land con TIC_EN) (on_bank (del_timer (periodic_timer s))) ;;
        set_reg RTC_CON value ;;
        s5pc1xx_rtc_periodic_update
    else if listed plain_regs offset then set_reg offset value
    else if listed bcd_regs offset then
      set_reg offset value ;;
      con ← reg RTC_CON;
      when (truth (Z.land con RTC_EN)) s5pc1xx_rtc_get_date
    else hw_error.
End handlers.

(** The device qdev allocates, before the reset of s5pc1xx_rtc_init. *)
Definition rtc_zero (alm tick : option nat) : S5pc1xxRTCState :=
  mkRtc (replicate 0x89 0) 0 0 0 0 tick 1 (mkTm 0 0 0 0 0 0 0) alm.

(** [s5pc1xx_rtc_init] resets the device it has connected. *)
Definition s5pc1xx_rtc_init {E} `{!IrqBank E, !TimerBank E} : ST (S5pc1xxRTCState * E) unit :=
  s5pc1xx_rtc_reset.

(** ** The calendar *)
(** A time of day on a day of the Gregorian calendar, weekday 1 to 7, in the years 2000
    to 2099. *)
Definition valid_tm (t : tm) : Prop :=
  0 <= tm_sec t < 60 /\ 0 <= tm_min t < 60 /\ 0 <= tm_hour t < 24 /\ 0 <= tm_mon t < 12 /\
  100 <= tm_year t < 200 /\ 1 <= tm_mday t <= month_len (tm_year t + 1900) (tm_mon t + 1) /\
  1 <= tm_wday t <= 7.
Definition seconds (t : tm) : Z :=
  86400 * day_number (tm_year t + 1900) (tm_mon t + 1) (tm_mday t)
  + 3600 * tm_hour t + 60 * tm_min t + tm_sec t.

Lemma leap_2000 y : 2000 <= y < 2100 -> leap y = (y mod 4 =? 0).
Proof.
  intros Hy. unfold leap. destruct (Z.eqb_spec (y mod 4) 0); cbn.
  - destruct (Z.eqb_spec (y mod 100) 0), (Z.eqb_spec (y mod 400) 0); cbn; try done.
    exfalso. Z.to_euclidean_division_equations. lia.
  - apply Z.eqb_neq. intros H. Z.to_euclidean_division_equations. lia.
Qed.
Lemma days_in_month_len mon year : 0 <= mon < 12 -> 100 <= year < 200 ->
  get_days_in_month mon year = month_len (year + 1900) (mon + 1).
Proof.
  intros Hm Hy. unfold month_len. rewrite leap_2000 by lia.
  assert ((Z.rem year 4 =? 0) = ((year + 1900) mod 4 =? 0)) as E.
  { apply eq_bool_prop_intro. rewrite !Is_true_true, !Z.eqb_eq.
    split; intros; Z.to_euclidean_division_equations; lia. }
  unfold get_days_in_month. rewrite E.
  assert (mon = 0 \/ mon = 1 \/ mon = 2 \/ mon = 3 \/ mon = 4 \/ mon = 5 \/ mon = 6 \/ mon = 7 \/
          mon = 8 \/ mon = 9 \/ mon = 10 \/ mon = 11) as H by lia.
  destruct_or? H; subst mon; reflexivity.
Qed.

Lemma month_len_bounds y m : 28 <= month_len y m <= 31.
Proof. unfold month_len. repeat case_match; lia. Qed.
Lemma next_day_number y m d : 1970 <= y -> 1 <= m <= 12 -> d = month_len y m ->
  (if m =? 12 then day_number (y + 1) 1 1 else day_number y (m + 1) 1) = day_number y m d + 1.
Proof.
  intros Hy Hm ->. unfold day_number. destruct (Z.eqb_spec m 12) as [->|Hne].
  - replace (Z.to_nat (y + 1 - 1970)) with (S (Z.to_nat (y - 1970))) by lia. cbn [days_of_years].
    replace (1970 + Z.of_nat (Z.to_nat (y - 1970))) with y by lia.
    change (Z.to_nat (1 - 1)) with 0%nat. cbn [days_of_months].
    rewrite days_of_months_closed by lia. change (12 <? 3) with false.
    change (month_len y 12) with 31. change ((153 * 12 - 457) / 5) with 275.
    destruct (leap y); lia.
  - replace (Z.to_nat (m + 1 - 1)) with (S (Z.to_nat (m - 1))) by lia. cbn [days_of_months].
    replace (Z.of_nat (Z.to_nat (m - 1)) + 1) with m by lia. lia.
Qed.

Lemma mod_day_nz x : 0 < x < 86400 -> (x mod 86400 =? 0) = false.
Proof. intros. rewrite Z.mod_small by lia. apply Z.eqb_neq. lia. Qed.
Lemma uge_spec x n : 0 <= x < 2 ^ 32 -> uge x n = (n <=? x).
Proof. intros. unfold uge, wrap. by rewrite Z.mod_small. Qed.

#[local] Arguments month_len : simpl never.
#[local] Arguments day_number : simpl never.

(** The clock counts.  s5pc1xx_rtc_next_second takes every valid date of the years
    2000 to 2099 to the one exactly one second later in the Gregorian calendar, valid
    again (up to the first instant of 2100), and moves the weekday on at midnight; in
    2100, which is not a leap year, it counts a 29 February. *)
Theorem rtc_next_second :
  (forall t, valid_tm t -> let t' := s5pc1xx_rtc_next_second t in
     seconds t' = seconds t + 1 /\ (tm_year t' < 200 -> valid_tm t') /\
     tm_wday t' = if seconds t' mod 86400 =? 0 then tm_wday t mod 7 + 1 else tm_wday t) /\
  s5pc1xx_rtc_next_second (mkTm 59 59 23 28 1 200 7) = mkTm 0 0 0 29 1 200 1.
Proof.
  split; [|reflexivity]. intros t (Hs & Hmi & Hh & Hmo & Hy & Hd & Hw).
  pose proof (month_len_bounds (tm_year t + 1900) (tm_mon t + 1)) as Hml.
  pose proof (next_day_number (tm_year t + 1900) (tm_mon t + 1) (tm_mday t) ltac:(lia) ltac:(lia)) as Hn.
  assert (forall t', seconds t' mod 86400 =
    (3600 * tm_hour t' + 60 * tm_min t' + tm_sec t') mod 86400) as Hmod.
  { intros t'. unfold seconds. rewrite <- (Z_mod_plus_full (3600 * _ + _ + _)
      (day_number (tm_year t' + 1900) (tm_mon t' + 1) (tm_mday t')) 86400). f_equal. lia. }
  cbv zeta. rewrite Hmod. unfold s5pc1xx_rtc_next_second. cbv zeta.
  destruct t as [sec mi h md mo ye wd]. cbn in *.
  rewrite uge_spec by lia. destruct (Z.leb_spec 60 (sec + 1)); cbn.
  2: { rewrite mod_day_nz by lia.
       split; [unfold seconds; cbn; lia|]. split; [|done]. intros _. unfold valid_tm. cbn. lia. }
  rewrite uge_spec by lia. destruct (Z.leb_spec 60 (mi + 1)); cbn.
  2: { rewrite mod_day_nz by lia.
       split; [unfold seconds; cbn; lia|]. split; [|done]. intros _. unfold valid_tm. cbn. lia. }
  rewrite uge_spec by lia. destruct (Z.leb_spec 24 (h + 1)); cbn.
  2: { rewrite mod_day_nz by lia.
       split; [unfold seconds; cbn; lia|]. split; [|done]. intros _. unfold valid_tm. cbn. lia. }
  rewrite uge_spec by lia.
  assert (wd mod 7 + 1 = if 8 <=? wd + 1 then 1 else wd + 1) as ->.
  { destruct (Z.leb_spec 8 (wd + 1)); [by replace wd with 7 by lia|]. rewrite Z.mod_small; lia. }
  set (t0 := if 8 <=? wd + 1 then _ else _).
  assert (t0 = mkTm 0 0 0 md mo ye (if 8 <=? wd + 1 then 1 else wd + 1)) as ->
    by (subst t0; by destruct (8 <=? wd + 1)).
  assert (1 <= (if 8 <=? wd + 1 then 1 else wd + 1) <= 7) as Hw' by (destruct (Z.leb_spec 8 (wd + 1)); lia).
  cbn. rewrite days_in_month_len by lia.
  rewrite (proj2 (Z.ltb_ge (md + 1) 1)) by lia.
  destruct (Z.gtb_spec (md + 1) (month_len (ye + 1900) (mo + 1))); cbn.
  2: { split; [unfold seconds, day_number; cbn; lia|]. split; [|done]. intros _. unfold valid_tm. cbn. lia. }
  specialize (Hn ltac:(lia)).
  destruct (Z.geb_spec (mo + 1) 12); cbn.
  - destruct (Z.eqb_spec (mo + 1) 12); [|lia].
    split; [unfold seconds; cbn; replace (ye + 1 + 1900) with (ye + 1900 + 1) by lia; change (0 + 1) with 1; lia|].
    split; [|done]. intros Hlt. cbn in Hlt.
    pose proof (month_len_bounds (ye + 1 + 1900) (0 + 1)). unfold valid_tm. cbn. lia.
  - destruct (Z.eqb_spec (mo + 1) 12); [lia|].
    split; [unfold seconds; cbn; lia|]. split; [|done]. intros _.
    pose proof (month_len_bounds (ye + 1900) (mo + 1 + 1)). unfold valid_tm. cbn. lia.
Qed.

(** ** The handlers against the laws of the environment *)
Section spec.
  Context {E : Type} `{!IrqBank E, !TimerBank E, !EnvLaws E}.
  Implicit Types (s : S5pc1xxRTCState) (e : E).

Definition rtc_ok s e : Prop :=
    length (regs s) = 0x89%nat /\ irq_inv e /\ line_valid (alm_irq s) /\ line_valid (tick_irq s).
Lemma file_wp Er s e (Q : (Z -> Z) -> S5pc1xxRTCState * E -> Prop) :
    Q (rv s) (s, e) -> wp Er file Q (s, e).
  Proof. done. Qed.
Lemma set_regs_wp l s e : length (regs s) = 0x89%nat ->
    Forall (fun x => 0 <= x.1 < 0x89) l -> NoDup l.*1 ->
    wp no_err (for_each l (fun '(i, v) => set_reg i v)) (fun _ se => se.2 = e /\
      se.1 = with_regs (regs se.1) s /\ length (regs se.1) = 0x89%nat /\
      (forall i v, (i, v) ∈ l -> rd (regs se.1) i = Some v) /\
      (forall i, i ∉ l.*1 -> rd (regs se.1) i = rd (regs s) i)) (s, e).
  Proof.
    revert s. induction l as [|[i v] l IH]; intros s Hl Hr Hn; cbn [for_each].
    - wp_steps. split; [done|]. split; [by destruct s|]. split_and!; [done|set_solver|done].
    - apply Forall_cons_1 in Hr as [Hi Hr]. apply NoDup_cons in Hn as [Hni Hn]. cbn in Hi, Hni.
      wp_step. apply set_reg_wp; [lia|].
      eapply wp_mono; [apply IH; [by rewrite with_reg_length|done..]|].
      intros [] [s' e'] (He & Hs & Hl' & Hin & Hout). cbn [fst snd] in *.
      split; [done|]. split; [by rewrite Hs|]. split; [done|]. split.
      + intros j w [[= -> ->]|Hj]%elem_of_cons; [|by apply Hin].
        rewrite Hout by done. by rewrite rd_with_reg, Z.eqb_refl by lia.
      + intros j Hj. cbn in Hj. rewrite Hout by set_solver. rewrite rd_with_reg by lia.
        destruct (Z.eqb_spec i j); [set_solver|done].
  Qed.

Lemma date_regs_range t : Forall (fun x => 0 <= x.1 < 0x89) (date_regs t).
  Proof. repeat constructor; cbn; unfold BCD_SEC, BCD_MIN, BCD_HOUR, BCD_WEEKDAY, BCD_DAY, BCD_MON, BCD_YEAR; lia. Qed.
Lemma date_regs_nodup t : NoDup (date_regs t).*1.
  Proof. apply (bool_decide_unpack _). reflexivity. Qed.

  (** The registers show date [t]. *)
Definition shows s (t : tm) : Prop := forall i v, (i, v) ∈ date_regs t -> rd (regs s) i = Some v.

Lemma set_date_wp t s e : length (regs s) = 0x89%nat ->
    wp no_err (s5pc1xx_rtc_set_date t) (fun _ se => se.2 = e /\ shows se.1 t /\
      se.1 = (with_regs (regs se.1) s) <| current_tm := t |> /\ length (regs se.1) = 0x89%nat /\
      forall i, i ∉ (date_regs t).*1 -> rv se.1 i = rv s i) (s, e).
  Proof.
    intros Hl. unfold s5pc1xx_rtc_set_date. wp_step. apply set_dev_wp.
    eapply wp_mono; [apply set_regs_wp; [done|apply date_regs_range|apply date_regs_nodup]|].
    intros [] [s' e'] (He & Hs & Hl' & Hin & Hout). cbn [fst snd] in *.
    split; [done|]. split; [done|]. split; [by rewrite Hs|]. split; [done|].
    intros i Hi. unfold rv. by rewrite Hout.
  Qed.

  (** The tick and alarm lines' numbers, timers and the rest are not written. *)
Lemma second_update_wp s e : rtc_ok s e -> 0 <= vm_now e < 2 ^ 62 ->
    truth (Z.land (rv s RTC_CON) RTC_EN) = true ->
    let fires := alarm_enabled (rv s RTC_ALM) && alarm_matches (rv s) (current_tm s) in
    wp no_err s5pc1xx_rtc_second_update (fun _ '(s', e') =>
      rtc_ok s' e' /\ current_tm s' = s5pc1xx_rtc_next_second (current_tm s) /\
      shows s' (current_tm s') /\
      rv s' INT_PEND = (if fires then Z.lor (rv s INT_PEND) INT_ALM else rv s INT_PEND) /\
      (fires = true -> line_is e' (alm_irq s) true) /\
      (forall n, fires = false \/ Some n <> alm_irq s -> irq_level e' n = irq_level e n) /\
      armed e' (second_timer s) = Some (vm_now e + 1000000000) /\
      (forall i, i <> second_timer s -> armed e' i = armed e i)) (s, e).
  Proof.
    intros (Hl & He & Ha & Ht) Hnow Hen fires. unfold s5pc1xx_rtc_second_update.
    wp_step. apply reg_wp; [unfold RTC_CON; in_regs|]. wp_step. apply dev_wp.
    rewrite Hen. wp_step. apply file_wp. wp_step.
    apply (wp_mono _ _ (fun _ '(s1, e1) => exists r, s1 = with_regs r s /\ length r = 0x89%nat /\
      irq_inv e1 /\ vm_now e1 = vm_now e /\ (forall i, armed e1 i = armed e i) /\
      rv s1 INT_PEND = (if fires then Z.lor (rv s INT_PEND) INT_ALM else rv s INT_PEND) /\
      (fires = true -> line_is e1 (alm_irq s) true) /\
      (forall n, fires = false \/ Some n <> alm_irq s -> irq_level e1 n = irq_level e n))).
    - apply wp_when. fold fires. destruct fires eqn:Ef.
      + wp_step. apply wp_on_bank. eapply wp_mono; [by apply env_set_irq|].
        intros [] e1 (He1 & Hl1 & Hs1 & Hn1 & Ha1). wp_step.
        apply reg_wp; [unfold INT_PEND; in_regs|]. apply set_reg_wp; [unfold INT_PEND; in_regs|].
        exists (regs (with_reg s INT_PEND (Z.lor (rv s INT_PEND) INT_ALM))).
        split; [done|]. split; [by rewrite with_reg_length|].
        split_and!; try done.
        * by rewrite rv_with_reg, Z.eqb_refl by (unfold INT_PEND; in_regs).
        * intros n [|Hn]; [done|by apply Hs1].
      + exists (regs s). split; [by destruct s|]. split_and!; done.
    - intros [] [s1 e1] (r & -> & Hr & He1 & Hn1 & Ha1 & Hp1 & Hf1 & Hs1). wp_step.
      apply set_dev_wp. wp_step. apply dev_wp. wp_step. cbn [current_tm upd].
      eapply wp_mono; [by apply set_date_wp|]. intros [] [s2 e2'] (Hee & Hsh & Hs2 & Hl2 & Hrv2).
      cbn [fst snd] in *. subst e2'. wp_step. apply wp_on_bank. eapply wp_mono; [by apply vm_clock_spec|].
      intros t e2 [-> ->]. apply wp_on_bank. eapply wp_mono; [by apply mod_timer_spec|].
      intros [] e2 (He2 & Hn2 & Hl' & Ha2). rewrite Hs2. cbn [current_tm alm_irq tick_irq upd].
      assert (s64 (wrap 64 (wrap 64 (vm_now e1) + get_ticks_per_sec)) = vm_now e + 1000000000) as Ht64.
      { rewrite Hn1, (wrap_fits 64 (vm_now e)), wrap_fits by (unfold fits, get_ticks_per_sec; lia).
        unfold s64, get_ticks_per_sec. rewrite (proj2 (Z.ltb_lt _ _)) by lia. done. }
      rewrite Ht64 in Ha2. split_and!; try done.
      + rewrite <- Hs2, Hrv2; [exact Hp1|]. apply (bool_decide_unpack _). reflexivity.
      + intros Hf. specialize (Hf1 Hf). destruct (alm_irq s) as [n|]; [|done]. cbn in *. by rewrite Hl'.
      + intros n Hn. rewrite Hl'. by apply Hs1.
      + by rewrite Ha2, Nat.eqb_refl.
      + intros i Hi. rewrite Ha2. cbn. destruct (Nat.eqb_spec i (second_timer s)); [done|]. by rewrite Ha1.
  Qed.

  (** The reset writes the word at 0x8C, past the 0x89 words of the array. *)
Lemma reset_wp s e : rtc_ok s e -> wp (eq Fault) s5pc1xx_rtc_reset (fun _ _ => False) (s, e).
  Proof.
    intros (Hl & He & Ha & Ht). unfold s5pc1xx_rtc_reset.
    assert (forall x m, truth (Z.land (Z.land x (not32 (bit m))) (bit m)) = false) as Hclr.
    { intros x m. apply truth_false. rewrite <- Z.land_assoc.
      replace (Z.land (not32 (bit m)) (bit m)) with 0; [apply Z.land_0_r|]. symmetry.
      unfold not32, wrap. rewrite <- Z.land_ones, <- Z.land_assoc, (Z.land_comm (Z.ones 32)) by done.
      by rewrite Z.land_assoc, (Z.land_comm (Z.lnot _)), Z.land_lnot_diag. }
    wp_step. apply reg_wp; [unfold RTC_CON; in_regs|]. wp_step. apply set_reg_wp; [unfold RTC_CON; in_regs|].
    wp_step. unfold s5pc1xx_rtc_periodic_tick. wp_step.
    apply reg_wp; [unfold RTC_CON; in_regs|]. wp_step. apply dev_wp.
    rewrite rv_with_reg, Z.eqb_refl by (unfold RTC_CON; in_regs).
    change TIC_EN with (bit 8). rewrite Hclr. wp_step. apply set_dev_wp. apply wp_on_bank.
    apply wp_no_err. eapply wp_mono; [by apply del_timer_spec|]. intros [] e1 (He1 & _ & _).
    set (s1 := _ <| last_tick := 0 |>).
    assert (length (regs s1) = 0x89%nat) as Hl1 by (subst s1; cbn; by rewrite length_insert).
    clearbody s1. wp_step. apply reg_wp; [unfold RTC_CON; in_regs|]. wp_step.
    apply set_reg_wp; [unfold RTC_CON; in_regs|].
    wp_step. unfold s5pc1xx_rtc_second_update. wp_step.
    apply reg_wp; [unfold RTC_CON; in_regs|]. wp_step. apply dev_wp.
    rewrite rv_with_reg, Z.eqb_refl by (unfold RTC_CON; in_regs).
    change RTC_EN with (bit 0). rewrite Hclr. apply wp_on_bank.
    apply wp_no_err. eapply wp_mono; [by apply del_timer_spec|]. intros [] e2 (He2 & _ & _).
    set (s2 := with_reg s1 _ _).
    assert (length (regs s2) = 0x89%nat) as Hl2 by (subst s2; by rewrite with_reg_length).
    clearbody s2. wp_step. change (seq 0 24) with (seq 0 23 ++ [23%nat]). rewrite map_app.
    assert (forall l s, length (regs s) = 0x89%nat -> Forall (fun k => (k < 23)%nat) l ->
      wp (eq Fault) (for_each (map (fun k => 0x30 + 4 * Z.of_nat k) l ++ [0x8C]) (fun i => set_reg i 0))
         (fun _ _ => False) (s, e2)) as H.
    { intros l. induction l as [|k l IH]; intros s0 Hs0 Hf; cbn [map for_each app].
      - wp_step. unfold set_reg. wp_step. apply dev_wp. wp_step.
        unfold wr. rewrite Hs0. reflexivity.
      - apply Forall_cons_1 in Hf as [Hk Hf]. wp_step. apply set_reg_wp; [lia|].
        apply IH; [by rewrite with_reg_length|done]. }
    eapply wp_mono; [apply H; [done|]|done]. apply (bool_decide_unpack _). reflexivity.
  Qed.

  (** Reading the date back from the registers that show it. *)
Lemma get_date_wp s e t : length (regs s) = 0x89%nat -> shows s t ->
    valid_tm t -> wp no_err s5pc1xx_rtc_get_date (fun _ se => se = (s <| current_tm := t |>, e)) (s, e).
  Proof.
    intros Hl Hsh (Hs & Hmi & Hh & Hmo & Hy & Hd & Hw). unfold s5pc1xx_rtc_get_date. wp_step.
    apply file_wp. apply set_dev_wp. f_equal. f_equal.
    pose proof (month_len_bounds (tm_year t + 1900) (tm_mon t + 1)) as Hml.
    assert (forall i v, (i, v) ∈ date_regs t -> rv s i = v) as Hrv
      by (intros i v Hin; unfold rv; by rewrite (Hsh i v Hin)).
    unfold get_date.
    rewrite (Hrv BCD_SEC (to_bcd (tm_sec t))) by (by left).
    rewrite (Hrv BCD_MIN (to_bcd (tm_min t))) by (unfold date_regs; set_solver).
    rewrite (Hrv BCD_HOUR (to_bcd (tm_hour t))) by (unfold date_regs; set_solver).
    rewrite (Hrv BCD_WEEKDAY (to_bcd (tm_wday t))) by (unfold date_regs; set_solver).
    rewrite (Hrv BCD_DAY (to_bcd (tm_mday t))) by (unfold date_regs; set_solver).
    rewrite (Hrv BCD_MON (to_bcd (tm_mon t + 1))) by (unfold date_regs; set_solver).
    rewrite (Hrv BCD_YEAR (Z.lor (to_bcd (Z.rem (tm_year t - 100) 100))
      (Z.shiftl (to_bcd (Z.quot (Z.rem (tm_year t - 100) 1000) 100)) 8))) by (unfold date_regs; set_solver).
    assert (forall b x, 0 <= x < Z.of_nat b -> forall f g : Z -> Z,
      forallb (fun n => f (Z.of_nat n) =? g (Z.of_nat n)) (seq 0 b) = true -> f x = g x) as Hall.
    { intros b x Hx f g H. rewrite forallb_forall in H. specialize (H (Z.to_nat x)).
      rewrite Z2Nat.id in H by lia. apply Z.eqb_eq, H, in_seq. lia. }
    rewrite (Hall 60%nat _ Hs (fun x => from_bcd (Z.land (to_bcd x) 0x7F)) id) by (vm_compute; reflexivity).
    rewrite (Hall 60%nat _ Hmi (fun x => from_bcd (Z.land (to_bcd x) 0x7F)) id) by (vm_compute; reflexivity).
    rewrite (Hall 24%nat _ Hh (fun x => from_bcd (Z.land (to_bcd x) 0x3F)) id) by (vm_compute; reflexivity).
    rewrite (Hall 8%nat (tm_wday t) ltac:(lia) (fun x => from_bcd (Z.land (to_bcd x) 0x07)) id) by (vm_compute; reflexivity).
    rewrite (Hall 32%nat (tm_mday t) ltac:(lia) (fun x => from_bcd (Z.land (to_bcd x) 0x3F)) id) by (vm_compute; reflexivity).
    rewrite (Hall 13%nat (tm_mon t + 1) ltac:(lia) (fun x => from_bcd (Z.land (to_bcd x) 0x1F)) id) by (vm_compute; reflexivity).
    assert (100 + from_bcd (Z.land (Z.lor (to_bcd (Z.rem (tm_year t - 100) 100))
          (Z.shiftl (to_bcd (Z.quot (Z.rem (tm_year t - 100) 1000) 100)) 8)) 0xFF)
        + from_bcd (Z.land (Z.shiftr (Z.lor (to_bcd (Z.rem (tm_year t - 100) 100))
          (Z.shiftl (to_bcd (Z.quot (Z.rem (tm_year t - 100) 1000) 100)) 8)) 8) 0xF) * 100
        = tm_year t) as ->.
    { set (x := tm_year t - 100). replace (tm_year t) with (x + 100) by lia.
      apply (Hall 100%nat x ltac:(lia) (fun x =>
        100 + from_bcd (Z.land (Z.lor (to_bcd (Z.rem x 100))
          (Z.shiftl (to_bcd (Z.quot (Z.rem x 1000) 100)) 8)) 0xFF)
        + from_bcd (Z.land (Z.shiftr (Z.lor (to_bcd (Z.rem x 100))
          (Z.shiftl (to_bcd (Z.quot (Z.rem x 1000) 100)) 8)) 8) 0xF) * 100) (fun x => x + 100)).
      vm_compute. reflexivity. }
    unfold id. replace (tm_mon t + 1 - 1) with (tm_mon t) by lia. by destruct t.
  Qed.

  (** ** Properties *)
  (** The date survives the registers.  s5pc1xx_rtc_set_date of any valid date of
      2000 to 2099 stores it in BCD, and s5pc1xx_rtc_get_date of the registers gives
      the same date, whatever the device held before. *)
Theorem rtc_date_roundtrip s e t : length (regs s) = 0x89%nat -> valid_tm t ->
    wp no_err (s5pc1xx_rtc_set_date t ;;
               set_dev (fun s => s <| current_tm := mkTm 0 0 0 0 0 0 0 |>) ;;
               s5pc1xx_rtc_get_date)
       (fun _ se => current_tm se.1 = t /\ shows se.1 t) (s, e).
  Proof.
    intros Hl Ht. wp_step. eapply wp_mono; [by apply set_date_wp|].
    intros [] [s1 e1] (_ & Hsh & _ & Hl1 & _). cbn [fst snd] in *.
    wp_step. apply set_dev_wp. eapply wp_mono; [by apply (get_date_wp _ e1 t)|].
    intros [] se ->. split; [done|]. exact Hsh.
  Qed.

  (** One second of the enabled clock.  s5pc1xx_rtc_second_update advances the
      time by s5pc1xx_rtc_next_second and shows it in the BCD registers, re-arms its
      timer exactly one second ahead, and raises the alarm line and its pending bit
      when, and only when, the alarm is enabled and matches; it touches no other line
      and no other timer. *)
Theorem rtc_second s e : rtc_ok s e -> 0 <= vm_now e < 2 ^ 62 ->
    truth (Z.land (rv s RTC_CON) RTC_EN) = true ->
    let fires := alarm_enabled (rv s RTC_ALM) && alarm_matches (rv s) (current_tm s) in
    wp no_err s5pc1xx_rtc_second_update (fun _ '(s', e') =>
      rtc_ok s' e' /\ current_tm s' = s5pc1xx_rtc_next_second (current_tm s) /\
      shows s' (current_tm s') /\
      rv s' INT_PEND = (if fires then Z.lor (rv s INT_PEND) INT_ALM else rv s INT_PEND) /\
      (fires = true -> line_is e' (alm_irq s) true) /\
      (forall n, fires = false \/ Some n <> alm_irq s -> irq_level e' n = irq_level e n) /\
      armed e' (second_timer s) = Some (vm_now e + 1000000000) /\
      (forall i, i <> second_timer s -> armed e' i = armed e i)) (s, e).
  Proof. intros Hs Hnow Hen. by apply second_update_wp. Qed.

  (** The reset overruns its array.  Whatever the state, s5pc1xx_rtc_reset writes
      the word at 0x8C of an array of 0x89 words, so initialising the device, and any
      write that sets CLK_RST, is undefined behaviour. *)
Theorem rtc_reset_overruns s e value : rtc_ok s e ->
    s5pc1xx_rtc_init (s, e) = Err Fault /\
    (truth (Z.land value CLK_RST) = true ->
     s5pc1xx_rtc_write (mkTm 0 0 0 0 0 0 0) RTC_CON value (s, e) = Err Fault).
  Proof.
    intros Hok. assert (forall A (m : ST (S5pc1xxRTCState * E) A) se,
      wp (eq Fault) m (fun _ _ => False) se -> m se = Err Fault) as Hf.
    { intros A m se. unfold wp. destruct (m se) as [[a s']|er]; [done|]. by intros <-. }
    split; [by apply Hf, reset_wp|]. intros Hv. apply Hf. unfold s5pc1xx_rtc_write.
    change (RTC_CON =? INT_PEND) with false. change (RTC_CON =? RTC_CON) with true. cbv iota.
    rewrite Hv. wp_step. wp_step. eapply wp_mono; [by apply reset_wp|]. done.
  Qed.

  (** The alarm month is off by one.  Software that reads the month BCD_MON shows,
      writes it to ALM_MON and enables the month alarm gets no match at any second of
      that month: the alarm is compared with the month counted from 0. *)
Theorem rtc_alarm_month s t : shows s t -> valid_tm t ->
    Z.land (rv s ALM_MON) 0x1F = Z.land (rv s BCD_MON) 0x1F ->
    truth (Z.land (rv s RTC_ALM) MON_EN) = true -> alarm_matches (rv s) t = false.
  Proof.
    intros Hsh (_ & _ & _ & Hmo & _) Heq Hen. unfold alarm_matches.
    assert (rv s BCD_MON = to_bcd (tm_mon t + 1)) as Hm.
    { unfold rv. rewrite (Hsh BCD_MON (to_bcd (tm_mon t + 1))); [done|]. unfold date_regs. set_solver. }
    rewrite Heq, Hm, Hen.
    assert ((Z.land (to_bcd (tm_mon t + 1)) 0x1F =? to_bcd (tm_mon t)) = false) as ->.
    { assert (tm_mon t = 0 \/ tm_mon t = 1 \/ tm_mon t = 2 \/ tm_mon t = 3 \/ tm_mon t = 4 \/
        tm_mon t = 5 \/ tm_mon t = 6 \/ tm_mon t = 7 \/ tm_mon t = 8 \/ tm_mon t = 9 \/
        tm_mon t = 10 \/ tm_mon t = 11) as H by lia.
      destruct_or? H; rewrite H; reflexivity. }
    cbn [negb orb]. by rewrite !andb_false_r.
  Qed.

  (** The tick counter counts down.  While the tick timer runs, CUR_TIC_CNT reads
      TIC_CNT minus the ticks elapsed since the last one modulo TIC_CNT: always between
      1 and TIC_CNT, and back at TIC_CNT after each full period. *)
Theorem rtc_tick_count s e : rtc_ok s e -> 0 < last_tick s <= vm_now e -> vm_now e < 2 ^ 62 ->
    0 < freq_out s <= 32768 -> 0 < rv s TIC_CNT < 2 ^ 32 ->
    let n := rv s TIC_CNT in
    wp no_err (s5pc1xx_rtc_read CUR_TIC_CNT) (fun v se =>
      v = n - ((vm_now e - last_tick s) * freq_out s / 1000000000) mod 2 ^ 64 mod n /\
      1 <= v <= n /\ se = (s <| cur_tic_cnt := v |>, e)) (s, e).
  Proof.
    intros (Hl & He & _) Hlt Hnow Hf Hn n. unfold s5pc1xx_rtc_read.
    change ((CUR_TIC_CNT =? INT_PEND) || (CUR_TIC_CNT =? RTC_CON) || listed plain_regs CUR_TIC_CNT
            || listed bcd_regs CUR_TIC_CNT) with false.
    change (CUR_TIC_CNT =? CUR_TIC_CNT) with true. cbv iota.
    wp_step. apply reg_wp; [unfold TIC_CNT; in_regs|]. wp_step. apply dev_wp. wp_step. fold n.
    rewrite !(proj2 (truth_true _)) by lia. cbn [andb]. wp_step. apply wp_on_bank.
    eapply wp_mono; [by apply vm_clock_spec|]. intros t e' [-> ->]. wp_step.
    rewrite (wrap_fits 64) by (unfold fits; lia). apply muldiv_ticks; [unfold fits; lia..|].
    set (k := _ mod 2 ^ 64). pose proof (countdown_bounds n k ltac:(lia)).
    wp_step. wp_step. apply set_dev_wp. wp_step.
    rewrite (wrap_fits 64), wrap_fits by (unfold fits; lia). split; [done|]. split; [lia|done].
  Qed.
End spec.

(** ** Witnesses *)
(** The RTC shows and counts 28 February 2008, 23:59:59, alarm at second 59, on a board
    of two wires at time 10 s. *)
Definition demo_env : wires * timers := board_at 2 10000000000.
Definition demo_date : tm := mkTm 59 59 23 28 1 108 4.
Definition demo_rtc : S5pc1xxRTCState := Eval vm_compute in
  (rtc_zero (Some 0%nat) (Some 1%nat))
    <| rtc_regs := foldl (fun l x => <[Z.to_nat x.1 := x.2]> l) (replicate 0x89 0)
         ([(RTC_CON, 0x101); (RTC_ALM, 0x51); (ALM_SEC, 0x59); (ALM_MON, 0x02); (TIC_CNT, 100)]
          ++ date_regs demo_date) |>
    <| current_tm := demo_date |> <| freq_out := 32768 |> <| last_tick := 9999000000 |>.
Definition demo_laws : EnvLaws (wires * timers) := board_laws 2.
Lemma demo_rtc_ok : rtc_ok (EnvLaws0 := demo_laws) demo_rtc demo_env.
Proof. split; [done|]. split; [apply board_at_ok|]. cbn. lia. Qed.
Lemma demo_shows : shows demo_rtc demo_date.
Proof.
  intros i v Hin. unfold date_regs in Hin.
  repeat (apply elem_of_cons in Hin as [[= -> ->]|Hin]; [reflexivity|]). by apply elem_of_nil in Hin.
Qed.
Lemma demo_valid : valid_tm demo_date.
Proof. repeat split; vm_compute; congruence. Qed.

Example rtc_next_second_witness :
  seconds (s5pc1xx_rtc_next_second demo_date) = seconds demo_date + 1.
Proof. apply (proj1 rtc_next_second demo_date), demo_valid. Defined.
Example rtc_date_roundtrip_witness :
  wp no_err (s5pc1xx_rtc_set_date demo_date ;;
             set_dev (fun s => s <| current_tm := mkTm 0 0 0 0 0 0 0 |>) ;;
             s5pc1xx_rtc_get_date)
     (fun _ se => current_tm se.1 = demo_date /\ shows se.1 demo_date)
     (rtc_zero None None, demo_env).
Proof. apply rtc_date_roundtrip; [reflexivity|apply demo_valid]. Defined.
Example rtc_second_witness :
  wp no_err s5pc1xx_rtc_second_update (fun _ '(s', e') =>
    current_tm s' = mkTm 0 0 0 29 1 108 5 /\ armed (EnvLaws := demo_laws) e' 1 = Some 11000000000)
    (demo_rtc, demo_env).
Proof.
  eapply wp_mono; [apply (rtc_second (EnvLaws0 := demo_laws) demo_rtc demo_env demo_rtc_ok);
                   [cbn; lia|reflexivity]|].
  intros [] [s' e'] (_ & H & _ & _ & _ & _ & Ha & _). by rewrite H.
Defined.
Example rtc_reset_overruns_witness :
  s5pc1xx_rtc_init (demo_rtc, demo_env) = Err Fault.
Proof. apply (rtc_reset_overruns (EnvLaws0 := demo_laws) demo_rtc demo_env 0 demo_rtc_ok). Defined.
Example rtc_alarm_month_witness : alarm_matches (rv demo_rtc) demo_date = false.
Proof.
  apply (rtc_alarm_month demo_rtc demo_date demo_shows demo_valid); reflexivity.
Defined.
Example rtc_tick_count_witness :
  wp no_err (s5pc1xx_rtc_read CUR_TIC_CNT) (fun v _ => 1 <= v <= 100) (demo_rtc, demo_env).
Proof.
  eapply wp_mono; [apply (rtc_tick_count (EnvLaws0 := demo_laws) demo_rtc demo_env demo_rtc_ok);
                   repeat split; vm_compute; congruence|].
  intros v se (_ & H & _). exact H.
Defined.
