(* ===== verification/Wdt.v ===== *)
(** * Wdt: the watchdog timer (hw/s5pc1xx_wdt.c)

    The frequency comes from the clock tree [cs] (file Clk), read-only here; calls of
    qemu_system_reset() are counted in [resets]. *)
From S2P Require Import Prelude HostUtils Irq Timers Device Clk.
From stdpp Require Import strings.
#[local] Open Scope Z_scope.

Definition WTCON : Z := 0x00.
Definition WTDAT : Z := 0x04.
Definition WTCNT : Z := 0x08.
Definition WTCLRINT : Z := 0x0C.
Definition PRESCALER_SHIFT : Z := 8.
Definition WDT_EN : Z := bit 5.
Definition CLK_SEL_SHIFT : Z := 3.
Definition INT_EN : Z := bit 2.
Definition RESET_EN : Z := bit 0.

Record S5pc1xxWDTState := mkWdt {
  irq : option nat; wdt_regs : list Z; wdt_timer : nat; freq_out : Z; ticnto_last_tick : Z;
  resets : nat
}.
#[export] Instance eta_wdt : Eta S5pc1xxWDTState := fun r => mkWdt
  (irq r) (wdt_regs r) (wdt_timer r) (freq_out r) (ticnto_last_tick r) (resets r).

#[export, program] Instance wdt_regfile : RegFile S5pc1xxWDTState := {|
  regs := wdt_regs;
  with_regs l s := s <| wdt_regs := l |>
|}.
Next Obligation. done. Qed.

Section handlers.
  Context {E : Type} `{!IrqBank E, !TimerBank E} (cs : clkst).
  Abbreviation WDT := (ST (S5pc1xxWDTState * E)).

Definition qemu_system_reset : WDT unit := set_dev (fun s => s <| resets := S (resets s) |>).

  (** [s5pc1xx_clk_getrate(s5pc1xx_findclk("pclk_66"))] *)
Definition pclk_rate : WDT Z := fun st =>
    match (i ← s5pc1xx_findclk "pclk_66"; s5pc1xx_clk_getrate i) cs with
    | Ok (r, _) => Ok (r, st)
    | Err e => Err e
    end.

Definition s5pc1xx_wdt_tick : WDT unit :=
    con ← reg WTCON;
    s ← dev;
    if truth (Z.land con WDT_EN) then
      when (truth (Z.land con INT_EN)) (on_bank (qemu_irq_raise (irq s))) ;;
      when (truth (Z.land con RESET_EN)) qemu_system_reset ;;
      t ← on_bank vm_clock;
      set_dev (fun s => s <| ticnto_last_tick := wrap 64 t |>) ;;
      dat ← reg WTDAT;
      s ← dev;
      d ← muldiv dat get_ticks_per_sec (freq_out s);
      on_bank (mod_timer (wdt_timer s) (s64 (wrap 64 (wrap 64 t + d))))
    else
      set_dev (fun s => s <| ticnto_last_tick := 0 |>) ;;
      on_bank (del_timer (wdt_timer s)).

  (** The frequency that control value [con] divides [rate] to. *)
Definition wdt_freq (rate con : Z) : Z :=
    let div_fac := Z.shiftl 16 (Z.land (Z.shiftr con CLK_SEL_SHIFT) 0x3) in
    let prescaler := Z.land (Z.shiftr con PRESCALER_SHIFT) 0xff in
    wrap 32 (Z.quot (Z.quot rate (prescaler + 1)) div_fac).

Definition s5pc1xx_wdt_update : WDT unit :=
    rate ← pclk_rate;
    con ← reg WTCON;
    set_dev (fun s => s <| freq_out := wdt_freq rate con |>) ;;
    s ← dev;
    if truth (freq_out s) then mret tt else hw_error.

Definition s5pc1xx_wdt_read (offset : Z) : WDT Z :=
    if offset <=? WTCNT then
      (if offset =? WTCNT then
         s ← dev;
         dat ← reg WTDAT;
         if truth (freq_out s) && truth (ticnto_last_tick s) && truth dat then
           t ← on_bank vm_clock;
           m ← muldiv (wrap 64 (t - ticnto_last_tick s)) (freq_out s) get_ticks_per_sec;
           set_reg WTCNT (wrap 32 (dat - m mod dat))
         else set_reg WTCNT 0
       else mret tt) ;;
      reg offset
    else hw_error.

Definition s5pc1xx_wdt_write (offset value : Z) : WDT unit :=
    if offset =? WTCON then
      con ← reg WTCON;
      when (Z.land value WDT_EN >? Z.land con WDT_EN)
        (set_reg WTCON value ;; s5pc1xx_wdt_update ;; s5pc1xx_wdt_tick) ;;
      set_reg WTCON value ;;
      s5pc1xx_wdt_update
    else if (offset =? WTDAT) || (offset =? WTCNT) then set_reg offset value
    else if offset =? WTCLRINT then s ← dev; on_bank (qemu_irq_lower (irq s))
    else hw_error.

Definition s5pc1xx_wdt_init : WDT unit :=
    set_reg WTDAT 0x00008000 ;;
    set_reg WTCNT 0x00008000 ;;
    s5pc1xx_wdt_write WTCON 0x00008001.
End handlers.

(** The device qdev allocates, its line connected. *)
Definition wdt_zero (line : option nat) : S5pc1xxWDTState := mkWdt line (replicate 9 0) 0 0 0 0.

(** ** The handlers against the laws of the environment *)
Section spec.
  Context {E : Type} `{!IrqBank E, !TimerBank E, !EnvLaws E} (cs : clkst) (rate : Z).
  Context (Hrate : result (i ← s5pc1xx_findclk "pclk_66"; s5pc1xx_clk_getrate i) cs = Some rate).
  Implicit Types (s : S5pc1xxWDTState) (e : E).

Definition wdt_ok s e : Prop := length (regs s) = 9%nat /\ irq_inv e /\ line_valid (irq s).
Lemma wp_pclk Er (Q : Z -> S5pc1xxWDTState * E -> Prop) st : Q rate st -> wp Er (pclk_rate cs) Q st.
  Proof.
    intros HQ. unfold wp, pclk_rate. unfold result in Hrate.
    match type of Hrate with match ?x with _ => _ end = _ => destruct x as [[r c]|] end; [|done].
    by injection Hrate as ->.
  Qed.
Lemma update_wp s e : wdt_ok s e -> truth (wdt_freq rate (rv s WTCON)) = true ->
    wp no_err (s5pc1xx_wdt_update cs)
       (fun _ se => se = (s <| freq_out := wdt_freq rate (rv s WTCON) |>, e)) (s, e).
  Proof.
    intros (Hl & _) Hf. unfold s5pc1xx_wdt_update. wp_step. apply wp_pclk. wp_step.
    apply reg_wp; [unfold WTCON; in_regs|]. wp_step. apply set_dev_wp. wp_step.
    apply dev_wp. cbn [freq_out upd]. rewrite Hf. by apply wp_ret.
  Qed.

  (** What one expiry of the running timer does. *)
Definition tick_post s e (con : Z) : S5pc1xxWDTState * E -> Prop := fun '(s', e') =>
    irq_inv e' /\ vm_now e' = vm_now e /\
    s' = s <| resets := if truth (Z.land con RESET_EN) then S (resets s) else resets s |>
           <| ticnto_last_tick := vm_now e |> /\
    (truth (Z.land con INT_EN) = true -> line_is e' (irq s) true) /\
    (forall n, truth (Z.land con INT_EN) = false \/ Some n <> irq s -> irq_level e' n = irq_level e n) /\
    (forall i, armed e' i = if (i =? wdt_timer s)%nat
       then Some (vm_now e + rv s WTDAT * 1000000000 / freq_out s) else armed e i).

Lemma tick_wp s e : wdt_ok s e -> truth (Z.land (rv s WTCON) WDT_EN) = true ->
    0 <= vm_now e < 2 ^ 62 -> 0 < freq_out s < 2 ^ 32 -> 0 <= rv s WTDAT < 2 ^ 32 ->
    wp no_err s5pc1xx_wdt_tick (fun _ => tick_post s e (rv s WTCON)) (s, e).
  Proof.
    intros (Hl & He & Hv) Hen Hnow Hf Hd. unfold s5pc1xx_wdt_tick.
    wp_step. apply reg_wp; [unfold WTCON; in_regs|]. wp_step. apply dev_wp. rewrite Hen.
    set (con := rv s WTCON). wp_step.
    apply (wp_mono _ _ (fun _ '(s1, e1) => s1 = s /\ irq_inv e1 /\ vm_now e1 = vm_now e /\
      (forall i, armed e1 i = armed e i) /\
      (truth (Z.land con INT_EN) = true -> line_is e1 (irq s) true) /\
      (forall n, truth (Z.land con INT_EN) = false \/ Some n <> irq s -> irq_level e1 n = irq_level e n))).
    { apply wp_when. destruct (truth (Z.land con INT_EN)) eqn:Ei; [|done].
      apply wp_on_bank. eapply wp_mono; [by apply env_set_irq|].
      intros [] e1 (H1 & H2 & H3 & H4 & H5). split_and!; try done. intros n [|Hn]; [done|]. by apply H3. }
    intros [] [s1 e1] (-> & He1 & Hn1 & Ha1 & Hl1 & Ho1). wp_step.
    set (s2 := s <| resets := if truth (Z.land con RESET_EN) then S (resets s) else resets s |>).
    apply (wp_mono _ _ (fun _ '(s', e') => s' = s2 /\ e' = e1)).
    { apply wp_when. subst s2. destruct (truth (Z.land con RESET_EN)); [|by destruct s].
      by apply set_dev_wp. }
    intros [] [s' e'] [-> ->]. wp_step. apply wp_on_bank.
    eapply wp_mono; [by apply vm_clock_spec|]. intros t e' [-> ->]. wp_step.
    apply set_dev_wp. wp_step. apply reg_wp; [unfold WTDAT; in_regs|]. wp_step. apply dev_wp.
    change (rv (s2 <| ticnto_last_tick := wrap 64 (vm_now e1) |>) WTDAT) with (rv s WTDAT).
    cbn [freq_out wdt_timer upd]. wp_step. unfold muldiv.
    change (freq_out s2) with (freq_out s). rewrite (proj2 (Z.eqb_neq (freq_out s) 0)) by lia.
    wp_step. rewrite muldiv64_val by (unfold fits, get_ticks_per_sec; lia).
    assert (0 <= rv s WTDAT * get_ticks_per_sec / freq_out s < 2 ^ 62) as Hdiv.
    { unfold get_ticks_per_sec. split; [apply Z.div_pos; lia|]. apply Z.div_lt_upper_bound; nia. }
    rewrite (Z.mod_small (_ / _)) by lia. rewrite (wrap_fits 64 (vm_now e1)) by (unfold fits; lia).
    rewrite wrap_fits by (unfold fits; lia). unfold s64. rewrite (proj2 (Z.ltb_lt _ _)) by lia.
    apply wp_on_bank. eapply wp_mono; [by apply mod_timer_spec|].
    intros [] e2 (He2 & Hn2 & Hlv & Ha2). split; [done|]. split; [congruence|].
    split; [by rewrite <- Hn1|]. split.
    { intros Hi. specialize (Hl1 Hi). destruct (irq s) as [n|]; [|done]. unfold line_is in *. by rewrite Hlv. }
    split; [intros n Hn; rewrite Hlv; by apply Ho1|].
    intros i. rewrite Ha2. change (wdt_timer s2) with (wdt_timer s).
    destruct (i =? wdt_timer s)%nat; [by rewrite Hn1|done].
  Qed.

  (** Enabling the watchdog fires it.  A write that turns WDT_EN on sets the
      frequency the value selects, arms the timer one full period of WTDAT ahead, and
      at once raises the interrupt (if INT_EN) and resets the system (if RESET_EN),
      as an expiry does, although no count has elapsed. *)
Theorem wdt_enable_fires s e value : wdt_ok s e -> fits 32 value ->
    truth (Z.land (rv s WTCON) WDT_EN) = false -> truth (Z.land value WDT_EN) = true ->
    0 <= vm_now e < 2 ^ 62 -> 0 <= rv s WTDAT < 2 ^ 32 -> truth (wdt_freq rate value) = true ->
    wp no_err (s5pc1xx_wdt_write cs WTCON value) (fun _ '(s', e') =>
      rv s' WTCON = value /\ freq_out s' = wdt_freq rate value /\
      resets s' = (if truth (Z.land value RESET_EN) then S (resets s) else resets s) /\
      (truth (Z.land value INT_EN) = true -> line_is e' (irq s) true) /\
      armed e' (wdt_timer s) = Some (vm_now e + rv s WTDAT * 1000000000 / wdt_freq rate value)) (s, e).
  Proof.
    intros (Hl & He & Hv) Hval Hoff Hon Hnow Hd Hf. unfold s5pc1xx_wdt_write.
    change (WTCON =? WTCON) with true. cbv iota. wp_step. apply reg_wp; [unfold WTCON; in_regs|].
    wp_step. apply wp_when. rewrite (proj1 (truth_false _) Hoff).
    assert (0 < Z.land value WDT_EN) as Hpos.
    { apply truth_true in Hon. assert (0 <= Z.land value WDT_EN); [|lia].
      apply Z.land_nonneg. left. apply Hval. }
    rewrite (proj2 (Z.gtb_lt _ _)) by done.
    wp_step. apply set_reg_wp; [unfold WTCON; in_regs|].
    assert (forall s0, length (regs s0) = 9%nat -> rv (with_reg s0 WTCON value) WTCON = value) as Hc
      by (intros; by rewrite rv_with_reg, Z.eqb_refl by (unfold WTCON; in_regs)).
    wp_step. eapply wp_mono; [apply update_wp; [by split; [rewrite with_reg_length|]|by rewrite Hc]|].
    intros [] se ->. rewrite Hc by done. set (s1 := _ <| freq_out := _ |>).
    assert (0 < freq_out s1 < 2 ^ 32) as Hf1.
    { subst s1. cbn [freq_out upd]. apply truth_true in Hf.
      assert (0 <= wdt_freq rate value < 2 ^ 32); [|lia]. apply (fits_wrap 32). lia. }
    assert (rv s1 WTCON = value) as Hc1 by (by apply Hc).
    assert (rv s1 WTDAT = rv s WTDAT) as Hd1.
    { change (rv s1 WTDAT) with (rv (with_reg s WTCON value) WTDAT).
      by rewrite rv_with_reg by (unfold WTCON; in_regs). }
    assert (wdt_ok s1 e) as Hok1 by (split; [subst s1; cbn; by rewrite length_insert|done]).
    eapply wp_mono; [apply tick_wp; rewrite ?Hc1, ?Hd1; done|]. rewrite Hc1.
    intros [] [s2 e2] (He2 & Hn2 & Hs2 & Hl2 & _ & Ha2).
    assert (length (regs s2) = 9%nat) as Hls2 by (rewrite Hs2; apply Hok1).
    wp_step. apply set_reg_wp; [unfold WTCON; in_regs|].
    eapply wp_mono; [apply update_wp; [split; [by rewrite with_reg_length|]; split; [done|]|by rewrite Hc]|].
    { unfold with_reg. cbn [irq upd]. by rewrite Hs2. }
    intros [] se ->. rewrite Hc by done. split; [by apply Hc|]. split; [done|].
    split; [unfold with_reg; cbn [resets upd]; by rewrite Hs2|]. split; [done|].
    rewrite Ha2, Nat.eqb_refl, Hd1. done.
  Qed.

  (** The watchdog count is in range: while the timer runs WTCNT reads WTDAT minus
      the ticks elapsed modulo WTDAT, between 1 and WTDAT, and a stopped watchdog
      reads 0. *)
Theorem wdt_count s e : wdt_ok s e -> 0 <= ticnto_last_tick s <= vm_now e -> vm_now e < 2 ^ 62 ->
    0 < freq_out s < 2 ^ 32 -> 0 <= rv s WTDAT < 2 ^ 32 ->
    let n := rv s WTDAT in
    wp no_err (s5pc1xx_wdt_read WTCNT) (fun v _ =>
      if truth (ticnto_last_tick s) && truth n
      then v = n - ((vm_now e - ticnto_last_tick s) * freq_out s / 1000000000) mod 2 ^ 64 mod n /\
           1 <= v <= n
      else v = 0) (s, e).
  Proof.
    intros (Hl & He & Hv) Hlt Hnow Hf Hd n. unfold s5pc1xx_wdt_read.
    change (WTCNT <=? WTCNT) with true. change (WTCNT =? WTCNT) with true. cbv iota.
    wp_step. wp_step. apply dev_wp. wp_step. apply reg_wp; [unfold WTDAT; in_regs|]. fold n.
    rewrite (proj2 (truth_true (freq_out s))) by lia. rewrite andb_true_l.
    assert (forall v (Q : Z -> S5pc1xxWDTState * E -> Prop), Q v (with_reg s WTCNT v, e) ->
      wp no_err (set_reg WTCNT v) (fun _ => wp no_err (reg WTCNT) Q) (s, e)) as Hrd.
    { intros v Q HQ. apply set_reg_wp; [unfold WTCNT; in_regs|].
      apply reg_wp; [unfold WTCNT; in_regs|].
      by rewrite rv_with_reg, Z.eqb_refl by (unfold WTCNT; in_regs). }
    destruct (truth (ticnto_last_tick s) && truth n) eqn:E1; [|by apply Hrd].
    apply andb_true_iff in E1 as [Ht%truth_true Hn%truth_true].
    wp_step. apply wp_on_bank. eapply wp_mono; [by apply vm_clock_spec|]. intros t e' [-> ->]. wp_step.
    rewrite (wrap_fits 64) by (unfold fits; lia). apply muldiv_ticks; [unfold fits; lia..|].
    set (k := _ mod 2 ^ 64). pose proof (countdown_bounds n k ltac:(subst n; lia)).
    apply Hrd. rewrite wrap_fits by (unfold fits; subst n; lia). done.
  Qed.
End spec.

(** ** Witnesses: the booted clock tree, one wire, time 5 s *)
Definition demo_env : wires * timers := board_at 1 5000000000.
Definition demo_laws : EnvLaws (wires * timers) := board_laws 1.
Definition demo_wdt : S5pc1xxWDTState :=
  mkWdt (Some 0%nat) (<[4%nat := 0x8000]> (<[0%nat := 0x8001]> (replicate 9 0))) 0 32568 0 0.
Lemma demo_wdt_ok s : length (regs s) = 9%nat -> irq s = Some 0%nat -> wdt_ok (EnvLaws0 := demo_laws) s demo_env.
Proof. intros Hl Hi. split; [done|]. split; [apply board_at_ok|]. rewrite Hi. cbn. lia. Qed.
Lemma demo_rate : result (i ← s5pc1xx_findclk "pclk_66"; s5pc1xx_clk_getrate i) clk_boot = Some 66700000.
Proof. vm_compute. reflexivity. Qed.

Example wdt_enable_fires_witness :
  wp no_err (s5pc1xx_wdt_write clk_boot WTCON 0x8025)
    (fun _ '(s', e') => resets s' = 1%nat /\ line_is (IrqBankLaws0 := @env_irq_laws _ _ _ demo_laws) e' (Some 0%nat) true)
    (demo_wdt, demo_env).
Proof.
  eapply wp_mono;
    [apply (wdt_enable_fires (EnvLaws0 := demo_laws) clk_boot 66700000 demo_rate demo_wdt demo_env 0x8025);
     [by apply demo_wdt_ok|unfold fits; lia|reflexivity|reflexivity|split; vm_compute; congruence
     |split; vm_compute; congruence|vm_compute; reflexivity]|].
  intros [] [s' e'] (_ & _ & Hr & Hi & _). split; [exact Hr|]. by apply Hi.
Defined.
Example wdt_count_witness :
  wp no_err (s5pc1xx_wdt_read WTCNT) (fun v _ => 1 <= v <= 0x8000)
    (demo_wdt <| ticnto_last_tick := 4900000000 |>, demo_env).
Proof.
  eapply wp_mono;
    [apply (wdt_count (EnvLaws0 := demo_laws) (demo_wdt <| ticnto_last_tick := 4900000000 |>) demo_env);
     [by apply demo_wdt_ok|split; vm_compute; congruence|vm_compute; congruence
     |split; vm_compute; congruence|split; vm_compute; congruence]|].
  intros v se [_ H]. exact H.
Defined.
