(* ===== verification/Uart.v ===== *)
(** * Uart: the serial port (hw/s5pc1xx_uart.c)

    The receive queue is an array with two indices; [queue_holds q l] says that it holds the bytes
    [l].  The device is specified by a bounded queue of bytes ([port]).  The character device
    behind the port is present or not ([chr]); the bytes written to it are the list [sent].
    The port keeps its interrupt line at the level of the pending register. *)
From S2P Require Import Prelude HostUtils Irq Timers Device.
#[local] Open Scope Z_scope.

Definition QUEUE_SIZE : Z := 257.
Definition INT_RXD : Z := bit 0.
Definition INT_ERROR : Z := bit 1.
Definition INT_TXD : Z := bit 2.
Definition TRSTATUS_TRANSMITTER_READY : Z := bit 2.
Definition TRSTATUS_BUFFER_EMPTY : Z := bit 1.
Definition TRSTATUS_DATA_READY : Z := bit 0.
Definition UFSTAT_RX_FIFO_FULL : Z := bit 8.
Definition UFCON_FIFO_ENABLED : Z := bit 0.
Definition UFCON_TX_LEVEL_SHIFT : Z := 8.
Definition UFCON_TX_LEVEL : Z := Z.shiftl 7 UFCON_TX_LEVEL_SHIFT.
Definition UFSTAT_TX_COUNT_SHIT : Z := 16.
Definition UFSTAT_TX_COUNT : Z := Z.shiftl 0xFF UFSTAT_TX_COUNT_SHIT.
Definition QI (x : Z) : Z := wrap 32 (x + 1) mod QUEUE_SIZE.

(** ** The receive queue *)
Record UartQueue := mkQueue { queue : list Z; q_s : Z; q_t : Z; size : Z }.
#[export] Instance eta_queue : Eta UartQueue := fun r => mkQueue (queue r) (q_s r) (q_t r) (size r).

Definition queue_elem_count (s : UartQueue) : Z :=
  if q_t s >=? q_s s then s32 (q_t s - q_s s) else s32 (QUEUE_SIZE - q_s s + q_t s).
Definition queue_empty_count (s : UartQueue) : Z := s32 (size s - queue_elem_count s - 1).
Definition queue_empty (s : UartQueue) : bool := queue_elem_count s =? 0.
Definition queue_push (x : Z) : ST UartQueue unit :=
  s ← get;
  a ← deref (wr (queue s) (q_t s) x);
  modify (fun s => s <| queue := a |>) ;;
  modify (fun s => s <| q_t := QI (q_t s) |>).
Definition queue_get : ST UartQueue Z :=
  s ← get;
  ret ← deref (rd (queue s) (q_s s));
  modify (fun s => s <| q_s := QI (q_s s) |>) ;;
  mret ret.
Definition queue_reset (s : UartQueue) : UartQueue := s <| q_s := 0 |> <| q_t := 0 |>.

(** ** The device *)
Record S5pc1xxUartState := mkUart {
  rx : UartQueue; ulcon : Z; ucon : Z; ufcon : Z; umcon : Z; utrstat : Z; uerstat : Z; ufstat : Z; umstat : Z;
  urxh : Z; ubrdiv : Z; udivslot : Z; uintp : Z; uintsp : Z; uintm : Z;
  chr : bool; irq : option nat; instance : Z; sent : list Z
}.
#[export] Instance eta_uart : Eta S5pc1xxUartState := fun r => mkUart
  (rx r) (ulcon r) (ucon r) (ufcon r) (umcon r) (utrstat r) (uerstat r) (ufstat r) (umstat r)
  (urxh r) (ubrdiv r) (udivslot r) (uintp r) (uintsp r) (uintm r) (chr r) (irq r) (instance r) (sent r).

(** The pins of devices: device, instance and event of a number. *)
Definition CASE_ID (device inst event : Z) : Z := Z.lor (Z.lor (Z.shiftl device 11) (Z.shiftl inst 6)) (Z.shiftl event 0).
Definition GPIO_IDX_UART : Z := 2.

(** [a && b] as an integer. *)
Definition c_and (a b : Z) : Z := Z.b2z (truth a && truth b).

Section handlers.
  Context {E : Type} `{!IrqBank E}.
  Abbreviation UART := (ST (S5pc1xxUartState * E)).

Definition on_rx {A} (m : ST UartQueue A) : UART A := fun '(s, e) =>
  match m (rx s) with Ok (a, q) => Ok (a, (s <| rx := q |>, e)) | Err x => Err x end.
Definition s5pc1xx_uart_update : UART unit :=
  s ← dev;
  when (truth (ufcon s) && truth UFCON_FIFO_ENABLED)
    (when (Z.shiftr (c_and (ufstat s) UFSTAT_TX_COUNT) UFSTAT_TX_COUNT_SHIT <=?
           Z.shiftr (c_and (ufcon s) UFCON_TX_LEVEL) UFCON_TX_LEVEL_SHIFT * 2)
       (set_dev (fun s => s <| uintsp := Z.lor (uintsp s) INT_TXD |>))) ;;
  set_dev (fun s => s <| uintp := Z.land (uintsp s) (not32 (uintm s)) |>) ;;
  s ← dev;
  on_bank (if truth (uintp s) then qemu_irq_raise (irq s) else qemu_irq_lower (irq s)).

Definition s5pc1xx_uart_mm_read (offset : Z) : UART Z :=
  s ← dev;
  if offset =? 0x00 then mret (ulcon s)
  else if offset =? 0x04 then mret (ucon s)
  else if offset =? 0x08 then mret (ufcon s)
  else if offset =? 0x0C then mret (umcon s)
  else if offset =? 0x10 then mret (utrstat s)
  else if offset =? 0x14 then set_dev (fun s => s <| uerstat := 0 |>) ;; mret (uerstat s)
  else if offset =? 0x18 then
    set_dev (fun s => s <| ufstat := Z.land (queue_elem_count (rx s)) 0xff |>) ;;
    when (queue_empty_count (rx s) =? 0) (set_dev (fun s => s <| ufstat := Z.lor (ufstat s) UFSTAT_RX_FIFO_FULL |>)) ;;
    s ← dev; mret (ufstat s)
  else if offset =? 0x1C then mret (umstat s)
  else if offset =? 0x24 then
    if truth (Z.land (ufcon s) 1) then
      if negb (queue_empty (rx s)) then
        res ← on_rx queue_get;
        s ← dev;
        set_dev (fun s => s <| utrstat := if queue_empty (rx s) then Z.land (utrstat s) (not32 TRSTATUS_DATA_READY)
                                          else Z.lor (utrstat s) TRSTATUS_DATA_READY |>) ;;
        mret res
      else
        set_dev (fun s => s <| uintsp := Z.lor (uintsp s) INT_ERROR |>) ;;
        s5pc1xx_uart_update ;;
        mret 0
    else
      set_dev (fun s => s <| utrstat := Z.land (utrstat s) (not32 TRSTATUS_DATA_READY) |>) ;;
      mret (urxh s)
  else if offset =? 0x28 then mret (ubrdiv s)
  else if offset =? 0x2C then mret (udivslot s)
  else if offset =? 0x30 then mret (uintp s)
  else if offset =? 0x34 then mret (uintsp s)
  else if offset =? 0x38 then mret (uintm s)
  else hw_error.

(** qemu_chr_write(s->chr, &ch, 1) *)
Definition chr_write (ch : Z) : UART unit := set_dev (fun s => s <| sent := sent s ++ [ch] |>).
Definition s5pc1xx_uart_mm_write (offset val : Z) : UART unit :=
  s ← dev;
  (if offset =? 0x00 then set_dev (fun s => s <| ulcon := val |>)
   else if offset =? 0x04 then set_dev (fun s => s <| ucon := val |>)
   else if offset =? 0x08 then
     set_dev (fun s => s <| ufcon := val |>) ;;
     when (truth (Z.land val 2)) (set_dev (fun s => s <| rx := queue_reset (rx s) |>)) ;;
     set_dev (fun s => s <| ufcon := Z.land (ufcon s) (not32 6) |>)
   else if offset =? 0x0C then set_dev (fun s => s <| umcon := val |>)
   else if offset =? 0x20 then
     when (chr s) (
       set_dev (fun s => s <| utrstat := Z.land (utrstat s) (not32 (Z.lor TRSTATUS_TRANSMITTER_READY TRSTATUS_BUFFER_EMPTY)) |>) ;;
       chr_write (wrap 8 val) ;;
       set_dev (fun s => s <| utrstat := Z.lor (utrstat s) (Z.lor TRSTATUS_TRANSMITTER_READY TRSTATUS_BUFFER_EMPTY) |>) ;;
       set_dev (fun s => s <| uintsp := Z.lor (uintsp s) INT_TXD |>))
   else if offset =? 0x28 then set_dev (fun s => s <| ubrdiv := val |>)
   else if offset =? 0x2C then set_dev (fun s => s <| udivslot := val |>)
   else if offset =? 0x30 then
     set_dev (fun s => s <| uintp := Z.land (uintp s) (not32 val) |>) ;;
     set_dev (fun s => s <| uintsp := Z.land (uintsp s) (not32 val) |>)
   else if offset =? 0x34 then set_dev (fun s => s <| uintsp := val |>)
   else if offset =? 0x38 then set_dev (fun s => s <| uintm := val |>)
   else hw_error) ;;
  s5pc1xx_uart_update.

Definition s5pc1xx_uart_can_receive (s : S5pc1xxUartState) : Z := queue_empty_count (rx s).
Definition s5pc1xx_uart_trigger_level : UART unit :=
  s ← dev;
  when (negb (queue_empty (rx s))) (set_dev (fun s => s <| uintsp := Z.lor (uintsp s) INT_RXD |>)).
(** The loops of the receiver: push buf[i] while i is below the bound, which the first loop
    computes anew each time. *)
Fixpoint push_from (fuel : nat) (bound : S5pc1xxUartState -> Z) (i : Z) (buf : list Z) : UART unit :=
  match fuel with
  | O => throw OutOfFuel
  | S fuel =>
    s ← dev;
    if i <? bound s then
      x ← deref (rd buf i);
      on_rx (queue_push x) ;;
      push_from fuel bound (i + 1) buf
    else mret tt
  end.
Definition s5pc1xx_uart_receive (buf : list Z) : UART unit :=
  let size := Z.of_nat (length buf) in
  s ← dev;
  (if truth (Z.land (ufcon s) 1) then
     (if queue_empty_count (rx s) <? size then
        push_from (S (length buf)) (fun s => queue_empty_count (rx s)) 0 buf ;;
        set_dev (fun s => s <| uintp := Z.lor (uintp s) INT_ERROR |>) ;;
        set_dev (fun s => s <| utrstat := Z.lor (utrstat s) TRSTATUS_DATA_READY |>)
      else
        push_from (S (length buf)) (fun _ => size) 0 buf ;;
        set_dev (fun s => s <| utrstat := Z.lor (utrstat s) TRSTATUS_DATA_READY |>)) ;;
     s5pc1xx_uart_trigger_level
   else
     c ← deref (rd buf 0);
     set_dev (fun s => s <| urxh := c |>) ;;
     set_dev (fun s => s <| uintsp := Z.lor (uintsp s) INT_RXD |>) ;;
     set_dev (fun s => s <| utrstat := Z.lor (utrstat s) TRSTATUS_DATA_READY |>)) ;;
  s5pc1xx_uart_update.

Definition s5pc1xx_uart_reset (s : S5pc1xxUartState) : S5pc1xxUartState :=
  s <| ulcon := 0 |> <| ucon := 0 |> <| ufcon := 0 |> <| umcon := 0 |> <| utrstat := 0x6 |> <| uerstat := 0 |>
    <| ufstat := 0 |> <| umstat := 0 |> <| ubrdiv := 0 |> <| udivslot := 0 |> <| uintp := 0 |> <| uintsp := 0 |>
    <| uintm := 0 |> <| rx := queue_reset (rx s) |>.
(** The port qdev allocates, with its properties and line, after s5pc1xx_uart_init1. *)
Definition uart_zero (queue_size inst : Z) (line : option nat) (c : bool) : S5pc1xxUartState :=
  mkUart (mkQueue (replicate 257 0) 0 0 queue_size) 0 0 0 0 0 0 0 0 0 0 0 0 0 0 c line inst [].
Definition s5pc1xx_uart_init1 (s : S5pc1xxUartState) : S5pc1xxUartState := s5pc1xx_uart_reset s.

(** Reading the pins of the port through the GPIO controller. *)
Definition s5pc1xx_uart_gpio_read (s : S5pc1xxUartState) (io_index : Z) : Z :=
  let pin := CASE_ID GPIO_IDX_UART (instance s) in
  if io_index =? pin 1 then Z.land (uintsp s) INT_RXD
  else if io_index =? pin 2 then Z.land (uintsp s) INT_TXD
  else if io_index =? pin 3 then not32 (Z.land (umstat s) 0x1)
  else if io_index =? pin 4 then not32 (Z.land (umcon s) 0x1)
  else if io_index =? CASE_ID GPIO_IDX_UART 0 5 then 0
  else if io_index =? CASE_ID GPIO_IDX_UART 0 6 then 0
  else 0.
End handlers.

(** ** The queue holds a list of bytes *)
Record queue_holds (q : UartQueue) (l : list Z) : Prop := mkHolds {
  hq_len : length (queue q) = 257%nat;
  hq_s : 0 <= q_s q < 257;
  hq_t : q_t q = (q_s q + Z.of_nat (length l)) mod 257;
  hq_size : Z.of_nat (length l) < size q <= 257;
  hq_at : forall i x, l !! i = Some x -> rd (queue q) ((q_s q + Z.of_nat i) mod 257) = Some x
}.
Lemma ring_index s n : 0 <= s < 257 -> 0 <= n < 257 -> (s + n) mod 257 = if s + n <? 257 then s + n else s + n - 257.
Proof.
  intros Hs Hn. destruct (Z.ltb_spec (s + n) 257); [apply Z.mod_small; lia|].
  symmetry. apply Z.mod_unique with 1; lia.
Qed.
Lemma elem_count q l : queue_holds q l -> queue_elem_count q = Z.of_nat (length l).
Proof.
  intros [_ Hs Ht Hz _]. unfold queue_elem_count. rewrite Ht, ring_index by lia. rewrite Z.geb_leb. change QUEUE_SIZE with 257.
  destruct (Z.ltb_spec (q_s q + Z.of_nat (length l)) 257).
  - rewrite (proj2 (Z.leb_le _ _)) by lia. rewrite s32_small; lia.
  - rewrite (proj2 (Z.leb_gt _ _)) by lia. rewrite s32_small; lia.
Qed.
Lemma empty_count q l : queue_holds q l -> queue_empty_count q = size q - 1 - Z.of_nat (length l).
Proof. intros Hq. unfold queue_empty_count. rewrite (elem_count _ _ Hq). pose proof (hq_size _ _ Hq). rewrite s32_small; lia. Qed.
Lemma queue_empty_spec q l : queue_holds q l -> queue_empty q = match l with [] => true | _ => false end.
Proof. intros Hq. unfold queue_empty. rewrite (elem_count _ _ Hq). by destruct l. Qed.
Lemma QI_spec s n : 0 <= s < 257 -> 0 <= n -> QI ((s + n) mod 257) = (s + (n + 1)) mod 257.
Proof.
  intros Hs Hn. unfold QI. pose proof (Z.mod_pos_bound (s + n) 257). rewrite wrap_fits by (unfold fits; lia).
  change QUEUE_SIZE with 257. rewrite Zplus_mod_idemp_l. f_equal. lia.
Qed.
Lemma push_wp Er q l x (Q : unit -> UartQueue -> Prop) : queue_holds q l -> Z.of_nat (length l) + 1 < size q ->
  (forall q', queue_holds q' (l ++ [x]) -> size q' = size q -> Q tt q') -> wp Er (queue_push x) Q q.
Proof.
  intros [Hl Hs Ht Hz Hat] Hr HQ. unfold queue_push. wp_step. wp_step. wp_step.
  assert (0 <= q_t q < Z.of_nat (length (queue q))) as Hb by (rewrite Hl, Ht; by apply Z.mod_pos_bound).
  pose proof (wr_Some _ _ x Hb) as Hw. eapply deref_wp; [exact Hw|]. wp_step. wp_step. wp_step. apply HQ; [|done].
  split; cbn -[Z.add QI].
  - by rewrite length_insert.
  - done.
  - rewrite Ht, QI_spec, length_app by lia. cbn. f_equal. lia.
  - rewrite length_app. cbn. lia.
  - intros i y Hi. rewrite (rd_wr _ _ _ _ _ Hw), Ht. apply lookup_app_Some in Hi as [Hi|[Hi1 Hi2]].
    + pose proof (lookup_lt_Some _ _ _ Hi). rewrite !ring_index by lia.
      destruct (Z.eqb_spec (if q_s q + Z.of_nat (length l) <? 257 then q_s q + Z.of_nat (length l) else q_s q + Z.of_nat (length l) - 257)
        (if q_s q + Z.of_nat i <? 257 then q_s q + Z.of_nat i else q_s q + Z.of_nat i - 257)) as [Heq|_].
      * exfalso. destruct (Z.ltb_spec (q_s q + Z.of_nat (length l)) 257), (Z.ltb_spec (q_s q + Z.of_nat i) 257); lia.
      * rewrite <- ring_index by lia. by apply Hat.
    + apply list_lookup_singleton_Some in Hi2 as [Hi0 <-]. replace i with (length l) by lia. by rewrite Z.eqb_refl.
Qed.
Lemma get_wp Er q l x (Q : Z -> UartQueue -> Prop) : queue_holds q (x :: l) ->
  (forall q', queue_holds q' l -> size q' = size q -> Q x q') -> wp Er queue_get Q q.
Proof.
  intros [Hl Hs Ht Hz Hat] HQ. unfold queue_get. wp_step. wp_step. wp_step. pose proof (Hat 0%nat x eq_refl) as H0.
  rewrite Z.add_0_r, Z.mod_small in H0 by lia. eapply deref_wp; [exact H0|]. wp_step. wp_step. wp_step. apply HQ; [|done].
  cbn in Ht, Hz. assert (QI (q_s q) = (q_s q + 1) mod 257) as E.
  { rewrite <- (Z.mod_small (q_s q) 257) at 1 by lia. rewrite <- (Z.add_0_r (q_s q)) at 1. by rewrite QI_spec by lia. }
  split; cbn -[Z.add QI]; rewrite ?E.
  - done.
  - by apply Z.mod_pos_bound.
  - rewrite Zplus_mod_idemp_l, Ht. f_equal. lia.
  - lia.
  - intros i y Hi. rewrite Zplus_mod_idemp_l, <- Z.add_assoc. replace (1 + Z.of_nat i) with (Z.of_nat (S i)) by lia. by apply Hat.
Qed.
Lemma reset_holds q l : queue_holds q l -> queue_holds (queue_reset q) [].
Proof. intros [Hl Hs Ht Hz Hat]. split; cbn; [done|lia|done|lia|done]. Qed.

(** ** What the port promises *)
Record port := mkPort { fifo_on : bool; held : list Z; holding : Z; transmitted : list Z }.
#[export] Instance eta_port : Eta port := fun r => mkPort (fifo_on r) (held r) (holding r) (transmitted r).
Inductive port_op := Receive (buf : list Z) | Read (offset : Z) | Write (offset val : Z).

Section port.
  (** The capacity of the queue, and whether there is a character device. *)
  Context (cap : Z) (present : bool).
Definition readable : list Z := [0x00; 0x04; 0x08; 0x0C; 0x10; 0x14; 0x18; 0x1C; 0x24; 0x28; 0x2C; 0x30; 0x34; 0x38].
Definition writable : list Z := [0x00; 0x04; 0x08; 0x0C; 0x20; 0x28; 0x2C; 0x30; 0x34; 0x38].
Definition op_ok (o : port_op) : Prop :=
  match o with
  | Receive buf => buf <> [] /\ Z.of_nat (length buf) < 2 ^ 31
  | Read offset => offset ∈ readable
  | Write offset _ => offset ∈ writable
  end.
(** What is taken of a block: all of it if it fits, as a queue should; what a policy leaves of
    it, from the free space, if it does not. *)
Definition taken (overflow : Z -> list Z -> list Z) (free : Z) (buf : list Z) : list Z :=
  if Z.of_nat (length buf) <=? free then buf else overflow free buf.
(** The policy of this device: the loop of s5pc1xx_uart_receive asks for the free space anew
    at each turn, so that it fills half of it and not all.  It is a bug of the code (a
    queue would take [take free]), and the only thing of it that the specification knows. *)
Definition half_fill (free : Z) (buf : list Z) : list Z := take (Z.to_nat ((free + 1) / 2)) buf.
(** The value the specification promises, if any, and the new state. *)
Definition queue_step (overflow : Z -> list Z -> list Z) (o : port_op) (p : port) : option Z * port :=
  let n := Z.of_nat (length (held p)) in
  match o with
  | Receive buf => (None, if fifo_on p then p <| held := held p ++ taken overflow (cap - n) buf |>
                          else p <| holding := List.hd 0 buf |>)
  | Read offset =>
    if offset =? 0x18 then (Some (Z.lor (Z.land n 0xff) (if n =? cap then bit 8 else 0)), p)
    else if offset =? 0x24 then
      if fifo_on p then match held p with [] => (Some 0, p) | x :: l => (Some x, p <| held := l |>) end
      else (Some (holding p), p)
    else (None, p)
  | Write offset val =>
    (None, if offset =? 0x08 then
             p <| fifo_on := Z.testbit val 0 |> <| held := if Z.testbit val 1 then [] else held p |>
           else if (offset =? 0x20) && present then p <| transmitted := transmitted p ++ [val mod 256] |>
           else p)
  end.
Definition port_step : port_op -> port -> option Z * port := queue_step half_fill.
Fixpoint queue_run (overflow : Z -> list Z -> list Z) (ops : list port_op) (p : port) : list (option Z) * port :=
  match ops with
  | [] => ([], p)
  | o :: ops =>
    let '(r, p) := queue_step overflow o p in
    let '(rs, p) := queue_run overflow ops p in (r :: rs, p)
  end.
(** Every block fits when it comes, as s5pc1xx_uart_can_receive asks of the sender. *)
Fixpoint blocks_fit (ops : list port_op) (p : port) : bool :=
  match ops with
  | [] => true
  | o :: ops =>
    (match o with Receive buf => negb (fifo_on p) || (Z.of_nat (length buf) <=? cap - Z.of_nat (length (held p))) | _ => true end) &&
    blocks_fit ops (queue_step half_fill o p).2
  end.
Fixpoint port_run (ops : list port_op) (p : port) : list (option Z) * port :=
  match ops with
  | [] => ([], p)
  | o :: ops =>
    let '(r, p) := port_step o p in
    let '(rs, p) := port_run ops p in (r :: rs, p)
  end.
Definition keeps_promise (promised got : option Z) : Prop := promised <> None -> got = promised.

Section refinement.
  Context {E : Type} `{!IrqBank E, !IrqBankLaws E}.
  Abbreviation UART := (ST (S5pc1xxUartState * E)).
Definition uart_op (o : port_op) : UART (option Z) :=
  match o with
  | Receive buf => s5pc1xx_uart_receive buf ;; mret None
  | Read offset => v ← s5pc1xx_uart_mm_read offset; mret (Some v)
  | Write offset val => s5pc1xx_uart_mm_write offset val ;; mret None
  end.
Fixpoint uart_run (ops : list port_op) : UART (list (option Z)) :=
  match ops with
  | [] => mret []
  | o :: ops => r ← uart_op o; rs ← uart_run ops; mret (r :: rs)
  end.

(** The device holds what the specification says. *)
Record represents (s : S5pc1xxUartState) (e : E) (p : port) : Prop := mkRep {
  rp_rx : queue_holds (rx s) (held p);
  rp_size : size (rx s) = cap + 1;
  rp_on : truth (Z.land (ufcon s) 1) = fifo_on p;
  rp_holding : urxh s = holding p;
  rp_sent : sent s = transmitted p;
  rp_chr : chr s = present;
  rp_env : irq_inv e;
  rp_line : line_valid (irq s)
}.
(** The line is at the level of the pending register, which shows the unmasked sources. *)
Record settled (s : S5pc1xxUartState) (e : E) : Prop := mkSettled {
  st_line : line_is e (irq s) (truth (uintp s));
  st_pending : uintp s = Z.land (uintsp s) (not32 (uintm s))
}.

Lemma wp_on_rx {A} Er (m : ST UartQueue A) (Q : A -> S5pc1xxUartState * E -> Prop) s e :
  wp Er (on_rx m) Q (s, e) <-> wp Er m (fun a q => Q a (s <| rx := q |>, e)) (rx s).
Proof. unfold wp, on_rx. by destruct (m (rx s)) as [[??]|]. Qed.
Lemma uart_update_wp s e p (Q : unit -> S5pc1xxUartState * E -> Prop) : represents s e p ->
  (forall s' e', represents s' e' p -> settled s' e' ->
     uintsp s' = (if truth (ufcon s) then Z.lor (uintsp s) INT_TXD else uintsp s) -> uintm s' = uintm s -> Q tt (s', e')) ->
  wp no_err s5pc1xx_uart_update Q (s, e).
Proof.
  intros [H1 H2 H3 H4 H5 H6 H7 H8] HQ. unfold s5pc1xx_uart_update. wp_step. apply dev_wp. wp_step.
  apply (wp_mono _ _ (fun _ x => x = (s <| uintsp := if truth (ufcon s) then Z.lor (uintsp s) INT_TXD else uintsp s |>, e))).
  { destruct (truth (ufcon s)) eqn:Hu; [|by destruct s]. unfold c_and. rewrite Hu, !andb_true_r.
    by destruct (truth (ufstat s)); apply set_dev_wp. }
  intros [] x ->. wp_step. apply set_dev_wp. wp_step. apply dev_wp. cbn [uintp irq upd].
  set (s' := _ <| uintp := _ |>). apply wp_on_bank.
  replace (if truth (uintp s') then qemu_irq_raise (irq s') else qemu_irq_lower (irq s'))
    with (qemu_set_irq (irq s) (if truth (uintp s') then 1 else 0)) by (by destruct (truth (uintp s'))).
  eapply wp_mono; [by apply qemu_set_irq_spec|]. intros [] e' (He & Hl & _). apply HQ; [by split| |done|done].
  split; [|done]. change (irq s') with (irq s). destruct (truth (uintp s')); exact Hl.
Qed.

(** ** Receiving *)
Lemma push_from_wp (b : S5pc1xxUartState -> Z) buf (Q : unit -> S5pc1xxUartState * E -> Prop) e m : forall fuel i l s,
  queue_holds (rx s) l -> size (rx s) = cap + 1 -> Z.of_nat (length l) + Z.of_nat m <= cap -> (i + m <= length buf)%nat -> (m < fuel)%nat ->
  (forall j q, (j <= m)%nat -> queue_holds q (l ++ take j (drop i buf)) -> size q = cap + 1 ->
     (Z.of_nat (i + j) <? b (s <| rx := q |>)) = (j <? m)%nat) ->
  (forall q, queue_holds q (l ++ take m (drop i buf)) -> size q = cap + 1 -> Q tt (s <| rx := q |>, e)) ->
  wp no_err (push_from fuel b (Z.of_nat i) buf) Q (s, e).
Proof.
  induction m as [|m IH]; intros fuel i l s Hh Hz Hc Hi Hf Hb HQ; (destruct fuel as [|fuel]; [lia|]); cbn [push_from]; wp_step; apply dev_wp.
  - specialize (Hb 0%nat (rx s)). rewrite Nat.add_0_r in Hb. rewrite take_0, app_nil_r in Hb.
    replace (s <| rx := rx s |>) with s in Hb by (by destruct s). rewrite Hb by (done || lia). change (0 <? 0)%nat with false. cbn match. wp_step.
    replace s with (s <| rx := rx s |>) by (by destruct s). apply HQ; [by rewrite take_0, app_nil_r|done].
  - pose proof (Hb 0%nat (rx s)) as Hb0. rewrite Nat.add_0_r in Hb0. rewrite take_0, app_nil_r in Hb0.
    replace (s <| rx := rx s |>) with s in Hb0 by (by destruct s). rewrite Hb0 by (done || lia). change (0 <? S m)%nat with true. cbn match.
    assert (is_Some (buf !! i)) as [x Hx] by (apply lookup_lt_is_Some; lia).
    pose proof (drop_S _ _ _ Hx) as Hd.
    wp_step. eapply deref_wp; [unfold rd; rewrite (proj2 (Z.leb_le 0 _)), Nat2Z.id by lia; exact Hx|].
    wp_step. apply wp_on_rx. apply (push_wp _ _ l); [done|lia|]. intros q1 Hq1 Hz1.
    replace (Z.of_nat i + 1) with (Z.of_nat (S i)) by lia.
    apply (IH fuel (S i) (l ++ [x])); [done|cbn; lia|rewrite length_app; cbn; lia|lia|lia| |].
    + intros j q Hj Hq Hzq. change (s <| rx := q1 |> <| rx := q |>) with (s <| rx := q |>).
      replace (S i + j)%nat with (i + S j)%nat by lia. rewrite (Hb (S j) q); [done|lia| |done].
      rewrite Hd. cbn [take]. by rewrite <- app_assoc in Hq.
    + intros q Hq Hzq. change (s <| rx := q1 |> <| rx := q |>) with (s <| rx := q |>). apply HQ; [|done].
      rewrite Hd. cbn [take]. by rewrite <- app_assoc in Hq.
Qed.
(** The two receive loops of a port with [free] bytes of space. *)
Lemma push_all_wp s e l buf (Q : unit -> S5pc1xxUartState * E -> Prop) : queue_holds (rx s) l -> size (rx s) = cap + 1 ->
  Z.of_nat (length l) + Z.of_nat (length buf) <= cap ->
  (forall q, queue_holds q (l ++ buf) -> size q = cap + 1 -> Q tt (s <| rx := q |>, e)) ->
  wp no_err (push_from (S (length buf)) (fun _ => Z.of_nat (length buf)) 0 buf) Q (s, e).
Proof.
  intros Hh Hz Hc HQ. apply (push_from_wp _ _ _ _ (length buf) _ 0 l); [done|done|lia|lia|lia| |].
  - intros j q Hj _ _. cbv beta. destruct (Nat.ltb_spec j (length buf)); [apply Z.ltb_lt; lia|apply Z.ltb_ge; lia].
  - rewrite drop_0, firstn_all. exact HQ.
Qed.
Lemma push_half_wp s e l buf (Q : unit -> S5pc1xxUartState * E -> Prop) : queue_holds (rx s) l -> size (rx s) = cap + 1 ->
  let free := cap - Z.of_nat (length l) in free < Z.of_nat (length buf) ->
  (forall q, queue_holds q (l ++ take (Z.to_nat ((free + 1) / 2)) buf) -> size q = cap + 1 -> Q tt (s <| rx := q |>, e)) ->
  wp no_err (push_from (S (length buf)) (fun s => queue_empty_count (rx s)) 0 buf) Q (s, e).
Proof.
  intros Hh Hz free Hc HQ. pose proof (hq_size _ _ Hh) as Hs. rewrite Hz in Hs.
  pose proof (Z.div_mod (free + 1) 2 ltac:(lia)). pose proof (Z.mod_pos_bound (free + 1) 2 ltac:(lia)).
  apply (push_from_wp _ _ _ _ (Z.to_nat ((free + 1) / 2)) _ 0 l); [done|done|lia|lia|lia| |].
  - intros j q Hj Hq Hzq. cbn [rx upd]. change (rx (s <| rx := q |>)) with q. rewrite (empty_count _ _ Hq), Hzq, length_app, length_take.
    rewrite drop_0. destruct (Nat.ltb_spec j (Z.to_nat ((free + 1) / 2))); [apply Z.ltb_lt; lia|apply Z.ltb_ge; lia].
  - by rewrite drop_0.
Qed.
Lemma uart_trigger_wp s e (Q : unit -> S5pc1xxUartState * E -> Prop) :
  (forall x, Z.testbit x 1 = Z.testbit (uintsp s) 1 -> Q tt (s <| uintsp := x |>, e)) -> wp no_err s5pc1xx_uart_trigger_level Q (s, e).
Proof.
  intros HQ. unfold s5pc1xx_uart_trigger_level. wp_step. apply dev_wp. wp_step. destruct (negb _); [apply set_dev_wp, HQ|].
  { by rewrite Z.lor_spec, orb_false_r. }
  replace s with (s <| uintsp := uintsp s |>) by (by destruct s). by apply HQ.
Qed.
(** The error source is as before. *)
Definition error_kept (s s' : S5pc1xxUartState) : Prop := Z.testbit (uintsp s') 1 = Z.testbit (uintsp s) 1 /\ uintm s' = uintm s.
Lemma update_error_wp s e p (Q : unit -> S5pc1xxUartState * E -> Prop) : represents s e p ->
  (forall s' e', represents s' e' p -> settled s' e' -> error_kept s s' -> Q tt (s', e')) -> wp no_err s5pc1xx_uart_update Q (s, e).
Proof.
  intros Hr HQ. eapply uart_update_wp; [done|]. intros s' e' H1 H2 Hu Hm. apply HQ; [done..|]. split; [|done]. rewrite Hu.
  destruct (truth _); [|done]. by rewrite Z.lor_spec, orb_false_r.
Qed.
Lemma uart_receive_wp s e p buf : represents s e p -> buf <> [] ->
  wp no_err (s5pc1xx_uart_receive buf) (fun _ x =>
    represents x.1 x.2 (port_step (Receive buf) p).2 /\ settled x.1 x.2 /\ error_kept s x.1) (s, e).
Proof.
  intros Hr Hb. pose proof Hr as [H1 H2 H3 H4 H5 H6 H7 H8]. pose proof (empty_count _ _ H1) as Hec. rewrite H2 in Hec.
  unfold s5pc1xx_uart_receive. wp_step. apply dev_wp. unfold port_step. cbn [queue_step snd]. rewrite H3. wp_step. destruct (fifo_on p) eqn:Hon; rewrite <- Hon in H3.
  - wp_step. apply (wp_mono _ _ (fun _ x => represents x.1 x.2 (p <| held := held p ++ taken half_fill (cap - Z.of_nat (length (held p))) buf |>) /\ error_kept s x.1)).
    { rewrite Hec. unfold taken. destruct (Z.ltb_spec (cap + 1 - 1 - Z.of_nat (length (held p))) (Z.of_nat (length buf))) as [Hlt|Hge].
      - rewrite (proj2 (Z.leb_gt _ _)) by lia. wp_step. apply (push_half_wp _ _ (held p)); [done|done|lia|]. intros q Hq Hz.
        wp_step. apply set_dev_wp. apply set_dev_wp. by split; [split|].
      - rewrite (proj2 (Z.leb_le _ _)) by lia. wp_step. apply (push_all_wp _ _ (held p)); [done|done|lia|]. intros q Hq Hz.
        apply set_dev_wp. by split; [split|]. }
    intros [] [s1 e1] [R1 [K1 K2]]. cbn [fst snd] in R1, K1, K2. apply uart_trigger_wp. intros x Hx. eapply update_error_wp; [destruct R1; split; done|].
    intros s2 e2 R2 S2 [K3 K4]. split; [done|]. split; [done|]. split; [exact (eq_trans K3 (eq_trans Hx K1))|exact (eq_trans K4 K2)].
  - destruct buf as [|c buf]; [done|]. wp_step. eapply deref_wp; [reflexivity|]. wp_step. apply set_dev_wp. wp_step. apply set_dev_wp.
    apply set_dev_wp. eapply (update_error_wp _ _ (p <| holding := c |>)); [by split|]. intros s2 e2 R2 S2 [K3 K4]. split; [done|]. split; [done|].
    split; [|exact K4]. refine (eq_trans K3 (eq_trans (Z.lor_spec _ _ _) _)). apply orb_false_r.
Qed.

(** ** Register accesses *)
Lemma no_promise v : keeps_promise None v.
Proof. by intros H. Qed.
Lemma low_bits_kept v : truth (Z.land (Z.land v (not32 6)) 1) = Z.testbit v 0.
Proof. rewrite (truth_land_bit _ 0) by done. rewrite Z.land_spec. change (Z.testbit (not32 6) 0) with true. apply andb_true_r. Qed.
Lemma uart_read_wp s e p offset : represents s e p -> settled s e -> offset ∈ readable ->
  wp no_err (s5pc1xx_uart_mm_read offset) (fun v x => keeps_promise (port_step (Read offset) p).1 (Some v) /\
    represents x.1 x.2 (port_step (Read offset) p).2 /\ settled x.1 x.2) (s, e).
Proof.
  intros Hr Hs Ho. pose proof Hr as [H1 H2 H3 H4 H5 H6 H7 H8]. pose proof Hs as [S1 S2]. unfold s5pc1xx_uart_mm_read. wp_step. apply dev_wp.
  unfold readable in Ho. repeat (apply elem_of_cons in Ho as [->|Ho]); [..|by apply elem_of_nil in Ho];
    unfold port_step; cbn [Z.eqb Pos.eqb queue_step fst snd]; try by (wp_step; split; [apply no_promise|]).
  - wp_step. apply set_dev_wp. wp_step. rewrite (empty_count _ _ H1), (elem_count _ _ H1), H2.
    apply (wp_mono _ _ (fun _ x => exists v, x = (s <| ufstat := v |>, e) /\
      v = Z.lor (Z.land (Z.of_nat (length (held p))) 255) (if Z.of_nat (length (held p)) =? cap then bit 8 else 0))).
    { wp_step. destruct (Z.eqb_spec (cap + 1 - 1 - Z.of_nat (length (held p))) 0), (Z.eqb_spec (Z.of_nat (length (held p))) cap); try lia.
      - apply set_dev_wp. by eexists.
      - eexists. split; [done|]. by rewrite Z.lor_0_r. }
    intros [] x (v & -> & Hv). wp_step. apply dev_wp. wp_step. split; [by intros _; rewrite Hv|]. by split; split.
  - rewrite H3, (queue_empty_spec _ _ H1). destruct (fifo_on p) eqn:Hon; rewrite <- Hon in H3.
    + destruct (held p) as [|x l] eqn:Hl; cbn [negb fst snd].
      * wp_step. apply set_dev_wp. wp_step. eapply (uart_update_wp _ _ p); [split; rewrite ?Hl; done|]. intros s1 e1 R1 S3 _ _. wp_step.
        split; [done|]. by split.
      * wp_step. apply wp_on_rx. eapply get_wp; [done|]. intros q Hq Hz. wp_step. apply dev_wp. wp_step. apply set_dev_wp. wp_step.
        split; [done|]. split; [|done]. split; cbn; congruence.
    + cbn [fst snd]. wp_step. apply set_dev_wp. wp_step. split; [by rewrite H4|]. split; [|done]. by split.
Qed.
Lemma uart_write_wp s e p offset val : represents s e p -> offset ∈ writable ->
  wp no_err (s5pc1xx_uart_mm_write offset val) (fun _ x => represents x.1 x.2 (port_step (Write offset val) p).2 /\ settled x.1 x.2) (s, e).
Proof.
  intros Hr Ho. pose proof Hr as [H1 H2 H3 H4 H5 H6 H7 H8]. unfold s5pc1xx_uart_mm_write. wp_step. apply dev_wp. wp_step.
  eapply (wp_mono _ _ (fun _ x => represents x.1 x.2 (port_step (Write offset val) p).2)).
  2: { intros [] [s1 e1] R1. cbn [fst snd] in R1. eapply uart_update_wp; [exact R1|]. intros s2 e2 R2 S2 _ _. by split. }
  unfold writable in Ho. repeat (apply elem_of_cons in Ho as [->|Ho]); [..|by apply elem_of_nil in Ho];
    unfold port_step; cbn [Z.eqb Pos.eqb queue_step fst snd]; try by (apply set_dev_wp; split).
  - wp_step. apply set_dev_wp. wp_step. pose proof (truth_land_bit val 1 ltac:(done)) as Hv. change (bit 1) with 2 in Hv. rewrite Hv.
    apply (wp_mono _ _ (fun _ x => x = (s <| ufcon := val |> <| rx := if Z.testbit val 1 then queue_reset (rx s) else rx s |>, e))).
    { wp_step. destruct (Z.testbit val 1); [by apply set_dev_wp|by destruct s]. }
    intros [] x ->. apply set_dev_wp. split; cbn [fst snd]; try done.
    + cbn -[Z.testbit]. destruct (Z.testbit val 1); [by eapply reset_holds|done].
    + cbn -[Z.testbit]. by destruct (Z.testbit val 1).
    + apply low_bits_kept.
  - cbn [andb]. wp_step. rewrite H6. destruct present eqn:Hp; [|by rewrite <- Hp in H6].
    wp_step. apply set_dev_wp. wp_step. apply set_dev_wp. wp_step. apply set_dev_wp. apply set_dev_wp.
    split; cbn [fst snd]; try done; cbn; [by rewrite H5|by rewrite H6].
Qed.
Lemma uart_op_wp s e p o : represents s e p -> settled s e -> op_ok o ->
  wp no_err (uart_op o) (fun r x => keeps_promise (port_step o p).1 r /\ represents x.1 x.2 (port_step o p).2 /\ settled x.1 x.2) (s, e).
Proof.
  intros Hr Hs Ho. destruct o as [buf|offset|offset val]; cbn [uart_op op_ok] in *; wp_step.
  - eapply wp_mono; [apply (uart_receive_wp s e p buf); [done|apply Ho]|]. intros [] x (R1 & S1 & _). wp_step. by split; [apply no_promise|].
  - eapply wp_mono; [by apply uart_read_wp|]. intros v x H. by wp_step.
  - eapply wp_mono; [by apply uart_write_wp|]. intros [] x [R1 S1]. wp_step. by split; [apply no_promise|].
Qed.
Lemma uart_run_wp ops : forall s e p, represents s e p -> settled s e -> Forall op_ok ops ->
  wp no_err (uart_run ops) (fun rs x => Forall2 keeps_promise (port_run ops p).1 rs /\
    represents x.1 x.2 (port_run ops p).2 /\ settled x.1 x.2) (s, e).
Proof.
  induction ops as [|o ops IH]; intros s e p Hr Hs Ho; cbn [uart_run port_run].
  { wp_step. by split; [constructor|]. }
  apply Forall_cons_1 in Ho as [Ho Hops]. wp_step. eapply wp_mono; [by apply uart_op_wp|].
  intros r [s1 e1] (K & R1 & S1). destruct (port_step o p) as [r1 p1]. cbn [fst snd] in *. wp_step.
  eapply wp_mono; [by apply (IH s1 e1 p1)|]. intros rs x (K2 & R2 & S2). destruct (port_run ops p1) as [rs1 p2]. cbn [fst snd] in *.
  wp_step. by split; [constructor|].
Qed.

(** Blocks that fit are queued whatever the policy. *)
Lemma fit_run overflow ops p : blocks_fit ops p = true -> queue_run overflow ops p = port_run ops p.
Proof.
  revert p. induction ops as [|o ops IH]; intros p H; [done|]. cbn [queue_run port_run blocks_fit] in *.
  apply andb_true_iff in H as [Ho H].
  assert (queue_step overflow o p = port_step o p) as ->.
  { unfold port_step. destruct o as [buf|off|off v]; [|done..]. cbn [queue_step]. unfold taken.
    apply orb_true_iff in Ho as [->%negb_true_iff|Ho]; [done|]. by rewrite Ho. }
  unfold port_step. destruct (queue_step half_fill o p) as [r p1]. cbn [snd] in H. by rewrite IH.
Qed.
(** C12: the serial port implements the bounded queue of bytes of its specification.  From any
    state that represents a queue, every sequence of received blocks and of accesses to
    defined registers runs without fault; each value the specification promises is read
    (the bytes received in order, the fill level, the holding register without the queue);
    the bytes sent are those of the specification; and afterwards the interrupt line is high
    exactly when an unmasked source is pending.  As long as every block fits, the
    specification is that of a queue, whatever it would do with one that does not; of a
    block that does not fit, which the device's can_receive tells the sender not to send,
    the code takes half the free space. *)
Theorem uart_refines s e p ops : represents s e p -> settled s e -> Forall op_ok ops ->
  exists rs s' e', uart_run ops (s, e) = Ok (rs, (s', e')) /\ Forall2 keeps_promise (port_run ops p).1 rs /\
    represents s' e' (port_run ops p).2 /\
    line_is e' (irq s') (truth (Z.land (uintsp s') (not32 (uintm s')))) /\
    forall overflow, blocks_fit ops p = true -> queue_run overflow ops p = port_run ops p.
Proof.
  intros Hr Hs Ho. pose proof (uart_run_wp ops s e p Hr Hs Ho) as H. apply wp_total_ex in H as (rs & [s' e'] & Hrun & K & R & [S1 S2]).
  exists rs, s', e'. split; [exact Hrun|]. split; [exact K|]. split; [exact R|].
  cbn [fst] in S2. rewrite <- S2. split; [exact S1|]. intros overflow. apply fit_run.
Qed.

(** A block of bytes longer than the free space of the queue is cut, and nothing says so:
    only the first half of the free space is filled (the loop compares its counter with the
    space that is left), and the error the handler sets in the pending register is
    overwritten before it returns, so that the error is pending only if it was a source
    before. *)
Theorem uart_overflow s e p buf : represents s e p -> fifo_on p = true ->
  let free := cap - Z.of_nat (length (held p)) in free < Z.of_nat (length buf) ->
  exists s' e', s5pc1xx_uart_receive buf (s, e) = Ok (tt, (s', e')) /\
    queue_holds (rx s') (held p ++ take (Z.to_nat ((free + 1) / 2)) buf) /\
    Z.testbit (uintp s') 1 = Z.testbit (uintsp s) 1 && Z.testbit (not32 (uintm s)) 1.
Proof.
  intros Hr Hon free Hf. assert (buf <> []) as Hb.
  { intros ->. pose proof (hq_size _ _ (rp_rx _ _ _ Hr)). rewrite (rp_size _ _ _ Hr) in *. cbn in Hf. unfold free in Hf. lia. }
  pose proof (uart_receive_wp s e p buf Hr Hb) as H. apply wp_total_ex in H as ([] & [s' e'] & Hrun & R & [S1 S2] & K1 & K2).
  exists s', e'. split; [exact Hrun|]. unfold port_step in R. cbn [queue_step snd] in R. rewrite Hon in R. split.
  - pose proof (rp_rx _ _ _ R) as Hh. cbn in Hh. unfold taken in Hh. fold free in Hh. by rewrite (proj2 (Z.leb_gt _ _)) in Hh by lia.
  - cbn [fst] in *. by rewrite S2, Z.land_spec, K1, K2.
Qed.
End refinement.
End port.

(** ** Witnesses: the third port of the board, its line low *)
Definition demo_env : wires := qemu_allocate_irqs 1.
Definition demo_uart : S5pc1xxUartState := s5pc1xx_uart_init1 (uart_zero 16 2 (Some 0%nat) true).
Lemma demo_represents : represents (IrqBankLaws0 := wires_laws 1) 15 true demo_uart demo_env (mkPort false [] 0 []).
Proof. split; [split; [done|cbn; lia|done|cbn; lia|done]|done..|]. cbn. lia. Qed.
Lemma demo_settled : settled (IrqBankLaws0 := wires_laws 1) demo_uart demo_env.
Proof. by split. Qed.
Definition demo_ops : list port_op := [Write 0x08 1; Receive [65; 66]; Read 0x24; Write 0x20 67; Read 0x24; Read 0x18].
Lemma demo_ops_ok : Forall op_ok demo_ops.
Proof.
  repeat apply Forall_cons_2; [..|apply Forall_nil_2]; unfold op_ok, readable, writable;
    first [split; [discriminate|reflexivity]|repeat (first [apply list_elem_of_here|apply list_elem_of_further])].
Qed.
Lemma demo_promise : port_run 15 true demo_ops (mkPort false [] 0 []) =
  ([None; None; Some 65; None; Some 66; Some 0], mkPort true [] 0 [67]).
Proof. vm_compute. reflexivity. Qed.
Example uart_refines_witness : exists rs s' e', uart_run demo_ops (demo_uart, demo_env) = Ok (rs, (s', e')) /\
  Forall2 keeps_promise [None; None; Some 65; None; Some 66; Some 0] rs /\ sent s' = [67].
Proof.
  destruct (uart_refines (IrqBankLaws0 := wires_laws 1) 15 true demo_uart demo_env (mkPort false [] 0 []) demo_ops
    demo_represents demo_settled demo_ops_ok) as (rs & s' & e' & Hrun & K & R & _).
  rewrite demo_promise in K, R. exists rs, s', e'. split; [exact Hrun|]. split; [exact K|exact (rp_sent _ _ _ _ _ R)].
Defined.
Lemma demo_on_represents :
  represents (IrqBankLaws0 := wires_laws 1) 15 true (demo_uart <| ufcon := 1 |>) demo_env (mkPort true [] 0 []).
Proof. split; [split; [done|cbn; lia|done|cbn; lia|done]|done..|]. cbn. lia. Qed.
Example uart_overflow_witness : exists s' e',
  s5pc1xx_uart_receive (replicate 20 7) (demo_uart <| ufcon := 1 |>, demo_env) = Ok (tt, (s', e')) /\
  queue_holds (rx s') (replicate 8 7) /\ Z.testbit (uintp s') 1 = false.
Proof.
  destruct (uart_overflow (IrqBankLaws0 := wires_laws 1) 15 true (demo_uart <| ufcon := 1 |>) demo_env (mkPort true [] 0 []) (replicate 20 7))
    as (s' & e' & Hrun & Hh & Hu).
  - exact demo_on_represents.
  - reflexivity.
  - reflexivity.
  - exists s', e'. split; [exact Hrun|]. split; [|exact Hu]. exact Hh.
Defined.
