(* ===== verification/Pwm.v ===== *)
(** * Pwm: the pulse-width timers (hw/s5pc1xx_pwm.c)

    Five down counters with reload, interrupts and compare values.  A timer is an element of
    the list [tmr]; the frequencies come from the clock tree [cs] (file Clk), read-only here. *)
From S2P Require Import Prelude HostUtils Irq Timers Device Clk Uart.
From stdpp Require Import strings.
#[local] Open Scope Z_scope.

Definition S5C_TCFG0 : Z := 0x00.
Definition S5C_TCFG1 : Z := 0x04.
Definition S5C_TCON : Z := 0x08.
Definition S5C_TINT_CSTAT : Z := 0x44.
Definition S5C_TCFG0_PRESCALER0_SHIFT : Z := 0.
Definition S5C_TCFG0_PRESCALER1_SHIFT : Z := 8.
Definition S5C_TCFG1_DIV_SHIFT (tmr : Z) : Z := tmr * 0x04.
Definition TCLK : Z := 0x5.
Definition PWM_INT_EN (tmr : Z) : Z := bit tmr.
Definition INT_STAT (tmr : Z) : Z := bit (tmr + 5).
Definition S5C_TIMERREG (tmr reg : Z) : Z := 0x0c + reg + (0x0c * tmr).
Definition S5C_TCNTB (tmr : Z) : Z := S5C_TIMERREG tmr 0x00.
Definition S5C_TCMPB (tmr : Z) : Z := S5C_TIMERREG tmr 0x04.
Definition S5C_TCNTO (tmr : Z) : Z := S5C_TIMERREG tmr (if tmr =? 4 then 0x04 else 0x08).
Definition ALL_STAT : Z := Z.lor (Z.lor (Z.lor (Z.lor (INT_STAT 0) (INT_STAT 1)) (INT_STAT 2)) (INT_STAT 3)) (INT_STAT 4).
Definition S5C_TCON_RELOAD : list Z := [bit 3; bit 11; bit 15; bit 19; bit 22].
Definition S5C_TCON_INVERT : list Z := [bit 2; bit 10; bit 14; bit 18; 0].
Definition S5C_TCON_MANUALUPD : list Z := [bit 1; bit 9; bit 13; bit 17; bit 21].
Definition S5C_TCON_START : list Z := [bit 0; bit 8; bit 12; bit 16; bit 20].
Definition GPIO_IDX_PWM : Z := 1.

Record S5pc1xxPWMTimerState := mkPwmTimer {
  irq_inst : option nat; t_tag : Z; pwm_timer : nat; freq_out : Z; last_pwm_time : Z;
  tcntb : Z; tcntb_in_qemu : Z; tcnt : Z; tcnt_in_qemu : Z; tcmpb : Z; tcmp : Z
}.
#[export] Instance eta_pwm_timer : Eta S5pc1xxPWMTimerState := fun r => mkPwmTimer
  (irq_inst r) (t_tag r) (pwm_timer r) (freq_out r) (last_pwm_time r)
  (tcntb r) (tcntb_in_qemu r) (tcnt r) (tcnt_in_qemu r) (tcmpb r) (tcmp r).
Record S5pc1xxPWMState := mkPwm {
  tag : Z; tcfg0 : Z; tcfg1 : Z; tcon : Z; tint_cstat : Z; tmr : list S5pc1xxPWMTimerState
}.
#[export] Instance eta_pwm : Eta S5pc1xxPWMState := fun r => mkPwm
  (tag r) (tcfg0 r) (tcfg1 r) (tcon r) (tint_cstat r) (tmr r).

Definition s5pc1xx_pwm_timer_renew (t : S5pc1xxPWMTimerState) : S5pc1xxPWMTimerState :=
  t <| tcmp := tcmpb t |> <| tcnt := tcntb t |> <| tcnt_in_qemu := tcntb_in_qemu t |>.

Section handlers.
  Context {E : Type} `{!IrqBank E, !TimerBank E} (cs : clkst).
  Abbreviation PWM := (ST (S5pc1xxPWMState * E)).

(** tmr[num] *)
Definition get_tmr (num : Z) : PWM S5pc1xxPWMTimerState := s ← dev; deref (rd (tmr s) num).
Definition put_tmr (num : Z) (f : S5pc1xxPWMTimerState -> S5pc1xxPWMTimerState) : PWM unit :=
  s ← dev; t ← deref (rd (tmr s) num); l ← deref (wr (tmr s) num (f t)); set_dev (fun s => s <| tmr := l |>).
(** s5pc1xx_clk_getrate(s5pc1xx_findclk(nm)) *)
Definition clk_rate (nm : string) : PWM Z := fun st =>
  match (i ← s5pc1xx_findclk nm; s5pc1xx_clk_getrate i) cs with
  | Ok (r, _) => Ok (r, st)
  | Err e => Err e
  end.
(** x / y *)
Definition c_div (x y : Z) : PWM Z := if y =? 0 then throw Fault else mret (Z.quot x y).

Definition s5pc1xx_pwm_convert_term (term timer_freq : Z) : PWM Z :=
  d ← muldiv term timer_freq get_ticks_per_sec; mret (wrap 32 d).
Definition s5pc1xx_pwm_timer_start (num : Z) : PWM unit :=
  now ← on_bank vm_clock;
  put_tmr num (fun t => t <| last_pwm_time := wrap 64 now |>) ;;
  t ← get_tmr num;
  on_bank (mod_timer (pwm_timer t) (s64 (wrap 64 (last_pwm_time t + tcnt_in_qemu t)))).
Definition s5pc1xx_pwm_timer_stop (num : Z) : PWM unit :=
  t ← get_tmr num; on_bank (del_timer (pwm_timer t)).

(** The handlers of one timer take a pointer to tmr[i]. *)
Definition s5pc1xx_pwm_timer_expiry (i : Z) : PWM unit :=
  t ← get_tmr i;
  let num := t_tag t in
  when (num >? 4) hw_error ;;
  set_dev (fun s => s <| tint_cstat := Z.lor (tint_cstat s) (INT_STAT num) |>) ;;
  s ← dev;
  when (truth (Z.land (tint_cstat s) (PWM_INT_EN num))) (on_bank (qemu_irq_raise (irq_inst t))) ;;
  reload ← deref (rd S5C_TCON_RELOAD num);
  s ← dev;
  when (truth (Z.land (tcon s) reload)) (
    put_tmr i s5pc1xx_pwm_timer_renew ;;
    s5pc1xx_pwm_timer_start i).
(** The selector of timer [tag], and its prescaler. *)
Definition selector_of (s : S5pc1xxPWMState) (tag : Z) : Z := Z.land (Z.shiftr (tcfg1 s) (S5C_TCFG1_DIV_SHIFT tag)) 0xf.
Definition prescaler_of (s : S5pc1xxPWMState) (tag : Z) : Z :=
  Z.land (Z.shiftr (tcfg0 s) (if tag <=? 1 then S5C_TCFG0_PRESCALER0_SHIFT else S5C_TCFG0_PRESCALER1_SHIFT)) 0xff.
Definition s5pc1xx_pwm_timer_freq (i : Z) : PWM unit :=
  t ← get_tmr i;
  when (t_tag t >? 4) hw_error ;;
  s ← dev;
  let mux := selector_of s (t_tag t) in
  (* uint8_t divisor *)
  let '(clk, prescaler, divisor) :=
    if mux =? TCLK then ("sclk_pwm"%string, 0, 1)
    else ("pclk_66"%string, prescaler_of s (t_tag t), wrap 8 (Z.shiftl 1 mux)) in
  r ← clk_rate clk;
  r ← c_div r (prescaler + 1);
  r ← c_div r divisor;
  put_tmr i (fun t => t <| freq_out := wrap 32 r |>).

(** Whether the output pin of timer [i] is high. *)
Definition tout (i : Z) : PWM Z :=
  s ← dev;
  t ← get_tmr i;
  inv ← deref (rd S5C_TCON_INVERT i);
  now ← on_bank vm_clock;
  c ← s5pc1xx_pwm_convert_term (wrap 64 (now - last_pwm_time t)) (freq_out t);
  mret (if c <? tcmp t then (if truth (Z.land (tcon s) inv) then 1 else 0) else (if truth (Z.land (tcon s) inv) then 0 else 1)).
Definition GPIO_PWM_TOUT (n : Z) : Z := CASE_ID GPIO_IDX_PWM 0 n.
Definition s5pc1xx_pwm_gpio_read (io_index : Z) : PWM Z :=
  s ← dev;
  when (tag s <? 255) hw_error ;;
  if io_index =? GPIO_PWM_TOUT 0 then tout 0
  else if io_index =? GPIO_PWM_TOUT 1 then tout 1
  else if io_index =? GPIO_PWM_TOUT 2 then tout 2
  else if io_index =? GPIO_PWM_TOUT 3 then tout 3
  else mret 0.

Definition one_of (offset : Z) (l : list Z) : bool := existsb (Z.eqb offset) l.
Definition is_tcntb (offset : Z) : bool := one_of offset [S5C_TCNTB 0; S5C_TCNTB 1; S5C_TCNTB 2; S5C_TCNTB 3; S5C_TCNTB 4].
Definition is_tcmpb (offset : Z) : bool := one_of offset [S5C_TCMPB 0; S5C_TCMPB 1; S5C_TCMPB 2; S5C_TCMPB 3].
Definition is_tcnto (offset : Z) : bool := one_of offset [S5C_TCNTO 0; S5C_TCNTO 1; S5C_TCNTO 2; S5C_TCNTO 3; S5C_TCNTO 4].
Definition read_tcnto (num : Z) : PWM Z :=
  s ← dev;
  t ← get_tmr num;
  start ← deref (rd S5C_TCON_START num);
  if negb (truth (Z.land (tcon s) start)) then mret (tcnt t)
  else
    now ← on_bank vm_clock;
    if wrap 64 (now - last_pwm_time t) >? tcnt_in_qemu t then mret 0
    else
      now ← on_bank vm_clock;
      c ← s5pc1xx_pwm_convert_term (wrap 64 (now - last_pwm_time t)) (freq_out t);
      mret (wrap 32 (tcnt t - c)).
Definition s5pc1xx_pwm_read (offset : Z) : PWM Z :=
  s ← dev;
  when (tag s <? 255) hw_error ;;
  if offset =? S5C_TCFG0 then mret (tcfg0 s)
  else if offset =? S5C_TCFG1 then mret (tcfg1 s)
  else if offset =? S5C_TCON then mret (tcon s)
  else if offset =? S5C_TINT_CSTAT then mret (tint_cstat s)
  else if is_tcntb offset then t ← get_tmr (Z.quot (offset - S5C_TCNTB 0) 0x0C); mret (tcntb t)
  else if is_tcmpb offset then t ← get_tmr (Z.quot (offset - S5C_TCMPB 0) 0x0C); mret (tcmpb t)
  else if is_tcnto offset then
    read_tcnto (if offset =? S5C_TCNTO 4 then 4 else Z.quot (offset - S5C_TCNTO 0) 0x0C)
  else hw_error.

Definition timers_5 : list Z := [0; 1; 2; 3; 4].
(** One turn of the loop over the timers of a write to TCON. *)
Definition tcon_turn (value num : Z) : PWM unit :=
  s ← dev;
  start ← deref (rd S5C_TCON_START num);
  manual ← deref (rd S5C_TCON_MANUALUPD num);
  when (Z.land value start >? Z.land (tcon s) start) (s5pc1xx_pwm_timer_start num) ;;
  when (Z.land value start <? Z.land (tcon s) start) (s5pc1xx_pwm_timer_stop num) ;;
  when (truth (Z.land value manual)) (
    s5pc1xx_pwm_timer_stop num ;;
    put_tmr num s5pc1xx_pwm_timer_renew).
Definition s5pc1xx_pwm_write (offset value : Z) : PWM unit :=
  s ← dev;
  when (tag s <? 255) hw_error ;;
  if offset =? S5C_TCFG0 then
    set_dev (fun s => s <| tcfg0 := value |>) ;; for_each timers_5 s5pc1xx_pwm_timer_freq
  else if offset =? S5C_TCFG1 then
    set_dev (fun s => s <| tcfg1 := value |>) ;; for_each timers_5 s5pc1xx_pwm_timer_freq
  else if offset =? S5C_TCON then
    for_each timers_5 (tcon_turn value) ;; set_dev (fun s => s <| tcon := value |>)
  else if offset =? S5C_TINT_CSTAT then
    for_each timers_5 (fun num =>
      when (truth (Z.land value (INT_STAT num))) (t ← get_tmr num; on_bank (qemu_irq_lower (irq_inst t)))) ;;
    set_dev (fun s => s <| tint_cstat := Z.lor (Z.land (tint_cstat s) ALL_STAT) (Z.land value (not32 ALL_STAT)) |>) ;;
    set_dev (fun s => s <| tint_cstat := Z.land (tint_cstat s) (not32 (Z.land value ALL_STAT)) |>)
  else if is_tcntb offset then
    let num := Z.quot (offset - S5C_TCNTB 0) 0x0C in
    put_tmr num (fun t => t <| tcntb := value |>) ;;
    t ← get_tmr num;
    d ← muldiv value get_ticks_per_sec (freq_out t);
    put_tmr num (fun t => t <| tcntb_in_qemu := d |>)
  else if is_tcmpb offset then
    put_tmr (Z.quot (offset - S5C_TCMPB 0) 0x0C) (fun t => t <| tcmpb := value |>)
  else hw_error.

(** The device qdev allocates, its lines connected, and s5pc1xx_pwm_init. *)
Definition pwm_zero (lines : list (option nat)) : S5pc1xxPWMState :=
  mkPwm 255 0 0 0 0 (imap (fun i line => mkPwmTimer line (Z.of_nat i) i 0 0 0 0 0 0 0 0) lines).
Definition s5pc1xx_pwm_init : PWM unit := s5pc1xx_pwm_write S5C_TCFG0 0x00000101.
End handlers.

(** ** The handlers against the laws of the environment *)
Section spec.
  Context {E : Type} `{!IrqBank E, !TimerBank E, !EnvLaws E} (cs : clkst).
  Implicit Types (s : S5pc1xxPWMState) (e : E) (t : S5pc1xxPWMTimerState).
  Abbreviation PWM := (ST (S5pc1xxPWMState * E)).

(** Timer [i] of the device is [t]. *)
Definition timer_at s (i : Z) t : Prop := rd (tmr s) i = Some t.
Record pwm_ok s e : Prop := mkPwmOk {
  po_tag : tag s = 255;
  po_len : length (tmr s) = 5%nat;
  po_timer : forall i t, timer_at s i t -> t_tag t = i /\ pwm_timer t = Z.to_nat i /\ line_valid (irq_inst t);
  po_env : irq_inv e;
  po_now : 0 <= vm_now e < 2 ^ 62
}.
Definition with_tmr s (i : Z) t : S5pc1xxPWMState := s <| tmr := <[Z.to_nat i := t]> (tmr s) |>.
Lemma timer_some s e i : pwm_ok s e -> 0 <= i < 5 -> exists t, timer_at s i t.
Proof. intros H Hi. destruct (rd_Some (tmr s) i) as (t & Ht & _); [rewrite (po_len _ _ H); lia|by exists t]. Qed.
Lemma timer_range s e i t : pwm_ok s e -> timer_at s i t -> 0 <= i < 5.
Proof. intros H Ht. pose proof (rd_bound _ _ _ Ht) as Hb. rewrite (po_len _ _ H) in Hb. lia. Qed.
Lemma timer_with s e i t j : pwm_ok s e -> 0 <= i < 5 -> rd (tmr (with_tmr s i t)) j = if i =? j then Some t else rd (tmr s) j.
Proof. intros H Hi. apply (rd_wr (tmr s)), wr_Some. rewrite (po_len _ _ H). lia. Qed.
Lemma with_ok s e i t t' : pwm_ok s e -> timer_at s i t -> t_tag t' = t_tag t -> pwm_timer t' = pwm_timer t -> irq_inst t' = irq_inst t ->
  pwm_ok (with_tmr s i t') e.
Proof.
  intros H Ht E1 E2 E3. pose proof (timer_range _ _ _ _ H Ht) as Hi. pose proof H as [H1 H2 H3 H4 H5]. split; [done| | |done|done].
  - cbn. by rewrite length_insert.
  - intros j u Hu. unfold timer_at in Hu. rewrite (timer_with s e) in Hu by done. destruct (Z.eqb_spec i j) as [->|]; [|by apply H3].
    injection Hu as <-. rewrite E1, E2, E3. by apply H3.
Qed.
Lemma env_ok s e e' : pwm_ok s e -> irq_inv e' -> vm_now e' = vm_now e -> pwm_ok s e'.
Proof. intros [H1 H2 H3 H4 H5] Hi Hn. split; [done..|by rewrite Hn]. Qed.
Lemma get_tmr_wp Er s e i t (Q : S5pc1xxPWMTimerState -> S5pc1xxPWMState * E -> Prop) : timer_at s i t -> Q t (s, e) -> wp Er (get_tmr i) Q (s, e).
Proof. intros Ht HQ. unfold get_tmr. wp_step. apply dev_wp. eapply deref_wp; [exact Ht|done]. Qed.
Lemma put_tmr_wp Er s e i t f (Q : unit -> S5pc1xxPWMState * E -> Prop) : timer_at s i t -> Q tt (with_tmr s i (f t), e) -> wp Er (put_tmr i f) Q (s, e).
Proof.
  intros Ht HQ. unfold put_tmr. wp_step. apply dev_wp. wp_step. eapply deref_wp; [exact Ht|].
  wp_step. eapply deref_wp; [exact (wr_Some _ _ _ (rd_bound _ _ _ Ht))|]. by apply set_dev_wp.
Qed.

(** ** Starting and stopping a timer *)
(** The deadlines are as before, but for timer [i]. *)
Definition rearmed e e' (i : nat) (d : option Z) : Prop :=
  irq_inv e' /\ vm_now e' = vm_now e /\ (forall n, irq_level e' n = irq_level e n) /\
  forall j, armed e' j = if (j =? i)%nat then d else armed e j.
Definition started e t : S5pc1xxPWMTimerState := t <| last_pwm_time := vm_now e |>.
Lemma start_wp s e i t (Q : unit -> S5pc1xxPWMState * E -> Prop) : pwm_ok s e -> timer_at s i t -> 0 <= tcnt_in_qemu t < 2 ^ 62 ->
  (forall e', rearmed e e' (Z.to_nat i) (Some (vm_now e + tcnt_in_qemu t)) -> Q tt (with_tmr s i (started e t), e')) ->
  wp no_err (s5pc1xx_pwm_timer_start i) Q (s, e).
Proof.
  intros H Ht Hn HQ. pose proof H as [H1 H2 H3 H4 H5]. pose proof (timer_range _ _ _ _ H Ht) as Hi.
  unfold s5pc1xx_pwm_timer_start. wp_step. apply wp_on_bank. eapply wp_mono; [by apply vm_clock_spec|]. intros now e0 [-> ->].
  rewrite (wrap_fits 64) by (unfold fits; lia). wp_step. eapply put_tmr_wp; [exact Ht|]. wp_step.
  eapply get_tmr_wp; [unfold timer_at; rewrite (timer_with s e), Z.eqb_refl by done; reflexivity|].
  cbn [pwm_timer last_pwm_time tcnt_in_qemu upd]. apply wp_on_bank.
  rewrite wrap_fits by (unfold fits; lia). unfold s64. rewrite (proj2 (Z.ltb_lt _ _)) by lia.
  destruct (H3 i t Ht) as (_ & Hpt & _). change (pwm_timer (t <| last_pwm_time := vm_now e |>)) with (pwm_timer t). rewrite Hpt.
  eapply wp_mono; [by apply mod_timer_spec|]. intros [] e' He. by apply HQ.
Qed.
Lemma stop_wp s e i t (Q : unit -> S5pc1xxPWMState * E -> Prop) : pwm_ok s e -> timer_at s i t ->
  (forall e', rearmed e e' (Z.to_nat i) None -> Q tt (s, e')) -> wp no_err (s5pc1xx_pwm_timer_stop i) Q (s, e).
Proof.
  intros H Ht HQ. pose proof H as [H1 H2 H3 H4 H5]. unfold s5pc1xx_pwm_timer_stop. wp_step. eapply get_tmr_wp; [exact Ht|].
  destruct (H3 i t Ht) as (_ & -> & _). apply wp_on_bank. eapply wp_mono; [by apply del_timer_spec|]. intros [] e' He. by apply HQ.
Qed.

(** ** The control register *)
(** What a write of [value] over [old] does to timer [i]: start, stop, manual update. *)
Definition tcon_bit (l : list Z) (i v : Z) : bool := truth (Z.land v (default 0 (rd l i))).
Definition rises (i old value : Z) : bool := tcon_bit S5C_TCON_START i value && negb (tcon_bit S5C_TCON_START i old).
Definition falls (i old value : Z) : bool := negb (tcon_bit S5C_TCON_START i value) && tcon_bit S5C_TCON_START i old.
Definition updates (i value : Z) : bool := tcon_bit S5C_TCON_MANUALUPD i value.
Definition turned e (old value i : Z) t : S5pc1xxPWMTimerState :=
  let t := if rises i old value then started e t else t in
  if updates i value then s5pc1xx_pwm_timer_renew t else t.
Definition turned_deadline e (old value i : Z) t (d : option Z) : option Z :=
  if updates i value || falls i old value then None
  else if rises i old value then Some (vm_now e + tcnt_in_qemu t) else d.
Definition term_ok t : Prop := 0 <= tcnt_in_qemu t < 2 ^ 62 /\ 0 <= tcntb_in_qemu t < 2 ^ 62.
Definition terms_ok s : Prop := forall i t, timer_at s i t -> term_ok t.
Lemma turned_term e old value i t : term_ok t -> term_ok (turned e old value i t).
Proof. intros [H1 H2]. unfold turned. by destruct (rises i old value), (updates i value). Qed.

Lemma start_cmp i v w : 0 <= i < 5 -> let m := default 0 (rd S5C_TCON_START i) in
  (Z.land v m >? Z.land w m) = tcon_bit S5C_TCON_START i v && negb (tcon_bit S5C_TCON_START i w) /\
  (Z.land v m <? Z.land w m) = negb (tcon_bit S5C_TCON_START i v) && tcon_bit S5C_TCON_START i w.
Proof.
  intros Hi m. assert (exists k, 0 <= k /\ m = bit k) as (k & Hk & Hm).
  { assert (i = 0 \/ i = 1 \/ i = 2 \/ i = 3 \/ i = 4) as [->|[->|[->|[->| ->]]]] by lia;
      [exists 0|exists 8|exists 12|exists 16|exists 20]; done. }
  unfold tcon_bit. fold m. rewrite Hm. unfold bit. rewrite !Z.shiftl_1_l.
  assert (forall x, Z.land x (2 ^ k) = if Z.testbit x k then 2 ^ k else 0) as Hl.
  { intros x. apply Z.bits_inj'. intros j Hj. rewrite Z.land_spec, Z.pow2_bits_eqb by done. destruct (Z.eqb_spec k j) as [<-|Hne].
    - rewrite andb_true_r. destruct (Z.testbit x k); [by rewrite Z.pow2_bits_true|by rewrite Z.bits_0].
    - rewrite andb_false_r. destruct (Z.testbit x k); [by rewrite Z.pow2_bits_false|by rewrite Z.bits_0]. }
  rewrite !Hl. pose proof (Z.pow_pos_nonneg 2 k ltac:(lia) Hk). unfold truth.
  destruct (Z.testbit v k), (Z.testbit w k); split; cbn -[Z.pow];
    rewrite ?(proj2 (Z.eqb_neq (2 ^ k) 0)) by lia; cbn -[Z.pow]; first [apply Z.gtb_lt|apply Z.ltb_lt|idtac]; try lia.
  all: rewrite ?Z.gtb_ltb; apply Z.ltb_ge; lia.
Qed.
Lemma with_same s i t : timer_at s i t -> with_tmr s i t = s.
Proof.
  intros Ht. pose proof (rd_lookup _ _ _ Ht) as [_ Hl]. unfold with_tmr. rewrite list_insert_id by done. by destruct s.
Qed.
Lemma with_twice s i t t' : with_tmr (with_tmr s i t) i t' = with_tmr s i t'.
Proof. unfold with_tmr. cbn [tmr upd]. change (tmr (s <| tmr := <[Z.to_nat i := t]> (tmr s) |>)) with (<[Z.to_nat i := t]> (tmr s)). rewrite list_insert_insert_eq. done. Qed.
(** Lines and the clock are as before; deadlines change by [f]. *)
Definition deadlines e e' (f : nat -> option Z) : Prop :=
  irq_inv e' /\ vm_now e' = vm_now e /\ (forall n, irq_level e' n = irq_level e n) /\ forall j, armed e' j = f j.
Lemma deadlines_ok s e e' f : pwm_ok s e -> deadlines e e' f -> pwm_ok s e'.
Proof. intros H (H1 & H2 & _). by apply (env_ok s e). Qed.
Lemma turn_wp s e value i t (Q : unit -> S5pc1xxPWMState * E -> Prop) : pwm_ok s e -> timer_at s i t -> 0 <= tcnt_in_qemu t < 2 ^ 62 ->
  (forall e', deadlines e e' (fun j => if (j =? Z.to_nat i)%nat then turned_deadline e (tcon s) value i t (armed e j) else armed e j) ->
     Q tt (with_tmr s i (turned e (tcon s) value i t), e')) ->
  wp no_err (tcon_turn value i) Q (s, e).
Proof.
  intros H Ht Hn HQ. pose proof (timer_range _ _ _ _ H Ht) as Hi. unfold tcon_turn. wp_step. apply dev_wp.
  destruct (rd_Some S5C_TCON_START i Hi) as (start & Hst & _). destruct (rd_Some S5C_TCON_MANUALUPD i Hi) as (manual & Hma & _).
  wp_step. eapply deref_wp; [exact Hst|]. wp_step. eapply deref_wp; [exact Hma|].
  pose proof (start_cmp i value (tcon s) Hi) as [Hgt Hlt]. rewrite Hst in Hgt, Hlt. change (default 0 (Some start)) with start in Hgt, Hlt. rewrite Hgt, Hlt.
  fold (rises i (tcon s) value). fold (falls i (tcon s) value).
  assert (truth (Z.land value manual) = updates i value) as -> by (unfold updates, tcon_bit; by rewrite Hma).
  unfold turned, turned_deadline in HQ. wp_step.
  eapply (wp_mono _ _ (fun _ x => x.1 = (if rises i (tcon s) value then with_tmr s i (started e t) else s) /\
    deadlines e x.2 (fun j => if (j =? Z.to_nat i)%nat && rises i (tcon s) value then Some (vm_now e + tcnt_in_qemu t) else armed e j))).
  { wp_step. destruct (rises i (tcon s) value).
    - eapply start_wp; [done..|]. intros e1 (R1 & R2 & R3 & R4). split; [done|]. split_and!; try done. intros j. rewrite R4. by destruct (j =? _)%nat.
    - split; [done|]. split_and!; try done; [apply H|]. intros j. by rewrite andb_false_r. }
  intros [] [s1 e1] [Hs1 D1]. cbn [fst snd] in Hs1, D1. set (t1 := if rises i (tcon s) value then started e t else t) in *.
  assert (timer_at s1 i t1 /\ pwm_ok s1 e /\ forall u, with_tmr s1 i u = with_tmr s i u) as (Ht1 & H1 & Hw).
  { rewrite Hs1. unfold t1. destruct (rises i (tcon s) value); [|done]. split; [unfold timer_at; by rewrite (timer_with s e), Z.eqb_refl|].
    split; [by eapply with_ok|]. intros u. apply with_twice. }
  pose proof (deadlines_ok _ _ _ _ H1 D1) as H1'. destruct D1 as (_ & N1 & L1 & A1). wp_step.
  eapply (wp_mono _ _ (fun _ x => x.1 = s1 /\ deadlines e x.2 (fun j => if (j =? Z.to_nat i)%nat then
    if falls i (tcon s) value then None else if rises i (tcon s) value then Some (vm_now e + tcnt_in_qemu t) else armed e j else armed e j))).
  { wp_step. destruct (falls i (tcon s) value).
    - eapply stop_wp; [done..|]. intros e2 (R1 & R2 & R3 & R4). split; [done|]. split; [done|]. split; [exact (eq_trans R2 N1)|].
      split; [intros n; exact (eq_trans (R3 n) (L1 n))|]. intros j. cbn [snd]. rewrite R4, A1. by destruct (j =? _)%nat.
    - split; [done|]. split; [apply H1'|]. split_and!; try done. intros j. cbn [snd]. rewrite A1. by destruct (j =? _)%nat. }
  intros [] [s2 e2] [Hs2 D2]. cbn [fst snd] in Hs2, D2. subst s2. pose proof (deadlines_ok _ _ _ _ H1 D2) as H2'. destruct D2 as (_ & N2 & L2 & A2).
  wp_step. destruct (updates i value).
  - wp_step. eapply stop_wp; [done..|]. intros e3 (R1 & R2 & R3 & R4). eapply put_tmr_wp; [exact Ht1|]. rewrite Hw. apply HQ.
    split; [done|]. split; [exact (eq_trans R2 N2)|]. split; [intros n; exact (eq_trans (R3 n) (L2 n))|]. intros j. rewrite R4, A2. by destruct (j =? _)%nat.
  - replace s1 with (with_tmr s i t1) by (rewrite <- Hw; by apply with_same). apply HQ. split; [apply H2'|]. split; [done|]. by split.
Qed.
Lemma turns_wp value l : forall s e, NoDup l -> (forall i, i ∈ l -> 0 <= i < 5) -> pwm_ok s e -> terms_ok s ->
  wp no_err (for_each l (tcon_turn value)) (fun _ x => x.1 = s <| tmr := tmr x.1 |> /\ pwm_ok x.1 x.2 /\
    (forall i t, timer_at s i t -> timer_at x.1 i (if decide (i ∈ l) then turned e (tcon s) value i t else t)) /\
    vm_now x.2 = vm_now e /\ (forall n, irq_level x.2 n = irq_level e n) /\
    (forall i t, timer_at s i t -> armed x.2 (Z.to_nat i) =
       if decide (i ∈ l) then turned_deadline e (tcon s) value i t (armed e (Z.to_nat i)) else armed e (Z.to_nat i)) /\
    (forall j, (5 <= j)%nat -> armed x.2 j = armed e j)) (s, e).
Proof.
  induction l as [|i l IH]; intros s e Hnd Hl H Hterms; cbn [for_each].
  { wp_step. split; [by destruct s|]. split; [done|]. split_and!; try done. all: intros i t Ht; rewrite decide_False; [done|apply not_elem_of_nil]. }
  apply NoDup_cons in Hnd as [Hni Hnd]. assert (0 <= i < 5) as Hi by (apply Hl; left).
  destruct (timer_some _ _ _ H Hi) as [t Ht]. wp_step. eapply turn_wp; [done|exact Ht|exact (proj1 (Hterms i t Ht))|]. intros e1 D1.
  set (t1 := turned e (tcon s) value i t) in *. set (s1 := with_tmr s i t1).
  assert (pwm_ok s1 e) as H1 by (eapply with_ok; [done..|unfold t1, turned; repeat case_match; done|unfold t1, turned; repeat case_match; done|unfold t1, turned; repeat case_match; done]).
  pose proof (deadlines_ok _ _ _ _ H1 D1) as H1'. destruct D1 as (_ & N1 & L1 & A1).
  assert (forall j u, timer_at s1 j u <-> (if i =? j then u = t1 else timer_at s j u)) as Hat.
  { intros j u. unfold timer_at, s1. rewrite (timer_with s e) by done. destruct (i =? j); [|done]. split; [by intros [= ->]|by intros ->]. }
  eapply wp_mono; [apply (IH s1 e1); [done|intros j Hj; apply Hl; by right|done|]|].
  { intros j u Hu. apply Hat in Hu. destruct (i =? j); [subst u; apply turned_term|]; by eapply Hterms. }
  intros [] [s' e'] (S1 & S2 & S3 & S4 & S5 & S6 & S7). cbn [fst snd] in *.
  assert (forall j u, timer_at s j u -> timer_at s1 j (if i =? j then t1 else u)) as Hat'.
  { intros j u Hu. apply Hat. by destruct (i =? j). }
  split; [by rewrite S1|]. split; [done|]. split; [|split; [congruence|split; [intros n; by rewrite S5|split]]].
  - intros j u Hu. pose proof (S3 j _ (Hat' j u Hu)) as Hj. destruct (Z.eqb_spec i j) as [<-|Hne].
    + rewrite decide_False in Hj by done. rewrite decide_True by left. unfold timer_at in Ht, Hu. rewrite Ht in Hu. injection Hu as <-. exact Hj.
    + destruct (decide (j ∈ l)) as [Hin|Hout]; [rewrite decide_True by by right|rewrite decide_False by (intros [->|?]%elem_of_cons; done)]; [|exact Hj].
      unfold turned, started in *. rewrite N1 in Hj. exact Hj.
  - intros j u Hu. pose proof (S6 j _ (Hat' j u Hu)) as Hj. pose proof (timer_range _ _ _ _ H Hu) as Hjr. destruct (Z.eqb_spec i j) as [<-|Hne].
    + rewrite decide_False in Hj by done. rewrite decide_True by left. unfold timer_at in Ht, Hu. rewrite Ht in Hu. injection Hu as <-.
      by rewrite Hj, A1, Nat.eqb_refl.
    + rewrite A1, (proj2 (Nat.eqb_neq (Z.to_nat j) (Z.to_nat i))) in Hj by lia.
      destruct (decide (j ∈ l)) as [Hin|Hout]; [rewrite decide_True by by right|rewrite decide_False by (intros [->|?]%elem_of_cons; done)]; [|exact Hj].
      unfold turned_deadline in *. rewrite N1 in Hj. exact Hj.
  - intros j Hj. rewrite S7, A1 by done. by rewrite (proj2 (Nat.eqb_neq j (Z.to_nat i))) by lia.
Qed.

(** A write of the control register does to each of the five timers what its own bits say
    and nothing else: a timer whose start bit rises is armed one count ahead, a timer whose
    start bit falls or that is updated by hand is disarmed, and a manual update loads the
    buffers.  All other timers keep their deadlines, and no line changes. *)
Theorem pwm_tcon s e value : pwm_ok s e -> terms_ok s ->
  exists s' e', s5pc1xx_pwm_write cs S5C_TCON value (s, e) = Ok (tt, (s', e')) /\ pwm_ok s' e' /\ tcon s' = value /\
    vm_now e' = vm_now e /\ (forall n, irq_level e' n = irq_level e n) /\ (forall j, (5 <= j)%nat -> armed e' j = armed e j) /\
    forall i t, timer_at s i t -> timer_at s' i (turned e (tcon s) value i t) /\
      armed e' (Z.to_nat i) = turned_deadline e (tcon s) value i t (armed e (Z.to_nat i)).
Proof.
  intros H Ht. assert (wp no_err (s5pc1xx_pwm_write cs S5C_TCON value) (fun _ x => pwm_ok x.1 x.2 /\ tcon x.1 = value /\
    vm_now x.2 = vm_now e /\ (forall n, irq_level x.2 n = irq_level e n) /\ (forall j, (5 <= j)%nat -> armed x.2 j = armed e j) /\
    forall i t, timer_at s i t -> timer_at x.1 i (turned e (tcon s) value i t) /\
      armed x.2 (Z.to_nat i) = turned_deadline e (tcon s) value i t (armed e (Z.to_nat i))) (s, e)) as Hwp.
  { unfold s5pc1xx_pwm_write. wp_step. apply dev_wp. rewrite (po_tag _ _ H). wp_step. wp_step. change (255 <? 255) with false. cbn match.
    change (S5C_TCON =? S5C_TCFG0) with false. change (S5C_TCON =? S5C_TCFG1) with false. change (S5C_TCON =? S5C_TCON) with true. cbn match.
    assert (forall i, 0 <= i < 5 <-> i ∈ timers_5) as Hin.
    { intros i. unfold timers_5. rewrite !elem_of_cons, elem_of_nil. lia. }
    wp_step. eapply wp_mono; [apply (turns_wp value timers_5 s e); [apply (bool_decide_unpack _); exact I|intros i; apply Hin|done|done]|].
    intros [] [s' e'] (S1 & S2 & S3 & S4 & S5 & S6 & S7). cbn [fst snd] in *. apply set_dev_wp. cbn [fst snd].
    split; [destruct S2; by split|]. split; [done|]. do 3 (split; [done|]). intros i t Hi.
    pose proof (proj1 (Hin i) (timer_range _ _ _ _ H Hi)) as Hm. specialize (S3 i t Hi). specialize (S6 i t Hi).
    rewrite decide_True in S3 by done. rewrite decide_True in S6 by done. done. }
  apply wp_total_ex in Hwp as ([] & [s' e'] & Hrun & Hres). exists s', e'. split; [exact Hrun|exact Hres].
Qed.

(** ** Expiry *)
(** The buffered term is the time of the buffered count. *)
Definition period t : Z := tcntb t * 1000000000 / freq_out t.
Lemma reload_bit i : 0 <= i < 5 -> rd S5C_TCON_RELOAD i = Some (default 0 (rd S5C_TCON_RELOAD i)).
Proof. intros Hi. by destruct (rd_Some S5C_TCON_RELOAD i Hi) as (x & -> & _). Qed.

Lemma pwm_expiry_wp s e i t : pwm_ok s e -> timer_at s i t -> term_ok t -> tcntb_in_qemu t = period t ->
  let reload := tcon_bit S5C_TCON_RELOAD i (tcon s) in
  let enabled := Z.testbit (tint_cstat s) i in
  let s1 := s <| tint_cstat := Z.lor (tint_cstat s) (INT_STAT i) |> in
  wp no_err (s5pc1xx_pwm_timer_expiry i) (fun _ x => exists e1, irq_inv e1 /\ vm_now e1 = vm_now e /\ (forall j, armed e1 j = armed e j) /\
    (enabled = true -> line_is e1 (irq_inst t) true) /\ (forall n, enabled = false \/ Some n <> irq_inst t -> irq_level e1 n = irq_level e n) /\
    if reload then x.1 = with_tmr s1 i (started e (s5pc1xx_pwm_timer_renew t)) /\ rearmed e1 x.2 (Z.to_nat i) (Some (vm_now e + period t)) else x = (s1, e1)) (s, e).
Proof.
  intros H Ht [Hc Hb] Hp reload enabled s1. pose proof (timer_range _ _ _ _ H Ht) as Hi.
  destruct (po_timer _ _ H i t Ht) as (Htag & _ & Hline).
  unfold s5pc1xx_pwm_timer_expiry. wp_step. eapply get_tmr_wp; [exact Ht|]. cbv zeta. rewrite Htag. wp_step. wp_step.
  rewrite Z.gtb_ltb, (proj2 (Z.ltb_ge _ _)) by lia. wp_step. apply set_dev_wp. fold s1. wp_step. apply dev_wp.
  assert (truth (Z.land (tint_cstat s1) (PWM_INT_EN i)) = enabled) as ->.
  { unfold s1, PWM_INT_EN, INT_STAT. cbn [tint_cstat upd]. rewrite truth_land_bit by lia. change (tint_cstat s1) with (Z.lor (tint_cstat s) (bit (i + 5))).
    rewrite Z.lor_spec, bit_testbit by lia. rewrite (proj2 (Z.eqb_neq _ _)) by lia. apply orb_false_r. }
  wp_step. eapply (wp_mono _ _ (fun _ x => x.1 = s1 /\ irq_inv x.2 /\ vm_now x.2 = vm_now e /\ (forall j, armed x.2 j = armed e j) /\
    (enabled = true -> line_is x.2 (irq_inst t) true) /\ (forall n, enabled = false \/ Some n <> irq_inst t -> irq_level x.2 n = irq_level e n))).
  { wp_step. destruct enabled.
    - apply wp_on_bank. eapply wp_mono; [apply env_set_irq; [apply H|done]|]. intros [] e1 (L1 & L2 & L3 & L4 & L5).
      split_and!; try done. intros n [?|Hn]; [done|by apply L3].
    - split_and!; try done. apply H. }
  intros [] [x e1] (E1 & E2 & E3 & E4 & E5 & E6). cbn [fst snd] in *. subst x. wp_step.
  eapply deref_wp; [by apply reload_bit|]. wp_step. apply dev_wp.
  change (truth (Z.land (tcon s1) (default 0 (rd S5C_TCON_RELOAD i)))) with reload. wp_step. destruct reload; [|by exists e1].
  assert (pwm_ok s1 e1) as H1 by (destruct H; split; try done; by rewrite E3). wp_step. eapply put_tmr_wp; [exact Ht|].
  eapply (start_wp _ _ _ (s5pc1xx_pwm_timer_renew t)); [by eapply with_ok|unfold timer_at; by rewrite (timer_with s1 e1), Z.eqb_refl|exact Hb|].
  intros e2 He2. rewrite with_twice. exists e1. split_and!; try done.
  - cbn [fst]. unfold started. by rewrite E3.
  - cbn [snd]. rewrite <- E3, <- Hp. exact He2.
Qed.

(** When a timer reaches zero its status bit is set and its line is raised exactly if its
    interrupt is enabled; a timer with the reload bit starts again with the buffered values
    and expires one buffered period later, without drift from the handler; without the
    reload bit nothing is armed.  No other line or deadline changes. *)
Theorem pwm_expiry s e i t : pwm_ok s e -> timer_at s i t -> term_ok t -> tcntb_in_qemu t = period t ->
  let reload := tcon_bit S5C_TCON_RELOAD i (tcon s) in
  let enabled := Z.testbit (tint_cstat s) i in
  exists s' e', s5pc1xx_pwm_timer_expiry i (s, e) = Ok (tt, (s', e')) /\ pwm_ok s' e' /\
    tint_cstat s' = Z.lor (tint_cstat s) (INT_STAT i) /\ vm_now e' = vm_now e /\
    (enabled = true -> line_is e' (irq_inst t) true) /\
    (forall n, enabled = false \/ Some n <> irq_inst t -> irq_level e' n = irq_level e n) /\
    timer_at s' i (if reload then started e (s5pc1xx_pwm_timer_renew t) else t) /\
    (forall j u, j <> i -> timer_at s j u -> timer_at s' j u) /\
    forall j, armed e' j = if (j =? Z.to_nat i)%nat && reload then Some (vm_now e + period t) else armed e j.
Proof.
  intros H Ht Hto Hp reload enabled. pose proof (timer_range _ _ _ _ H Ht) as Hi. set (s1 := s <| tint_cstat := Z.lor (tint_cstat s) (INT_STAT i) |>).
  pose proof (pwm_expiry_wp s e i t H Ht Hto Hp) as Hwp. cbv zeta in Hwp. fold reload enabled s1 in Hwp.
  apply wp_total_ex in Hwp as ([] & [s' e'] & Hrun & e1 & E2 & E3 & E4 & E5 & E6 & Hres). exists s', e'. split; [exact Hrun|].
  assert (pwm_ok s1 e1) as H1 by (destruct H; split; try done; by rewrite E3).
  destruct reload.
  - destruct Hres as [Hs' (R1 & R2 & R3 & R4)]. cbn [fst snd] in *. subst s'.
    assert (pwm_ok (with_tmr s1 i (started e (s5pc1xx_pwm_timer_renew t))) e1) as H2 by by eapply with_ok.
    split; [by eapply env_ok|]. split; [done|]. split; [congruence|].
    split; [intros Hen; specialize (E5 Hen); destruct (irq_inst t); [|done]; cbn in *; by rewrite R3|].
    split; [intros n Hn; rewrite R3; by apply E6|]. split; [unfold timer_at; by rewrite (timer_with s1 e1), Z.eqb_refl|].
    split; [intros j u Hj Hu; unfold timer_at; rewrite (timer_with s1 e1) by done; by rewrite (proj2 (Z.eqb_neq _ _)) by done|].
    intros j. rewrite R4, E4, andb_true_r. done.
  - injection Hres as -> ->. split; [done|]. split; [done|]. split; [done|]. split; [done|]. split; [done|]. split; [done|]. split; [done|].
    intros j. by rewrite E4, andb_false_r.
Qed.

(** ** The configuration registers *)
Section rates.
  (** The rates of the two sources. *)
  Context (rp rs : Z) (Hp : result (i ← s5pc1xx_findclk "pclk_66"; s5pc1xx_clk_getrate i) cs = Some rp)
    (Hs : result (i ← s5pc1xx_findclk "sclk_pwm"; s5pc1xx_clk_getrate i) cs = Some rs).
Definition pwm_freq s (i : Z) : Z :=
  wrap 32 (if selector_of s i =? TCLK then rs else Z.quot (Z.quot rp (prescaler_of s i + 1)) (Z.shiftl 1 (selector_of s i))).
Lemma wp_clk_rate Er nm r (Q : Z -> S5pc1xxPWMState * E -> Prop) st :
  result (i ← s5pc1xx_findclk nm; s5pc1xx_clk_getrate i) cs = Some r -> Q r st -> wp Er (clk_rate cs nm) Q st.
Proof.
  intros Hr HQ. unfold wp, clk_rate. unfold result in Hr.
  match type of Hr with match ?x with _ => _ end = _ => destruct x as [[r' c]|] end; [|done]. by injection Hr as ->.
Qed.
Lemma freq_ok_wp Er s e i t (Q : unit -> S5pc1xxPWMState * E -> Prop) : pwm_ok s e -> timer_at s i t -> selector_of s i < 8 ->
  Q tt (with_tmr s i (t <| freq_out := pwm_freq s i |>), e) -> wp Er (s5pc1xx_pwm_timer_freq cs i) Q (s, e).
Proof.
  intros H Ht Hm HQ. pose proof (timer_range _ _ _ _ H Ht) as Hi. destruct (po_timer _ _ H i t Ht) as (Htag & _ & _).
  unfold s5pc1xx_pwm_timer_freq. wp_step. eapply get_tmr_wp; [exact Ht|]. rewrite Htag. wp_step. wp_step.
  rewrite Z.gtb_ltb, (proj2 (Z.ltb_ge _ _)) by lia. wp_step. apply dev_wp. unfold pwm_freq in HQ.
  assert (0 <= selector_of s i) as Hm0 by (unfold selector_of; apply Z.land_nonneg; by right).
  assert (0 <= prescaler_of s i) as Hp0 by (unfold prescaler_of; apply Z.land_nonneg; by right).
  destruct (selector_of s i =? TCLK).
  - wp_step. eapply wp_clk_rate; [exact Hs|]. wp_step. unfold c_div. change (0 + 1 =? 0) with false. change (1 =? 0) with false. cbv iota.
    wp_step. wp_step. wp_step. change (0 + 1) with 1.
    rewrite !Z.quot_1_r. eapply put_tmr_wp; [exact Ht|exact HQ].
  - wp_step. eapply wp_clk_rate; [exact Hp|]. wp_step. unfold c_div. rewrite (proj2 (Z.eqb_neq _ _)) by lia. wp_step. wp_step.
    assert (0 < Z.shiftl 1 (selector_of s i) < 2 ^ 8) as Hd.
    { rewrite Z.shiftl_1_l. split; [by apply Z.pow_pos_nonneg|]. apply Z.pow_lt_mono_r; lia. }
    rewrite (wrap_fits 8) by (unfold fits; lia). rewrite (proj2 (Z.eqb_neq _ _)) by lia. wp_step. eapply put_tmr_wp; [exact Ht|exact HQ].
Qed.
(** A selector of 8 or more shifts the divisor out of its eight bits. *)
Lemma freq_fault_wp s e i t : pwm_ok s e -> timer_at s i t -> 8 <= selector_of s i ->
  wp (eq Fault) (s5pc1xx_pwm_timer_freq cs i) (fun _ _ => False) (s, e).
Proof.
  intros H Ht Hm. pose proof (timer_range _ _ _ _ H Ht) as Hi. destruct (po_timer _ _ H i t Ht) as (Htag & _ & _).
  unfold s5pc1xx_pwm_timer_freq. wp_step. eapply get_tmr_wp; [exact Ht|]. rewrite Htag. wp_step. wp_step.
  rewrite Z.gtb_ltb, (proj2 (Z.ltb_ge _ _)) by lia. wp_step. apply dev_wp.
  assert (0 <= prescaler_of s i) as Hp0 by (unfold prescaler_of; apply Z.land_nonneg; by right).
  rewrite (proj2 (Z.eqb_neq _ _)) by (unfold TCLK; lia).
  wp_step. eapply wp_clk_rate; [exact Hp|]. wp_step. unfold c_div. rewrite (proj2 (Z.eqb_neq _ _)) by lia. wp_step. wp_step.
  assert (wrap 8 (Z.shiftl 1 (selector_of s i)) = 0) as ->; [|by apply wp_throw].
  rewrite Z.shiftl_1_l. unfold wrap. replace (selector_of s i) with (8 + (selector_of s i - 8)) by lia.
  rewrite Z.pow_add_r, Z.mul_comm by lia. by apply Z.mod_mul.
Qed.
Definition configured s0 s (l : list Z) : Prop :=
  tcfg0 s = tcfg0 s0 /\ tcfg1 s = tcfg1 s0 /\ tcon s = tcon s0 /\ tint_cstat s = tint_cstat s0 /\
  forall i t, timer_at s0 i t -> timer_at s i (if decide (i ∈ l) then t <| freq_out := pwm_freq s0 i |> else t).
Lemma freqs_wp l : forall s e, NoDup l -> (forall i, i ∈ l -> 0 <= i < 5) -> pwm_ok s e ->
  if forallb (fun i => selector_of s i <? 8) l
  then wp no_err (for_each l (s5pc1xx_pwm_timer_freq cs)) (fun _ x => x.2 = e /\ pwm_ok x.1 e /\ configured s x.1 l) (s, e)
  else wp (eq Fault) (for_each l (s5pc1xx_pwm_timer_freq cs)) (fun _ _ => False) (s, e).
Proof.
  induction l as [|i l IH]; intros s e Hnd Hl H; cbn [for_each forallb].
  { wp_step. split; [done|]. split; [done|]. unfold configured. split_and!; try done. }
  apply NoDup_cons in Hnd as [Hni Hnd]. assert (0 <= i < 5) as Hi by (apply Hl; left). destruct (timer_some _ _ _ H Hi) as [t Ht].
  destruct (Z.ltb_spec (selector_of s i) 8) as [Hm|Hm]; cbn [andb].
  2: { wp_step. eapply wp_mono; [by eapply freq_fault_wp|done]. }
  set (s1 := with_tmr s i (t <| freq_out := pwm_freq s i |>)).
  assert (pwm_ok s1 e) as H1 by by eapply with_ok. specialize (IH s1 e Hnd (fun j Hj => Hl j (list_elem_of_further _ _ _ Hj)) H1).
  change (forallb (fun i => selector_of s1 i <? 8) l) with (forallb (fun i => selector_of s i <? 8) l) in IH.
  destruct (forallb _ l).
  - wp_step. eapply freq_ok_wp; [done..|]. eapply wp_mono; [exact IH|]. intros [] [s' e'] (-> & K1 & C1 & C2 & C3 & C4 & C5). cbn [fst snd] in *.
    split; [done|]. split; [done|]. do 4 (split; [done|]). intros j u Hu.
    assert (timer_at s1 j (if i =? j then t <| freq_out := pwm_freq s i |> else u)) as Hj.
    { unfold timer_at, s1. rewrite (timer_with s e) by done. destruct (i =? j); [done|exact Hu]. }
    specialize (C5 j _ Hj). destruct (Z.eqb_spec i j) as [<-|Hne].
    + rewrite decide_False in C5 by done. rewrite decide_True by left. unfold timer_at in Ht, Hu. rewrite Ht in Hu. by injection Hu as <-.
    + destruct (decide (j ∈ l)) as [Hin|Hout]; [rewrite decide_True by by right|rewrite decide_False by (intros [->|?]%elem_of_cons; done)]; exact C5.
  - wp_step. eapply freq_ok_wp; [done..|exact IH].
Qed.

(** A write of a configuration register gives each timer the frequency its selector and
    prescaler say, if every selector is below 8.  Otherwise the emulator divides by zero: the
    divisor 2^selector is kept in eight bits.  A guest can end the emulator so. *)
Theorem pwm_config s e offset value : pwm_ok s e -> offset = S5C_TCFG0 \/ offset = S5C_TCFG1 ->
  let s1 := if offset =? S5C_TCFG0 then s <| tcfg0 := value |> else s <| tcfg1 := value |> in
  if forallb (fun i => selector_of s1 i <? 8) timers_5
  then exists s', s5pc1xx_pwm_write cs offset value (s, e) = Ok (tt, (s', e)) /\ pwm_ok s' e /\ configured s1 s' timers_5
  else s5pc1xx_pwm_write cs offset value (s, e) = Err Fault.
Proof.
  intros H Ho s1.
  assert (pwm_ok s1 e) as H1 by (destruct H; subst s1; destruct Ho as [-> | ->]; by split).
  pose proof (freqs_wp timers_5 s1 e ltac:(by apply (bool_decide_unpack _); exact I)
    ltac:(intros i; unfold timers_5; rewrite !elem_of_cons, elem_of_nil; lia) H1) as Hf.
  assert (forall Er Q, wp Er (for_each timers_5 (s5pc1xx_pwm_timer_freq cs)) Q (s1, e) -> wp Er (s5pc1xx_pwm_write cs offset value) Q (s, e)) as Hw.
  { intros Er Q HQ. unfold s5pc1xx_pwm_write. wp_step. apply dev_wp. rewrite (po_tag _ _ H). wp_step. wp_step. change (255 <? 255) with false. cbn match.
    subst s1. destruct Ho as [-> | ->]; unfold S5C_TCFG0, S5C_TCFG1 in *; cbn [Z.eqb Pos.eqb] in *; wp_step; apply set_dev_wp; exact HQ. }
  destruct (forallb _ timers_5).
  - apply Hw, wp_total_ex in Hf as ([] & [s' e'] & Hrun & He & K & C). cbn [fst snd] in *. subst e'. by exists s'.
  - apply Hw in Hf. unfold wp in Hf. destruct (s5pc1xx_pwm_write cs offset value (s, e)) as [[]|x]; [done|]. by rewrite <- Hf.
Qed.
End rates.
End spec.

(** ** Witnesses: the booted clock tree, five wires, time 5 s; timers of 1000 counts at 1 MHz *)
Definition pwm_env : wires * timers := board_at 5 5000000000.
Definition pwm_laws : EnvLaws (wires * timers) := board_laws 5.
Definition demo_timer (i : nat) : S5pc1xxPWMTimerState := mkPwmTimer (Some i) (Z.of_nat i) i 1000000 0 1000 1000000 1000 1000000 0 0.
Definition demo_pwm : S5pc1xxPWMState := mkPwm 255 0 0 0 (PWM_INT_EN 4) (List.map demo_timer [0; 1; 2; 3; 4]%nat).
Definition demo_running : S5pc1xxPWMState := demo_pwm <| tcon := 0x500000 |>.
Lemma demo_timer_at i t : timer_at demo_pwm i t -> 0 <= i < 5 /\ t = demo_timer (Z.to_nat i).
Proof.
  intros Ht. pose proof (rd_bound _ _ _ Ht) as Hb. cbn in Hb. split; [lia|]. unfold timer_at in Ht.
  assert (i = 0 \/ i = 1 \/ i = 2 \/ i = 3 \/ i = 4) as [->|[->|[->|[->| ->]]]] by lia; injection Ht as <-; reflexivity.
Qed.
Lemma demo_pwm_ok s : tag s = 255 -> tmr s = tmr demo_pwm -> pwm_ok (EnvLaws0 := pwm_laws) s pwm_env.
Proof.
  intros Htag Ht. split; [exact Htag|by rewrite Ht| |apply board_at_ok|split; [discriminate|reflexivity]].
  intros i t Hi. unfold timer_at in Hi. rewrite Ht in Hi. destruct (demo_timer_at i t Hi) as [Hr ->]. cbn. split_and!; lia.
Qed.
Lemma demo_terms : terms_ok demo_pwm.
Proof. intros i t Ht. destruct (demo_timer_at i t Ht) as [_ ->]. split; (split; [discriminate|reflexivity]). Qed.
Example pwm_tcon_witness : exists s' e', s5pc1xx_pwm_write clk_boot S5C_TCON 0x500000 (demo_pwm, pwm_env) = Ok (tt, (s', e')) /\
  armed (EnvLaws := pwm_laws) e' 4 = Some 5001000000.
Proof.
  destruct (pwm_tcon (EnvLaws0 := pwm_laws) clk_boot demo_pwm pwm_env 0x500000 (demo_pwm_ok demo_pwm eq_refl eq_refl) demo_terms)
    as (s' & e' & Hrun & _ & _ & _ & _ & _ & Ht).
  exists s', e'. split; [exact Hrun|]. exact (proj2 (Ht 4 (demo_timer 4) eq_refl)).
Defined.
Example pwm_expiry_witness : exists s' e', s5pc1xx_pwm_timer_expiry 4 (demo_running, pwm_env) = Ok (tt, (s', e')) /\
  tint_cstat s' = 0x210 /\ line_is (IrqBankLaws0 := @env_irq_laws _ _ _ pwm_laws) e' (Some 4%nat) true /\
  armed (EnvLaws := pwm_laws) e' 4 = Some 5001000000.
Proof.
  destruct (pwm_expiry (EnvLaws0 := pwm_laws) demo_running pwm_env 4 (demo_timer 4) (demo_pwm_ok demo_running eq_refl eq_refl) eq_refl)
    as (s' & e' & Hrun & _ & Hs & _ & Hl & _ & _ & _ & Ha); [split; (split; [discriminate|reflexivity])|reflexivity|].
  exists s', e'. split; [exact Hrun|]. split; [exact Hs|]. split; [exact (Hl eq_refl)|exact (Ha 4%nat)].
Defined.
Lemma demo_rates : result (i ← s5pc1xx_findclk "pclk_66"; s5pc1xx_clk_getrate i) clk_boot = Some 66700000 /\
  result (i ← s5pc1xx_findclk "sclk_pwm"; s5pc1xx_clk_getrate i) clk_boot = Some 24000000.
Proof. split; vm_compute; reflexivity. Qed.
Example pwm_config_witness : s5pc1xx_pwm_write clk_boot S5C_TCFG1 0x80000 (demo_pwm, pwm_env) = Err Fault.
Proof.
  exact (pwm_config (EnvLaws0 := pwm_laws) clk_boot 66700000 24000000 (proj1 demo_rates) (proj2 demo_rates) demo_pwm pwm_env S5C_TCFG1 0x80000
    (demo_pwm_ok demo_pwm eq_refl eq_refl) (or_intror eq_refl)).
Defined.
