(* ===== verification/St.v ===== *)
(** * St: the system timer (hw/s5pc1xx_st.c)

    A tick generator that divides a clock and a counter of ticks that interrupts.  The tick
    handler and the interrupt handler call each other, two calls deep; the frequencies come
    from the clock tree [cs] (file Clk).  Deadlines are planned on a grid of whole intervals
    from the start of the timer, so that a late handler causes no drift. *)
From S2P Require Import Prelude HostUtils Irq Timers Device Clk.
From stdpp Require Import strings.
#[local] Open Scope Z_scope.

Definition TCFG : Z := 0x00.
Definition TCON : Z := 0x04.
Definition TICNTB : Z := 0x08.
Definition TICNTO : Z := 0x0C.
Definition TFCNTB : Z := 0x10.
Definition ICNTB : Z := 0x18.
Definition ICNTO : Z := 0x1C.
Definition INT_CSTAT : Z := 0x20.
Definition TICK_SWRST : Z := bit 16.
Definition TCLKB_MUX : Z := Z.shiftl 3 12.
Definition DIV_MUX : Z := Z.shiftl 7 8.
Definition PRESCALER : Z := Z.shiftl 0xFF 0.
Definition INT_AUTO_RELOAD : Z := bit 5.
Definition INT_MAN_UPD : Z := bit 4.
Definition INT_RUN : Z := bit 3.
Definition TIMER_RUN : Z := bit 0.
Definition TWIE : Z := bit 10.
Definition IWIE : Z := bit 9.
Definition TFWIE : Z := bit 8.
Definition TIWIE : Z := bit 7.
Definition ICNTEIE : Z := bit 6.
Definition TCON_W_STAT : Z := bit 5.
Definition ICNTB_W_STAT : Z := bit 4.
Definition TFCNTB_W_STAT : Z := bit 3.
Definition TICNTB_W_STAT : Z := bit 2.
Definition INTCNT_EXP_STAT : Z := bit 1.
Definition INT_ENABLE : Z := bit 0.
Definition ST_ALL_STAT : Z :=
  Z.lor (Z.lor (Z.lor (Z.lor TCON_W_STAT ICNTB_W_STAT) TFCNTB_W_STAT) TICNTB_W_STAT) INTCNT_EXP_STAT.

Record S5pc1xxSTState := mkSt {
  tcfg : Z; tcon : Z; ticntb : Z; ticnto : Z; tfcntb : Z; icntb : Z; icnto : Z (** int32_t *); int_cstat : Z;
  irq : option nat; divider : Z; prescaler : Z; st_timer : nat; freq_out : Z;
  tick_interval : Z; last_tick : Z; next_planned_tick : Z; base_time : Z
}.
#[export] Instance eta_st : Eta S5pc1xxSTState := fun r => mkSt
  (tcfg r) (tcon r) (ticntb r) (ticnto r) (tfcntb r) (icntb r) (icnto r) (int_cstat r)
  (irq r) (divider r) (prescaler r) (st_timer r) (freq_out r)
  (tick_interval r) (last_tick r) (next_planned_tick r) (base_time r).

Definition st_clks : list string := ["XXTI"; "XrtcXTI"; "XusbXTI"; "pclk_66"]%string.

Section handlers.
  Context {E : Type} `{!IrqBank E, !TimerBank E} (cs : clkst).
  Abbreviation STM := (ST (S5pc1xxSTState * E)).

(** The interrupt handler, given the tick handler it may call. *)
Definition s5pc1xx_st_irq (tick : STM unit) (enab_mask stat_mask : Z) : STM unit :=
  when ((stat_mask =? TICNTB_W_STAT) || (stat_mask =? TFCNTB_W_STAT)) (
    set_dev (fun s => s <| tcon := Z.land (tcon s) (not32 TIMER_RUN) |>) ;;
    tick) ;;
  s ← dev;
  when ((stat_mask =? ICNTB_W_STAT) && truth (Z.land (tcon s) INT_MAN_UPD)) (
    set_dev (fun s => s <| icnto := s32 (icntb s) |>)) ;;
  s ← dev;
  when (truth (Z.land (int_cstat s) INT_ENABLE) && truth (Z.land (int_cstat s) enab_mask)) (on_bank (qemu_irq_raise (irq s))) ;;
  set_dev (fun s => s <| int_cstat := Z.lor (int_cstat s) stat_mask |>).
Definition s5pc1xx_st_set_timer : STM unit :=
  now ← on_bank vm_clock;
  s ← dev;
  let last := wrap 64 (now - base_time s) in
  if tick_interval s =? 0 then throw Fault
  else
    set_dev (fun s => s <| next_planned_tick := wrap 64 (last + wrap 64 (tick_interval s - last mod tick_interval s)) |>) ;;
    s ← dev;
    on_bank (mod_timer (st_timer s) (s64 (wrap 64 (next_planned_tick s + base_time s)))) ;;
    set_dev (fun s => s <| last_tick := last |>).
(** One step of the interrupt counter, an int. *)
Definition count_step : STM unit :=
  s ← dev;
  when ((icnto s =? 0) && truth (Z.land (tcon s) INT_AUTO_RELOAD)) (set_dev (fun s => s <| icnto := s32 (icntb s) |>)) ;;
  s ← dev;
  if icnto s =? - 2 ^ 31 then throw Fault else set_dev (fun s => s <| icnto := icnto s - 1 |>).
Fixpoint st_tick (fuel : nat) : STM unit :=
  match fuel with
  | O => throw OutOfFuel
  | S fuel =>
    s ← dev;
    if truth (Z.land (tcon s) TIMER_RUN) then
      when (truth (Z.land (tcon s) INT_RUN)) (
        count_step ;;
        s ← dev;
        when (icnto s <=? 0) (
          set_dev (fun s => s <| icnto := 0 |>) ;;
          s5pc1xx_st_irq (st_tick fuel) ICNTEIE INTCNT_EXP_STAT)) ;;
      s5pc1xx_st_set_timer
    else
      set_dev (fun s => s <| next_planned_tick := 0 |> <| last_tick := 0 |>) ;;
      s ← dev;
      on_bank (del_timer (st_timer s))
  end.
Definition s5pc1xx_st_tick : STM unit := st_tick 2.

Definition s5pc1xx_st_reset : STM unit :=
  set_dev (fun s => s <| tcfg := 0 |> <| tcon := 0 |> <| ticntb := 0 |> <| ticnto := 0 |> <| tfcntb := 0 |>
    <| icntb := 1 |> <| icnto := 0 |> <| int_cstat := 0 |> <| last_tick := 0 |> <| next_planned_tick := 0 |>
    <| freq_out := 0 |> <| tick_interval := 0 |> <| divider := 1 |> <| prescaler := 0 |>) ;;
  now ← on_bank vm_clock;
  set_dev (fun s => s <| base_time := wrap 64 now |>) ;;
  s ← dev;
  on_bank (del_timer (st_timer s)).
(** s5pc1xx_clk_getrate(s5pc1xx_findclk(nm)) *)
Definition st_clk_rate (nm : string) : STM Z := fun st =>
  match (i ← s5pc1xx_findclk nm; s5pc1xx_clk_getrate i) cs with
  | Ok (r, _) => Ok (r, st)
  | Err e => Err e
  end.
Definition s5pc1xx_st_update : STM unit :=
  set_dev (fun s => s <| divider := wrap 8 (Z.shiftl 1 (Z.shiftr (Z.land (tcfg s) DIV_MUX) 8)) |>
                      <| prescaler := Z.land (tcfg s) PRESCALER |>) ;;
  s ← dev;
  nm ← deref (rd st_clks (Z.shiftr (Z.land (tcfg s) TCLKB_MUX) 12));
  r ← st_clk_rate nm;
  if divider s =? 0 then throw Fault
  else
    set_dev (fun s => s <| freq_out := wrap 32 (Z.quot (Z.quot r (prescaler s + 1)) (divider s)) |>) ;;
    s ← dev;
    a ← muldiv (ticntb s) get_ticks_per_sec (freq_out s);
    b ← muldiv (tfcntb s) get_ticks_per_sec (freq_out s);
    set_dev (fun s => s <| tick_interval := wrap 64 (a + Z.shiftr b 16) |> <| next_planned_tick := 0 |>) ;;
    when (freq_out s =? 0) hw_error.

(** The value of the tick counter. *)
Definition read_ticnto : STM Z :=
  s ← dev;
  if truth (freq_out s) && truth (last_tick s) && truth (ticntb s) && truth (next_planned_tick s) then
    now ← on_bank vm_clock;
    let cur_clock := wrap 64 (now - base_time s) in
    if cur_clock <? next_planned_tick s then
      if tick_interval s >? 0xFFFFFFFF then
        let tps := get_ticks_per_sec in
        m ← muldiv (wrap 64 (next_planned_tick s - cur_clock)) (ticntb s)
              (wrap 32 (wrap 64 (wrap 64 (next_planned_tick s - last_tick s) + tps / 2) / tps));
        mret (wrap 32 (m / tps))
      else
        m ← muldiv (wrap 64 (next_planned_tick s - cur_clock)) (ticntb s) (wrap 32 (next_planned_tick s - last_tick s));
        mret (wrap 32 m)
    else mret 0
  else mret 0.
Definition s5pc1xx_st_read (offset : Z) : STM Z :=
  s ← dev;
  if offset =? TCFG then mret (tcfg s)
  else if offset =? TCON then mret (tcon s)
  else if offset =? TICNTB then mret (ticntb s)
  else if offset =? TICNTO then
    v ← read_ticnto;
    set_dev (fun s => s <| ticnto := v |>) ;; mret v
  else if offset =? TFCNTB then mret (tfcntb s)
  else if offset =? ICNTB then mret (wrap 32 (icntb s - 1))
  else if offset =? ICNTO then mret (wrap 32 (icnto s))
  else if offset =? INT_CSTAT then mret (int_cstat s)
  else hw_error.

Definition s5pc1xx_st_write (offset value : Z) : STM unit :=
  let st_irq := s5pc1xx_st_irq s5pc1xx_st_tick in
  if offset =? TCFG then
    if truth (Z.land value TICK_SWRST) then s5pc1xx_st_reset
    else set_dev (fun s => s <| tcfg := value |>) ;; s5pc1xx_st_update
  else if offset =? TCON then
    st_irq TWIE TCON_W_STAT ;;
    s ← dev;
    (if Z.land value TIMER_RUN >? Z.land (tcon s) TIMER_RUN then
       now ← on_bank vm_clock;
       set_dev (fun s => s <| base_time := wrap 64 now |>) ;;
       s5pc1xx_st_set_timer
     else when (Z.land value TIMER_RUN <? Z.land (tcon s) TIMER_RUN) (on_bank (del_timer (st_timer s)))) ;;
    set_dev (fun s => s <| tcon := value |>)
  else if offset =? TICNTB then
    st_irq TIWIE TICNTB_W_STAT ;; set_dev (fun s => s <| ticntb := value |>) ;; s5pc1xx_st_update
  else if offset =? TFCNTB then
    st_irq TFWIE TFCNTB_W_STAT ;; set_dev (fun s => s <| tfcntb := value |>) ;; s5pc1xx_st_update
  else if offset =? ICNTB then
    set_dev (fun s => s <| icntb := wrap 32 (value + 1) |>) ;; st_irq IWIE ICNTB_W_STAT
  else if offset =? INT_CSTAT then
    set_dev (fun s => s <| int_cstat := Z.lor (Z.land (int_cstat s) ST_ALL_STAT) (Z.land value (not32 ST_ALL_STAT)) |>) ;;
    set_dev (fun s => s <| int_cstat := Z.land (int_cstat s) (not32 (Z.land value ST_ALL_STAT)) |>) ;;
    s ← dev;
    when (negb (truth (Z.land (int_cstat s) ST_ALL_STAT))) (on_bank (qemu_irq_lower (irq s)))
  else hw_error.

(** The device qdev allocates, and s5pc1xx_st_init. *)
Definition st_zero (line : option nat) : S5pc1xxSTState := mkSt 0 0 0 0 0 0 0 0 line 0 0 0 0 0 0 0 0.
Definition s5pc1xx_st_init : STM unit := s5pc1xx_st_reset.
End handlers.

(** ** The handlers against the laws of the environment *)
Section spec.
  Context {E : Type} `{!IrqBank E, !TimerBank E, !EnvLaws E} (cs : clkst).
  Implicit Types (s : S5pc1xxSTState) (e : E).

Record st_ok s e : Prop := mkStOk {
  so_env : irq_inv e; so_line : line_valid (irq s);
  so_now : 0 <= base_time s <= vm_now e /\ vm_now e < 2 ^ 62;
  so_interval : 0 < tick_interval s < 2 ^ 62
}.
(** The first point of the grid after the present. *)
Definition next_grid s e : Z := ((vm_now e - base_time s) / tick_interval s + 1) * tick_interval s.
Definition planned s e : S5pc1xxSTState := s <| next_planned_tick := next_grid s e |> <| last_tick := vm_now e - base_time s |>.
Lemma next_grid_spec s e : st_ok s e -> vm_now e < base_time s + next_grid s e <= vm_now e + tick_interval s.
Proof.
  intros [_ _ [Hb Hn] Hi]. unfold next_grid. pose proof (Z.div_mod (vm_now e - base_time s) (tick_interval s) ltac:(lia)).
  pose proof (Z.mod_pos_bound (vm_now e - base_time s) (tick_interval s) ltac:(lia)). nia.
Qed.
Lemma set_timer_wp s e (Q : unit -> S5pc1xxSTState * E -> Prop) : st_ok s e ->
  (forall e', irq_inv e' -> vm_now e' = vm_now e -> (forall n, irq_level e' n = irq_level e n) ->
     (forall j, armed e' j = if (j =? st_timer s)%nat then Some (base_time s + next_grid s e) else armed e j) -> Q tt (planned s e, e')) ->
  wp no_err s5pc1xx_st_set_timer Q (s, e).
Proof.
  intros H HQ. pose proof (next_grid_spec s e H) as Hg. pose proof H as [H1 H2 [Hb Hn] Hi].
  unfold s5pc1xx_st_set_timer. wp_step. apply wp_on_bank. eapply wp_mono; [by apply vm_clock_spec|]. intros now e0 [-> ->].
  wp_step. apply dev_wp. cbv zeta. rewrite (proj2 (Z.eqb_neq _ _)) by lia. rewrite (wrap_fits 64 (vm_now e - _)) by (unfold fits; lia).
  wp_step. apply set_dev_wp. wp_step. apply dev_wp.
  assert (wrap 64 (vm_now e - base_time s + wrap 64 (tick_interval s - (vm_now e - base_time s) mod tick_interval s)) = next_grid s e) as ->.
  { pose proof (Z.mod_pos_bound (vm_now e - base_time s) (tick_interval s) ltac:(lia)).
    pose proof (Z.div_mod (vm_now e - base_time s) (tick_interval s) ltac:(lia)).
    rewrite (wrap_fits 64 (tick_interval s - _)) by (unfold fits; lia). rewrite wrap_fits by (unfold fits; lia). unfold next_grid. lia. }
  set (s1 := s <| next_planned_tick := next_grid s e |>). change (next_planned_tick s1) with (next_grid s e).
  change (base_time s1) with (base_time s). change (st_timer s1) with (st_timer s).
  assert (s64 (wrap 64 (next_grid s e + base_time s)) = base_time s + next_grid s e) as ->.
  { rewrite wrap_fits by (unfold fits; lia). unfold s64. rewrite (proj2 (Z.ltb_lt _ _)) by lia. lia. }
  wp_step. apply wp_on_bank.
  eapply wp_mono; [by apply mod_timer_spec|]. intros [] e' (R1 & R2 & R3 & R4). apply set_dev_wp. by apply HQ.
Qed.

(** ** A tick of the running counter *)
(** The timer and the interrupt counter run, with reload of a positive count. *)
Record counting s : Prop := mkCounting {
  cn_run : truth (Z.land (tcon s) TIMER_RUN) = true;
  cn_int : truth (Z.land (tcon s) INT_RUN) = true;
  cn_reload : truth (Z.land (tcon s) INT_AUTO_RELOAD) = true;
  cn_count : 0 <= icnto s < 2 ^ 31;
  cn_period : 1 <= s32 (icntb s) < 2 ^ 31
}.
Definition count_down s : Z := (if icnto s =? 0 then s32 (icntb s) else icnto s) - 1.
Definition ticked s e : S5pc1xxSTState :=
  (planned s e) <| icnto := count_down s |>
    <| int_cstat := if count_down s =? 0 then Z.lor (int_cstat s) INTCNT_EXP_STAT else int_cstat s |>.
Definition interrupts s : bool :=
  (count_down s =? 0) && (truth (Z.land (int_cstat s) INT_ENABLE) && truth (Z.land (int_cstat s) ICNTEIE)).
Lemma count_step_wp Er s e (Q : unit -> S5pc1xxSTState * E -> Prop) : counting s -> Q tt (s <| icnto := count_down s |>, e) -> wp Er count_step Q (s, e).
Proof.
  intros [H1 H2 H3 H4 H5] HQ. unfold count_step, count_down in *. wp_step. apply dev_wp. rewrite H3, andb_true_r. wp_step.
  apply (wp_mono _ _ (fun _ x => x = (s <| icnto := if icnto s =? 0 then s32 (icntb s) else icnto s |>, e))).
  { wp_step. destruct (icnto s =? 0); [by apply set_dev_wp|by destruct s]. }
  intros [] x ->. set (s1 := s <| icnto := if icnto s =? 0 then s32 (icntb s) else icnto s |>). wp_step. apply dev_wp.
  assert (0 <= icnto s1) as H0 by (unfold s1; cbn [icnto upd]; destruct (icnto s =? 0); cbn; lia).
  rewrite (proj2 (Z.eqb_neq (icnto s1) _)) by lia. apply set_dev_wp. exact HQ.
Qed.
(** The interrupt of an expired count: it stops nothing and reloads nothing. *)
Definition signalled s e e' (en : bool) : Prop := irq_inv e' /\ vm_now e' = vm_now e /\ (forall j, armed e' j = armed e j) /\
  (en = true -> line_is e' (irq s) true) /\ (forall n, en = false \/ Some n <> irq s -> irq_level e' n = irq_level e n).
Lemma exp_irq_wp tick s e (Q : unit -> S5pc1xxSTState * E -> Prop) : irq_inv e -> line_valid (irq s) ->
  (forall e', signalled s e e' (truth (Z.land (int_cstat s) INT_ENABLE) && truth (Z.land (int_cstat s) ICNTEIE)) ->
     Q tt (s <| int_cstat := Z.lor (int_cstat s) INTCNT_EXP_STAT |>, e')) ->
  wp no_err (s5pc1xx_st_irq tick ICNTEIE INTCNT_EXP_STAT) Q (s, e).
Proof.
  intros He Hv HQ. unfold s5pc1xx_st_irq.
  change ((INTCNT_EXP_STAT =? TICNTB_W_STAT) || (INTCNT_EXP_STAT =? TFCNTB_W_STAT)) with false.
  change (INTCNT_EXP_STAT =? ICNTB_W_STAT) with false. cbn [andb].
  wp_step. wp_step. wp_step. apply dev_wp. wp_step. wp_step. wp_step. apply dev_wp. wp_step.
  set (en := _ && _) in *. apply (wp_mono _ _ (fun _ x => x.1 = s /\ signalled s e x.2 en)).
  { wp_step. destruct en.
    - apply wp_on_bank. eapply wp_mono; [by apply env_set_irq|]. intros [] e' (L1 & L2 & L3 & L4 & L5). split; [done|]. split_and!; try done.
      intros n [?|Hn]; [done|by apply L3].
    - split; [done|]. by split_and!. }
  intros [] [x e'] [Hx Hs]. cbn [fst snd] in *. subst x. apply set_dev_wp. by apply HQ.
Qed.
Lemma st_tick_wp s e (Q : unit -> S5pc1xxSTState * E -> Prop) : st_ok s e -> counting s ->
  (forall e' e'', signalled s e e' (interrupts s) -> irq_inv e'' -> vm_now e'' = vm_now e -> (forall n, irq_level e'' n = irq_level e' n) ->
     (forall j, armed e'' j = if (j =? st_timer s)%nat then Some (base_time s + next_grid s e) else armed e j) -> Q tt (ticked s e, e'')) ->
  wp no_err s5pc1xx_st_tick Q (s, e).
Proof.
  intros H Hc HQ. pose proof H as [H1 H2 H3 H4]. unfold s5pc1xx_st_tick. cbn [st_tick]. wp_step. apply dev_wp. rewrite (cn_run _ Hc), (cn_int _ Hc).
  assert (0 <= count_down s) as H0.
  { pose proof (cn_count _ Hc). pose proof (cn_period _ Hc). unfold count_down. destruct (Z.eqb_spec (icnto s) 0); lia. }
  set (s1 := s <| icnto := count_down s |>
    <| int_cstat := if count_down s =? 0 then Z.lor (int_cstat s) INTCNT_EXP_STAT else int_cstat s |>).
  wp_step. eapply (wp_mono _ _ (fun _ x => x.1 = s1 /\ signalled s e x.2 (interrupts s))).
  - wp_step. wp_step. apply count_step_wp; [done|]. wp_step. apply dev_wp. unfold interrupts, s1 in *. wp_step.
    change (icnto (s <| icnto := count_down s |>)) with (count_down s). destruct (Z.eqb_spec (count_down s) 0) as [E0|E0].
    + rewrite E0. change (0 <=? 0) with true. cbv iota. wp_step. apply set_dev_wp. apply exp_irq_wp; [done..|]. intros e' Hs. by split.
    + rewrite (proj2 (Z.leb_gt _ _)) by lia. split; [by destruct s|]. by split_and!.
  - intros [] [x e1] [Hx Hs]. cbn [fst snd] in *. subst x. pose proof Hs as (S1 & S2 & S3 & S4 & S5). apply set_timer_wp.
    { split; [done|done|by rewrite S2|done]. }
    intros e2 R1 R2 R3 R4. assert (next_grid s1 e1 = next_grid s e) as Eg by (unfold next_grid; by rewrite S2).
    replace (planned s1 e1) with (ticked s e) by (unfold planned, ticked; rewrite Eg, S2; reflexivity). apply (HQ e1); [done|done|congruence|done|].
    intros j. rewrite R4, Eg. change (st_timer s1) with (st_timer s). by destruct (j =? _)%nat.
Qed.

(** ** Many ticks *)
(** [n] ticks, each at a later time than the last; between them the environment does what it
    likes. *)
Inductive ticks : nat -> S5pc1xxSTState * E -> S5pc1xxSTState * E -> Prop :=
| ticks_O x : ticks 0 x x
| ticks_S n x s e e1 x' : ticks n x (s, e) -> irq_inv e1 -> vm_now e <= vm_now e1 < 2 ^ 62 -> s5pc1xx_st_tick (s, e1) = Ok (tt, x') -> ticks (S n) x x'.
(** The counter after [n] ticks of period [b] from zero. *)
Definition count_after (b n : Z) : Z := if n mod b =? 0 then 0 else b - n mod b.
Lemma count_next b n : 1 <= b -> 0 <= n -> (if count_after b n =? 0 then b else count_after b n) - 1 = count_after b (n + 1).
Proof.
  intros Hb Hn. unfold count_after. pose proof (Z.mod_pos_bound n b ltac:(lia)) as Hm. pose proof (Z.div_mod n b ltac:(lia)).
  assert ((n + 1) mod b = if n mod b + 1 =? b then 0 else n mod b + 1) as ->.
  { destruct (Z.eqb_spec (n mod b + 1) b) as [E1|E1].
    - symmetry. apply Z.mod_unique with (n / b + 1); [lia|]. nia.
    - symmetry. apply Z.mod_unique with (n / b); [lia|]. nia. }
  destruct (Z.eqb_spec (n mod b) 0) as [E0|E0]; cbn [Z.eqb].
  - rewrite E0. destruct (Z.eqb_spec (0 + 1) b); [cbn; lia|]. rewrite (proj2 (Z.eqb_neq (0 + 1) 0)) by lia. lia.
  - rewrite (proj2 (Z.eqb_neq (b - n mod b) 0)) by lia. destruct (Z.eqb_spec (n mod b + 1) b); [cbn; lia|].
    rewrite (proj2 (Z.eqb_neq (n mod b + 1) 0)) by lia. lia.
Qed.

(** After [n] ticks from the start of a period. *)
Record after_ticks s e (n : Z) s' e' : Prop := mkAfter {
  at_ok : st_ok s' e';
  at_same : tcon s' = tcon s /\ icntb s' = icntb s /\ base_time s' = base_time s /\ tick_interval s' = tick_interval s /\
    st_timer s' = st_timer s /\ irq s' = irq s;
  at_count : icnto s' = count_after (s32 (icntb s)) n;
  at_stat : int_cstat s' = if s32 (icntb s) <=? n then Z.lor (int_cstat s) INTCNT_EXP_STAT else int_cstat s
}.
Lemma after_counting s e n s' e' : counting s -> 0 <= n -> after_ticks s e n s' e' -> counting s'.
Proof.
  intros [C1 C2 C3 C4 C5] Hn [_ (T & I & _) Hc _]. split; rewrite ?T, ?I; try done.
  rewrite Hc. unfold count_after. pose proof (Z.mod_pos_bound n (s32 (icntb s)) ltac:(lia)). destruct (_ =? 0); lia.
Qed.
Definition st_enabled s : bool := truth (Z.land (int_cstat s) INT_ENABLE) && truth (Z.land (int_cstat s) ICNTEIE).
Lemma exp_enabled x : truth (Z.land (Z.lor x INTCNT_EXP_STAT) INT_ENABLE) && truth (Z.land (Z.lor x INTCNT_EXP_STAT) ICNTEIE) =
  truth (Z.land x INT_ENABLE) && truth (Z.land x ICNTEIE).
Proof. by rewrite !Z.land_lor_distr_l, !Z.lor_0_r. Qed.
(** One more tick. *)
Lemma after_tick s e n s' e' e1 : counting s -> 0 <= n -> after_ticks s e n s' e' -> irq_inv e1 -> vm_now e' <= vm_now e1 < 2 ^ 62 ->
  exists x, s5pc1xx_st_tick (s', e1) = Ok (tt, x) /\ after_ticks s e (n + 1) x.1 x.2 /\ vm_now x.2 = vm_now e1 /\
    armed x.2 (st_timer s) = Some (base_time s + ((vm_now e1 - base_time s) / tick_interval s + 1) * tick_interval s) /\
    (st_enabled s = true -> (n + 1) mod s32 (icntb s) = 0 -> line_is x.2 (irq s) true).
Proof.
  intros Hc Hn Ha He Hnow. pose proof (after_counting _ _ _ _ _ Hc Hn Ha) as Hc'. destruct Ha as [Hok (T & I & B & V & M & L) Hcnt Hst].
  pose proof (cn_period _ Hc) as Hb. pose proof Hok as [O1 O2 [O3 O4] O5].
  assert (st_ok s' e1) as Hok1 by (split; [done|done|lia|done]).
  assert (count_down s' = count_after (s32 (icntb s)) (n + 1)) as Hcd by (unfold count_down; rewrite I, Hcnt; apply count_next; lia).
  assert (wp no_err s5pc1xx_st_tick (fun _ x => exists e2, signalled s' e1 e2 (interrupts s') /\ irq_inv x.2 /\ vm_now x.2 = vm_now e1 /\
    (forall m, irq_level x.2 m = irq_level e2 m) /\ armed x.2 (st_timer s) = Some (base_time s + next_grid s' e1) /\ x.1 = ticked s' e1) (s', e1)) as H.
  { apply st_tick_wp; [done|done|]. intros e2 e3 H1 H2 H3 H4 H5. exists e2. split_and!; try done. cbn [snd]. by rewrite H5, M, Nat.eqb_refl, B. }
  apply wp_total_ex in H as ([] & [s2 e2] & Hrun & e3 & (_ & _ & _ & Hl & _) & H2 & H3 & H4 & H5 & Hx). cbn [fst snd] in *. subst s2.
  exists (ticked s' e1, e2). split; [exact Hrun|]. cbn [fst snd]. split; [|split; [done|split; [by unfold next_grid in H5; rewrite B, V in H5|]]].
  - split; [split; [done|done|cbn; lia|done]|done|by rewrite <- Hcd|]. unfold ticked. cbn [int_cstat upd].
    change (int_cstat (ticked s' e1)) with (if count_down s' =? 0 then Z.lor (int_cstat s') INTCNT_EXP_STAT else int_cstat s').
    rewrite Hcd, Hst. unfold count_after. pose proof (Z.mod_pos_bound (n + 1) (s32 (icntb s)) ltac:(lia)).
    destruct (Z.eqb_spec ((n + 1) mod s32 (icntb s)) 0) as [E0|E0]; cbn [Z.eqb].
    + assert (s32 (icntb s) <= n + 1) by (destruct (Z.lt_ge_cases (n + 1) (s32 (icntb s))); [rewrite Z.mod_small in E0; lia|done]).
      rewrite (proj2 (Z.leb_le _ (n + 1))) by done. destruct (s32 (icntb s) <=? n); [|done]. by rewrite <- Z.lor_assoc, Z.lor_diag.
    + rewrite (proj2 (Z.eqb_neq (s32 (icntb s) - _) 0)) by lia. destruct (Z.leb_spec (s32 (icntb s)) n); [by rewrite (proj2 (Z.leb_le _ _)) by lia|].
      destruct (Z.leb_spec (s32 (icntb s)) (n + 1)); [|done]. assert (n + 1 = s32 (icntb s)) as Eb by lia. rewrite Eb, Z.mod_same in E0 by lia. done.
  - intros Hen Hmod. assert (interrupts s' = true) as Hi.
    { unfold interrupts. rewrite Hcd. unfold count_after. rewrite Hmod. cbn [Z.eqb andb]. rewrite Hst. unfold st_enabled in Hen.
      destruct (s32 (icntb s) <=? n); [by rewrite exp_enabled|done]. }
    specialize (Hl Hi). rewrite <- L. destruct (irq s'); [|done]. cbn in *. by rewrite H4.
Qed.

(** C40: the interrupt counter divides the ticks exactly, and ticks do not drift.  From the
    start of a period of [b] ticks, after any number of ticks at any later times, the
    counter is [b] minus the ticks since the last whole period, and the expiry status is set
    from the [b]-th tick on and not before; a tick that ends a period raises the line if the
    interrupt is enabled; and the timer is armed at the first point after the present of the
    grid of whole intervals from the start, however late the handler ran.  The next tick
    always succeeds. *)
Theorem st_interrupt_rate s e n s' e' : st_ok s e -> counting s -> icnto s = 0 -> ticks n (s, e) (s', e') ->
  icnto s' = count_after (s32 (icntb s)) (Z.of_nat n) /\
  int_cstat s' = (if s32 (icntb s) <=? Z.of_nat n then Z.lor (int_cstat s) INTCNT_EXP_STAT else int_cstat s) /\
  ((0 < n)%nat -> armed e' (st_timer s) = Some (base_time s + ((vm_now e' - base_time s) / tick_interval s + 1) * tick_interval s)) /\
  ((0 < n)%nat -> st_enabled s = true -> Z.of_nat n mod s32 (icntb s) = 0 -> line_is e' (irq s) true) /\
  forall e1, irq_inv e1 -> vm_now e' <= vm_now e1 < 2 ^ 62 -> exists x, s5pc1xx_st_tick (s', e1) = Ok (tt, x).
Proof.
  intros Hok Hc H0 Ht.
  assert (after_ticks s e (Z.of_nat n) s' e' /\ ((0 < n)%nat ->
    armed e' (st_timer s) = Some (base_time s + ((vm_now e' - base_time s) / tick_interval s + 1) * tick_interval s) /\
    (st_enabled s = true -> Z.of_nat n mod s32 (icntb s) = 0 -> line_is e' (irq s) true))) as [Ha Hp].
  { remember (s, e) as x0 eqn:Hx0. remember (s', e') as x1 eqn:Hx1. revert s' e' Hx1.
    induction Ht as [x|n x s1 e1 e2 x' Ht IH He2 Hnow Hrun]; intros s' e' Hx1; subst.
    - injection Hx1 as <- <-. split; [|lia]. pose proof (cn_period _ Hc). split; [done|done| |].
      + rewrite H0. unfold count_after. by rewrite Z.mod_0_l by lia.
      + by rewrite (proj2 (Z.leb_gt _ _)) by lia.
    - destruct (IH eq_refl s1 e1 eq_refl) as [Ha _].
      destruct (after_tick s e (Z.of_nat n) s1 e1 e2 Hc ltac:(lia) Ha He2 Hnow) as (y & Hy & A1 & A2 & A3 & A4).
      rewrite Hrun in Hy. injection Hy as <-. cbn [fst snd] in *. replace (Z.of_nat (S n)) with (Z.of_nat n + 1) by lia.
      split; [exact A1|]. intros _. rewrite A2. split; [exact A3|exact A4]. }
  split; [apply Ha|]. split; [apply Ha|]. split; [intros Hn; by apply Hp|]. split; [intros Hn; by apply Hp|].
  intros e1 He1 Hnow. destruct (after_tick s e _ s' e' e1 Hc (Nat2Z.is_nonneg n) Ha He1 Hnow) as (x & Hx & _). by exists x.
Qed.
End spec.

(** ** Witness: one wire, time 5 s, a tick each millisecond, an interrupt each tick *)
Definition st_env : wires * timers := board_at 1 5000000000.
Definition st_laws : EnvLaws (wires * timers) := board_laws 1.
Definition demo_st : S5pc1xxSTState := mkSt 0 0x29 1000 0 0 1 0 0x41 (Some 0%nat) 1 0 0 1000000 1000000 0 0 4999500000.
Lemma demo_st_ok : st_ok (EnvLaws0 := st_laws) demo_st st_env.
Proof. split; [apply board_at_ok|cbn; lia|split; [split; discriminate|reflexivity]|split; reflexivity]. Qed.
Lemma demo_counting : counting demo_st.
Proof. split; [reflexivity..|split; [discriminate|reflexivity]|split; [discriminate|reflexivity]]. Qed.
Definition demo_after : S5pc1xxSTState * (wires * timers) := default (demo_st, st_env) (exec s5pc1xx_st_tick (demo_st, st_env)).
Lemma demo_after_run : s5pc1xx_st_tick (demo_st, st_env) = Ok (tt, (demo_after.1, demo_after.2)).
Proof. vm_compute. reflexivity. Qed.
Lemma demo_after_now : vm_now (EnvLaws := st_laws) demo_after.2 = 5000000000.
Proof. vm_compute. reflexivity. Qed.
Example st_interrupt_rate_witness : exists s' e', s5pc1xx_st_tick (demo_st, st_env) = Ok (tt, (s', e')) /\ int_cstat s' = 0x43 /\
  line_is (IrqBankLaws0 := @env_irq_laws _ _ _ st_laws) e' (Some 0%nat) true /\ armed (EnvLaws := st_laws) e' 0 = Some 5000500000.
Proof.
  destruct (st_interrupt_rate (EnvLaws0 := st_laws) demo_st st_env 1 demo_after.1 demo_after.2 demo_st_ok demo_counting eq_refl) as (_ & Hs & Ha & Hl & _).
  - apply (ticks_S 0 (demo_st, st_env) demo_st st_env st_env (demo_after.1, demo_after.2) (ticks_O _));
      [apply board_at_ok|split; [discriminate|reflexivity]|exact demo_after_run].
  - exists demo_after.1, demo_after.2. split; [exact demo_after_run|]. split; [exact Hs|]. split; [exact (Hl ltac:(lia) eq_refl eq_refl)|].
    specialize (Ha ltac:(lia)). rewrite demo_after_now in Ha. exact Ha.
Defined.
