(* ===== verification/I2c.v ===== *)
(** * I2c: the I2C bus (hw/i2c.c) and its masters (hw/bitbang_i2c.c,
    hw/s5pc1xx_i2c_gpio.c, hw/s5pc1xx_i2c.c)

    A bus hands the bytes of its master to the slave that was addressed.  A master is
    either software that drives the two wires of a bit-banging interface, through two GPIO
    pins, or the controller of the chip.  What a master asks of a bus is the class [I2CBus];
    the slaves are operations of the class [I2CSlave]. *)
From S2P Require Import Prelude HostUtils Irq Device.
#[local] Open Scope Z_scope.

Inductive i2c_event : Type := I2C_START_RECV | I2C_START_SEND | I2C_FINISH | I2C_NACK.

(** The callbacks of the slaves, which are numbered. *)
Class I2CSlave (E : Type) := {
  slave_event : nat -> i2c_event -> ST E unit;
  slave_send : nat -> Z -> ST E Z;
  slave_recv : nat -> ST E Z
}.
(** What a master does to a bus. *)
Class I2CBus (E : Type) := {
  bus_start : Z -> Z -> ST E Z;
  bus_end : ST E unit;
  bus_send : Z -> ST E Z;
  bus_recv : ST E Z;
  bus_nack : ST E unit
}.

(** ** The bus *)
(** The slaves are numbered in the order of the list of children. *)
Record i2c_bus := mkBus { addresses : list Z; current_dev : option nat; saved_address : Z }.
#[export] Instance eta_bus : Eta i2c_bus := fun r => mkBus (addresses r) (current_dev r) (saved_address r).

Section bus.
  Context {E : Type} `{!I2CSlave E}.
  Abbreviation BUS := (ST (i2c_bus * E)).
Definition i2c_bus_busy (b : i2c_bus) : Z := match current_dev b with Some _ => 1 | None => 0 end.
Definition i2c_bus_pre_save (b : i2c_bus) : i2c_bus :=
  b <| saved_address := wrap 8 (match current_dev b with Some d => default 0 (addresses b !! d) | None => -1 end) |>.
Definition i2c_bus_post_load (b : i2c_bus) : i2c_bus := b <| current_dev := None |>.
Definition i2c_slave_post_load (d : nat) (b : i2c_bus) : i2c_bus :=
  if bool_decide (Some (saved_address b) = addresses b !! d) then b <| current_dev := Some d |> else b.
Definition i2c_set_slave_address (d : nat) (address : Z) (b : i2c_bus) : i2c_bus :=
  b <| addresses := <[d := address]> (addresses b) |>.

(** The first slave at an address. *)
Definition find_slave (b : i2c_bus) (address : Z) : option nat := fst <$> list_find (eq address) (addresses b).
Definition i2c_start_transfer (address recv : Z) : BUS Z :=
  b ← dev;
  match find_slave b address with
  | None => mret 1
  | Some d =>
      set_dev (fun b => b <| current_dev := Some d |>) ;;
      on_bank (slave_event d (if truth recv then I2C_START_RECV else I2C_START_SEND)) ;;
      mret 0
  end.
Definition i2c_end_transfer : BUS unit :=
  b ← dev;
  match current_dev b with
  | None => mret tt
  | Some d => on_bank (slave_event d I2C_FINISH) ;; set_dev (fun b => b <| current_dev := None |>)
  end.
Definition i2c_send (data : Z) : BUS Z :=
  b ← dev; match current_dev b with None => mret (-1) | Some d => on_bank (slave_send d data) end.
Definition i2c_recv : BUS Z :=
  b ← dev; match current_dev b with None => mret (-1) | Some d => on_bank (slave_recv d) end.
Definition i2c_nack : BUS unit :=
  b ← dev; match current_dev b with None => mret tt | Some d => on_bank (slave_event d I2C_NACK) end.
#[export] Instance bus_ops : I2CBus (i2c_bus * E) :=
  {| bus_start := i2c_start_transfer; bus_end := i2c_end_transfer; bus_send := i2c_send; bus_recv := i2c_recv; bus_nack := i2c_nack |}.
End bus.

(** ** The bit-banging interface *)
Definition BITBANG_I2C_SDA : Z := 0.
Definition BITBANG_I2C_SCL : Z := 1.
Definition STOPPED : Z := 0.
Definition SENDING_BIT7 : Z := 1.
Definition SENDING_BIT0 : Z := 8.
Definition WAITING_FOR_ACK : Z := 9.
Definition RECEIVING_BIT7 : Z := 10.
Definition RECEIVING_BIT0 : Z := 17.
Definition SENDING_ACK : Z := 18.

Record bitbang_i2c_interface := mkBB { state : Z; last_data : Z; last_clock : Z; device_out : Z; buffer : Z; current_addr : Z }.
#[export] Instance eta_bb : Eta bitbang_i2c_interface := fun r =>
  mkBB (state r) (last_data r) (last_clock r) (device_out r) (buffer r) (current_addr r).
Definition bitbang_i2c_init : bitbang_i2c_interface := mkBB 0 1 1 1 0 0.

Section bitbang.
  Context {E : Type} `{!I2CBus E}.
  Abbreviation BB := (ST (bitbang_i2c_interface * E)).
Definition bitbang_i2c_enter_stop : BB unit :=
  i ← dev;
  when (current_addr i >=? 0) (on_bank bus_end) ;;
  set_dev (fun i => i <| current_addr := -1 |>) ;;
  set_dev (fun i => i <| state := STOPPED |>).
Definition bitbang_i2c_ret (level : Z) : BB Z :=
  set_dev (fun i => i <| device_out := level |>) ;;
  i ← dev; mret (Z.land level (last_data i)).
Definition bitbang_i2c_nop : BB Z := i ← dev; bitbang_i2c_ret (device_out i).
(** The bit the device puts on the line during a clock pulse of its byte. *)
Definition shift_out : BB Z :=
  i ← dev;
  let data := Z.shiftr (buffer i) 7 in
  set_dev (fun i => i <| state := state i + 1 |>) ;;
  set_dev (fun i => i <| buffer := wrap 8 (Z.shiftl (buffer i) 1) |>) ;;
  bitbang_i2c_ret data.
(** The rising edge of the clock. *)
Definition clock_pulse (data : Z) : BB Z :=
  i ← dev;
  if state i =? STOPPED then bitbang_i2c_ret 1
  else if (SENDING_BIT7 <=? state i) && (state i <=? SENDING_BIT0) then
    set_dev (fun i => i <| buffer := wrap 8 (Z.lor (Z.shiftl (buffer i) 1) data) |>) ;;
    set_dev (fun i => i <| state := state i + 1 |>) ;;
    bitbang_i2c_ret 1
  else if state i =? WAITING_FOR_ACK then
    (if current_addr i <? 0 then
       set_dev (fun i => i <| current_addr := buffer i |>) ;;
       i ← dev;
       _ ← on_bank (bus_start (wrap 8 (Z.shiftr (current_addr i) 1)) (Z.land (current_addr i) 1)); mret tt
     else _ ← on_bank (bus_send (buffer i)); mret tt) ;;
    i ← dev;
    (if truth (Z.land (current_addr i) 1) then set_dev (fun i => i <| state := RECEIVING_BIT7 |>)
     else set_dev (fun i => i <| state := SENDING_BIT7 |>)) ;;
    bitbang_i2c_ret 0
  else if state i =? RECEIVING_BIT7 then
    r ← on_bank bus_recv;
    set_dev (fun i => i <| buffer := wrap 8 r |>) ;;
    shift_out
  else if (RECEIVING_BIT7 <? state i) && (state i <=? RECEIVING_BIT0) then shift_out
  else if state i =? SENDING_ACK then
    (if negb (data =? 0) then
       set_dev (fun i => i <| state := STOPPED |>) ;;
       on_bank bus_nack
     else set_dev (fun i => i <| state := RECEIVING_BIT7 |>)) ;;
    bitbang_i2c_ret 1
  else hw_error.
Definition bitbang_i2c_set (line level : Z) : BB Z :=
  if negb (level =? 0) && negb (level =? 1) then hw_error
  else if line =? BITBANG_I2C_SDA then
    i ← dev;
    if level =? last_data i then bitbang_i2c_nop
    else
      set_dev (fun i => i <| last_data := level |>) ;;
      i ← dev;
      if last_clock i =? 0 then bitbang_i2c_nop
      else
        (if level =? 0 then
           set_dev (fun i => i <| state := SENDING_BIT7 |>) ;;
           set_dev (fun i => i <| current_addr := -1 |>)
         else bitbang_i2c_enter_stop) ;;
        bitbang_i2c_ret 1
  else
    i ← dev;
    let data := last_data i in
    if last_clock i =? level then bitbang_i2c_nop
    else
      set_dev (fun i => i <| last_clock := level |>) ;;
      if level =? 0 then bitbang_i2c_ret 1 else clock_pulse data.
End bitbang.

(** ** The interface behind two pins of the GPIO controller (hw/s5pc1xx_i2c_gpio.c) *)
Definition SDA_PIN_NUM : Z := 2.
Definition GIPIO_CONF_INPUT : Z := 0.
Record S5pc1xxI2CGPIOState := mkI2cGpio { bitbang : bitbang_i2c_interface; pin_sda : Z; pin_scl : Z; instance : Z }.
#[export] Instance eta_i2cgpio : Eta S5pc1xxI2CGPIOState := fun r => mkI2cGpio (bitbang r) (pin_sda r) (pin_scl r) (instance r).
Section i2c_gpio.
  Context {E : Type} `{!I2CBus E}.
  Abbreviation IG := (ST (S5pc1xxI2CGPIOState * E)).
Definition on_bitbang {A} (m : ST (bitbang_i2c_interface * E) A) : IG A := fun '(s, e) =>
  match m (bitbang s, e) with Ok (a, (i, e)) => Ok (a, (s <| bitbang := i |>, e)) | Err x => Err x end.
Definition s5pc1xx_i2c_gpio_reset : IG unit := set_dev (fun s => s <| pin_sda := 1 |> <| pin_scl := 1 |>).
(** A pin that is an input is released, and pulled up. *)
Definition s5pc1xx_i2c_bitbang_set_conf (io_index conf : Z) : IG unit :=
  let level := Z.b2z (conf =? GIPIO_CONF_INPUT) in
  if io_index =? SDA_PIN_NUM then
    v ← on_bitbang (bitbang_i2c_set BITBANG_I2C_SDA level); set_dev (fun s => s <| pin_sda := v |>)
  else
    v ← on_bitbang (bitbang_i2c_set BITBANG_I2C_SCL level); set_dev (fun s => s <| pin_sda := v |>) ;;
    set_dev (fun s => s <| pin_scl := level |>).
Definition s5pc1xx_i2c_bitbang_read (io_index : Z) : IG Z :=
  s ← dev; mret (wrap 32 (if io_index =? SDA_PIN_NUM then pin_sda s else pin_scl s)).
Definition s5pc1xx_i2c_bitbang_write (io_index value : Z) : IG unit := mret tt.
Definition s5pc1xx_i2c_gpio_init1 (inst : Z) : IG unit :=
  set_dev (fun s => s <| bitbang := bitbang_i2c_init |> <| instance := inst |>) ;; s5pc1xx_i2c_gpio_reset.
End i2c_gpio.

(** The interface behind two interrupt lines (GPIOI2CState of hw/bitbang_i2c.c). *)
Record GPIOI2CState := mkGpioI2c { gpio_bitbang : bitbang_i2c_interface; last_level : Z; out : option nat }.
#[export] Instance eta_gpioi2c : Eta GPIOI2CState := fun r => mkGpioI2c (gpio_bitbang r) (last_level r) (out r).
Definition bitbang_i2c_gpio_set {E P : Type} `{!I2CBus E, !IrqBank P} (irq level : Z) : ST (GPIOI2CState * (E * P)) unit := fun '(s, (e, p)) =>
  match bitbang_i2c_set irq level (gpio_bitbang s, e) with
  | Err x => Err x
  | Ok (level, (i, e)) =>
      let s := s <| gpio_bitbang := i |> in
      if negb (level =? last_level s) then
        match qemu_set_irq (out s) level p with Ok (_, p) => Ok (tt, (s <| last_level := level |>, (e, p))) | Err x => Err x end
      else Ok (tt, (s, (e, p)))
  end.

(** ** The controller (hw/s5pc1xx_i2c.c) *)
Definition I2CCON : Z := 0x00.
Definition I2CSTAT : Z := 0x04.
Definition I2CADD : Z := 0x08.
Definition I2CDS : Z := 0x0c.
Definition I2CLC : Z := 0x10.
Definition SR_MODE : Z := 0.
Definition ST_MODE : Z := 1.
Definition MR_MODE : Z := 2.
Definition MT_MODE : Z := 3.
Definition S5PC1XX_IICCON_IRQEN : Z := bit 5.
Definition S5PC1XX_IICCON_IRQPEND : Z := bit 4.
Definition S5PC1XX_IICSTAT_START : Z := bit 5.
Definition S5PC1XX_IICSTAT_TXRXEN : Z := bit 4.
Definition S5PC1XX_IICSTAT_LASTBIT : Z := bit 0.
Record S5pc1xxI2CState := mkI2c { i2c_irq : option nat; i2c_control : Z; i2c_status : Z; i2c_address : Z; datashift : Z; line_ctrl : Z; data : Z }.
#[export] Instance eta_i2c : Eta S5pc1xxI2CState := fun r =>
  mkI2c (i2c_irq r) (i2c_control r) (i2c_status r) (i2c_address r) (datashift r) (line_ctrl r) (data r).

Section controller.
  Context {E P : Type} `{!I2CBus E, !IrqBank P}.
  Abbreviation I2C := (ST (S5pc1xxI2CState * (E * P))).
Definition on_bus {A} (m : ST E A) : I2C A := on_bank (on_dev m).
Definition set_line (irq : option nat) (level : Z) : I2C unit := on_bank (on_bank (qemu_set_irq irq level)).
Definition i2c_level (s : S5pc1xxI2CState) : bool :=
  if truth (Z.land (i2c_control s) S5PC1XX_IICCON_IRQPEND) then false
  else truth (Z.land (i2c_status s) S5PC1XX_IICSTAT_START) && truth (Z.land (i2c_control s) S5PC1XX_IICCON_IRQEN).
Definition s5pc1xx_i2c_update : I2C unit := s ← dev; set_line (i2c_irq s) (Z.b2z (i2c_level s)).
Definition s5pc1xx_i2c_receive : I2C Z := r ← on_bus bus_recv; s5pc1xx_i2c_update ;; mret r.
Definition s5pc1xx_i2c_send (value : Z) : I2C Z :=
  s ← dev;
  when (negb (truth (Z.land (i2c_status s) S5PC1XX_IICSTAT_LASTBIT)))
    (set_dev (fun s => s <| data := value |>) ;; _ ← on_bus (bus_send value); mret tt) ;;
  s5pc1xx_i2c_update ;;
  mret 1.
Definition s5pc1xx_i2c_read (offset : Z) : I2C Z :=
  s ← dev;
  if offset =? I2CCON then mret (i2c_control s)
  else if offset =? I2CSTAT then mret (i2c_status s)
  else if offset =? I2CADD then mret (i2c_address s)
  else if offset =? I2CDS then
    r ← s5pc1xx_i2c_receive;
    set_dev (fun s => s <| data := wrap 8 r |>) ;;
    s ← dev; mret (data s)
  else if offset =? I2CLC then mret (line_ctrl s)
  else hw_error.
(** A start or stop condition in a master mode. *)
Definition start_or_stop (value : Z) : I2C unit :=
  if truth (Z.land value (bit 5)) then
    set_dev (fun s => s <| i2c_status := Z.land (i2c_status s) (wrap 8 (Z.lnot S5PC1XX_IICSTAT_LASTBIT)) |>) ;;
    s ← dev;
    _ ← on_bus (bus_start (Z.shiftr (data s) 1) (Z.land (data s) 1)); mret tt
  else
    on_bus bus_end ;;
    set_dev (fun s => s <| i2c_status := Z.lor (i2c_status s) S5PC1XX_IICSTAT_TXRXEN |>).
Definition s5pc1xx_i2c_write (offset value : Z) : I2C unit :=
  s ← dev;
  set_line (i2c_irq s) 0 ;;
  if offset =? I2CCON then
    set_dev (fun s => s <| i2c_control := Z.land value 0xff |>) ;;
    when (truth (Z.land value S5PC1XX_IICCON_IRQEN)) s5pc1xx_i2c_update
  else if offset =? I2CSTAT then
    set_dev (fun s => s <| i2c_status := Z.land value 0xff |>) ;;
    s ← dev;
    let mode := Z.land (Z.shiftr (i2c_status s) 6) 3 in
    when (truth (Z.land value S5PC1XX_IICSTAT_TXRXEN)) (
      if (mode =? SR_MODE) || (mode =? ST_MODE) then
        r ← s5pc1xx_i2c_receive; set_dev (fun s => s <| data := wrap 8 r |>)
      else when ((mode =? MR_MODE) || (mode =? MT_MODE)) (start_or_stop value)) ;;
    s5pc1xx_i2c_update
  else if offset =? I2CADD then set_dev (fun s => s <| i2c_address := Z.land value 0xff |>)
  else if offset =? I2CDS then _ ← s5pc1xx_i2c_send (Z.land value 0xff); mret tt
  else if offset =? I2CLC then set_dev (fun s => s <| line_ctrl := Z.land value 0xff |>)
  else hw_error.
End controller.

(** ** A master on the two wires *)
(** Results of a computation repeated for the elements of a list. *)
Fixpoint collect {S A B} (f : A -> ST S B) (l : list A) : ST S (list B) :=
  match l with
  | [] => mret []
  | x :: l => y ← f x; ys ← collect f l; mret (y :: ys)
  end.
Definition bits_of (b : Z) : list Z := List.map (fun i => Z.b2z (Z.testbit b i)) [7; 6; 5; 4; 3; 2; 1; 0].
Definition from_bits (acc : Z) (l : list Z) : Z := fold_left (fun a x => 2 * a + x) l acc.

Section master.
  Context {E : Type} `{!I2CBus E}.
  Abbreviation BB := (ST (bitbang_i2c_interface * E)).
Definition sda (level : Z) : BB Z := bitbang_i2c_set BITBANG_I2C_SDA level.
Definition scl (level : Z) : BB Z := bitbang_i2c_set BITBANG_I2C_SCL level.
(** One bit: put a level on the data line, sample the line while the clock is high. *)
Definition master_bit (b : Z) : BB Z := sda b ;; v ← scl 1; scl 0 ;; mret v.
Definition master_start : BB unit := sda 0 ;; scl 0 ;; mret tt.
Definition master_stop : BB unit := sda 0 ;; scl 1 ;; sda 1 ;; mret tt.
(** A byte from the master, with the acknowledge of the device. *)
Definition master_send (b : Z) : BB Z := collect master_bit (bits_of b) ;; master_bit 1.
(** A byte from the device, acknowledged by the master with a low level. *)
Definition master_recv (ack : Z) : BB Z := l ← collect master_bit (replicate 8 1); master_bit ack ;; mret (from_bits 0 l).
(** Whole transactions with the device at a 7-bit address. *)
Definition master_write (addr : Z) (data : list Z) : BB (list Z) :=
  master_start ;; acks ← collect master_send (2 * addr :: data); master_stop ;; mret acks.
Definition master_read (addr : Z) (n : nat) : BB (list Z) :=
  master_start ;; master_send (2 * addr + 1) ;; l ← collect master_recv (replicate n 0); x ← master_recv 1; master_stop ;; mret (l ++ [x]).

(** The same transactions on the bus. *)
Definition bus_write (addr : Z) (data : list Z) : ST E unit :=
  _ ← bus_start addr 0; for_each data (fun b => _ ← bus_send b; mret tt) ;; bus_end.
Definition bus_read (addr : Z) (n : nat) : ST E (list Z) :=
  let recv := (r ← bus_recv; mret (wrap 8 r)) in
  _ ← bus_start addr 1; l ← collect (fun _ => recv) (replicate n 0); x ← recv; bus_nack ;; bus_end ;; mret (l ++ [x]).

(** Both lines released. *)
Definition bb_idle (i : bitbang_i2c_interface) : Prop := last_data i = 1 /\ last_clock i = 1 /\ fits 8 (buffer i).

(** *** The wires, edge by edge *)
Definition is_level (b : Z) : Prop := b = 0 \/ b = 1.
Lemma sda_low_clock Er st d dout buf a (e : E) b (Q : Z -> bitbang_i2c_interface * E -> Prop) : is_level b ->
  Q (Z.land dout b) (mkBB st b 0 dout buf a, e) -> wp Er (sda b) Q (mkBB st d 0 dout buf a, e).
Proof.
  intros Hb HQ. unfold sda, bitbang_i2c_set. assert (negb (b =? 0) && negb (b =? 1) = false) as -> by (by destruct Hb as [->| ->]).
  change (BITBANG_I2C_SDA =? BITBANG_I2C_SDA) with true. cbv iota. wp_step. apply dev_wp. cbn [last_data].
  assert (forall i, i = mkBB st b 0 dout buf a -> wp Er bitbang_i2c_nop Q (i, e)) as Hnop.
  { intros i ->. unfold bitbang_i2c_nop, bitbang_i2c_ret. wp_step. apply dev_wp. wp_step. apply set_dev_wp. wp_step. apply dev_wp. by wp_step. }
  destruct (Z.eqb_spec b d) as [->|_]; [by apply Hnop|]. wp_step. apply set_dev_wp. wp_step. apply dev_wp. by apply Hnop.
Qed.
Lemma scl_fall Er st d dout buf a (e : E) (Q : Z -> bitbang_i2c_interface * E -> Prop) : 
  (forall v, Q v (mkBB st d 0 1 buf a, e)) -> wp Er (scl 0) Q (mkBB st d 1 dout buf a, e).
Proof.
  intros HQ. unfold scl, bitbang_i2c_set. change (negb (0 =? 0) && negb (0 =? 1)) with false. change (BITBANG_I2C_SCL =? BITBANG_I2C_SDA) with false. cbv iota.
  wp_step. apply dev_wp. cbn [last_clock last_data]. change (1 =? 0) with false. cbv iota. wp_step. apply set_dev_wp.
  change (0 =? 0) with true. cbv iota. unfold bitbang_i2c_ret. wp_step. apply set_dev_wp. wp_step. apply dev_wp. wp_step. apply HQ.
Qed.
Lemma scl_rise Er st d dout buf a (e : E) (Q : Z -> bitbang_i2c_interface * E -> Prop) :
  wp Er (clock_pulse d) Q (mkBB st d 1 dout buf a, e) -> wp Er (scl 1) Q (mkBB st d 0 dout buf a, e).
Proof.
  intros HQ. unfold scl, bitbang_i2c_set. change (negb (1 =? 0) && negb (1 =? 1)) with false. change (BITBANG_I2C_SCL =? BITBANG_I2C_SDA) with false. cbv iota.
  wp_step. apply dev_wp. cbn [last_clock last_data]. change (0 =? 1) with false. cbv iota. wp_step. apply set_dev_wp. exact HQ.
Qed.
(** A bit, given what the pulse does. *)
Lemma master_bit_wp Er st d buf a (e : E) b (Q : Z -> bitbang_i2c_interface * E -> Prop) : is_level b ->
  wp Er (clock_pulse b) (fun v x => exists st' dout buf' a', x.1 = mkBB st' b 1 dout buf' a' /\ Q v (mkBB st' b 0 1 buf' a', x.2)) (mkBB st b 1 1 buf a, e) ->
  wp Er (master_bit b) Q (mkBB st d 0 1 buf a, e).
Proof.
  intros Hb H. unfold master_bit. wp_step. apply sda_low_clock; [done|]. wp_step. apply scl_rise. eapply wp_mono; [exact H|].
  intros v [i e'] (st' & dout & buf' & a' & Hi & HQ). cbn [fst snd] in *. subst i. wp_step. apply scl_fall. intros w. by wp_step.
Qed.
Lemma ret_wp Er l i (e : E) (Q : Z -> bitbang_i2c_interface * E -> Prop) :
  Q (Z.land l (last_data i)) (i <| device_out := l |>, e) -> wp Er (bitbang_i2c_ret l) Q (i, e).
Proof. intros HQ. unfold bitbang_i2c_ret. wp_step. apply set_dev_wp. wp_step. apply dev_wp. by wp_step. Qed.

(** *** Bits of a byte *)
Lemma from_bits_acc a l : from_bits a l = a * 2 ^ Z.of_nat (length l) + from_bits 0 l.
Proof.
  unfold from_bits. revert a. induction l as [|x l IH]; intros a; cbn [fold_left length]; [lia|].
  rewrite IH, (IH (2 * 0 + x)), Nat2Z.inj_succ, Z.pow_succ_r by lia. lia.
Qed.
Lemma from_bits_wrap a l : wrap 8 (from_bits (wrap 8 a) l) = wrap 8 (from_bits a l).
Proof. rewrite (from_bits_acc a), (from_bits_acc (wrap 8 a)). unfold wrap. by rewrite <- Zplus_mod_idemp_l, Zmult_mod_idemp_l, Zplus_mod_idemp_l. Qed.
(** The eight bits of a byte make it up. *)
Lemma from_bits_of b : fits 8 b -> from_bits 0 (bits_of b) = b.
Proof.
  intros Hb. assert (forallb (fun n => from_bits 0 (bits_of (Z.of_nat n)) =? Z.of_nat n) (seq 0 256) = true) as H by (vm_compute; reflexivity).
  rewrite forallb_forall in H. specialize (H (Z.to_nat b)). rewrite Z2Nat.id in H by (unfold fits in Hb; lia). apply Z.eqb_eq, H, in_seq. unfold fits in Hb. lia.
Qed.
(** The samples of a byte shifted out. *)
Fixpoint shifted (n : nat) (x : Z) : list Z :=
  match n with O => [] | S n => Z.land (Z.shiftr x 7) 1 :: shifted n (wrap 8 (Z.shiftl x 1)) end.
Lemma from_shifted b : fits 8 b -> from_bits 0 (shifted 8 b) = b.
Proof.
  intros Hb. assert (forallb (fun n => from_bits 0 (shifted 8 (Z.of_nat n)) =? Z.of_nat n) (seq 0 256) = true) as H by (vm_compute; reflexivity).
  rewrite forallb_forall in H. specialize (H (Z.to_nat b)). rewrite Z2Nat.id in H by (unfold fits in Hb; lia). apply Z.eqb_eq, H, in_seq. unfold fits in Hb. lia.
Qed.
(** A bit the master sends. *)
Lemma send_bit_wp Er st d buf a (e : E) b (Q : Z -> bitbang_i2c_interface * E -> Prop) : is_level b -> SENDING_BIT7 <= st <= SENDING_BIT0 ->
  (forall v, Q v (mkBB (st + 1) b 0 1 (wrap 8 (2 * buf + b)) a, e)) -> wp Er (master_bit b) Q (mkBB st d 0 1 buf a, e).
Proof.
  intros Hb Hst HQ. apply master_bit_wp; [done|]. unfold clock_pulse. wp_step. apply dev_wp. cbn [state buffer].
  rewrite (proj2 (Z.eqb_neq st STOPPED)) by (unfold STOPPED, SENDING_BIT7 in *; lia).
  rewrite (proj2 (Z.leb_le SENDING_BIT7 st)), (proj2 (Z.leb_le st SENDING_BIT0)) by lia. cbn [andb].
  wp_step. apply set_dev_wp. wp_step. apply set_dev_wp. apply ret_wp. do 4 eexists. split; [reflexivity|].
  cbn [state buffer current_addr upd fst snd]. replace (Z.lor (Z.shiftl buf 1) b) with (2 * buf + b); [apply HQ|].
  rewrite Z.shiftl_mul_pow2 by done. change (2 ^ 1) with 2. rewrite (Z.mul_comm 2). destruct Hb as [->| ->]; [by rewrite Z.lor_0_r, Z.add_0_r|].
  rewrite <- Z.add_nocarry_lor; [done|]. change 1 with (Z.ones 1). rewrite Z.land_ones by done. by rewrite Z.mod_mul.
Qed.
Lemma send_bits_wp Er l st d buf a (e : E) (Q : list Z -> bitbang_i2c_interface * E -> Prop) : Forall is_level l ->
  SENDING_BIT7 <= st -> st + Z.of_nat (length l) <= WAITING_FOR_ACK -> fits 8 buf ->
  (forall vs d', Q vs (mkBB (st + Z.of_nat (length l)) d' 0 1 (wrap 8 (from_bits buf l)) a, e)) ->
  wp Er (collect master_bit l) Q (mkBB st d 0 1 buf a, e).
Proof.
  revert st d buf Q. induction l as [|b l IH]; intros st d buf Q Hl Hst Hle Hbuf HQ; cbn [collect].
  - wp_step. specialize (HQ [] d). cbn [length from_bits fold_left] in HQ. rewrite Z.add_0_r, wrap_fits in HQ by done. exact HQ.
  - apply Forall_cons_1 in Hl as [Hb Hl]. cbn [length] in *. wp_step. apply send_bit_wp; [done|unfold SENDING_BIT0, WAITING_FOR_ACK in *; lia|]. intros v.
    wp_step. apply IH; [done|lia|lia|by apply fits_wrap|]. intros vs d'. wp_step.
    replace (wrap 8 (from_bits (wrap 8 (2 * buf + b)) l)) with (wrap 8 (from_bits buf (b :: l))).
    + replace (st + 1 + Z.of_nat (length l)) with (st + Z.of_nat (S (length l))) by lia. apply HQ.
    + symmetry. exact (from_bits_wrap (2 * buf + b) l).
Qed.
(** A byte the master sends, up to the acknowledge. *)
Lemma send_byte_wp Er b d buf a (e : E) (Q : list Z -> bitbang_i2c_interface * E -> Prop) : fits 8 b -> fits 8 buf ->
  (forall vs d', Q vs (mkBB WAITING_FOR_ACK d' 0 1 b a, e)) ->
  wp Er (collect master_bit (bits_of b)) Q (mkBB SENDING_BIT7 d 0 1 buf a, e).
Proof.
  intros Hb Hbuf HQ. apply send_bits_wp; try done.
  - unfold bits_of. repeat (apply List.Forall_cons; [destruct (Z.testbit b _); [by right|by left]|]). apply List.Forall_nil.
  - intros vs d'. change (SENDING_BIT7 + Z.of_nat (length (bits_of b))) with WAITING_FOR_ACK.
    replace (wrap 8 (from_bits buf (bits_of b))) with b; [apply HQ|]. rewrite from_bits_acc, (from_bits_of b Hb).
    change (Z.of_nat (length (bits_of b))) with 8. unfold wrap. rewrite Z.add_comm, Z_mod_plus_full. symmetry. by apply Z.mod_small.
Qed.
(** The acknowledge of an address. *)
Lemma ack_addr_wp Er d x (e : E) (Q : Z -> bitbang_i2c_interface * E -> Prop) : fits 8 x ->
  wp Er (bus_start (Z.shiftr x 1) (Z.land x 1)) (fun _ e' =>
    Q 0 (mkBB (if truth (Z.land x 1) then RECEIVING_BIT7 else SENDING_BIT7) 1 0 1 x x, e')) e ->
  wp Er (master_bit 1) Q (mkBB WAITING_FOR_ACK d 0 1 x (-1), e).
Proof.
  intros Hx H. apply master_bit_wp; [by right|]. unfold clock_pulse. wp_step. apply dev_wp. cbn [state buffer current_addr].
  change (WAITING_FOR_ACK =? STOPPED) with false. change ((SENDING_BIT7 <=? WAITING_FOR_ACK) && (WAITING_FOR_ACK <=? SENDING_BIT0)) with false.
  change (WAITING_FOR_ACK =? WAITING_FOR_ACK) with true. change (-1 <? 0) with true. cbv iota.
  wp_step. wp_step. apply set_dev_wp. wp_step. apply dev_wp. wp_step. apply wp_on_bank. cbn [current_addr upd buffer].
  rewrite (wrap_fits 8 (Z.shiftr x 1)) by (unfold fits in *; rewrite Z.shiftr_div_pow2 by done; change (2 ^ 1) with 2; split; [apply Z.div_pos; lia|apply Z.div_lt_upper_bound; lia]).
  eapply wp_mono; [exact H|]. intros r e' HQ. wp_step. wp_step. apply dev_wp. cbn [current_addr upd]. wp_step.
  destruct (truth (Z.land x 1)); apply set_dev_wp; apply ret_wp; do 4 eexists; (split; [reflexivity|exact HQ]).
Qed.
(** The acknowledge of a byte. *)
Lemma ack_byte_wp Er d x a (e : E) (Q : Z -> bitbang_i2c_interface * E -> Prop) : 0 <= a -> truth (Z.land a 1) = false ->
  wp Er (bus_send x) (fun _ e' => Q 0 (mkBB SENDING_BIT7 1 0 1 x a, e')) e ->
  wp Er (master_bit 1) Q (mkBB WAITING_FOR_ACK d 0 1 x a, e).
Proof.
  intros Ha0 Ha H. apply master_bit_wp; [by right|]. unfold clock_pulse. wp_step. apply dev_wp. cbn [state buffer current_addr].
  change (WAITING_FOR_ACK =? STOPPED) with false. change ((SENDING_BIT7 <=? WAITING_FOR_ACK) && (WAITING_FOR_ACK <=? SENDING_BIT0)) with false.
  change (WAITING_FOR_ACK =? WAITING_FOR_ACK) with true. rewrite (proj2 (Z.ltb_ge a 0)) by done. cbv iota.
  wp_step. wp_step. apply wp_on_bank. eapply wp_mono; [exact H|]. intros r e' HQ. wp_step. wp_step. apply dev_wp. cbn [current_addr]. wp_step.
  rewrite Ha. apply set_dev_wp. apply ret_wp. do 4 eexists. split; [reflexivity|exact HQ].
Qed.
(** A bit the device shifts out. *)
Lemma shift_out_wp Er st d dout x a (e : E) (Q : Z -> bitbang_i2c_interface * E -> Prop) :
  Q (Z.land (Z.shiftr x 7) d) (mkBB (st + 1) d 1 (Z.shiftr x 7) (wrap 8 (Z.shiftl x 1)) a, e) -> wp Er shift_out Q (mkBB st d 1 dout x a, e).
Proof. intros HQ. unfold shift_out. wp_step. apply dev_wp. wp_step. apply set_dev_wp. wp_step. apply set_dev_wp. by apply ret_wp. Qed.
Lemma recv_bits_wp Er n st d x a (e : E) (Q : list Z -> bitbang_i2c_interface * E -> Prop) : RECEIVING_BIT7 < st -> st + Z.of_nat n <= SENDING_ACK -> fits 8 x ->
  (forall d' y, fits 8 y -> Q (shifted n x) (mkBB (st + Z.of_nat n) d' 0 1 y a, e)) ->
  wp Er (collect master_bit (replicate n 1)) Q (mkBB st d 0 1 x a, e).
Proof.
  revert st d x Q. induction n as [|n IH]; intros st d x Q H1 H2 Hx HQ; cbn [collect replicate].
  - wp_step. specialize (HQ d x Hx). by rewrite Z.add_0_r in HQ.
  - wp_step. apply master_bit_wp; [by right|]. unfold clock_pulse. wp_step. apply dev_wp. cbn [state].
    rewrite (proj2 (Z.eqb_neq st STOPPED)), (proj2 (Z.eqb_neq st WAITING_FOR_ACK)), (proj2 (Z.eqb_neq st RECEIVING_BIT7)) by (unfold RECEIVING_BIT7, WAITING_FOR_ACK, STOPPED in *; lia).
    rewrite (proj2 (Z.leb_gt st SENDING_BIT0)) by (unfold RECEIVING_BIT7, SENDING_BIT0 in *; lia). rewrite andb_false_r.
    rewrite (proj2 (Z.ltb_lt RECEIVING_BIT7 st)), (proj2 (Z.leb_le st RECEIVING_BIT0)) by (unfold RECEIVING_BIT0, SENDING_ACK in *; lia). cbn [andb].
    apply shift_out_wp. do 4 eexists. split; [reflexivity|]. cbn [snd]. wp_step. apply IH; [lia|lia|by apply fits_wrap|]. intros d' y Hy. wp_step.
    specialize (HQ d' y Hy). replace (st + 1 + Z.of_nat n) with (st + Z.of_nat (S n)) by lia. exact HQ.
Qed.
(** A byte the master receives, acknowledged or not. *)
Lemma recv_byte_wp Er d buf a nack (e : E) (Q : Z -> bitbang_i2c_interface * E -> Prop) : is_level nack -> 0 <= a ->
  wp Er (r ← bus_recv; (if nack =? 0 then mret tt else bus_nack) ;; mret (wrap 8 r)) (fun x e' => forall y, fits 8 y ->
     Q x (mkBB (if nack =? 0 then RECEIVING_BIT7 else STOPPED) nack 0 1 y a, e')) e ->
  wp Er (master_recv nack) Q (mkBB RECEIVING_BIT7 d 0 1 buf a, e).
Proof.
  intros Hn Ha H. unfold master_recv. change (replicate 8 1) with (1 :: replicate 7 1). cbn [collect]. wp_step. wp_step.
  apply master_bit_wp; [by right|]. unfold clock_pulse. wp_step. apply dev_wp. cbn [state].
  change (RECEIVING_BIT7 =? STOPPED) with false. change ((SENDING_BIT7 <=? RECEIVING_BIT7) && (RECEIVING_BIT7 <=? SENDING_BIT0)) with false.
  change (RECEIVING_BIT7 =? WAITING_FOR_ACK) with false. change (RECEIVING_BIT7 =? RECEIVING_BIT7) with true. cbv iota.
  apply wp_bind in H. wp_step. apply wp_on_bank. eapply wp_mono; [exact H|]. intros r e' H'. wp_step. apply set_dev_wp. apply shift_out_wp.
  do 4 eexists. split; [reflexivity|]. cbn [snd]. wp_step. apply recv_bits_wp; [done|done|by apply fits_wrap|]. intros d' y Hy. wp_step.
  wp_step. apply master_bit_wp; [done|]. unfold clock_pulse. wp_step. apply dev_wp. cbn [state last_data current_addr].
  change (RECEIVING_BIT7 + 1 + Z.of_nat 7) with SENDING_ACK.
  change (SENDING_ACK =? STOPPED) with false. change ((SENDING_BIT7 <=? SENDING_ACK) && (SENDING_ACK <=? SENDING_BIT0)) with false.
  change (SENDING_ACK =? WAITING_FOR_ACK) with false. change (SENDING_ACK =? RECEIVING_BIT7) with false.
  change ((RECEIVING_BIT7 <? SENDING_ACK) && (SENDING_ACK <=? RECEIVING_BIT0)) with false. change (SENDING_ACK =? SENDING_ACK) with true. cbv iota.
  assert (from_bits 0 (Z.land (Z.shiftr (wrap 8 r) 7) 1 :: shifted 7 (wrap 8 (Z.shiftl (wrap 8 r) 1))) = wrap 8 r) as Hbyte by (apply (from_shifted (wrap 8 r)); by apply fits_wrap).
  destruct Hn as [->| ->]; wp_step.
  - change (negb (0 =? 0)) with false. change (0 =? 0) with true in H'. cbv iota in *. apply wp_bind, wp_ret in H'. rewrite wp_ret in H'. apply set_dev_wp. apply ret_wp. do 4 eexists. split; [reflexivity|]. cbn [snd]. wp_step. rewrite Hbyte. by apply H'.
  - change (negb (1 =? 0)) with true. change (1 =? 0) with false in H'. cbv iota in *. apply wp_bind in H'. wp_step. apply set_dev_wp. apply wp_on_bank. eapply wp_mono; [exact H'|]. intros [] e'' H''. rewrite wp_ret in H''.
    apply ret_wp. do 4 eexists. split; [reflexivity|]. cbn [snd]. wp_step. rewrite Hbyte. by apply H''.
Qed.
(** *** Transactions *)
Lemma bb_start_wp Er i (e : E) (Q : unit -> bitbang_i2c_interface * E -> Prop) : bb_idle i ->
  Q tt (mkBB SENDING_BIT7 0 0 1 (buffer i) (-1), e) -> wp Er master_start Q (i, e).
Proof.
  intros (H1 & H2 & _) HQ. destruct i as [st d c dout buf a]. cbn [last_data last_clock] in *. subst d c. unfold master_start.
  wp_step. unfold sda, bitbang_i2c_set. change (negb (0 =? 0) && negb (0 =? 1)) with false. change (BITBANG_I2C_SDA =? BITBANG_I2C_SDA) with true. cbv iota.
  wp_step. apply dev_wp. cbn [last_data]. change (0 =? 1) with false. cbv iota. wp_step. apply set_dev_wp. wp_step. apply dev_wp. cbn [last_clock upd].
  change (1 =? 0) with false. change (0 =? 0) with true. cbv iota. wp_step. wp_step. apply set_dev_wp. apply set_dev_wp. apply ret_wp.
  wp_step. apply scl_fall. intros v. wp_step. exact HQ.
Qed.
Lemma bb_stop_wp Er st d x a (e : E) (Q : unit -> bitbang_i2c_interface * E -> Prop) : st = SENDING_BIT7 \/ st = STOPPED -> 0 <= a ->
  fits 8 x ->
  wp Er bus_end (fun _ e' => forall i', bb_idle i' -> Q tt (i', e')) e -> wp Er master_stop Q (mkBB st d 0 1 x a, e).
Proof.
  intros Hst Ha Hx H. unfold master_stop. wp_step. apply sda_low_clock; [by left|]. wp_step. apply scl_rise.
  assert (forall st' y dout, fits 8 y -> wp Er (sda 1) (fun _ s => wp Er (mret tt) Q s) (mkBB st' 0 1 dout y a, e)) as Hend.
  { intros st' y dout Hy. unfold sda, bitbang_i2c_set. change (negb (1 =? 0) && negb (1 =? 1)) with false. change (BITBANG_I2C_SDA =? BITBANG_I2C_SDA) with true. cbv iota.
    wp_step. apply dev_wp. cbn [last_data]. change (1 =? 0) with false. cbv iota. wp_step. apply set_dev_wp. wp_step. apply dev_wp. cbn [last_clock upd].
    change (1 =? 0) with false. cbv iota. wp_step. unfold bitbang_i2c_enter_stop. wp_step. apply dev_wp. cbn [current_addr upd]. wp_step.
    assert ((a >=? 0) = true) as -> by lia. wp_step. apply wp_on_bank. eapply wp_mono; [exact H|]. intros [] e' HQ.
    wp_step. apply set_dev_wp. apply set_dev_wp. apply ret_wp. wp_step. apply HQ. by split_and!. }
  unfold clock_pulse. wp_step. apply dev_wp. cbn [state]. destruct Hst as [->| ->].
  - change (SENDING_BIT7 =? STOPPED) with false. change ((SENDING_BIT7 <=? SENDING_BIT7) && (SENDING_BIT7 <=? SENDING_BIT0)) with true. cbv iota.
    wp_step. apply set_dev_wp. wp_step. apply set_dev_wp. apply ret_wp. wp_step. apply Hend. by apply fits_wrap.
  - change (STOPPED =? STOPPED) with true. cbv iota. apply ret_wp. wp_step. by apply Hend.
Qed.
Lemma send_data_wp Er data d x a (e : E) (Q : list Z -> bitbang_i2c_interface * E -> Prop) : 0 <= a -> truth (Z.land a 1) = false -> fits 8 x -> Forall (fits 8) data ->
  wp Er (for_each data (fun b => _ ← bus_send b; mret tt)) (fun _ e' => forall d' y, fits 8 y -> Q (replicate (length data) 0) (mkBB SENDING_BIT7 d' 0 1 y a, e')) e ->
  wp Er (collect master_send data) Q (mkBB SENDING_BIT7 d 0 1 x a, e).
Proof.
  revert d x e Q. induction data as [|b data IH]; intros d x e Q Ha Ha1 Hx Hd H; cbn [collect for_each] in *.
  - wp_step. rewrite wp_ret in H. by apply H.
  - apply Forall_cons_1 in Hd as [Hb Hd]. wp_step. unfold master_send at 1. wp_step. apply send_byte_wp; [done|done|]. intros vs d'.
    apply ack_byte_wp; [done|done|]. rewrite wp_bind in H. rewrite wp_bind in H. eapply wp_mono; [exact H|]. intros r e' H'. rewrite wp_ret in H'.
    wp_step. apply IH; [done|done|done|done|]. eapply wp_mono; [exact H'|]. intros [] e'' HQ d2 y Hy. wp_step. by apply HQ.
Qed.
Lemma recv_data_wp Er n d x a (e : E) (Q : list Z -> bitbang_i2c_interface * E -> Prop) : 0 <= a -> fits 8 x ->
  wp Er (collect (fun _ => r ← bus_recv; mret (wrap 8 r)) (replicate n 0)) (fun l e' => forall d' y, fits 8 y -> Q l (mkBB RECEIVING_BIT7 d' 0 1 y a, e')) e ->
  wp Er (collect master_recv (replicate n 0)) Q (mkBB RECEIVING_BIT7 d 0 1 x a, e).
Proof.
  revert d x e Q. induction n as [|n IH]; intros d x e Q Ha Hx H; cbn [collect replicate] in *.
  - wp_step. rewrite wp_ret in H. by apply H.
  - wp_step. apply recv_byte_wp; [by left|done|]. change (0 =? 0) with true. cbv iota.
    rewrite wp_bind in H. rewrite wp_bind in H. wp_step. eapply wp_mono; [exact H|]. intros r e' H'. rewrite wp_ret in H'. wp_step. wp_step. wp_step.
    intros y Hy. wp_step. apply IH; [done|done|]. rewrite wp_bind in H'. eapply wp_mono; [exact H'|]. intros l e'' HQ d2 y2 Hy2. rewrite wp_ret in HQ. wp_step. by apply HQ.
Qed.
Lemma addr_byte addr r : 0 <= addr < 128 -> r = 0 \/ r = 1 -> fits 8 (2 * addr + r) /\ Z.shiftr (2 * addr + r) 1 = addr /\ Z.land (2 * addr + r) 1 = r.
Proof.
  intros Ha Hr. split; [unfold fits; lia|]. rewrite Z.shiftr_div_pow2 by done. change (2 ^ 1) with 2. split.
  - symmetry. apply (Z.div_unique _ _ _ r); lia.
  - change 1 with (Z.ones 1). rewrite Z.land_ones by done. symmetry. change (2 ^ 1) with 2. apply (Z.mod_unique _ _ addr); lia.
Qed.

Lemma master_write_wp Er addr data i (e : E) (Q : list Z -> bitbang_i2c_interface * E -> Prop) : 0 <= addr < 128 -> Forall (fits 8) data -> bb_idle i ->
  wp Er (bus_write addr data) (fun _ e' => forall i', bb_idle i' -> Q (replicate (S (length data)) 0) (i', e')) e ->
  wp Er (master_write addr data) Q (i, e).
Proof.
  intros Ha Hd Hi H. pose proof Hi as (_ & _ & Hbuf). destruct (addr_byte addr 0 Ha (or_introl eq_refl)) as (A1 & A2 & A3). rewrite Z.add_0_r in *.
  unfold master_write. wp_step. apply bb_start_wp; [done|]. wp_step. cbn [collect]. wp_step. unfold master_send at 1. wp_step.
  apply send_byte_wp; [done|done|]. intros vs d'. apply ack_addr_wp; [done|]. rewrite A2, A3. change (truth 0) with false. cbv iota.
  unfold bus_write in H. rewrite wp_bind in H. eapply wp_mono; [exact H|]. intros r e' H'. rewrite wp_bind in H'. wp_step.
  apply send_data_wp; [lia|by rewrite A3|done|done|]. eapply wp_mono; [exact H'|]. intros [] e'' H'' d2 y Hy. wp_step. wp_step.
  apply bb_stop_wp; [by left|lia|done|]. eapply wp_mono; [exact H''|]. intros [] e3 HQ i' Hi'. wp_step. by apply HQ.
Qed.
Lemma master_read_wp Er addr n i (e : E) (Q : list Z -> bitbang_i2c_interface * E -> Prop) : 0 <= addr < 128 -> bb_idle i ->
  wp Er (bus_read addr n) (fun l e' => forall i', bb_idle i' -> Q l (i', e')) e ->
  wp Er (master_read addr n) Q (i, e).
Proof.
  intros Ha Hi H. pose proof Hi as (_ & _ & Hbuf). destruct (addr_byte addr 1 Ha (or_intror eq_refl)) as (A1 & A2 & A3).
  unfold master_read. wp_step. apply bb_start_wp; [done|]. wp_step. unfold master_send at 1. wp_step.
  apply send_byte_wp; [done|done|]. intros vs d'. apply ack_addr_wp; [done|]. rewrite A2, A3. change (truth 1) with true. cbv iota.
  unfold bus_read in H. rewrite wp_bind in H. eapply wp_mono; [exact H|]. intros r e' H'. rewrite wp_bind in H'. wp_step.
  apply recv_data_wp; [lia|done|]. eapply wp_mono; [exact H'|]. intros l e'' H'' d2 y Hy. wp_step. apply recv_byte_wp; [by right|lia|].
  change (1 =? 0) with false. cbv iota. rewrite wp_bind, wp_bind in H''. wp_step. eapply wp_mono; [exact H''|]. intros r2 e3 H3. rewrite wp_ret, wp_bind in H3.
  wp_step. eapply wp_mono; [exact H3|]. intros [] e4 H4. rewrite wp_bind in H4. wp_step. intros y2 Hy2. wp_step.
  apply bb_stop_wp; [by right|lia|done|]. eapply wp_mono; [exact H4|]. intros [] e5 HQ i' Hi'. rewrite wp_ret in HQ. wp_step. by apply HQ.
Qed.
End master.

(** ** What a slave sees *)
Section transactions.
  Context {E : Type} `{!I2CSlave E}.
Definition slave_write (d : nat) (data : list Z) : ST E unit :=
  slave_event d I2C_START_SEND ;; for_each data (fun b => _ ← slave_send d b; mret tt) ;; slave_event d I2C_FINISH.
Definition slave_read (d n : nat) : ST E (list Z) :=
  let recv := (r ← slave_recv d; mret (wrap 8 r)) in
  slave_event d I2C_START_RECV ;; l ← collect (fun _ => recv) (replicate n 0); x ← recv;
  slave_event d I2C_NACK ;; slave_event d I2C_FINISH ;; mret (l ++ [x]).

Lemma for_each_bus Er data d b (e : E) (Q : unit -> i2c_bus * E -> Prop) : current_dev b = Some d ->
  wp Er (for_each data (fun x => _ ← slave_send d x; mret tt)) (fun _ e' => Q tt (b, e')) e ->
  wp Er (for_each data (fun x => _ ← bus_send x; mret tt)) Q (b, e).
Proof.
  intros Hb. revert e. induction data as [|x data IH]; intros e H; cbn [for_each] in *; [exact H|].
  rewrite wp_bind, wp_bind in H. wp_step. wp_step. unfold bus_send, bus_ops, i2c_send. wp_step. apply dev_wp. rewrite Hb. apply wp_on_bank.
  eapply wp_mono; [exact H|]. intros r e' H'. wp_step. by apply IH.
Qed.
Lemma collect_bus Er n d b (e : E) (Q : list Z -> i2c_bus * E -> Prop) : current_dev b = Some d ->
  wp Er (collect (fun _ : Z => r ← slave_recv d; mret (wrap 8 r)) (replicate n 0)) (fun l e' => Q l (b, e')) e ->
  wp Er (collect (fun _ : Z => r ← bus_recv; mret (wrap 8 r)) (replicate n 0)) Q (b, e).
Proof.
  intros Hb. revert e Q. induction n as [|n IH]; intros e Q H; cbn [collect replicate] in *; [exact H|].
  rewrite wp_bind, wp_bind in H. wp_step. wp_step. unfold bus_recv at 1, bus_ops at 1, i2c_recv. wp_step. apply dev_wp. rewrite Hb. apply wp_on_bank.
  eapply wp_mono; [exact H|]. intros r e' H'. rewrite wp_ret in H'. wp_step. wp_step. apply IH. rewrite wp_bind in H'. eapply wp_mono; [exact H'|].
  intros l e'' H''. wp_step. exact H''.
Qed.
Definition select (b : i2c_bus) (o : option nat) : i2c_bus := b <| current_dev := o |>.
Lemma bus_start_wp Er addr r d b (e : E) (Q : Z -> i2c_bus * E -> Prop) : find_slave b addr = Some d ->
  wp Er (slave_event d (if truth r then I2C_START_RECV else I2C_START_SEND)) (fun _ e' => Q 0 (select b (Some d), e')) e -> wp Er (bus_start addr r) Q (b, e).
Proof.
  intros Hf H. unfold bus_start, bus_ops, i2c_start_transfer. wp_step. apply dev_wp. rewrite Hf. wp_step. apply set_dev_wp. wp_step. apply wp_on_bank.
  eapply wp_mono; [exact H|]. intros [] e' HQ. by wp_step.
Qed.
Lemma bus_end_wp Er d b (e : E) (Q : unit -> i2c_bus * E -> Prop) : current_dev b = Some d ->
  wp Er (slave_event d I2C_FINISH) (fun _ e' => Q tt (select b None, e')) e -> wp Er bus_end Q (b, e).
Proof.
  intros Hb H. unfold bus_end, bus_ops, i2c_end_transfer. wp_step. apply dev_wp. rewrite Hb. wp_step. apply wp_on_bank.
  eapply wp_mono; [exact H|]. intros [] e' HQ. by apply set_dev_wp.
Qed.
Lemma bus_write_wp Er addr data d b (e : E) (Q : unit -> i2c_bus * E -> Prop) : find_slave b addr = Some d ->
  wp Er (slave_write d data) (fun _ e' => Q tt (select b None, e')) e -> wp Er (bus_write addr data) Q (b, e).
Proof.
  intros Hf H. unfold slave_write in H. rewrite wp_bind in H. unfold bus_write. wp_step. eapply bus_start_wp; [exact Hf|]. change (truth 0) with false. cbv iota.
  eapply wp_mono; [exact H|]. intros [] e' H'. rewrite wp_bind in H'. wp_step. eapply for_each_bus; [reflexivity|]. eapply wp_mono; [exact H'|].
  intros [] e'' H''. eapply bus_end_wp; [reflexivity|]. exact H''.
Qed.
Lemma bus_read_wp Er addr n d b (e : E) (Q : list Z -> i2c_bus * E -> Prop) : find_slave b addr = Some d ->
  wp Er (slave_read d n) (fun l e' => Q l (select b None, e')) e -> wp Er (bus_read addr n) Q (b, e).
Proof.
  intros Hf H. unfold slave_read in H. rewrite wp_bind in H. unfold bus_read. wp_step. eapply bus_start_wp; [exact Hf|]. change (truth 1) with true. cbv iota.
  eapply wp_mono; [exact H|]. intros [] e' H'. rewrite wp_bind in H'. wp_step. eapply collect_bus; [reflexivity|]. eapply wp_mono; [exact H'|].
  intros l e'' H''. rewrite wp_bind, wp_bind in H''. wp_step. wp_step. unfold bus_recv, bus_ops, i2c_recv. wp_step. apply dev_wp. cbn [current_dev select upd].
  apply wp_on_bank. eapply wp_mono; [exact H''|]. intros r e3 H3. rewrite wp_ret, wp_bind in H3. wp_step. wp_step. unfold bus_nack, i2c_nack. wp_step. apply dev_wp.
  apply wp_on_bank. eapply wp_mono; [exact H3|]. intros [] e4 H4. rewrite wp_bind in H4. wp_step. eapply bus_end_wp; [reflexivity|].
  eapply wp_mono; [exact H4|]. intros [] e5 H5. wp_step. exact H5.
Qed.

(** C11: bit-banging works.  Driving the data and clock lines of the interface with the
    waveform of an I2C transaction, from released lines, does to the addressed slave
    exactly what the transaction says: a write gives it the start, the bytes in order, most
    significant bit first, and the stop; a read of [n + 1] bytes samples on the data line
    the bytes the slave returns, and tells it of the missing acknowledge and the stop.  Every
    byte the master sends is acknowledged, the lines end released and the bus free. *)
Theorem bitbang_transactions Er addr d i b (e : E) : 0 <= addr < 128 -> find_slave b addr = Some d -> bb_idle i ->
  (forall data (Q : list Z -> bitbang_i2c_interface * (i2c_bus * E) -> Prop), Forall (fits 8) data ->
     wp Er (slave_write d data) (fun _ e' => forall i', bb_idle i' -> Q (replicate (S (length data)) 0) (i', (select b None, e'))) e ->
     wp Er (master_write addr data) Q (i, (b, e))) /\
  (forall n (Q : list Z -> bitbang_i2c_interface * (i2c_bus * E) -> Prop),
     wp Er (slave_read d n) (fun l e' => forall i', bb_idle i' -> Q l (i', (select b None, e'))) e ->
     wp Er (master_read addr n) Q (i, (b, e))).
Proof.
  intros Ha Hf Hi. split.
  - intros data Q Hd H. apply master_write_wp; [done..|]. by eapply bus_write_wp.
  - intros n Q H. apply master_read_wp; [done..|]. by eapply bus_read_wp.
Qed.

(** An address nobody has.  Reading and writing at an address without a slave reaches no
    slave, but the master cannot tell: the address and every byte are acknowledged, and it
    reads bytes of ones. *)
Theorem bitbang_absent Er addr i b (e : E) : 0 <= addr < 128 -> find_slave b addr = None -> current_dev b = None -> bb_idle i ->
  (forall data, Forall (fits 8) data ->
     wp Er (master_write addr data) (fun acks x => acks = replicate (S (length data)) 0 /\ bb_idle x.1 /\ x.2 = (b, e)) (i, (b, e))) /\
  (forall n, wp Er (master_read addr n) (fun l x => l = replicate (S n) 255 /\ bb_idle x.1 /\ x.2 = (b, e)) (i, (b, e))).
Proof.
  intros Ha Hf Hb Hi. split.
  - intros data Hd. apply master_write_wp; [done..|]. unfold bus_write. wp_step. unfold bus_start, bus_ops, i2c_start_transfer. wp_step. apply dev_wp. rewrite Hf. wp_step. wp_step.
    apply (wp_mono _ _ (fun _ x => x = (b, e))).
    + clear Hd. induction data as [|x data IH]; cbn [for_each]; [by wp_step|]. wp_step. wp_step. unfold bus_send, i2c_send. wp_step. apply dev_wp. rewrite Hb. wp_step. wp_step. exact IH.
    + intros [] x ->. unfold bus_end, i2c_end_transfer. wp_step. apply dev_wp. rewrite Hb. wp_step. by intros i' Hi'.
  - intros n. apply master_read_wp; [done..|]. unfold bus_read. wp_step. unfold bus_start, bus_ops, i2c_start_transfer. wp_step. apply dev_wp. rewrite Hf. wp_step. wp_step.
    assert (forall Q : Z -> i2c_bus * E -> Prop, Q 255 (b, e) -> wp Er (r ← bus_recv; mret (wrap 8 r)) Q (b, e)) as Hrecv.
    { intros Q HQ. wp_step. unfold bus_recv, bus_ops, i2c_recv. wp_step. apply dev_wp. rewrite Hb. wp_step. wp_step. exact HQ. }
    apply (wp_mono _ _ (fun l x => l = replicate n 255 /\ x = (b, e))).
    + induction n as [|n IH]; cbn [collect replicate]; [by wp_step|]. wp_step. apply Hrecv. wp_step. eapply wp_mono; [exact IH|]. intros l x [-> ->]. by wp_step.
    + intros l x [-> ->]. wp_step. apply Hrecv. wp_step. unfold bus_nack, i2c_nack. wp_step. apply dev_wp. rewrite Hb. wp_step.
      wp_step. unfold bus_end, i2c_end_transfer. wp_step. apply dev_wp. rewrite Hb. wp_step. wp_step. intros i' Hi'. split; [|done].
      cbn [replicate]. by rewrite <- replicate_cons_app.
Qed.

(** ** The controller as a master *)
Section controller_master.
  Context {P : Type} `{!IrqBank P, !IrqBankLaws P}.
  Abbreviation I2C := (ST (S5pc1xxI2CState * ((i2c_bus * E) * P))).
Definition controller_write (addr : Z) (bytes : list Z) : I2C unit :=
  s5pc1xx_i2c_write I2CDS (2 * addr) ;; s5pc1xx_i2c_write I2CSTAT 0xF0 ;;
  for_each bytes (s5pc1xx_i2c_write I2CDS) ;; s5pc1xx_i2c_write I2CSTAT 0xD0.
Definition controller_read (addr : Z) (n : nat) : I2C (list Z) :=
  s5pc1xx_i2c_write I2CDS (2 * addr + 1) ;; s5pc1xx_i2c_write I2CSTAT 0xB0 ;;
  l ← collect (fun _ => s5pc1xx_i2c_read I2CDS) (replicate n 0); s5pc1xx_i2c_write I2CSTAT 0x90 ;; mret l.
(** A read without the missing acknowledge, which the controller does not report. *)
Definition slave_fetch (d n : nat) : ST E (list Z) :=
  slave_event d I2C_START_RECV ;; l ← collect (fun _ => r ← slave_recv d; mret (wrap 8 r)) (replicate n 0); slave_event d I2C_FINISH ;; mret l.

Record i2c_ok (s : S5pc1xxI2CState) (p : P) : Prop := mkI2cOk { io_lines : irq_inv p; io_irq : line_valid (i2c_irq s) }.
Lemma set_line_wp Er s x p b (Q : unit -> S5pc1xxI2CState * ((i2c_bus * E) * P) -> Prop) : i2c_ok s p ->
  (forall p', i2c_ok s p' -> line_is p' (i2c_irq s) (truth b) -> Q tt (s, (x, p'))) -> wp Er (set_line (i2c_irq s) b) Q (s, (x, p)).
Proof.
  intros [H1 H2] HQ. unfold set_line. apply wp_on_bank, wp_on_bank. apply wp_no_err. eapply wp_mono; [by apply qemu_set_irq_spec|].
  intros [] p' (L1 & L2 & _). by apply HQ.
Qed.
Lemma i2c_update_wp Er s x p (Q : unit -> S5pc1xxI2CState * ((i2c_bus * E) * P) -> Prop) : i2c_ok s p ->
  (forall p', i2c_ok s p' -> line_is p' (i2c_irq s) (i2c_level s) -> Q tt (s, (x, p'))) -> wp Er s5pc1xx_i2c_update Q (s, (x, p)).
Proof.
  intros H HQ. unfold s5pc1xx_i2c_update. wp_step. apply dev_wp. apply set_line_wp; [done|]. intros p' H'. replace (truth (Z.b2z (i2c_level s))) with (i2c_level s) by (by destruct (i2c_level s)). by apply HQ.
Qed.
(** A byte to the data register. *)
Lemma write_ds_wp Er s x p v (Q : unit -> S5pc1xxI2CState * ((i2c_bus * E) * P) -> Prop) : i2c_ok s p -> fits 8 v ->
  truth (Z.land (i2c_status s) S5PC1XX_IICSTAT_LASTBIT) = false ->
  wp Er (bus_send v) (fun _ x' => forall p', i2c_ok (s <| data := v |>) p' -> Q tt (s <| data := v |>, (x', p'))) x ->
  wp Er (s5pc1xx_i2c_write I2CDS v) Q (s, (x, p)).
Proof.
  intros H Hv Hl Hsend. unfold s5pc1xx_i2c_write. wp_step. apply dev_wp. wp_step. apply set_line_wp; [done|]. intros p1 H1 _.
  change (I2CDS =? I2CCON) with false. change (I2CDS =? I2CSTAT) with false. change (I2CDS =? I2CADD) with false. change (I2CDS =? I2CDS) with true. cbv iota.
  assert (Z.land v 0xff = v) as -> by (change 0xff with (Z.ones 8); rewrite Z.land_ones by done; by apply Z.mod_small).
  wp_step. unfold s5pc1xx_i2c_send. wp_step. apply dev_wp. rewrite Hl. cbn [negb]. wp_step. wp_step. wp_step. apply set_dev_wp. wp_step.
  unfold on_bus. apply wp_on_bank, wp_on_dev. eapply wp_mono; [exact Hsend|]. intros r x' HQ. wp_step. wp_step. apply i2c_update_wp; [by destruct H1|]. intros p2 H2 _. wp_step. wp_step. by apply HQ.
Qed.
(** A start or a stop. *)
Lemma write_stat_wp Er s x p v (Q : unit -> S5pc1xxI2CState * ((i2c_bus * E) * P) -> Prop) : i2c_ok s p -> v ∈ [0xF0; 0xB0; 0xD0; 0x90] ->
  wp Er (if truth (Z.land v (bit 5)) then _ ← bus_start (Z.shiftr (data s) 1) (Z.land (data s) 1); mret tt else bus_end) (fun _ x' => forall p',
    i2c_ok (s <| i2c_status := v |>) p' -> (truth (Z.land v (bit 5)) = false -> line_is p' (i2c_irq s) false) -> Q tt (s <| i2c_status := v |>, (x', p'))) x ->
  wp Er (s5pc1xx_i2c_write I2CSTAT v) Q (s, (x, p)).
Proof.
  intros H Hv Hbus. unfold s5pc1xx_i2c_write. wp_step. apply dev_wp. wp_step. apply set_line_wp; [done|]. intros p1 H1 _.
  change (I2CSTAT =? I2CCON) with false. change (I2CSTAT =? I2CSTAT) with true. cbv iota.
  wp_step. apply set_dev_wp. wp_step. apply dev_wp. wp_step. cbn [i2c_status upd].
  assert (Z.land v 0xff = v /\ truth (Z.land v S5PC1XX_IICSTAT_TXRXEN) = true /\ (let mode := Z.land (Z.shiftr v 6) 3 in
    (mode =? SR_MODE) || (mode =? ST_MODE) = false /\ (mode =? MR_MODE) || (mode =? MT_MODE) = true) /\
    (if truth (Z.land v (bit 5)) then Z.land v (wrap 8 (Z.lnot S5PC1XX_IICSTAT_LASTBIT)) = v else Z.lor v S5PC1XX_IICSTAT_TXRXEN = v) /\
    (truth (Z.land v (bit 5)) = false -> truth (Z.land v S5PC1XX_IICSTAT_START) = false)) as (E1 & E2 & (E3 & E4) & E5 & E6).
  { repeat (apply elem_of_cons in Hv as [->|Hv]; [by split_and!|]). by apply elem_of_nil in Hv. }
  rewrite E1, E2, E3, E4. cbn zeta. unfold start_or_stop. rewrite wp_when.
  assert (forall s' x', s' = s <| i2c_status := v |> ->
    (forall p', i2c_ok (s <| i2c_status := v |>) p' -> (truth (Z.land v (bit 5)) = false -> line_is p' (i2c_irq s) false) -> Q tt (s <| i2c_status := v |>, (x', p'))) ->
    wp Er s5pc1xx_i2c_update Q (s', (x', p1))) as Hupd.
  { intros s' x' -> HQ. apply i2c_update_wp; [by destruct H1|]. intros p' H' L. apply HQ; [done|]. intros Hs. assert (i2c_level (s <| i2c_status := v |>) = false) as EL.
    { unfold i2c_level. change (i2c_status (s <| i2c_status := v |>)) with v. rewrite (E6 Hs). cbn [andb]. match goal with |- (if ?c then _ else _) = _ => by destruct c end. }
    rewrite EL in L. exact L. }
  destruct (truth (Z.land v (bit 5))).
  - wp_step. wp_step. apply set_dev_wp. wp_step. apply dev_wp. wp_step. unfold on_bus. apply wp_on_bank, wp_on_dev. rewrite wp_bind in Hbus. eapply wp_mono; [exact Hbus|].
    intros r x' HQ. rewrite wp_ret in HQ. wp_step. apply Hupd; [cbn; by rewrite E5|]. exact HQ.
  - wp_step. wp_step. unfold on_bus. apply wp_on_bank, wp_on_dev. eapply wp_mono; [exact Hbus|]. intros [] x' HQ. apply set_dev_wp. apply Hupd; [cbn; by rewrite E5|]. exact HQ.
Qed.
(** A byte from the data register. *)
Lemma read_ds_wp Er s x p (Q : Z -> S5pc1xxI2CState * ((i2c_bus * E) * P) -> Prop) : i2c_ok s p ->
  wp Er bus_recv (fun r x' => forall p', i2c_ok (s <| data := wrap 8 r |>) p' -> Q (wrap 8 r) (s <| data := wrap 8 r |>, (x', p'))) x ->
  wp Er (s5pc1xx_i2c_read I2CDS) Q (s, (x, p)).
Proof.
  intros H Hr. unfold s5pc1xx_i2c_read. wp_step. apply dev_wp.
  change (I2CDS =? I2CCON) with false. change (I2CDS =? I2CSTAT) with false. change (I2CDS =? I2CADD) with false. change (I2CDS =? I2CDS) with true. cbv iota.
  wp_step. unfold s5pc1xx_i2c_receive. wp_step. unfold on_bus. apply wp_on_bank, wp_on_dev. eapply wp_mono; [exact Hr|]. intros r x' HQ. wp_step.
  apply i2c_update_wp; [done|]. intros p' H' _. wp_step. wp_step. apply set_dev_wp. wp_step. apply dev_wp. wp_step. apply HQ. by destruct H'.
Qed.

(** The data of a transaction. *)
Lemma write_data_wp Er bytes d b s (e : E) p (Q : unit -> S5pc1xxI2CState * ((i2c_bus * E) * P) -> Prop) : current_dev b = Some d -> i2c_ok s p ->
  truth (Z.land (i2c_status s) S5PC1XX_IICSTAT_LASTBIT) = false -> Forall (fits 8) bytes ->
  wp Er (for_each bytes (fun x => _ ← slave_send d x; mret tt)) (fun _ e' => forall s' p', i2c_ok s' p' -> Q tt (s', ((b, e'), p'))) e ->
  wp Er (for_each bytes (s5pc1xx_i2c_write I2CDS)) Q (s, ((b, e), p)).
Proof.
  intros Hb. revert s e p. induction bytes as [|x bytes IH]; intros s e p H Hl Hd Hw; cbn [for_each] in *.
  - wp_step. rewrite wp_ret in Hw. by apply Hw.
  - apply Forall_cons_1 in Hd as [Hx Hd]. wp_step. apply write_ds_wp; [done..|]. unfold bus_send, bus_ops, i2c_send. wp_step. apply dev_wp. rewrite Hb. apply wp_on_bank.
    rewrite wp_bind, wp_bind in Hw. eapply wp_mono; [exact Hw|]. intros r e' Hw'. rewrite wp_ret in Hw'. intros p' H'. by apply IH.
Qed.
Lemma read_data_wp Er n d b s (e : E) p (Q : list Z -> S5pc1xxI2CState * ((i2c_bus * E) * P) -> Prop) : current_dev b = Some d -> i2c_ok s p ->
  wp Er (collect (fun _ : Z => r ← slave_recv d; mret (wrap 8 r)) (replicate n 0)) (fun l e' => forall s' p', i2c_ok s' p' -> Q l (s', ((b, e'), p'))) e ->
  wp Er (collect (fun _ : Z => s5pc1xx_i2c_read I2CDS) (replicate n 0)) Q (s, ((b, e), p)).
Proof.
  intros Hb. revert s e p Q. induction n as [|n IH]; intros s e p Q H Hw; cbn [collect replicate] in *.
  - wp_step. rewrite wp_ret in Hw. by apply Hw.
  - wp_step. apply read_ds_wp; [done|]. unfold bus_recv, bus_ops, i2c_recv. wp_step. apply dev_wp. rewrite Hb. apply wp_on_bank.
    rewrite wp_bind, wp_bind in Hw. eapply wp_mono; [exact Hw|]. intros r e' Hw'. rewrite wp_ret, wp_bind in Hw'. intros p' H'.
    wp_step. apply IH; [done|]. eapply wp_mono; [exact Hw'|]. intros l e'' HQ s2 p2 H2. rewrite wp_ret in HQ. wp_step. by apply HQ.
Qed.
Lemma stop_free Er v d b s (e : E) p (Q : unit -> S5pc1xxI2CState * ((i2c_bus * E) * P) -> Prop) : current_dev b = Some d -> i2c_ok s p -> v = 0xD0 \/ v = 0x90 ->
  wp Er (slave_event d I2C_FINISH) (fun _ e' => forall s' p', i2c_ok s' p' /\ line_is p' (i2c_irq s') false -> Q tt (s', ((select b None, e'), p'))) e ->
  wp Er (s5pc1xx_i2c_write I2CSTAT v) Q (s, ((b, e), p)).
Proof.
  intros Hb H Hv Hw. apply write_stat_wp; [done|destruct Hv as [->| ->]; rewrite !elem_of_cons; tauto|].
  assert (truth (Z.land v (bit 5)) = false) as Hs by (by destruct Hv as [->| ->]). rewrite Hs. eapply bus_end_wp; [exact Hb|].
  eapply wp_mono; [exact Hw|]. intros [] e' HQ p' H' L. apply HQ. split; [done|]. by apply L.
Qed.

(** C38: the controller is as good a master.  From a free bus, a guest that writes the address
    and a start to the controller's registers, then the data bytes, then a stop, does to the
    addressed slave what the bit-banged write does; the read of [n] bytes from the data
    register gives the bytes of the slave, which is not told of a missing acknowledge.  The
    bus ends free and the interrupt line low. *)
Theorem controller_transactions Er addr d s b (e : E) p : 0 <= addr < 128 -> find_slave b addr = Some d -> current_dev b = None -> i2c_ok s p ->
  truth (Z.land (i2c_status s) S5PC1XX_IICSTAT_LASTBIT) = false ->
  let free s' p' := i2c_ok s' p' /\ line_is p' (i2c_irq s') false in
  (forall bytes (Q : unit -> S5pc1xxI2CState * ((i2c_bus * E) * P) -> Prop), Forall (fits 8) bytes ->
     wp Er (slave_write d bytes) (fun _ e' => forall s' p', free s' p' -> Q tt (s', ((select b None, e'), p'))) e ->
     wp Er (controller_write addr bytes) Q (s, ((b, e), p))) /\
  (forall n (Q : list Z -> S5pc1xxI2CState * ((i2c_bus * E) * P) -> Prop),
     wp Er (slave_fetch d n) (fun l e' => forall s' p', free s' p' -> Q l (s', ((select b None, e'), p'))) e ->
     wp Er (controller_read addr n) Q (s, ((b, e), p))).
Proof.
  intros Ha Hf Hb H Hl free.
  assert (forall r v (Q : unit -> S5pc1xxI2CState * ((i2c_bus * E) * P) -> Prop), r = 0 /\ v = 0xF0 \/ r = 1 /\ v = 0xB0 ->
    wp Er (slave_event d (if truth r then I2C_START_RECV else I2C_START_SEND)) (fun _ e' => forall s' p', i2c_ok s' p' ->
      truth (Z.land (i2c_status s') S5PC1XX_IICSTAT_LASTBIT) = false -> Q tt (s', ((select b (Some d), e'), p'))) e ->
    wp Er (s5pc1xx_i2c_write I2CDS (2 * addr + r)) (fun _ => wp Er (s5pc1xx_i2c_write I2CSTAT v) Q) (s, ((b, e), p))) as Hstart.
  { intros r v Q Hv HQ. destruct (addr_byte addr r Ha ltac:(lia)) as (A1 & A2 & A3). apply write_ds_wp; [done..|].
    unfold bus_send, bus_ops, i2c_send. wp_step. apply dev_wp. rewrite Hb. wp_step. intros p1 H1. apply write_stat_wp; [done|destruct Hv as [[_ ->]|[_ ->]]; rewrite !elem_of_cons; tauto|].
    assert (truth (Z.land v (bit 5)) = true) as Hs by (by destruct Hv as [[_ ->]|[_ ->]]). rewrite Hs. wp_step. cbn [data upd]. rewrite A2, A3.
    eapply bus_start_wp; [exact Hf|]. eapply wp_mono; [exact HQ|]. intros [] e' HQ'. wp_step. intros p' H' _. apply HQ'; [done|]. by destruct Hv as [[_ ->]|[_ ->]]. }
  split.
  - intros bytes Q Hd Hw. unfold slave_write in Hw. rewrite wp_bind in Hw. unfold controller_write. wp_step.
    replace (2 * addr) with (2 * addr + 0) by lia.
    eapply wp_mono; [apply (Hstart 0 0xF0 (fun _ => wp Er (for_each bytes (s5pc1xx_i2c_write I2CDS) ;; s5pc1xx_i2c_write I2CSTAT 0xD0) Q)); [by left|]|intros [] x Hx; apply wp_bind; exact Hx].
    change (truth 0) with false. cbv iota. eapply wp_mono; [exact Hw|]. intros [] e1 H1 s1 p1 Hok Hl1. rewrite wp_bind in H1. wp_step.
    eapply write_data_wp; [reflexivity|done..|]. eapply wp_mono; [exact H1|]. intros [] e2 H2 s2 p2 Hok2. eapply stop_free; [reflexivity|done|by left|exact H2].
  - intros n Q Hr. unfold slave_fetch in Hr. rewrite wp_bind in Hr. unfold controller_read. wp_step.
    eapply wp_mono; [apply (Hstart 1 0xB0 (fun _ => wp Er (l ← collect (fun _ => s5pc1xx_i2c_read I2CDS) (replicate n 0); s5pc1xx_i2c_write I2CSTAT 0x90 ;; mret l) Q)); [by right|]|intros [] x Hx; apply wp_bind; exact Hx].
    change (truth 1) with true. cbv iota. eapply wp_mono; [exact Hr|]. intros [] e1 H1 s1 p1 Hok Hl1. rewrite wp_bind in H1. wp_step.
    eapply read_data_wp; [reflexivity|done|]. eapply wp_mono; [exact H1|]. intros l e2 H2 s2 p2 Hok2. rewrite wp_bind in H2. wp_step.
    eapply stop_free; [reflexivity|done|by right|]. eapply wp_mono; [exact H2|]. intros [] e3 H3 s3 p3 Hok3. rewrite wp_ret in H3. wp_step. by apply H3.
Qed.
End controller_master.
End transactions.

(** ** Witness: a slave that is a list of bytes, at address 0x1d *)
#[local] Instance byte_list : I2CSlave (list Z) :=
  {| slave_event := fun _ _ => mret tt; slave_send := fun _ x => modify (fun l => l ++ [x]) ;; mret 0;
     slave_recv := fun _ => l ← get; put (tail l) ;; mret (default 0 (head l)) |}.
Definition demo_bus : i2c_bus := mkBus [0x48; 0x1d] None 0.
Lemma demo_idle : bb_idle bitbang_i2c_init.
Proof. split; [reflexivity|]. split; [reflexivity|]. split; [discriminate|reflexivity]. Qed.
Example bitbang_transactions_witness :
  (exists i', master_write 0x1d [0xa5; 0x3c] (bitbang_i2c_init, (demo_bus, [])) = Ok ([0; 0; 0], (i', (demo_bus, [0xa5; 0x3c])))) /\
  (exists i', master_read 0x1d 1 (bitbang_i2c_init, (demo_bus, [0xa5; 0x3c; 1])) = Ok ([0xa5; 0x3c], (i', (demo_bus, [1])))).
Proof.
  destruct (bitbang_transactions no_err 0x1d 1 bitbang_i2c_init demo_bus [] ltac:(lia) eq_refl demo_idle) as [Hw _].
  destruct (bitbang_transactions no_err 0x1d 1 bitbang_i2c_init demo_bus [0xa5; 0x3c; 1] ltac:(lia) eq_refl demo_idle) as [_ Hr]. split.
  - specialize (Hw [0xa5; 0x3c] (fun l x => l = [0; 0; 0] /\ x.2 = (demo_bus, [0xa5; 0x3c])) ltac:(repeat constructor; discriminate)
      ltac:(intros i' _; split; reflexivity)).
    apply (proj1 (wp_total_ex _ _ _)) in Hw as (l & [i' x] & Hrun & Hl & Hx). exists i'. cbn [snd] in Hx. rewrite Hl, Hx in Hrun. exact Hrun.
  - specialize (Hr 1%nat (fun l x => l = [0xa5; 0x3c] /\ x.2 = (demo_bus, [1])) ltac:(intros i' _; split; reflexivity)).
    apply (proj1 (wp_total_ex _ _ _)) in Hr as (l & [i' x] & Hrun & Hl & Hx). exists i'. cbn [snd] in Hx. rewrite Hl, Hx in Hrun. exact Hrun.
Defined.
Example bitbang_absent_witness : exists i', master_read 0x50 2 (bitbang_i2c_init, (demo_bus, [])) = Ok ([255; 255; 255], (i', (demo_bus, []))).
Proof.
  destruct (bitbang_absent no_err 0x50 bitbang_i2c_init demo_bus [] ltac:(lia) eq_refl eq_refl demo_idle) as [_ H]. specialize (H 2%nat).
  apply (proj1 (wp_total_ex _ _ _)) in H as (l & [i' x] & Hrun & Hl & _ & Hx). exists i'. cbn [snd] in Hx. rewrite Hl, Hx in Hrun. exact Hrun.
Defined.
Definition demo_i2c : S5pc1xxI2CState := mkI2c (Some 0%nat) 0x20 0 0 0 0 0.
#[local] Instance one_wire : IrqBankLaws wires := wires_laws 1.
Example controller_transactions_witness : exists s' p',
  controller_write 0x1d [0xa5; 0x3c] (demo_i2c, ((demo_bus, []), qemu_allocate_irqs 1)) = Ok (tt, (s', ((demo_bus, [0xa5; 0x3c]), p'))) /\
  line_is p' (i2c_irq s') false.
Proof.
  assert (i2c_ok demo_i2c (qemu_allocate_irqs 1)) as Hok by (split; [reflexivity|cbn; lia]).
  destruct (controller_transactions no_err 0x1d 1 demo_i2c demo_bus [] (qemu_allocate_irqs 1) ltac:(lia) eq_refl eq_refl Hok eq_refl) as [H _].
  specialize (H [0xa5; 0x3c] (fun _ x => x.2.1 = (demo_bus, [0xa5; 0x3c]) /\ line_is x.2.2 (i2c_irq x.1) false) ltac:(repeat constructor; discriminate)
    ltac:(intros s' p' [_ L]; split; [reflexivity|exact L])).
  apply (proj1 (wp_total_ex _ _ _)) in H as ([] & [s' [x p']] & Hrun & Hx & L). exists s', p'. cbn [fst snd] in *. rewrite Hx in Hrun. split; [exact Hrun|exact L].
Defined.
