(* ===== verification/Gpio.v ===== *)
(** * Gpio: the pin controller (hw/s5pc1xx_gpio.c)

    Each pin of a group has a function, four bits of the group's configuration register; the
    function selects, through the table [s5pc1xx_gpio_case], the device whose handlers give
    or take the pin's level.  The handlers are registered in tables of function pointers:
    a function is EmptyGpio, the gag for device 0, or an operation of the class [GpioIo].
    Pins also raise interrupts, on the line of the groups or on the extended one. *)
From S2P Require Import Prelude HostUtils Irq Timers Device Uart Pwm.
#[local] Open Scope Z_scope.

Definition STEP : Z := 0x20.
Definition GIPIO_CONF_INT : Z := 0xF.
Definition INT_TO_GROUP_NUM (inter : Z) : Z := inter + (if inter <? 17 then 0 else 1).
Definition INT_REGS_SIZE : Z := 0x58.
Definition INT_CON_BASE : Z := 0x700.
Definition INT_FLTCON_BASE : Z := 0x800.
Definition INT_MASK_BASE : Z := 0x900.
Definition INT_PEND_BASE : Z := 0xA00.
Definition INT_FIXPRI_BASE : Z := 0xB14.
Definition GET_GROUP_INT_CON (addr : Z) : Z := INT_TO_GROUP_NUM ((addr - INT_CON_BASE) / 4).
Definition GET_GROUP_INT_FLTCON (addr : Z) : Z := INT_TO_GROUP_NUM ((addr - INT_FLTCON_BASE) / 8).
Definition GET_GROUP_INT_MASK (addr : Z) : Z := INT_TO_GROUP_NUM ((addr - INT_MASK_BASE) / 4).
Definition GET_GROUP_INT_PEND (addr : Z) : Z := INT_TO_GROUP_NUM ((addr - INT_PEND_BASE) / 4).
Definition GET_GROUP_INT_FIXPRI (addr : Z) : Z := INT_TO_GROUP_NUM ((addr - INT_FIXPRI_BASE) / 4).
Definition GPIO_INT_GRPPRI : Z := 0xB00.
Definition GPIO_INT_PRIORITY : Z := 0xB04.
Definition GPIO_INT_SER : Z := 0xB08.
Definition GPIO_INT_SER_PEND : Z := 0xB0C.
Definition GPIO_INT_GRPFIXPRI : Z := 0xB10.
Definition EXT_INT_MASK (n : Z) : Z := 0xF00 + 0x04 * n.
Definition EXT_INT_PEND (n : Z) : Z := 0xF40 + 0x04 * n.
Definition GPA0 : Z := 0.
Definition GPJ4 : Z := 22.
Definition ETC2 : Z := 50.
Definition GPH0 : Z := 96.
Definition GPH3 : Z := 99.
Definition MAX_PIN_IN_GROUP : Z := 8.
Definition IRQ_EXTEND_NUM : Z := 32.
Definition GPIOINT_GROUP (irq : Z) : Z := Z.quot (irq - IRQ_EXTEND_NUM) MAX_PIN_IN_GROUP.
Definition GPIOINT_PIN (irq : Z) : Z := Z.rem (irq - IRQ_EXTEND_NUM) MAX_PIN_IN_GROUP.
Definition CASE (index : Z) : Z := if index >? 1 then index - 2 else 4 + index.
Definition GPIO_CONF_CASE : Z := 6.
Definition GPIO_IDX_MAX : Z := 9.

(** ** The functions of the pins *)
Definition PWM_MIE_MDNI : Z := CASE_ID 1 0 4.
Definition GPIO_UART_RXD (n : Z) : Z := CASE_ID 2 n 1.
Definition GPIO_UART_TXD (n : Z) : Z := CASE_ID 2 n 2.
Definition GPIO_UART_CTS (n : Z) : Z := CASE_ID 2 n 3.
Definition GPIO_UART_RTS (n : Z) : Z := CASE_ID 2 n 4.
Definition GPIO_UART_AUDIO_RXD : Z := CASE_ID 2 0 5.
Definition GPIO_UART_AUDIO_TXD : Z := CASE_ID 2 0 6.
Definition GPIO_KP_COL (n : Z) : Z := CASE_ID 3 n 1.
Definition GPIO_KP_ROW (n : Z) : Z := CASE_ID 3 n 2.
Definition LCD_FRM : Z := CASE_ID 4 0 1.
Definition LCD_HSYNC : Z := CASE_ID 4 0 2.
Definition LCD_VSYNC : Z := CASE_ID 4 0 3.
Definition LCD_VDEN : Z := CASE_ID 4 0 4.
Definition LCD_VCLK : Z := CASE_ID 4 0 5.
Definition LCD_VD (n : Z) : Z := CASE_ID 4 n 6.
Definition GPIO_I2C_SDA (n : Z) : Z := CASE_ID 5 n 2.
Definition GPIO_I2C_SCL (n : Z) : Z := CASE_ID 5 n 1.
Definition GPIO_AC97BITCLK : Z := CASE_ID 6 0 1.
Definition GPIO_AC97RESETn : Z := CASE_ID 6 0 2.
Definition GPIO_AC97SYNC : Z := CASE_ID 6 0 3.
Definition GPIO_AC97SDI : Z := CASE_ID 6 0 4.
Definition GPIO_AC97SDO : Z := CASE_ID 6 0 5.
Definition PCM_SCLK (n : Z) : Z := CASE_ID 7 n 1.
Definition PCM_EXTCLK (n : Z) : Z := CASE_ID 7 n 2.
Definition PCM_FSYNC (n : Z) : Z := CASE_ID 7 n 3.
Definition PCM_SIN (n : Z) : Z := CASE_ID 7 n 4.
Definition PCM_SOUT (n : Z) : Z := CASE_ID 7 n 5.
Definition SPDIF_0_OUT : Z := CASE_ID 8 0 1.
Definition SPDIF_EXTCLK : Z := CASE_ID 8 0 2.

(** The initialiser of the table; C fills each row up with zeros. *)
Definition case_rows : list (list (list Z)) :=
  [ (* GPA0 *) [[GPIO_UART_RXD 0]; [GPIO_UART_TXD 0]; [GPIO_UART_CTS 0]; [GPIO_UART_RTS 0];
                [GPIO_UART_RXD 1]; [GPIO_UART_TXD 1]; [GPIO_UART_CTS 1]; [GPIO_UART_RTS 1]];
    (* GPA1 *) [[GPIO_UART_RXD 2; 0; GPIO_UART_AUDIO_RXD]; [GPIO_UART_TXD 2; 0; GPIO_UART_AUDIO_TXD];
                [GPIO_UART_RXD 3; 0; GPIO_UART_CTS 2]; [GPIO_UART_TXD 3; 0; GPIO_UART_RTS 2]];
    [];
    (* GPC0 *) [[0; PCM_SCLK 1; GPIO_AC97BITCLK]; [0; PCM_EXTCLK 1; GPIO_AC97RESETn]; [0; PCM_FSYNC 1; GPIO_AC97SYNC];
                [0; PCM_SIN 1; GPIO_AC97SDI]; [0; PCM_SOUT 1; GPIO_AC97SDO]];
    (* GPC1 *) [[PCM_SCLK 0; SPDIF_0_OUT]; [PCM_EXTCLK 0; SPDIF_EXTCLK]; [PCM_FSYNC 0; LCD_FRM]; [PCM_SIN 0]; [PCM_SOUT 0]];
    (* GPD0 *) [[GPIO_PWM_TOUT 0]; [GPIO_PWM_TOUT 1]; [GPIO_PWM_TOUT 2]; [GPIO_PWM_TOUT 3; PWM_MIE_MDNI]];
    []; []; [];
    (* GPF0 *) [[LCD_HSYNC]; [LCD_VSYNC]; [LCD_VDEN]; [LCD_VCLK]; [LCD_VD 0]; [LCD_VD 1]; [LCD_VD 2]; [LCD_VD 3]];
    (* GPF1 *) [[LCD_VD 4]; [LCD_VD 5]; [LCD_VD 6]; [LCD_VD 7]; [LCD_VD 8]; [LCD_VD 9]; [LCD_VD 10]; [LCD_VD 11]];
    (* GPF2 *) [[LCD_VD 12]; [LCD_VD 13]; [LCD_VD 14]; [LCD_VD 15]; [LCD_VD 16]; [LCD_VD 17]; [LCD_VD 18]; [LCD_VD 19]];
    (* GPF3 *) [[LCD_VD 20]; [LCD_VD 21]; [LCD_VD 22]; [LCD_VD 23]];
    []; []; []; [];
    (* GPI *) [[0; PCM_SCLK 2]; [0; PCM_EXTCLK 2]; [0; PCM_FSYNC 2]; [0; PCM_SIN 2]; [0; PCM_SOUT 2]];
    [];
    (* GPJ1 *) [[]; []; []; []; [0; GPIO_KP_COL 0]];
    (* GPJ2 *) [[0; GPIO_KP_COL 1]; [0; GPIO_KP_COL 2]; [0; GPIO_KP_COL 3]; [0; GPIO_KP_COL 4];
                [0; GPIO_KP_COL 5]; [0; GPIO_KP_COL 6]; [0; GPIO_KP_COL 7]; [0; GPIO_KP_ROW 0]];
    (* GPJ3 *) [[0; GPIO_KP_ROW 1; 0; 0; GPIO_I2C_SDA 10; 0; GPIO_I2C_SDA 10];
                [0; GPIO_KP_ROW 2; 0; 0; GPIO_I2C_SCL 10; 0; GPIO_I2C_SCL 10]; [0; GPIO_KP_ROW 3];
                [0; GPIO_KP_ROW 4]; [0; GPIO_KP_ROW 5]; [0; GPIO_KP_ROW 6];
                [0; GPIO_KP_ROW 7; 0; 0; GPIO_I2C_SDA 3; 0; GPIO_I2C_SDA 3];
                [0; GPIO_KP_ROW 8; 0; 0; GPIO_I2C_SCL 3; 0; GPIO_I2C_SCL 3]];
    (* GPJ4 *) [[0; GPIO_KP_ROW 9; 0; 0; GPIO_I2C_SDA 4; 0; GPIO_I2C_SDA 4]; [0; GPIO_KP_ROW 10]; [0; GPIO_KP_ROW 11];
                [0; GPIO_KP_ROW 12; 0; 0; GPIO_I2C_SCL 4; 0; GPIO_I2C_SCL 4]; [0; GPIO_KP_ROW 13]];
    []; []; []; [];
    (* MP0_5 *) [[]; []; [0; 0; 0; 0; GPIO_I2C_SCL 5; 0; GPIO_I2C_SCL 5]; [0; 0; 0; 0; GPIO_I2C_SDA 5; 0; GPIO_I2C_SDA 5]] ]
  ++ replicate 70 [] ++
  [ (* GPH2 *) [[0; GPIO_KP_COL 0]; [0; GPIO_KP_COL 1]; [0; GPIO_KP_COL 2]; [0; GPIO_KP_COL 3];
                [0; GPIO_KP_COL 4]; [0; GPIO_KP_COL 5]; [0; GPIO_KP_COL 6]; [0; GPIO_KP_COL 7]];
    (* GPH3 *) [[0; GPIO_KP_ROW 0]; [0; GPIO_KP_ROW 1]; [0; GPIO_KP_ROW 2]; [0; GPIO_KP_ROW 3];
                [0; GPIO_KP_ROW 4]; [0; GPIO_KP_ROW 5]; [0; GPIO_KP_ROW 6]; [0; GPIO_KP_ROW 7]] ].
(** The element of an int array of dimensions [GPH3 + 1], 8 and 7. *)
Definition s5pc1xx_gpio_case (group pin c : Z) : option Z :=
  if (0 <=? group) && (group <=? GPH3) && (0 <=? pin) && (pin <? 8) && (0 <=? c) && (c <? 7) then
    Some (default 0 (r ← rd case_rows group; p ← rd r pin; rd p c))
  else None.
Lemma case_rows_length : length case_rows = 100%nat.
Proof. vm_compute. reflexivity. Qed.

(** ** State *)
Record S5pc1xxGPIOState := mkGpio {
  con : list Z; int_con : list Z; int_fltcon : list (list Z); int_mask : list Z; int_pend : list Z; int_fixpri : list Z;
  int_grppri : Z; int_priority : Z; int_ser : Z; int_ser_pend : Z; int_grpfixpri : Z;
  ext_int_mask : list Z; ext_int_pend : list Z;
  gpioint : option nat; extend : option nat
}.
#[export] Instance eta_gpio : Eta S5pc1xxGPIOState := fun r => mkGpio
  (con r) (int_con r) (int_fltcon r) (int_mask r) (int_pend r) (int_fixpri r)
  (int_grppri r) (int_priority r) (int_ser r) (int_ser_pend r) (int_grpfixpri r)
  (ext_int_mask r) (ext_int_pend r) (gpioint r) (extend r).
Definition set_con (l : list Z) (s : S5pc1xxGPIOState) : S5pc1xxGPIOState := s <| con := l |>.
Definition set_int_con (l : list Z) (s : S5pc1xxGPIOState) : S5pc1xxGPIOState := s <| int_con := l |>.
Definition set_int_mask (l : list Z) (s : S5pc1xxGPIOState) : S5pc1xxGPIOState := s <| int_mask := l |>.
Definition set_int_pend (l : list Z) (s : S5pc1xxGPIOState) : S5pc1xxGPIOState := s <| int_pend := l |>.
Definition set_int_fixpri (l : list Z) (s : S5pc1xxGPIOState) : S5pc1xxGPIOState := s <| int_fixpri := l |>.
Definition set_ext_int_mask (l : list Z) (s : S5pc1xxGPIOState) : S5pc1xxGPIOState := s <| ext_int_mask := l |>.
Definition set_ext_int_pend (l : list Z) (s : S5pc1xxGPIOState) : S5pc1xxGPIOState := s <| ext_int_pend := l |>.

(** ** The handlers of the devices behind the pins *)
Class GpioIo (E : Type) := {
  gpio_fn : Type; gpio_obj : Type;
  gpio_call_read : gpio_fn -> option gpio_obj -> Z -> ST E Z;
  gpio_call_write : gpio_fn -> option gpio_obj -> Z -> Z -> ST E unit
}.
Inductive io_fn (F : Type) : Type := EmptyGpio | DeviceFn (f : F).
Arguments EmptyGpio {F}.
Arguments DeviceFn {F} f.
(** The tables gpio_io_mem_write, _read, _conf and _opaque. *)
Record gpio_io (F O : Type) := mkIo {
  mem_write : list (option (io_fn F)); mem_read : list (option (io_fn F)); mem_conf : list (option (io_fn F));
  mem_opaque : list (list (option O))
}.
Arguments mkIo {F O}.
Arguments mem_write {F O}.
Arguments mem_read {F O}.
Arguments mem_conf {F O}.
Arguments mem_opaque {F O}.
Definition io_zero {F O} : gpio_io F O := mkIo (replicate 9 None) (replicate 9 None) (replicate 9 None) (replicate 9 (replicate 8 None)).
(** None is an access outside the tables. *)
Definition s5pc1xx_gpio_register_io_memory {F O} (io_index instance : Z) (rd_fn wr_fn conf_fn : option (io_fn F)) (opaque : option O)
  (t : gpio_io F O) : option (gpio_io F O) :=
  r ← wr (mem_read t) io_index rd_fn;
  w ← wr (mem_write t) io_index wr_fn;
  c ← wr (mem_conf t) io_index conf_fn;
  row ← rd (mem_opaque t) io_index;
  row ← wr row instance opaque;
  o ← wr (mem_opaque t) io_index row;
  Some (mkIo w r c o).

Section handlers.
  Context {E : Type} `{!IrqBank E, !GpioIo E} (io : gpio_io gpio_fn gpio_obj).
  Abbreviation GPIO := (ST (S5pc1xxGPIOState * E)).
(** Reading and writing an element of an array of the state. *)
Definition fetch (f : S5pc1xxGPIOState -> list Z) (i : Z) : GPIO Z := s ← dev; deref (rd (f s) i).
Definition assign (f : S5pc1xxGPIOState -> list Z) (g : list Z -> S5pc1xxGPIOState -> S5pc1xxGPIOState) (i v : Z) : GPIO unit :=
  s ← dev; l ← deref (wr (f s) i v); set_dev (g l).
Definition line (f : S5pc1xxGPIOState -> option nat) (level : Z) : GPIO unit := s ← dev; on_bank (qemu_set_irq (f s) level).

(** The call of a registered function; device 0 stands in for one without functions. *)
Definition call_io {A} (table : list (option (io_fn gpio_fn))) (empty : A) (call : gpio_fn -> option gpio_obj -> Z -> ST E A) (gpio_case : Z) : GPIO A :=
  let device := Z.land (Z.shiftr gpio_case 11) 0x1F in
  let instance := Z.land (Z.shiftr gpio_case 6) 0x1F in
  let io_index := Z.land gpio_case 0x3F in
  f ← deref (rd table device);
  let device := match f with Some _ => device | None => 0 end in
  f ← deref (rd table device);
  row ← deref (rd (mem_opaque io) device);
  o ← deref (rd row instance);
  match f with
  | Some EmptyGpio => mret empty
  | Some (DeviceFn f) => on_bank (call f o io_index)
  | None => throw Fault
  end.
Definition gpio_io_read (gpio_case : Z) : GPIO Z := call_io (mem_read io) 0 gpio_call_read gpio_case.
Definition gpio_io_write (gpio_case value : Z) : GPIO unit := call_io (mem_write io) tt (fun f o i => gpio_call_write f o i value) gpio_case.
Definition gpio_io_conf (gpio_case value : Z) : GPIO unit := call_io (mem_conf io) tt (fun f o i => gpio_call_write f o i value) gpio_case.

(** ** Reset *)
Definition gpio_groups : list Z := List.map Z.of_nat (seq 0 51 ++ seq 96 4).
Definition s5pc1xx_gpio_reset : GPIO unit :=
  for_each gpio_groups (fun group => assign con set_con group 0) ;;
  for_each [0; 1; 2; 3] (fun group =>
    assign ext_int_mask set_ext_int_mask group 0xFF ;; assign ext_int_pend set_ext_int_pend group 0) ;;
  for_each (List.map Z.of_nat (seq 0 23)) (fun group =>
    assign int_con set_int_con group 0 ;;
    (s ← dev; l ← deref (wr (int_fltcon s) group [0; 0]); set_dev (fun s => s <| int_fltcon := l |>)) ;;
    assign int_mask set_int_mask group 0xFF ;;
    assign int_pend set_int_pend group 0 ;;
    assign int_fixpri set_int_fixpri group 0) ;;
  set_dev (fun s => s <| int_grppri := 0 |> <| int_priority := 0 |> <| int_ser := 0 |> <| int_ser_pend := 0 |> <| int_grpfixpri := 0 |>).

(** ** Interrupts *)
Definition s5pc1xx_gpio_irq_lower (group pinmask : Z) : GPIO unit :=
  p ← fetch int_pend group;
  assign int_pend set_int_pend group (Z.land p (not32 pinmask)) ;;
  s ← dev;
  when (forallb (fun x => x =? 0) (int_pend s)) (line gpioint 0).
Definition s5pc1xx_gpio_extended_irq_lower (group pinmask : Z) : GPIO unit :=
  p ← fetch ext_int_pend group;
  assign ext_int_pend set_ext_int_pend group (Z.land p (not32 pinmask)) ;;
  s ← dev;
  when (forallb (fun x => x =? 0) (ext_int_pend s)) (line extend 0).
Definition GPIO_PIN_CONF (group pin : Z) : GPIO Z := c ← fetch con group; mret (Z.land (Z.shiftr c (pin * 4)) 0xF).
Definition s5pc1xx_gpio_irq_handler (irq level : Z) : GPIO unit :=
  if irq <? IRQ_EXTEND_NUM then
    let group := Z.shiftr irq 3 in
    let pin := Z.land irq 0x7 in
    if irq <? 16 then hw_error
    else
      m ← fetch ext_int_mask group;
      if truth (Z.land m (bit pin)) then mret tt
      else
        p ← fetch ext_int_pend group;
        if truth (Z.land p (bit pin)) then mret tt
        else if truth level then
          assign ext_int_pend set_ext_int_pend group (Z.lor p (bit pin)) ;; line extend 1
        else s5pc1xx_gpio_extended_irq_lower group (bit pin)
  else
    let group := GPIOINT_GROUP irq in
    let pin := GPIOINT_PIN irq in
    c ← GPIO_PIN_CONF group pin;
    if negb (c =? GIPIO_CONF_INT) then mret tt
    else
      m ← fetch int_mask group;
      if truth (Z.land m (bit pin)) then mret tt
      else
        p ← fetch int_pend group;
        if truth (Z.land p (bit pin)) then mret tt
        else if truth level then
          assign int_pend set_int_pend group (Z.lor p (bit pin)) ;; line gpioint 1
        else s5pc1xx_gpio_irq_lower group (bit pin).

(** ** Reads *)
(** The loop over the pins; [value] keeps its value from pin to pin. *)
Fixpoint read_pins (group : Z) (pins : list Z) (value ret_val : Z) : GPIO Z :=
  match pins with
  | [] => mret ret_val
  | pin :: pins =>
    c ← fetch con group;
    let index := Z.land (Z.shiftr c (pin * 4)) 0xF in
    value ← (if index =? 1 then mret value
      else if (index =? 0) || (2 <=? index) && (index <=? 5) then
        gpio_case ← deref (s5pc1xx_gpio_case group pin (CASE index));
        if truth gpio_case then gpio_io_read gpio_case else mret value
      else if index =? 0xF then mret value
      else hw_error);
    read_pins group pins value (Z.lor ret_val (Z.shiftl (Z.land value 1) pin))
  end.
Definition pins : list Z := [0; 1; 2; 3; 4; 5; 6; 7].
Definition in_group (group : Z) : bool := (group <=? ETC2) || (GPH0 <=? group) && (group <=? GPH3).
Definition within (offset base size : Z) : bool := (base <=? offset) && (offset <? base + size).
(** The registers after the interrupt ones. *)
Definition read_ext (offset : Z) (ns : list Z) : GPIO Z :=
  match List.find (fun n => (offset =? EXT_INT_MASK n) || (offset =? EXT_INT_PEND n)) ns with
  | Some n => if offset =? EXT_INT_MASK n then fetch ext_int_mask n else fetch ext_int_pend n
  | None => mret 0
  end.
Definition s5pc1xx_gpio_read (offset : Z) : GPIO Z :=
  let group := offset / STEP in
  if in_group group && (offset mod STEP =? 0x00) then fetch con group
  else if in_group group && (offset mod STEP =? 0x04) then read_pins group pins 0 0
  else if within offset INT_CON_BASE INT_REGS_SIZE then fetch int_con (GET_GROUP_INT_CON offset)
  else if within offset INT_FLTCON_BASE (INT_REGS_SIZE * 2) then
    s ← dev; row ← deref (rd (int_fltcon s) (GET_GROUP_INT_FLTCON offset));
    deref (rd row (Z.shiftr (Z.land offset 0x4) 2))
  else if within offset INT_MASK_BASE INT_REGS_SIZE then fetch int_mask (GET_GROUP_INT_MASK offset)
  else if within offset INT_PEND_BASE INT_REGS_SIZE then fetch int_pend (GET_GROUP_INT_PEND offset)
  else if within offset INT_FIXPRI_BASE INT_REGS_SIZE then fetch int_fixpri (GET_GROUP_INT_FIXPRI offset)
  else
    s ← dev;
    if offset =? GPIO_INT_GRPPRI then mret (int_grppri s)
    else if offset =? GPIO_INT_PRIORITY then mret (int_priority s)
    else if offset =? GPIO_INT_SER then mret (int_ser s)
    else if offset =? GPIO_INT_SER_PEND then mret (int_ser_pend s)
    else if offset =? GPIO_INT_GRPFIXPRI then mret (int_grpfixpri s)
    else read_ext offset [0; 1; 2; 3].

(** ** Writes *)
Definition write_con (group value pin : Z) : GPIO unit :=
  gpio_case ← deref (s5pc1xx_gpio_case group pin GPIO_CONF_CASE);
  when (truth gpio_case) (gpio_io_conf gpio_case (Z.land (Z.shiftr value (pin * 4)) 0xF)).
Definition write_pin (group value pin : Z) : GPIO unit :=
  c ← fetch con group;
  let index := Z.land (Z.shiftr c (pin * 4)) 0xF in
  if index =? 0 then mret tt
  else if (1 <=? index) && (index <=? 5) then
    gpio_case ← deref (s5pc1xx_gpio_case group pin (CASE index));
    when (truth gpio_case) (gpio_io_write gpio_case (Z.land (Z.shiftr value pin) 1))
  else if index =? 0xF then mret tt
  else hw_error.
Definition write_ext (offset value : Z) (ns : list Z) : GPIO unit :=
  match List.find (fun n => (offset =? EXT_INT_MASK n) || (offset =? EXT_INT_PEND n)) ns with
  | Some n => if offset =? EXT_INT_MASK n then assign ext_int_mask set_ext_int_mask n value
              else s5pc1xx_gpio_extended_irq_lower (offset / STEP) value
  | None => mret tt
  end.
Definition s5pc1xx_gpio_write (offset value : Z) : GPIO unit :=
  let group := offset / STEP in
  if in_group group && (offset mod STEP =? 0x00) then
    for_each pins (write_con group value) ;; assign con set_con group value
  else if in_group group && (offset mod STEP =? 0x04) then for_each pins (write_pin group value)
  else if within offset INT_CON_BASE INT_REGS_SIZE then assign int_con set_int_con (GET_GROUP_INT_CON offset) value
  else if within offset INT_FLTCON_BASE (INT_REGS_SIZE * 2) then
    s ← dev; row ← deref (rd (int_fltcon s) (GET_GROUP_INT_FLTCON offset));
    row ← deref (wr row (Z.shiftr (Z.land offset 0x4) 2) value);
    l ← deref (wr (int_fltcon s) (GET_GROUP_INT_FLTCON offset) row);
    set_dev (fun s => s <| int_fltcon := l |>)
  else if within offset INT_MASK_BASE INT_REGS_SIZE then assign int_mask set_int_mask (GET_GROUP_INT_MASK offset) value
  else if within offset INT_PEND_BASE INT_REGS_SIZE then s5pc1xx_gpio_irq_lower (GET_GROUP_INT_PEND offset) value
  else if within offset INT_FIXPRI_BASE INT_REGS_SIZE then assign int_fixpri set_int_fixpri (GET_GROUP_INT_FIXPRI offset) value
  else if offset =? GPIO_INT_GRPPRI then set_dev (fun s => s <| int_grppri := value |>)
  else if offset =? GPIO_INT_PRIORITY then set_dev (fun s => s <| int_priority := value |>)
  else if offset =? GPIO_INT_SER then set_dev (fun s => s <| int_ser := value |>)
  else if offset =? GPIO_INT_SER_PEND then set_dev (fun s => s <| int_ser_pend := value |>)
  else if offset =? GPIO_INT_GRPFIXPRI then set_dev (fun s => s <| int_grpfixpri := value |>)
  else write_ext offset value [0; 1; 2; 3].

(** The device qdev allocates, and s5pc1xx_gpio_init. *)
Definition gpio_zero (g e : option nat) : S5pc1xxGPIOState := mkGpio (replicate 100 0) (replicate 23 0) (replicate 23 [0; 0])
  (replicate 23 0) (replicate 23 0) (replicate 23 0) 0 0 0 0 0 (replicate 4 0) (replicate 4 0) g e.
End handlers.
(** The registration of the gags by s5pc1xx_gpio_init. *)
Definition register_empty {F O} (t : gpio_io F O) : option (gpio_io F O) :=
  s5pc1xx_gpio_register_io_memory 0 0 (Some EmptyGpio) (Some EmptyGpio) (Some EmptyGpio) None t.
(** ** Interrupts are latched *)
Section latch.
  Context {E : Type} `{!IrqBank E, !IrqBankLaws E, !GpioIo E} (io : gpio_io gpio_fn gpio_obj).
  Implicit Types (s : S5pc1xxGPIOState) (e : E).

Definition any_pending (l : list Z) : bool := negb (forallb (fun x => x =? 0) l).
(** The two banks of pending bits: of the groups, and the extended ones. *)
Definition pend_of (ext : bool) s : list Z := if ext then ext_int_pend s else int_pend s.
Definition set_pend (ext : bool) (l : list Z) s : S5pc1xxGPIOState := if ext then set_ext_int_pend l s else set_int_pend l s.
Definition line_of (ext : bool) s : option nat := if ext then extend s else gpioint s.
Definition words (ext : bool) : Z := if ext then 4 else 23.
(** The registers, and the two lines at the level of the pending bits. *)
Record gpio_ok s e : Prop := mkGpioOk {
  go_con : length (con s) = 100%nat;
  go_arrays : length (int_con s) = 23%nat /\ length (int_mask s) = 23%nat /\ length (int_fixpri s) = 23%nat /\ length (ext_int_mask s) = 4%nat;
  go_fltcon : length (int_fltcon s) = 23%nat /\ Forall (fun r => length r = 2%nat) (int_fltcon s);
  go_env : irq_inv e /\ (forall x, line_valid (line_of x s)) /\ (gpioint s = extend s -> gpioint s = None);
  go_pend : forall x, Z.of_nat (length (pend_of x s)) = words x;
  go_fits : forall x, Forall (fits 32) (pend_of x s);
  go_line : forall x, line_is e (line_of x s) (any_pending (pend_of x s))
}.
(** Bit [p] of word [g]. *)
Definition pend_bit (l : list Z) (g p : Z) : bool := Z.testbit (default 0 (rd l g)) p.

Inductive gpio_event : Type := Pin (irq level : Z) | Write (offset value : Z).
Definition gpio_step (ev : gpio_event) : ST (S5pc1xxGPIOState * E) unit :=
  match ev with Pin irq level => s5pc1xx_gpio_irq_handler irq level | Write offset value => s5pc1xx_gpio_write io offset value end.
(** The events that the model shows to succeed always: the inputs that the handler takes (it
    gives up on the inputs 0 to 15) and writes to the interrupt registers, but those of
    the extended pending bits.  The ports' registers are apart: [is_port] below. *)
Definition event_ok (ev : gpio_event) : Prop :=
  match ev with
  | Pin irq level => 16 <= irq < 216
  | Write offset value => 0 <= offset /\ fits 32 value /\ in_group (offset / STEP) && ((offset mod STEP =? 0) || (offset mod STEP =? 4)) = false /\
      forall n, 0 <= n < 4 -> offset <> EXT_INT_PEND n
  end.
(** The event unmasks to an interrupt of this pin. *)
Definition sets s (ev : gpio_event) (g p : Z) : bool :=
  match ev with
  | Pin irq level => (IRQ_EXTEND_NUM <=? irq) && (GPIOINT_GROUP irq =? g) && (GPIOINT_PIN irq =? p) && truth level &&
      (Z.land (Z.shiftr (default 0 (rd (con s) g)) (p * 4)) 0xF =? GIPIO_CONF_INT) && negb (pend_bit (int_mask s) g p)
  | Write _ _ => false
  end.
Definition clears (ev : gpio_event) (g p : Z) : bool :=
  match ev with
  | Pin _ _ => false
  | Write offset value => within offset INT_PEND_BASE INT_REGS_SIZE && (GET_GROUP_INT_PEND offset =? g) && Z.testbit value p
  end.
Definition sets_ext s (ev : gpio_event) (g p : Z) : bool :=
  match ev with
  | Pin irq level => (irq <? IRQ_EXTEND_NUM) && (irq =? 8 * g + p) && truth level && negb (pend_bit (ext_int_mask s) g p)
  | Write _ _ => false
  end.
Definition latched s ev s' : Prop :=
  (forall g p, 0 <= g < 23 -> 0 <= p < 8 -> pend_bit (int_pend s') g p = (pend_bit (int_pend s) g p || sets s ev g p) && negb (clears ev g p)) /\
  (forall g p, 0 <= g < 4 -> 0 <= p < 8 -> pend_bit (ext_int_pend s') g p = pend_bit (ext_int_pend s) g p || sets_ext s ev g p).

Lemma fetch_wp Er f i s e (Q : Z -> S5pc1xxGPIOState * E -> Prop) : 0 <= i < Z.of_nat (length (f s)) ->
  Q (default 0 (rd (f s) i)) (s, e) -> wp Er (fetch f i) Q (s, e).
Proof.
  intros Hi HQ. unfold fetch. wp_step. apply dev_wp. destruct (rd_Some (f s) i Hi) as (v & Hv & _). eapply deref_wp; [exact Hv|]. by rewrite Hv in HQ.
Qed.
Lemma assign_wp Er f g i v s e (Q : unit -> S5pc1xxGPIOState * E -> Prop) : 0 <= i < Z.of_nat (length (f s)) ->
  Q tt (g (<[Z.to_nat i := v]> (f s)) s, e) -> wp Er (assign f g i v) Q (s, e).
Proof. intros Hi HQ. unfold assign. wp_step. apply dev_wp. wp_step. eapply deref_wp; [by apply wr_Some|]. by apply set_dev_wp. Qed.
Lemma line_wp Er f l s e (Q : unit -> S5pc1xxGPIOState * E -> Prop) : irq_inv e -> line_valid (f s) ->
  (forall e', irq_inv e' -> line_is e' (f s) (truth l) -> lines_same_but e e' (f s) -> Q tt (s, e')) -> wp Er (line f l) Q (s, e).
Proof.
  intros He Hv HQ. unfold line. wp_step. apply dev_wp. apply wp_on_bank, wp_no_err. eapply wp_mono; [by apply qemu_set_irq_spec|].
  intros [] e' (H1 & H2 & H3). by apply HQ.
Qed.
Lemma pend_bit_insert l i v g p : 0 <= i < Z.of_nat (length l) -> pend_bit (<[Z.to_nat i := v]> l) g p = if i =? g then Z.testbit v p else pend_bit l g p.
Proof. intros Hi. unfold pend_bit. rewrite (rd_wr l _ i g v (wr_Some l i v Hi)). by destruct (i =? g). Qed.
Lemma any_pending_insert l i v : 0 <= i < Z.of_nat (length l) -> v <> 0 -> any_pending (<[Z.to_nat i := v]> l) = true.
Proof.
  intros Hi Hv. unfold any_pending. apply negb_true_iff. destruct (forallb _ _) eqn:F; [|done]. rewrite forallb_forall in F.
  specialize (F v). rewrite <- list_elem_of_In in F. assert (v ∈ <[Z.to_nat i := v]> l) as Hin.
  { apply (list_elem_of_lookup_2 _ (Z.to_nat i)). apply list_lookup_insert_eq. lia. }
  apply F in Hin. by apply Z.eqb_eq in Hin.
Qed.

Lemma pend_set x l s : pend_of x (set_pend x l s) = l.
Proof. by destruct x. Qed.
Lemma pend_set_other x y l s : x <> y -> pend_of y (set_pend x l s) = pend_of y s.
Proof. by destruct x, y. Qed.
Lemma line_set x y l s : line_of y (set_pend x l s) = line_of y s.
Proof. by destruct x, y. Qed.
(** A new value of a pending word, with the line driven to match. *)
Lemma new_pend_ok x g v s e e' : gpio_ok s e -> 0 <= g < words x -> fits 32 v -> irq_inv e' -> lines_same_but e e' (line_of x s) ->
  line_is e' (line_of x s) (any_pending (<[Z.to_nat g := v]> (pend_of x s))) -> gpio_ok (set_pend x (<[Z.to_nat g := v]> (pend_of x s)) s) e'.
Proof.
  intros [A B C (H1 & H2 & H3) L F P] Hg Hv He' Hs Hl. split.
  - by destruct x.
  - by destruct x.
  - by destruct x.
  - split; [done|]. split; [intros y; by rewrite line_set|by destruct x].
  - intros y. destruct (decide (x = y)) as [<-|Hne]; [by rewrite pend_set, length_insert|by rewrite pend_set_other].
  - intros y. destruct (decide (x = y)) as [<-|Hne]; [rewrite pend_set; by apply Forall_insert|by rewrite pend_set_other].
  - intros y. rewrite line_set. destruct (decide (x = y)) as [<-|Hne]; [by rewrite pend_set|]. rewrite pend_set_other by done.
    specialize (P y). destruct (line_of y s) as [n|] eqn:Ey; [|done]. cbn in *. rewrite Hs; [done|]. rewrite <- Ey. intros Hxy.
    assert (gpioint s = extend s) as Hge by (by destruct x, y). specialize (H3 Hge). destruct y; cbn in Ey; congruence.
Qed.
Lemma word_fits x g s e : gpio_ok s e -> 0 <= g < words x -> fits 32 (default 0 (rd (pend_of x s) g)).
Proof.
  intros H Hg. destruct (rd_Some (pend_of x s) g) as (v & Hv & _); [by rewrite (go_pend _ _ H)|]. rewrite Hv. exact (rd_Forall _ _ _ _ (go_fits _ _ H x) Hv).
Qed.
(** Setting a pending bit raises the line. *)
Lemma set_pend_wp Er x g p s e (Q : unit -> S5pc1xxGPIOState * E -> Prop) : gpio_ok s e -> 0 <= g < words x -> 0 <= p < 32 ->
  let v := Z.lor (default 0 (rd (pend_of x s) g)) (bit p) in
  (forall e', gpio_ok (set_pend x (<[Z.to_nat g := v]> (pend_of x s)) s) e' -> Q tt (set_pend x (<[Z.to_nat g := v]> (pend_of x s)) s, e')) ->
  wp Er (assign (pend_of x) (set_pend x) g v ;; line (line_of x) 1) Q (s, e).
Proof.
  intros H Hg Hp v HQ. pose proof (go_env _ _ H) as (H1 & H2 & _). wp_step. apply assign_wp; [by rewrite (go_pend _ _ H)|].
  apply line_wp; [done|by rewrite line_set|]. rewrite line_set. intros e' He' Hl Hs. apply HQ.
  assert (fits 32 (bit p)) as Hb by (unfold fits, bit; rewrite Z.shiftl_mul_pow2, Z.mul_1_l by lia; split; [apply Z.pow_nonneg; lia|apply Z.pow_lt_mono_r; lia]).
  apply (new_pend_ok x g v s e); [done|done|apply fits_lor; [lia|by eapply word_fits|done]|done|done|].
  rewrite any_pending_insert; [exact Hl|by rewrite (go_pend _ _ H)|]. intros E0.
  assert (Z.testbit v p = true) as Hvb by (unfold v; rewrite Z.lor_spec, bit_testbit, Z.eqb_refl by lia; by rewrite orb_true_r). by rewrite E0, Z.bits_0 in Hvb.
Qed.
(** Clearing bits lowers the line when none is left. *)
Lemma clear_pend_wp Er x g m s e (Q : unit -> S5pc1xxGPIOState * E -> Prop) : gpio_ok s e -> 0 <= g < words x ->
  let v := Z.land (default 0 (rd (pend_of x s) g)) (not32 m) in
  (forall e', gpio_ok (set_pend x (<[Z.to_nat g := v]> (pend_of x s)) s) e' -> Q tt (set_pend x (<[Z.to_nat g := v]> (pend_of x s)) s, e')) ->
  wp Er (if x then s5pc1xx_gpio_extended_irq_lower g m else s5pc1xx_gpio_irq_lower g m) Q (s, e).
Proof.
  intros H Hg v HQ. pose proof (go_env _ _ H) as (H1 & H2 & _). set (s1 := set_pend x (<[Z.to_nat g := v]> (pend_of x s)) s).
  assert (wp Er (p ← fetch (pend_of x) g; assign (pend_of x) (set_pend x) g (Z.land p (not32 m)) ;; s ← dev; when (forallb (fun y => y =? 0) (pend_of x s)) (line (line_of x) 0)) Q (s, e)) as Hrun.
  { assert (fits 32 v) as Hv by (apply fits_land_l; [lia|by eapply word_fits|apply fits_not32]).
    wp_step. apply fetch_wp; [by rewrite (go_pend _ _ H)|]. wp_step. apply assign_wp; [by rewrite (go_pend _ _ H)|]. fold v. fold s1. wp_step. apply dev_wp. wp_step.
    assert (pend_of x s1 = <[Z.to_nat g := v]> (pend_of x s)) as Hp by apply pend_set. rewrite Hp.
    destruct (forallb _ _) eqn:F.
    - apply line_wp; [done|unfold s1; by rewrite line_set|]. unfold s1. rewrite line_set. intros e' He' Hl Hs. apply HQ.
      apply (new_pend_ok x g v s e); [done..|]. unfold any_pending. rewrite F. exact Hl.
    - apply HQ. apply (new_pend_ok x g v s e); [done..|]. unfold any_pending. rewrite F. 
      pose proof (go_line _ _ H x) as Hl. destruct (any_pending (pend_of x s)) eqn:F2; [exact Hl|]. exfalso. unfold any_pending in F2. apply negb_false_iff in F2.
      rewrite <- not_true_iff_false in F. apply F. rewrite forallb_forall in F2 |- *. intros y Hy. rewrite <- list_elem_of_In in Hy.
      apply list_elem_of_lookup_1 in Hy as [k Hk]. apply list_lookup_insert_Some in Hk as [(_ & <- & _)|[_ Hk]].
      + destruct (rd_Some (pend_of x s) g) as (w & Hw & Hw2); [by rewrite (go_pend _ _ H)|]. unfold v. rewrite Hw. cbn [default].
        assert (w = 0) as -> by (apply Z.eqb_eq, F2; rewrite <- list_elem_of_In; by eapply list_elem_of_lookup_2). by rewrite Z.land_0_l.
      + apply F2. rewrite <- list_elem_of_In. by eapply list_elem_of_lookup_2. }
  destruct x; exact Hrun.
Qed.
(** The numbers of the inputs. *)
Lemma pin_ext irq : 16 <= irq < 32 -> 2 <= Z.shiftr irq 3 < 4 /\ 0 <= Z.land irq 7 < 8 /\ irq = 8 * Z.shiftr irq 3 + Z.land irq 7.
Proof.
  intros Hi. rewrite Z.shiftr_div_pow2 by done. change (2 ^ 3) with 8. change 7 with (Z.ones 3). rewrite Z.land_ones by done. change (2 ^ 3) with 8.
  pose proof (Z.mod_pos_bound irq 8 ltac:(lia)). pose proof (Z.div_mod irq 8 ltac:(lia)). lia.
Qed.
Lemma pin_int irq : 32 <= irq < 216 -> 0 <= GPIOINT_GROUP irq < 23 /\ 0 <= GPIOINT_PIN irq < 8.
Proof.
  intros Hi. unfold GPIOINT_GROUP, GPIOINT_PIN, IRQ_EXTEND_NUM, MAX_PIN_IN_GROUP. rewrite Z.quot_div_nonneg, Z.rem_mod_nonneg by lia.
  pose proof (Z.mod_pos_bound (irq - 32) 8 ltac:(lia)). pose proof (Z.div_mod (irq - 32) 8 ltac:(lia)). lia.
Qed.
(** An unmasked pin latches a high level, and nothing else. *)
Lemma latch_pin_wp Er x g p level s e (Q : unit -> S5pc1xxGPIOState * E -> Prop) : gpio_ok s e -> 0 <= g < words x -> 0 <= p < 8 ->
  (forall l e', gpio_ok (set_pend x l s) e' -> (forall g' p', 0 <= p' < 8 ->
     pend_bit l g' p' = pend_bit (pend_of x s) g' p' || (g =? g') && (p =? p') && truth level) -> Q tt (set_pend x l s, e')) ->
  wp Er (pd ← fetch (pend_of x) g;
    if truth (Z.land pd (bit p)) then mret tt
    else if truth level then assign (pend_of x) (set_pend x) g (Z.lor pd (bit p)) ;; line (line_of x) 1
    else if x then s5pc1xx_gpio_extended_irq_lower g (bit p) else s5pc1xx_gpio_irq_lower g (bit p)) Q (s, e).
Proof.
  intros H Hg Hp HQ. pose proof (go_pend _ _ H x) as HL. wp_step. apply fetch_wp; [by rewrite HL|]. rewrite truth_land_bit by lia.
  destruct (Z.testbit (default 0 (rd (pend_of x s) g)) p) eqn:Hb; [|destruct (truth level) eqn:Hl].
  - wp_step. assert (s = set_pend x (pend_of x s) s) as Es by (by destruct x, s). rewrite Es at 1. apply HQ; [by rewrite <- Es|]. intros g' p' _.
    destruct (Z.eqb_spec g g') as [<-|]; [|by rewrite orb_false_r]. destruct (Z.eqb_spec p p') as [<-|]; [|by rewrite orb_false_r]. unfold pend_bit. by rewrite Hb.
  - apply (set_pend_wp Er x g p); [done|done|lia|]. intros e' Hok. apply HQ; [exact Hok|]. intros g' p' Hp'. rewrite pend_bit_insert by lia.
    destruct (Z.eqb_spec g g') as [<-|]; [|by rewrite orb_false_r]. rewrite Z.lor_spec, bit_testbit by lia. by rewrite andb_true_r.
  - apply (clear_pend_wp Er x g (bit p)); [done|done|]. intros e' Hok. apply HQ; [exact Hok|]. intros g' p' Hp'. rewrite pend_bit_insert by lia.
    rewrite andb_false_r, orb_false_r. destruct (Z.eqb_spec g g') as [<-|]; [|done].
    rewrite Z.land_spec, not32_testbit, bit_testbit by lia. rewrite (proj2 (Z.ltb_lt p' 32)) by lia. unfold pend_bit.
    destruct (Z.eqb_spec p p') as [<-|]; [by rewrite Hb|by rewrite andb_true_r].
Qed.
Lemma pin_ext_step irq level s e : gpio_ok s e -> 16 <= irq < 32 ->
  wp no_err (s5pc1xx_gpio_irq_handler irq level) (fun _ x => gpio_ok x.1 x.2 /\ latched s (Pin irq level) x.1) (s, e).
Proof.
  intros H Hirq. destruct (go_arrays _ _ H) as (_ & _ & _ & A4). destruct (pin_ext irq ltac:(lia)) as (G1 & G2 & G3).
  unfold s5pc1xx_gpio_irq_handler. rewrite (proj2 (Z.ltb_lt irq IRQ_EXTEND_NUM)), (proj2 (Z.ltb_ge irq 16)) by (unfold IRQ_EXTEND_NUM; lia).
  set (g := Z.shiftr irq 3) in *. set (p := Z.land irq 7) in *. cbv zeta.
  assert (forall g' p', 0 <= p' < 8 -> sets_ext s (Pin irq level) g' p' = (g =? g') && (p =? p') && truth level && negb (pend_bit (ext_int_mask s) g p)) as Hse.
  { intros g' p' Hp'. unfold sets_ext. rewrite (proj2 (Z.ltb_lt irq IRQ_EXTEND_NUM)) by (unfold IRQ_EXTEND_NUM; lia). cbn [andb].
    assert ((irq =? 8 * g' + p') = (g =? g') && (p =? p')) as -> by (destruct (Z.eqb_spec g g'), (Z.eqb_spec p p'); cbn [andb]; apply Z.eqb_eq || apply Z.eqb_neq; lia).
    destruct (Z.eqb_spec g g') as [<-|]; [|done]. by destruct (Z.eqb_spec p p') as [<-|]. }
  assert (forall g' p', sets s (Pin irq level) g' p' = false) as Hn.
  { intros g' p'. unfold sets. by rewrite (proj2 (Z.leb_gt IRQ_EXTEND_NUM irq)) by (unfold IRQ_EXTEND_NUM; lia). }
  wp_step. apply fetch_wp; [lia|]. rewrite truth_land_bit by lia. fold (pend_bit (ext_int_mask s) g p). destruct (pend_bit (ext_int_mask s) g p).
  - wp_step. split; [done|]. split; intros g' p' Hg' Hp'; [by rewrite Hn, orb_false_r, andb_true_r|by rewrite Hse, andb_false_r, orb_false_r].
  - apply (latch_pin_wp no_err true g p); [done|cbn; lia|done|]. intros l e' Hok Hl. split; [exact Hok|].
    split; intros g' p' Hg' Hp'; [by rewrite Hn, orb_false_r, andb_true_r|]. rewrite Hse, andb_true_r by done. exact (Hl g' p' Hp').
Qed.
Lemma pin_int_step irq level s e : gpio_ok s e -> 32 <= irq < 216 ->
  wp no_err (s5pc1xx_gpio_irq_handler irq level) (fun _ x => gpio_ok x.1 x.2 /\ latched s (Pin irq level) x.1) (s, e).
Proof.
  intros H Hirq. destruct (go_arrays _ _ H) as (_ & A2 & _). destruct (pin_int irq ltac:(lia)) as (G1 & G2).
  unfold s5pc1xx_gpio_irq_handler. rewrite (proj2 (Z.ltb_ge irq IRQ_EXTEND_NUM)) by (unfold IRQ_EXTEND_NUM; lia).
  set (g := GPIOINT_GROUP irq) in *. set (p := GPIOINT_PIN irq) in *. cbv zeta. set (c := Z.land (Z.shiftr (default 0 (rd (con s) g)) (p * 4)) 15).
  assert (forall g' p', sets s (Pin irq level) g' p' = (g =? g') && (p =? p') && truth level && ((c =? GIPIO_CONF_INT) && negb (pend_bit (int_mask s) g p))) as Hse.
  { intros g' p'. unfold sets, c. fold g p. rewrite (proj2 (Z.leb_le IRQ_EXTEND_NUM irq)) by (unfold IRQ_EXTEND_NUM; lia). cbn [andb].
    destruct (Z.eqb_spec g g') as [->|]; [|done]. destruct (Z.eqb_spec p p') as [->|]; [|done]. by rewrite andb_assoc. }
  assert (forall g' p', sets_ext s (Pin irq level) g' p' = false) as Hn.
  { intros g' p'. unfold sets_ext. by rewrite (proj2 (Z.ltb_ge irq IRQ_EXTEND_NUM)) by (unfold IRQ_EXTEND_NUM; lia). }
  assert ((c =? GIPIO_CONF_INT) && negb (pend_bit (int_mask s) g p) = false -> latched s (Pin irq level) s) as Hoff.
  { intros E0. split; intros g' p' _ _; [by rewrite Hse, E0, andb_false_r, orb_false_r, andb_true_r|by rewrite Hn, orb_false_r]. }
  wp_step. unfold GPIO_PIN_CONF. wp_step. apply fetch_wp; [rewrite (go_con _ _ H); lia|]. wp_step. fold c.
  destruct (c =? GIPIO_CONF_INT); cbn [negb andb] in *; [|wp_step; by split; [|apply Hoff]].
  wp_step. apply fetch_wp; [lia|]. rewrite truth_land_bit by lia. fold (pend_bit (int_mask s) g p).
  destruct (pend_bit (int_mask s) g p); cbn [negb] in *; [wp_step; by split; [|apply Hoff]|].
  apply (latch_pin_wp no_err false g p); [done|cbn; lia|done|]. intros l e' Hok Hl. split; [exact Hok|].
  split; intros g' p' Hg' Hp'; [|by rewrite Hn, orb_false_r]. rewrite Hse, !andb_true_r. exact (Hl g' p' Hp').
Qed.

(** *** Register writes *)
(** A step that changes neither the pending bits nor the lines. *)
Lemma latched_same s offset value s' : within offset INT_PEND_BASE INT_REGS_SIZE = false -> int_pend s' = int_pend s -> ext_int_pend s' = ext_int_pend s ->
  latched s (Write offset value) s'.
Proof. intros Hw H1 H2. split; intros g p _ _; [|by rewrite H2, orb_false_r]. unfold clears. by rewrite Hw, H1, orb_false_r, andb_true_r. Qed.
Lemma int_group off base step : within off base (22 * step) = true -> 0 < step -> 0 <= INT_TO_GROUP_NUM ((off - base) / step) < 23.
Proof.
  unfold within. intros [H1%Z.leb_le H2%Z.ltb_lt]%andb_true_iff Hs. pose proof (Z.div_pos (off - base) step ltac:(lia) Hs).
  assert ((off - base) / step < 22) by (apply Z.div_lt_upper_bound; lia). unfold INT_TO_GROUP_NUM. destruct (_ <? 17); lia.
Qed.
Lemma within_apart off a n b m : within off a n = true -> (a + n <=? b) || (b + m <=? a) = true -> within off b m = false.
Proof. unfold within. intros [H1%Z.leb_le H2%Z.ltb_lt]%andb_true_iff [Hd%Z.leb_le|Hd%Z.leb_le]%orb_true_iff. all: apply andb_false_iff; first [left; apply Z.leb_gt; lia|right; apply Z.ltb_ge; lia]. Qed.
Lemma write_step offset value s e : gpio_ok s e -> event_ok (Write offset value) ->
  wp no_err (s5pc1xx_gpio_write io offset value) (fun _ x => gpio_ok x.1 x.2 /\ latched s (Write offset value) x.1) (s, e).
Proof.
  intros H (Ho & Hv & Hg & Hne). unfold s5pc1xx_gpio_write. cbv zeta. rewrite andb_orb_distrib_r in Hg. apply orb_false_iff in Hg as [-> ->].
  destruct (go_arrays _ _ H) as (A1 & A2 & A3 & A4). pose proof H as [B1 B2 [C1 C2] B4 B5 B6 B7].
  destruct (within offset INT_CON_BASE INT_REGS_SIZE) eqn:W1.
  { pose proof (int_group offset INT_CON_BASE 4 W1 ltac:(lia)) as Hi. apply assign_wp; [rewrite A1; exact Hi|]. split; [split; try done; cbn; by rewrite length_insert|].
    apply latched_same; [by eapply within_apart|done|done]. }
  destruct (within offset INT_FLTCON_BASE (INT_REGS_SIZE * 2)) eqn:W2.
  { pose proof (int_group offset INT_FLTCON_BASE 8 W2 ltac:(lia)) as Hi. wp_step. apply dev_wp. destruct (rd_Some (int_fltcon s) (GET_GROUP_INT_FLTCON offset)) as (row & Hr & Hr2); [rewrite C1; exact Hi|].
    wp_step. eapply deref_wp; [exact Hr|]. pose proof (rd_Forall _ _ _ _ C2 Hr) as Hlen. cbv beta in Hlen.
    wp_step. eapply deref_wp; [apply wr_Some|].
    { rewrite Hlen, Z.shiftr_div_pow2 by done. change (2 ^ 2) with 4. pose proof (fits_land_r 3 offset 4 ltac:(lia) Ho ltac:(unfold fits; lia)) as [F1 F2]. change (2 ^ 3) with 8 in F2.
      split; [apply Z.div_pos; lia|apply Z.div_lt_upper_bound; lia]. }
    wp_step. eapply deref_wp; [apply wr_Some; rewrite C1; exact Hi|]. apply set_dev_wp. split; [split; try done; cbn; split; [by rewrite length_insert|]|].
    { apply Forall_insert; [done|]. by rewrite length_insert. }
    apply latched_same; [by eapply within_apart|done|done]. }
  destruct (within offset INT_MASK_BASE INT_REGS_SIZE) eqn:W3.
  { pose proof (int_group offset INT_MASK_BASE 4 W3 ltac:(lia)) as Hi. apply assign_wp; [rewrite A2; exact Hi|]. split; [split; try done; cbn; by rewrite length_insert|].
    apply latched_same; [by eapply within_apart|done|done]. }
  destruct (within offset INT_PEND_BASE INT_REGS_SIZE) eqn:W4.
  { pose proof (int_group offset INT_PEND_BASE 4 W4 ltac:(lia)) as Hi. apply (clear_pend_wp no_err false (GET_GROUP_INT_PEND offset) value); [done|exact Hi|].
    intros e' Hok. split; [exact Hok|]. split; intros g p Hg' Hp; [|by rewrite orb_false_r]. change (pend_bit (<[Z.to_nat (GET_GROUP_INT_PEND offset) :=
      Z.land (default 0 (rd (int_pend s) (GET_GROUP_INT_PEND offset))) (not32 value)]> (int_pend s)) g p =
      (pend_bit (int_pend s) g p || false) && negb (clears (Write offset value) g p)).
    rewrite pend_bit_insert by (pose proof (go_pend _ _ H false) as HL; cbn in HL; rewrite HL; exact Hi). unfold clears. rewrite W4, orb_false_r. cbn [andb].
    destruct (Z.eqb_spec (GET_GROUP_INT_PEND offset) g) as [<-|]; [|by rewrite andb_true_r].
    rewrite Z.land_spec, not32_testbit by lia. by rewrite (proj2 (Z.ltb_lt p 32)) by lia. }
  destruct (within offset INT_FIXPRI_BASE INT_REGS_SIZE) eqn:W5.
  { pose proof (int_group offset INT_FIXPRI_BASE 4 W5 ltac:(lia)) as Hi. apply assign_wp; [rewrite A3; exact Hi|]. split; [split; try done; cbn; by rewrite length_insert|].
    apply latched_same; [done|done|done]. }
  repeat match goal with |- wp _ (if ?b then _ else _) _ _ => destruct b; [apply set_dev_wp; split; [by split|by apply latched_same]|] end.
  unfold write_ext. destruct (List.find _ _) as [n|] eqn:F; [|wp_step; split; [done|by apply latched_same]].
  apply find_some in F as [Hin Hn]. assert (0 <= n < 4) as Hnr by (cbn in Hin; lia).
  apply orb_true_iff in Hn as [Hn|Hn%Z.eqb_eq]; [|by destruct (Hne n Hnr)]. rewrite Hn.
  apply assign_wp; [lia|]. split; [split; try done; cbn; rewrite length_insert; done|]. by apply latched_same.
Qed.
Lemma gpio_step_wp ev s e : gpio_ok s e -> event_ok ev -> wp no_err (gpio_step ev) (fun _ x => gpio_ok x.1 x.2 /\ latched s ev x.1) (s, e).
Proof.
  destruct ev as [irq level|offset value]; intros H Hev; cbn [gpio_step]; [|by apply write_step]. cbn in Hev.
  destruct (Z.lt_ge_cases irq 32); [apply pin_ext_step|apply pin_int_step]; done || lia.
Qed.

(** ** The ports: configuration and data registers *)
Definition is_port (offset : Z) : bool := in_group (offset / STEP) && ((offset mod STEP =? 0) || (offset mod STEP =? 4)).
(** The devices behind the pins leave a line alone, whatever their handlers do. *)
Definition quiet (n : option nat) : Prop := forall f o i v e, irq_inv e ->
  wp (fun _ => True) (gpio_call_write f o i v) (fun _ e' => irq_inv e' /\ forall k, n = Some k -> irq_level e' k = irq_level e k) e.
Lemma deref_any_wp {S A} (o : option A) Q (x : S) : (forall a, o = Some a -> Q a x) -> wp (fun _ => True) (deref o) Q x.
Proof. intros H. destruct o as [a|]; [by apply wp_deref_Some, H|done]. Qed.
Lemma quiet_ok s e e' : gpio_ok s e -> irq_inv e' -> (forall x k, line_of x s = Some k -> irq_level e' k = irq_level e k) -> gpio_ok s e'.
Proof.
  intros [A B C (H1 & H2 & H3) L F P] He Hl. split; try done. intros x. specialize (P x). specialize (Hl x).
  destruct (line_of x s) as [k|]; [|done]. cbn in *. by rewrite Hl.
Qed.
Lemma call_write_wp tab gpio_case v s e : (forall x, quiet (line_of x s)) -> gpio_ok s e ->
  wp (fun _ => True) (call_io io tab tt (fun f o i => gpio_call_write f o i v) gpio_case) (fun _ x => x.1 = s /\ gpio_ok s x.2) (s, e).
Proof.
  intros Hq Hok. unfold call_io. cbv zeta. wp_step. apply deref_any_wp. intros f0 _. wp_step. apply deref_any_wp. intros f _.
  wp_step. apply deref_any_wp. intros r _. wp_step. apply deref_any_wp. intros o _.
  destruct f as [[|f]|]; [by wp_step| |done]. apply wp_on_bank.
  pose proof (go_env _ _ Hok) as (He & _). pose proof (fun x => Hq x f o (Z.land gpio_case 63) v e He) as Hw.
  eapply wp_mono; [exact (wp_and _ _ _ _ _ (Hw false) (Hw true))|]. intros [] e' ([He' H1] & [_ H2]). split; [done|].
  eapply quiet_ok; [exact Hok|exact He'|]. intros []; [exact H2|exact H1].
Qed.
Lemma write_port_wp offset value s e : (forall x, quiet (line_of x s)) -> gpio_ok s e -> is_port offset = true -> 0 <= offset ->
  wp (fun _ => True) (s5pc1xx_gpio_write io offset value) (fun _ x => gpio_ok x.1 x.2 /\ latched s (Write offset value) x.1) (s, e).
Proof.
  intros Hq Hok Hport H0. unfold s5pc1xx_gpio_write. cbv zeta.
  assert (within offset INT_PEND_BASE INT_REGS_SIZE = false) as Hn.
  { unfold is_port, in_group, within in *. apply andb_true_iff in Hport as [Hg _]. unfold ETC2, GPH0, GPH3, STEP, INT_PEND_BASE, INT_REGS_SIZE in *.
    pose proof (Z.div_mod offset 32). pose proof (Z.mod_pos_bound offset 32). apply orb_true_iff in Hg as [Hg%Z.leb_le|[Hg1%Z.leb_le Hg2%Z.leb_le]%andb_true_iff];
      apply andb_false_iff; first [left; apply Z.leb_gt; lia|right; apply Z.ltb_ge; lia]. }
  unfold is_port in Hport. apply andb_true_iff in Hport as [Hg Hm]. rewrite Hg. cbn [andb].
  assert (forall f, (forall pin x, (x : S5pc1xxGPIOState * E).1 = s /\ gpio_ok s x.2 -> wp (fun _ => True) (f pin) (fun _ x => x.1 = s /\ gpio_ok s x.2) x) ->
    wp (fun _ => True) (for_each pins f) (fun _ x => x.1 = s /\ gpio_ok s x.2) (s, e)) as Hloop.
  { intros f Hf. apply wp_for_each; [done|]. intros pin x _ Hx. by apply Hf. }
  destruct (offset mod STEP =? 0).
  - wp_step. eapply wp_mono; [apply Hloop|].
    + intros pin [s1 e1] [E1 H1]. cbn [fst snd] in *. subst s1. unfold write_con. wp_step. apply deref_any_wp. intros c _. apply wp_when.
      destruct (truth c); [by apply call_write_wp|done].
    + intros [] [s1 e1] [E1 H1]. cbn [fst snd] in *. subst s1. unfold assign. wp_step. apply dev_wp. wp_step. apply deref_any_wp. intros l Hl.
      apply set_dev_wp. split; [|by apply latched_same]. destruct H1 as [A B C L F P R]. split; try done. cbn. unfold wr in Hl. destruct (_ && _); [|done]. injection Hl as <-. by rewrite length_insert.
  - cbn [orb] in Hm. rewrite Hm. eapply wp_mono; [apply Hloop|].
    + intros pin [s1 e1] [E1 H1]. cbn [fst snd] in *. subst s1. unfold write_pin, fetch. wp_step. wp_step. apply dev_wp. apply deref_any_wp. intros c _.
      cbv zeta. wp_if; [by wp_step|]. wp_if.
      * wp_step. apply deref_any_wp. intros k _. apply wp_when. destruct (truth k); [by apply call_write_wp|done].
      * wp_if; [by wp_step|done].
    + intros [] [s1 e1] [E1 H1]. cbn [fst snd] in *. subst s1. split; [done|]. by apply latched_same.
Qed.

(** C37: pin interrupts are latched, and the two interrupt lines follow the latches.  From a
    state in which each line is high exactly if one of its pending bits is set: an edge on
    an input from 16 to 215 and a write to any interrupt register but the extended pending
    ones succeed and lead to such a state; an edge on the inputs 0 to 15, which are
    registered as well, ends in hw_error; a write to the configuration or data register of
    a port, when it returns (it ends in hw_error for pins with an unknown function), leads
    to such a state too, if the handlers of the devices behind the pins drive neither line.
    A pending bit of a group's pin is set exactly by a high level on the pin, if the pin is
    configured for interrupts and not masked, and cleared exactly by a one that the guest
    writes to it: a low level clears nothing.  An extended pending bit is set exactly by a
    high level on its pin if it is not masked, whatever the pin's configuration, and none
    of these events clears it. *)
Theorem gpio_interrupts ev s e : gpio_ok s e ->
  (event_ok ev -> exists s' e', gpio_step ev (s, e) = Ok (tt, (s', e')) /\ gpio_ok s' e' /\ latched s ev s') /\
  (forall irq level, ev = Pin irq level -> irq < 16 -> gpio_step ev (s, e) = Err HwError) /\
  (forall offset value s' e', ev = Write offset value -> 0 <= offset -> is_port offset = true -> quiet (gpioint s) -> quiet (extend s) ->
    gpio_step ev (s, e) = Ok (tt, (s', e')) -> gpio_ok s' e' /\ latched s ev s').
Proof.
  intros H. split; [|split].
  - intros Hev. pose proof (gpio_step_wp ev s e H Hev) as Hw. apply (proj1 (wp_total_ex _ _ _)) in Hw as ([] & [s' e'] & Hrun & Hok & Hl).
    exists s', e'. split; [exact Hrun|]. split; [exact Hok|exact Hl].
  - intros irq level -> Hi. cbn [gpio_step]. unfold s5pc1xx_gpio_irq_handler, IRQ_EXTEND_NUM. rewrite !(proj2 (Z.ltb_lt _ _)) by lia. reflexivity.
  - intros offset value s' e' -> H0 Hport Hq1 Hq2 Hrun. cbn [gpio_step] in Hrun.
    exact (wp_ok _ _ _ _ _ _ (write_port_wp offset value s e ltac:(by intros []) H Hport H0) Hrun).
Qed.

Lemma ext_pend_write n value s e : gpio_ok s e -> 0 <= n < 4 -> s5pc1xx_gpio_write io (EXT_INT_PEND n) value (s, e) = Err Fault.
Proof.
  intros H Hn. assert (n ∈ [0; 1; 2; 3]) as Hin by (rewrite !elem_of_cons; lia). unfold s5pc1xx_gpio_write.
  pose proof (go_pend _ _ H true) as HL. cbn in HL.
  assert (s5pc1xx_gpio_extended_irq_lower 122 value (s, e) = Err Fault) as Hf.
  { unfold s5pc1xx_gpio_extended_irq_lower, fetch, dev, mbind, ST_bind. cbn [get mret ST_ret fst]. unfold deref, rd.
    change (0 <=? 122) with true. cbv iota. by rewrite (lookup_ge_None_2 (ext_int_pend s)) by lia. }
  repeat (apply elem_of_cons in Hin as [->|Hin]; [exact Hf|]). by apply elem_of_nil in Hin.
Qed.
Lemma pending_line x s e g p : gpio_ok s e -> 0 <= g < words x -> pend_bit (pend_of x s) g p = true -> line_is e (line_of x s) true.
Proof.
  intros H Hg Hp. pose proof (go_line _ _ H x) as Hl. destruct (rd_Some (pend_of x s) g) as (v & Hv & Hv2); [by rewrite (go_pend _ _ H)|].
  unfold pend_bit in Hp. rewrite Hv in Hp. cbn in Hp. replace (any_pending (pend_of x s)) with true in Hl; [done|]. symmetry. unfold any_pending. apply negb_true_iff.
  destruct (forallb _ _) eqn:F; [|done]. rewrite forallb_forall in F. specialize (F v). rewrite <- list_elem_of_In in F.
  assert (v = 0) as -> by (apply Z.eqb_eq, F; by eapply list_elem_of_lookup_2). by rewrite Z.bits_0 in Hp.
Qed.
(** C39: an extended interrupt is for ever.  Once the pending bit of an extended interrupt is
    set, no input and no write to another interrupt register clears it, so its line stays
    high whatever happens; and the write that should acknowledge it is undefined: the group
    it clears bits of is the offset divided by the distance of the groups, 122, an index far
    outside the four words. *)
Theorem ext_never_acknowledged evs s e g p : gpio_ok s e -> 0 <= g < 4 -> 0 <= p < 8 -> pend_bit (ext_int_pend s) g p = true -> Forall event_ok evs ->
  exists s' e', for_each evs gpio_step (s, e) = Ok (tt, (s', e')) /\ gpio_ok s' e' /\
    pend_bit (ext_int_pend s') g p = true /\ line_is e' (extend s') true /\
    forall n value, 0 <= n < 4 -> s5pc1xx_gpio_write io (EXT_INT_PEND n) value (s', e') = Err Fault.
Proof.
  intros H Hg Hp Hb Hev. revert s e H Hb. induction Hev as [|ev evs Hev Hevs IH]; intros s e H Hb.
  - exists s, e. split_and!; [done|done|done|exact (pending_line true s e g p H Hg Hb)|]. intros n value Hn. by apply ext_pend_write.
  - pose proof (gpio_step_wp ev s e H Hev) as Hw. apply (proj1 (wp_total_ex _ _ _)) in Hw as ([] & [s1 e1] & Hrun & Hok & _ & Hl).
    destruct (IH s1 e1 Hok) as (s' & e' & Hrun' & Hrest); [cbn [fst] in Hl; by rewrite Hl, Hb by done|].
    exists s', e'. split; [|exact Hrest]. cbn [for_each]. unfold mbind, ST_bind. by rewrite Hrun.
Qed.
End latch.

(** ** Witness: two wires; interrupt 29 is an input of the extended ones *)
#[local] Instance two_wires : IrqBankLaws wires := wires_laws 2.
#[local] Instance no_pins : GpioIo wires :=
  {| gpio_fn := unit; gpio_obj := unit; gpio_call_read := fun _ _ _ => mret 0; gpio_call_write := fun _ _ _ _ => mret tt |}.
Definition gpio_reset_run : option (S5pc1xxGPIOState * wires) := exec s5pc1xx_gpio_reset (gpio_zero (Some 0%nat) (Some 1%nat), qemu_allocate_irqs 2).
Definition demo_gpio : S5pc1xxGPIOState := Eval vm_compute in set_ext_int_mask [0; 0; 0; 0] (default (gpio_zero None None) (fst <$> gpio_reset_run)).
Definition demo_wires : wires := Eval vm_compute in qemu_allocate_irqs 2.
Lemma demo_gpio_ok : gpio_ok demo_gpio demo_wires.
Proof.
  apply mkGpioOk.
  - reflexivity.
  - split; [reflexivity|]. split; [reflexivity|]. split; reflexivity.
  - split; [reflexivity|]. apply (bool_decide_unpack _). vm_compute. exact I.
  - split; [reflexivity|]. split; [intros []; cbn; lia|]. intros E. discriminate E.
  - intros []; reflexivity.
  - intros []; apply (bool_decide_unpack _); vm_compute; exact I.
  - intros []; reflexivity.
Qed.
Lemma no_pins_quiet n : quiet (E := wires) n.
Proof. by intros f o i v e He. Qed.
Example gpio_interrupts_witness : (exists s' e', gpio_step io_zero (Pin 29 1) (demo_gpio, demo_wires) = Ok (tt, (s', e')) /\
    pend_bit (ext_int_pend s') 3 5 = true /\ gpio_ok s' e') /\
  gpio_step io_zero (Pin 3 1) (demo_gpio, demo_wires) = Err HwError /\
  exists s' e', gpio_step io_zero (Write 0x20 0xF) (demo_gpio, demo_wires) = Ok (tt, (s', e')) /\ gpio_ok s' e' /\ rd (con s') 1 = Some 0xF.
Proof.
  split; [|split].
  - destruct (proj1 (gpio_interrupts io_zero (Pin 29 1) demo_gpio demo_wires demo_gpio_ok) ltac:(cbn; lia)) as (s' & e' & Hrun & Hok & _ & Hl).
    exists s', e'. split; [exact Hrun|]. split; [|exact Hok]. specialize (Hl 3 5 ltac:(lia) ltac:(lia)). rewrite Hl. reflexivity.
  - exact (proj1 (proj2 (gpio_interrupts io_zero (Pin 3 1) demo_gpio demo_wires demo_gpio_ok)) 3 1 eq_refl ltac:(lia)).
  - eexists _, _. split; [vm_compute; reflexivity|]. split; [|reflexivity].
    exact (proj1 (proj2 (proj2 (gpio_interrupts io_zero (Write 0x20 0xF) demo_gpio demo_wires demo_gpio_ok))
      0x20 0xF _ _ eq_refl ltac:(lia) eq_refl (no_pins_quiet _) (no_pins_quiet _) ltac:(vm_compute; reflexivity))).
Defined.
Definition pending_gpio : S5pc1xxGPIOState := Eval vm_compute in set_ext_int_pend [0; 0; 0; 32] demo_gpio.
Lemma pending_gpio_ok : gpio_ok pending_gpio [false; true].
Proof.
  destruct demo_gpio_ok as [H1 H2 H3 H4 H5 H6 H7]. apply mkGpioOk.
  - reflexivity.
  - exact H2.
  - exact H3.
  - split; [reflexivity|]. exact (proj2 H4).
  - intros []; reflexivity.
  - intros []; apply (bool_decide_unpack _); vm_compute; exact I.
  - intros []; reflexivity.
Qed.
Example ext_never_acknowledged_witness : exists s' e',
  for_each [Pin 29 0; Write GPIO_INT_SER 0] (gpio_step io_zero) (pending_gpio, [false; true]) = Ok (tt, (s', e')) /\
  pend_bit (ext_int_pend s') 3 5 = true /\ s5pc1xx_gpio_write io_zero (EXT_INT_PEND 3) 32 (s', e') = Err Fault.
Proof.
  destruct (ext_never_acknowledged io_zero [Pin 29 0; Write GPIO_INT_SER 0] pending_gpio [false; true] 3 5 pending_gpio_ok ltac:(lia) ltac:(lia) eq_refl)
    as (s' & e' & Hrun & _ & Hb & _ & Hf).
  - constructor; [cbn; lia|]. constructor; [|constructor]. split; [unfold GPIO_INT_SER; lia|]. split; [unfold fits; lia|]. split; [reflexivity|]. intros n Hn. unfold GPIO_INT_SER, EXT_INT_PEND. lia.
  - exists s', e'. split; [exact Hrun|]. split; [exact Hb|]. by apply Hf.
Defined.
