(* ===== verification/Ptimer.v ===== *)
(** * Ptimer: the periodic down counter (hw/ptimer.c)

    uint64_t and int64_t fields are Z kept in range by explicit wrap-around; [bh] says
    whether there is a bottom half and [scheduled] whether it has been scheduled. *)
From S2P Require Import Prelude HostUtils Irq Timers Device.
#[local] Open Scope Z_scope.

Record ptimer_state := mkPtimer {
  enabled : Z;  (** 0 disabled, 1 periodic, 2 one-shot *)
  limit : Z; delta : Z; period_frac : Z; period : Z; last_event : Z; next_event : Z;
  bh : bool; scheduled : bool; timer : nat
}.
#[export] Instance eta_ptimer : Eta ptimer_state := fun r => mkPtimer
  (enabled r) (limit r) (delta r) (period_frac r) (period r) (last_event r) (next_event r)
  (bh r) (scheduled r) (timer r).

(** ** Arithmetic *)
(** The time of the event [delta] periods after [last]. *)
Definition event_after (last delta period period_frac : Z) : Z :=
  let next := s64 (wrap 64 (last + wrap 64 (delta * period))) in
  if truth period_frac then s64 (wrap 64 (next + Z.shiftr (wrap 64 (period_frac * delta)) 32))
  else next.

(** The scaled division of ptimer_get_count: [None] is a division by zero. *)
Definition count_left (rem div period_frac : Z) : option Z :=
  let shift := Z.min (clz64 rem) (clz64 div) in
  let rem := wrap 64 (Z.shiftl rem shift) in
  let div := wrap 64 (Z.shiftl div shift) in
  let div :=
    if 32 <=? shift then Z.lor div (wrap 64 (Z.shiftl period_frac (shift - 32)))
    else
      let div := if truth shift then Z.lor div (Z.shiftr period_frac (32 - shift)) else div in
      if truth (wrap 32 (Z.shiftl period_frac shift)) then wrap 64 (div + 1) else div in
  if div =? 0 then None else Some (rem / div).

(** ** Operations *)
Section ops.
  Context {E : Type} `{!TimerBank E}.
  Abbreviation PT := (ST (ptimer_state * E)).
Definition ptimer_trigger : PT unit :=
    s ← dev; when (bh s) (set_dev (fun s => s <| scheduled := true |>)).

Definition ptimer_reload : PT unit :=
    s ← dev;
    when (delta s =? 0) (ptimer_trigger ;; set_dev (fun s => s <| delta := limit s |>)) ;;
    s ← dev;
    if (delta s =? 0) || (period s =? 0) then set_dev (fun s => s <| enabled := 0 |>)
    else
      set_dev (fun s => s <| last_event := next_event s |>) ;;
      set_dev (fun s => s <| next_event := event_after (last_event s) (delta s) (period s) (period_frac s) |>) ;;
      s ← dev;
      on_bank (mod_timer (timer s) (next_event s)).

Definition ptimer_tick : PT unit :=
    ptimer_trigger ;;
    set_dev (fun s => s <| delta := 0 |>) ;;
    s ← dev;
    if enabled s =? 2 then set_dev (fun s => s <| enabled := 0 |>) else ptimer_reload.

Definition ptimer_get_count : PT Z :=
    s ← dev;
    if truth (enabled s) then
      now ← on_bank vm_clock;
      if (now - next_event s >? 0) || (period s =? 0) then mret 0
      else deref (count_left (wrap 64 (next_event s - now)) (wrap 64 (period s)) (period_frac s))
    else mret (delta s).

  (** [next_event = now; ptimer_reload(s)] *)
Definition restart : PT unit :=
    now ← on_bank vm_clock; set_dev (fun s => s <| next_event := now |>) ;; ptimer_reload.

Definition ptimer_set_count (count : Z) : PT unit :=
    set_dev (fun s => s <| delta := count |>) ;; s ← dev; when (truth (enabled s)) restart.

Definition ptimer_run (oneshot : Z) : PT unit :=
    s ← dev;
    if truth (enabled s) then mret tt
    else if period s =? 0 then mret tt
    else set_dev (fun s => s <| enabled := if truth oneshot then 2 else 1 |>) ;; restart.

Definition ptimer_stop : PT unit :=
    s ← dev;
    if truth (enabled s) then
      n ← ptimer_get_count;
      set_dev (fun s => s <| delta := n |>) ;;
      on_bank (del_timer (timer s)) ;;
      set_dev (fun s => s <| enabled := 0 |>)
    else mret tt.

Definition ptimer_set_period (p : Z) : PT unit :=
    set_dev (fun s => s <| period := p |>) ;; set_dev (fun s => s <| period_frac := 0 |>) ;;
    s ← dev; when (truth (enabled s)) restart.

Definition ptimer_set_freq (freq : Z) : PT unit :=
    if freq =? 0 then throw Fault else
    set_dev (fun s => s <| period := 1000000000 / freq |>) ;;
    set_dev (fun s => s <| period_frac := wrap 32 (Z.shiftl 1000000000 32 / freq) |>) ;;
    s ← dev; when (truth (enabled s)) restart.

Definition ptimer_set_limit (l reload : Z) : PT unit :=
    set_dev (fun s => s <| limit := l |>) ;;
    when (truth reload) (set_dev (fun s => s <| delta := l |>)) ;;
    s ← dev; when (truth (enabled s) && truth reload) restart.
End ops.

Definition ptimer_init (bh : bool) (timer : nat) : ptimer_state := mkPtimer 0 0 0 0 0 0 0 bh false timer.

(** ** Correctness *)
(** The period as a 64.32 fixed-point number. *)
Definition fixed_period (period period_frac : Z) : Z := period * 2 ^ 32 + period_frac.

Lemma count_left_spec rem period period_frac :
  0 <= rem < 2 ^ 63 -> 0 < period < 2 ^ 32 -> fits 32 period_frac ->
  exists n, count_left rem period period_frac = Some n /\
    0 <= n <= rem * 2 ^ 32 / fixed_period period period_frac /\
    (period_frac = 0 \/ rem < 2 ^ 32 -> n = rem * 2 ^ 32 / fixed_period period period_frac).
Proof.
  intros Hr Hp Hf. unfold fits in Hf. unfold count_left, fixed_period. cbv zeta.
  assert (32 <= clz64 period <= 63) as Hc2.
  { rewrite clz64_log2 by (unfold fits; lia). rewrite (proj2 (Z.eqb_neq _ _)) by lia.
    pose proof (Z.log2_nonneg period). assert (Z.log2 period < 32) by (apply Z.log2_lt_pow2; lia). lia. }
  assert (0 <= clz64 rem <= 64) as Hc1 by (apply (clz64_leading rem); unfold fits; lia).
  set (s := Z.min (clz64 rem) (clz64 period)).
  pose proof (clz64_shift rem s ltac:(unfold fits; lia) ltac:(lia)) as Hrs.
  pose proof (clz64_shift period s ltac:(unfold fits; lia) ltac:(lia)) as Hps.
  rewrite !(Z.shiftl_mul_pow2 _ s) by lia. rewrite !(wrap_fits 64 (_ * 2 ^ s)) by done.
  destruct (Z.leb_spec 32 s) as [Hs|Hs].
  - assert (2 ^ s = 2 ^ 32 * 2 ^ (s - 32)) as E by (rewrite <- Z.pow_add_r by lia; f_equal; lia).
    assert (0 < 2 ^ (s - 32) <= 2 ^ 31) by (split; [|apply Z.pow_le_mono_r]; lia).
    rewrite Z.shiftl_mul_pow2 by lia. rewrite wrap_fits by (unfold fits; nia).
    rewrite or_disjoint by (unfold fits; nia).
    replace (period * 2 ^ s + period_frac * 2 ^ (s - 32))
      with ((period * 2 ^ 32 + period_frac) * 2 ^ (s - 32)) by (rewrite E; lia).
    rewrite (proj2 (Z.eqb_neq _ _)) by nia. eexists. split; [reflexivity|].
    assert (rem * 2 ^ s / ((period * 2 ^ 32 + period_frac) * 2 ^ (s - 32)) =
            rem * 2 ^ 32 / (period * 2 ^ 32 + period_frac)) as ->.
    { rewrite E, Z.mul_assoc. apply Z.div_mul_cancel_r; lia. }
    split; [|done]. split; [|lia]. apply Z.div_pos; lia.
  - assert (2 ^ 32 = 2 ^ s * 2 ^ (32 - s)) as E by (rewrite <- Z.pow_add_r by lia; f_equal; lia).
    assert (0 < 2 ^ (32 - s)) as Hk by lia. assert (0 < 2 ^ s) as Hs0 by lia.
    set (D0 := if truth s then _ else _).
    set (q := period_frac / 2 ^ (32 - s)).
    assert (0 <= q < 2 ^ s) as Hq
      by (subst q; split; [apply Z.div_pos; lia|apply Z.div_lt_upper_bound; lia]).
    assert (D0 = period * 2 ^ s + q) as ->.
    { subst D0 q. unfold truth. destruct (Z.eqb_spec s 0) as [E0|E0]; cbn [negb].
      - rewrite E0 in *. change (32 - 0) with 32. rewrite Z.div_small by lia. lia.
      - rewrite Z.shiftr_div_pow2 by lia. apply or_disjoint; [lia|]. done. }
    pose proof (Z.div_mod period_frac (2 ^ (32 - s)) ltac:(lia)) as Hdm. fold q in Hdm.
    pose proof (Z.mod_pos_bound period_frac (2 ^ (32 - s)) Hk) as Hm.
    set (low := truth (wrap 32 (period_frac * 2 ^ s))).
    assert (low = negb (period_frac mod 2 ^ (32 - s) =? 0)) as Hlow.
    { subst low. unfold truth, wrap.
      rewrite E at 1. rewrite (Z.mul_comm period_frac), Z.mul_mod_distr_l by lia. f_equal.
      destruct (Z.eqb_spec (period_frac mod 2 ^ (32 - s)) 0) as [->|Hne]; [by rewrite Z.mul_0_r|].
      apply Z.eqb_neq. nia. }
    set (D := if low then wrap 64 (period * 2 ^ s + q + 1) else period * 2 ^ s + q).
    assert (2 ^ s <= 2 ^ 31) by (apply Z.pow_le_mono_r; lia).
    assert (2 ^ s <= period * 2 ^ s <= (2 ^ 32 - 1) * 2 ^ 31) as Hbig by nia.
    assert (period * 2 ^ 32 = period * 2 ^ s * 2 ^ (32 - s)) as Hpe by (rewrite E; lia).
    assert (0 < D /\ period * 2 ^ 32 + period_frac <= D * 2 ^ (32 - s) /\
            (period_frac mod 2 ^ (32 - s) = 0 -> period * 2 ^ 32 + period_frac = D * 2 ^ (32 - s)))
      as (HD & HD1 & HD2).
    { subst D. rewrite Hlow. destruct (Z.eqb_spec (period_frac mod 2 ^ (32 - s)) 0); cbn [negb].
      - split; [lia|]. split; [nia|intros _; nia].
      - rewrite wrap_fits by (unfold fits; lia). split; [lia|]. split; [nia|done]. }
    rewrite (proj2 (Z.eqb_neq D 0)) by lia. eexists. split; [reflexivity|].
    assert (rem * 2 ^ s / D = rem * 2 ^ 32 / (D * 2 ^ (32 - s))) as Hx
      by (rewrite E, Z.mul_assoc; symmetry; apply Z.div_mul_cancel_r; lia).
    split.
    + split; [apply Z.div_pos; lia|]. rewrite Hx. apply Z.div_le_compat_l; lia.
    + intros Hor. rewrite Hx, <- HD2; [done|]. destruct Hor as [->|Hsm]; [apply Z.mod_0_l; lia|].
      exfalso. assert (32 <= clz64 rem); [|lia]. rewrite clz64_log2 by (unfold fits; lia).
      destruct (Z.eqb_spec rem 0); [lia|]. pose proof (Z.log2_nonneg rem).
      assert (Z.log2 rem < 32) by (apply Z.log2_lt_pow2; lia). lia.
Qed.

Lemma event_after_spec last delta period period_frac :
  0 <= last -> 0 <= delta < 2 ^ 32 -> 0 <= period < 2 ^ 31 -> fits 32 period_frac ->
  last + delta * (period + 1) < 2 ^ 63 ->
  event_after last delta period period_frac =
  last + delta * fixed_period period period_frac / 2 ^ 32.
Proof.
  intros Hl Hd Hp Hf Hb. unfold fits in Hf. unfold event_after, fixed_period. cbv zeta.
  assert (0 <= delta * period < 2 ^ 63) by nia.
  assert (delta * (period * 2 ^ 32 + period_frac) / 2 ^ 32 =
          delta * period + period_frac * delta / 2 ^ 32) as ->.
  { replace (delta * (period * 2 ^ 32 + period_frac))
      with (delta * period * 2 ^ 32 + period_frac * delta) by lia. rewrite Z.div_add_l by lia. lia. }
  rewrite (wrap_fits 64 (delta * period)) by (unfold fits; lia).
  assert (0 <= period_frac * delta / 2 ^ 32 <= delta) as Hq.
  { split; [apply Z.div_pos; nia|]. apply Z.div_le_upper_bound; nia. }
  assert (forall x, 0 <= x < 2 ^ 63 -> s64 (wrap 64 x) = x) as Hs.
  { intros x Hx. rewrite wrap_fits by (unfold fits; lia). unfold s64.
    by rewrite (proj2 (Z.ltb_lt _ _)) by lia. }
  rewrite (Hs (last + delta * period)) by nia.
  unfold truth. destruct (Z.eqb_spec period_frac 0) as [->|Hne]; cbn [negb].
  - change (0 * delta) with 0. rewrite Z.div_0_l; lia.
  - rewrite (wrap_fits 64 (_ * _)) by (unfold fits; nia). rewrite Z.shiftr_div_pow2 by lia.
    rewrite Hs by nia. lia.
Qed.

Section spec.
  Context {E : Type} `{!IrqBank E, !TimerBank E, !EnvLaws E}.
  Implicit Types (s : ptimer_state) (e : E).

Lemma trigger_wp Er s e (Q : unit -> ptimer_state * E -> Prop) :
    Q tt (s <| scheduled := bh s || scheduled s |>, e) -> wp Er ptimer_trigger Q (s, e).
  Proof.
    intros HQ. unfold ptimer_trigger. wp_step. apply dev_wp, wp_when.
    destruct (bh s) eqn:Hb; cbn [orb] in HQ; [exact HQ|]. by destruct s; cbn in *.
  Qed.

  (** The state after a reload that arms the timer for [d] counts. *)
Definition reloaded s d : ptimer_state :=
    s <| delta := d |> <| last_event := next_event s |>
      <| next_event := next_event s + d * fixed_period (period s) (period_frac s) / 2 ^ 32 |>.
Definition armable s d : Prop :=
    0 <= next_event s /\ 0 < d < 2 ^ 32 /\ 0 < period s < 2 ^ 31 /\ fits 32 (period_frac s) /\
    next_event s + d * (period s + 1) < 2 ^ 63.

  (** A counter at zero schedules the bottom half and restarts from the limit. *)
Definition refilled s : ptimer_state :=
    if delta s =? 0 then s <| scheduled := bh s || scheduled s |> <| delta := limit s |> else s.

Lemma reload_arm s e d (Q : unit -> ptimer_state * E -> Prop) :
    irq_inv e -> delta (refilled s) = d -> armable (refilled s) d ->
    (forall e', irq_inv e' -> vm_now e' = vm_now e ->
       armed e' (timer s) = Some (next_event (reloaded (refilled s) d)) ->
       Q tt (reloaded (refilled s) d, e')) ->
    wp no_err ptimer_reload Q (s, e).
  Proof.
    intros He Hd Harm HQ. unfold ptimer_reload. wp_step. apply dev_wp. wp_step.
    assert (timer (refilled s) = timer s) as Ht by (unfold refilled; by destruct (delta s =? 0)).
    apply (wp_mono _ _ (fun _ se => se = (refilled s, e))).
    { apply wp_when. unfold refilled. destruct (delta s =? 0); [|done].
      wp_step. apply trigger_wp, set_dev_wp. done. }
    intros [] se ->. generalize dependent (refilled s). intros s0 Hd Harm HQ Ht.
    destruct Harm as (Hn & Hd0 & Hp & Hf & Hb). wp_step. apply dev_wp.
    rewrite Hd, (proj2 (Z.eqb_neq d 0)), (proj2 (Z.eqb_neq (period s0) 0)) by lia. cbn [orb].
    wp_step. apply set_dev_wp. wp_step. apply set_dev_wp. wp_step. apply dev_wp.
    cbn [timer next_event last_event delta period period_frac upd].
    rewrite Hd, event_after_spec by (done || lia).
    apply wp_on_bank. eapply wp_mono; [by apply mod_timer_spec|].
    intros [] e' (He' & Hnow & Hl & Ha).
    match goal with |- Q tt (?s', e') => replace s' with (reloaded s0 d)
      by (unfold reloaded; rewrite <- Hd; by destruct s0) end.
    apply HQ; [done..|]. by rewrite Ha, Ht, Nat.eqb_refl.
  Qed.

  (** Reading the counter.  Between events ptimer_get_count of an enabled timer
      returns at most the time left divided by the exact 32.32 fixed-point period, so
      rounding never hands out a count that has not been reached, and it is that
      quotient exactly when the period has no fraction or less than 2^32 ns are left;
      after the event it is 0.  It is not monotone, whatever the code's comment says:
      at 133.4 MHz with 2^40 ns left the counter moves backwards by 1167 counts within
      one nanosecond. *)
Theorem ptimer_count s e : irq_inv e -> truth (enabled s) = true ->
    0 < period s < 2 ^ 32 -> fits 32 (period_frac s) ->
    let left := next_event s - vm_now e in
    let exact := left * 2 ^ 32 / fixed_period (period s) (period_frac s) in
    left < 2 ^ 63 ->
    wp no_err ptimer_get_count (fun n se => se = (s, e) /\
      if left <? 0 then n = 0
      else 0 <= n <= exact /\ (period_frac s = 0 \/ left < 2 ^ 32 -> n = exact)) (s, e) /\
    (let frac := wrap 32 (Z.shiftl 1000000000 32 / 133400000) in
     count_left (2 ^ 40) (1000000000 / 133400000) frac = Some 146674849840 /\
     count_left (2 ^ 40 - 1) (1000000000 / 133400000) frac = Some 146674851007).
  Proof.
    intros He Hen Hp Hf left exact Hlt. split; [|split; vm_compute; reflexivity].
    unfold ptimer_get_count. wp_step. apply dev_wp. rewrite Hen. wp_step. apply wp_on_bank.
    eapply wp_mono; [by apply vm_clock_spec|]. intros t e' [-> ->].
    rewrite (proj2 (Z.eqb_neq (period s) 0)), orb_false_r by lia.
    replace (vm_now e - next_event s >? 0) with (left <? 0).
    2: { subst left. apply eq_bool_prop_intro. rewrite !Is_true_true, Z.ltb_lt, Z.gtb_lt. lia. }
    destruct (Z.ltb_spec left 0); [by wp_steps|].
    rewrite (wrap_fits 64 (period s)), wrap_fits by (unfold fits; lia). fold left.
    destruct (count_left_spec left (period s) (period_frac s)) as (n & Hn & H1 & H2); [lia|done|done|].
    eapply deref_wp; [exact Hn|]. done.
  Qed.

  (** The periodic timer.  ptimer_run starts it one limit ahead, every expiry of a
      periodic timer schedules the bottom half and re-arms it exactly the fixed-point
      interval after the previous event, rounded down to a nanosecond and independent
      of how late the handler ran, and a one-shot timer stops; setting the count of a
      running timer with a whole period and reading it back at once gives the count. *)
Theorem ptimer_periodic s e : irq_inv e ->
    (enabled s = 1 -> armable s (limit s) ->
     wp no_err ptimer_tick (fun _ '(s', e') => s' = (reloaded s (limit s)) <| scheduled := bh s || scheduled s |> /\
       armed e' (timer s) = Some (next_event s')) (s, e)) /\
    (enabled s = 2 ->
     wp no_err ptimer_tick (fun _ '(s', e') =>
       s' = s <| scheduled := bh s || scheduled s |> <| delta := 0 |> <| enabled := 0 |> /\ e' = e) (s, e)) /\
    (forall oneshot, enabled s = 0 -> armable (s <| next_event := vm_now e |>) (delta s) ->
     wp no_err (ptimer_run oneshot) (fun _ '(s', e') =>
       enabled s' = (if truth oneshot then 2 else 1) /\
       armed e' (timer s) = Some (vm_now e + delta s * fixed_period (period s) (period_frac s) / 2 ^ 32)) (s, e)) /\
    (forall c, truth (enabled s) = true -> period_frac s = 0 ->
     armable (s <| next_event := vm_now e |>) c ->
     wp no_err (ptimer_set_count c ;; ptimer_get_count) (fun n _ => n = c) (s, e)).
  Proof.
    intros He. split_and!.
    - intros H1 Harm. unfold ptimer_tick. wp_step. apply trigger_wp. wp_step. apply set_dev_wp. wp_step.
      apply dev_wp. cbn [enabled upd]. rewrite H1. cbn [Z.eqb].
      eapply reload_arm; [done|reflexivity|exact Harm|].
      intros e' He' _ Ha. cbn in Ha. split; [|exact Ha]. unfold refilled, reloaded. cbn.
      by rewrite orb_assoc, orb_diag.
    - intros H2. unfold ptimer_tick. wp_step. apply trigger_wp. wp_step. apply set_dev_wp. wp_step.
      apply dev_wp. cbn [enabled upd]. rewrite H2. by apply set_dev_wp.
    - intros os H0 Harm. unfold ptimer_run. wp_step. apply dev_wp. rewrite H0.
      pose proof Harm as (_ & Hd & Hp & _). cbn [period upd] in Hp.
      cbn [truth Z.eqb negb]. rewrite (proj2 (Z.eqb_neq (period s) 0)) by lia.
      wp_step. apply set_dev_wp. unfold restart. wp_step. apply wp_on_bank.
      eapply wp_mono; [by apply vm_clock_spec|]. intros t e' [-> ->]. wp_step. apply set_dev_wp.
      assert (forall s0, delta s0 = delta s -> refilled s0 = s0) as Hre.
      { intros s0 E0. unfold refilled. by rewrite E0, (proj2 (Z.eqb_neq _ _)) by lia. }
      eapply reload_arm; rewrite ?Hre by done; [done|reflexivity|exact Harm|].
      intros e' He' _ Ha. split; [done|exact Ha].
    - intros c Hen Hfr Harm. pose proof Harm as (Hn & Hd & Hp & _ & Hb).
      cbn [period next_event upd] in Hn, Hp, Hb.
      unfold ptimer_set_count. wp_step. wp_step. apply set_dev_wp. wp_step.
      apply dev_wp. cbn [enabled upd]. rewrite Hen. wp_step. unfold restart. wp_step. apply wp_on_bank.
      eapply wp_mono; [by apply vm_clock_spec|]. intros t e' [-> ->]. wp_step. apply set_dev_wp.
      assert (forall s0, delta s0 = c -> refilled s0 = s0) as Hre.
      { intros s0 E0. unfold refilled. by rewrite E0, (proj2 (Z.eqb_neq _ _)) by lia. }
      eapply reload_arm; rewrite ?Hre by done; [done|reflexivity|exact Harm|].
      intros e' He' Hnow _. set (s' := reloaded _ _). 
      assert (next_event s' - vm_now e' = c * period s) as Hleft.
      { unfold s', reloaded. cbn. unfold fixed_period. rewrite Hnow, Hfr, Z.add_0_r, Z.mul_assoc, Z.div_mul; lia. }
      unfold ptimer_get_count. wp_step. apply dev_wp. change (enabled s') with (enabled s). rewrite Hen.
      wp_step. apply wp_on_bank. eapply wp_mono; [by apply vm_clock_spec|]. intros t e'' [-> ->].
      change (period s') with (period s). change (period_frac s') with (period_frac s).
      rewrite (proj2 (Z.eqb_neq (period s) 0)), orb_false_r by lia.
      destruct (Z.gtb_spec (vm_now e' - next_event s') 0); [nia|]. rewrite Hleft.
      assert (0 <= c * period s < 2 ^ 63) by nia.
      rewrite (wrap_fits 64 (period s)), wrap_fits by (unfold fits; lia).
      destruct (count_left_spec (c * period s) (period s) (period_frac s)) as (n & Hcl & _ & H2);
        [lia|lia|rewrite Hfr; unfold fits; lia|].
      eapply deref_wp; [exact Hcl|]. rewrite H2 by (by left). rewrite Hfr. unfold fixed_period.
      rewrite Z.add_0_r. replace (c * period s * 2 ^ 32) with (c * (period s * 2 ^ 32)) by lia.
      apply Z.div_mul. lia.
  Qed.
End spec.

(** ** Witnesses: no lines, time 1 ms, a 100 ns period *)
Definition demo_env : wires * timers := board_at 0 1000000.
Definition demo_laws : EnvLaws (wires * timers) := board_laws 0.
Definition demo_ptimer : ptimer_state := mkPtimer 1 50 50 0 100 1000000 1005000 true false 3.

Example ptimer_count_witness :
  wp no_err ptimer_get_count (fun n _ => n = 50) (demo_ptimer, demo_env).
Proof.
  eapply wp_mono; [apply (ptimer_count (EnvLaws0 := demo_laws) demo_ptimer demo_env (board_at_ok 0 1000000));
    [reflexivity|cbn; lia|unfold fits; cbn; lia|vm_compute; reflexivity]|].
  intros n se [_ H]. vm_compute in H. destruct H as [_ H]. rewrite H by (by left). reflexivity.
Defined.
Example ptimer_periodic_witness :
  wp no_err ptimer_tick (fun _ '(s', e') => next_event s' = 1010000) (demo_ptimer, demo_env).
Proof.
  eapply wp_mono; [apply (proj1 (ptimer_periodic (EnvLaws0 := demo_laws) demo_ptimer demo_env (board_at_ok 0 1000000)));
    [reflexivity|unfold armable, fits; cbn; lia]|].
  intros [] [s' e'] [-> _]. reflexivity.
Defined.
