(* ===== verification/Json.v ===== *)
(** * Json: the JSON lexer and message streamer (json-lexer.c, json-streamer.c)

    Characters are bytes, Z from 0 to 255.  The lexer is the code's table: a row per
    state, a cell per byte, later designators of a row overriding earlier ones and
    every other cell ERROR.  The token type the code keeps in the same integer as the
    state is a [target] of its own.  The emit callback is an operation on the rest of
    the machine [M]. *)
From S2P Require Import Prelude Irq.

(** ** The table *)
Inductive json_token_type : Type :=
| JSON_OPERATOR | JSON_INTEGER | JSON_FLOAT | JSON_KEYWORD | JSON_STRING | JSON_ESCAPE | JSON_SKIP.

Inductive json_lexer_state : Type :=
| ERROR | IN_DONE_STRING | IN_DQ_UCODE3 | IN_DQ_UCODE2 | IN_DQ_UCODE1 |
  IN_DQ_UCODE0 | IN_DQ_STRING_ESCAPE | IN_DQ_STRING | IN_SQ_UCODE3 |
  IN_SQ_UCODE2 | IN_SQ_UCODE1 | IN_SQ_UCODE0 | IN_SQ_STRING_ESCAPE |
  IN_SQ_STRING | IN_ZERO | IN_DIGITS | IN_DIGIT | IN_EXP_E | IN_MANTISSA |
  IN_MANTISSA_DIGITS | IN_NONZERO_NUMBER | IN_NEG_NONZERO_NUMBER | IN_KEYWORD |
  IN_ESCAPE | IN_ESCAPE_L | IN_ESCAPE_LL | IN_ESCAPE_I | IN_ESCAPE_I6 |
  IN_ESCAPE_I64 | IN_ESCAPE_DONE | IN_WHITESPACE | IN_OPERATOR_DONE | IN_START.

#[export] Instance json_lexer_state_eq_dec : EqDecision json_lexer_state.
Proof. solve_decision. Defined.
#[export] Instance json_token_type_eq_dec : EqDecision json_token_type.
Proof. solve_decision. Defined.

(** A cell: the next state, or the type of the token that ends before the byte. *)
Inductive target : Type := St (s : json_lexer_state) | Tok (t : json_token_type).
#[export] Instance target_eq_dec : EqDecision target.
Proof. solve_decision. Defined.

(** The rows of the states inside a string. *)
Definition string_row (s : json_lexer_state) : list (Z * Z * target) :=
  match s with
  | IN_DONE_STRING =>
      [(0, 0x7F, Tok JSON_STRING)]
  | IN_DQ_UCODE3 =>
      [(48, 57, St IN_DQ_STRING); (97, 102, St IN_DQ_STRING); (65, 70, St IN_DQ_STRING)]
  | IN_DQ_UCODE2 =>
      [(48, 57, St IN_DQ_UCODE3); (97, 102, St IN_DQ_UCODE3); (65, 70, St IN_DQ_UCODE3)]
  | IN_DQ_UCODE1 =>
      [(48, 57, St IN_DQ_UCODE2); (97, 102, St IN_DQ_UCODE2); (65, 70, St IN_DQ_UCODE2)]
  | IN_DQ_UCODE0 =>
      [(48, 57, St IN_DQ_UCODE1); (97, 102, St IN_DQ_UCODE1); (65, 70, St IN_DQ_UCODE1)]
  | IN_DQ_STRING_ESCAPE =>
      [(98, 98, St IN_DQ_STRING); (102, 102, St IN_DQ_STRING); (110, 110, St IN_DQ_STRING);
       (114, 114, St IN_DQ_STRING); (116, 116, St IN_DQ_STRING); (39, 39, St IN_DQ_STRING);
       (34, 34, St IN_DQ_STRING); (117, 117, St IN_DQ_UCODE0)]
  | IN_DQ_STRING =>
      [(1, 255, St IN_DQ_STRING); (92, 92, St IN_DQ_STRING_ESCAPE);
       (34, 34, St IN_DONE_STRING)]
  | IN_SQ_UCODE3 =>
      [(48, 57, St IN_SQ_STRING); (97, 102, St IN_SQ_STRING); (65, 70, St IN_SQ_STRING)]
  | IN_SQ_UCODE2 =>
      [(48, 57, St IN_SQ_UCODE3); (97, 102, St IN_SQ_UCODE3); (65, 70, St IN_SQ_UCODE3)]
  | IN_SQ_UCODE1 =>
      [(48, 57, St IN_SQ_UCODE2); (97, 102, St IN_SQ_UCODE2); (65, 70, St IN_SQ_UCODE2)]
  | IN_SQ_UCODE0 =>
      [(48, 57, St IN_SQ_UCODE1); (97, 102, St IN_SQ_UCODE1); (65, 70, St IN_SQ_UCODE1)]
  | IN_SQ_STRING_ESCAPE =>
      [(98, 98, St IN_SQ_STRING); (102, 102, St IN_SQ_STRING); (110, 110, St IN_SQ_STRING);
       (114, 114, St IN_SQ_STRING); (116, 116, St IN_SQ_STRING); (39, 39, St IN_SQ_STRING);
       (34, 34, St IN_SQ_STRING); (117, 117, St IN_SQ_UCODE0)]
  | IN_SQ_STRING =>
      [(1, 255, St IN_SQ_STRING); (92, 92, St IN_SQ_STRING_ESCAPE);
       (39, 39, St IN_DONE_STRING)]
  | _ => []
  end.
Definition row (s : json_lexer_state) : list (Z * Z * target) :=
  match s with
  | IN_ZERO =>
      [(0, 0x7F, Tok JSON_INTEGER); (48, 57, St ERROR); (46, 46, St IN_MANTISSA)]
  | IN_DIGITS =>
      [(0, 0x7F, Tok JSON_FLOAT); (48, 57, St IN_DIGITS)]
  | IN_DIGIT =>
      [(48, 57, St IN_DIGITS)]
  | IN_EXP_E =>
      [(45, 45, St IN_DIGIT); (43, 43, St IN_DIGIT); (48, 57, St IN_DIGITS)]
  | IN_MANTISSA_DIGITS =>
      [(0, 0x7F, Tok JSON_FLOAT); (48, 57, St IN_MANTISSA_DIGITS); (101, 101, St IN_EXP_E);
       (69, 69, St IN_EXP_E)]
  | IN_MANTISSA =>
      [(48, 57, St IN_MANTISSA_DIGITS)]
  | IN_NONZERO_NUMBER =>
      [(0, 0x7F, Tok JSON_INTEGER); (48, 57, St IN_NONZERO_NUMBER); (101, 101, St IN_EXP_E);
       (69, 69, St IN_EXP_E); (46, 46, St IN_MANTISSA)]
  | IN_NEG_NONZERO_NUMBER =>
      [(48, 48, St IN_ZERO); (49, 57, St IN_NONZERO_NUMBER)]
  | IN_KEYWORD =>
      [(0, 0x7F, Tok JSON_KEYWORD); (97, 122, St IN_KEYWORD)]
  | IN_WHITESPACE =>
      [(0, 0x7F, Tok JSON_SKIP); (32, 32, St IN_WHITESPACE); (9, 9, St IN_WHITESPACE);
       (13, 13, St IN_WHITESPACE); (10, 10, St IN_WHITESPACE)]
  | IN_OPERATOR_DONE =>
      [(0, 0x7F, Tok JSON_OPERATOR)]
  | IN_ESCAPE_DONE =>
      [(0, 0x7F, Tok JSON_ESCAPE)]
  | IN_ESCAPE_LL =>
      [(100, 100, St IN_ESCAPE_DONE)]
  | IN_ESCAPE_L =>
      [(100, 100, St IN_ESCAPE_DONE); (108, 108, St IN_ESCAPE_LL)]
  | IN_ESCAPE_I64 =>
      [(100, 100, St IN_ESCAPE_DONE)]
  | IN_ESCAPE_I6 =>
      [(52, 52, St IN_ESCAPE_I64)]
  | IN_ESCAPE_I =>
      [(54, 54, St IN_ESCAPE_I6)]
  | IN_ESCAPE =>
      [(100, 100, St IN_ESCAPE_DONE); (105, 105, St IN_ESCAPE_DONE);
       (112, 112, St IN_ESCAPE_DONE); (115, 115, St IN_ESCAPE_DONE);
       (102, 102, St IN_ESCAPE_DONE); (108, 108, St IN_ESCAPE_L); (73, 73, St IN_ESCAPE_I)]
  | IN_START =>
      [(34, 34, St IN_DQ_STRING); (39, 39, St IN_SQ_STRING); (48, 48, St IN_ZERO);
       (49, 57, St IN_NONZERO_NUMBER); (45, 45, St IN_NEG_NONZERO_NUMBER);
       (123, 123, St IN_OPERATOR_DONE); (125, 125, St IN_OPERATOR_DONE);
       (91, 91, St IN_OPERATOR_DONE); (93, 93, St IN_OPERATOR_DONE);
       (44, 44, St IN_OPERATOR_DONE); (58, 58, St IN_OPERATOR_DONE);
       (97, 122, St IN_KEYWORD); (37, 37, St IN_ESCAPE); (32, 32, St IN_WHITESPACE);
       (9, 9, St IN_WHITESPACE); (13, 13, St IN_WHITESPACE); (10, 10, St IN_WHITESPACE)]
  | _ => string_row s
  end.

(** [json_lexer[state][(uint8_t)ch]] *)
Definition cell (s : json_lexer_state) (c : Z) : target :=
  fold_left (fun acc '(lo, hi, t) => if (lo <=? c) && (c <=? hi) then t else acc) (row s) (St ERROR).

(** ** The lexer *)
(** [x] and [y] are ints: columns and rows are counted modulo 2^32.  The code leaves them
    to the caller's zeroed memory. *)
Record JSONLexer := mkLexer { state : target; token : list Z; x : Z; y : Z }.
#[export] Instance eta_lexer : Eta JSONLexer := fun r => mkLexer (state r) (token r) (x r) (y r).

Definition json_lexer_init : JSONLexer := mkLexer (St IN_START) [] 0 0.
Definition EINVAL : Z := 22.

(** The row of the current state; a token type is not a row. *)
Definition cell_of (st : target) (c : Z) : option target :=
  match st with St s => Some (cell s c) | Tok _ => None end.
(** [qstring_append] of the one-character string of [ch]: empty for NUL. *)
Definition qstring_append (t : list Z) (ch : Z) : list Z := if ch =? 0 then t else t ++ [ch].

Section lexer.
  Context {M : Type} (emit : list Z -> json_token_type -> Z -> Z -> ST M unit).
  Abbreviation LEX := (ST (JSONLexer * M)).
Definition get_lexer : LEX JSONLexer := s ← get; mret s.1.
Definition set_lexer (f : JSONLexer -> JSONLexer) : LEX unit := on_dev (modify f).

Definition json_lexer_feed_char (ch : Z) : LEX Z :=
    set_lexer (fun l => l <| x := s32 (x l + 1) |>) ;;
    when (ch =? 10) (set_lexer (fun l => l <| x := 0 |> <| y := s32 (y l + 1) |>)) ;;
    l ← get_lexer;
    st ← deref (cell_of (state l) ch);
    set_lexer (fun l => l <| state := st |>) ;;
    match st with
    | St ERROR => mret (- EINVAL)
    | St _ => set_lexer (fun l => l <| token := qstring_append (token l) ch |>) ;; mret 0
    | Tok t =>
      l ← get_lexer;
      (match t with
       | JSON_SKIP => mret tt
       | _ => on_bank (emit (token l) t (x l) (y l))
       end) ;;
      set_lexer (fun l => l <| state := cell IN_START ch |> <| token := [] |>) ;;
      set_lexer (fun l => l <| token := qstring_append (token l) ch |>) ;;
      mret 0
    end.

Fixpoint json_lexer_feed (buffer : list Z) : LEX Z :=
    match buffer with
    | [] => mret 0
    | ch :: buffer =>
      err ← json_lexer_feed_char ch;
      if err <? 0 then mret err else json_lexer_feed buffer
    end.

Definition json_lexer_flush : LEX Z := json_lexer_feed_char 0.
End lexer.

(** ** The streamer *)
(** A token as the dictionary the code builds for it. *)
Record jtoken := mkToken { ty : json_token_type; text : list Z; tx : Z; t_y : Z }.

(** [messages] are the lists handed to the parser's emit callback; the counts are ints. *)
Record JSONMessageParser := mkParser {
  brace_count : Z; bracket_count : Z; tokens : list jtoken; messages : list (list jtoken)
}.
#[export] Instance eta_parser : Eta JSONMessageParser := fun r => mkParser
  (brace_count r) (bracket_count r) (tokens r) (messages r).

Definition json_message_parser_init : JSONMessageParser := mkParser 0 0 [] [].

Definition json_message_process_token (tok : list Z) (type : json_token_type) (x y : Z) :
    ST JSONMessageParser unit :=
  (match type with
   | JSON_OPERATOR =>
     c ← deref (head (tok ++ [0]));
     modify (fun p =>
       if c =? 123 then p <| brace_count := s32 (brace_count p + 1) |>
       else if c =? 125 then p <| brace_count := s32 (brace_count p - 1) |>
       else if c =? 91 then p <| bracket_count := s32 (bracket_count p + 1) |>
       else if c =? 93 then p <| bracket_count := s32 (bracket_count p - 1) |>
       else p)
   | _ => mret tt
   end) ;;
  modify (fun p => p <| tokens := tokens p ++ [mkToken type tok x y] |>) ;;
  p ← get;
  when ((brace_count p =? 0) && (bracket_count p =? 0))
    (modify (fun p => p <| messages := messages p ++ [tokens p] |>) ;;
     modify (fun p => p <| tokens := [] |>)).

Definition json_message_parser_feed (buffer : list Z) : ST (JSONLexer * JSONMessageParser) Z :=
  json_lexer_feed json_message_process_token buffer.
Definition json_message_parser_flush : ST (JSONLexer * JSONMessageParser) Z :=
  json_lexer_flush json_message_process_token.

(** ** The grammar of tokens *)
Definition range (lo hi c : Z) : bool := (lo <=? c) && (c <=? hi).
Definition digit (c : Z) : Prop := 48 <= c <= 57.
Definition hex (c : Z) : Prop := 48 <= c <= 57 \/ 97 <= c <= 102 \/ 65 <= c <= 70.
Definition exp_char (c : Z) : Prop := c = 101 \/ c = 69.

(** The inside of a string quoted with [q]: plain bytes, one-letter escapes and \u with
    four hexadecimal digits. *)
Inductive str_body (q : Z) : list Z -> Prop :=
| sb_nil : str_body q []
| sb_char b c : str_body q b -> c <> q -> c <> 92 -> 1 <= c <= 255 -> str_body q (b ++ [c])
| sb_esc b c : str_body q b -> c ∈ [98; 102; 110; 114; 116; 39; 34] -> str_body q (b ++ [92; c])
| sb_uni b h1 h2 h3 h4 : str_body q b -> hex h1 -> hex h2 -> hex h3 -> hex h4 ->
    str_body q (b ++ [92; 117; h1; h2; h3; h4]).

(** Numbers: a sign, zero or a digit string without leading zero; a fraction; an
    exponent (not after a bare zero). *)
Inductive nonzero : list Z -> Prop :=
| nz_one c : 49 <= c <= 57 -> nonzero [c]
| nz_neg c : 49 <= c <= 57 -> nonzero [45; c]
| nz_more l c : nonzero l -> digit c -> nonzero (l ++ [c]).
Inductive integer : list Z -> Prop :=
| int_zero : integer [48]
| int_neg_zero : integer [45; 48]
| int_nonzero l : nonzero l -> integer l.
Inductive fraction : list Z -> Prop :=
| frac_one l c : integer l -> digit c -> fraction (l ++ [46; c])
| frac_more l c : fraction l -> digit c -> fraction (l ++ [c]).
Definition mantissa (l : list Z) : Prop := nonzero l \/ fraction l.
Inductive scientific : list Z -> Prop :=
| sci_one l e c : mantissa l -> exp_char e -> digit c -> scientific (l ++ [e; c])
| sci_sign l e g c : mantissa l -> exp_char e -> g = 43 \/ g = 45 -> digit c -> scientific (l ++ [e; g; c])
| sci_more l c : scientific l -> digit c -> scientific (l ++ [c]).

Definition operators : list Z := [123; 125; 91; 93; 44; 58].
Definition letter (c : Z) : Prop := 97 <= c <= 122.
Definition space (c : Z) : Prop := c ∈ [32; 9; 13; 10].
(** The conversions %d %i %p %s %f %ld %lld %I64d. *)
Definition escapes : list (list Z) :=
  [[37; 100]; [37; 105]; [37; 112]; [37; 115]; [37; 102]; [37; 108; 100]; [37; 108; 108; 100];
   [37; 73; 54; 52; 100]].

Definition is_token (ty : json_token_type) (t : list Z) : Prop :=
  match ty with
  | JSON_OPERATOR => exists c, c ∈ operators /\ t = [c]
  | JSON_INTEGER => integer t
  | JSON_FLOAT => fraction t \/ scientific t
  | JSON_KEYWORD => t <> [] /\ Forall letter t
  | JSON_STRING => exists q b, (q = 34 \/ q = 39) /\ str_body q b /\ t = q :: b ++ [q]
  | JSON_ESCAPE => t ∈ escapes
  | JSON_SKIP => t <> [] /\ Forall space t
  end.

(** What has been read when the lexer is in a state. *)
Definition in_string (q : Z) (sfx : list Z -> Prop) (t : list Z) : Prop :=
  exists b r, str_body q b /\ sfx r /\ t = q :: b ++ r.
Definition uni (n : nat) (r : list Z) : Prop :=
  exists hs, length hs = n /\ Forall hex hs /\ r = 92 :: 117 :: hs.
Definition reads (s : json_lexer_state) (t : list Z) : Prop :=
  match s with
  | ERROR => False
  | IN_START => t = []
  | IN_DONE_STRING => is_token JSON_STRING t
  | IN_DQ_STRING => in_string 34 (fun r => r = []) t
  | IN_SQ_STRING => in_string 39 (fun r => r = []) t
  | IN_DQ_STRING_ESCAPE => in_string 34 (fun r => r = [92]) t
  | IN_SQ_STRING_ESCAPE => in_string 39 (fun r => r = [92]) t
  | IN_DQ_UCODE0 => in_string 34 (uni 0) t
  | IN_DQ_UCODE1 => in_string 34 (uni 1) t
  | IN_DQ_UCODE2 => in_string 34 (uni 2) t
  | IN_DQ_UCODE3 => in_string 34 (uni 3) t
  | IN_SQ_UCODE0 => in_string 39 (uni 0) t
  | IN_SQ_UCODE1 => in_string 39 (uni 1) t
  | IN_SQ_UCODE2 => in_string 39 (uni 2) t
  | IN_SQ_UCODE3 => in_string 39 (uni 3) t
  | IN_ZERO => t = [48] \/ t = [45; 48]
  | IN_NONZERO_NUMBER => nonzero t
  | IN_NEG_NONZERO_NUMBER => t = [45]
  | IN_MANTISSA => exists l, integer l /\ t = l ++ [46]
  | IN_MANTISSA_DIGITS => fraction t
  | IN_EXP_E => exists l e, mantissa l /\ exp_char e /\ t = l ++ [e]
  | IN_DIGIT => exists l e g, mantissa l /\ exp_char e /\ (g = 43 \/ g = 45) /\ t = l ++ [e; g]
  | IN_DIGITS => scientific t
  | IN_KEYWORD => is_token JSON_KEYWORD t
  | IN_ESCAPE => t = [37]
  | IN_ESCAPE_L => t = [37; 108]
  | IN_ESCAPE_LL => t = [37; 108; 108]
  | IN_ESCAPE_I => t = [37; 73]
  | IN_ESCAPE_I6 => t = [37; 73; 54]
  | IN_ESCAPE_I64 => t = [37; 73; 54; 52]
  | IN_ESCAPE_DONE => is_token JSON_ESCAPE t
  | IN_WHITESPACE => is_token JSON_SKIP t
  | IN_OPERATOR_DONE => is_token JSON_OPERATOR t
  end.
Definition leads_to (tg : target) (t : list Z) (c : Z) : Prop :=
  match tg with
  | St ERROR => True
  | St s => reads s (t ++ [c])
  | Tok ty => is_token ty t
  end.

(** Case analysis on the cell of a row for a byte. *)
Ltac cell_cases :=
  unfold cell; cbn [row string_row fold_left];
  repeat match goal with
  | |- context [if (?lo <=? ?c) && (?c <=? ?hi) then _ else _] =>
      destruct (Z.leb_spec lo c), (Z.leb_spec c hi); cbn [andb]; try (exfalso; lia)
  end; cbn [leads_to reads]; try exact I.

Lemma in_string_step q (P P' : list Z -> Prop) t c :
  in_string q P t -> (forall r, P r -> P' (r ++ [c])) -> in_string q P' (t ++ [c]).
Proof.
  intros (b & r & Hb & Hr & ->) H. exists b, (r ++ [c]). split; [done|]. split; [by apply H|].
  cbn. by rewrite <- app_assoc.
Qed.
Lemma uni_step n c r : hex c -> uni n r -> uni (S n) (r ++ [c]).
Proof.
  intros Hc (hs & Hl & Hh & ->). exists (hs ++ [c]). split; [rewrite length_app; cbn; lia|].
  split; [|done]. apply Forall_app. split; [done|]. constructor; [done|constructor].
Qed.
Lemma uni_close q t c : hex c -> in_string q (uni 3) t -> in_string q (fun r => r = []) (t ++ [c]).
Proof.
  intros Hc (b & r & Hb & (hs & Hl & Hh & ->) & ->).
  destruct hs as [|h1 [|h2 [|h3 [|]]]]; try discriminate Hl.
  repeat match goal with H : Forall _ (_ :: _) |- _ => apply Forall_cons_1 in H as [? ?] end.
  exists (b ++ [92; 117; h1; h2; h3; c]), []. split; [by constructor|]. split; [done|].
  cbn. rewrite app_nil_r, <- app_assoc. done.
Qed.
Lemma esc_close q t c : c ∈ [98; 102; 110; 114; 116; 39; 34] ->
  in_string q (fun r => r = [92]) t -> in_string q (fun r => r = []) (t ++ [c]).
Proof.
  intros Hc (b & r & Hb & -> & ->). exists (b ++ [92; c]), []. split; [by constructor|]. split; [done|].
  cbn. rewrite app_nil_r, <- app_assoc. done.
Qed.
Lemma char_step q t c : c <> q -> c <> 92 -> 1 <= c <= 255 ->
  in_string q (fun r => r = []) t -> in_string q (fun r => r = []) (t ++ [c]).
Proof.
  intros H1 H2 H3 (b & r & Hb & -> & ->). exists (b ++ [c]), []. split; [by constructor|]. split; [done|].
  cbn. by rewrite !app_nil_r.
Qed.
Lemma string_done q t : (q = 34 \/ q = 39) -> in_string q (fun r => r = []) t ->
  is_token JSON_STRING (t ++ [q]).
Proof. intros Hq (b & r & Hb & -> & ->). exists q, b. split; [done|]. split; [done|]. cbn. by rewrite app_nil_r. Qed.

Ltac byte_fact := first [lia | (unfold hex, digit, letter, exp_char; lia)
                        | (repeat (first [left; lia | right]))].
(** A byte in a list, from its bounds. *)
Ltac in_bytes c :=
  repeat (apply elem_of_cons; first [left; lia | right]).

Lemma step_string q s t c : 0 <= c <= 255 ->
  (q = 34 /\ s = IN_DQ_STRING \/ q = 39 /\ s = IN_SQ_STRING) ->
  reads s t -> leads_to (cell s c) t c.
Proof.
  intros Hc [[-> ->]|[-> ->]] H; cbn [reads] in H; cell_cases.
  all: try (apply string_done; [lia|]; replace c with 34 in * by lia; exact H).
  all: try (replace c with 34 by lia; apply string_done; [lia|exact H]).
  all: try (replace c with 39 by lia; apply string_done; [lia|exact H]).
  all: try (replace c with 92 by lia; eapply in_string_step; [exact H|]; by intros r ->).
  all: try (apply char_step; [lia..|exact H]).
Qed.
Lemma step_escape q s t c : 0 <= c <= 255 ->
  (q = 34 /\ s = IN_DQ_STRING_ESCAPE \/ q = 39 /\ s = IN_SQ_STRING_ESCAPE) ->
  reads s t -> leads_to (cell s c) t c.
Proof.
  intros Hc [[-> ->]|[-> ->]] H; cbn [reads] in H; cell_cases.
  all: try (apply esc_close; [in_bytes c|exact H]).
  all: eapply in_string_step; [exact H|]; intros r ->; exists []; split; [done|]; split; [constructor|];
    cbn; by replace c with 117 by lia.
Qed.
Lemma step_uni s t c : 0 <= c <= 255 ->
  s ∈ [IN_DQ_UCODE0; IN_DQ_UCODE1; IN_DQ_UCODE2; IN_DQ_UCODE3;
       IN_SQ_UCODE0; IN_SQ_UCODE1; IN_SQ_UCODE2; IN_SQ_UCODE3] ->
  reads s t -> leads_to (cell s c) t c.
Proof.
  intros Hc Hs. repeat (apply elem_of_cons in Hs as [->|Hs]); [..|by apply elem_of_nil in Hs];
    intros H; cbn [reads] in H; cell_cases;
    first [ apply uni_close; [unfold hex; lia|exact H]
          | eapply in_string_step; [exact H|]; intros r; apply uni_step; unfold hex; lia ].
Qed.
Lemma step_number s t c : 0 <= c <= 255 ->
  s ∈ [IN_ZERO; IN_NONZERO_NUMBER; IN_NEG_NONZERO_NUMBER] ->
  reads s t -> leads_to (cell s c) t c.
Proof.
  intros Hc Hs. repeat (apply elem_of_cons in Hs as [->|Hs]); [..|by apply elem_of_nil in Hs];
    intros H; cbn [reads] in H; cell_cases.
  all: try (destruct H as [->| ->]; constructor).
  all: try (destruct H as [->| ->]; [exists [48]|exists [45; 48]]; split; [constructor| |constructor|];
            replace c with 46 by lia; reflexivity).
  all: try (by constructor).
  all: try (apply nz_more; [exact H|unfold digit; lia]).
  all: try (exists t; split; [by constructor|]; by replace c with 46 by lia).
  all: try (exists t, c; split; [by left|]; split; [unfold exp_char; lia|done]).
  all: try (subst t; replace c with 48 by lia; by right).
  all: try (subst t; apply nz_neg; lia).
Qed.
Lemma step_float s t c : 0 <= c <= 255 ->
  s ∈ [IN_MANTISSA; IN_MANTISSA_DIGITS; IN_EXP_E; IN_DIGIT; IN_DIGITS] ->
  reads s t -> leads_to (cell s c) t c.
Proof.
  intros Hc Hs. repeat (apply elem_of_cons in Hs as [->|Hs]); [..|by apply elem_of_nil in Hs];
    intros H; cbn [reads] in H; cell_cases.
  all: try (by left).
  all: try (by right).
  all: try (apply frac_more; [exact H|unfold digit; lia]).
  all: try (apply sci_more; [exact H|unfold digit; lia]).
  all: try (destruct H as (l & Hl & ->); rewrite <- app_assoc; apply frac_one; [exact Hl|unfold digit; lia]).
  all: try (exists t, c; split; [by right|]; split; [unfold exp_char; lia|done]).
  all: try (destruct H as (l & e & Hl & He & ->); rewrite <- app_assoc; exists l, e, c;
            split_and!; [done|done|lia|done]).
  all: try (destruct H as (l & e & Hl & He & ->); rewrite <- app_assoc;
            apply sci_one; [done|done|unfold digit; lia]).
  all: try (destruct H as (l & e & g & Hl & He & Hg & ->); rewrite <- app_assoc;
            apply sci_sign; [done|done|done|unfold digit; lia]).
Qed.
Lemma step_rest s t c : 0 <= c <= 255 ->
  s ∈ [IN_DONE_STRING; IN_KEYWORD; IN_WHITESPACE; IN_OPERATOR_DONE; IN_ESCAPE_DONE] ->
  reads s t -> leads_to (cell s c) t c.
Proof.
  intros Hc Hs. repeat (apply elem_of_cons in Hs as [->|Hs]); [..|by apply elem_of_nil in Hs];
    intros H; cbn [reads] in H; cell_cases; try exact H.
  all: destruct H as [Hne Hall]; split; [by destruct t|]; apply Forall_app; split; [exact Hall|];
    constructor; [|constructor]; first [unfold letter; lia | unfold space; in_bytes c].
Qed.
Lemma step_conversion s t c : 0 <= c <= 255 ->
  s ∈ [IN_ESCAPE; IN_ESCAPE_L; IN_ESCAPE_LL; IN_ESCAPE_I; IN_ESCAPE_I6; IN_ESCAPE_I64] ->
  reads s t -> leads_to (cell s c) t c.
Proof.
  intros Hc Hs. repeat (apply elem_of_cons in Hs as [->|Hs]); [..|by apply elem_of_nil in Hs];
    intros ->; cell_cases;
    match goal with
    | _ : ?k <= c, _ : c <= ?k |- _ => replace c with k by lia
    end; cbn; try reflexivity;
    repeat (apply elem_of_cons; first [left; reflexivity | right]).
Qed.
Lemma step_start t c : 0 <= c <= 255 -> reads IN_START t -> leads_to (cell IN_START c) t c.
Proof.
  intros Hc ->. cell_cases.
  all: try (exists [], []; split; [constructor|]; split; [done|]; cbn; f_equal; lia).
  all: try (exists c; split; [unfold operators; in_bytes c|done]).
  all: try (left; cbn; f_equal; lia).
  all: try (cbn; apply nz_one; lia).
  all: try (cbn; f_equal; lia).
  all: split; [done|]; constructor; [|constructor]; first [unfold letter; lia | unfold space; in_bytes c].
Qed.

Ltac in_states := solve [repeat (apply elem_of_cons; first [left; reflexivity | right])].

Lemma reads_step s t c : 0 <= c <= 255 -> reads s t -> leads_to (cell s c) t c.
Proof.
  intros Hc. destruct s.
  all: try (by intros []).
  all: try (apply step_start, Hc).
  all: try (apply (step_string 34); [exact Hc|by left]).
  all: try (apply (step_string 39); [exact Hc|by right]).
  all: try (apply (step_escape 34); [exact Hc|by left]).
  all: try (apply (step_escape 39); [exact Hc|by right]).
  all: first [ apply step_uni; [exact Hc|in_states] | apply step_number; [exact Hc|in_states]
             | apply step_float; [exact Hc|in_states] | apply step_rest; [exact Hc|in_states]
             | apply step_conversion; [exact Hc|in_states] ].
Qed.

(** ** The streamer's invariant *)
(** Braces and brackets open at the end of a token list. *)
Definition depth1 (t : jtoken) : Z * Z :=
  match ty t with
  | JSON_OPERATOR =>
    match head (text t ++ [0]) with
    | Some c => if c =? 123 then (1, 0) else if c =? 125 then (-1, 0)
                else if c =? 91 then (0, 1) else if c =? 93 then (0, -1) else (0, 0)
    | None => (0, 0)
    end
  | _ => (0, 0)
  end.
Fixpoint depth (l : list jtoken) : Z * Z :=
  match l with
  | [] => (0, 0)
  | t :: l => ((depth1 t).1 + (depth l).1, (depth1 t).2 + (depth l).2)
  end.
(** As many opening as closing braces, and brackets, as far as an int counts.  Neither
    their order nor their nesting matters: the tokens of "}{" and of "[{]}" are settled. *)
Definition counts (l : list jtoken) : Z * Z := (s32 (depth l).1, s32 (depth l).2).
Definition settled (l : list jtoken) : Prop := counts l = (0, 0).
(** Closed at its end and at no earlier point: one message. *)
Definition open_inside (l : list jtoken) : Prop :=
  forall l1 l2, l = l1 ++ l2 -> l1 <> [] -> l2 <> [] -> ~ settled l1.
Definition is_message (l : list jtoken) : Prop := l <> [] /\ settled l /\ open_inside l.

Definition stream_inv (p : JSONMessageParser) : Prop :=
  Forall is_message (messages p) /\ open_inside (tokens p) /\
  (tokens p = [] \/ ~ settled (tokens p)) /\
  (brace_count p, bracket_count p) = counts (tokens p).
(** Every token the parser has seen, in order. *)
Definition seen (p : JSONMessageParser) : list jtoken := concat (messages p) ++ tokens p.

Lemma depth_app l1 l2 : depth (l1 ++ l2) = ((depth l1).1 + (depth l2).1, (depth l1).2 + (depth l2).2).
Proof.
  induction l1 as [|t l1 IH]; cbn [app depth]; [by destruct (depth l2)|]. rewrite IH. cbn [fst snd].
  f_equal; lia.
Qed.
Lemma depth_one t : depth [t] = depth1 t.
Proof. cbn [depth]. rewrite !Z.add_0_r. by destruct (depth1 t). Qed.
Lemma depth1_bound t : -1 <= (depth1 t).1 <= 1 /\ -1 <= (depth1 t).2 <= 1.
Proof. unfold depth1. destruct (ty t); try done. destruct (head _); [|done]. by repeat case_match. Qed.
Lemma depth_bound l : - Z.of_nat (length l) <= (depth l).1 <= Z.of_nat (length l) /\
  - Z.of_nat (length l) <= (depth l).2 <= Z.of_nat (length l).
Proof. induction l as [|t l IH]; [done|]. pose proof (depth1_bound t). cbn [depth length fst snd]. lia. Qed.
(** Below 2^31 tokens the ints do not wrap. *)
Lemma counts_depth l : Z.of_nat (length l) < 2 ^ 31 -> counts l = depth l.
Proof.
  intros Hl. pose proof (depth_bound l). unfold counts. rewrite !s32_id by lia. by destruct (depth l).
Qed.
Lemma counts_snoc l t : counts (l ++ [t]) = (s32 ((counts l).1 + (depth1 t).1), s32 ((counts l).2 + (depth1 t).2)).
Proof. unfold counts. cbn [fst snd]. by rewrite !s32_add_l, depth_app, depth_one. Qed.
Lemma counts_ints l : s32 (counts l).1 = (counts l).1 /\ s32 (counts l).2 = (counts l).2.
Proof. split; apply s32_idem. Qed.
Lemma open_snoc l t : open_inside l -> (l = [] \/ ~ settled l) -> open_inside (l ++ [t]).
Proof.
  intros Ho Hl l1 l2 E H1 H2. destruct l2 as [|u l2] using rev_ind; [done|]. clear IHl2.
  rewrite app_assoc in E. apply app_inj_tail in E as [-> _].
  destruct l2 as [|v l2].
  - rewrite app_nil_r in *. destruct Hl as [->|Hl]; [done|exact Hl].
  - by apply (Ho l1 (v :: l2)).
Qed.

Lemma process_token_wp tok type cx cy p : stream_inv p ->
  wp no_err (json_message_process_token tok type cx cy)
     (fun _ p' => stream_inv p' /\ seen p' = seen p ++ [mkToken type tok cx cy]) p.
Proof.
  intros (Hm & Ho & Hd & Hc). unfold json_message_process_token. wp_step.
  set (t := mkToken type tok cx cy).
  apply (wp_mono _ _ (fun _ p1 => messages p1 = messages p /\ tokens p1 = tokens p /\
    (brace_count p1, bracket_count p1) = counts (tokens p ++ [t]))).
  { rewrite counts_snoc, <- Hc. destruct (counts_ints (tokens p)) as [I1 I2]. rewrite <- Hc in I1, I2.
    subst t. unfold depth1. cbn [ty text fst snd] in *.
    destruct type; try (wp_step; by rewrite !Z.add_0_r, I1, I2).
    destruct (head (tok ++ [0])) as [c|] eqn:Hh; [|by destruct tok].
    wp_step. apply wp_deref_Some. wp_step.
    repeat (case_match; [cbn; by rewrite ?Z.add_0_r, ?I1, ?I2|]). by rewrite !Z.add_0_r, I1, I2. }
  intros [] p1 (E1 & E2 & E3). do 5 wp_step. cbn [brace_count bracket_count upd].
  assert (open_inside (tokens p ++ [t])) as Hot by (by apply open_snoc).
  destruct ((brace_count p1 =? 0) && (bracket_count p1 =? 0)) eqn:Ez.
  - apply andb_true_iff in Ez as [Z1%Z.eqb_eq Z2%Z.eqb_eq]. rewrite Z1, Z2 in E3.
    do 3 wp_step. unfold stream_inv, seen. cbn. rewrite E1, E2, Z1, Z2. split_and!.
    + apply Forall_app. split; [done|]. constructor; [|constructor]. split; [by destruct (tokens p)|done].
    + intros l1 l2 E H1. symmetry in E. apply app_eq_nil in E as [-> _]. done.
    + by left.
    + done.
    + rewrite concat_app. cbn. by rewrite !app_nil_r, app_assoc.
  - unfold stream_inv, seen. cbn. rewrite E1, E2.
    split_and!; [done|done| |done|by rewrite app_assoc].
    right. unfold settled. rewrite <- E3. intros [= Z1 Z2]. rewrite Z1, Z2 in Ez. done.
Qed.

(** ** Feeding *)
Definition nonskip (x : json_token_type * list Z) : Prop := x.1 <> JSON_SKIP.
#[export] Instance nonskip_dec x : Decision (nonskip x).
Proof. unfold nonskip. apply _. Defined.

(** [toks] splits what has been consumed, whitespace included, into tokens and the
    token being read; the parser has seen all but the whitespace. *)
Definition lexed (consumed : list Z) (toks : list (json_token_type * list Z))
    (l : JSONLexer) (p : JSONMessageParser) : Prop :=
  (fun t => (ty t, text t)) <$> seen p = filter nonskip toks /\
  Forall (fun x => is_token x.1 x.2) toks /\
  concat (snd <$> toks) ++ token l = consumed.
Definition lex_state (l : JSONLexer) : Prop :=
  exists s, state l = St s /\ (s = ERROR \/ reads s (token l)).

Lemma cell_start_state c : exists s, cell IN_START c = St s.
Proof.
  unfold cell. cbn [row string_row fold_left].
  repeat match goal with |- context [if ?b then _ else _] => destruct b; [by eexists|] end. by eexists.
Qed.

Lemma get_lexer_wp {M} Er (l : JSONLexer) (m : M) Q : Q l (l, m) -> wp Er get_lexer Q (l, m).
Proof. done. Qed.
Lemma set_lexer_wp {M} Er f (l : JSONLexer) (m : M) Q : Q tt (f l, m) -> wp Er (set_lexer f) Q (l, m).
Proof. done. Qed.

(** In the state ERROR every byte is refused. *)
Section dead.
  Context {M : Type} (emit : list Z -> json_token_type -> Z -> Z -> ST M unit).
Lemma feed_char_ERROR s c l (m : M) : state l = St s -> cell s c = St ERROR ->
  wp no_err (json_lexer_feed_char emit c) (fun r '(l', m') => r = - EINVAL /\ m' = m /\
    state l' = St ERROR /\ token l' = token l) (l, m).
Proof.
  intros Hs Hc. unfold json_lexer_feed_char.
  wp_step. apply set_lexer_wp. wp_step.
  apply (wp_mono _ _ (fun _ '(l1, m1) => m1 = m /\ state l1 = St s /\ token l1 = token l)).
  { apply wp_when. destruct (c =? 10); [|done]. by apply set_lexer_wp. }
  intros [] [l1 m1] (-> & Hs1 & Ht1). wp_step. apply get_lexer_wp. wp_step. rewrite Hs1.
  cbn [cell_of]. apply wp_deref_Some. wp_step. apply set_lexer_wp. rewrite Hc. wp_step. cbn. done.
Qed.
Lemma feed_dead c t l (m : M) : state l = St ERROR ->
  wp no_err (json_lexer_feed emit (c :: t)) (fun r '(l', m') => r = - EINVAL /\ m' = m /\
    state l' = St ERROR /\ token l' = token l) (l, m).
Proof.
  intros Hs. cbn [json_lexer_feed]. wp_step. eapply wp_mono; [by apply (feed_char_ERROR ERROR c l m)|].
  intros r [l1 m1] (-> & H). change (- EINVAL <? 0) with true. cbv iota. by wp_step.
Qed.
End dead.

(** A NUL ends a token like any byte, but is no part of one: no state follows it. *)
Definition nul_ends (c : Z) (l : JSONLexer) : Prop := c = 0 -> state l = St ERROR /\ token l = [].
Lemma cell_nul s : cell s 0 = St ERROR \/ exists t, cell s 0 = Tok t.
Proof. destruct s; vm_compute; eauto. Qed.
Lemma append_snoc t c : c <> 0 -> qstring_append t c = t ++ [c].
Proof. intros Hc. unfold qstring_append. by rewrite (proj2 (Z.eqb_neq c 0)). Qed.

(** The end of a token of type [t] before byte [c]. *)
Lemma token_end_wp consumed toks l p s t c : 0 <= c <= 255 ->
  lexed consumed toks l p -> stream_inv p -> is_token t (token l) -> state l = s ->
  wp no_err (l ← get_lexer;
      (match t with
       | JSON_SKIP => mret tt
       | _ => on_bank (json_message_process_token (token l) t (x l) (y l))
       end) ;;
      set_lexer (fun l => l <| state := cell IN_START c |> <| token := [] |>) ;;
      set_lexer (fun l => l <| token := qstring_append (token l) c |>) ;;
      mret 0) (fun r '(l', p') => stream_inv p' /\ r = 0 /\
        (exists toks', lexed (qstring_append consumed c) toks' l' p') /\ lex_state l' /\ nul_ends c l') (l, p).
Proof.
  intros Hc (Hlog & Hty & Hcons) Hp Htok Hs. wp_step. apply get_lexer_wp. wp_step.
  apply (wp_mono _ _ (fun _ '(l1, p1) => l1 = l /\ stream_inv p1 /\
    (fun t => (ty t, text t)) <$> seen p1 = filter nonskip (toks ++ [(t, token l)]))).
  { rewrite list.filter_app, filter_cons, filter_nil. unfold nonskip at 2. cbn [fst].
    destruct (decide (t <> JSON_SKIP)) as [Hns|Hsk].
    - assert (wp no_err (on_bank (json_message_process_token (token l) t (x l) (y l)))
        (fun _ '(l1, p1) => l1 = l /\ stream_inv p1 /\
           (fun t => (ty t, text t)) <$> seen p1 = filter nonskip toks ++ [(t, token l)]) (l, p)) as H.
      { apply wp_on_bank. eapply wp_mono; [by apply process_token_wp|].
        intros [] p1 (H1 & ->). split; [done|]. split; [done|]. by rewrite fmap_app, Hlog. }
      by destruct t.
    - destruct t; try (exfalso; by apply Hsk). wp_step. split; [done|]. split; [done|].
      by rewrite app_nil_r. }
  intros [] [l1 p1] (-> & Hp1 & Hlog1). wp_step. apply set_lexer_wp. wp_step. apply set_lexer_wp.
  wp_step. split; [done|]. split; [done|]. cbn [token state upd]. split; [|split].
  - exists (toks ++ [(t, token l)]). split; [done|]. split.
    + apply Forall_app. split; [done|]. by constructor.
    + rewrite fmap_app, concat_app. cbn. unfold qstring_append.
      destruct (c =? 0); by rewrite !app_nil_r, Hcons.
  - destruct (cell_start_state c) as [s' Hs']. exists s'. split; [done|]. cbn [token upd].
    destruct (Z.eq_dec c 0) as [->|H0]; [left; vm_compute in Hs'; congruence|].
    rewrite append_snoc by done.
    pose proof (reads_step IN_START [] c Hc eq_refl) as H. rewrite Hs' in H.
    destruct s'; [by left|right; exact H..].
  - by intros ->.
Qed.

Lemma feed_char_wp consumed toks l p c : 0 <= c <= 255 ->
  lexed consumed toks l p -> lex_state l -> stream_inv p ->
  wp no_err (json_lexer_feed_char json_message_process_token c) (fun r '(l', p') =>
    stream_inv p' /\
    (r = 0 /\ (exists toks', lexed (qstring_append consumed c) toks' l' p') /\ lex_state l' /\ nul_ends c l' \/
     r = - EINVAL /\ lexed consumed toks l' p' /\ state l' = St ERROR /\ token l' = token l)) (l, p).
Proof.
  intros Hc Hlx (s & Hs & Hrd) Hp. unfold json_lexer_feed_char.
  wp_step. apply set_lexer_wp. wp_step.
  apply (wp_mono _ _ (fun _ '(l1, p1) => p1 = p /\ state l1 = St s /\ token l1 = token l)).
  { apply wp_when. destruct (c =? 10); [|done]. by apply set_lexer_wp. }
  intros [] [l1 p1] (-> & Hs1 & Ht1). wp_step. apply get_lexer_wp. wp_step. rewrite Hs1.
  cbn [cell_of]. apply wp_deref_Some. wp_step. apply set_lexer_wp.
  assert (lexed consumed toks (l1 <| state := cell s c |>) p) as Hlx1
    by (unfold lexed in *; cbn [token upd]; by rewrite Ht1).
  assert (leads_to (cell s c) (token l) c) as Hstep
    by (destruct Hrd as [->|Hrd]; [exact I|by apply reads_step]).
  destruct (cell s c) as [s'|t] eqn:Ecell.
  - destruct (decide (s' = ERROR)) as [->|Hne].
    { wp_step. split; [done|]. right. done. }
    assert (c <> 0) as H0 by (intros ->; destruct (cell_nul s) as [H|[t H]]; congruence).
    assert (wp no_err (set_lexer (fun l => l <| token := qstring_append (token l) c |>) ;; mret 0)
      (fun r '(l', p') => stream_inv p' /\
        (r = 0 /\ (exists toks', lexed (qstring_append consumed c) toks' l' p') /\ lex_state l' /\ nul_ends c l' \/
         r = - EINVAL /\ lexed consumed toks l' p' /\ state l' = St ERROR /\ token l' = token l))
      (l1 <| state := St s' |>, p)) as H; [|by destruct s'].
    wp_step. apply set_lexer_wp. wp_step. split; [done|]. left. split; [done|].
    rewrite !append_snoc by done. cbn [token state upd]. rewrite Ht1. split_and!.
    + exists toks. destruct Hlx as (H1 & H2 & H3). split; [done|]. split; [done|]. cbn [token upd].
      by rewrite app_assoc, H3.
    + exists s'. split; [done|]. right. cbn [token upd]. by destruct s'.
    + by intros ->.
  - eapply wp_mono; [eapply (token_end_wp consumed toks _ p _ t c Hc Hlx1 Hp); [|reflexivity]|].
    + cbn [token upd]. by rewrite Ht1.
    + intros r [l' p'] (H1 & H2 & H3). split; [done|]. by left.
Qed.

(** What has been accepted: the token texts, and a NUL if it ended one. *)
Definition accepts (consumed accepted : list Z) toks (l : JSONLexer) (p : JSONMessageParser) : Prop :=
  exists text nul, accepted = text ++ nul /\ lexed (consumed ++ text) toks l p /\
    (nul = [] \/ nul = [0] /\ state l = St ERROR /\ token l = []).
Lemma accepts_lexed consumed nul toks l p : lexed consumed toks l p ->
  (nul = [] \/ nul = [0] /\ state l = St ERROR /\ token l = []) -> accepts consumed nul toks l p.
Proof. intros H Hn. exists [], nul. by rewrite app_nil_r. Qed.
Lemma feed_wp bs consumed toks l p : Forall (fun c => 0 <= c <= 255) bs ->
  lexed consumed toks l p -> lex_state l -> stream_inv p ->
  wp no_err (json_message_parser_feed bs) (fun r '(l', p') => stream_inv p' /\
    exists done toks', accepts consumed done toks' l' p' /\
    (r = 0 /\ done = bs /\ lex_state l' \/
     r = - EINVAL /\ state l' = St ERROR /\ exists c rest, bs = done ++ c :: rest)) (l, p).
Proof.
  unfold json_message_parser_feed. revert consumed toks l p.
  induction bs as [|c bs IH]; intros consumed toks l p Hbs Hlx Hst Hp; cbn [json_lexer_feed].
  - wp_step. split; [done|]. exists [], toks. split; [|by left]. apply accepts_lexed; [done|by left].
  - apply Forall_cons_1 in Hbs as [Hc Hbs]. wp_step.
    eapply wp_mono; [by apply (feed_char_wp consumed toks l p c)|].
    intros r [l1 p1] (Hp1 & [(-> & (toks1 & Hlx1) & Hst1 & Hn)|(-> & Hlx1 & Hst1 & _)]).
    + cbn [Z.ltb Z.compare].
      destruct (Z.eq_dec c 0) as [->|H0].
      { destruct (Hn eq_refl) as [Hs1 Ht1].
        assert (accepts consumed [0] toks1 l1 p1) as Hacc
          by (apply accepts_lexed; [done|by right]).
        destruct bs as [|c' bs].
        - cbn [json_lexer_feed]. wp_step. split; [done|]. exists [0], toks1. split; [done|]. by left.
        - eapply wp_mono; [by apply (feed_dead json_message_process_token c' bs l1 p1)|].
          intros r [l2 p2] (-> & -> & Hs2 & Ht2). split; [done|]. exists [0], toks1. split.
          + apply accepts_lexed; [|right; split_and!; congruence].
            destruct Hlx1 as (X1 & X2 & X3). split; [done|]. split; [done|]. by rewrite Ht2.
          + right. split; [done|]. split; [done|]. by exists c', bs. }
      eapply wp_mono; [by apply (IH (qstring_append consumed c) toks1 l1 p1)|].
      intros r [l2 p2] (Hp2 & d & toks2 & (tx & nul & -> & Hlx2 & Hnul) & H). split; [done|].
      exists (c :: tx ++ nul), toks2. split.
      * exists (c :: tx), nul. by rewrite append_snoc, <- app_assoc in Hlx2.
      * destruct H as [(-> & -> & H)|(-> & H & c' & rest & ->)]; [by left|right].
        split; [done|]. split; [done|]. by exists c', rest.
    + change (- EINVAL <? 0) with true. cbv iota. wp_step. split; [done|]. exists [], toks.
      split; [apply accepts_lexed; [done|by left]|].
      right. split; [done|]. split; [done|]. by exists c, bs.
Qed.

(** ** Running the table: the path of a token *)
Fixpoint run (s : json_lexer_state) (t : list Z) : option json_lexer_state :=
  match t with
  | [] => Some s
  | c :: t => match cell s c with St ERROR | Tok _ => None | St s' => run s' t end
  end.

Lemma run_app s t1 t2 : run s (t1 ++ t2) = s' ← run s t1; run s' t2.
Proof.
  revert s. induction t1 as [|c t1 IH]; intros s; cbn [app run]; [done|].
  destruct (cell s c) as [[]|]; first [done | apply IH].
Qed.
(** The cell of a byte known up to its bounds. *)
Ltac run_cell :=
  unfold run, cell; cbn [row string_row fold_left];
  repeat match goal with
  | |- context [if (?lo <=? ?c) && (?c <=? ?hi) then _ else _] =>
      destruct (Z.leb_spec lo c), (Z.leb_spec c hi); cbn [andb]; try (exfalso; lia)
  end; reflexivity.
Ltac in_list H :=
  repeat (apply elem_of_cons in H as [->|H]); [..|by apply elem_of_nil in H].

Definition string_state (q : Z) : json_lexer_state := if q =? 34 then IN_DQ_STRING else IN_SQ_STRING.
Lemma run_hex q h1 h2 h3 h4 : q = 34 \/ q = 39 -> hex h1 -> hex h2 -> hex h3 -> hex h4 ->
  run (string_state q) [92; 117; h1; h2; h3; h4] = Some (string_state q).
Proof.
  intros Hq H1 H2 H3 H4.
  assert (forall s h s' l, hex h -> cell s 48 = St s' -> s' <> ERROR ->
    s ∈ [IN_DQ_UCODE0; IN_DQ_UCODE1; IN_DQ_UCODE2; IN_DQ_UCODE3;
         IN_SQ_UCODE0; IN_SQ_UCODE1; IN_SQ_UCODE2; IN_SQ_UCODE3] -> run s (h :: l) = run s' l) as Hstep.
  { intros s h s' l Hh Hs Hne Hin. cbn [run]. enough (cell s h = cell s 48) as ->; [rewrite Hs; by destruct s'|].
    clear Hs Hne. unfold hex in Hh. in_list Hin; run_cell. }
  destruct Hq as [-> | ->];
    [change (run IN_DQ_UCODE0 [h1; h2; h3; h4] = Some IN_DQ_STRING)
    |change (run IN_SQ_UCODE0 [h1; h2; h3; h4] = Some IN_SQ_STRING)];
    do 4 (erewrite Hstep; [|done|reflexivity|discriminate|in_states]); reflexivity.
Qed.
Lemma run_body q b : q = 34 \/ q = 39 -> str_body q b -> run (string_state q) b = Some (string_state q).
Proof.
  intros Hq. induction 1 as [|b c Hb IH H1 H2 H3|b c Hb IH Hc|b h1 h2 h3 h4 Hb IH]; [done| | |];
    rewrite run_app, IH; cbn [mbind option_bind].
  - destruct Hq as [-> | ->]; cbn [string_state Z.eqb Pos.eqb]; run_cell.
  - destruct Hq as [-> | ->]; in_list Hc; reflexivity.
  - by apply run_hex.
Qed.
Lemma run_string q b : q = 34 \/ q = 39 -> str_body q b ->
  run IN_START (q :: b ++ [q]) = Some IN_DONE_STRING.
Proof.
  intros Hq Hb. change (q :: b ++ [q]) with ([q] ++ b ++ [q]). rewrite run_app.
  replace (run IN_START [q]) with (Some (string_state q)) by (by destruct Hq as [-> | ->]).
  cbn [mbind option_bind]. rewrite run_app, run_body by done. by destruct Hq as [-> | ->].
Qed.

Lemma run_nonzero l : nonzero l -> run IN_START l = Some IN_NONZERO_NUMBER.
Proof.
  induction 1 as [c Hc|c Hc|l c Hl IH Hc]; [run_cell|change (run IN_NEG_NONZERO_NUMBER [c] = Some IN_NONZERO_NUMBER); run_cell|].
  unfold digit in Hc. rewrite run_app, IH. cbn [mbind option_bind]. run_cell.
Qed.
Lemma run_integer l : integer l ->
  exists s, run IN_START l = Some s /\ (s = IN_ZERO \/ s = IN_NONZERO_NUMBER).
Proof. intros [| |l' Hl]; [by eauto|by eauto|]. rewrite run_nonzero by done. eauto. Qed.
Lemma run_fraction l : fraction l -> run IN_START l = Some IN_MANTISSA_DIGITS.
Proof.
  induction 1 as [l c Hl Hc|l c Hl IH Hc]; unfold digit in Hc; rewrite run_app.
  - destruct (run_integer l Hl) as (s & -> & [-> | ->]); cbn [mbind option_bind];
      (change (run IN_MANTISSA [c] = Some IN_MANTISSA_DIGITS)); run_cell.
  - rewrite IH. cbn [mbind option_bind]. run_cell.
Qed.
Lemma run_mantissa l e : mantissa l -> exp_char e -> run IN_START (l ++ [e]) = Some IN_EXP_E.
Proof.
  intros [Hl|Hl] He; rewrite run_app; rewrite ?run_nonzero, ?run_fraction by done; by destruct He as [-> | ->].
Qed.
Lemma run_scientific l : scientific l -> run IN_START l = Some IN_DIGITS.
Proof.
  induction 1 as [l e c Hl He Hc|l e g c Hl He Hg Hc|l c Hl IH Hc]; unfold digit in Hc.
  - change [e; c] with ([e] ++ [c]). rewrite app_assoc, run_app, run_mantissa by done.
    cbn [mbind option_bind]. run_cell.
  - change [e; g; c] with ([e] ++ [g; c]). rewrite app_assoc, run_app, run_mantissa by done.
    cbn [mbind option_bind]. destruct Hg as [-> | ->]; (change (run IN_DIGIT [c] = Some IN_DIGITS)); run_cell.
  - rewrite run_app, IH. cbn [mbind option_bind]. run_cell.
Qed.
(** A run of letters or of spaces stays in its state. *)
Lemma run_repeat (P : Z -> Prop) s t : (forall c, P c -> cell IN_START c = St s) ->
  (forall c, P c -> cell s c = St s) -> s <> ERROR -> t <> [] -> Forall P t -> run IN_START t = Some s.
Proof.
  intros H1 H2 Hs Hne Ht. destruct t as [|c t]; [done|].
  apply Forall_cons_1 in Ht as [Hc Ht]. cbn [run]. rewrite H1 by done.
  enough (run s t = Some s) by (by destruct s).
  clear -H2 Hs Ht. induction Ht as [|c t Hc Ht IH]; [done|]. cbn [run]. rewrite H2 by done. by destruct s.
Qed.

(** Every token leads to a state that a comma ends with the token's type. *)
Lemma run_token ty t : is_token ty t ->
  exists s, run IN_START t = Some s /\ cell s 44 = Tok ty.
Proof.
  destruct ty; cbn [is_token].
  - intros (c & Hc & ->). exists IN_OPERATOR_DONE. in_list Hc; done.
  - intros H. destruct (run_integer t H) as (s & -> & [-> | ->]); eauto.
  - intros [H|H]; [rewrite run_fraction by done|rewrite run_scientific by done]; eauto.
  - intros [Hne H]. exists IN_KEYWORD. split; [|done].
    apply (run_repeat letter); [unfold letter; intros c Hc..|done|done|done]; run_cell.
  - intros (q & b & Hq & Hb & ->). exists IN_DONE_STRING. split; [by apply run_string|done].
  - intros H. exists IN_ESCAPE_DONE. in_list H; done.
  - intros [Hne H]. exists IN_WHITESPACE. split; [|done].
    apply (run_repeat space); [intros c Hc; in_list Hc; done..|done|done|done].
Qed.

(** ** Feeding along a run, and when the lexer is in an error *)
Section feeding.
  Context {M : Type} (emit : list Z -> json_token_type -> Z -> Z -> ST M unit).

Lemma feed_char_St s s' c l (m : M) : state l = St s -> cell s c = St s' -> s' <> ERROR -> c <> 0 ->
  wp no_err (json_lexer_feed_char emit c) (fun r '(l', m') => r = 0 /\ m' = m /\
    state l' = St s' /\ token l' = token l ++ [c]) (l, m).
Proof.
  intros Hs Hc Hne H0. unfold json_lexer_feed_char.
  wp_step. apply set_lexer_wp. wp_step.
  apply (wp_mono _ _ (fun _ '(l1, m1) => m1 = m /\ state l1 = St s /\ token l1 = token l)).
  { apply wp_when. destruct (c =? 10); [|done]. by apply set_lexer_wp. }
  intros [] [l1 m1] (-> & Hs1 & Ht1). wp_step. apply get_lexer_wp. wp_step. rewrite Hs1.
  cbn [cell_of]. apply wp_deref_Some. wp_step. apply set_lexer_wp. rewrite Hc.
  assert (wp no_err (set_lexer (fun l => l <| token := qstring_append (token l) c |>) ;; mret 0)
    (fun r '(l', m') => r = 0 /\ m' = m /\ state l' = St s' /\ token l' = token l ++ [c])
    (l1 <| state := St s' |>, m)) as H; [|by destruct s'].
  wp_step. apply set_lexer_wp. wp_step. unfold qstring_append. rewrite (proj2 (Z.eqb_neq c 0)) by done.
  cbn. by rewrite Ht1.
Qed.
Lemma feed_run t s s' l (m : M) : Forall (fun c => c <> 0) t -> state l = St s -> run s t = Some s' ->
  wp no_err (json_lexer_feed emit t) (fun r '(l', m') => r = 0 /\ m' = m /\
    state l' = St s' /\ token l' = token l ++ t) (l, m).
Proof.
  revert s l. induction t as [|c t IH]; intros s l Hnz Hs Hrun; cbn [json_lexer_feed run] in *.
  - injection Hrun as ->. wp_step. by rewrite app_nil_r.
  - apply Forall_cons_1 in Hnz as [Hc Hnz].
    assert (exists s1, cell s c = St s1 /\ s1 <> ERROR /\ run s1 t = Some s') as (s1 & E & Hne & Hr)
      by (destruct (cell s c) as [[]|]; try discriminate Hrun; eauto; by eexists; split).
    wp_step. eapply wp_mono; [by apply (feed_char_St s s1 c l m)|].
    intros r [l1 m1] (-> & -> & Hs1 & Ht1). cbn [Z.ltb Z.compare].
    eapply wp_mono; [by apply (IH s1 l1)|].
    intros r [l2 m2] (-> & -> & Hs2 & Ht2). split_and!; [done..|]. by rewrite Ht2, Ht1, <- app_assoc.
Qed.
Lemma feed_app t1 t2 l (m : M) Q :
  wp no_err (json_lexer_feed emit t1) (fun r s' => r = 0 /\ wp no_err (json_lexer_feed emit t2) Q s') (l, m) ->
  wp no_err (json_lexer_feed emit (t1 ++ t2)) Q (l, m).
Proof.
  generalize (l, m). clear l m. induction t1 as [|c t1 IH]; intros s; cbn [json_lexer_feed app].
  - intros H. by apply wp_ret in H as [_ H].
  - intros H. apply (proj1 (wp_bind _ _ _ _ _)) in H. wp_step. eapply wp_mono; [exact H|].
    intros r s1 H1. cbv beta in H1. destruct (r <? 0) eqn:Er; [|by apply IH].
    apply wp_ret in H1 as [-> _]. discriminate Er.
Qed.

End feeding.

(** A byte that ends a token of type [ty0]. *)
Lemma end_char_wp ty0 s0 s1 c l p : state l = St s0 -> cell s0 c = Tok ty0 -> cell IN_START c = St s1 ->
  stream_inv p ->
  wp no_err (json_lexer_feed_char json_message_process_token c) (fun r '(l', p') =>
    r = 0 /\ state l' = St s1 /\ (c <> 0 -> token l' = [c]) /\ stream_inv p' /\
    exists cx cy, seen p' = seen p ++ filter (fun k => ty k <> JSON_SKIP) [mkToken ty0 (token l) cx cy]) (l, p).
Proof.
  intros Hs Hcell Hstart Hp. unfold json_lexer_feed_char. wp_step. apply set_lexer_wp. wp_step.
  apply (wp_mono _ _ (fun _ '(l1, p1) => p1 = p /\ state l1 = St s0 /\ token l1 = token l)).
  { apply wp_when. destruct (c =? 10); [|done]. by apply set_lexer_wp. }
  intros [] [l1 p1] (-> & Hs1 & Ht1). wp_step. apply get_lexer_wp. wp_step. rewrite Hs1.
  cbn [cell_of]. apply wp_deref_Some. wp_step. apply set_lexer_wp. rewrite Hcell.
  wp_step. apply get_lexer_wp. wp_step.
  apply (wp_mono _ _ (fun _ '(l', p') => stream_inv p' /\ exists cx cy,
    seen p' = seen p ++ filter (fun k => ty k <> JSON_SKIP) [mkToken ty0 (token l) cx cy])).
  { cbn [token x y upd] in *. rewrite Ht1.
    assert (ty0 <> JSON_SKIP -> wp no_err (on_bank (json_message_process_token (token l) ty0 (x l1) (y l1)))
      (fun _ '(l', p') => stream_inv p' /\ exists cx cy,
        seen p' = seen p ++ filter (fun k => ty k <> JSON_SKIP) [mkToken ty0 (token l) cx cy])
      (l1 <| state := Tok ty0 |>, p)) as Hemit.
    { intros Hns. apply wp_on_bank. eapply wp_mono; [by apply process_token_wp|].
      intros [] p' (Hp' & ->). split; [done|]. exists (x l1), (y l1). by rewrite filter_cons, decide_True. }
    destruct ty0; try (by apply Hemit). wp_step. split; [done|]. exists 0, 0. by rewrite app_nil_r. }
  intros [] [l2 p2] [Hp2 Hseen]. wp_step. apply set_lexer_wp. wp_step. apply set_lexer_wp. wp_step.
  cbn [state token upd]. split_and!; [done|done| |done|done].
  intros Hc. unfold qstring_append. by rewrite (proj2 (Z.eqb_neq c 0)).
Qed.

(** The flush ends a token if there is one, and leaves the state ERROR. *)
Lemma flush_wp s l p : state l = St s -> stream_inv p ->
  wp no_err json_message_parser_flush (fun r '(l', p') => state l' = St ERROR /\ stream_inv p') (l, p).
Proof.
  intros Hs Hp. unfold json_message_parser_flush, json_lexer_flush. destruct (cell_nul s) as [Hz|[t Hz]].
  - eapply wp_mono; [by eapply feed_char_ERROR|]. intros r [l' p'] (_ & -> & H & _). done.
  - eapply wp_mono; [by apply (end_char_wp t s ERROR 0 l p)|].
    intros r [l' p'] (_ & H & _ & Hp' & _). done.
Qed.

Lemma is_token_nonzero ty t : is_token ty t -> Forall (fun c => c <> 0) t.
Proof.
  assert (forall q b, str_body q b -> Forall (fun c => c <> 0) b) as Hb.
  { induction 1 as [|b c Hb IH H1 H2 H3|b c Hb IH Hc|b h1 h2 h3 h4 Hb IH H1 H2 H3 H4]; [done|..];
      apply Forall_app; (split; [done|]); repeat constructor; try done; try lia;
      try (in_list Hc; done); unfold hex in *; lia. }
  assert (forall l, nonzero l -> Forall (fun c => c <> 0) l) as Hn.
  { induction 1; try apply Forall_app; repeat constructor; try done; unfold digit in *; lia. }
  assert (forall l, integer l -> Forall (fun c => c <> 0) l) as Hi.
  { intros l [| |l' Hl]; [by repeat constructor..|by apply Hn]. }
  assert (forall l, fraction l -> Forall (fun c => c <> 0) l) as Hf.
  { induction 1; apply Forall_app; (split; [by auto|]); repeat constructor; unfold digit in *; lia. }
  assert (forall l, scientific l -> Forall (fun c => c <> 0) l) as Hs.
  { assert (forall l, mantissa l -> Forall (fun c => c <> 0) l) as Hm by (intros l []; auto).
    induction 1; apply Forall_app; (split; [by auto|]); repeat constructor;
      unfold digit, exp_char in *; lia. }
  destruct ty; cbn [is_token].
  - intros (c & Hc & ->). constructor; [|done]. by in_list Hc.
  - apply Hi.
  - intros [H|H]; auto.
  - intros [_ H]. eapply Forall_impl; [|exact H]. unfold letter. intros; lia.
  - intros (q & b & Hq & Hbb & ->). constructor; [lia|]. apply Forall_app. split; [by eapply Hb|].
    repeat constructor. lia.
  - intros H. in_list H; by repeat constructor.
  - intros [_ H]. eapply Forall_impl; [|exact H]. unfold space. intros c Hc. by in_list Hc.
Qed.

(** No row continues an escaped backslash or slash. *)
Lemma feed_bad_escape b esc bs l p : state l = St IN_START -> str_body 34 b -> esc = 92 \/ esc = 47 ->
  wp no_err (json_message_parser_feed ((34 :: b) ++ [92; esc] ++ bs)) (fun r '(l', p') =>
    r = - EINVAL /\ p' = p /\ state l' = St ERROR) (l, p).
Proof.
  intros Hs Hb Hesc. apply feed_app.
  assert (is_token JSON_STRING (34 :: b ++ [34])) as Ht by (exists 34, b; by split_and!; [left|..]).
  apply is_token_nonzero, Forall_cons_1 in Ht as [_ [Hnz _]%Forall_app].
  eapply wp_mono; [apply (feed_run json_message_process_token (34 :: b) IN_START IN_DQ_STRING l p)|].
  - by constructor.
  - done.
  - exact (run_body 34 b (or_introl eq_refl) Hb).
  - intros r [l1 p1] (-> & -> & Hs1 & Ht1). split; [done|]. cbn [json_lexer_feed app]. wp_step.
    eapply wp_mono; [by apply (feed_char_St _ IN_DQ_STRING IN_DQ_STRING_ESCAPE 92 l1 p)|].
    intros r [l2 p2] (-> & -> & Hs2 & _). cbn [Z.ltb Z.compare json_lexer_feed]. wp_step.
    eapply wp_mono; [apply (feed_char_ERROR _ IN_DQ_STRING_ESCAPE esc l2 p);
      [done|by destruct Hesc as [-> | ->]]|].
    intros r [l3 p3] (-> & -> & H3 & _). change (- EINVAL <? 0) with true. cbv iota. by wp_step.
Qed.

(** ** Any use of a parser *)
(** The calls a client makes between init and destroy, in its order. *)
Inductive parser_call : Type := Feed (buffer : list Z) | Flush.
Fixpoint parser_calls (cs : list parser_call) : ST (JSONLexer * JSONMessageParser) unit :=
  match cs with
  | [] => mret tt
  | Feed buffer :: cs => json_message_parser_feed buffer ;; parser_calls cs
  | Flush :: cs => json_message_parser_flush ;; parser_calls cs
  end.
(** The bytes the calls hand to the lexer; a flush is a NUL. *)
Definition call_bytes (c : parser_call) : list Z := match c with Feed buffer => buffer | Flush => [0] end.

Definition live (m : JSONLexer * JSONMessageParser) : Prop :=
  (exists s, state m.1 = St s) /\ stream_inv m.2.
Lemma start_inv : stream_inv json_message_parser_init.
Proof. split_and!; [done| |by left|done]. intros l1 l2 E H1. by destruct l1. Qed.

(** The tokens seen, and the one that may be held: at most one per byte. *)
Definition load (m : JSONLexer * JSONMessageParser) : nat :=
  (length (seen m.2) + if decide (state m.1 = St IN_START) then 0 else 1)%nat.

(** One byte in any state: the parser gets at most the token that ends. *)
Lemma feed_char_live c m : live m -> wp no_err (json_lexer_feed_char json_message_process_token c)
  (fun r m' => live m' /\ (r = 0 \/ r = - EINVAL /\ state m'.1 = St ERROR) /\
    (load m' <= S (load m))%nat /\ (length (seen m'.2) <= load m)%nat) m.
Proof.
  destruct m as [l p]. intros [[s Hs] Hp]. unfold load. cbn [fst snd] in *.
  destruct (cell s c) as [s'|t] eqn:E.
  - unfold json_lexer_feed_char. wp_step. apply set_lexer_wp. wp_step.
    apply (wp_mono _ _ (fun _ '(l1, p1) => p1 = p /\ state l1 = St s)).
    { apply wp_when. destruct (c =? 10); [|done]. by apply set_lexer_wp. }
    intros [] [l1 p1] (-> & Hs1). wp_step. apply get_lexer_wp. wp_step. rewrite Hs1.
    cbn [cell_of]. apply wp_deref_Some. rewrite E. wp_step. apply set_lexer_wp.
    destruct s'; wp_step; try (apply set_lexer_wp; wp_step); (split; [split; [by eexists|done]|]);
      (split; [first [by left | by right]|]); cbn [fst snd]; repeat case_decide; lia.
  - destruct (cell_start_state c) as [s1 H1].
    eapply wp_mono; [by apply (end_char_wp t s s1 c l p)|].
    intros r [l' p'] (-> & Hs' & _ & Hp' & cx & cy & Hseen). split; [split; [by eexists|done]|split; [by left|]].
    cbn [fst snd]. rewrite Hseen, length_app, filter_cons, filter_nil.
    assert (s <> IN_START) as Hne by (intros ->; congruence). rewrite Hs.
    rewrite (decide_False (P := St s = _)) by congruence. repeat case_decide; cbn [length]; lia.
Qed.
Lemma feed_live bs m : live m -> wp no_err (json_message_parser_feed bs)
  (fun r m' => live m' /\ (r = 0 \/ r = - EINVAL /\ state m'.1 = St ERROR) /\
    (load m' <= load m + length bs)%nat) m.
Proof.
  unfold json_message_parser_feed. revert m. induction bs as [|c bs IH]; intros m Hm; cbn [json_lexer_feed length].
  - wp_step. split_and!; [done|by left|lia].
  - wp_step. eapply wp_mono; [by apply feed_char_live|].
    intros r m1 (Hm1 & Hr & Hl & _). destruct Hr as [-> | (-> & Hs)]; cbn [Z.ltb Z.compare].
    + eapply wp_mono; [by apply IH|]. intros r m2 (Hm2 & Hr & Hl2). split_and!; [done|done|lia].
    + change (- EINVAL <? 0) with true. cbv iota. wp_step. split_and!; [done|by right|lia].
Qed.
(** A parser sees the same whether its bytes come in one piece or in two. *)
Lemma feed_cut b1 b2 m (Q : JSONMessageParser -> Prop) : live m ->
  wp no_err (json_message_parser_feed (b1 ++ b2)) (fun _ m' => Q m'.2) m ->
  wp no_err (json_message_parser_feed b1 ;; json_message_parser_feed b2) (fun _ m' => Q m'.2) m.
Proof.
  unfold json_message_parser_feed. revert m. induction b1 as [|c b1 IH]; intros m Hm; cbn [json_lexer_feed app]; intros H.
  - wp_steps. exact H.
  - apply (proj1 (wp_bind _ _ _ _ _)) in H. wp_step. wp_step.
    eapply wp_mono; [apply (wp_and _ _ _ _ _ (feed_char_live c m Hm) H)|].
    intros r m1 ((Hm1 & [-> | (-> & Hs)] & _) & HQ); cbv beta in HQ.
    + cbn [Z.ltb Z.compare] in *. apply (proj1 (wp_bind _ _ _ _ _)). by apply IH.
    + change (- EINVAL <? 0) with true in *. cbv iota in *. apply wp_ret in HQ. wp_step.
      destruct b2 as [|c2 b2]; [cbn [json_lexer_feed]; by wp_step|]. destruct m1 as [l1 p1].
      eapply wp_mono; [by apply feed_dead|]. intros r [l2 p2] (_ & -> & _). exact HQ.
Qed.
Lemma flush_is_feed m Q : wp no_err (json_message_parser_feed [0]) (fun _ => Q) m ->
  wp no_err json_message_parser_flush (fun _ => Q) m.
Proof.
  unfold json_message_parser_feed, json_message_parser_flush, json_lexer_flush. cbn [json_lexer_feed].
  intros H. apply (proj1 (wp_bind _ _ _ _ _)) in H. eapply wp_mono; [exact H|].
  intros r m' Hm. cbv beta in Hm. destruct (r <? 0); by apply wp_ret in Hm.
Qed.
Lemma calls_live cs m (Q : JSONMessageParser -> Prop) : live m ->
  wp no_err (json_message_parser_feed (concat (call_bytes <$> cs))) (fun _ m' => Q m'.2) m ->
  wp no_err (parser_calls cs) (fun _ m' => live m' /\ Q m'.2) m.
Proof.
  revert m. induction cs as [|c cs IH]; intros m Hm H.
  - cbn [parser_calls]. wp_step. split; [done|]. by apply wp_ret in H.
  - cbn [fmap list_fmap concat] in H. apply feed_cut in H; [|done]. apply (proj1 (wp_bind _ _ _ _ _)) in H.
    pose proof (wp_and _ _ _ _ _ (feed_live (call_bytes c) m Hm) H) as H1.
    assert (wp no_err (json_message_parser_feed (call_bytes c)) (fun _ m1 => wp no_err (parser_calls cs)
      (fun _ m' => live m' /\ Q m'.2) m1) m) as H2.
    { eapply wp_mono; [exact H1|]. intros r m1 ([Hm1 _] & HQ). by apply IH. }
    destruct c as [buffer|]; cbn [parser_calls call_bytes] in *; wp_step; [exact H2|by apply flush_is_feed].
Qed.

(** A byte, and a character of a C string. *)
Definition octet (c : Z) : Prop := 0 <= c <= 255.
Definition byte (c : Z) : Prop := 1 <= c <= 255.
Definition parser_start : JSONLexer * JSONMessageParser := (json_lexer_init, json_message_parser_init).

Lemma start_live : live parser_start.
Proof. split; [by exists IN_START|apply start_inv]. Qed.
(** A text and its end: at most one token per byte. *)
Lemma text_wp string : wp no_err (json_message_parser_feed string ;; json_message_parser_flush)
  (fun _ '(_, p) => stream_inv p /\ (length (seen p) <= length string)%nat) parser_start.
Proof.
  wp_step. eapply wp_mono; [apply feed_live, start_live|]. intros r m (Hm & _ & Hl).
  eapply wp_mono; [by apply feed_char_live|]. intros r' [l p] ([_ Hp] & _ & _ & Hs). cbn [snd] in *.
  change (load parser_start) with 0%nat in Hl. split; [done|lia].
Qed.
Lemma message_length msg p : msg ∈ messages p -> (length msg <= length (seen p))%nat.
Proof.
  intros Hin. unfold seen. rewrite length_app. induction (messages p) as [|m ms IH]; [by apply elem_of_nil in Hin|].
  cbn [concat]. rewrite length_app. apply elem_of_cons in Hin as [-> |Hin]; [lia|]. specialize (IH Hin). lia.
Qed.

(** ** Properties *)


(** Every token of the grammar is recognised whole: fed from the start state and followed by a
    comma it is accepted, the streamer gets exactly this token with its type (nothing for
    white space), and the comma is the beginning of the next token. *)
Theorem json_lexer_complete ty0 t l p (Ht : is_token ty0 t) (Hp : stream_inv p)
    (Hl : state l = St IN_START) (Htok : token l = []) :
  wp no_err (json_message_parser_feed (t ++ [44])) (fun r '(l', p') =>
    r = 0 /\ state l' = St IN_OPERATOR_DONE /\ token l' = [44] /\
    exists cx cy, seen p' = seen p ++ filter (fun k => ty k <> JSON_SKIP) [mkToken ty0 t cx cy]) (l, p).
Proof.
  destruct (run_token ty0 t Ht) as (s & Hrun & Hcell). apply feed_app.
  eapply wp_mono; [apply (feed_run json_message_process_token t IN_START s l p); [by eapply is_token_nonzero|done..]|].
  intros r [l1 p1] (-> & -> & Hs1 & Ht1). split; [done|]. rewrite Htok in Ht1.
  cbn [json_lexer_feed]. wp_step.
  eapply wp_mono; [by apply (end_char_wp ty0 s IN_OPERATOR_DONE 44 l1 p)|].
  intros r [l2 p2] (-> & Hs2 & Ht2 & _ & Hseen). cbn [Z.ltb Z.compare]. wp_step.
  rewrite Ht1 in Hseen. split_and!; [done|done|by apply Ht2|done].
Qed.
Example json_lexer_complete_witness :
  wp no_err (json_message_parser_feed ([45; 49; 46; 53; 101; 43; 55] ++ [44])) (fun r _ => r = 0) parser_start.
Proof.
  eapply wp_mono; [apply (json_lexer_complete JSON_FLOAT [45; 49; 46; 53; 101; 43; 55])|].
  - right. apply (sci_sign [45; 49; 46; 53] 101 43 55); [|by left|by left|done].
    right. apply (frac_one [45; 49] 53); [|done]. apply int_nonzero. by apply nz_neg.
  - split_and!; [done| |by left|done]. intros l1 l2 E H1. by destruct l1.
  - done.
  - done.
  - intros r [l' p'] H. apply H.
Defined.

(** C30: what the parser's callback gets is a message: a list of tokens that opens and closes
    equally many braces, and equally many brackets, at its last token and at no earlier
    one (the two counts of the code; neither nesting nor the order of an opening and a
    closing token is checked, so "}{" is a message and a lone "}" is held until a "{"
    comes).  This holds after any sequence of feeds and flushes on a new parser,
    including those after an error; put together with the tokens still held, whose
    counts are not both zero, the messages are the tokens seen, in order; and they do not
    depend on how the bytes are cut into feeds, a flush being one NUL byte.  The counts
    are ints: for a message of fewer than 2^31 tokens they are the exact numbers. *)
Theorem json_messages (cs : list parser_call) :
  wp no_err (parser_calls cs) (fun _ '(l, p) =>
    Forall (fun msg => is_message msg /\ (Z.of_nat (length msg) < 2 ^ 31 -> depth msg = (0, 0) /\
      forall l1 l2, msg = l1 ++ l2 -> l1 <> [] -> l2 <> [] -> depth l1 <> (0, 0))) (messages p) /\
    (tokens p = [] \/ ~ settled (tokens p)) /\ open_inside (tokens p) /\
    (brace_count p, bracket_count p) = counts (tokens p) /\
    exists l1, exec (json_message_parser_feed (concat (call_bytes <$> cs))) parser_start = Some (l1, p)) parser_start.
Proof.
  pose proof start_live as Hstart.
  pose proof (feed_live (concat (call_bytes <$> cs)) parser_start Hstart) as Hone.
  apply wp_total_ex in Hone as (r & [l1 p1] & E & _).
  eapply wp_mono; [apply (calls_live cs _ (fun p => p = p1) Hstart); unfold wp; by rewrite E|].
  intros [] [l p] [[_ (Hm & Ho & Ht & Hc)] Hp]. cbn [snd] in *. subst p.
  split_and!; [|done|done|done|exists l1; unfold exec; by rewrite E].
  eapply List.Forall_impl; [|exact Hm]. intros msg Hmsg. split; [done|]. intros Hl.
  destruct Hmsg as (_ & Hz & Hin). unfold settled in Hz. rewrite counts_depth in Hz by done. split; [done|].
  intros m1 m2 -> H1 H2 Hd. apply (Hin m1 m2 eq_refl H1 H2). unfold settled. rewrite length_app in Hl.
  by rewrite counts_depth by lia.
Qed.

(** "[1]}" in two feeds, then "{" and the flush: two messages, the second of them "}{". *)
Definition sample_calls : list parser_call := [Feed [91; 49]; Feed [93; 125]; Feed [123]; Flush].
Example json_messages_witness :
  (fun s => List.map text <$> messages s.2) <$> exec (parser_calls sample_calls) parser_start =
    Some [[[91]; [49]; [93]]; [[125]; [123]]] /\
  wp no_err (parser_calls sample_calls) (fun _ '(l, p) => Forall is_message (messages p)) parser_start.
Proof.
  split; [by vm_compute|]. eapply wp_mono; [apply (json_messages sample_calls)|].
  intros [] [l p] [H _]. eapply List.Forall_impl; [|exact H]. by intros msg [Hm _].
Defined.

(** An error is final: once the state is ERROR every further byte gets -EINVAL and reaches
    neither the token nor the streamer.  The flush that ends an input
    always leaves the state ERROR.  A string in which a backslash escapes a backslash or a
    slash is such an error, after any string body, although the grammar above the
    table and the decoder of json-parser.c have both escapes. *)
Theorem json_lexer_dead (c : Z) (bs b : list Z) (s : json_lexer_state) (l : JSONLexer) (p : JSONMessageParser)
    (Hs : state l = St s) (Hp : stream_inv p) (Hb : str_body 34 b) :
  (s = ERROR -> wp no_err (json_message_parser_feed (c :: bs)) (fun r '(l', p') =>
     r = - EINVAL /\ p' = p /\ state l' = St ERROR /\ token l' = token l) (l, p)) /\
  wp no_err json_message_parser_flush (fun r '(l', p') => state l' = St ERROR) (l, p) /\
  (forall esc, (esc = 92 \/ esc = 47) -> s = IN_START ->
     wp no_err (json_message_parser_feed ((34 :: b) ++ [92; esc] ++ bs)) (fun r '(l', p') =>
       r = - EINVAL /\ p' = p /\ state l' = St ERROR) (l, p)).
Proof.
  split_and!.
  - intros ->. by apply feed_dead.
  - eapply wp_mono; [by eapply flush_wp|]. intros r [l' p'] H. apply H.
  - intros esc Hesc ->. by apply feed_bad_escape.
Qed.
Example json_lexer_dead_witness :
  wp no_err (json_message_parser_feed ((34 :: [97]) ++ [92; 92] ++ [34])) (fun r _ => r = - EINVAL) parser_start.
Proof.
  eapply wp_mono; [apply (proj2 (proj2 (json_lexer_dead 0 [34] [97] IN_START json_lexer_init
    json_message_parser_init eq_refl
    start_inv
    ltac:(by apply (sb_char 34 [] 97); [constructor|..]))) 92); [by left|done]|].
  intros r [l' p'] H. apply H.
Defined.
