(* ===== verification/Qdict.v ===== *)
(** * Qdict: the hash table of qdict.c

    A key is a C string: the list of its bytes.  The table is 512 buckets, each an
    association list with the newest entry first, and a count of the entries; the
    operations are the code's.  [to_map] is what a dictionary promises: a finite map. *)
From S2P Require Import Prelude.
From stdpp Require Import gmap.
#[local] Open Scope Z_scope.

Abbreviation key := (list Z).
Definition QDICT_HASH_SIZE : Z := 512.

(** [hash_from i value name]: the loop of [tdb_hash] from character [i]. *)
Fixpoint hash_from (i value : Z) (name : key) : Z :=
  match name with
  | [] => value
  | c :: name => hash_from (wrap 32 (i + 1)) (wrap 32 (value + Z.shiftl c (wrap 32 (i * 5) mod 24))) name
  end.
Definition tdb_hash (name : key) : Z :=
  wrap 32 (1103515243 * hash_from 0 (wrap 32 (0x238F13AF * Z.of_nat (length name))) name + 12345).
Definition bucket_of (k : key) : Z := tdb_hash k mod QDICT_HASH_SIZE.

Record QDict (V : Type) := mkQDict { size : Z; table : list (list (key * V)) }.
Arguments mkQDict {V}. Arguments size {V}. Arguments table {V}.

Section qdict.
  Context {V : Type}.
  Implicit Types (d : QDict V) (k : key) (v : V) (b : list (key * V)).

Definition qdict_new : QDict V := mkQDict 0 (replicate (Z.to_nat QDICT_HASH_SIZE) []).

Definition bucket d (h : Z) : list (key * V) := default [] (rd (table d) h).
Definition set_bucket d (h : Z) b : list (list (key * V)) := default (table d) (wr (table d) h b).

Fixpoint find_in b k : option V :=
  match b with
  | [] => None
  | (k', v) :: b => if decide (k' = k) then Some v else find_in b k
  end.
Definition qdict_find d k (hash : Z) : option V := find_in (bucket d hash) k.

(** [entry->value = value] for the first entry of the key. *)
Fixpoint replace_in b k v : list (key * V) :=
  match b with
  | [] => []
  | (k', v') :: b => if decide (k' = k) then (k', v) :: b else (k', v') :: replace_in b k v
  end.
(** [QLIST_REMOVE] of the first entry of the key. *)
Fixpoint remove_in b k : list (key * V) :=
  match b with
  | [] => []
  | (k', v) :: b => if decide (k' = k) then b else (k', v) :: remove_in b k
  end.

Definition qdict_put_obj d k v : QDict V :=
  let hash := bucket_of k in
  match qdict_find d k hash with
  | Some _ => mkQDict (size d) (set_bucket d hash (replace_in (bucket d hash) k v))
  | None => mkQDict (wrap 64 (size d + 1)) (set_bucket d hash ((k, v) :: bucket d hash))
  end.
Definition qdict_get d k : option V := qdict_find d k (bucket_of k).
Definition qdict_haskey d k : bool := match qdict_find d k (bucket_of k) with None => false | Some _ => true end.
Definition qdict_size d : Z := size d.
Definition qdict_del d k : QDict V :=
  let hash := bucket_of k in
  match qdict_find d k hash with
  | Some _ => mkQDict (wrap 64 (size d - 1)) (set_bucket d hash (remove_in (bucket d hash) k))
  | None => d
  end.
(** The entries in the order in which [qdict_iter] visits them. *)
Definition entries d : list (key * V) := concat (table d).

(** ** The map a dictionary is *)
Definition to_map d : gmap key V := list_to_map (entries d).
Record wf d : Prop := {
  wf_length : length (table d) = Z.to_nat QDICT_HASH_SIZE;
  wf_hash : forall h b k, table d !! h = Some b -> k ∈ b.*1 -> Z.to_nat (bucket_of k) = h;
  wf_nodup : forall h b, table d !! h = Some b -> NoDup b.*1;
  wf_size : size d = wrap 64 (Z.of_nat (length (entries d)))
}.

Lemma bucket_of_range k : 0 <= bucket_of k < QDICT_HASH_SIZE.
Proof. apply Z.mod_pos_bound. done. Qed.
Lemma bucket_lookup d k : wf d ->
  table d !! Z.to_nat (bucket_of k) = Some (bucket d (bucket_of k)).
Proof.
  intros Hd. pose proof (bucket_of_range k) as Hr. unfold bucket, rd.
  rewrite (proj2 (Z.leb_le 0 (bucket_of k))) by lia.
  destruct (lookup_lt_is_Some_2 (table d) (Z.to_nat (bucket_of k))) as [b ->]; [|done].
  rewrite (wf_length d Hd). lia.
Qed.
Lemma set_bucket_eq d k b : wf d ->
  set_bucket d (bucket_of k) b = <[Z.to_nat (bucket_of k) := b]> (table d).
Proof.
  intros Hd. pose proof (bucket_of_range k) as Hr. unfold set_bucket, wr.
  rewrite (proj2 (Z.leb_le 0 (bucket_of k))), (proj2 (Z.ltb_lt (bucket_of k) _)); [done|..|lia].
  rewrite (wf_length d Hd). lia.
Qed.

(** The entries outside the bucket of [k]. *)
Definition others d k : list (key * V) := concat (delete (Z.to_nat (bucket_of k)) (table d)).

Lemma concat_split {A} (t : list (list A)) i (b : list A) : t !! i = Some b ->
  concat t ≡ₚ b ++ concat (delete i t).
Proof.
  revert i. induction t as [|a t IH]; intros [|i] H; try discriminate H; cbn in *.
  - by injection H as ->.
  - rewrite (IH i H). rewrite !app_assoc. by rewrite (Permutation_app_comm a b).
Qed.
Lemma list_delete_insert {A} (t : list A) i (x : A) : delete i (<[i := x]> t) = delete i t.
Proof. revert i. induction t as [|a t IH]; intros [|i]; cbn; [done..|]. f_equal. apply IH. Qed.
Lemma entries_split d k : wf d -> entries d ≡ₚ bucket d (bucket_of k) ++ others d k.
Proof. intros Hd. by apply concat_split, bucket_lookup. Qed.
Lemma entries_set d k b n : wf d ->
  entries (mkQDict n (set_bucket d (bucket_of k) b)) ≡ₚ b ++ others d k.
Proof.
  intros Hd. unfold entries. cbn [table]. rewrite set_bucket_eq by done.
  pose proof (bucket_lookup d k Hd) as Hl. apply lookup_lt_Some in Hl.
  rewrite (concat_split _ (Z.to_nat (bucket_of k)) b) by (by apply list_lookup_insert_eq).
  unfold others. rewrite list_delete_insert. done.
Qed.

Lemma others_fresh d k : wf d -> k ∉ (others d k).*1.
Proof.
  intros Hd ([k' v] & Hk & Hin)%list_elem_of_fmap. cbn in Hk. subst k'.
  unfold others in Hin. apply list_elem_of_In, in_concat in Hin as (b & Hb%list_elem_of_In & Hin%list_elem_of_In).
  apply list_elem_of_lookup_1 in Hb as [i Hi].
  set (h := Z.to_nat (bucket_of k)) in *.
  assert (exists j, j <> h /\ table d !! j = Some b) as (j & Hj & Hjb).
  { destruct (decide (i < h)%nat) as [Hl|Hl].
    - exists i. split; [lia|]. by rewrite list_lookup_delete_lt in Hi by done.
    - exists (S i). split; [lia|]. by rewrite list_lookup_delete_ge in Hi by lia. }
  apply Hj. symmetry. apply (wf_hash d Hd j b k Hjb). apply list_elem_of_fmap. by exists (k, v).
Qed.

(** Inside a bucket. *)
Lemma find_in_Some b k v : find_in b k = Some v -> (k, v) ∈ b.
Proof.
  induction b as [|[k' v'] b IH]; cbn; [done|]. destruct (decide (k' = k)) as [->|]; [|by right; auto].
  intros [= ->]. left.
Qed.
Lemma find_in_None b k : find_in b k = None <-> k ∉ b.*1.
Proof.
  induction b as [|[k' v'] b IH]; cbn; [split; [intros _ H; by apply elem_of_nil in H|done]|].
  rewrite not_elem_of_cons, <- IH. destruct (decide (k' = k)) as [->|]; [|by naive_solver].
  split; [done|]. by intros [? _].
Qed.
Lemma find_in_map b k : NoDup b.*1 -> find_in b k = (list_to_map b : gmap key V) !! k.
Proof.
  intros Hn. destruct (find_in b k) as [v|] eqn:E; symmetry.
  - apply elem_of_list_to_map; [done|]. by apply find_in_Some.
  - apply not_elem_of_list_to_map. by apply find_in_None.
Qed.
Lemma replace_in_keys b k v : (replace_in b k v).*1 = b.*1.
Proof.
  induction b as [|[k' v'] b IH]; cbn; [done|]. destruct (decide (k' = k)); cbn; by rewrite ?IH.
Qed.
Lemma replace_in_map b k v : k ∈ b.*1 ->
  (list_to_map (replace_in b k v) : gmap key V) = <[k := v]> (list_to_map b).
Proof.
  induction b as [|[k' v'] b IH]; cbn; [by intros ?%elem_of_nil|].
  destruct (decide (k' = k)) as [->|Hne]; cbn; [by rewrite insert_insert_eq|].
  intros [?|H]%elem_of_cons; [done|]. rewrite IH by done. by apply insert_insert_ne.
Qed.
Lemma remove_in_keys b k : NoDup b.*1 -> forall k', k' ∈ (remove_in b k).*1 <-> k' ∈ b.*1 /\ k' <> k.
Proof.
  induction b as [|[k0 v0] b IH]; cbn; intros Hn k'; [split; [intros ?%elem_of_nil|intros [?%elem_of_nil _]]; done|].
  apply NoDup_cons in Hn as [Hni Hn]. destruct (decide (k0 = k)) as [->|Hne]; cbn.
  - rewrite elem_of_cons. split; [|by intros [[?|?] ?]]. intros H. split; [by right|]. by intros ->.
  - rewrite !elem_of_cons, IH by done. naive_solver.
Qed.
Lemma remove_in_nodup b k : NoDup b.*1 -> NoDup (remove_in b k).*1.
Proof.
  induction b as [|[k0 v0] b IH]; cbn; intros Hn; [done|]. apply NoDup_cons in Hn as [Hni Hn].
  destruct (decide (k0 = k)); cbn; [done|]. apply NoDup_cons. split; [|auto].
  rewrite remove_in_keys by done. naive_solver.
Qed.
Lemma remove_in_map b k : NoDup b.*1 ->
  (list_to_map (remove_in b k) : gmap key V) = delete k (list_to_map b).
Proof.
  induction b as [|[k0 v0] b IH]; cbn; intros Hn; [by rewrite delete_empty|].
  apply NoDup_cons in Hn as [Hni Hn]. destruct (decide (k0 = k)) as [->|Hne]; cbn.
  - rewrite delete_insert_id; [done|]. by apply not_elem_of_list_to_map.
  - rewrite IH by done. by rewrite delete_insert_ne.
Qed.
Lemma remove_in_length b k : k ∈ b.*1 -> S (length (remove_in b k)) = length b.
Proof.
  induction b as [|[k0 v0] b IH]; cbn; [by intros ?%elem_of_nil|].
  destruct (decide (k0 = k)) as [->|Hne]; [done|]. intros [?|H]%elem_of_cons; [done|]. cbn. by rewrite IH.
Qed.

(** Across buckets: the keys are distinct, so the map does not depend on the order. *)
Lemma nodup_concat (f : key -> nat) (t : list (list (key * V))) (n : nat) :
  (forall h b k, t !! h = Some b -> k ∈ b.*1 -> f k = (n + h)%nat) ->
  (forall h b, t !! h = Some b -> NoDup b.*1) -> NoDup (concat t).*1.
Proof.
  revert n. induction t as [|b t IH]; intros n Hh Hn; cbn; [constructor|].
  rewrite fmap_app. apply NoDup_app. split_and!.
  - by apply (Hn 0%nat).
  - intros k Hk ([k' v] & Hk' & Hin)%list_elem_of_fmap. cbn in Hk'. subst k'.
    apply list_elem_of_In, in_concat in Hin as (b' & Hb'%list_elem_of_In & Hin%list_elem_of_In).
    apply list_elem_of_lookup_1 in Hb' as [i Hi].
    assert (f k = (n + S i)%nat) by (apply (Hh (S i) b' k Hi); apply list_elem_of_fmap; by exists (k, v)).
    assert (f k = (n + 0)%nat) by (by apply (Hh 0%nat b k)). lia.
  - apply (IH (S n)).
    + intros h b' k Hb' Hk. rewrite (Hh (S h) b' k) by done. lia.
    + intros h b' Hb'. by apply (Hn (S h)).
Qed.
Lemma entries_nodup d : wf d -> NoDup (entries d).*1.
Proof. intros Hd. apply (nodup_concat (fun k => Z.to_nat (bucket_of k)) _ 0); apply Hd. Qed.
Lemma bucket_nodup d k : wf d -> NoDup (bucket d (bucket_of k)).*1.
Proof. intros Hd. eapply wf_nodup; [done|]. by apply bucket_lookup. Qed.

Lemma to_map_split d k b n : wf d -> NoDup b.*1 -> (forall k', k' ∈ b.*1 -> bucket_of k' = bucket_of k) ->
  to_map (mkQDict n (set_bucket d (bucket_of k) b)) = list_to_map b ∪ list_to_map (others d k).
Proof.
  intros Hd Hn Hb. unfold to_map. rewrite <- list_to_map_app. apply list_to_map_proper.
  - rewrite entries_set by done. rewrite fmap_app. apply NoDup_app. split_and!; [done| |].
    + intros k' Hk' Ho. eapply (others_fresh d k' Hd). unfold others in *. by rewrite (Hb k' Hk').
    + pose proof (entries_nodup d Hd) as H. rewrite (entries_split d k Hd), fmap_app in H.
      by apply NoDup_app in H as (_ & _ & H).
  - by apply entries_set.
Qed.
Lemma bucket_hash d k k' : wf d -> k' ∈ (bucket d (bucket_of k)).*1 -> bucket_of k' = bucket_of k.
Proof.
  intros Hd Hk. pose proof (wf_hash d Hd _ _ k' (bucket_lookup d k Hd) Hk).
  pose proof (bucket_of_range k). pose proof (bucket_of_range k'). lia.
Qed.
Lemma to_map_bucket d k : wf d ->
  to_map d = list_to_map (bucket d (bucket_of k)) ∪ list_to_map (others d k).
Proof.
  intros Hd. unfold to_map. rewrite <- list_to_map_app. apply list_to_map_proper; [by apply entries_nodup|].
  by apply entries_split.
Qed.
Lemma find_to_map d k : wf d -> find_in (bucket d (bucket_of k)) k = to_map d !! k.
Proof.
  intros Hd. rewrite (to_map_bucket d k Hd), find_in_map by (by apply bucket_nodup).
  rewrite lookup_union_l; [done|]. by apply not_elem_of_list_to_map, others_fresh.
Qed.

Lemma wf_set d k b n : wf d -> NoDup b.*1 -> (forall k', k' ∈ b.*1 -> bucket_of k' = bucket_of k) ->
  n = wrap 64 (Z.of_nat (length b + length (others d k))) ->
  wf (mkQDict n (set_bucket d (bucket_of k) b)).
Proof.
  intros Hd Hn Hb ->. split; cbn [table size].
  - rewrite set_bucket_eq, length_insert by done. apply Hd.
  - intros h b' k' Hb' Hk'. rewrite set_bucket_eq in Hb' by done.
    apply list_lookup_insert_Some in Hb' as [(<- & <- & _)|[_ Hb']]; [by rewrite (Hb k' Hk')|].
    by apply (wf_hash d Hd h b').
  - intros h b' Hb'. rewrite set_bucket_eq in Hb' by done.
    apply list_lookup_insert_Some in Hb' as [(_ & <- & _)|[_ Hb']]; [done|]. by apply (wf_nodup d Hd h).
  - by rewrite entries_set, length_app by done.
Qed.
Lemma size_split d k : wf d ->
  size d = wrap 64 (Z.of_nat (length (bucket d (bucket_of k)) + length (others d k))).
Proof. intros Hd. by rewrite (wf_size d Hd), (entries_split d k Hd), length_app. Qed.
Lemma wrap64_pred n : wrap 64 (wrap 64 n - 1) = wrap 64 (n - 1).
Proof. unfold wrap. by rewrite Zminus_mod_idemp_l. Qed.
Lemma wrap64_succ n : wrap 64 (wrap 64 n + 1) = wrap 64 (n + 1).
Proof. unfold wrap. by rewrite Zplus_mod_idemp_l. Qed.

Lemma new_wf : wf qdict_new.
Proof.
  split.
  - apply length_replicate.
  - intros h b k Hb Hk. apply lookup_replicate in Hb as [-> _]. by apply elem_of_nil in Hk.
  - intros h b Hb. apply lookup_replicate in Hb as [-> _]. constructor.
  - reflexivity.
Qed.
Lemma put_wf d k v : wf d -> wf (qdict_put_obj d k v) /\ to_map (qdict_put_obj d k v) = <[k := v]> (to_map d).
Proof.
  intros Hd. unfold qdict_put_obj, qdict_find.
  pose proof (bucket_nodup d k Hd) as Hn. pose proof (fun k' => bucket_hash d k k' Hd) as Hh.
  destruct (find_in (bucket d (bucket_of k)) k) as [v0|] eqn:E.
  - assert (k ∈ (bucket d (bucket_of k)).*1) as Hk
      by (apply list_elem_of_fmap; exists (k, v0); split; [done|by apply find_in_Some]).
    split.
    + apply wf_set; [done|by rewrite replace_in_keys|by rewrite replace_in_keys|].
      rewrite (size_split d k Hd). do 2 f_equal.
      by rewrite <- (length_fmap fst (replace_in _ _ _)), replace_in_keys, length_fmap.
    + rewrite to_map_split, (to_map_bucket d k Hd), replace_in_map, insert_union_l; try done;
        by rewrite replace_in_keys.
  - assert (k ∉ (bucket d (bucket_of k)).*1) as Hk by (by apply find_in_None).
    assert (NoDup ((k, v) :: bucket d (bucket_of k)).*1) as Hn' by (by apply NoDup_cons).
    assert (forall k', k' ∈ ((k, v) :: bucket d (bucket_of k)).*1 -> bucket_of k' = bucket_of k) as Hh'
      by (intros k' [->|H]%elem_of_cons; [done|by apply Hh]).
    split.
    + apply wf_set; [done..|]. rewrite (size_split d k Hd), wrap64_succ. f_equal. cbn [length]. lia.
    + rewrite to_map_split, (to_map_bucket d k Hd) by done. cbn [list_to_map foldr]. by rewrite insert_union_l.
Qed.
Lemma del_wf d k : wf d -> wf (qdict_del d k) /\ to_map (qdict_del d k) = delete k (to_map d).
Proof.
  intros Hd. unfold qdict_del, qdict_find.
  pose proof (bucket_nodup d k Hd) as Hn. pose proof (fun k' => bucket_hash d k k' Hd) as Hh.
  destruct (find_in (bucket d (bucket_of k)) k) as [v0|] eqn:E.
  - assert (k ∈ (bucket d (bucket_of k)).*1) as Hk
      by (apply list_elem_of_fmap; exists (k, v0); split; [done|by apply find_in_Some]).
    assert (forall k', k' ∈ (remove_in (bucket d (bucket_of k)) k).*1 -> bucket_of k' = bucket_of k) as Hh'
      by (intros k' H; apply Hh; by apply remove_in_keys in H as [H _]).
    split.
    + apply wf_set; [done|by apply remove_in_nodup|done|]. rewrite (size_split d k Hd), wrap64_pred. f_equal.
      rewrite <- (remove_in_length _ _ Hk). lia.
    + rewrite to_map_split, (to_map_bucket d k Hd), remove_in_map by (try done; by apply remove_in_nodup).
      rewrite delete_union. f_equal. symmetry. apply delete_id.
      by apply not_elem_of_list_to_map, others_fresh.
  - split; [done|]. symmetry. apply delete_id. by rewrite <- find_to_map.
Qed.
Lemma get_to_map d k : wf d -> qdict_get d k = to_map d !! k.
Proof. apply find_to_map. Qed.
Lemma get_put d k v k' : wf d -> qdict_get (qdict_put_obj d k v) k' = if decide (k = k') then Some v else qdict_get d k'.
Proof.
  intros Hd. destruct (put_wf d k v Hd) as [Hw Hm]. rewrite !get_to_map, Hm by done.
  destruct (decide (k = k')) as [->|]; [by rewrite lookup_insert_eq|by rewrite lookup_insert_ne].
Qed.
End qdict.

(** ** Sequences of operations *)
Inductive dict_op (V : Type) : Type := Put (k : key) (v : V) | Del (k : key).
Arguments Put {V}. Arguments Del {V}.
Definition dict_step {V} (d : QDict V) (op : dict_op V) : QDict V :=
  match op with Put k v => qdict_put_obj d k v | Del k => qdict_del d k end.
Definition map_step {V} (m : gmap key V) (op : dict_op V) : gmap key V :=
  match op with Put k v => <[k := v]> m | Del k => delete k m end.
Definition dict_run {V} (ops : list (dict_op V)) : QDict V := fold_left dict_step ops qdict_new.
Definition map_run {V} (ops : list (dict_op V)) : gmap key V := fold_left map_step ops ∅.

Lemma run_wf {V} (ops : list (dict_op V)) : wf (dict_run ops) /\ to_map (dict_run ops) = map_run ops.
Proof.
  unfold dict_run, map_run.
  assert (wf (qdict_new (V := V)) /\ to_map (qdict_new (V := V)) = ∅) as [H1 H2] by (split; [apply new_wf|done]).
  revert H1 H2. generalize (qdict_new (V := V)) as d, (∅ : gmap key V) as m.
  induction ops as [|op ops IH]; intros d m Hd Hm; cbn [fold_left]; [done|].
  apply IH; destruct op as [k v|k]; cbn [dict_step map_step]; rewrite <- ?Hm;
    first [by apply put_wf | by apply del_wf].
Qed.

(** C31: after any sequence of puts and deletes from the new dictionary, the hash table is the
    finite map that the same sequence builds: lookup and membership agree on every key,
    the size is the number of keys (modulo 2^64), and the iterator visits every entry of
    the map once and nothing else; the bucket of a key is always within the table. *)
Theorem qdict_refines {V} (ops : list (dict_op V)) :
  let d := dict_run ops in let m := map_run ops in
  (forall k, qdict_get d k = m !! k) /\
  (forall k, qdict_haskey d k = bool_decide (is_Some (m !! k))) /\
  qdict_size d = wrap 64 (Z.of_nat (base.size m)) /\
  entries d ≡ₚ map_to_list m /\
  (forall k, 0 <= bucket_of k < Z.of_nat (length (table d))).
Proof.
  intros d m. destruct (run_wf ops) as [Hd Hm]. fold d in Hd, Hm. fold m in Hm.
  assert (entries d ≡ₚ map_to_list m) as Hent
    by (rewrite <- Hm; unfold to_map; symmetry; by apply map_to_list_to_map, entries_nodup).
  assert (forall k, qdict_get d k = m !! k) as Hget
    by (intros k; unfold qdict_get, qdict_find; by rewrite find_to_map, Hm).
  split_and!; [done| | |done|].
  - intros k. unfold qdict_haskey. unfold qdict_get in Hget. rewrite Hget.
    destruct (m !! k); [by rewrite bool_decide_true|by rewrite bool_decide_false by (by intros [? [=]])].
  - unfold qdict_size. rewrite (wf_size d Hd), Hent. by rewrite length_map_to_list.
  - intros k. pose proof (bucket_of_range k) as Hr. rewrite (wf_length d Hd). lia.
Qed.
