(* ===== verification/Qobject.v ===== *)
(** * Qobject: the dynamic values of the QMP code (qobject.h, qint.c, qbool.c, qfloat.c,
      qstring.c, qlist.c) and the typed lookups of qdict.c

    A QObject is a value: reference counts are not modelled.  NULL is [None], and
    dereferencing it is [Fault]; a failed assert() is [HwError], the abort of the
    emulator.  [double] is the C type, about which nothing is assumed. *)
From S2P Require Import Prelude Qdict.
From stdpp Require Import gmap.
From Stdlib Require Import (notations) String.
From Stdlib Require Ascii.
#[local] Open Scope Z_scope.

(** The bytes of a C string literal. *)
Definition cstr (s : String.string) : list Z :=
  List.map (fun a => Z.of_N (Ascii.N_of_ascii a)) (String.list_ascii_of_string s).
Arguments cstr s%_string.

Inductive qtype_code : Type :=
| QTYPE_NONE | QTYPE_QINT | QTYPE_QSTRING | QTYPE_QDICT | QTYPE_QLIST | QTYPE_QFLOAT
| QTYPE_QBOOL | QTYPE_QERROR.
#[export] Instance qtype_code_eq_dec : EqDecision qtype_code.
Proof. solve_decision. Defined.

Section objects.
  Context {double : Type}.

#[warnings="-register-all"]
Inductive qobject : Type :=
| QInt (value : Z)
| QString (string : list Z)
| QDictionary (d : QDict qobject)
| QList (l : list qobject)
| QFloat (value : double)
| QBool (value : Z)
| QError.

Definition qobject_type (o : qobject) : qtype_code :=
  match o with
  | QInt _ => QTYPE_QINT | QString _ => QTYPE_QSTRING | QDictionary _ => QTYPE_QDICT
  | QList _ => QTYPE_QLIST | QFloat _ => QTYPE_QFLOAT | QBool _ => QTYPE_QBOOL
  | QError => QTYPE_QERROR
  end.

(** Induction through the buckets of a dictionary and the elements of a list. *)
Lemma qobject_nested_ind (P : qobject -> Prop)
    (Hint : forall v, P (QInt v)) (Hstr : forall s, P (QString s))
    (Hdict : forall d, Forall (Forall (fun kv => P kv.2)) (table d) -> P (QDictionary d))
    (Hlist : forall l, Forall P l -> P (QList l))
    (Hfloat : forall v, P (QFloat v)) (Hbool : forall v, P (QBool v)) (Herr : P QError) :
  forall o, P o.
Proof.
  fix IH 1. intros [v|s|[n t]|l|v|v|].
  - apply Hint.
  - apply Hstr.
  - apply Hdict. cbn. induction t as [|b t IHt]; constructor; [|exact IHt].
    clear IHt. induction b as [|[k o] b IHb]; constructor; [apply IH|exact IHb].
  - apply Hlist. induction l as [|o l IHl]; constructor; [apply IH|exact IHl].
  - apply Hfloat.
  - apply Hbool.
  - exact Herr.
Qed.

Section operations.
  Context {S : Type}.
  Abbreviation OP := (ST S).

(** [qobject_type(obj)] on a pointer. *)
Definition type_of (obj : option qobject) : OP qtype_code :=
    o ← deref obj; mret (qobject_type o).
Definition c_assert (b : bool) : OP unit := if b then mret tt else hw_error.

Definition qobject_to_qdict (obj : option qobject) : OP (option (QDict qobject)) :=
    o ← deref obj; mret (match o with QDictionary d => Some d | _ => None end).
Definition qobject_to_qint (obj : option qobject) : OP (option Z) :=
    o ← deref obj; mret (match o with QInt v => Some v | _ => None end).
Definition qobject_to_qstring (obj : option qobject) : OP (option (list Z)) :=
    o ← deref obj; mret (match o with QString s => Some s | _ => None end).
Definition qobject_to_qlist (obj : option qobject) : OP (option (list qobject)) :=
    o ← deref obj; mret (match o with QList l => Some l | _ => None end).
Definition qobject_to_qbool (obj : option qobject) : OP (option Z) :=
    o ← deref obj; mret (match o with QBool v => Some v | _ => None end).

Definition qdict_get_obj (d : QDict qobject) (k : key) (type : qtype_code) : OP (option qobject) :=
    let obj := qdict_get d k in
    c_assert (match obj with Some _ => true | None => false end) ;;
    t ← type_of obj;
    c_assert (bool_decide (t = type)) ;;
    mret obj.
Definition qdict_get_int (d : QDict qobject) (k : key) : OP Z :=
    obj ← qdict_get_obj d k QTYPE_QINT;
    qi ← qobject_to_qint obj;
    deref qi.
Definition qdict_get_bool (d : QDict qobject) (k : key) : OP Z :=
    obj ← qdict_get_obj d k QTYPE_QBOOL;
    qb ← qobject_to_qbool obj;
    deref qb.
Definition qdict_get_qlist (d : QDict qobject) (k : key) : OP (option (list qobject)) :=
    obj ← qdict_get_obj d k QTYPE_QLIST;
    qobject_to_qlist obj.
Definition qdict_get_str (d : QDict qobject) (k : key) : OP (list Z) :=
    obj ← qdict_get_obj d k QTYPE_QSTRING;
    qs ← qobject_to_qstring obj;
    deref qs.
Definition qdict_get_try_int (d : QDict qobject) (k : key) (err_value : Z) : OP Z :=
    let obj := qdict_get d k in
    match obj with
    | Some o => if bool_decide (qobject_type o = QTYPE_QINT)
                then qi ← qobject_to_qint obj; deref qi else mret err_value
    | None => mret err_value
    end.
Definition qdict_get_try_str (d : QDict qobject) (k : key) : OP (option (list Z)) :=
    let obj := qdict_get d k in
    match obj with
    | Some o => if bool_decide (qobject_type o = QTYPE_QSTRING)
                then qs ← qobject_to_qstring obj; s ← deref qs; mret (Some s) else mret None
    | None => mret None
    end.
End operations.

(** ** Lists: the head entry and the rest; [None] is the NULL of an empty list. *)
Definition qlist_pop (l : list qobject) : option qobject * list qobject :=
  match l with [] => (None, []) | o :: l => (Some o, l) end.
Definition qlist_peek (l : list qobject) : option qobject := head l.
Definition qlist_empty (l : list qobject) : bool := match l with [] => true | _ => false end.
Definition qlist_append_obj (l : list qobject) (o : qobject) : list qobject := l ++ [o].
Definition qlist_iter {A} (l : list qobject) (iter : A -> qobject -> A) (opaque : A) : A :=
  fold_left iter l opaque.
Definition qlist_copy (src : list qobject) : list qobject := qlist_iter src qlist_append_obj [].

Lemma qlist_copy_id l : qlist_copy l = l.
Proof.
  unfold qlist_copy, qlist_iter. change l with ([] ++ l) at 2. generalize (@nil qobject) as acc.
  induction l as [|o l IH]; intros acc; cbn [fold_left]; [by rewrite app_nil_r|].
  rewrite IH. unfold qlist_append_obj. by rewrite <- app_assoc.
Qed.

(** ** Typed lookups *)
Lemma get_obj_wp {S} (s : S) d k o (Q : option qobject -> S -> Prop) : qdict_get d k = Some o ->
  Q (Some o) s -> wp no_err (qdict_get_obj d k (qobject_type o)) Q s.
Proof.
  intros Hk HQ. unfold qdict_get_obj, type_of. rewrite Hk. wp_step. unfold c_assert at 1. wp_step.
  wp_step. wp_step. apply wp_deref_Some. wp_step. wp_step. unfold c_assert.
  rewrite bool_decide_true by done. wp_step. by wp_step.
Qed.
Lemma get_int_wp {S} (s : S) d k v (Q : Z -> S -> Prop) : qdict_get d k = Some (QInt v) ->
  Q v s -> wp no_err (qdict_get_int d k) Q s.
Proof.
  intros Hk HQ. unfold qdict_get_int. wp_step. apply (get_obj_wp s d k (QInt v)); [done|].
  wp_step. unfold qobject_to_qint. wp_step. apply wp_deref_Some. wp_step. by apply wp_deref_Some.
Qed.
Lemma get_str_wp {S} (s : S) d k v (Q : list Z -> S -> Prop) : qdict_get d k = Some (QString v) ->
  Q v s -> wp no_err (qdict_get_str d k) Q s.
Proof.
  intros Hk HQ. unfold qdict_get_str. wp_step. apply (get_obj_wp s d k (QString v)); [done|].
  wp_step. unfold qobject_to_qstring. wp_step. apply wp_deref_Some. wp_step. by apply wp_deref_Some.
Qed.
End objects.
Arguments qobject double : clear implicits.
