(* ===== verification/Qjson.v ===== *)
(** * Qjson: printing and parsing of values as JSON (qjson.c, json-parser.c)

    A C string is the list of its bytes without the NUL.  The tokens are the dictionaries
    of the streamer.  [ap] is the argument list of a format string, [None] for NULL; the
    functions of libc on floating-point numbers are the class [Libc]. *)
From S2P Require Import Prelude Irq Json Qdict Qobject.
From stdpp Require Import gmap.
From Stdlib Require Import (notations) String.
#[local] Open Scope Z_scope.

(** ** Strings *)
(** [ptr++], which stays on the NUL at the end. *)
Definition next (ptr : list Z) : list Z := match ptr with [] => ptr | _ :: ptr => ptr end.
(** [*ptr]: NUL at the end. *)
Definition char_at (ptr : list Z) : Z := hd 0 ptr.

(** The conversion %X of one digit, %04X of a uint16_t. *)
Definition hex_digit (d : Z) : Z := if d <? 10 then 48 + d else 55 + d.
Definition fmt_04X (w : Z) : list Z :=
  List.map (fun i => hex_digit (Z.land (Z.shiftr w i) 15)) [12; 8; 4; 0].

(** The string branch of [to_json], between the quotes. *)
Definition wchar3 (c0 c1 c2 : Z) : Z :=
  let wchar := wrap 16 (Z.shiftl (Z.land c0 0x0F) 12) in
  let wchar := wrap 16 (Z.lor wchar (Z.shiftl (Z.land c1 0x3F) 6)) in
  wrap 16 (Z.lor wchar (Z.land c2 0x3F)).
Definition wchar2 (c0 c1 : Z) : Z :=
  let wchar := wrap 16 (Z.shiftl (Z.land c0 0x1F) 6) in
  wrap 16 (Z.lor wchar (Z.land c1 0x3F)).
Definition escape_char (c : Z) : list Z :=
  if c =? 34 then [92; 34]
  else if c =? 92 then [92; 92]
  else if c =? 8 then [92; 98]
  else if c =? 10 then [92; 110]
  else if c =? 13 then [92; 114]
  else if c =? 9 then [92; 116]
  else [c].
Fixpoint escape_string (ptr : list Z) : list Z :=
  match ptr with
  | [] => []
  | c0 :: ptr1 =>
    let c1 := char_at ptr1 in
    let c2 := char_at (next ptr1) in
    if (Z.land c0 0xE0 =? 0xE0) && truth (Z.land c1 0x80) && truth (Z.land c2 0x80)
    then 92 :: 117 :: fmt_04X (wchar3 c0 c1 c2) ++ escape_string (next (next ptr1))
    else if (Z.land c0 0xE0 =? 0xC0) && truth (Z.land c1 0x80)
    then 92 :: 117 :: fmt_04X (wchar2 c0 c1) ++ escape_string (next ptr1)
    else escape_char c0 ++ escape_string ptr1
  end.

Definition hex2decimal (ch : Z) : Z :=
  if (48 <=? ch) && (ch <=? 57) then ch - 48
  else if (97 <=? ch) && (ch <=? 102) then 10 + (ch - 97)
  else if (65 <=? ch) && (ch <=? 70) then 10 + (ch - 65)
  else -1.
Definition qemu_isxdigit (c : Z) : bool :=
  (48 <=? c) && (c <=? 57) || (97 <=? c) && (c <=? 102) || (65 <=? c) && (c <=? 70).

Section strings.
  Context {S : Type}.
  Abbreviation OP := (ST S).

(** The bytes before the NUL that the code stores in [buffer]. *)
Definition wchar_to_utf8 (wchar buffer_length : Z) : OP (list Z) :=
  if wchar <=? 0x7F then
    c_assert (negb (buffer_length <? 2)) ;;
    mret [Z.land wchar 0x7F]
  else if wchar <=? 0x7FF then
    c_assert (negb (buffer_length <? 3)) ;;
    mret [Z.lor 0xC0 (Z.land (Z.shiftr wchar 6) 0x1F); Z.lor 0x80 (Z.land wchar 0x3F)]
  else
    c_assert (negb (buffer_length <? 4)) ;;
    mret [Z.lor 0xE0 (Z.land (Z.shiftr wchar 12) 0x0F);
          Z.lor 0x80 (Z.land (Z.shiftr wchar 6) 0x3F); Z.lor 0x80 (Z.land wchar 0x3F)].
(** [qstring_append] stops at the first NUL. *)
Fixpoint c_string (l : list Z) : list Z :=
  match l with [] => [] | c :: l => if c =? 0 then [] else c :: c_string l end.

Definition single_escape (c : Z) : option Z :=
  if c =? 34 then Some 34
  else if c =? 39 then Some 39
  else if c =? 92 then Some 92
  else if c =? 47 then Some 47
  else if c =? 98 then Some 8
  else if c =? 110 then Some 10
  else if c =? 114 then Some 13
  else if c =? 116 then Some 9
  else None.
(** [unicode_char |= hex2decimal( *ptr) << ((3 - i) * 4)] over four digits. *)
Definition unicode_char (h1 h2 h3 h4 : Z) : Z :=
  fold_left (fun u '(h, i) => wrap 16 (Z.lor u (Z.shiftl (hex2decimal h) ((3 - i) * 4))))
    [(h1, 0); (h2, 1); (h3, 2); (h4, 3)] 0.

Definition prepend (x : list Z) (r : option (list Z)) : option (list Z) := (app x) <$> r.
(** The loop of [qstring_from_escaped_str]; [None] is the parse error. *)
Fixpoint unescape (q : Z) (ptr : list Z) : OP (option (list Z)) :=
  match ptr with
  | [] => mret (Some [])
  | c :: ptr1 =>
    if c =? q then mret (Some [])
    else if c =? 92 then
      match ptr1 with
      | [] => mret None
      | e :: ptr2 =>
        match single_escape e with
        | Some ch => r ← unescape q ptr2; mret (prepend [ch] r)
        | None =>
          if e =? 117 then
            match ptr2 with
            | h1 :: h2 :: h3 :: h4 :: ptr3 =>
              if qemu_isxdigit h1 && qemu_isxdigit h2 && qemu_isxdigit h3 && qemu_isxdigit h4
              then utf8_char ← wchar_to_utf8 (unicode_char h1 h2 h3 h4) 4;
                   r ← unescape q ptr3;
                   mret (prepend (c_string utf8_char) r)
              else mret None
            | _ => mret None
            end
          else mret None
        end
      end
    else r ← unescape q ptr1; mret (prepend [c] r)
  end.
Definition qstring_from_escaped_str (token : list Z) : OP (option (list Z)) :=
  let double_quote := char_at token =? 34 in
  unescape (if double_quote then 34 else 39) (next token).
End strings.

(** ** Integers *)
(** %PRId64; 20 digits are enough for 64 bits. *)
Fixpoint dec_digits (fuel : nat) (n : Z) : list Z :=
  match fuel with
  | O => []
  | Datatypes.S fuel => if n <? 10 then [48 + n] else dec_digits fuel (n / 10) ++ [48 + n mod 10]
  end.
Definition fmt_d (v : Z) : list Z :=
  if v <? 0 then 45 :: dec_digits 20 (- v) else dec_digits 20 v.

(** [strtoll(s, NULL, 10)] on a string without leading white space: the value of the
    longest prefix of digits after an optional sign, brought into the range of int64_t. *)
Fixpoint digits_value (acc : Z) (s : list Z) : Z :=
  match s with
  | c :: s => if (48 <=? c) && (c <=? 57) then digits_value (10 * acc + (c - 48)) s else acc
  | [] => acc
  end.
Definition clamp64 (v : Z) : Z := Z.max (- 2 ^ 63) (Z.min (2 ^ 63 - 1) v).
Definition strtoll (s : list Z) : Z :=
  if char_at s =? 45 then clamp64 (- digits_value 0 (next s))
  else if char_at s =? 43 then clamp64 (digits_value 0 (next s))
  else clamp64 (digits_value 0 s).

(** ** Printing *)
(** printf %f and strtod of libc. *)
Class Libc (double : Type) := { fmt_f : double -> list Z; strtod : list Z -> double }.

Record ToJsonIterState := mkIter { count : Z; str : list Z }.

(** The zeros at the end of %f are dropped, then the point. *)
Fixpoint drop_zeros (l : list Z) : list Z :=
  match l with 48 :: l => drop_zeros l | _ => l end.
Definition trim_float (l : list Z) : list Z :=
  let l := drop_zeros (reverse l) in
  reverse (match l with 46 :: l => l | _ => l end).

Definition to_json_string (s : list Z) : list Z := [34] ++ escape_string s ++ [34].
(** The iterators get the text of the value, [to_json(obj, ...)], as an argument. *)
Definition to_json_dict_iter (s : ToJsonIterState) (entry : key * list Z) : ToJsonIterState :=
  let out := str s ++ (if truth (count s) then cstr ", " else []) in
  let out := out ++ to_json_string entry.1 in
  let out := out ++ cstr ": " in
  mkIter (count s + 1) (out ++ entry.2).
Definition to_json_list_iter (s : ToJsonIterState) (text : list Z) : ToJsonIterState :=
  let out := str s ++ (if truth (count s) then cstr ", " else []) in
  mkIter (count s + 1) (out ++ text).

Section values.
  Context {double : Type} `{Libc double}.
  Abbreviation obj_t := (qobject double).

Fixpoint to_json (obj : obj_t) : list Z :=
  match obj with
  | QInt v => fmt_d v
  | QString s => to_json_string s
  | QDictionary d =>
    let items := concat (List.map (List.map (fun kv => (kv.1, to_json kv.2))) (table d)) in
    str (fold_left to_json_dict_iter items (mkIter 0 (cstr "{"))) ++ cstr "}"
  | QList l =>
    str (fold_left to_json_list_iter (List.map to_json l) (mkIter 0 (cstr "["))) ++ cstr "]"
  | QFloat v => trim_float (fmt_f v)
  | QBool v => if truth v then cstr "true" else cstr "false"
  | QError => []
  end.
Definition qobject_to_json (obj : obj_t) : list Z := to_json obj.

(** ** Tokens *)
Definition token_code (t : json_token_type) : Z :=
  match t with
  | JSON_OPERATOR => 100 | JSON_INTEGER => 101 | JSON_FLOAT => 102 | JSON_KEYWORD => 103
  | JSON_STRING => 104 | JSON_ESCAPE => 105 | JSON_SKIP => 106
  end.
(** The dictionary [json_message_process_token] builds. *)
Definition token_obj (t : jtoken) : obj_t :=
  let dict := qdict_new in
  let dict := qdict_put_obj dict (cstr "type") (QInt (token_code (ty t))) in
  let dict := qdict_put_obj dict (cstr "token") (QString (text t)) in
  let dict := qdict_put_obj dict (cstr "x") (QInt (tx t)) in
  let dict := qdict_put_obj dict (cstr "y") (QInt (t_y t)) in
  QDictionary dict.

(** An argument of a format string, with the C type it is passed as. *)
Inductive va_arg : Type :=
| VaObject (o : option obj_t) | VaInt (v : Z) | VaLong (v : Z) | VaLongLong (v : Z)
| VaString (s : list Z) | VaDouble (v : double).
Abbreviation AP := (option (list va_arg)).
Abbreviation PARSE := (ST AP).

(** [va_arg]: an argument of another type, or none left, is undefined. *)
Definition va_next {A} (as_type : va_arg -> option A) : PARSE A :=
  ap ← get;
  match ap with
  | Some (a :: rest) => put (Some rest) ;; deref (as_type a)
  | _ => throw Fault
  end.

Definition token_get_value (obj : option obj_t) : PARSE (list Z) :=
  d ← qobject_to_qdict obj; d ← deref d; qdict_get_str d (cstr "token").
Definition token_get_type (obj : option obj_t) : PARSE Z :=
  d ← qobject_to_qdict obj; d ← deref d; qdict_get_int d (cstr "type").

Definition token_is_operator (obj : option obj_t) (op : Z) : PARSE bool :=
  t ← token_get_type obj;
  if negb (t =? token_code JSON_OPERATOR) then mret false
  else val ← token_get_value obj;
       mret ((char_at val =? op) && (char_at (next val) =? 0)).
Definition token_is_keyword (obj : option obj_t) (value : list Z) : PARSE bool :=
  t ← token_get_type obj;
  if negb (t =? token_code JSON_KEYWORD) then mret false
  else val ← token_get_value obj; mret (bool_decide (val = value)).
Definition token_is_escape (obj : option obj_t) (value : list Z) : PARSE bool :=
  t ← token_get_type obj;
  if negb (t =? token_code JSON_ESCAPE) then mret false
  else val ← token_get_value obj; mret (bool_decide (val = value)).

(** ** Parsing rules: the value, [None] for NULL or -1, and the tokens left in [*tokens] *)
Abbreviation tokens_t := (list obj_t).

Definition parse_keyword (tokens : tokens_t) : PARSE (option obj_t * tokens_t) :=
  let working := qlist_copy tokens in
  let '(token, working) := qlist_pop working in
  t ← token_get_type token;
  if negb (t =? token_code JSON_KEYWORD) then mret (None, tokens)
  else
    is_true ← token_is_keyword token (cstr "true");
    if (is_true : bool) then mret (Some (QBool 1), working)
    else
      is_false ← token_is_keyword token (cstr "false");
      if (is_false : bool) then mret (Some (QBool 0), working)
      else token_get_value token ;; mret (None, tokens).

Definition parse_escape (tokens : tokens_t) : PARSE (option obj_t * tokens_t) :=
  let working := qlist_copy tokens in
  ap ← get;
  match ap with
  | None => mret (None, tokens)
  | Some _ =>
    let '(token, working) := qlist_pop working in
    p ← token_is_escape token (cstr "%p");
    if (p : bool) then
      obj ← va_next (fun a => match a with VaObject o => Some o | _ => None end);
      mret (obj, working)
    else
    i ← token_is_escape token (cstr "%i");
    if (i : bool) then
      v ← va_next (fun a => match a with VaInt v => Some v | _ => None end);
      mret (Some (QBool v), working)
    else
    d ← token_is_escape token (cstr "%d");
    if (d : bool) then
      v ← va_next (fun a => match a with VaInt v => Some v | _ => None end);
      mret (Some (QInt v), working)
    else
    ld ← token_is_escape token (cstr "%ld");
    if (ld : bool) then
      v ← va_next (fun a => match a with VaLong v => Some v | _ => None end);
      mret (Some (QInt v), working)
    else
    lld ← token_is_escape token (cstr "%lld");
    i64d ← (if (lld : bool) then mret true else token_is_escape token (cstr "%I64d"));
    if (i64d : bool) then
      v ← va_next (fun a => match a with VaLongLong v => Some v | _ => None end);
      mret (Some (QInt v), working)
    else
    s ← token_is_escape token (cstr "%s");
    if (s : bool) then
      v ← va_next (fun a => match a with VaString v => Some v | _ => None end);
      mret (Some (QString v), working)
    else
    f ← token_is_escape token (cstr "%f");
    if (f : bool) then
      v ← va_next (fun a => match a with VaDouble v => Some v | _ => None end);
      mret (Some (QFloat v), working)
    else mret (None, tokens)
  end.

Definition parse_literal (tokens : tokens_t) : PARSE (option obj_t * tokens_t) :=
  let working := qlist_copy tokens in
  let '(token, working) := qlist_pop working in
  t ← token_get_type token;
  if t =? token_code JSON_STRING then
    val ← token_get_value token;
    s ← qstring_from_escaped_str val;
    mret (QString <$> s, working)
  else if t =? token_code JSON_INTEGER then
    val ← token_get_value token; mret (Some (QInt (strtoll val)), working)
  else if t =? token_code JSON_FLOAT then
    val ← token_get_value token; mret (Some (QFloat (strtod val)), working)
  else mret (None, tokens).

Section rules.
  Context (parse_value : tokens_t -> PARSE (option obj_t * tokens_t)).

Definition parse_pair (dict : QDict obj_t) (tokens : tokens_t) : PARSE (option (QDict obj_t) * tokens_t) :=
  let working := qlist_copy tokens in
  '(k, working) ← parse_value working;
  match k with
  | Some (QString k) =>
    let '(token, working) := qlist_pop working in
    colon ← token_is_operator token 58;
    if negb colon then mret (None, tokens)
    else
      '(value, working) ← parse_value working;
      match value with
      | None => mret (None, tokens)
      | Some value => mret (Some (qdict_put_obj dict k value), working)
      end
  | _ => mret (None, tokens)
  end.

(** [while (!token_is_operator(token, '}'))] *)
Fixpoint object_loop (n : nat) (dict : QDict obj_t) (token : option obj_t) (working : tokens_t) :
    PARSE (option (QDict obj_t) * tokens_t) :=
  closed ← token_is_operator token 125;
  if (closed : bool) then mret (Some dict, working)
  else
    sep ← token_is_operator token 44;
    if negb sep then mret (None, working)
    else
      match n with
      | O => throw OutOfFuel
      | S n =>
        '(d, working) ← parse_pair dict working;
        match d with
        | None => mret (None, working)
        | Some dict => let '(token, working) := qlist_pop working in object_loop n dict token working
        end
      end.
Definition parse_object (n : nat) (tokens : tokens_t) : PARSE (option obj_t * tokens_t) :=
  let working := qlist_copy tokens in
  let '(token, working) := qlist_pop working in
  opens ← token_is_operator token 123;
  if negb opens then mret (None, tokens)
  else
    let dict := qdict_new in
    let peek := qlist_peek working in
    closed ← token_is_operator peek 125;
    if negb closed then
      '(d, working) ← parse_pair dict working;
      match d with
      | None => mret (None, tokens)
      | Some dict =>
        let '(token, working) := qlist_pop working in
        '(d, working) ← object_loop n dict token working;
        match d with
        | None => mret (None, tokens)
        | Some dict => mret (Some (QDictionary dict), working)
        end
      end
    else
      let '(token, working) := qlist_pop working in mret (Some (QDictionary dict), working).

(** [while (!token_is_operator(token, ']'))] *)
Fixpoint array_loop (n : nat) (l : list obj_t) (token : option obj_t) (working : tokens_t) :
    PARSE (option (list obj_t) * tokens_t) :=
  closed ← token_is_operator token 93;
  if (closed : bool) then mret (Some l, working)
  else
    sep ← token_is_operator token 44;
    if negb sep then mret (None, working)
    else
      match n with
      | O => throw OutOfFuel
      | S n =>
        '(obj, working) ← parse_value working;
        match obj with
        | None => mret (None, working)
        | Some obj =>
          let l := qlist_append_obj l obj in
          let '(token, working) := qlist_pop working in array_loop n l token working
        end
      end.
Definition parse_array (n : nat) (tokens : tokens_t) : PARSE (option obj_t * tokens_t) :=
  let working := qlist_copy tokens in
  let '(token, working) := qlist_pop working in
  opens ← token_is_operator token 91;
  if negb opens then mret (None, tokens)
  else
    let peek := qlist_peek working in
    closed ← token_is_operator peek 93;
    if negb closed then
      '(obj, working) ← parse_value working;
      match obj with
      | None => mret (None, tokens)
      | Some obj =>
        let l := qlist_append_obj [] obj in
        let '(token, working) := qlist_pop working in
        '(l, working) ← array_loop n l token working;
        match l with
        | None => mret (None, tokens)
        | Some l => mret (Some (QList l), working)
        end
      end
    else
      let '(token, working) := qlist_pop working in mret (Some (QList []), working).
End rules.

Fixpoint parse_value (fuel : nat) (tokens : tokens_t) : PARSE (option obj_t * tokens_t) :=
  match fuel with
  | O => throw OutOfFuel
  | S n =>
    '(obj, tokens) ← parse_object (parse_value n) n tokens;
    '(obj, tokens) ← (match obj with None => parse_array (parse_value n) n tokens | _ => mret (obj, tokens) end);
    '(obj, tokens) ← (match obj with None => parse_escape tokens | _ => mret (obj, tokens) end);
    '(obj, tokens) ← (match obj with None => parse_keyword tokens | _ => mret (obj, tokens) end);
    match obj with None => parse_literal tokens | _ => mret (obj, tokens) end
  end.

(** Every nested value and every turn of a loop takes a token. *)
Definition json_parser_parse (tokens : tokens_t) : PARSE (option obj_t) :=
  let working := qlist_copy tokens in
  '(result, working) ← parse_value (S (length tokens)) working;
  mret result.

(** ** From a string: the messages of the streamer are parsed in order, the last result
    stays. *)
Definition parse_json (s : option obj_t) (tokens : list jtoken) : PARSE (option obj_t) :=
  json_parser_parse (List.map token_obj tokens).
Fixpoint parse_messages (s : option obj_t) (l : list (list jtoken)) : PARSE (option obj_t) :=
  match l with [] => mret s | m :: l => s ← parse_json s m; parse_messages s l end.

Definition qobject_from_jsonv (string : list Z) : PARSE (option obj_t) :=
  match (json_message_parser_feed string ;; json_message_parser_flush)
          (json_lexer_init, json_message_parser_init) with
  | Ok (_, (_, p)) => parse_messages None (messages p)
  | Err e => throw e
  end.
Definition qobject_from_json (string : list Z) : outcome (option obj_t) :=
  match qobject_from_jsonv string None with Ok (r, _) => Ok r | Err e => Err e end.
Definition qobject_from_jsonf (string : list Z) (args : list va_arg) : outcome (option obj_t) :=
  match qobject_from_jsonv string (Some args) with Ok (r, _) => Ok r | Err e => Err e end.
End values.
