(* ===== verification/QjsonParse.v ===== *)
(** * QjsonParse: the parser on the messages of the streamer (json-parser.c)

    A list of tokens in which no brace or bracket is left open never makes the parser
    read past its end: inside an object or an array the tokens that remain still have
    to close it. *)
From S2P Require Import Prelude Irq Json Qdict Qobject Qjson.
From stdpp Require Import gmap.
From Stdlib Require Import (notations) String.
#[local] Open Scope Z_scope.

Section parser.
  Context {double : Type} `{Libc double}.
  Abbreviation obj_t := (qobject double).
  Abbreviation st := (option (list (va_arg (double := double)))).
  Implicit Types (t : jtoken) (toks : list jtoken).

(** ** Reading a token *)
Lemma token_dict t : exists d, token_obj (double := double) t = QDictionary d /\
  qdict_get d (cstr "type") = Some (QInt (token_code (ty t))) /\
  qdict_get d (cstr "token") = Some (QString (text t)).
Proof.
  eexists. split; [reflexivity|].
  pose proof (new_wf (V := obj_t)) as W0.
  pose proof (proj1 (put_wf _ (cstr "type") (QInt (token_code (ty t))) W0)) as W1.
  pose proof (proj1 (put_wf _ (cstr "token") (QString (text t)) W1)) as W2.
  pose proof (proj1 (put_wf _ (cstr "x") (QInt (tx t)) W2)) as W3.
  rewrite !get_put by done. by split.
Qed.
Lemma token_type_wp t (s : st) (Q : Z -> _ -> Prop) : Q (token_code (ty t)) s ->
  wp no_err (token_get_type (Some (token_obj t))) Q s.
Proof.
  intros HQ. destruct (token_dict t) as (d & Hd & H1 & H2). unfold token_get_type. rewrite Hd.
  unfold qobject_to_qdict. wp_step. wp_step. apply wp_deref_Some. wp_step. wp_step.
  apply wp_deref_Some. by eapply get_int_wp.
Qed.
Lemma token_value_wp t (s : st) (Q : list Z -> _ -> Prop) : Q (text t) s ->
  wp no_err (token_get_value (Some (token_obj t))) Q s.
Proof.
  intros HQ. destruct (token_dict t) as (d & Hd & H1 & H2). unfold token_get_value. rewrite Hd.
  unfold qobject_to_qdict. wp_step. wp_step. apply wp_deref_Some. wp_step. wp_step.
  apply wp_deref_Some. by eapply get_str_wp.
Qed.

#[local] Opaque token_obj token_get_type token_get_value.

(** What the token tests answer. *)
Definition is_op (op : Z) t : bool :=
  bool_decide (ty t = JSON_OPERATOR) && (char_at (text t) =? op) && (char_at (next (text t)) =? 0).
Definition is_word (w : list Z) (type : json_token_type) t : bool :=
  bool_decide (ty t = type) && bool_decide (text t = w).

Lemma code_eq (a b : json_token_type) : (token_code a =? token_code b) = bool_decide (a = b).
Proof. by destruct a, b. Qed.
Lemma is_operator_wp op t (s : st) (Q : bool -> _ -> Prop) : Q (is_op op t) s ->
  wp no_err (token_is_operator (Some (token_obj t)) op) Q s.
Proof.
  intros HQ. unfold token_is_operator. wp_step. apply token_type_wp. rewrite code_eq.
  unfold is_op in HQ. destruct (bool_decide (ty t = JSON_OPERATOR)); cbn [negb andb] in *; [|by wp_step].
  wp_step. apply token_value_wp. by wp_step.
Qed.
Lemma is_keyword_wp w t (s : st) (Q : bool -> _ -> Prop) : Q (is_word w JSON_KEYWORD t) s ->
  wp no_err (token_is_keyword (Some (token_obj t)) w) Q s.
Proof.
  intros HQ. unfold token_is_keyword. wp_step. apply token_type_wp. rewrite code_eq.
  unfold is_word in HQ. destruct (bool_decide (ty t = JSON_KEYWORD)); cbn [negb andb] in *; [|by wp_step].
  wp_step. apply token_value_wp. by wp_step.
Qed.

(** ** Decoding a string never fails an assertion *)
Lemma utf8_wp {S} w (s : S) (Q : list Z -> S -> Prop) :
  Q (if w <=? 0x7F then [Z.land w 0x7F]
     else if w <=? 0x7FF then [Z.lor 0xC0 (Z.land (Z.shiftr w 6) 0x1F); Z.lor 0x80 (Z.land w 0x3F)]
     else [Z.lor 0xE0 (Z.land (Z.shiftr w 12) 0x0F); Z.lor 0x80 (Z.land (Z.shiftr w 6) 0x3F);
           Z.lor 0x80 (Z.land w 0x3F)]) s ->
  wp no_err (wchar_to_utf8 w 4) Q s.
Proof.
  intros HQ. unfold wchar_to_utf8, c_assert.
  change (4 <? 2) with false. change (4 <? 3) with false. change (4 <? 4) with false. cbn [negb].
  destruct (w <=? 0x7F); [by wp_step; wp_step; wp_step|].
  destruct (w <=? 0x7FF); by wp_step; wp_step; wp_step.
Qed.
Lemma unescape_total {S} q n ptr (s : S) : (length ptr <= n)%nat ->
  wp no_err (unescape q ptr) (fun _ s' => s' = s) s.
Proof.
  revert ptr. induction n as [|n IH]; intros [|c ptr] Hn; cbn [length unescape] in *; try (by wp_step); [lia|].
  destruct (c =? q); [by wp_step|]. destruct (c =? 92).
  - destruct ptr as [|e ptr]; [by wp_step|]. cbn [length] in Hn. destruct (single_escape e).
    { wp_step. eapply wp_mono; [apply IH; lia|]. intros r s' ->. by wp_step. }
    destruct (e =? 117); [|by wp_step]. destruct ptr as [|h1 [|h2 [|h3 [|h4 ptr]]]]; try (by wp_step).
    cbn [length] in Hn. destruct (_ && _); [|by wp_step]. wp_step. apply utf8_wp.
    wp_step. eapply wp_mono; [apply IH; lia|]. intros r s' ->. by wp_step.
  - wp_step. eapply wp_mono; [apply IH; lia|]. intros r s' ->. by wp_step.
Qed.

(** ** The tokens that remain *)
Definition closing toks : Prop := (depth toks).1 <= 0 /\ (depth toks).2 <= 0.

Lemma op_depth op t : is_op op t = true -> op <> 0 ->
  depth1 t = if op =? 123 then (1, 0) else if op =? 125 then (-1, 0)
             else if op =? 91 then (0, 1) else if op =? 93 then (0, -1) else (0, 0).
Proof.
  unfold is_op, depth1. intros [[Ht%bool_decide_eq_true Hc%Z.eqb_eq]%andb_true_iff _]%andb_true_iff Hop.
  rewrite Ht. destruct (text t) as [|c l]; cbn in Hc; subst op; [done|reflexivity].
Qed.
Lemma depth_cons t toks : depth (t :: toks) = ((depth1 t).1 + (depth toks).1, (depth1 t).2 + (depth toks).2).
Proof. done. Qed.

(** The result of a rule on [toks]: NULL, or a value and fewer tokens of the same depth. *)
Definition parsed {A} toks (r : option A * list obj_t) (s : st) : Prop :=
  s = None /\ exists rest, r.2 = List.map token_obj rest /\
    (r.1 <> None -> depth rest = depth toks /\ (length rest < length toks)%nat).
(** A rule that leaves the tokens alone when it fails. *)
Definition parsed_or_same {A} toks (r : option A * list obj_t) (s : st) : Prop :=
  parsed toks r s /\ (r.1 = None -> r.2 = List.map token_obj toks).

Lemma same_tokens {A} toks : parsed_or_same toks ((None : option A), List.map token_obj toks) None.
Proof. split; [|done]. split; [done|]. by exists toks. Qed.
Lemma took_one {A} t toks (o : option A) : depth1 t = (0, 0) ->
  parsed (t :: toks) (o, List.map token_obj toks) None.
Proof.
  intros Ht. split; [done|]. exists toks. split; [done|]. intros _. split; [|cbn; lia].
  rewrite depth_cons, Ht. cbn. by destruct (depth toks).
Qed.
Lemma other_depth t : ty t <> JSON_OPERATOR -> depth1 t = (0, 0).
Proof. unfold depth1. by destruct (ty t). Qed.

Lemma parse_keyword_wp t toks :
  wp no_err (parse_keyword (List.map token_obj (t :: toks))) (parsed_or_same (t :: toks)) None.
Proof.
  unfold parse_keyword. rewrite qlist_copy_id. cbn [List.map qlist_pop]. wp_step. apply token_type_wp.
  rewrite code_eq. destruct (bool_decide_reflect (ty t = JSON_KEYWORD)) as [Ht|Ht]; cbn [negb];
    [|wp_step; apply (same_tokens (t :: toks))].
  assert (depth1 t = (0, 0)) as Hd by (apply other_depth; by rewrite Ht).
  wp_step. apply is_keyword_wp. destruct (is_word _ _ _); [wp_step; split; [by apply took_one|done]|].
  wp_step. apply is_keyword_wp. destruct (is_word _ _ _); [wp_step; split; [by apply took_one|done]|].
  wp_step. apply token_value_wp. wp_step. apply (same_tokens (t :: toks)).
Qed.
Lemma parse_escape_wp toks :
  wp no_err (parse_escape (List.map token_obj toks)) (parsed_or_same toks) None.
Proof. unfold parse_escape. wp_step. wp_step. wp_step. apply same_tokens. Qed.
Lemma parse_literal_wp t toks :
  wp no_err (parse_literal (List.map token_obj (t :: toks))) (parsed (t :: toks)) None.
Proof.
  unfold parse_literal. rewrite qlist_copy_id. cbn [List.map qlist_pop]. wp_step. apply token_type_wp.
  rewrite !code_eq. destruct (bool_decide_reflect (ty t = JSON_STRING)) as [Ht|_].
  { wp_step. apply token_value_wp. wp_step. unfold qstring_from_escaped_str.
    eapply wp_mono; [by eapply unescape_total|]. intros r s' ->. wp_step. apply took_one, other_depth. by rewrite Ht. }
  destruct (bool_decide_reflect (ty t = JSON_INTEGER)) as [Ht|_].
  { wp_step. apply token_value_wp. wp_step. apply took_one, other_depth. by rewrite Ht. }
  destruct (bool_decide_reflect (ty t = JSON_FLOAT)) as [Ht|_].
  { wp_step. apply token_value_wp. wp_step. apply took_one, other_depth. by rewrite Ht. }
  wp_step. apply (same_tokens (t :: toks)).
Qed.

(** ** The rules *)
(** Tokens that still have something to close. *)
Definition open toks : Prop := closing toks /\ depth toks <> (0, 0).
Lemma open_cons toks : open toks -> exists t rest, toks = t :: rest.
Proof. intros [_ H2]. destruct toks as [|t rest]; [done|]. eauto. Qed.
Lemma open_depth toks rest : open toks -> depth rest = depth toks -> open rest.
Proof. unfold open, closing. by intros ? ->. Qed.
Lemma open_neutral t toks : depth1 t = (0, 0) -> open (t :: toks) -> open toks.
Proof. intros Ht H1. eapply open_depth; [exact H1|]. rewrite depth_cons, Ht. cbn. by destruct (depth toks). Qed.
Lemma neutral_depth t toks : depth1 t = (0, 0) -> depth (t :: toks) = depth toks.
Proof. intros Ht. rewrite depth_cons, Ht. cbn. by destruct (depth toks). Qed.

(** One nested value, on fewer than [m] tokens. *)
Definition value_ok (m : nat) (pv : list obj_t -> ST _ (option obj_t * list obj_t)) : Prop :=
  forall toks, toks <> [] -> closing toks -> (length toks < m)%nat ->
  wp no_err (pv (List.map token_obj toks)) (parsed toks) None.

Section rules.
  Context (pv : list obj_t -> ST (option (list (va_arg (double := double)))) (option obj_t * list obj_t)).
  Context (m : nat) (Hpv : value_ok m pv).

Lemma pv_open toks (Q : option obj_t * list obj_t -> _ -> Prop) : open toks -> (length toks < m)%nat ->
  (forall rest, Q (None, List.map token_obj rest) None) ->
  (forall o t rest, depth (t :: rest) = depth toks -> open (t :: rest) -> (length (t :: rest) < length toks)%nat ->
     Q (Some o, List.map token_obj (t :: rest)) None) ->
  wp no_err (pv (List.map token_obj toks)) Q None.
Proof.
  intros Ho Hl HN HS. eapply wp_mono.
  - apply Hpv; [by destruct (open_cons toks Ho) as (t & rest & ->)|apply Ho|done].
  - intros [[o|] w] s' (-> & rest & Hw & Hrest); cbn [fst snd] in *; subst w; [|apply HN].
    destruct (Hrest ltac:(done)) as [Hd Hlen].
    destruct (open_cons rest (open_depth toks rest Ho Hd)) as (t & rest' & ->).
    apply HS; [done|by eapply open_depth|done].
Qed.

Lemma parse_pair_wp dict toks : open toks -> (length toks < m)%nat ->
  wp no_err (parse_pair pv dict (List.map token_obj toks)) (parsed toks) None.
Proof.
  intros Ho Hl. unfold parse_pair. rewrite qlist_copy_id. wp_step. apply pv_open; [done|done| |].
  { intros rest. wp_step. apply (same_tokens toks). }
  intros k t rest Hd Ho1 Hl1. assert (parsed (A := QDict obj_t) toks (None, List.map token_obj toks) None) as Hfail
    by apply (same_tokens toks).
  destruct k as [v|k|d|l|v|v|]; try (by wp_step). cbn [List.map qlist_pop]. wp_step. apply is_operator_wp.
  destruct (is_op 58 t) eqn:Hop; cbn [negb]; [|by wp_step].
  assert (depth1 t = (0, 0)) as Ht by (by rewrite (op_depth _ _ Hop)).
  wp_step. apply pv_open; [by eapply open_neutral|cbn in *; lia| |]; [intros; by wp_step|].
  intros o t' rest' Hd' Ho' Hl'. wp_step. split; [done|]. exists (t' :: rest'). split; [done|]. intros _.
  rewrite Hd', <- (neutral_depth t rest Ht). cbn in *. split; [done|lia].
Qed.

(** The end of an object or array: the tokens left are one level further out. *)
Definition closed {A} (up : Z * Z) toks (r : option A * list obj_t) (s : st) : Prop :=
  s = None /\ (r.1 <> None -> exists rest, r.2 = List.map token_obj rest /\
    depth rest = ((depth toks).1 + up.1, (depth toks).2 + up.2) /\ (length rest < length toks)%nat).
Lemma closed_fail {A} up toks w : closed (A := A) up toks (None, w) None.
Proof. by split. Qed.
Lemma closed_mono {A} up toks toks' (r : option A * list obj_t) (s : st) : depth toks = depth toks' ->
  (length toks <= length toks')%nat -> closed up toks r s -> closed up toks' r s.
Proof.
  intros Hd Hl (-> & Hr). split; [done|]. intros Hne. destruct (Hr Hne) as (rest & Hw & Hdr & Hl').
  exists rest. split; [done|]. rewrite <- Hd. split; [done|lia].
Qed.
Lemma closed_here {A} op up t rest (o : option A) : is_op op t = true -> op <> 0 ->
  (op = 125 /\ up = (1, 0) \/ op = 93 /\ up = (0, 1)) ->
  closed up (t :: rest) (o, List.map token_obj rest) None.
Proof.
  intros Hop H0 Hup. split; [done|]. intros _. exists rest. split; [done|].
  rewrite depth_cons, (op_depth op t Hop H0). split; [|cbn; lia].
  destruct Hup as [[-> ->]|[-> ->]]; cbn [Z.eqb Pos.eqb fst snd];
    destruct (depth rest) as [a b]; cbn [fst snd]; f_equal; lia.
Qed.

Lemma object_loop_wp n dict t rest : open (t :: rest) -> (length rest <= n)%nat -> (length rest < m)%nat ->
  wp no_err (object_loop pv n dict (Some (token_obj t)) (List.map token_obj rest))
     (closed (1, 0) (t :: rest)) None.
Proof.
  revert dict t rest. induction n as [|n IH]; intros dict t rest Ho Hn Hm; cbn [object_loop];
    wp_step; apply is_operator_wp; (destruct (is_op 125 t) eqn:Hc;
      [wp_step; apply (closed_here 125); [done|done|by left]|]);
    wp_step; apply is_operator_wp; (destruct (is_op 44 t) eqn:Hs; cbn [negb];
      [|wp_step; apply closed_fail]);
    assert (depth1 t = (0, 0)) as Ht by (by rewrite (op_depth _ _ Hs));
    pose proof (open_neutral t rest Ht Ho) as Ho1; destruct (open_cons rest Ho1) as (t1 & r1 & ->).
  - cbn in Hn. lia.
  - wp_step. eapply wp_mono; [by apply parse_pair_wp|].
    intros [[d|] w] s' (-> & rest & Hw & Hrest); cbn [fst snd] in *; subst w; [|wp_step; apply closed_fail].
    destruct (Hrest ltac:(done)) as [Hd Hl]. pose proof (open_depth _ rest Ho1 Hd) as Ho2.
    destruct (open_cons rest Ho2) as (t2 & r2 & ->). cbn [List.map qlist_pop length] in *.
    eapply wp_mono; [apply IH; [done|lia|lia]|]. intros r s'. apply closed_mono; [|cbn; lia].
    rewrite Hd. symmetry. by apply neutral_depth.
Qed.
Lemma array_loop_wp n l t rest : open (t :: rest) -> (length rest <= n)%nat -> (length rest < m)%nat ->
  wp no_err (array_loop pv n l (Some (token_obj t)) (List.map token_obj rest))
     (closed (0, 1) (t :: rest)) None.
Proof.
  revert l t rest. induction n as [|n IH]; intros l t rest Ho Hn Hm; cbn [array_loop];
    wp_step; apply is_operator_wp; (destruct (is_op 93 t) eqn:Hc;
      [wp_step; apply (closed_here 93); [done|done|by right]|]);
    wp_step; apply is_operator_wp; (destruct (is_op 44 t) eqn:Hs; cbn [negb];
      [|wp_step; apply closed_fail]);
    assert (depth1 t = (0, 0)) as Ht by (by rewrite (op_depth _ _ Hs));
    pose proof (open_neutral t rest Ht Ho) as Ho1.
  - destruct (open_cons rest Ho1) as (t1 & r1 & ->). cbn in Hn. lia.
  - wp_step. apply pv_open; [done|done| |]; [intros; wp_step; apply closed_fail|].
    intros o t2 r2 Hd Ho2 Hl. cbn [List.map qlist_pop length] in *.
    eapply wp_mono; [apply IH; [done|lia|lia]|]. intros r s'. apply closed_mono; [|cbn; lia].
    rewrite Hd. symmetry. by apply neutral_depth.
Qed.

(** The outermost token of an object or array closes at the depth it opened. *)
Lemma closing_open op t rest : closing (t :: rest) -> is_op op t = true -> (op = 123 \/ op = 91) -> open rest.
Proof.
  unfold open, closing. intros [H1 H2] Hop Ho. rewrite depth_cons, (op_depth op t Hop) in H1, H2 by lia.
  destruct (depth rest) as [a b]. destruct Ho as [-> | ->]; cbn in *; (split; [lia|]); intros [= -> ->]; lia.
Qed.
Lemma opened_depth op up t toks rest : is_op op t = true -> (op = 123 /\ up = (1, 0) \/ op = 91 /\ up = (0, 1)) ->
  depth rest = ((depth toks).1 + up.1, (depth toks).2 + up.2) -> depth rest = depth (t :: toks).
Proof.
  intros Hop Hup ->. rewrite depth_cons, (op_depth op t Hop) by lia.
  destruct Hup as [[-> ->]|[-> ->]]; cbn [Z.eqb Pos.eqb fst snd]; f_equal; lia.
Qed.
(** From the end of the structure to the rule's result. *)
Lemma closed_same {A B} op up t toks (r : option A * list obj_t) (s' : st) (f : A -> B) :
  is_op op t = true -> (op = 123 /\ up = (1, 0) \/ op = 91 /\ up = (0, 1)) -> closed up toks r s' ->
  wp no_err (let '(o, w) := r in match o with
    | None => mret ((None : option B), List.map token_obj (t :: toks))
    | Some a => mret (Some (f a), w) end) (parsed_or_same (t :: toks)) s'.
Proof.
  intros Hop Hup (-> & Hr). destruct r as [[a|] w]; [|wp_step; apply same_tokens].
  destruct (Hr ltac:(done)) as (rest & Hw & Hd & Hl). cbn in Hw. subst w. wp_step. split; [|done].
  split; [done|]. exists rest. split; [done|]. intros _. split; [|cbn; lia]. by eapply opened_depth.
Qed.

Lemma parse_object_wp n t rest : closing (t :: rest) -> (length rest <= n)%nat -> (length rest < m)%nat ->
  wp no_err (parse_object pv n (List.map token_obj (t :: rest))) (parsed_or_same (t :: rest)) None.
Proof.
  intros Hc Hn Hm. unfold parse_object. rewrite qlist_copy_id. cbn [List.map qlist_pop]. wp_step.
  apply is_operator_wp. destruct (is_op 123 t) eqn:Hop; cbn [negb]; [|wp_step; apply (same_tokens (t :: rest))].
  pose proof (closing_open 123 t rest Hc Hop (or_introl eq_refl)) as Ho.
  destruct (open_cons rest Ho) as (t1 & r1 & ->). cbn [List.map qlist_peek head qlist_pop].
  wp_step. apply is_operator_wp. destruct (is_op 125 t1) eqn:Hcl; cbn [negb].
  - apply (closed_same 123 (1, 0) t (t1 :: r1) (Some qdict_new, List.map token_obj r1) None QDictionary);
      [done|by left|]. apply (closed_here 125); [done|done|by left].
  - wp_step. eapply wp_mono; [by apply (parse_pair_wp _ (t1 :: r1))|].
    intros [[d|] w] s' (-> & r2 & Hw & Hr); cbn [fst snd] in *; subst w;
      [|wp_step; apply (same_tokens (t :: t1 :: r1))].
    destruct (Hr ltac:(done)) as [Hd Hl]. destruct (open_cons r2 (open_depth _ _ Ho Hd)) as (t2 & r3 & ->).
    cbn [List.map qlist_pop length] in *. wp_step.
    eapply wp_mono; [apply (object_loop_wp n d t2 r3); [by eapply open_depth|lia|lia]|].
    intros r s' Hcl'. apply (closed_same 123 (1, 0) t (t1 :: r1) r s' QDictionary); [done|by left|].
    eapply closed_mono; [| |exact Hcl']; [by rewrite Hd|cbn; lia].
Qed.
Lemma parse_array_wp n t rest : closing (t :: rest) -> (length rest <= n)%nat -> (length rest < m)%nat ->
  wp no_err (parse_array pv n (List.map token_obj (t :: rest))) (parsed_or_same (t :: rest)) None.
Proof.
  intros Hc Hn Hm. unfold parse_array. rewrite qlist_copy_id. cbn [List.map qlist_pop]. wp_step.
  apply is_operator_wp. destruct (is_op 91 t) eqn:Hop; cbn [negb]; [|wp_step; apply (same_tokens (t :: rest))].
  pose proof (closing_open 91 t rest Hc Hop (or_intror eq_refl)) as Ho.
  destruct (open_cons rest Ho) as (t1 & r1 & ->). cbn [List.map qlist_peek head qlist_pop].
  wp_step. apply is_operator_wp. destruct (is_op 93 t1) eqn:Hcl; cbn [negb].
  - apply (closed_same 91 (0, 1) t (t1 :: r1) (Some [], List.map token_obj r1) None QList);
      [done|by right|]. apply (closed_here 93); [done|done|by right].
  - wp_step. apply (pv_open (t1 :: r1)); [done|done| |].
    { intros. wp_step. apply (same_tokens (t :: t1 :: r1)). }
    intros o t2 r3 Hd Ho2 Hl. cbn [List.map qlist_pop length] in *. wp_step.
    eapply wp_mono; [apply (array_loop_wp n _ t2 r3); [done|lia|lia]|].
    intros r s' Hcl'. apply (closed_same 91 (0, 1) t (t1 :: r1) r s' QList); [done|by right|].
    eapply closed_mono; [| |exact Hcl']; [by rewrite Hd|cbn; lia].
Qed.
End rules.

(** A rule that may follow one that failed. *)
Lemma parsed_next toks (m1 : ST st (option obj_t * list obj_t)) (m2 : list obj_t -> ST st (option obj_t * list obj_t)) Q :
  wp no_err m1 (parsed_or_same toks) None ->
  wp no_err (m2 (List.map token_obj toks)) Q None ->
  (forall r s, parsed toks r s -> Q r s) ->
  wp no_err ('(obj, tokens) ← m1; match obj with None => m2 tokens | _ => mret (obj, tokens) end) Q None.
Proof.
  intros H1 H2 HQ. wp_step. eapply wp_mono; [exact H1|].
  intros [[o|] w] s' [Hp Hs]; cbn [fst snd] in *.
  - wp_step. by apply HQ.
  - destruct Hp as [-> _]. by rewrite (Hs eq_refl).
Qed.

(** Fuel above the number of tokens is enough. *)
Lemma parse_value_ok n : value_ok n (parse_value n).
Proof.
  induction n as [|n IH]; intros toks Hne Hc Hl; [lia|]. destruct toks as [|t rest]; [done|].
  cbn [parse_value length] in *.
  assert (forall toks r s, parsed_or_same (A := obj_t) toks r s -> parsed toks r s) as Hweak by (by intros ? ? ? []).
  wp_step. eapply wp_mono; [apply (parse_object_wp _ n IH n t rest Hc); lia|].
  intros [[o|] w] s' [Hp Hs]; cbn [fst snd] in *.
  { wp_step. wp_step. wp_step. wp_step. wp_step. wp_step. by wp_step. }
  destruct Hp as [-> _]. rewrite (Hs eq_refl). clear Hs.
  wp_step. eapply wp_mono; [apply (parse_array_wp _ n IH n t rest Hc); lia|].
  intros [[o|] w'] s' [Hp Hs]; cbn [fst snd] in *.
  { wp_step. wp_step. wp_step. wp_step. by wp_step. }
  destruct Hp as [-> _]. rewrite (Hs eq_refl). clear Hs.
  wp_step. eapply wp_mono; [apply parse_escape_wp|].
  intros [[o|] w''] s' [Hp Hs]; cbn [fst snd] in *.
  { wp_step. wp_step. by wp_step. }
  destruct Hp as [-> _]. rewrite (Hs eq_refl).
  apply (parsed_next (t :: rest)); [apply parse_keyword_wp|apply parse_literal_wp|done].
Qed.
End parser.

(** ** Properties *)
Lemma parse_messages_ok {double} `{Libc double} (l : list (list jtoken)) (s : option (qobject double)) :
  Forall (fun msg => is_message msg /\ Z.of_nat (length msg) < 2 ^ 31) l -> wp no_err (parse_messages s l) (fun _ ap => ap = None) None.
Proof.
  revert s. induction l as [|msg l IH]; intros s Hl; cbn [parse_messages]; [by wp_step|].
  apply Forall_cons_1 in Hl as [[(Hne & Hd & _) Hlen] Hl].
  unfold settled in Hd. rewrite counts_depth in Hd by done. wp_step. unfold parse_json, json_parser_parse.
  rewrite qlist_copy_id. wp_step. eapply wp_mono.
  - apply (parse_value_ok _ msg Hne); [by unfold closing; rewrite Hd|]. rewrite length_map. lia.
  - intros [r w] ap [-> _]. wp_step. by apply IH.
Qed.

(** C17: a C string given to [qobject_from_json] always gives a result, a value or NULL: the lexer
    stays in its table, and the parser never reads past the end of a message, never
    dereferences NULL, never fails an assertion, and ends within the fuel of one unit per
    token.  The string is shorter than 2^31 bytes, as long as the streamer's int counters
    are exact: 2^32 opening braces alone would pass for a message.  With arguments it
    can: a NULL object given for a final %p is dereferenced. *)
Theorem json_parse_total {double} `{Libc double} (string : list Z) (Hs : Forall byte string)
    (Hlen : Z.of_nat (length string) < 2 ^ 31) :
  (exists r : option (qobject double), qobject_from_json string = Ok r) /\
  qobject_from_jsonf (cstr "%p") [VaObject None] = Err (A := option (qobject double)) Fault.
Proof.
  split; [|vm_compute; reflexivity].
  unfold qobject_from_json, qobject_from_jsonv. fold parser_start. pose proof (text_wp string) as Hlex.
  apply wp_total_ex in Hlex as (z & [l p] & -> & (Hm & _) & Hl).
  assert (Forall (fun msg => is_message msg /\ Z.of_nat (length msg) < 2 ^ 31) (messages p)) as Hmsgs.
  { apply Forall_forall. intros msg Hin. split; [by apply (proj1 (Forall_forall _ _) Hm)|].
    pose proof (message_length msg p Hin). lia. }
  pose proof (parse_messages_ok (double := double) (messages p) None Hmsgs) as Hok.
  apply wp_total_ex in Hok as (r & ap & -> & _). by exists r.
Qed.
#[local] Instance no_floats : Libc unit := {| fmt_f _ := []; strtod _ := tt |}.
Example json_parse_total_witness :
  exists r : option (qobject unit), qobject_from_json [123; 91; 125; 93; 34; 92; 117; 48; 34] = Ok r.
Proof. apply (json_parse_total [123; 91; 125; 93; 34; 92; 117; 48; 34]); [repeat constructor; done|done]. Defined.
