(* ===== verification/QjsonPrint.v ===== *)
(** * QjsonPrint: the text that qobject_to_json writes

    The decoder of string tokens undoes the printer on UTF-8 text, strtoll undoes %PRId64,
    and the lexer cuts the text of a value into the value's tokens ([toks]). *)
From S2P Require Import Prelude Irq Json Qdict Qobject Qjson QjsonParse.
From stdpp Require Import gmap.
From Stdlib Require Import (notations) String.
#[local] Open Scope Z_scope.

(** ** Strings *)
(** UTF-8 text of the Basic Multilingual Plane, without NUL. *)
Definition continuation (c : Z) : Prop := 128 <= c < 192.
Inductive text_of : list Z -> Prop :=
| text_nil : text_of []
| text_one c s : 1 <= c < 128 -> text_of s -> text_of (c :: s)
| text_two c0 c1 s : 194 <= c0 < 224 -> continuation c1 -> text_of s -> text_of (c0 :: c1 :: s)
| text_three c0 c1 c2 s : 224 <= c0 < 240 -> continuation c1 -> continuation c2 ->
    (c0 = 224 -> 160 <= c1) -> text_of s -> text_of (c0 :: c1 :: c2 :: s).

(** Checking a property of all integers of a range. *)
Definition all_in (a b : Z) (f : Z -> bool) : bool :=
  forallb f (List.map (fun i => a + Z.of_nat i) (List.seq 0 (Z.to_nat (b - a)))).
Lemma all_in_spec a b f c : all_in a b f = true -> a <= c < b -> f c = true.
Proof.
  intros H Hc. apply (proj1 (forallb_forall _ _) H), in_map_iff.
  exists (Z.to_nat (c - a)). split; [lia|]. apply in_seq. lia.
Qed.

(** What [wchar_to_utf8] stores. *)
Definition utf8_of (w : Z) : list Z :=
  if w <=? 0x7F then [Z.land w 0x7F]
  else if w <=? 0x7FF then [Z.lor 0xC0 (Z.land (Z.shiftr w 6) 0x1F); Z.lor 0x80 (Z.land w 0x3F)]
  else [Z.lor 0xE0 (Z.land (Z.shiftr w 12) 0x0F); Z.lor 0x80 (Z.land (Z.shiftr w 6) 0x3F);
        Z.lor 0x80 (Z.land w 0x3F)].

Lemma land_mod x k : 0 <= k -> Z.land x (2 ^ k - 1) = x mod 2 ^ k.
Proof. intros Hk. rewrite <- Z.land_ones by done. by rewrite Z.ones_equiv, Z.sub_1_r. Qed.
Lemma shl_or hi lo k : 0 <= k -> 0 <= lo < 2 ^ k -> Z.lor (Z.shiftl hi k) lo = hi * 2 ^ k + lo.
Proof. intros Hk Hlo. rewrite Z.shiftl_mul_pow2 by done. by apply or_disjoint. Qed.

Lemma or_lead lead hi k lo : lead = hi * 2 ^ k -> 0 <= k -> fits k lo -> Z.lor lead lo = hi * 2 ^ k + lo.
Proof. intros -> Hk Hlo. by apply or_disjoint. Qed.

Lemma hex_back d : 0 <= d < 16 ->
  hex2decimal (hex_digit d) = d /\ qemu_isxdigit (hex_digit d) = true /\ hex (hex_digit d).
Proof.
  intros Hd. pose proof (all_in_spec 0 16 (fun d => (hex2decimal (hex_digit d) =? d) &&
    qemu_isxdigit (hex_digit d)) d eq_refl Hd) as H. cbv beta in H.
  apply andb_true_iff in H as [H1%Z.eqb_eq H2]. split; [done|]. split; [done|].
  unfold qemu_isxdigit in H2. unfold hex. lia.
Qed.
Lemma unicode_digits a b c d : 0 <= a < 16 -> 0 <= b < 16 -> 0 <= c < 16 -> 0 <= d < 16 ->
  unicode_char (hex_digit a) (hex_digit b) (hex_digit c) (hex_digit d) = a * 4096 + b * 256 + c * 16 + d.
Proof.
  intros Ha Hb Hc Hd. unfold unicode_char. cbn [fold_left].
  rewrite (proj1 (hex_back a Ha)), (proj1 (hex_back b Hb)), (proj1 (hex_back c Hc)), (proj1 (hex_back d Hd)).
  change ((3 - 0) * 4) with 12. change ((3 - 1) * 4) with 8. change ((3 - 2) * 4) with 4. change ((3 - 3) * 4) with 0.
  rewrite Z.lor_0_l, !Z.shiftl_mul_pow2 by done.
  rewrite (wrap_fits 16 (a * 2 ^ 12)) by (unfold fits; lia).
  rewrite (or_disjoint a (b * 2 ^ 8) 12) by (unfold fits; lia).
  rewrite (wrap_fits 16 (a * 2 ^ 12 + b * 2 ^ 8)) by (unfold fits; lia).
  replace (a * 2 ^ 12 + b * 2 ^ 8) with ((a * 16 + b) * 2 ^ 8) by lia.
  rewrite (or_disjoint _ (c * 2 ^ 4) 8) by (unfold fits; lia).
  rewrite (wrap_fits 16 ((a * 16 + b) * 2 ^ 8 + c * 2 ^ 4)) by (unfold fits; lia).
  replace ((a * 16 + b) * 2 ^ 8 + c * 2 ^ 4) with ((a * 256 + b * 16 + c) * 2 ^ 4) by lia.
  rewrite (or_disjoint _ (d * 2 ^ 0) 4) by (unfold fits; lia).
  rewrite wrap_fits by (unfold fits; lia). lia.
Qed.
Lemma fmt_digits w : 0 <= w < 65536 -> exists a b c d,
  fmt_04X w = [hex_digit a; hex_digit b; hex_digit c; hex_digit d] /\
  0 <= a < 16 /\ 0 <= b < 16 /\ 0 <= c < 16 /\ 0 <= d < 16 /\ w = a * 4096 + b * 256 + c * 16 + d.
Proof.
  intros Hw. unfold fmt_04X. cbn [List.map]. change 15 with (2 ^ 4 - 1). rewrite !land_mod by done.
  rewrite !Z.shiftr_div_pow2 by done. change (2 ^ 4) with 16. change (2 ^ 12) with 4096.
  change (2 ^ 8) with 256. change (2 ^ 0) with 1.
  eexists _, _, _, _. split; [reflexivity|]. Z.to_euclidean_division_equations. lia.
Qed.

Lemma one_byte c : 1 <= c < 128 ->
  (Z.land c 0xE0 =? 0xE0) = false /\ (Z.land c 0xE0 =? 0xC0) = false.
Proof.
  intros Hc. pose proof (all_in_spec 1 128
    (fun c => negb (Z.land c 0xE0 =? 0xE0) && negb (Z.land c 0xE0 =? 0xC0)) c eq_refl Hc) as H.
  cbv beta in H. by destruct (_ =? 0xE0), (_ =? 0xC0).
Qed.
Lemma cont_byte c : continuation c -> truth (Z.land c 0x80) = true /\ Z.land c 0x3F = c - 128.
Proof.
  intros Hc. split; [exact (all_in_spec 128 192 (fun c => truth (Z.land c 0x80)) c eq_refl Hc)|].
  change 0x3F with (2 ^ 6 - 1). rewrite land_mod by done. unfold continuation in Hc.
  Z.to_euclidean_division_equations. lia.
Qed.
Lemma lead_two c : 194 <= c < 224 -> (Z.land c 0xE0 =? 0xE0) = false /\ (Z.land c 0xE0 =? 0xC0) = true.
Proof.
  intros Hc. pose proof (all_in_spec 194 224
    (fun c => negb (Z.land c 0xE0 =? 0xE0) && (Z.land c 0xE0 =? 0xC0)) c eq_refl Hc) as H.
  cbv beta in H. by destruct (_ =? 0xE0), (_ =? 0xC0).
Qed.
Lemma lead_three c : 224 <= c < 240 -> (Z.land c 0xE0 =? 0xE0) = true.
Proof. intros Hc. exact (all_in_spec 224 240 (fun c => Z.land c 0xE0 =? 0xE0) c eq_refl Hc). Qed.

Lemma wchar2_value c0 c1 : 194 <= c0 < 224 -> continuation c1 ->
  wchar2 c0 c1 = (c0 - 192) * 64 + (c1 - 128).
Proof.
  intros H0 H1. unfold wchar2. cbv zeta. rewrite (proj2 (cont_byte c1 H1)). unfold continuation in H1.
  change 0x1F with (2 ^ 5 - 1). rewrite land_mod by done.
  replace (c0 mod 2 ^ 5) with (c0 - 192) by (Z.to_euclidean_division_equations; lia).
  rewrite (wrap_fits 16 (Z.shiftl (c0 - 192) 6)) by (rewrite Z.shiftl_mul_pow2 by done; unfold fits; lia).
  rewrite shl_or by lia. apply wrap_fits. unfold fits. lia.
Qed.
Lemma wchar3_value c0 c1 c2 : 224 <= c0 < 240 -> continuation c1 -> continuation c2 ->
  wchar3 c0 c1 c2 = (c0 - 224) * 4096 + (c1 - 128) * 64 + (c2 - 128).
Proof.
  intros H0 H1 H2. unfold wchar3. cbv zeta. rewrite (proj2 (cont_byte c1 H1)), (proj2 (cont_byte c2 H2)).
  unfold continuation in *. change 0x0F with (2 ^ 4 - 1). rewrite land_mod by done.
  replace (c0 mod 2 ^ 4) with (c0 - 224) by (Z.to_euclidean_division_equations; lia).
  rewrite (wrap_fits 16 (Z.shiftl (c0 - 224) 12)) by (rewrite Z.shiftl_mul_pow2 by done; unfold fits; lia).
  rewrite shl_or by (rewrite ?Z.shiftl_mul_pow2 by done; lia). rewrite Z.shiftl_mul_pow2 by done.
  rewrite (wrap_fits 16 (_ + _)) by (unfold fits; lia).
  replace ((c0 - 224) * 2 ^ 12 + (c1 - 128) * 2 ^ 6) with (((c0 - 224) * 64 + (c1 - 128)) * 2 ^ 6) by lia.
  rewrite or_disjoint by (unfold fits; lia). rewrite wrap_fits by (unfold fits; lia). lia.
Qed.
Lemma utf8_two c0 c1 : 194 <= c0 < 224 -> continuation c1 ->
  c_string (utf8_of ((c0 - 192) * 64 + (c1 - 128))) = [c0; c1].
Proof.
  unfold continuation. intros H0 H1. unfold utf8_of. set (w := (c0 - 192) * 64 + (c1 - 128)).
  rewrite (proj2 (Z.leb_gt w 0x7F)), (proj2 (Z.leb_le w 0x7FF)) by lia.
  change 0x1F with (2 ^ 5 - 1). change 0x3F with (2 ^ 6 - 1). rewrite Z.shiftr_div_pow2, !land_mod by done.
  replace ((w / 2 ^ 6) mod 2 ^ 5) with (c0 - 192) by (subst w; Z.to_euclidean_division_equations; lia).
  replace (w mod 2 ^ 6) with (c1 - 128) by (subst w; Z.to_euclidean_division_equations; lia).
  rewrite (or_lead 0xC0 6 5), (or_lead 0x80 2 6) by (done || (unfold fits; lia)).
  replace (6 * 2 ^ 5 + (c0 - 192)) with c0 by lia. replace (2 * 2 ^ 6 + (c1 - 128)) with c1 by lia.
  cbn [c_string]. by rewrite (proj2 (Z.eqb_neq c0 0)), (proj2 (Z.eqb_neq c1 0)) by lia.
Qed.
Lemma utf8_three c0 c1 c2 : 224 <= c0 < 240 -> continuation c1 -> continuation c2 -> (c0 = 224 -> 160 <= c1) ->
  c_string (utf8_of ((c0 - 224) * 4096 + (c1 - 128) * 64 + (c2 - 128))) = [c0; c1; c2].
Proof.
  unfold continuation. intros H0 H1 H2 Hlow. unfold utf8_of.
  set (w := (c0 - 224) * 4096 + (c1 - 128) * 64 + (c2 - 128)).
  rewrite (proj2 (Z.leb_gt w 0x7F)), (proj2 (Z.leb_gt w 0x7FF)) by lia.
  change 0x0F with (2 ^ 4 - 1). change 0x3F with (2 ^ 6 - 1). rewrite !Z.shiftr_div_pow2, !land_mod by done.
  replace ((w / 2 ^ 12) mod 2 ^ 4) with (c0 - 224) by (subst w; Z.to_euclidean_division_equations; lia).
  replace ((w / 2 ^ 6) mod 2 ^ 6) with (c1 - 128) by (subst w; Z.to_euclidean_division_equations; lia).
  replace (w mod 2 ^ 6) with (c2 - 128) by (subst w; Z.to_euclidean_division_equations; lia).
  rewrite (or_lead 0xE0 14 4), (or_lead 0x80 2 6 (c1 - 128)), (or_lead 0x80 2 6 (c2 - 128))
    by (done || (unfold fits; lia)).
  replace (14 * 2 ^ 4 + (c0 - 224)) with c0 by lia.
  replace (2 * 2 ^ 6 + (c1 - 128)) with c1 by lia. replace (2 * 2 ^ 6 + (c2 - 128)) with c2 by lia.
  cbn [c_string]. by rewrite (proj2 (Z.eqb_neq c0 0)), (proj2 (Z.eqb_neq c1 0)), (proj2 (Z.eqb_neq c2 0)) by lia.
Qed.

(** The printer on one character. *)
Lemma escape_one c s : 1 <= c < 128 -> escape_string (c :: s) = escape_char c ++ escape_string s.
Proof. intros Hc. cbn [escape_string]. by rewrite (proj1 (one_byte c Hc)), (proj2 (one_byte c Hc)). Qed.
Lemma escape_two c0 c1 s : 194 <= c0 < 224 -> continuation c1 ->
  escape_string (c0 :: c1 :: s) = 92 :: 117 :: fmt_04X ((c0 - 192) * 64 + (c1 - 128)) ++ escape_string s.
Proof.
  intros H0 H1. rewrite <- wchar2_value by done. remember (c1 :: s) as s1 eqn:E. cbn [escape_string].
  subst s1. cbn [char_at hd next]. by rewrite (proj1 (lead_two c0 H0)), (proj2 (lead_two c0 H0)), (proj1 (cont_byte c1 H1)).
Qed.
Lemma escape_three c0 c1 c2 s : 224 <= c0 < 240 -> continuation c1 -> continuation c2 ->
  escape_string (c0 :: c1 :: c2 :: s) =
  92 :: 117 :: fmt_04X ((c0 - 224) * 4096 + (c1 - 128) * 64 + (c2 - 128)) ++ escape_string s.
Proof.
  intros H0 H1 H2. rewrite <- wchar3_value by done. remember (c1 :: c2 :: s) as s1 eqn:E. cbn [escape_string].
  subst s1. cbn [char_at hd next].
  by rewrite (lead_three c0 H0), (proj1 (cont_byte c1 H1)), (proj1 (cont_byte c2 H2)).
Qed.

(** The decoder on one escape. *)
Section decoder.
  Context {S : Type}.
Lemma unescape_u w rest (s : S) (Q : option (list Z) -> S -> Prop) : 0 <= w < 65536 ->
  wp no_err (unescape 34 rest) (fun r s' => Q (prepend (c_string (utf8_of w)) r) s') s ->
  wp no_err (unescape 34 (92 :: 117 :: fmt_04X w ++ rest)) Q s.
Proof.
  intros Hw Hk. destruct (fmt_digits w Hw) as (a & b & c & d & -> & Ha & Hb & Hc & Hd & Hwd).
  pose proof (unicode_digits a b c d Ha Hb Hc Hd) as Hu. rewrite <- Hwd in Hu.
  destruct (hex_back a Ha) as (_ & Xa & _), (hex_back b Hb) as (_ & Xb & _),
    (hex_back c Hc) as (_ & Xc & _), (hex_back d Hd) as (_ & Xd & _).
  set (h1 := hex_digit a) in *. set (h2 := hex_digit b) in *. set (h3 := hex_digit c) in *. set (h4 := hex_digit d) in *.
  cbn [unescape app]. change (92 =? 34) with false. change (92 =? 92) with true.
  change (single_escape 117) with (@None Z). change (117 =? 117) with true. cbv iota.
  rewrite Xa, Xb, Xc, Xd. cbn [andb]. wp_step. rewrite Hu. apply utf8_wp. fold (utf8_of w).
  wp_step. eapply wp_mono; [exact Hk|]. intros r s' HQ. by wp_step.
Qed.
Lemma unescape_one c rest (s : S) (Q : option (list Z) -> S -> Prop) : 1 <= c < 128 ->
  wp no_err (unescape 34 rest) (fun r s' => Q (prepend [c] r) s') s ->
  wp no_err (unescape 34 (escape_char c ++ rest)) Q s.
Proof.
  intros Hc Hk. unfold escape_char.
  assert (forall e ch, single_escape e = Some ch ->
    wp no_err (unescape 34 rest) (fun r s' => Q (prepend [ch] r) s') s ->
    wp no_err (unescape 34 (92 :: e :: rest)) Q s) as Hesc.
  { intros e ch He Hk'. cbn [unescape]. change (92 =? 34) with false. change (92 =? 92) with true. cbv iota.
    rewrite He. wp_step. eapply wp_mono; [exact Hk'|]. intros r s' HQ. by wp_step. }
  destruct (Z.eqb_spec c 34) as [->|N1]; [by apply (Hesc 34 34)|].
  destruct (Z.eqb_spec c 92) as [->|N2]; [by apply (Hesc 92 92)|].
  destruct (Z.eqb_spec c 8) as [->|N3]; [by apply (Hesc 98 8)|].
  destruct (Z.eqb_spec c 10) as [->|N4]; [by apply (Hesc 110 10)|].
  destruct (Z.eqb_spec c 13) as [->|N5]; [by apply (Hesc 114 13)|].
  destruct (Z.eqb_spec c 9) as [->|N6]; [by apply (Hesc 116 9)|].
  cbn [app unescape]. rewrite (proj2 (Z.eqb_neq c 34)), (proj2 (Z.eqb_neq c 92)) by done.
  wp_step. eapply wp_mono; [exact Hk|]. intros r s' HQ. by wp_step.
Qed.
Lemma unescape_text t (s : S) : text_of t ->
  wp no_err (unescape 34 (escape_string t ++ [34])) (fun r s' => r = Some t /\ s' = s) s.
Proof.
  induction 1 as [|c t Hc Ht IH|c0 c1 t H0 H1 Ht IH|c0 c1 c2 t H0 H1 H2 Hl Ht IH].
  - done.
  - rewrite escape_one, <- app_assoc by done. apply unescape_one; [done|].
    eapply wp_mono; [exact IH|]. by intros r s' [-> ->].
  - rewrite escape_two by done. cbn [app]. rewrite <- app_assoc.
    apply unescape_u; [unfold continuation in *; lia|].
    eapply wp_mono; [exact IH|]. intros r s' [-> ->]. by rewrite utf8_two.
  - rewrite escape_three by done. cbn [app]. rewrite <- app_assoc.
    apply unescape_u; [unfold continuation in *; lia|].
    eapply wp_mono; [exact IH|]. intros r s' [-> ->]. by rewrite utf8_three.
Qed.
End decoder.

(** The printed string is a token of the grammar, unless it has a backslash. *)
Lemma body_app q a b : str_body q a -> str_body q b -> str_body q (a ++ b).
Proof.
  intros Ha. induction 1 as [|b c Hb IH|b c Hb IH|b h1 h2 h3 h4 Hb IH]; [by rewrite app_nil_r|..];
    rewrite app_assoc; by constructor.
Qed.
Lemma body_u w : 0 <= w < 65536 -> str_body 34 (92 :: 117 :: fmt_04X w).
Proof.
  intros Hw. destruct (fmt_digits w Hw) as (a & b & c & d & -> & Ha & Hb & Hc & Hd & _).
  apply (sb_uni 34 []); [constructor|by apply hex_back..].
Qed.
Lemma body_one c : 1 <= c < 128 -> c <> 92 -> str_body 34 (escape_char c).
Proof.
  intros Hc Hne. unfold escape_char. rewrite (proj2 (Z.eqb_neq c 92)) by done.
  assert (forall e, e ∈ [98; 102; 110; 114; 116; 39; 34] -> str_body 34 [92; e]) as Hesc
    by (intros e He; apply (sb_esc 34 [] e); [constructor|done]).
  destruct (Z.eqb_spec c 34); [apply Hesc; in_bytes c|]. destruct (Z.eqb_spec c 8); [apply Hesc; in_bytes c|].
  destruct (Z.eqb_spec c 10); [apply Hesc; in_bytes c|]. destruct (Z.eqb_spec c 13); [apply Hesc; in_bytes c|].
  destruct (Z.eqb_spec c 9); [apply Hesc; in_bytes c|]. apply (sb_char 34 []); [constructor|lia..].
Qed.
Lemma escape_body t : text_of t -> 92 ∉ t -> str_body 34 (escape_string t).
Proof.
  induction 1 as [|c t Hc Ht IH|c0 c1 t H0 H1 Ht IH|c0 c1 c2 t H0 H1 H2 Hl Ht IH]; intros Hn; [constructor|..];
    rewrite ?not_elem_of_cons in Hn.
  - rewrite escape_one by done. destruct Hn as [Hn1 Hn2]. apply body_app; [by apply body_one; [|congruence]|by apply IH].
  - rewrite escape_two by done. apply (body_app 34 (92 :: 117 :: _)); [|apply IH, Hn].
    apply body_u. unfold continuation in *. lia.
  - rewrite escape_three by done. apply (body_app 34 (92 :: 117 :: _)); [|apply IH, Hn].
    apply body_u. unfold continuation in *. lia.
Qed.
Lemma string_token t : text_of t -> 92 ∉ t -> is_token JSON_STRING (to_json_string t).
Proof. intros Ht Hn. exists 34, (escape_string t). split; [by left|]. split; [by apply escape_body|done]. Qed.

(** ** Integers *)
Lemma digits_snoc acc l c : Forall digit l -> digit c ->
  digits_value acc (l ++ [c]) = 10 * digits_value acc l + (c - 48).
Proof.
  unfold digit. intros Hl Hc. revert acc. induction Hl as [|d l Hd Hl IH]; intros acc; cbn [app digits_value].
  - by rewrite (proj2 (Z.leb_le 48 c)), (proj2 (Z.leb_le c 57)) by lia.
  - rewrite (proj2 (Z.leb_le 48 d)), (proj2 (Z.leb_le d 57)) by lia. apply IH.
Qed.
Lemma dec_digits_ok f n : 0 <= n < 10 ^ Z.of_nat f -> (0 < f)%nat ->
  Forall digit (dec_digits f n) /\ digits_value 0 (dec_digits f n) = n /\ dec_digits f n <> [] /\
  (0 < n -> nonzero (dec_digits f n) /\ nonzero (45 :: dec_digits f n)).
Proof.
  revert n. induction f as [|f IH]; intros n Hn Hf; [lia|]. cbn [dec_digits].
  destruct (Z.ltb_spec n 10) as [Hs|Hs].
  - split_and!.
    + constructor; [unfold digit; lia|constructor].
    + cbn [digits_value]. rewrite (proj2 (Z.leb_le 48 (48 + n))), (proj2 (Z.leb_le (48 + n) 57)) by lia. cbn [andb digits_value]. lia.
    + done.
    + intros H0. split; [apply nz_one; lia|apply nz_neg; lia].
  - assert (f <> 0%nat) as Hf0 by (intros ->; cbn in Hn; lia).
    rewrite Nat2Z.inj_succ, Z.pow_succ_r in Hn by lia.
    assert (0 <= n / 10 < 10 ^ Z.of_nat f) as Hq by (Z.to_euclidean_division_equations; lia).
    destruct (IH (n / 10) Hq ltac:(lia)) as (H1 & H2 & H3 & H4).
    assert (digit (48 + n mod 10)) as Hd by (unfold digit; Z.to_euclidean_division_equations; lia).
    assert (0 < n / 10) as H0 by (Z.to_euclidean_division_equations; lia). destruct (H4 H0) as [N1 N2].
    split_and!.
    + apply Forall_app. split; [done|]. constructor; [done|constructor].
    + rewrite digits_snoc, H2 by done. Z.to_euclidean_division_equations; lia.
    + by destruct (dec_digits f (n / 10)).
    + intros _. split; [by apply nz_more|]. by apply (nz_more (45 :: _)).
Qed.
Lemma digit_head l : Forall digit l -> l <> [] -> digit (char_at l).
Proof. intros Hl Hne. destruct l as [|c l]; [done|]. by apply Forall_cons_1 in Hl as [Hc _]. Qed.
Lemma fmt_d_ok v : - 2 ^ 63 <= v < 2 ^ 63 -> integer (fmt_d v) /\ strtoll (fmt_d v) = v.
Proof.
  intros Hv. unfold fmt_d. destruct (Z.ltb_spec v 0) as [Hneg|Hpos].
  - destruct (dec_digits_ok 20 (- v)) as (H1 & H2 & _ & H4); [lia|lia|].
    split; [apply int_nonzero, H4; lia|]. unfold strtoll. cbn [char_at hd next Z.eqb Pos.eqb].
    rewrite H2. unfold clamp64. lia.
  - destruct (dec_digits_ok 20 v) as (H1 & H2 & H3 & H4); [lia|lia|]. split.
    + destruct (Z.eq_dec v 0) as [->|Hv0]; [apply int_zero|]. apply int_nonzero, H4. lia.
    + unfold strtoll. pose proof (digit_head _ H1 H3) as Hh. unfold digit in Hh.
      rewrite (proj2 (Z.eqb_neq (char_at (dec_digits 20 v)) 45)),
        (proj2 (Z.eqb_neq (char_at (dec_digits 20 v)) 43)), H2 by lia. unfold clamp64. lia.
Qed.

(** ** The tokens of a value *)
Definition join_with {A} (sep : list A) (xs : list (list A)) : list A :=
  match xs with [] => [] | x :: xs => x ++ concat (List.map (fun y => sep ++ y) xs) end.
Definition op (c : Z) : json_token_type * list Z := (JSON_OPERATOR, [c]).

Section trip.
  Context {double : Type} `{Libc double}.
  Abbreviation obj_t := (qobject double).

Fixpoint toks (o : obj_t) : list (json_token_type * list Z) :=
  match o with
  | QInt v => [(JSON_INTEGER, fmt_d v)]
  | QString s => [(JSON_STRING, to_json_string s)]
  | QBool v => [(JSON_KEYWORD, if truth v then cstr "true" else cstr "false")]
  | QList l => op 91 :: join_with [op 44] (List.map toks l) ++ [op 93]
  | QDictionary d =>
    op 123 :: join_with [op 44] (concat (List.map (List.map (fun kv =>
      (JSON_STRING, to_json_string kv.1) :: op 58 :: toks kv.2)) (table d))) ++ [op 125]
  | QFloat _ | QError => []
  end.
(** A key, the colon and the value. *)
Definition pair_toks (kv : key * obj_t) : list (json_token_type * list Z) :=
  (JSON_STRING, to_json_string kv.1) :: op 58 :: toks kv.2.
Definition pair_text (kv : key * obj_t) : list Z := to_json_string kv.1 ++ [58; 32] ++ to_json kv.2.

Lemma concat_map_entries {B} (f : key * obj_t -> B) (d : QDict obj_t) :
  concat (List.map (List.map f) (table d)) = List.map f (entries d).
Proof. unfold entries. by rewrite concat_map. Qed.
Lemma toks_list l : toks (QList l) = op 91 :: join_with [op 44] (List.map toks l) ++ [op 93].
Proof. done. Qed.
Lemma toks_dict d : toks (QDictionary d) = op 123 :: join_with [op 44] (List.map pair_toks (entries d)) ++ [op 125].
Proof. rewrite <- concat_map_entries. done. Qed.

Lemma list_iter_rest l n out : 0 < n ->
  str (fold_left to_json_list_iter l (mkIter n out)) = out ++ concat (List.map (fun y => [44; 32] ++ y) l).
Proof.
  revert n out. induction l as [|y l IH]; intros n out Hn; cbn [fold_left List.map concat]; [by rewrite app_nil_r|].
  unfold to_json_list_iter at 2. cbn [count str]. rewrite (proj2 (truth_true n)) by lia.
  rewrite IH by lia. change (cstr ", ") with [44; 32]. by rewrite !app_assoc.
Qed.
Lemma json_list l : to_json (QList l) = 91 :: join_with [44; 32] (List.map to_json l) ++ [93].
Proof.
  cbn [to_json]. change (cstr "[") with [91]. change (cstr "]") with [93].
  enough (str (fold_left to_json_list_iter (List.map to_json l) (mkIter 0 [91])) = 91 :: join_with [44; 32] (List.map to_json l)) as ->
    by done.
  destruct (List.map to_json l) as [|y ys]; [done|]. cbn [fold_left]. unfold to_json_list_iter at 2.
  cbn [count str truth Z.eqb negb]. rewrite list_iter_rest by lia. cbn [app join_with]. by rewrite ?app_nil_r.
Qed.
Lemma dict_iter_rest l n out : 0 < n ->
  str (fold_left to_json_dict_iter (List.map (fun kv => (kv.1, to_json kv.2)) l) (mkIter n out)) =
  out ++ concat (List.map (fun y => [44; 32] ++ y) (List.map pair_text l)).
Proof.
  revert n out. induction l as [|[k v] l IH]; intros n out Hn; cbn [fold_left List.map concat fst snd]; [by rewrite app_nil_r|].
  unfold to_json_dict_iter at 2. cbn [count str fst snd]. rewrite (proj2 (truth_true n)) by lia.
  rewrite IH by lia. change (cstr ", ") with [44; 32]. change (cstr ": ") with [58; 32].
  unfold pair_text. cbn [fst snd]. by rewrite !app_assoc.
Qed.
Lemma json_dict d : to_json (QDictionary d) = 123 :: join_with [44; 32] (List.map pair_text (entries d)) ++ [125].
Proof.
  cbn [to_json]. change (cstr "{") with [123]. change (cstr "}") with [125].
  rewrite (concat_map_entries (fun kv => (kv.1, to_json kv.2)) d).
  enough (str (fold_left to_json_dict_iter (List.map (fun kv => (kv.1, to_json kv.2)) (entries d)) (mkIter 0 [123])) =
    123 :: join_with [44; 32] (List.map pair_text (entries d))) as -> by done.
  destruct (entries d) as [|[k v] l]; [done|]. cbn [List.map fold_left fst snd]. unfold to_json_dict_iter at 2.
  cbn [count str truth Z.eqb negb fst snd]. rewrite dict_iter_rest by lia. change (cstr ": ") with [58; 32].
  cbn [join_with]. unfold pair_text at 2. cbn [fst snd app]. rewrite ?app_nil_r.
  by rewrite <- (app_assoc (to_json_string k) [58; 32]).
Qed.
End trip.

(** ** Lexing piece by piece *)
Definition view (t : jtoken) : json_token_type * list Z := (ty t, text t).
Abbreviation LX := (JSONLexer * JSONMessageParser)%type.

(** The tokens read so far are [ks], the last of them complete but still held. *)
Definition pend (ks : list (json_token_type * list Z)) (m : LX) : Prop :=
  let '(l, p) := m in stream_inv p /\ exists ks0 ty0 s0, ks = ks0 ++ [(ty0, token l)] /\
  view <$> seen p = ks0 /\ state l = St s0 /\ ty0 <> JSON_SKIP /\ cell s0 44 = Tok ty0.
(** The tokens read so far are [ks] and a token may begin: nothing, white space or an
    operator is held. *)
Definition ready (ks : list (json_token_type * list Z)) (m : LX) : Prop :=
  let '(l, p) := m in stream_inv p /\
  (state l = St IN_START /\ token l = [] /\ view <$> seen p = ks \/
   state l = St IN_WHITESPACE /\ view <$> seen p = ks \/
   state l = St IN_OPERATOR_DONE /\ exists ks0, ks = ks0 ++ [(JSON_OPERATOR, token l)] /\ view <$> seen p = ks0).

(** Feeding [bs] succeeds and establishes [P]. *)
Definition feeds (bs : list Z) (P : LX -> Prop) (m : LX) : Prop :=
  wp no_err (json_message_parser_feed bs) (fun r m' => r = 0 /\ P m') m.

Lemma feeds_app b1 b2 P m : feeds b1 (feeds b2 P) m -> feeds (b1 ++ b2) P m.
Proof. destruct m as [l p]. apply feed_app. Qed.
Lemma feeds_mono bs (P P' : LX -> Prop) m : feeds bs P m -> (forall m', P m' -> P' m') -> feeds bs P' m.
Proof. intros H HP. eapply wp_mono; [exact H|]. intros r m' [H1 H2]. split; [done|by apply HP]. Qed.
Lemma feeds_char c bs P m :
  wp no_err (json_lexer_feed_char json_message_process_token c) (fun r m' => r = 0 /\ feeds bs P m') m ->
  feeds (c :: bs) P m.
Proof.
  intros H. unfold feeds, json_message_parser_feed. cbn [json_lexer_feed]. wp_step.
  eapply wp_mono; [exact H|]. by intros r m' [-> H'].
Qed.
Lemma feeds_nil (P : LX -> Prop) m : P m -> feeds [] P m.
Proof. intros H. by apply wp_ret. Qed.

Lemma view_skip cx cy t : view <$> filter (fun k => ty k <> JSON_SKIP) [mkToken JSON_SKIP t cx cy] = [].
Proof. done. Qed.
Lemma view_kept ty0 t cx cy : ty0 <> JSON_SKIP ->
  view <$> filter (fun k => ty k <> JSON_SKIP) [mkToken ty0 t cx cy] = [(ty0, t)].
Proof. intros H. by rewrite filter_cons, decide_True. Qed.

(** The state of a complete token ends at every separator. *)
Lemma ends_at s ty0 c : cell s 44 = Tok ty0 -> c ∈ [44; 58; 93; 125; 0] -> cell s c = Tok ty0.
Proof. intros Hs Hc. destruct s; vm_compute in Hs; try discriminate Hs; in_list Hc; exact Hs. Qed.

(** A token whose first byte is neither white space nor above ASCII. *)
Definition token_start (c : Z) : Prop := 0 < c < 128 /\ ~ space c.
Lemma ready_end c : token_start c ->
  cell IN_OPERATOR_DONE c = Tok JSON_OPERATOR /\ cell IN_WHITESPACE c = Tok JSON_SKIP.
Proof.
  unfold token_start, space. intros [Hc Hs]. rewrite !not_elem_of_cons in Hs. destruct Hs as (H1 & H2 & H3 & H4 & _).
  split; cell_cases; reflexivity.
Qed.

Lemma ready_token ty0 t c0 t0 ks m : t = c0 :: t0 -> is_token ty0 t -> ty0 <> JSON_SKIP -> token_start c0 ->
  ready ks m -> feeds t (pend (ks ++ [(ty0, t)])) m.
Proof.
  intros -> Ht Hns Hc0. destruct m as [l p]. intros [Hp Hready].
  destruct (run_token ty0 (c0 :: t0) Ht) as (s & Hrun & Hcell).
  pose proof (is_token_nonzero ty0 _ Ht) as Hnz.
  destruct Hready as [(Hs & Htok & Hk)|Hready].
  { eapply wp_mono; [by apply (feed_run json_message_process_token _ IN_START s l p)|].
    intros r [l' p'] (-> & -> & Hs' & Ht'). split; [done|]. split; [done|].
    exists ks, ty0, s. rewrite Ht', Htok. done. }
  apply Forall_cons_1 in Hnz as [Hz Hnz].
  assert (exists s1, cell IN_START c0 = St s1 /\ run s1 t0 = Some s) as (s1 & E & Hr)
    by (cbn [run] in Hrun; destruct (cell IN_START c0) as [[]|]; try discriminate Hrun; eauto).
  destruct (ready_end c0 Hc0) as [Hop Hws].
  assert (exists sx tyx, state l = St sx /\ cell sx c0 = Tok tyx /\
    forall cx cy, (view <$> seen p) ++ (view <$> filter (fun k => ty k <> JSON_SKIP) [mkToken tyx (token l) cx cy]) = ks)
    as (sx & tyx & Hs & Hcx & Hks).
  { destruct Hready as [(Hs & Hk)|(Hs & ks0 & -> & Hk)].
    - exists IN_WHITESPACE, JSON_SKIP. split; [done|]. split; [done|]. intros. by rewrite view_skip, app_nil_r.
    - exists IN_OPERATOR_DONE, JSON_OPERATOR. split; [done|]. split; [done|]. intros. by rewrite view_kept, Hk. }
  apply feeds_char. eapply wp_mono; [by apply (end_char_wp tyx sx s1 c0 l p)|].
  intros r [l1 p1] (-> & Hs1 & Ht1 & Hp1 & cx & cy & Hseen). split; [done|]. specialize (Ht1 Hz).
  eapply wp_mono; [by apply (feed_run json_message_process_token t0 s1 s l1 p1)|].
  intros r [l' p'] (-> & -> & Hs' & Ht'). split; [done|]. split; [done|].
  exists ks, ty0, s. rewrite Ht', Ht1. split; [done|]. split; [|done]. by rewrite Hseen, fmap_app.
Qed.

(** A separator after a complete token. *)
Lemma pend_op c ks m : c ∈ [44; 58; 93; 125] -> pend ks m ->
  feeds [c] (fun m' => pend (ks ++ [op c]) m' /\ ready (ks ++ [op c]) m') m.
Proof.
  intros Hc. destruct m as [l p]. intros (Hp & ks0 & ty0 & s0 & -> & Hk & Hs & Hns & Hcell).
  assert (cell IN_START c = St IN_OPERATOR_DONE) as Hst by (by in_list Hc).
  apply feeds_char. eapply wp_mono.
  - apply (end_char_wp ty0 s0 IN_OPERATOR_DONE c l p); [done| |done|done].
    apply ends_at; [done|]. in_list Hc; in_states.
  - intros r [l1 p1] (-> & Hs1 & Ht1 & Hp1 & cx & cy & Hseen). split; [done|]. apply feeds_nil.
    specialize (Ht1 ltac:(by in_list Hc)).
    assert (view <$> seen p1 = ks0 ++ [(ty0, token l)]) as Hk1 by (by rewrite Hseen, fmap_app, Hk, view_kept).
    split.
    + split; [done|]. exists (ks0 ++ [(ty0, token l)]), JSON_OPERATOR, IN_OPERATOR_DONE. by rewrite Ht1.
    + split; [done|]. right. right. split; [done|]. exists (ks0 ++ [(ty0, token l)]). by rewrite Ht1.
Qed.
(** The space that follows a comma or a colon. *)
Lemma op_space ks c m : pend (ks ++ [op c]) m -> feeds [32] (ready (ks ++ [op c])) m.
Proof.
  destruct m as [l p]. intros (Hp & ks0 & ty0 & s0 & E & Hk & Hs & Hns & Hcell).
  apply app_inj_tail in E as [<- E]. injection E as <- Htok.
  assert (cell s0 32 = Tok JSON_OPERATOR) as H32 by (destruct s0; vm_compute in Hcell; try discriminate Hcell; reflexivity).
  apply feeds_char. eapply wp_mono; [by apply (end_char_wp JSON_OPERATOR s0 IN_WHITESPACE 32 l p)|].
  intros r [l1 p1] (-> & Hs1 & Ht1 & Hp1 & cx & cy & Hseen). split; [done|]. apply feeds_nil.
  split; [done|]. right. left. split; [done|]. rewrite Hseen, fmap_app, Hk, view_kept, <- Htok by done. done.
Qed.
Lemma pend_sep c ks m : c ∈ [44; 58] -> pend ks m -> feeds [c; 32] (ready (ks ++ [op c])) m.
Proof.
  intros Hc Hm. apply (feeds_app [c] [32]). eapply feeds_mono; [apply pend_op; [|done]|].
  - in_list Hc; in_states.
  - intros m' [H' _]. by apply op_space.
Qed.

(** ** Lexing a printed value *)
Lemma pend_ready ks c m : pend (ks ++ [op c]) m -> ready (ks ++ [op c]) m.
Proof.
  destruct m as [l p]. intros (Hp & ks0 & ty0 & s0 & E & Hk & Hs & Hns & Hcell).
  apply app_inj_tail in E as [<- E]. injection E as <- Htok. split; [done|]. right. right.
  split; [destruct s0; vm_compute in Hcell; (discriminate Hcell || exact Hs)|].
  exists ks. by rewrite <- Htok.
Qed.
Lemma open_op c ks m : c ∈ [91; 123] -> ready ks m -> feeds [c] (pend (ks ++ [op c])) m.
Proof.
  intros Hc Hm. apply (ready_token JSON_OPERATOR [c] c []); [done| |done| |done].
  - exists c. split; [|done]. unfold operators. in_list Hc; in_states.
  - in_list Hc; (split; [lia|]); unfold space; rewrite !not_elem_of_cons;
      (split_and!; [lia..|apply not_elem_of_nil]).
Qed.

(** Pieces that each lex as a value, joined by commas. *)
Section pieces.
  Context {A : Type} (f : A -> list Z) (g : A -> list (json_token_type * list Z)).
Definition lexes_as (x : A) : Prop := forall ks m, ready ks m -> feeds (f x) (pend (ks ++ g x)) m.

Lemma rest_feeds xs ks m : Forall lexes_as xs -> pend ks m ->
  feeds (concat (List.map (fun y => [44; 32] ++ y) (List.map f xs)))
    (pend (ks ++ concat (List.map (fun y => [op 44] ++ y) (List.map g xs)))) m.
Proof.
  intros Hxs. revert ks m. induction Hxs as [|x xs Hx Hxs IH]; intros ks m Hm; cbn [List.map concat].
  - rewrite app_nil_r. by apply feeds_nil.
  - rewrite <- app_assoc. apply feeds_app. eapply feeds_mono; [by apply pend_sep; [in_states|]|].
    intros m1 Hm1. apply feeds_app. eapply feeds_mono; [by apply Hx|]. intros m2 Hm2.
    eapply feeds_mono; [by apply IH|]. intros m3. by rewrite <- !app_assoc.
Qed.
Lemma join_feeds x xs ks m : Forall lexes_as (x :: xs) -> ready ks m ->
  feeds (join_with [44; 32] (List.map f (x :: xs))) (pend (ks ++ join_with [op 44] (List.map g (x :: xs)))) m.
Proof.
  intros [Hx Hxs]%Forall_cons_1 Hm. cbn [List.map join_with]. apply feeds_app.
  eapply feeds_mono; [by apply Hx|]. intros m1 Hm1. eapply feeds_mono; [by apply rest_feeds|].
  intros m2. by rewrite <- app_assoc.
Qed.
Lemma enclosed_feeds o c xs ks m : o ∈ [91; 123] -> c ∈ [93; 125] -> Forall lexes_as xs -> ready ks m ->
  feeds (o :: join_with [44; 32] (List.map f xs) ++ [c])
    (pend (ks ++ op o :: join_with [op 44] (List.map g xs) ++ [op c])) m.
Proof.
  intros Ho Hc Hxs Hm. apply (feeds_app [o]). eapply feeds_mono; [by apply open_op|]. intros m1 Hm1.
  assert (c ∈ [44; 58; 93; 125]) as Hc' by (in_list Hc; in_states).
  assert (forall ks' m', pend ks' m' -> feeds [c] (pend (ks' ++ [op c])) m') as Hclose
    by (intros ks' m' H'; eapply feeds_mono; [by apply pend_op|]; by intros m'' []).
  destruct xs as [|x xs].
  - cbn [List.map join_with app]. eapply feeds_mono; [by apply Hclose|]. intros m2. by rewrite <- app_assoc.
  - apply feeds_app. eapply feeds_mono; [apply join_feeds; [done|by apply pend_ready]|]. intros m2 Hm2.
    eapply feeds_mono; [by apply Hclose|]. intros m3. by rewrite <- !app_assoc.
Qed.
End pieces.

Section values.
  Context {double : Type} `{Libc double}.
  Abbreviation obj_t := (qobject double).

(** What can be written and read back: 64-bit integers, text without a backslash, booleans,
    and lists and dictionaries of such values. *)
Definition plain_text (s : list Z) : Prop := text_of s /\ 92 ∉ s.
#[warnings="-register-all"]
Inductive printable : obj_t -> Prop :=
| pr_int v : - 2 ^ 63 <= v < 2 ^ 63 -> printable (QInt v)
| pr_string s : plain_text s -> printable (QString s)
| pr_bool v : printable (QBool v)
| pr_list l : Forall printable l -> printable (QList l)
| pr_dict d : wf d -> Forall (fun kv => plain_text kv.1 /\ printable kv.2) (entries d) -> printable (QDictionary d).

Lemma string_feeds s ks m : plain_text s -> ready ks m ->
  feeds (to_json_string s) (pend (ks ++ [(JSON_STRING, to_json_string s)])) m.
Proof.
  intros [Ht Hn]. apply (ready_token JSON_STRING _ 34 (escape_string s ++ [34])); [done|by apply string_token|done|].
  split; [lia|]. unfold space. rewrite !not_elem_of_cons. split_and!; try lia. apply not_elem_of_nil.
Qed.
Lemma digit_start c : digit c \/ c = 45 -> token_start c.
Proof.
  unfold digit. intros Hc. split; [lia|]. unfold space. rewrite !not_elem_of_cons.
  split_and!; try lia. apply not_elem_of_nil.
Qed.
Lemma letter_start c : letter c -> token_start c.
Proof.
  unfold letter. intros Hc. split; [lia|]. unfold space. rewrite !not_elem_of_cons.
  split_and!; try lia. apply not_elem_of_nil.
Qed.
Lemma integer_head l : integer l -> exists c l', l = c :: l' /\ (digit c \/ c = 45).
Proof.
  assert (forall l, nonzero l -> exists c l', l = c :: l' /\ (digit c \/ c = 45)) as Hn.
  { induction 1 as [c Hc|c Hc|l0 c Hl (c0 & l1 & -> & Hc0) Hc]; [eexists _, _; split; [done|]; unfold digit; lia|
      by eexists _, _; split; [done|right]|by eexists c0, _]. }
  intros [| |l' Hl]; [by eexists _, _; split; [done|left]|by eexists _, _; split; [done|right]|by apply Hn].
Qed.
Lemma entries_Forall (P : key * obj_t -> Prop) d : Forall (Forall P) (table d) -> Forall P (entries d).
Proof. apply Forall_concat. Qed.

Lemma value_feeds (o : obj_t) : printable o -> lexes_as to_json toks o.
Proof.
  induction o as [v|s|d IH|l IH|v|v|] using qobject_nested_ind; intros Hp; inversion Hp; subst; intros ks m Hm.
  - destruct (fmt_d_ok v) as [Hi _]; [done|]. destruct (integer_head _ Hi) as (c & l & E & Hc).
    eapply ready_token; [exact E|exact Hi|done|by apply digit_start|done].
  - by apply string_feeds.
  - rewrite json_dict, toks_dict. apply enclosed_feeds; [in_states|in_states| |done].
    apply entries_Forall in IH. rename select (Forall _ (entries d)) into Hent.
    apply Forall_forall. intros [k v] Hin. pose proof (proj1 (Forall_forall _ _) IH _ Hin) as IHv.
    pose proof (proj1 (Forall_forall _ _) Hent _ Hin) as [Hk Hv]. cbn [fst snd] in *.
    intros ks' m' Hm'. unfold pair_text, pair_toks. cbn [fst snd]. apply feeds_app.
    eapply feeds_mono; [by apply string_feeds|]. intros m1 Hm1. apply feeds_app.
    eapply feeds_mono; [by apply pend_sep; [in_states|]|]. intros m2 Hm2.
    eapply feeds_mono; [by apply IHv|]. intros m3. by rewrite <- !app_assoc.
  - rewrite json_list, toks_list. apply enclosed_feeds; [in_states|in_states| |done].
    rename select (Forall printable l) into Hl. apply Forall_forall. intros x Hx.
    apply (proj1 (Forall_forall _ _) IH x Hx). by apply (proj1 (Forall_forall _ _) Hl).
  - cbn [to_json toks]. destruct (truth v);
      (eapply ready_token; [reflexivity| |done|apply letter_start; unfold letter; cbn; lia|done]);
      (split; [done|]); repeat (constructor; [unfold letter; cbn; lia|]); constructor.
Qed.
End values.
