(* ===== verification/QjsonTrip.v ===== *)
(** * QjsonTrip: what qobject_to_json writes, qobject_from_json reads back

    The parser rebuilds a value from its tokens; with the printer and lexer of
    QjsonPrint this is the round trip of a whole value. *)
From S2P Require Import Prelude Irq Json Qdict Qobject Qjson QjsonParse QjsonPrint.
From stdpp Require Import gmap.
From Stdlib Require Import (notations) String.
#[local] Open Scope Z_scope.

(** ** The tokens of a value are a message *)
Abbreviation tok := (json_token_type * list Z)%type.
Definition tdepth (ks : list tok) : Z * Z := depth (List.map (fun k => mkToken k.1 k.2 0 0) ks).
Lemma depth_view ts : depth ts = tdepth (view <$> ts).
Proof. induction ts as [|t ts IH]; [done|]. cbn. by rewrite IH. Qed.
Lemma tdepth_app a b : tdepth (a ++ b) = ((tdepth a).1 + (tdepth b).1, (tdepth a).2 + (tdepth b).2).
Proof. unfold tdepth. by rewrite map_app, depth_app. Qed.

(** Balanced, and never below the depth it starts from. *)
Definition safe (ks : list tok) : Prop :=
  tdepth ks = (0, 0) /\ forall l1 l2, ks = l1 ++ l2 -> 0 <= (tdepth l1).1 /\ 0 <= (tdepth l1).2.
Lemma safe_nil : safe [].
Proof. split; [done|]. intros l1 l2 E. symmetry in E. apply app_eq_nil in E as [-> _]. done. Qed.
Lemma safe_app a b : safe a -> safe b -> safe (a ++ b).
Proof.
  intros [Ha Pa] [Hb Pb]. split; [by rewrite tdepth_app, Ha, Hb|]. intros l1 l2 E.
  apply app_eq_inv in E as [(k & -> & ->)|(k & -> & ->)].
  - by eapply Pa.
  - rewrite tdepth_app, Ha. cbn [fst snd Z.add]. by eapply Pb.
Qed.
Lemma safe_one k : tdepth [k] = (0, 0) -> safe [k].
Proof.
  intros Hk. split; [done|]. intros [|k' [|k'' l1]] l2 E; [done| |discriminate E].
  injection E as <- <-. by rewrite Hk.
Qed.
Lemma safe_concat l : Forall safe l -> safe (concat l).
Proof. induction 1; [apply safe_nil|by apply safe_app]. Qed.
Lemma safe_join l : Forall safe l -> safe (join_with [op 44] l).
Proof.
  destruct 1 as [|x l Hx Hl]; [apply safe_nil|]. cbn [join_with]. apply safe_app; [done|]. apply safe_concat.
  apply List.Forall_map. eapply Forall_impl; [exact Hl|]. intros y Hy. apply safe_app; [by apply safe_one|done].
Qed.

Definition pair_ops (o c : Z) : Prop := o = 91 /\ c = 93 \/ o = 123 /\ c = 125.
Lemma enclosed_prefix o c ks l1 l2 : pair_ops o c -> safe ks -> op o :: ks ++ [op c] = l1 ++ l2 ->
  l1 <> [] -> l2 <> [] -> 0 <= (tdepth l1).1 /\ 0 <= (tdepth l1).2 /\ tdepth l1 <> (0, 0).
Proof.
  intros Ho [Hk Hpre] E H1 H2. destruct l1 as [|k l1]; [done|]. injection E as <- E.
  destruct l2 as [|k2 l2] using rev_ind; [done|]. clear IHl2. rewrite app_assoc in E.
  apply app_inj_tail in E as [E _]. destruct (Hpre l1 l2 E) as [P1 P2].
  change (op o :: l1) with ([op o] ++ l1). rewrite tdepth_app.
  destruct (tdepth l1) as [a b]. destruct Ho as [[-> ->]|[-> ->]]; cbn in *;
    (split_and!; [lia|lia|intros [= ? ?]; lia]).
Qed.
Lemma enclosed_depth o c ks : pair_ops o c -> safe ks -> tdepth (op o :: ks ++ [op c]) = (0, 0).
Proof.
  intros Ho [Hk _]. change (op o :: ks ++ [op c]) with ([op o] ++ ks ++ [op c]).
  rewrite !tdepth_app, Hk. by destruct Ho as [[-> ->]|[-> ->]].
Qed.
Lemma safe_enclosed o c ks : pair_ops o c -> safe ks -> safe (op o :: ks ++ [op c]).
Proof.
  intros Ho Hk. split; [by apply enclosed_depth|]. intros l1 l2 E.
  destruct l1 as [|k l1]; [done|]. destruct l2 as [|k2 l2].
  - rewrite app_nil_r in E. rewrite <- E, (enclosed_depth o c ks Ho Hk). done.
  - destruct (enclosed_prefix o c ks (k :: l1) (k2 :: l2) Ho Hk E) as (? & ? & _); done.
Qed.

Section trip.
  Context {double : Type} `{Libc double}.
  Abbreviation obj_t := (qobject double).

(** One token, or a list or dictionary. *)
Lemma toks_shape (o : obj_t) : printable o -> (exists k, toks o = [k] /\ k.1 <> JSON_OPERATOR) \/
  exists a c ks, pair_ops a c /\ toks o = op a :: ks ++ [op c] /\ safe ks.
Proof.
  assert (forall k : tok, k.1 <> JSON_OPERATOR -> safe [k]) as Hone
    by (intros [ty tx] Hk; apply safe_one; unfold tdepth; cbn; by destruct ty).
  assert (forall o : obj_t, ((exists k, toks o = [k] /\ k.1 <> JSON_OPERATOR) \/
    exists a c ks, pair_ops a c /\ toks o = op a :: ks ++ [op c] /\ safe ks) -> safe (toks o)) as Hsafe.
  { intros o' [(k & -> & Hk)|(a & c & ks & Ho & -> & Hk)]; [by apply Hone|by apply safe_enclosed]. }
  induction o as [v|s|d IH|l IH|v|v|] using qobject_nested_ind; intros Hp; inversion Hp; subst.
  - left. by eexists.
  - left. by eexists.
  - right. rewrite toks_dict. eexists 123, 125, _. split; [by right|]. split; [reflexivity|].
    apply entries_Forall in IH. rename select (Forall _ (entries d)) into Hent.
    apply safe_join. apply List.Forall_map. apply Forall_forall. intros [k v] Hin.
    pose proof (proj1 (Forall_forall _ _) IH _ Hin) as IHv.
    pose proof (proj1 (Forall_forall _ _) Hent _ Hin) as [Hk Hv]. cbn [fst snd] in *.
    apply (safe_app [(JSON_STRING, to_json_string k)]); [by apply Hone|]. apply (safe_app [op 58]); [by apply safe_one|].
    by apply Hsafe, IHv.
  - right. rewrite toks_list. eexists 91, 93, _. split; [by left|]. split; [reflexivity|].
    rename select (Forall printable l) into Hl. apply safe_join. apply List.Forall_map.
    apply Forall_forall. intros x Hx. apply Hsafe, (proj1 (Forall_forall _ _) IH x Hx).
    by apply (proj1 (Forall_forall _ _) Hl).
  - left. by eexists.
Qed.

Lemma toks_message (o : obj_t) ts : printable o -> Z.of_nat (length ts) < 2 ^ 31 ->
  view <$> ts = toks o -> is_message ts.
Proof.
  intros Hp Hlen Hv. destruct (toks_shape o Hp) as [(k & E & Hk)|(a & c & ks & Ho & E & Hk)]; rewrite E in Hv.
  - destruct ts as [|t [|]]; try discriminate Hv. injection Hv as <-. cbn in Hk. split; [done|]. split.
    + unfold settled. rewrite counts_depth, depth_one by done. unfold depth1. by destruct (ty t).
    + intros [|t1 [|]] [|t2 l2] E1 H1 H2; done.
  - split; [by intros ->|]. split.
    { unfold settled. rewrite counts_depth, depth_view, Hv by done. by apply enclosed_depth. }
    intros l1 l2 E1 H1 H2. subst ts. rewrite length_app in Hlen. unfold settled.
    rewrite counts_depth, depth_view by lia. rewrite fmap_app in Hv.
    apply (enclosed_prefix a c ks _ (view <$> l2) Ho Hk (eq_sym Hv)); by destruct l1, l2.
Qed.

(** ** Parsing the tokens of a value *)
(** What is read back: the same value, with the booleans 0 and 1 and every dictionary built
    anew by inserting its entries in the order of the iterator. *)
Fixpoint norm (o : obj_t) : obj_t :=
  match o with
  | QBool v => QBool (if truth v then 1 else 0)
  | QList l => QList (List.map norm l)
  | QDictionary d => QDictionary (fold_left (fun d kv => qdict_put_obj d kv.1 kv.2)
      (concat (List.map (List.map (fun kv => (kv.1, norm kv.2))) (table d))) qdict_new)
  | _ => o
  end.
Definition rebuild (l : list (key * obj_t)) (d : QDict obj_t) : QDict obj_t :=
  fold_left (fun d kv => qdict_put_obj d kv.1 (norm kv.2)) l d.
Lemma norm_dict d : norm (QDictionary d) = QDictionary (rebuild (entries d) qdict_new).
Proof.
  cbn [norm]. rewrite (concat_map_entries (fun kv => (kv.1, norm kv.2)) d). unfold rebuild. f_equal.
  generalize (entries d) as l, (qdict_new (V := obj_t)) as d0.
  induction l as [|kv l IH]; intros d0; cbn [List.map fold_left fst snd]; [done|]. apply IH.
Qed.

Abbreviation st := (option (list (va_arg (double := double)))).
(** The value is read from its tokens, whatever follows them. *)
Definition reads_back (pv : list obj_t -> ST st (option obj_t * list obj_t)) (m : nat) (o : obj_t) : Prop :=
  forall ts rest, view <$> ts = toks o -> (length ts <= m)%nat ->
  wp no_err (pv (List.map token_obj (ts ++ rest)))
    (fun r s => r = (Some (norm o), List.map token_obj rest) /\ s = None) None.

Lemma view_op o c t : view t = op c -> is_op o t = (c =? o).
Proof. intros [= H1 H2]. unfold is_op. rewrite H1, H2. cbn. by rewrite andb_true_r. Qed.
Lemma view_other o t : ty t <> JSON_OPERATOR -> is_op o t = false.
Proof. intros Ht. unfold is_op. by rewrite bool_decide_false. Qed.
Lemma view_cons ts k ks : view <$> ts = k :: ks -> exists t ts', ts = t :: ts' /\ view t = k /\ view <$> ts' = ks.
Proof. destruct ts as [|t ts]; [done|]. intros [= <- <-]. by exists t, ts. Qed.

(** A rule that does not apply. *)
Lemma no_object pv n t rest : is_op 123 t = false ->
  wp no_err (parse_object pv n (List.map token_obj (t :: rest)))
    (fun r s => r = (None, List.map token_obj (t :: rest)) /\ s = (None : st)) None.
Proof.
  intros Ht. unfold parse_object. rewrite qlist_copy_id. cbn [List.map qlist_pop]. wp_step.
  apply is_operator_wp. rewrite Ht. cbn [negb]. by wp_step.
Qed.
Lemma no_array pv n t rest : is_op 91 t = false ->
  wp no_err (parse_array pv n (List.map token_obj (t :: rest)))
    (fun r s => r = (None, List.map token_obj (t :: rest)) /\ s = (None : st)) None.
Proof.
  intros Ht. unfold parse_array. rewrite qlist_copy_id. cbn [List.map qlist_pop]. wp_step.
  apply is_operator_wp. rewrite Ht. cbn [negb]. by wp_step.
Qed.
Lemma parse_scalar n t rest (Q : option obj_t * list obj_t -> st -> Prop) : ty t <> JSON_OPERATOR ->
  wp no_err ('(obj, tokens) ← parse_keyword (List.map token_obj (t :: rest));
             match obj with None => parse_literal tokens | _ => mret (obj, tokens) end) Q None ->
  wp no_err (parse_value (S n) (List.map token_obj (t :: rest))) Q None.
Proof.
  intros Ht HQ. cbn [parse_value]. wp_step. eapply wp_mono; [by apply no_object, view_other|].
  intros r s [-> ->]. wp_step. eapply wp_mono; [by apply no_array, view_other|].
  intros r s [-> ->]. wp_step. unfold parse_escape. wp_step. wp_step. by wp_step.
Qed.
Lemma parse_value_array n ts rest (Q : option obj_t * list obj_t -> st -> Prop) t : view t = op 91 ->
  wp no_err (parse_array (parse_value n) n (List.map token_obj (t :: ts ++ rest)))
    (fun r s => r.1 <> None /\ Q r s) None ->
  wp no_err (parse_value (S n) (List.map token_obj (t :: ts ++ rest))) Q None.
Proof.
  intros Ht HQ. cbn [parse_value]. wp_step. eapply wp_mono; [apply no_object; by rewrite (view_op 123 91)|].
  intros r s [-> ->]. wp_step. eapply wp_mono; [exact HQ|]. intros [[o|] w] s [Hne HQ']; [|done].
  wp_step. wp_step. wp_step. wp_step. by wp_step.
Qed.
Lemma parse_value_object n ts rest (Q : option obj_t * list obj_t -> st -> Prop) t :
  wp no_err (parse_object (parse_value n) n (List.map token_obj (t :: ts ++ rest)))
    (fun r s => r.1 <> None /\ Q r s) None ->
  wp no_err (parse_value (S n) (List.map token_obj (t :: ts ++ rest))) Q None.
Proof.
  intros HQ. cbn [parse_value]. wp_step. eapply wp_mono; [exact HQ|]. intros [[o|] w] s [Hne HQ']; [|done].
  wp_step. wp_step. wp_step. wp_step. wp_step. wp_step. by wp_step.
Qed.

(** A literal is not a keyword. *)
Lemma parse_literal_back n t rest (o : obj_t) : ty t <> JSON_OPERATOR -> ty t <> JSON_KEYWORD ->
  wp no_err (parse_literal (List.map token_obj (t :: rest)))
    (fun r s => r = (Some (norm o), List.map token_obj rest) /\ s = None) None ->
  wp no_err (parse_value (S n) (List.map token_obj (t :: rest)))
    (fun r s => r = (Some (norm o), List.map token_obj rest) /\ s = None) None.
Proof.
  intros H1 H2 HQ. apply parse_scalar; [done|]. wp_step. unfold parse_keyword. rewrite qlist_copy_id.
  cbn [List.map qlist_pop]. wp_step. apply token_type_wp. rewrite code_eq, bool_decide_false by done.
  cbn [negb]. by wp_step.
Qed.
Lemma reads_int n v : - 2 ^ 63 <= v < 2 ^ 63 -> reads_back (parse_value (S n)) (S n) (QInt v).
Proof.
  intros Hv ts rest E Hl. apply view_cons in E as (t & ts' & -> & Ht & E). destruct ts'; [|discriminate E]. injection Ht as H1 H2.
  cbn [app]. apply parse_literal_back; [by rewrite H1..|].
  unfold parse_literal. rewrite qlist_copy_id. cbn [List.map qlist_pop]. wp_step. apply token_type_wp. rewrite H1.
  cbn [token_code Z.eqb Pos.eqb]. wp_step. apply token_value_wp. wp_step. split; [|done].
  by rewrite H2, (proj2 (fmt_d_ok v Hv)).
Qed.
Lemma reads_string n s : plain_text s -> reads_back (parse_value (S n)) (S n) (QString s).
Proof.
  intros [Hs _] ts rest E Hl. apply view_cons in E as (t & ts' & -> & Ht & E). destruct ts'; [|discriminate E]. injection Ht as H1 H2.
  cbn [app]. apply parse_literal_back; [by rewrite H1..|].
  unfold parse_literal. rewrite qlist_copy_id. cbn [List.map qlist_pop]. wp_step. apply token_type_wp. rewrite H1.
  cbn [token_code Z.eqb Pos.eqb]. wp_step. apply token_value_wp. wp_step. rewrite H2.
  unfold qstring_from_escaped_str, to_json_string. cbn [app char_at hd next Z.eqb Pos.eqb].
  eapply wp_mono; [by apply unescape_text|]. intros r s' [-> ->]. by wp_step.
Qed.
Lemma reads_bool n v : reads_back (parse_value (S n)) (S n) (QBool v).
Proof.
  intros ts rest E Hl. apply view_cons in E as (t & ts' & -> & Ht & E). destruct ts'; [|discriminate E]. injection Ht as H1 H2.
  cbn [app]. apply parse_scalar; [by rewrite H1|]. wp_step. unfold parse_keyword. rewrite qlist_copy_id.
  cbn [List.map qlist_pop]. wp_step. apply token_type_wp. rewrite code_eq, bool_decide_true by done. cbn [negb]. wp_step.
  apply is_keyword_wp. unfold is_word. rewrite H1, H2, (bool_decide_true (JSON_KEYWORD = JSON_KEYWORD)) by done.
  cbn [norm andb]. destruct (truth v).
  - rewrite bool_decide_true by done. cbv iota. by do 2 wp_step.
  - rewrite bool_decide_false by done. wp_step. apply is_keyword_wp. unfold is_word.
    rewrite H1, H2, !bool_decide_true by done. cbn [andb]. by do 2 wp_step.
Qed.

(** ** Lists and dictionaries *)
Definition more (l : list (list tok)) : list tok := concat (List.map (fun y => [op 44] ++ y) l).
Lemma more_step x l : more (x :: l) = op 44 :: x ++ more l.
Proof. done. Qed.
Section nested.
  Context (pv : list obj_t -> ST st (option obj_t * list obj_t)) (m : nat).

(** Splitting the tokens at a nested value. *)
Lemma view_split ts k1 k2 : view <$> ts = k1 ++ k2 ->
  exists a b, ts = a ++ b /\ view <$> a = k1 /\ view <$> b = k2.
Proof. intros E. apply fmap_app_inv in E as (a & b & -> & -> & ->). by exists a, b. Qed.
Lemma more_cons l c : exists k ks, more l ++ [op c] = k :: ks.
Proof. destruct l; cbn; eauto. Qed.

Lemma array_loop_back l n acc t ts rest : Forall (reads_back pv m) l ->
  view <$> (t :: ts) = more (List.map toks l) ++ [op 93] -> (length ts <= n)%nat -> (length ts <= m)%nat ->
  wp no_err (array_loop pv n acc (Some (token_obj t)) (List.map token_obj (ts ++ rest)))
    (fun r s => r = (Some (acc ++ List.map norm l), List.map token_obj rest) /\ s = None) None.
Proof.
  intros Hl. revert n acc t ts. induction Hl as [|x l Hx Hl IH]; intros n acc t ts E Hn Hm.
  - apply view_cons in E as (t' & ts' & [= <- <-] & Ht%(view_op 93) & E). destruct ts; [|discriminate E].
    destruct n; cbn [array_loop]; wp_step; apply is_operator_wp; rewrite Ht; cbn [Z.eqb Pos.eqb]; wp_step; by rewrite app_nil_r.
  - cbn [List.map] in E. rewrite more_step in E. cbn [app] in E. rewrite <- app_assoc in E.
    apply view_cons in E as (t' & ts' & [= <- <-] & Ht & E). apply view_split in E as (a & b & -> & Ea & Eb).
    destruct (more_cons (List.map toks l) 93) as (k & ks & Ek). pose proof Eb as Eb'. rewrite Ek in Eb'.
    apply view_cons in Eb' as (t2 & b' & -> & _ & _). rewrite length_app in Hn, Hm. cbn [length] in Hn, Hm.
    destruct n as [|n]; [lia|]. cbn [array_loop]. wp_step. apply is_operator_wp. rewrite (view_op 93 44) by done.
    cbn [Z.eqb Pos.eqb]. wp_step. apply is_operator_wp. rewrite (view_op 44 44) by done. cbn [Z.eqb Pos.eqb negb].
    rewrite <- app_assoc. wp_step. eapply wp_mono; [apply (Hx a ((t2 :: b') ++ rest) Ea); lia|].
    intros r s [-> ->]. cbn [app List.map qlist_pop].
    eapply wp_mono; [apply IH; [exact Eb|lia|lia]|]. intros r s [-> ->]. split; [|done].
    unfold qlist_append_obj. by rewrite <- app_assoc.
Qed.

Definition pair_back (kv : key * obj_t) : Prop := forall dict ts rest,
  view <$> ts = pair_toks kv -> (length ts <= m)%nat ->
  wp no_err (parse_pair pv dict (List.map token_obj (ts ++ rest)))
    (fun r s => r = (Some (qdict_put_obj dict kv.1 (norm kv.2)), List.map token_obj rest) /\ s = None) None.
Lemma pair_back_ok k v : reads_back pv m (QString k) -> reads_back pv m v -> pair_back (k, v).
Proof.
  intros Hk Hv dict ts rest E Hm. unfold pair_toks in E. cbn [fst snd] in *.
  apply (view_split _ [_]) in E as (a & b & -> & Ea & Eb). apply view_cons in Eb as (t & b' & -> & Ht & Eb).
  rewrite length_app in Hm. cbn [length] in Hm. unfold parse_pair. rewrite qlist_copy_id, <- app_assoc. wp_step.
  eapply wp_mono; [apply (Hk a ((t :: b') ++ rest) Ea); lia|]. intros r s [-> ->].
  cbn [norm app List.map qlist_pop]. wp_step. apply is_operator_wp. rewrite (view_op 58 58) by done.
  cbn [Z.eqb Pos.eqb negb]. wp_step. eapply wp_mono; [apply (Hv b' rest Eb); lia|]. intros r s [-> ->]. by wp_step.
Qed.
Lemma object_loop_back l n dict t ts rest : Forall pair_back l ->
  view <$> (t :: ts) = more (List.map pair_toks l) ++ [op 125] -> (length ts <= n)%nat -> (length ts <= m)%nat ->
  wp no_err (object_loop pv n dict (Some (token_obj t)) (List.map token_obj (ts ++ rest)))
    (fun r s => r = (Some (rebuild l dict), List.map token_obj rest) /\ s = None) None.
Proof.
  intros Hl. revert n dict t ts. induction Hl as [|x l Hx Hl IH]; intros n dict t ts E Hn Hm.
  - apply view_cons in E as (t' & ts' & [= <- <-] & Ht%(view_op 125) & E). destruct ts; [|discriminate E].
    destruct n; cbn [object_loop]; wp_step; apply is_operator_wp; rewrite Ht; cbn [Z.eqb Pos.eqb]; by wp_step.
  - cbn [List.map] in E. rewrite more_step in E. cbn [app] in E. rewrite <- app_assoc in E.
    apply view_cons in E as (t' & ts' & [= <- <-] & Ht & E). apply view_split in E as (a & b & -> & Ea & Eb).
    destruct (more_cons (List.map pair_toks l) 125) as (k & ks & Ek). pose proof Eb as Eb'. rewrite Ek in Eb'.
    apply view_cons in Eb' as (t2 & b' & -> & _ & _). rewrite length_app in Hn, Hm. cbn [length] in Hn, Hm.
    destruct n as [|n]; [lia|]. cbn [object_loop]. wp_step. apply is_operator_wp. rewrite (view_op 125 44) by done.
    cbn [Z.eqb Pos.eqb]. wp_step. apply is_operator_wp. rewrite (view_op 44 44) by done. cbn [Z.eqb Pos.eqb negb].
    rewrite <- app_assoc. wp_step. eapply wp_mono; [apply (Hx dict a ((t2 :: b') ++ rest) Ea); lia|].
    intros r s [-> ->]. cbn [app List.map qlist_pop]. apply IH; [exact Eb|lia|lia].
Qed.

Lemma array_back n t ts rest l : Forall (reads_back pv m) l ->
  (forall x, x ∈ l -> exists k ks, toks x = k :: ks /\ forall t', view t' = k -> is_op 93 t' = false) ->
  view <$> (t :: ts) = toks (QList l) -> (length ts <= n)%nat -> (length ts <= m)%nat ->
  wp no_err (parse_array pv n (List.map token_obj (t :: ts ++ rest)))
    (fun r s => r = (Some (norm (QList l)), List.map token_obj rest) /\ s = None) None.
Proof.
  intros Hl Hh E Hn Hm. rewrite toks_list in E. apply view_cons in E as (t' & ts' & [= <- <-] & Ht & E).
  unfold parse_array. rewrite qlist_copy_id. cbn [List.map qlist_pop]. wp_step. apply is_operator_wp.
  rewrite (view_op 91 91) by done. cbn [Z.eqb Pos.eqb negb]. destruct l as [|x l].
  - cbn [List.map join_with app] in E. apply view_cons in E as (t1 & ts' & -> & Ht1 & E). destruct ts'; [|discriminate E].
    cbn [app List.map qlist_peek head qlist_pop]. wp_step. apply is_operator_wp. rewrite (view_op 93 93) by done.
    cbn [Z.eqb Pos.eqb negb]. by wp_step.
  - cbn [List.map join_with] in E. fold (more (List.map toks l)) in E. rewrite <- app_assoc in E.
    apply Forall_cons_1 in Hl as [Hx Hl]. apply view_split in E as (a & b & -> & Ea & Eb).
    destruct (Hh x ltac:(by left)) as (k & ks & Ex & Hk). pose proof Ea as Ea'. rewrite Ex in Ea'.
    apply view_cons in Ea' as (t1 & a' & -> & Ht1 & _).
    destruct (more_cons (List.map toks l) 93) as (k2 & ks2 & Ek). pose proof Eb as Eb'. rewrite Ek in Eb'.
    apply view_cons in Eb' as (t2 & b' & -> & _ & _). rewrite length_app in Hn, Hm. cbn [length] in Hn, Hm.
    rewrite <- app_assoc. cbn [app List.map qlist_peek head]. wp_step. apply is_operator_wp.
    rewrite (Hk t1 Ht1). cbn [negb]. wp_step.
    eapply wp_mono; [apply (Hx (t1 :: a') ((t2 :: b') ++ rest) Ea); cbn [length]; lia|]. intros r s [-> ->].
    cbn [app List.map qlist_pop]. wp_step.
    eapply wp_mono; [apply (array_loop_back l n _ t2 b' rest Hl Eb); lia|]. intros r s [-> ->]. by wp_step.
Qed.
Lemma object_back n t ts rest d : Forall pair_back (entries d) ->
  view <$> (t :: ts) = toks (QDictionary d) -> (length ts <= n)%nat -> (length ts <= m)%nat ->
  wp no_err (parse_object pv n (List.map token_obj (t :: ts ++ rest)))
    (fun r s => r = (Some (norm (QDictionary d)), List.map token_obj rest) /\ s = None) None.
Proof.
  intros Hl E Hn Hm. rewrite toks_dict in E. apply view_cons in E as (t' & ts' & [= <- <-] & Ht & E).
  rewrite norm_dict. unfold parse_object. rewrite qlist_copy_id. cbn [List.map qlist_pop]. wp_step. apply is_operator_wp.
  rewrite (view_op 123 123) by done. cbn [Z.eqb Pos.eqb negb]. destruct (entries d) as [|x l].
  - cbn [List.map join_with app] in E. apply view_cons in E as (t1 & ts' & -> & Ht1 & E). destruct ts'; [|discriminate E].
    cbn [app List.map qlist_peek head qlist_pop]. wp_step. apply is_operator_wp. rewrite (view_op 125 125) by done.
    cbn [Z.eqb Pos.eqb negb]. by wp_step.
  - cbn [List.map join_with] in E. fold (more (List.map pair_toks l)) in E. rewrite <- app_assoc in E.
    apply Forall_cons_1 in Hl as [Hx Hl]. apply view_split in E as (a & b & -> & Ea & Eb).
    pose proof Ea as Ea'. apply view_cons in Ea' as (t1 & a' & -> & Ht1 & _).
    destruct (more_cons (List.map pair_toks l) 125) as (k2 & ks2 & Ek). pose proof Eb as Eb'. rewrite Ek in Eb'.
    apply view_cons in Eb' as (t2 & b' & -> & _ & _). rewrite length_app in Hn, Hm. cbn [length] in Hn, Hm.
    rewrite <- app_assoc. cbn [app List.map qlist_peek head]. wp_step. apply is_operator_wp.
    rewrite (view_other 125 t1) by (by injection Ht1 as -> _). cbn [negb]. wp_step.
    eapply wp_mono; [apply (Hx qdict_new (t1 :: a') ((t2 :: b') ++ rest) Ea); cbn [length]; lia|]. intros r s [-> ->].
    cbn [app List.map qlist_pop]. wp_step.
    eapply wp_mono; [apply (object_loop_back l n _ t2 b' rest Hl Eb); lia|]. intros r s [-> ->]. by wp_step.
Qed.
End nested.

Lemma value_head (x : obj_t) : printable x ->
  exists k ks, toks x = k :: ks /\ forall t, view t = k -> is_op 93 t = false.
Proof.
  intros Hp. destruct (toks_shape x Hp) as [(k & E & Hk)|(a & c & ks & Ho & E & _)]; rewrite E.
  - exists k, []. split; [done|]. intros t Ht. apply view_other. by rewrite <- Ht in Hk.
  - eexists _, _. split; [done|]. intros t Ht. rewrite (view_op 93 a) by done. by destruct Ho as [[-> _]|[-> _]].
Qed.

(** Fuel equal to the number of the value's tokens is enough. *)
Lemma value_back (o : obj_t) n : printable o -> reads_back (parse_value (S n)) (S n) o.
Proof.
  revert n. induction o as [v|s|d IH|l IH|v|v|] using qobject_nested_ind; intros n Hp; inversion Hp; subst.
  - by apply reads_int.
  - by apply reads_string.
  - apply entries_Forall in IH. rename select (Forall _ (entries d)) into Hent.
    intros ts rest E Hl. pose proof E as E'. rewrite toks_dict in E'.
    apply view_cons in E' as (t & ts' & -> & Ht & E'). cbn [app length] in *.
    apply parse_value_object. eapply wp_mono.
    + apply (object_back (parse_value n) n n); [|exact E|lia|lia]. apply Forall_forall. intros [k v] Hin.
      pose proof (proj1 (Forall_forall _ _) IH _ Hin) as IHv.
      pose proof (proj1 (Forall_forall _ _) Hent _ Hin) as [Hk Hv]. cbn [fst snd] in *.
      destruct n as [|n];
        [exfalso; destruct ts'; [symmetry in E'; by apply app_eq_nil in E' as [_ [=]]|cbn in Hl; lia]|].
      apply pair_back_ok; [by apply reads_string|by apply IHv].
    + intros r s [-> ->]. done.
  - rename select (Forall printable l) into Hpl.
    intros ts rest E Hl. pose proof E as E'. rewrite toks_list in E'.
    apply view_cons in E' as (t & ts' & -> & Ht & E'). cbn [app length] in *.
    apply parse_value_array; [done|]. eapply wp_mono.
    + apply (array_back (parse_value n) n n); [| |exact E|lia|lia].
      * apply Forall_forall. intros x Hx. destruct n as [|n];
        [exfalso; destruct ts'; [symmetry in E'; by apply app_eq_nil in E' as [_ [=]]|cbn in Hl; lia]|].
        apply (proj1 (Forall_forall _ _) IH x Hx). by apply (proj1 (Forall_forall _ _) Hpl).
      * intros x Hx. apply value_head. by apply (proj1 (Forall_forall _ _) Hpl).
    + intros r s [-> ->]. done.
  - by apply reads_bool.
Qed.

(** ** The dictionary that is read back *)
Lemma rebuild_map l d : wf d -> NoDup l.*1 ->
  wf (rebuild l d) /\ to_map (rebuild l d) = (norm <$> (list_to_map l : gmap key obj_t)) ∪ to_map d.
Proof.
  revert d. induction l as [|[k v] l IH]; intros d Hd Hn; cbn [list_to_map foldr rebuild fold_left fst snd].
  - split; [done|]. by rewrite fmap_empty, map_empty_union.
  - cbn in Hn. apply NoDup_cons in Hn as [Hk Hn]. destruct (put_wf d k (norm v) Hd) as [Hw Hm].
    destruct (IH (qdict_put_obj d k (norm v)) Hw Hn) as [Hw' Hm']. split; [exact Hw'|].
    unfold rebuild in Hm'. rewrite Hm', Hm, fmap_insert. rewrite <- insert_union_r, insert_union_l; [done|].
    rewrite lookup_fmap. by rewrite (not_elem_of_list_to_map_1 (M := gmap key) l k Hk).
Qed.
Lemma norm_map d : wf d -> exists d', norm (QDictionary d) = QDictionary d' /\ wf d' /\
  to_map d' = norm <$> to_map d.
Proof.
  intros Hd. rewrite norm_dict. eexists. split; [done|].
  destruct (rebuild_map (entries d) qdict_new new_wf (entries_nodup d Hd)) as [H1 H2]. split; [done|].
  rewrite H2. apply (right_id_L ∅ (∪)).
Qed.

(** ** From the printed text to the parsed value *)
Lemma one_message (o : obj_t) p : printable o -> Z.of_nat (length (seen p)) < 2 ^ 31 -> stream_inv p -> view <$> seen p = toks o ->
  exists ts, messages p = [ts] /\ view <$> ts = toks o.
Proof.
  intros Hp Hlen (Hm & Ho & Hd & Hc) Hv. pose proof (toks_message o (seen p) Hp Hlen Hv) as (Hne & Hz & Hopen).
  unfold seen in *. destruct (messages p) as [|m1 ms].
  - cbn [concat app] in *. by destruct Hd as [Hd|Hd].
  - apply Forall_cons_1 in Hm as [(Hne1 & Hz1 & _) Hms]. cbn [concat] in *. rewrite <- app_assoc in Hopen, Hv.
    destruct (concat ms ++ tokens p) as [|t rest] eqn:E.
    + apply app_eq_nil in E as [E _]. exists m1. rewrite app_nil_r in Hv. split; [|done].
      destruct ms as [|m2 ms]; [done|]. apply Forall_cons_1 in Hms as [(Hne2 & _) _].
      cbn in E. by apply app_eq_nil in E as [E _].
    + exfalso. by apply (Hopen m1 (t :: rest)).
Qed.
Lemma pend_flush (o : obj_t) m : pend (toks o) m ->
  wp no_err json_message_parser_flush (fun _ '(_, p) => stream_inv p /\ view <$> seen p = toks o) m.
Proof.
  destruct m as [l p]. intros (Hp & ks0 & ty0 & s0 & E & Hk & Hs & Hns & Hcell).
  unfold json_message_parser_flush, json_lexer_flush. eapply wp_mono.
  - apply (end_char_wp ty0 s0 ERROR 0 l p); [done| |done|done]. apply ends_at; [done|in_states].
  - intros r [l' p'] (_ & _ & _ & Hp' & cx & cy & Hseen). split; [done|].
    by rewrite Hseen, fmap_app, Hk, view_kept, E.
Qed.
Lemma json_lexed (o : obj_t) : printable o -> Z.of_nat (length (to_json o)) < 2 ^ 31 ->
  wp no_err (json_message_parser_feed (to_json o) ;; json_message_parser_flush)
    (fun _ '(_, p) => exists ts, messages p = [ts] /\ view <$> ts = toks o)
    (json_lexer_init, json_message_parser_init).
Proof.
  intros Ho Hlen. assert (wp no_err (json_message_parser_feed (to_json o) ;; json_message_parser_flush)
    (fun _ '(_, p) => stream_inv p /\ view <$> seen p = toks o) parser_start) as Hlex.
  { wp_step. eapply wp_mono; [apply (value_feeds o Ho [] parser_start)|].
    - split; [apply start_inv|by left].
    - intros r m [_ Hm]. by apply pend_flush. }
  eapply wp_mono; [exact (wp_and _ _ _ _ _ (text_wp (to_json o)) Hlex)|].
  intros r [l p] [[_ Hl] [Hp Hv]]. apply one_message; [done|lia|done..].
Qed.
Lemma json_read (o : obj_t) : printable o -> Z.of_nat (length (to_json o)) < 2 ^ 31 ->
  qobject_from_json (qobject_to_json o) = Ok (Some (norm o)).
Proof.
  intros Ho Hlen. unfold qobject_from_json, qobject_from_jsonv, qobject_to_json.
  pose proof (json_lexed o Ho Hlen) as Hl. apply wp_total_ex in Hl as (z & [l p] & -> & ts & -> & Hv).
  assert (wp no_err (parse_messages None [ts]) (fun r s => r = Some (norm o) /\ s = None) None) as Hp.
  { cbn [parse_messages]. wp_step. unfold parse_json, json_parser_parse. rewrite qlist_copy_id. wp_step.
    pose proof (value_back o (length ts) Ho ts [] Hv ltac:(lia)) as Hb. rewrite app_nil_r, length_map in *.
    eapply wp_mono; [exact Hb|]. intros r s [-> ->]. wp_step. by wp_step. }
  apply wp_total_ex in Hp as (r & s & -> & -> & ->). done.
Qed.

(** ** A text with a backslash *)
Lemma escape_backslash t : text_of t -> 92 ∈ t -> exists s1 s2,
  text_of s1 /\ ~ (92 ∈ s1) /\ escape_string t = escape_string s1 ++ 92 :: 92 :: escape_string s2.
Proof.
  induction 1 as [|c t Hc Ht IH|c0 c1 t H0 H1 Ht IH|c0 c1 c2 t H0 H1 H2 Hl Ht IH]; intros Hin.
  - by apply elem_of_nil in Hin.
  - destruct (Z.eq_dec c 92) as [->|Hne].
    + exists [], t. split; [constructor|]. split; [apply not_elem_of_nil|]. by rewrite escape_one.
    + apply elem_of_cons in Hin as [?|Hin]; [done|]. destruct (IH Hin) as (s1 & s2 & T & N & E).
      exists (c :: s1), s2. split; [by constructor|]. split; [by apply not_elem_of_cons|].
      rewrite !escape_one, E by done. by rewrite <- app_assoc.
  - unfold continuation in H1. rewrite !elem_of_cons in Hin. destruct Hin as [?|[?|Hin]]; [lia|lia|].
    destruct (IH Hin) as (s1 & s2 & T & N & E). exists (c0 :: c1 :: s1), s2.
    split; [by constructor|]. split; [rewrite !not_elem_of_cons; split_and!; [lia|lia|done]|].
    rewrite !escape_two, E by done. cbn [app]. by rewrite <- app_assoc.
  - unfold continuation in H1, H2. rewrite !elem_of_cons in Hin. destruct Hin as [?|[?|[?|Hin]]]; [lia|lia|lia|].
    destruct (IH Hin) as (s1 & s2 & T & N & E). exists (c0 :: c1 :: c2 :: s1), s2.
    split; [by constructor|]. split; [rewrite !not_elem_of_cons; split_and!; [lia|lia|lia|done]|].
    rewrite !escape_three, E by done. cbn [app]. by rewrite <- app_assoc.
Qed.
Lemma backslash_lost t : text_of t -> 92 ∈ t -> qobject_from_json (qobject_to_json (QString t : obj_t)) = Ok (None : option obj_t).
Proof.
  intros Ht Hin. destruct (escape_backslash t Ht Hin) as (s1 & s2 & T & N & E).
  assert (wp no_err (json_message_parser_feed (to_json (QString t : obj_t)) ;; json_message_parser_flush)
    (fun _ '(_, p) => messages p = []) (json_lexer_init, json_message_parser_init)) as Hl.
  { wp_step. cbn [to_json]. unfold to_json_string. rewrite E.
    replace ([34] ++ (escape_string s1 ++ 92 :: 92 :: escape_string s2) ++ [34])
      with ((34 :: escape_string s1) ++ [92; 92] ++ (escape_string s2 ++ [34])) by (cbn; by rewrite <- app_assoc).
    eapply wp_mono; [apply feed_bad_escape; [done|by apply escape_body|by left]|].
    intros r [l p] (_ & -> & Hs). eapply wp_mono; [by apply (feed_char_ERROR _ ERROR 0 l)|].
    intros r' [l' p'] (_ & -> & _). done. }
  unfold qobject_from_json, qobject_from_jsonv, qobject_to_json.
  by apply wp_total_ex in Hl as (z & [l p] & -> & ->).
Qed.
End trip.

(** ** Properties *)
(** C1: a [printable] value that the printer writes is read back as the same value: 64-bit
    integers, booleans, strings, and lists and dictionaries of them to any depth.  The
    strings, keys of dictionaries included, are UTF-8 text of the Basic Multilingual
    Plane without a backslash: a backslash cannot be read back and characters beyond that plane come
    back as others ([json_string_codec]); floats, whose text libc writes, are not
    covered.  The text is shorter than 2^31 bytes, the int counters of the streamer being
    exact that far.  A dictionary comes back as one that is the same finite map, built by
    inserting the entries in the iterator's order. *)
Theorem json_roundtrip {double} `{Libc double} (o : qobject double) (Ho : printable o)
    (Hlen : Z.of_nat (length (qobject_to_json o)) < 2 ^ 31) :
  qobject_from_json (qobject_to_json o) = Ok (Some (norm o)) /\
  forall d : QDict (qobject double), wf d ->
    exists d', norm (QDictionary d) = QDictionary d' /\ wf d' /\ to_map d' = norm <$> to_map d.
Proof. split; [by apply json_read|]. intros d. apply norm_map. Qed.
Definition sample_dict : QDict (qobject unit) :=
  qdict_put_obj (qdict_put_obj qdict_new (cstr "id") (QInt (-12))) (cstr "on") (QList [QBool 2; QString [34; 195; 169]]).
#[local] Instance no_floats : Libc unit := {| fmt_f _ := []; strtod _ := tt |}.
Example json_roundtrip_witness :
  qobject_from_json (qobject_to_json (QDictionary sample_dict)) = Ok (Some (norm (QDictionary sample_dict))).
Proof.
  apply json_roundtrip; [|by vm_compute]. apply pr_dict.
  - by apply put_wf, put_wf, new_wf.
  - replace (entries sample_dict) with [(cstr "on", QList [QBool 2; QString [34; 195; 169]]); (cstr "id", QInt (-12) : qobject unit)]
      by (vm_compute; reflexivity).
    assert (plain_text [34; 195; 169] /\ plain_text (cstr "on") /\ plain_text (cstr "id")) as (T1 & T2 & T3).
    { change (cstr "on") with [111; 110]. change (cstr "id") with [105; 100].
      split_and!; (split; [repeat first [apply text_nil | apply text_one; [lia|] | apply text_two; [lia|unfold continuation; lia|]]
        |apply (bool_decide_unpack _); vm_compute; exact I]). }
    constructor; [|constructor; [|constructor]]; (split; [done|]).
    + apply pr_list. constructor; [constructor|]. constructor; [by constructor|constructor].
    + constructor. lia.
Defined.

(** The decoder of string tokens undoes the printer on all UTF-8 text of the Basic
    Multilingual Plane, and the printed string is a token of the grammar exactly as long
    as the text has no backslash: the printer writes two backslashes, which the lexer
    rejects, so such a string cannot be read back.  Outside that plane U+1F600 comes back
    as other bytes, and the escape \f, which is a token, cannot be decoded. *)
Theorem json_string_codec {double} `{Libc double} (t : list Z) (Ht : text_of t) :
  (forall (S : Type) (s : S), qstring_from_escaped_str (to_json_string t) s = Ok (Some t, s)) /\
  (92 ∉ t -> is_token JSON_STRING (to_json_string t)) /\
  (92 ∈ t -> qobject_from_json (qobject_to_json (QString t : qobject double)) = Ok (None : option (qobject double))) /\
  qobject_from_json (qobject_to_json (QString [240; 159; 152; 128] : qobject double)) = Ok (Some (QString [223; 152; 128])) /\
  qobject_from_json [34; 92; 102; 34] = Ok (None : option (qobject double)).
Proof.
  split_and!; [| | |vm_compute; reflexivity|vm_compute; reflexivity].
  - intros S s. pose proof (unescape_text t s Ht) as H1. apply wp_total_ex in H1 as (r & s' & E & -> & ->).
    exact E.
  - intros Hn. by apply string_token.
  - by apply backslash_lost.
Qed.
Example json_string_codec_witness :
  qobject_from_json (qobject_to_json (QString [67; 58; 92; 226; 130; 172] : qobject unit)) = Ok (None : option (qobject unit)).
Proof.
  refine (proj1 (proj2 (proj2 (json_string_codec [67; 58; 92; 226; 130; 172] _))) _); [|in_states].
  do 3 (apply text_one; [lia|]). apply text_three; [lia|unfold continuation; lia..|lia|constructor].
Defined.
