(* ===== verification/Physmem.v ===== *)
(** * Physmem: the guest's physical address space (exec.c)

    The two-level table of page descriptors, the table of I/O zones, the subpages that
    split a page between zones, and the list of RAM blocks, for the configuration of the
    board: arm-softmmu with pages of 1 KiB on a 64-bit host.  A [PhysPageDesc *] is the
    pair of its indices, a function pointer is a name ([fn]), a host address is a [Z].
    The address qemu_vmalloc returns is an argument of [qemu_ram_alloc]. *)
From S2P Require Import Prelude.
From stdpp Require Import sets.
#[local] Open Scope Z_scope.

(** ** Constants *)
Definition TARGET_PAGE_BITS : Z := 10.
Definition TARGET_PAGE_SIZE : Z := Z.shiftl 1 TARGET_PAGE_BITS.
Definition L2_BITS : Z := 10.
Definition L1_BITS : Z := 32 - L2_BITS - TARGET_PAGE_BITS.
Definition L1_SIZE : Z := Z.shiftl 1 L1_BITS.
Definition L2_SIZE : Z := Z.shiftl 1 L2_BITS.
Definition IO_MEM_SHIFT : Z := 3.
Definition IO_MEM_RAM : Z := Z.shiftl 0 IO_MEM_SHIFT.
Definition IO_MEM_ROM : Z := Z.shiftl 1 IO_MEM_SHIFT.
Definition IO_MEM_UNASSIGNED : Z := Z.shiftl 2 IO_MEM_SHIFT.
Definition IO_MEM_NOTDIRTY : Z := Z.shiftl 3 IO_MEM_SHIFT.
Definition IO_MEM_ROMD : Z := 1.
Definition IO_MEM_SUBPAGE : Z := 2.
Definition IO_MEM_SUBWIDTH : Z := 4.
Definition IO_MEM_NB_ENTRIES : Z := Z.shiftl 1 (TARGET_PAGE_BITS - IO_MEM_SHIFT).
Definition CODE_DIRTY_FLAG : Z := 0x02.

(** [x & TARGET_PAGE_MASK] and [x & ~TARGET_PAGE_MASK] on 64 bits. *)
Definition page_down (x : Z) : Z := Z.land x (wrap 64 (Z.lnot (TARGET_PAGE_SIZE - 1))).
Definition page_off (x : Z) : Z := Z.land x (TARGET_PAGE_SIZE - 1).
Definition TARGET_PAGE_ALIGN (x : Z) : Z := page_down (wrap 64 (x + TARGET_PAGE_SIZE - 1)).

(** ** State *)
Record PhysPageDesc := mkPage { phys_offset : Z; region_offset : Z }.
#[export] Instance eta_page : Eta PhysPageDesc := fun r => mkPage (phys_offset r) (region_offset r).

(** The functions an I/O zone may have: those of exec.c and those of a device. *)
Inductive fn : Type :=
| unassigned_mem (width : Z) | notdirty_mem_write (width : Z) | watch_mem (width : Z)
| subpage_access (width : Z) | device_access (id : nat) (width : Z).
Inductive opaque_ptr : Type := O_null | O_subpage (k : nat) | O_device (id : nat).

(** One direction and width of a byte of a subpage: the zone whose function table the
    pointer points into, the opaque copied from it, the offset. *)
Record sub_entry := mkSub { zone : option Z; s_opaque : opaque_ptr; s_region : Z }.
#[export] Instance eta_sub : Eta sub_entry := fun r => mkSub (zone r) (s_opaque r) (s_region r).
Record subpage_t := mkSubpage { base : Z; reads : list (list sub_entry); writes : list (list sub_entry) }.
#[export] Instance eta_subpage : Eta subpage_t := fun r => mkSubpage (base r) (reads r) (writes r).

Record RAMBlock := mkBlock { host : Z; offset : Z; block_length : Z }.

Record physmem := mkPhys {
  l1_phys_map : list (option (list PhysPageDesc));
  io_mem_read : list (list (option fn));
  io_mem_write : list (list (option fn));
  io_mem_opaque : list opaque_ptr;
  io_mem_used : list bool;
  subpages : list subpage_t;
  ram_blocks : list RAMBlock;
  last_ram_offset : Z;
  phys_ram_dirty : list Z;
  tlb_flushes : nat
}.
#[export] Instance eta_physmem : Eta physmem := fun r => mkPhys
  (l1_phys_map r) (io_mem_read r) (io_mem_write r) (io_mem_opaque r) (io_mem_used r)
  (subpages r) (ram_blocks r) (last_ram_offset r) (phys_ram_dirty r) (tlb_flushes r).
Abbreviation MEM := (ST physmem).
(** The static state at power-on, with the first level of the table cleared by page_init. *)
Definition phys_init : physmem := mkPhys
  (replicate (Z.to_nat L1_SIZE) None)
  (replicate (Z.to_nat IO_MEM_NB_ENTRIES) (replicate 4 None)) (replicate (Z.to_nat IO_MEM_NB_ENTRIES) (replicate 4 None))
  (replicate (Z.to_nat IO_MEM_NB_ENTRIES) O_null) (replicate (Z.to_nat IO_MEM_NB_ENTRIES) false)
  [] [] 0 [] 0.

(** ** The page table *)
Definition fresh_pages (index : Z) : list PhysPageDesc :=
  List.map (fun i => mkPage IO_MEM_UNASSIGNED (wrap 64 (Z.shiftl (wrap 64 (index + Z.of_nat i)) TARGET_PAGE_BITS)))
    (seq 0 (Z.to_nat L2_SIZE)).
Definition phys_page_find_alloc (index : Z) (alloc : bool) : MEM (option (Z * Z)) :=
  s ← get;
  let lp := Z.land (Z.shiftr index L2_BITS) (L1_SIZE - 1) in
  pd ← deref (rd (l1_phys_map s) lp);
  match pd with
  | Some _ => mret (Some (lp, Z.land index (L2_SIZE - 1)))
  | None =>
    if negb alloc then mret None
    else
      l1 ← deref (wr (l1_phys_map s) lp (Some (fresh_pages index)));
      modify (fun s => s <| l1_phys_map := l1 |>) ;;
      mret (Some (lp, Z.land index (L2_SIZE - 1)))
  end.
Definition phys_page_find (index : Z) : MEM (option (Z * Z)) := phys_page_find_alloc index false.

(** [*p] and assignments through [p]. *)
Definition page_desc (s : physmem) (p : Z * Z) : option PhysPageDesc :=
  l2 ← rd (l1_phys_map s) p.1; pages ← l2; rd pages p.2.
Definition get_page (p : Z * Z) : MEM PhysPageDesc := s ← get; deref (page_desc s p).
Definition set_page (p : Z * Z) (f : PhysPageDesc -> PhysPageDesc) : MEM unit :=
  s ← get;
  l2 ← deref (rd (l1_phys_map s) p.1);
  pages ← deref l2;
  d ← deref (rd pages p.2);
  pages ← deref (wr pages p.2 (f d));
  l1 ← deref (wr (l1_phys_map s) p.1 (Some pages));
  modify (fun s => s <| l1_phys_map := l1 |>).

Definition cpu_get_physical_page_desc (addr : Z) : MEM Z :=
  p ← phys_page_find (Z.shiftr addr TARGET_PAGE_BITS);
  match p with
  | None => mret IO_MEM_UNASSIGNED
  | Some p => d ← get_page p; mret (phys_offset d)
  end.

(** ** I/O zones *)
Fixpoint first_free (used : list bool) (i : Z) : option Z :=
  match used with
  | [] => None
  | u :: used => if u then first_free used (i + 1) else Some i
  end.
Definition get_free_io_mem_idx : MEM Z :=
  s ← get;
  match first_free (io_mem_used s) 0 with
  | Some i =>
    u ← deref (wr (io_mem_used s) i true);
    modify (fun s => s <| io_mem_used := u |>) ;;
    mret i
  | None => mret (-1)
  end.

(** [a[i][j] = v] *)
Definition wr2 {A} (l : list (list A)) (i j : Z) (v : A) : option (list (list A)) :=
  row ← rd l i; row ← wr row j v; wr l i row.
Definition rd2 {A} (l : list (list A)) (i j : Z) : option A := row ← rd l i; rd row j.

Definition set_zone_fn (io_index i : Z) (r w : option fn) : MEM unit :=
  s ← get;
  rs ← deref (wr2 (io_mem_read s) io_index i r);
  ws ← deref (wr2 (io_mem_write s) io_index i w);
  modify (fun s => s <| io_mem_read := rs |> <| io_mem_write := ws |>).
Definition set_zone_opaque (io_index : Z) (opaque : opaque_ptr) : MEM unit :=
  s ← get;
  o ← deref (wr (io_mem_opaque s) io_index opaque);
  modify (fun s => s <| io_mem_opaque := o |>).
Definition is_null (f : option fn) : bool := match f with None => true | Some _ => false end.

Definition cpu_register_io_memory_fixed (io_index : Z) (mem_read mem_write : list (option fn))
    (opaque : opaque_ptr) : MEM Z :=
  io_index ← (if io_index <=? 0 then get_free_io_mem_idx
              else let i := Z.shiftr io_index IO_MEM_SHIFT in
                   mret (if i >=? IO_MEM_NB_ENTRIES then -1 else i));
  if io_index =? -1 then mret (-1)
  else
    r0 ← deref (rd mem_read 0); r1 ← deref (rd mem_read 1); r2 ← deref (rd mem_read 2);
    w0 ← deref (rd mem_write 0); w1 ← deref (rd mem_write 1); w2 ← deref (rd mem_write 2);
    let subwidth := if is_null r0 || is_null w0 || (is_null r1 || is_null w1) || (is_null r2 || is_null w2)
                    then IO_MEM_SUBWIDTH else 0 in
    set_zone_fn io_index 0 r0 w0 ;;
    set_zone_fn io_index 1 r1 w1 ;;
    set_zone_fn io_index 2 r2 w2 ;;
    set_zone_opaque io_index opaque ;;
    mret (Z.lor (Z.shiftl io_index IO_MEM_SHIFT) subwidth).
Definition cpu_register_io_memory (mem_read mem_write : list (option fn)) (opaque : opaque_ptr) : MEM Z :=
  cpu_register_io_memory_fixed 0 mem_read mem_write opaque.

Definition cpu_unregister_io_memory (io_table_address : Z) : MEM unit :=
  let io_index := Z.shiftr io_table_address IO_MEM_SHIFT in
  for_each [0; 1; 2] (fun i => set_zone_fn io_index i (Some (unassigned_mem i)) (Some (unassigned_mem i))) ;;
  set_zone_opaque io_index O_null ;;
  s ← get;
  u ← deref (wr (io_mem_used s) io_index false);
  modify (fun s => s <| io_mem_used := u |>).

Definition three (f : Z -> fn) : list (option fn) := [Some (f 0); Some (f 1); Some (f 2)].
Definition error_mem_read : list (option fn) := [None; None; None].
Definition io_mem_init : MEM Z :=
  cpu_register_io_memory_fixed IO_MEM_ROM error_mem_read (three unassigned_mem) O_null ;;
  cpu_register_io_memory_fixed IO_MEM_UNASSIGNED (three unassigned_mem) (three unassigned_mem) O_null ;;
  cpu_register_io_memory_fixed IO_MEM_NOTDIRTY error_mem_read (three notdirty_mem_write) O_null ;;
  for_each [0; 1; 2; 3; 4] (fun i =>
    s ← get;
    u ← deref (wr (io_mem_used s) i true);
    modify (fun s => s <| io_mem_used := u |>)) ;;
  cpu_register_io_memory (three watch_mem) (three watch_mem) O_null.

(** ** Subpages *)
Definition null_entry : sub_entry := mkSub None O_null 0.
Definition new_subpage (b : Z) : subpage_t :=
  mkSubpage b (replicate (Z.to_nat TARGET_PAGE_SIZE) (replicate 4 null_entry))
              (replicate (Z.to_nat TARGET_PAGE_SIZE) (replicate 4 null_entry)).
(** The entry of a width after registering zone [memory]: kept when the zone has no
    function of the width. *)
Definition route (fs : list (option fn)) (opaque : opaque_ptr) (memory region : Z) (row : list sub_entry) : list sub_entry :=
  zip_with (fun f e => match f with Some _ => mkSub (Some memory) opaque region | None => e end) fs row.
(** The loop over the bytes [idx] to [eidx]. *)
Definition route_bytes (idx eidx : Z) (g : list sub_entry -> list sub_entry) (rows : list (list sub_entry)) :
    list (list sub_entry) :=
  imap (fun i row => if (idx <=? Z.of_nat i) && (Z.of_nat i <=? eidx) then g row else row) rows.
Definition subpage_register (mmio : nat) (start stop memory region : Z) : MEM Z :=
  if (start >=? TARGET_PAGE_SIZE) || (stop >=? TARGET_PAGE_SIZE) then mret (-1)
  else
    let idx := page_off start in
    let eidx := page_off stop in
    let memory := Z.shiftr memory IO_MEM_SHIFT in
    if idx <=? eidx then
      s ← get;
      rs ← deref (rd (io_mem_read s) memory);
      ws ← deref (rd (io_mem_write s) memory);
      o ← deref (rd (io_mem_opaque s) memory);
      sub ← deref (subpages s !! mmio);
      let sub := sub <| reads := route_bytes idx eidx (route rs o memory region) (reads sub) |>
                     <| writes := route_bytes idx eidx (route ws o memory region) (writes sub) |> in
      modify (fun s => s <| subpages := <[mmio := sub]> (subpages s) |>) ;;
      mret 0
    else mret 0.

Definition subpage_init (b : Z) (phys : Z * Z) (orig_memory region : Z) : MEM nat :=
  s ← get;
  let mmio := length (subpages s) in
  modify (fun s => s <| subpages := subpages s ++ [new_subpage b] |>) ;;
  subpage_memory ← cpu_register_io_memory (three subpage_access) (three subpage_access) (O_subpage mmio);
  set_page phys (fun d => d <| phys_offset := wrap 64 (Z.lor subpage_memory IO_MEM_SUBPAGE) |>) ;;
  subpage_register mmio 0 (TARGET_PAGE_SIZE - 1) orig_memory region ;;
  mret mmio.

(** ** Registering memory *)
(** CHECK_SUBPAGE: the first and last byte of the page that are registered, and whether
    that is less than the page. *)
Definition CHECK_SUBPAGE (start_addr orig_size addr : Z) : Z * Z * bool :=
  let '(start2, need1) :=
    if addr >? start_addr then (0, false)
    else (page_off start_addr, page_off start_addr >? 0) in
  let '(end2, need2) :=
    if wrap 64 (wrap 64 (start_addr + orig_size) - addr) >=? TARGET_PAGE_SIZE then (TARGET_PAGE_SIZE - 1, false)
    else let e := page_off (wrap 64 (start_addr + orig_size - 1)) in (e, e <? TARGET_PAGE_SIZE - 1) in
  (start2, end2, need1 || need2).

(** Whether the descriptor of the next page is one page further on. *)
Definition advances (phys : Z) : bool :=
  (page_off phys <=? IO_MEM_ROM) || truth (Z.land phys IO_MEM_ROMD).

Definition next_phys (phys : Z) : Z := if advances phys then wrap 64 (phys + TARGET_PAGE_SIZE) else phys.

(** The page already holds [d]: the new zone covers all of it or becomes part of a subpage.
    The result is the [phys_offset] of the next page. *)
Definition register_assigned (addr : Z) (p : Z * Z) (d : PhysPageDesc) (start2 end2 : Z) (need_subpage : bool)
    (phys region : Z) : MEM Z :=
  let orig_memory := phys_offset d in
  if need_subpage || truth (Z.land phys IO_MEM_SUBWIDTH) then
    subpage ← (if negb (truth (Z.land orig_memory IO_MEM_SUBPAGE)) then
                 subpage_init (page_down addr) p orig_memory (region_offset d)
               else
                 s ← get;
                 o ← deref (rd (io_mem_opaque s) (Z.shiftr (page_off orig_memory) IO_MEM_SHIFT));
                 match o with O_subpage k => mret k | _ => throw Fault end);
    subpage_register subpage start2 end2 phys region ;;
    set_page p (fun d => d <| region_offset := 0 |>) ;;
    mret phys
  else
    set_page p (fun d => d <| phys_offset := phys |>) ;;
    mret (next_phys phys).

(** The page is unassigned. *)
Definition register_unassigned (addr start2 end2 : Z) (need_subpage : bool) (phys region : Z) : MEM Z :=
  p ← phys_page_find_alloc (Z.shiftr addr TARGET_PAGE_BITS) true;
  p ← deref p;
  set_page p (fun _ => mkPage phys region) ;;
  if advances phys then mret (next_phys phys)
  else
    when (need_subpage || truth (Z.land phys IO_MEM_SUBWIDTH))
      (subpage ← subpage_init (page_down addr) p IO_MEM_UNASSIGNED (page_down addr);
       subpage_register subpage start2 end2 phys region ;;
       set_page p (fun d => d <| region_offset := 0 |>)) ;;
    mret phys.

Definition register_page (start_addr orig_size addr phys region : Z) : MEM Z :=
  let '(start2, end2, need_subpage) := CHECK_SUBPAGE start_addr orig_size addr in
  p ← phys_page_find (Z.shiftr addr TARGET_PAGE_BITS);
  match p with
  | Some p =>
    d ← get_page p;
    if negb (phys_offset d =? IO_MEM_UNASSIGNED)
    then register_assigned addr p d start2 end2 need_subpage phys region
    else register_unassigned addr start2 end2 need_subpage phys region
  | None => register_unassigned addr start2 end2 need_subpage phys region
  end.

(** for(addr = start_addr; addr != end_addr; addr += TARGET_PAGE_SIZE) *)
Fixpoint register_loop (fuel : nat) (start_addr orig_size end_addr addr phys region : Z) : MEM unit :=
  if addr =? end_addr then mret tt
  else
    match fuel with
    | O => throw OutOfFuel
    | S fuel =>
      phys ← register_page start_addr orig_size addr phys region;
      register_loop fuel start_addr orig_size end_addr (wrap 64 (addr + TARGET_PAGE_SIZE)) phys
        (wrap 64 (region + TARGET_PAGE_SIZE))
    end.
Definition cpu_register_physical_memory_offset (start_addr size phys region : Z) : MEM unit :=
  let orig_size := size in
  let region := if phys =? IO_MEM_UNASSIGNED then start_addr else region in
  let region := page_down region in
  let size := page_down (wrap 64 (size + TARGET_PAGE_SIZE - 1)) in
  let end_addr := wrap 64 (start_addr + size) in
  register_loop (Z.to_nat (size / TARGET_PAGE_SIZE)) start_addr orig_size end_addr start_addr phys region ;;
  modify (fun s => s <| tlb_flushes := S (tlb_flushes s) |>).

(** ** RAM blocks *)
Definition qemu_ram_alloc (vmalloc size : Z) : MEM Z :=
  let size := TARGET_PAGE_ALIGN size in
  s ← get;
  let at_ := last_ram_offset s in
  modify (fun s => s <| ram_blocks := mkBlock vmalloc at_ size :: ram_blocks s |>) ;;
  modify (fun s => s <| phys_ram_dirty := take (Z.to_nat (Z.shiftr at_ TARGET_PAGE_BITS)) (phys_ram_dirty s)
                         ++ replicate (Z.to_nat (Z.shiftr size TARGET_PAGE_BITS)) 0xff |>) ;;
  modify (fun s => s <| last_ram_offset := wrap 64 (last_ram_offset s + size) |>) ;;
  mret at_.

Definition holds (addr : Z) (b : RAMBlock) : bool :=
  negb ((offset b >? addr) || (wrap 64 (offset b + block_length b) <=? addr)).
Definition holds_host (ptr : Z) (b : RAMBlock) : bool :=
  negb ((host b >? ptr) || (host b + block_length b <=? ptr)).
(** The search of qemu_get_ram_ptr: the block found, and the list after the pointer
    assignments, which put the block before its predecessor. *)
Fixpoint find_block (addr : Z) (l : list RAMBlock) : option (RAMBlock * list RAMBlock) :=
  match l with
  | [] => None
  | b :: rest =>
    if holds addr b then Some (b, b :: rest)
    else match rest with
         | b2 :: rest2 => if holds addr b2 then Some (b2, b2 :: b :: rest2)
                          else '(x, l') ← find_block addr rest; Some (x, b :: l')
         | [] => None
         end
  end.
Definition qemu_get_ram_ptr (addr : Z) : MEM Z :=
  s ← get;
  match find_block addr (ram_blocks s) with
  | None => hw_error
  | Some (b, l) =>
    modify (fun s => s <| ram_blocks := l |>) ;;
    mret (host b + (addr - offset b))
  end.
Definition qemu_ram_addr_from_host (ptr : Z) : MEM Z :=
  s ← get;
  match List.find (holds_host ptr) (ram_blocks s) with
  | None => hw_error
  | Some b => mret (wrap 64 (offset b + (ptr - host b)))
  end.
