(* ===== verification/PhysPages.v ===== *)
(** * PhysPages: what registering memory does to the page table

    The abstract view of the table is the partial map [mapping] from page numbers to the
    pair of the offset and region offset of the page; a page that was never registered
    and one registered as IO_MEM_UNASSIGNED are both absent from it.  Looking a page up,
    allocating its table and registering a range of whole pages are shown on that view. *)
From S2P Require Import Prelude Physmem.
From stdpp Require Import sets.
#[local] Open Scope Z_scope.

(** ** Arithmetic of pages *)
Lemma page_off_mod x : page_off x = x mod 1024.
Proof. unfold page_off. change (TARGET_PAGE_SIZE - 1) with (Z.ones 10). by rewrite Z.land_ones. Qed.
Lemma page_down_mod x : fits 64 x -> page_down x = x - x mod 1024.
Proof.
  intros Hx. unfold page_down.
  assert (Z.land x (wrap 64 (Z.lnot (TARGET_PAGE_SIZE - 1))) = Z.ldiff x (Z.ones 10)) as ->.
  { apply Z.bits_inj'. intros i Hi.
    rewrite Z.land_spec, wrap_testbit, Z.ldiff_spec, Z.lnot_spec by lia.
    destruct (Z.ltb_spec i 64); [done|]. rewrite (fits_testbit 64 x i) by done. done. }
  rewrite Z.ldiff_ones_r by lia.
  rewrite Z.shiftl_mul_pow2, Z.shiftr_div_pow2 by lia. change (2 ^ 10) with 1024.
  pose proof (Z.div_mod x 1024). lia.
Qed.
Lemma page_number x : Z.shiftr x TARGET_PAGE_BITS = x / 1024.
Proof. by rewrite Z.shiftr_div_pow2. Qed.

(** The indices of a page number in the two levels. *)
Definition page_index (n : Z) : Z * Z :=
  (Z.land (Z.shiftr n L2_BITS) (L1_SIZE - 1), Z.land n (L2_SIZE - 1)).
Lemma page_index_mod n : page_index n = ((n / 1024) mod 4096, n mod 1024).
Proof.
  unfold page_index. change (L1_SIZE - 1) with (Z.ones 12). change (L2_SIZE - 1) with (Z.ones 10).
  by rewrite !Z.land_ones, Z.shiftr_div_pow2.
Qed.
Lemma page_index_inj m n : page_index m = page_index n <-> m mod 2 ^ 22 = n mod 2 ^ 22.
Proof.
  rewrite !page_index_mod. change (2 ^ 22) with (1024 * 4096). rewrite !Z.rem_mul_r by lia. split.
  - by intros [= -> ->].
  - intros H.
    assert (m mod 1024 = n mod 1024 /\ (m / 1024) mod 4096 = (n / 1024) mod 4096) as [-> ->]; [|done].
    pose proof (Z.mod_pos_bound m 1024). pose proof (Z.mod_pos_bound n 1024). lia.
Qed.

(** ** The view of the table *)
Definition pages_wf (s : physmem) : Prop :=
  length (l1_phys_map s) = 4096%nat /\
  Forall (fun o => forall l, o = Some l -> length l = 1024%nat) (l1_phys_map s).
Definition desc_at (s : physmem) (n : Z) : option PhysPageDesc := page_desc s (page_index n).
Definition mapping (s : physmem) (n : Z) : option (Z * Z) :=
  d ← desc_at s n;
  if phys_offset d =? IO_MEM_UNASSIGNED then None else Some (phys_offset d, region_offset d).
Definition same_page (m n : Z) : bool := m mod 2 ^ 22 =? n mod 2 ^ 22.
Definition with_l1 (s : physmem) (l1 : list (option (list PhysPageDesc))) : physmem := s <| l1_phys_map := l1 |>.

Lemma l1_bound n : 0 <= (page_index n).1 < 4096.
Proof. rewrite page_index_mod. simpl. apply Z.mod_pos_bound. lia. Qed.
Lemma l2_bound n : 0 <= (page_index n).2 < 1024.
Proof. rewrite page_index_mod. simpl. apply Z.mod_pos_bound. lia. Qed.
#[local] Opaque page_index.

Lemma rd_l1 s n : pages_wf s -> exists o, rd (l1_phys_map s) (page_index n).1 = Some o /\
  (forall l, o = Some l -> exists d, rd l (page_index n).2 = Some d /\ length l = 1024%nat).
Proof.
  intros [Hlen HF]. pose proof (l1_bound n) as Hb.
  destruct (rd_Some (l1_phys_map s) (page_index n).1) as (o & Ho & _); [lia|].
  exists o. split; [done|]. intros l ->.
  pose proof (rd_Forall _ _ _ _ HF Ho l eq_refl) as Hl. pose proof (l2_bound n) as Hb2.
  destruct (rd_Some l (page_index n).2) as (d & Hd & _); [lia|]. eauto.
Qed.
Lemma desc_at_Some s n l d :
  rd (l1_phys_map s) (page_index n).1 = Some (Some l) -> rd l (page_index n).2 = Some d ->
  desc_at s n = Some d.
Proof. unfold desc_at, page_desc. by intros -> Hd. Qed.
Lemma desc_at_None s n : rd (l1_phys_map s) (page_index n).1 = Some None -> desc_at s n = None.
Proof. unfold desc_at, page_desc. by intros ->. Qed.

Lemma fresh_lookup index i : 0 <= i < 1024 ->
  rd (fresh_pages index) i = Some (mkPage IO_MEM_UNASSIGNED (wrap 64 (Z.shiftl (wrap 64 (index + i)) TARGET_PAGE_BITS))).
Proof.
  intros Hi. unfold rd, fresh_pages. destruct (Z.leb_spec 0 i); [|lia].
  change (Z.to_nat L2_SIZE) with 1024%nat.
  rewrite list_lookup_fmap, lookup_seq_lt by lia. simpl. by rewrite Z2Nat.id by lia.
Qed.
Lemma fresh_length index : length (fresh_pages index) = 1024%nat.
Proof. unfold fresh_pages. by rewrite length_map, length_seq. Qed.
#[local] Opaque fresh_pages.

(** Replacing one second-level table. *)
Lemma desc_at_wr s n l1 l m :
  wr (l1_phys_map s) (page_index n).1 (Some l) = Some l1 ->
  desc_at (with_l1 s l1) m =
    if (page_index n).1 =? (page_index m).1 then rd l (page_index m).2 else desc_at s m.
Proof.
  intros Hw. unfold desc_at, page_desc. simpl. rewrite (rd_wr _ _ _ _ _ Hw).
  by destruct ((page_index n).1 =? (page_index m).1).
Qed.
Lemma pages_wf_wr s n l1 l :
  pages_wf s -> length l = 1024%nat -> wr (l1_phys_map s) (page_index n).1 (Some l) = Some l1 ->
  pages_wf (with_l1 s l1).
Proof.
  intros [Hlen HF] Hl Hw. split; simpl; [by rewrite (wr_length _ _ _ _ Hw)|].
  eapply wr_Forall; [exact HF| |exact Hw]. by intros ? [= <-].
Qed.
Lemma wr_l1 s n v : pages_wf s -> exists l1, wr (l1_phys_map s) (page_index n).1 v = Some l1.
Proof. intros [Hlen _]. pose proof (l1_bound n). eexists. apply wr_Some. lia. Qed.

(** ** Looking pages up *)
Lemma find_wp E n s (Q : option (Z * Z) -> physmem -> Prop) :
  pages_wf s -> Q (match desc_at s n with Some _ => Some (page_index n) | None => None end) s ->
  wp E (phys_page_find n) Q s.
Proof.
  intros Hwf HQ. unfold phys_page_find, phys_page_find_alloc. wp_step. wp_step.
  destruct (rd_l1 s n Hwf) as (o & Ho & Hl). apply wp_bind.
  eapply deref_wp; [exact Ho|]. destruct o as [l|]; simpl.
  - destruct (Hl l eq_refl) as (d & Hd & _). by rewrite (desc_at_Some _ _ _ _ Ho Hd) in HQ.
  - by rewrite (desc_at_None _ _ Ho) in HQ.
Qed.
(** Allocation leaves the mapping alone. *)
Lemma find_alloc_wp E n s (Q : option (Z * Z) -> physmem -> Prop) :
  pages_wf s ->
  (forall l1 d, let s' := with_l1 s l1 in
     pages_wf s' -> (forall m, mapping s' m = mapping s m) -> desc_at s' n = Some d ->
     Q (Some (page_index n)) s') ->
  wp E (phys_page_find_alloc n true) Q s.
Proof.
  intros Hwf HQ. unfold phys_page_find_alloc. wp_step. wp_step.
  destruct (rd_l1 s n Hwf) as (o & Ho & Hl). apply wp_bind.
  eapply deref_wp; [exact Ho|]. destruct o as [l|]; simpl.
  - destruct (Hl l eq_refl) as (d & Hd & _). replace s with (with_l1 s (l1_phys_map s)) by by destruct s.
    eapply HQ; [by destruct s|by destruct s|]. destruct s; by eapply desc_at_Some.
  - destruct (wr_l1 s n (Some (fresh_pages n)) Hwf) as [l1 Hw]. apply wp_bind.
    eapply deref_wp; [exact Hw|]. wp_steps.
    pose proof (l2_bound n) as Hb.
    eapply HQ.
    + eapply pages_wf_wr; [done|apply fresh_length|done].
    + intros m. unfold mapping. rewrite (desc_at_wr _ _ _ _ m Hw).
      destruct (Z.eqb_spec (page_index n).1 (page_index m).1) as [He|]; [|done].
      rewrite fresh_lookup by apply l2_bound. simpl. rewrite (desc_at_None s m); [done|]. by rewrite <- He.
    + rewrite (desc_at_wr _ _ _ _ n Hw), Z.eqb_refl. by apply fresh_lookup.
Qed.
Lemma get_page_wp E n s d (Q : PhysPageDesc -> physmem -> Prop) :
  desc_at s n = Some d -> Q d s -> wp E (get_page (page_index n)) Q s.
Proof. intros Hd HQ. unfold get_page. wp_step. wp_step. by eapply deref_wp. Qed.
Lemma set_page_wp E n s d f (Q : unit -> physmem -> Prop) :
  pages_wf s -> desc_at s n = Some d ->
  (forall l1, let s' := with_l1 s l1 in
     pages_wf s' ->
     (forall m, desc_at s' m = if same_page n m then Some (f d) else desc_at s m) -> Q tt s') ->
  wp E (set_page (page_index n) f) Q s.
Proof.
  intros Hwf Hd HQ. unfold set_page. wp_step. wp_step.
  destruct (rd_l1 s n Hwf) as (o & Ho & Hl). apply wp_bind. eapply deref_wp; [exact Ho|].
  destruct o as [l|]; [|by rewrite (desc_at_None _ _ Ho) in Hd].
  destruct (Hl l eq_refl) as (d' & Hd' & Hlen). rewrite (desc_at_Some _ _ _ _ Ho Hd') in Hd. injection Hd as ->.
  wp_step. eapply deref_wp; [done|]. wp_step. eapply deref_wp; [exact Hd'|].
  pose proof (l2_bound n) as Hb.
  assert (exists l', wr l (page_index n).2 (f d) = Some l') as [l' Hw'] by (eexists; apply wr_Some; lia).
  wp_step. eapply deref_wp; [exact Hw'|].
  destruct (wr_l1 s n (Some l') Hwf) as [l1 Hw]. wp_step. eapply deref_wp; [exact Hw|]. wp_step.
  apply HQ.
  - eapply pages_wf_wr; [done| |done]. by rewrite (wr_length _ _ _ _ Hw').
  - intros m. rewrite (desc_at_wr _ _ _ _ m Hw), (rd_wr _ _ _ _ _ Hw'). unfold same_page.
    destruct (Z.eqb_spec (page_index n).1 (page_index m).1) as [H1|H1],
             (Z.eqb_spec (n mod 2 ^ 22) (m mod 2 ^ 22)) as [H2|H2].
    + apply page_index_inj in H2. by rewrite H2, Z.eqb_refl.
    + destruct (Z.eqb_spec (page_index n).2 (page_index m).2) as [H3|H3].
      * exfalso. apply H2, page_index_inj. destruct (page_index n), (page_index m); simpl in *; congruence.
      * unfold desc_at, page_desc. by rewrite <- H1, Ho.
    + apply page_index_inj in H2. by rewrite H2 in H1.
    + done.
Qed.

(** ** Registering whole pages *)
(** What a page holds once [phys] is registered over the page that held [old]: a page
    that was assigned keeps the region offset it had. *)
Definition placed (phys region : Z) (old : option (Z * Z)) : option (Z * Z) :=
  if phys =? IO_MEM_UNASSIGNED then None else Some (phys, default region (snd <$> old)).

Lemma same_page_mapping s n m : same_page n m = true -> mapping s m = mapping s n.
Proof.
  unfold same_page. intros H%Z.eqb_eq%page_index_inj. unfold mapping, desc_at. by rewrite H.
Qed.
Lemma mapping_set s s' n d :
  (forall m, desc_at s' m = if same_page n m then Some d else desc_at s m) ->
  forall m, mapping s' m = if same_page n m
    then (if phys_offset d =? IO_MEM_UNASSIGNED then None else Some (phys_offset d, region_offset d))
    else mapping s m.
Proof. intros H m. unfold mapping. rewrite H. by destruct (same_page n m). Qed.

(** The page [n] gets [phys], nothing but the page table changes, [r] is for the next page. *)
Definition page_placed (n phys region : Z) (s : physmem) (r : Z) (s' : physmem) : Prop :=
  r = next_phys phys /\ pages_wf s' /\ (exists l1, s' = with_l1 s l1) /\
  forall m, mapping s' m = if same_page n m then placed phys region (mapping s n) else mapping s m.

Lemma register_unassigned_whole addr a b phys region s :
  let n := Z.shiftr addr TARGET_PAGE_BITS in
  pages_wf s -> truth (Z.land phys IO_MEM_SUBWIDTH) = false -> mapping s n = None ->
  wp no_err (register_unassigned addr a b false phys region) (page_placed n phys region s) s.
Proof.
  intros n Hwf Hsw Hn. unfold register_unassigned. fold n. wp_step. apply find_alloc_wp; [done|].
  intros l1 d s1 Hwf1 Hm1 Hd1. wp_steps.
  eapply set_page_wp; [done|exact Hd1|]. intros l2 s2 Hwf2 Hs2.
  assert (page_placed n phys region s (next_phys phys) s2) as HQ.
  { repeat split; [apply Hwf2|apply Hwf2| |].
    - exists l2. by unfold s2, s1; destruct s.
    - intros m. by rewrite (mapping_set s1 s2 _ _ Hs2), Hm1, Hn. }
  unfold next_phys in *. destruct (advances phys); [done|]. rewrite Hsw. simpl. by wp_steps.
Qed.
Lemma register_assigned_whole addr n d a b phys region s :
  pages_wf s -> truth (Z.land phys IO_MEM_SUBWIDTH) = false ->
  desc_at s n = Some d -> phys_offset d <> IO_MEM_UNASSIGNED ->
  wp no_err (register_assigned addr (page_index n) d a b false phys region) (page_placed n phys region s) s.
Proof.
  intros Hwf Hsw Hd Hu. unfold register_assigned. rewrite Hsw. simpl. wp_step.
  eapply set_page_wp; [done|exact Hd|]. intros l1 s1 Hwf1 Hs1. wp_step.
  split; [done|]. split; [done|]. split; [by exists l1|]. intros m. rewrite (mapping_set s s1 _ _ Hs1).
  assert (mapping s n = Some (phys_offset d, region_offset d)) as ->; [|done].
  unfold mapping. rewrite Hd. simpl. by destruct (Z.eqb_spec (phys_offset d) IO_MEM_UNASSIGNED).
Qed.
Lemma register_page_whole start size addr phys region s a b :
  pages_wf s -> CHECK_SUBPAGE start size addr = (a, b, false) -> truth (Z.land phys IO_MEM_SUBWIDTH) = false ->
  wp no_err (register_page start size addr phys region)
    (page_placed (Z.shiftr addr TARGET_PAGE_BITS) phys region s) s.
Proof.
  intros Hwf Hc Hsw. unfold register_page. rewrite Hc.
  set (n := Z.shiftr addr TARGET_PAGE_BITS). wp_step. apply find_wp; [done|].
  destruct (desc_at s n) as [d|] eqn:Hd.
  - wp_step. eapply get_page_wp; [exact Hd|].
    destruct (Z.eqb_spec (phys_offset d) IO_MEM_UNASSIGNED) as [Hu|Hu]; simpl.
    + apply register_unassigned_whole; [done..|]. unfold mapping. fold n. rewrite Hd. simpl. by rewrite Hu.
    + by apply register_assigned_whole.
  - apply register_unassigned_whole; [done..|]. unfold mapping. fold n. by rewrite Hd.
Qed.

(** Aligned ranges never need a subpage. *)
Lemma check_whole start count i :
  0 <= i < count -> start mod 1024 = 0 -> 0 <= start -> start + count * 1024 <= 2 ^ 32 ->
  CHECK_SUBPAGE start (count * 1024) (start + i * 1024) = (0, 1023, false).
Proof.
  intros Hi Hs H0 Hmax. unfold CHECK_SUBPAGE. rewrite page_off_mod, Hs.
  replace (if start + i * 1024 >? start then (0, false) else (0, 0 >? 0)) with (0, false)
    by by destruct (_ >? _).
  assert (wrap 64 (wrap 64 (start + count * 1024) - (start + i * 1024)) = (count - i) * 1024) as ->.
  { rewrite (wrap_fits 64 (start + _)) by (unfold fits; lia). rewrite wrap_fits by (unfold fits; lia). lia. }
  change TARGET_PAGE_SIZE with 1024. by destruct (Z.geb_spec ((count - i) * 1024) 1024); [|lia].
Qed.
(** The offset of the [i]-th page. *)
Definition phys_of (phys i : Z) : Z := if advances phys then phys + i * 1024 else phys.
Lemma next_phys_of phys i :
  0 <= phys -> 0 <= i -> phys + (i + 1) * 1024 < 2 ^ 64 -> next_phys (phys_of phys i) = phys_of phys (i + 1).
Proof.
  intros Hp Hi Hmax. unfold next_phys, phys_of. destruct (advances phys) eqn:Ha; [|by rewrite Ha].
  assert (advances (phys + i * 1024) = true) as ->.
  { unfold advances in *. rewrite page_off_mod in *.
    change IO_MEM_ROMD with (Z.ones 1) in *. rewrite Z.land_ones in * by lia. change (2 ^ 1) with 2 in *.
    rewrite Z.mod_add by lia. replace (i * 1024) with (i * 512 * 2) by lia. by rewrite Z.mod_add by lia. }
  change TARGET_PAGE_SIZE with 1024. rewrite wrap_fits by (unfold fits; lia). lia.
Qed.

Lemma phys_of_subwidth phys i : truth (Z.land phys IO_MEM_SUBWIDTH) = false ->
  truth (Z.land (phys_of phys i) IO_MEM_SUBWIDTH) = false.
Proof.
  change IO_MEM_SUBWIDTH with (bit 2). rewrite !truth_land_bit by lia.
  unfold phys_of. destruct (advances phys); [|done]. intros H.
  replace (phys + i * 1024) with (phys + (i * 128) * 2 ^ 3) by lia.
  rewrite <- (Z.mod_pow2_bits_low _ 3) by lia. rewrite Z.mod_add by lia. by rewrite Z.mod_pow2_bits_low by lia.
Qed.

(** ** The loop *)
(** The table after [count] pages from page number [n]. *)
Definition pages_placed (n count phys region : Z) (m : Z) (old : option (Z * Z)) : option (Z * Z) :=
  let i := (m - n) mod 2 ^ 22 in
  if i <? count then placed (phys_of phys i) (wrap 64 (region + i * 1024)) old else old.

Lemma same_page_offset a i m : 0 <= i < 2 ^ 22 -> same_page (a + i) m = (i =? (m - a) mod 2 ^ 22).
Proof.
  intros Hi. unfold same_page. apply eq_true_iff_eq. rewrite !Z.eqb_eq. split.
  - intros H. rewrite Zminus_mod, <- H, <- Zminus_mod.
    replace (a + i - a) with i by lia. by rewrite Z.mod_small.
  - intros ->. rewrite Zplus_mod_idemp_r. f_equal. lia.
Qed.

Lemma register_loop_whole start count phys region : forall k i s,
  start mod 1024 = 0 -> 0 <= start -> start + count * 1024 <= 2 ^ 32 -> 0 <= phys -> phys + count * 1024 < 2 ^ 64 ->
  truth (Z.land phys IO_MEM_SUBWIDTH) = false -> 0 <= i -> i + Z.of_nat k = count -> pages_wf s ->
  wp no_err (register_loop k start (count * 1024) (start + count * 1024) (start + i * 1024) (phys_of phys i)
               (wrap 64 (region + i * 1024)))
    (fun _ s' => pages_wf s' /\ (exists l1, s' = with_l1 s l1) /\
       forall m, mapping s' m = if i <=? (m - start / 1024) mod 2 ^ 22
                                then pages_placed (start / 1024) count phys region m (mapping s m) else mapping s m) s.
Proof.
  induction k as [|k IH]; intros i s Hst H0 Hmax Hp Hpm Hsw Hi Hk Hwf; simpl.
  - replace (start + i * 1024) with (start + count * 1024) by lia. rewrite Z.eqb_refl. wp_step.
    split; [done|]. split; [exists (l1_phys_map s); by destruct s|]. intros m. unfold pages_placed.
    destruct (Z.leb_spec i ((m - start / 1024) mod 2 ^ 22)), (Z.ltb_spec ((m - start / 1024) mod 2 ^ 22) count);
      lia || done.
  - destruct (Z.eqb_spec (start + i * 1024) (start + count * 1024)); [lia|].
    wp_step. eapply wp_mono.
    { eapply register_page_whole; [done|by apply check_whole; lia|by apply phys_of_subwidth]. }
    intros r s1 (-> & Hwf1 & (l1 & Hs1) & Hm1). rewrite next_phys_of by lia.
    rewrite (wrap_fits 64 (start + i * 1024 + TARGET_PAGE_SIZE))
      by (change TARGET_PAGE_SIZE with 1024; unfold fits; lia).
    replace (start + i * 1024 + TARGET_PAGE_SIZE) with (start + (i + 1) * 1024)
      by (change TARGET_PAGE_SIZE with 1024; lia).
    assert (wrap 64 (wrap 64 (region + i * 1024) + TARGET_PAGE_SIZE) = wrap 64 (region + (i + 1) * 1024)) as ->.
    { unfold wrap. change TARGET_PAGE_SIZE with 1024. rewrite Zplus_mod_idemp_l. f_equal. lia. }
    eapply wp_mono; [apply (IH (i + 1) s1); done || lia|].
    intros _ s2 (Hwf2 & (l2 & Hs2) & Hm2). split; [done|].
    split; [exists l2; by rewrite Hs2, Hs1|]. intros m. rewrite Hm2, Hm1. rewrite page_number.
    rewrite Z.div_add by lia. rewrite same_page_offset by lia. unfold pages_placed. set (j := (m - start / 1024) mod 2 ^ 22).
    destruct (Z.leb_spec i j), (Z.leb_spec (i + 1) j), (Z.eqb_spec i j); try lia; try done.
    subst i. destruct (Z.ltb_spec j count); [|lia]. f_equal. symmetry. apply same_page_mapping.
    rewrite same_page_offset by lia. by apply Z.eqb_eq.
Qed.

Lemma page_down_fits x : fits 64 x -> fits 64 (page_down x).
Proof. intros Hx. rewrite page_down_mod by done. unfold fits in *. pose proof (Z.mod_pos_bound x 1024). pose proof (Z.mod_le x 1024). lia. Qed.
Lemma page_desc_spec addr s : pages_wf s ->
  cpu_get_physical_page_desc addr s =
    Ok (match mapping s (addr / 1024) with Some (p, _) => p | None => IO_MEM_UNASSIGNED end, s).
Proof.
  intros Hwf.
  assert (wp no_err (cpu_get_physical_page_desc addr) (fun r s' => s' = s /\
    r = match mapping s (addr / 1024) with Some (p, _) => p | None => IO_MEM_UNASSIGNED end) s) as H.
  { unfold cpu_get_physical_page_desc. rewrite page_number. wp_step. apply find_wp; [done|].
    unfold mapping. destruct (desc_at s (addr / 1024)) as [d|] eqn:Hd; simpl; [|by wp_steps].
    wp_step. eapply get_page_wp; [exact Hd|]. wp_step. split; [done|].
    by destruct (Z.eqb_spec (phys_offset d) IO_MEM_UNASSIGNED). }
  apply wp_total_ex in H as (r & s' & -> & -> & ->). done.
Qed.
Lemma pages_placed_unassigned n count phys region region' m old :
  phys = IO_MEM_UNASSIGNED -> pages_placed n count phys region m old = pages_placed n count phys region' m old.
Proof. intros ->. done. Qed.

(** Registering a range of whole pages. *)
Lemma register_memory_whole start count phys region s :
  pages_wf s -> start mod 1024 = 0 -> 0 <= start -> 0 <= count -> start + count * 1024 <= 2 ^ 32 ->
  fits 64 region -> 0 <= phys -> phys + count * 1024 < 2 ^ 64 -> truth (Z.land phys IO_MEM_SUBWIDTH) = false ->
  wp no_err (cpu_register_physical_memory_offset start (count * 1024) phys region) (fun _ s' =>
    exists l1, s' = (with_l1 s l1) <| tlb_flushes := S (tlb_flushes s) |> /\ pages_wf s' /\
    forall m, mapping s' m = pages_placed (start / 1024) count phys (page_down region) m (mapping s m)) s.
Proof.
  intros Hwf Hst H0 Hc Hmax Hr Hp Hpm Hsw.
  unfold cpu_register_physical_memory_offset. cbv zeta.
  assert (page_down (wrap 64 (count * 1024 + TARGET_PAGE_SIZE - 1)) = count * 1024) as ->.
  { change TARGET_PAGE_SIZE with 1024. rewrite wrap_fits by (unfold fits; lia).
    rewrite page_down_mod by (unfold fits; lia).
    replace (count * 1024 + 1024 - 1) with (1023 + count * 1024) by lia.
    rewrite Z.mod_add by lia. change (1023 mod 1024) with 1023. lia. }
  rewrite (wrap_fits 64 (start + _)) by (unfold fits; lia).
  change TARGET_PAGE_SIZE with 1024. rewrite Z.div_mul by lia.
  set (region' := page_down (if phys =? IO_MEM_UNASSIGNED then start else region)).
  assert (fits 64 region') as Hr' by (apply page_down_fits; destruct (_ =? _); [unfold fits; lia|done]).
  wp_step. eapply wp_mono.
  { pose proof (register_loop_whole start count phys region' (Z.to_nat count) 0 s) as HL.
    rewrite Z.mul_0_l, !Z.add_0_r, (wrap_fits 64 region') in HL by done.
    unfold phys_of in HL. rewrite Z.mul_0_l, Z.add_0_r in HL.
    replace (if advances phys then phys else phys) with phys in HL by by destruct (advances phys).
    apply HL; done || lia. }
  intros _ s1 (Hwf1 & (l1 & Hs1) & Hm1). wp_step. exists l1.
  split; [by rewrite Hs1; destruct s|]. split; [by destruct s1|]. intros m.
  transitivity (mapping s1 m); [by destruct s1|]. rewrite Hm1.
  destruct (Z.leb_spec 0 ((m - start / 1024) mod 2 ^ 22)); [|pose proof (Z.mod_pos_bound (m - start / 1024) (2 ^ 22)); lia].
  unfold region'. destruct (Z.eqb_spec phys IO_MEM_UNASSIGNED); [by apply pages_placed_unassigned|done].
Qed.


Lemma phys_init_wf : pages_wf phys_init.
Proof. split; [apply length_replicate|]. apply Forall_replicate. done. Qed.
