(* ===== verification/PhysRam.v ===== *)
(** * PhysRam: the list of RAM blocks

    The abstract view of the blocks is the partial map [ram_view] from the offsets below
    last_ram_offset to host addresses.  The order of the list, which every lookup changes,
    is invisible in it; qemu_ram_alloc extends it, qemu_get_ram_ptr reads it and
    qemu_ram_addr_from_host inverts it. *)
From S2P Require Import Prelude Physmem PhysPages.
From stdpp Require Import sets.
#[local] Open Scope Z_scope.

(** The blocks, last allocated first, cover the offsets below [top] without gap or overlap. *)
Inductive tiles : list RAMBlock -> Z -> Prop :=
| tiles_nil : tiles [] 0
| tiles_cons h len top l : tiles l top -> 0 <= len -> len mod 1024 = 0 -> tiles (mkBlock h top len :: l) (top + len).
Definition ram_wf (s : physmem) : Prop :=
  fits 64 (last_ram_offset s) /\ Z.of_nat (length (phys_ram_dirty s)) = last_ram_offset s / 1024 /\
  exists l, ram_blocks s ≡ₚ l /\ tiles l (last_ram_offset s).
Definition ram_view (s : physmem) (addr : Z) : option Z :=
  b ← List.find (holds addr) (ram_blocks s); Some (host b + (addr - offset b)).

(** ** Tilings *)
Lemma tiles_top l top : tiles l top -> 0 <= top /\ top mod 1024 = 0 /\
  forall b, b ∈ l -> 0 <= offset b /\ 0 <= block_length b /\ offset b + block_length b <= top.
Proof.
  induction 1 as [|h len top l Ht (IH0 & IHm & IH) Hl Hlm]; [by split_and!; [..|intros b ?%elem_of_nil]|].
  split; [lia|]. split; [rewrite Z.add_mod, IHm, Hlm by lia; done|].
  intros b [->|Hb]%elem_of_cons; simpl; [lia|]. specialize (IH b Hb). lia.
Qed.
Lemma holds_spec top l b addr : tiles l top -> fits 64 top -> b ∈ l ->
  holds addr b = true <-> offset b <= addr < offset b + block_length b.
Proof.
  intros Ht Hf Hb. pose proof (tiles_top _ _ Ht) as (_ & _ & H). specialize (H b Hb).
  unfold holds. rewrite wrap_fits by (unfold fits in *; lia).
  rewrite negb_true_iff, orb_false_iff, Z.gtb_ltb, Z.ltb_ge, Z.leb_gt. lia.
Qed.
Lemma tiles_unique l top b1 b2 addr : tiles l top -> b1 ∈ l -> b2 ∈ l ->
  offset b1 <= addr < offset b1 + block_length b1 -> offset b2 <= addr < offset b2 + block_length b2 -> b1 = b2.
Proof.
  induction 1 as [|h len top l Ht IH Hl Hlm]; [by intros ?%elem_of_nil|].
  pose proof (tiles_top _ _ Ht) as (_ & _ & Hin).
  intros [->|H1]%elem_of_cons [->|H2]%elem_of_cons; simpl; try done.
  - specialize (Hin b2 H2). lia.
  - specialize (Hin b1 H1). lia.
  - by apply IH.
Qed.
Lemma tiles_total l top addr : tiles l top -> 0 <= addr < top ->
  exists b, b ∈ l /\ offset b <= addr < offset b + block_length b.
Proof.
  induction 1 as [|h len top l Ht IH Hl Hlm]; [lia|]. intros Ha.
  destruct (Z.lt_ge_cases addr top) as [Hlt|Hge].
  - destruct IH as (b & Hb & Hin); [lia|]. exists b. split; [by apply list_elem_of_further|done].
  - exists (mkBlock h top len). split; [by apply list_elem_of_here|simpl; lia].
Qed.

(** ** The view *)
Lemma find_spec {A} (p : A -> bool) l :
  match List.find p l with Some x => x ∈ l /\ p x = true | None => forall x, x ∈ l -> p x = false end.
Proof.
  destruct (List.find p l) as [x|] eqn:H.
  - apply find_some in H as [Hin Hp]. split; [by apply list_elem_of_In|done].
  - intros x Hx. apply (find_none _ _ H). by apply list_elem_of_In.
Qed.
Lemma find_perm l1 l2 l top addr : tiles l top -> fits 64 top -> l1 ≡ₚ l -> l2 ≡ₚ l ->
  List.find (holds addr) l1 = List.find (holds addr) l2.
Proof.
  intros Ht Hf H1 H2.
  pose proof (find_spec (holds addr) l1) as F1. pose proof (find_spec (holds addr) l2) as F2.
  destruct (List.find (holds addr) l1) as [b1|], (List.find (holds addr) l2) as [b2|]; try done.
  - destruct F1 as [I1 P1], F2 as [I2 P2]. rewrite H1 in I1. rewrite H2 in I2. f_equal.
    apply (holds_spec _ _ _ _ Ht Hf) in P1; [|done]. apply (holds_spec _ _ _ _ Ht Hf) in P2; [|done].
    by eapply tiles_unique.
  - destruct F1 as [I1 P1]. rewrite F2 in P1; [done|]. by rewrite H2, <- H1.
  - destruct F2 as [I2 P2]. rewrite F1 in P2; [done|]. by rewrite H1, <- H2.
Qed.
Lemma ram_view_None s addr : ram_wf s -> ram_view s addr = None <-> ~ (0 <= addr < last_ram_offset s).
Proof.
  intros (Hf & _ & l & Hp & Ht). unfold ram_view.
  pose proof (find_spec (holds addr) (ram_blocks s)) as F.
  destruct (List.find (holds addr) (ram_blocks s)) as [b|]; simpl; (split; [|done || intros H; exfalso]).
  - done.
  - destruct F as [Hb Hh]. rewrite Hp in Hb. apply (holds_spec _ _ _ _ Ht Hf) in Hh; [|done].
    pose proof (tiles_top _ _ Ht) as (_ & _ & Hin). specialize (Hin b Hb). lia.
  - intros _ Ha. destruct (tiles_total _ _ _ Ht Ha) as (b & Hb & Hin).
    assert (holds addr b = true) as Hh by by apply (holds_spec _ _ _ _ Ht Hf).
    rewrite F in Hh; [done|]. by rewrite Hp.
Qed.

(** The search finds the first block that holds the address and permutes the list. *)
Lemma find_block_cons2 addr b b2 rest :
  find_block addr (b :: b2 :: rest) =
    if holds addr b then Some (b, b :: b2 :: rest)
    else if holds addr b2 then Some (b2, b2 :: b :: rest)
    else match find_block addr (b2 :: rest) with Some (x, l') => Some (x, b :: l') | None => None end.
Proof. simpl. destruct (holds addr b), (holds addr b2); done. Qed.
Lemma find_block_spec addr l :
  match find_block addr l with
  | Some (b, l') => List.find (holds addr) l = Some b /\ l' ≡ₚ l
  | None => List.find (holds addr) l = None
  end.
Proof.
  induction l as [|b [|b2 rest] IH]; [done|simpl; by destruct (holds addr b)|].
  rewrite find_block_cons2. change (List.find (holds addr) (b :: b2 :: rest))
    with (if holds addr b then Some b else List.find (holds addr) (b2 :: rest)).
  destruct (holds addr b) eqn:Hb; [done|]. destruct (holds addr b2) eqn:Hb2.
  - simpl. rewrite Hb2. by split; [|constructor].
  - destruct (find_block addr (b2 :: rest)) as [[x l']|]; [|done].
    destruct IH as [IH1 IH2]. split; [done|]. by rewrite IH2.
Qed.
Lemma get_ram_ptr_spec addr s : ram_wf s ->
  match ram_view s addr with
  | Some ptr => exists l, qemu_get_ram_ptr addr s = Ok (ptr, s <| ram_blocks := l |>) /\ l ≡ₚ ram_blocks s
  | None => qemu_get_ram_ptr addr s = Err HwError
  end.
Proof.
  intros Hwf.
  assert (qemu_get_ram_ptr addr s = match find_block addr (ram_blocks s) with
    | None => Err HwError | Some (b, l) => Ok (host b + (addr - offset b), s <| ram_blocks := l |>) end) as ->
    by (unfold qemu_get_ram_ptr, mbind, ST_bind, get; by destruct (find_block addr (ram_blocks s)) as [[]|]).
  unfold ram_view. pose proof (find_block_spec addr (ram_blocks s)) as F.
  destruct (find_block addr (ram_blocks s)) as [[b l]|]; [|by rewrite F].
  destruct F as [-> Hp]. simpl. by exists l.
Qed.

(** Changes of the state the blocks do not depend on. *)
Lemma ram_view_perm s l : ram_wf s -> l ≡ₚ ram_blocks s ->
  ram_wf (s <| ram_blocks := l |>) /\ forall addr, ram_view (s <| ram_blocks := l |>) addr = ram_view s addr.
Proof.
  intros (Hf & Hd & l0 & Hp & Ht) Hl. split.
  - split; [done|]. split; [done|]. exists l0. split; [|done]. simpl. by rewrite Hl.
  - intros addr. unfold ram_view. simpl. by rewrite (find_perm l (ram_blocks s) l0 _ addr Ht Hf) by (by rewrite ?Hl).
Qed.

(** ** Allocation *)
Lemma align_spec x : 0 <= x -> x + 1023 < 2 ^ 64 ->
  TARGET_PAGE_ALIGN x = (x + 1023) / 1024 * 1024.
Proof.
  intros H0 Hm. unfold TARGET_PAGE_ALIGN. change TARGET_PAGE_SIZE with 1024.
  rewrite wrap_fits by (unfold fits; lia). rewrite page_down_mod by (unfold fits; lia).
  pose proof (Z.div_mod (x + 1024 - 1) 1024). replace (x + 1023) with (x + 1024 - 1) by lia. lia.
Qed.
Lemma ram_alloc_spec vmalloc size s :
  ram_wf s -> 0 <= size -> last_ram_offset s + size + 1023 < 2 ^ 64 ->
  exists s', qemu_ram_alloc vmalloc size s = Ok (last_ram_offset s, s') /\ ram_wf s' /\
    last_ram_offset s' = last_ram_offset s + (size + 1023) / 1024 * 1024 /\
    phys_ram_dirty s' = phys_ram_dirty s ++ replicate (Z.to_nat ((size + 1023) / 1024)) 0xff /\
    (forall addr, ram_view s' addr =
       if (last_ram_offset s <=? addr) && (addr <? last_ram_offset s') then Some (vmalloc + (addr - last_ram_offset s))
       else ram_view s addr).
Proof.
  intros Hwf H0 Hm. pose proof Hwf as (Hf & Hd & l & Hp & Ht).
  pose proof (tiles_top _ _ Ht) as (Htop & Hmod & _).
  unfold qemu_ram_alloc. rewrite align_spec by lia.
  set (k := (size + 1023) / 1024). assert (0 <= k) as Hk by (apply Z.div_pos; lia).
  assert (k * 1024 <= size + 1023) by (unfold k; pose proof (Z.mul_div_le (size + 1023) 1024); lia).
  eexists. split; [reflexivity|]. simpl.
  rewrite wrap_fits by (unfold fits in *; lia).
  assert (Z.shiftr (last_ram_offset s) TARGET_PAGE_BITS = last_ram_offset s / 1024) as -> by apply page_number.
  assert (Z.shiftr (k * 1024) TARGET_PAGE_BITS = k) as -> by (rewrite page_number; apply Z.div_mul; lia).
  assert (take (Z.to_nat (last_ram_offset s / 1024)) (phys_ram_dirty s) = phys_ram_dirty s) as ->
    by (apply take_ge; lia).
  split; [|split; [done|split; [done|]]].
  - split; [unfold fits in *; simpl; lia|]. split.
    + simpl. rewrite length_app, length_replicate, Nat2Z.inj_add, Hd, Z2Nat.id by done.
      rewrite Z.div_add by lia. lia.
    + exists (mkBlock vmalloc (last_ram_offset s) (k * 1024) :: l). split; [simpl; by rewrite Hp|].
      simpl. apply tiles_cons; [done|lia|]. by apply Z.mod_mul.
  - intros addr. unfold ram_view at 1. simpl.
    assert (holds addr (mkBlock vmalloc (last_ram_offset s) (k * 1024)) =
            (last_ram_offset s <=? addr) && (addr <? last_ram_offset s + k * 1024)) as ->; [|by destruct (_ && _)].
    apply eq_true_iff_eq.
    rewrite (holds_spec (last_ram_offset s + k * 1024) (mkBlock vmalloc (last_ram_offset s) (k * 1024) :: l));
      [|apply tiles_cons; [done|lia|by apply Z.mod_mul]|unfold fits in *; lia|by apply list_elem_of_here].
    simpl. rewrite andb_true_iff, Z.leb_le, Z.ltb_lt. done.
Qed.

(** C35: RAM is the partial map [ram_view] from offsets to host addresses.  It is defined
    exactly below last_ram_offset; qemu_get_ram_ptr returns its value, aborts where it is
    undefined, and reorders the list of blocks without changing the map; qemu_ram_alloc
    returns the old last_ram_offset, rounds the size up to whole pages and extends the map
    with the new block only, all its pages dirty. *)
Theorem ram_blocks_refine s : ram_wf s ->
  (forall addr, ram_view s addr = None <-> ~ (0 <= addr < last_ram_offset s)) /\
  (forall addr, match ram_view s addr with
     | Some ptr => exists l, let s' := s <| ram_blocks := l |> in
         qemu_get_ram_ptr addr s = Ok (ptr, s') /\ l ≡ₚ ram_blocks s /\ ram_wf s' /\
         forall a, ram_view s' a = ram_view s a
     | None => qemu_get_ram_ptr addr s = Err HwError end) /\
  (forall vmalloc size, 0 <= size -> last_ram_offset s + size + 1023 < 2 ^ 64 ->
     exists s', qemu_ram_alloc vmalloc size s = Ok (last_ram_offset s, s') /\ ram_wf s' /\
       last_ram_offset s' = last_ram_offset s + (size + 1023) / 1024 * 1024 /\
       phys_ram_dirty s' = phys_ram_dirty s ++ replicate (Z.to_nat ((size + 1023) / 1024)) 0xff /\
       forall addr, ram_view s' addr =
         if (last_ram_offset s <=? addr) && (addr <? last_ram_offset s')
         then Some (vmalloc + (addr - last_ram_offset s)) else ram_view s addr).
Proof.
  intros Hwf. split; [intros addr; by apply ram_view_None|]. split.
  - intros addr. pose proof (get_ram_ptr_spec addr s Hwf) as H. destruct (ram_view s addr); [|done].
    destruct H as (l & H & Hl). exists l. cbv zeta. destruct (ram_view_perm s l Hwf Hl). done.
  - intros vmalloc size H0 Hm. by apply ram_alloc_spec.
Qed.

(** When the host ranges of the blocks do not overlap, qemu_ram_addr_from_host is the
    inverse of qemu_get_ram_ptr: the pointer of any offset below last_ram_offset leads back
    to that offset, whatever the lookups in between did to the order of the list. *)
Theorem ram_addr_roundtrip s addr :
  ram_wf s -> 0 <= addr < last_ram_offset s ->
  (forall ptr b1 b2, b1 ∈ ram_blocks s -> b2 ∈ ram_blocks s -> holds_host ptr b1 = true -> holds_host ptr b2 = true -> b1 = b2) ->
  exists ptr s', qemu_get_ram_ptr addr s = Ok (ptr, s') /\ qemu_ram_addr_from_host ptr s' = Ok (addr, s').
Proof.
  intros Hwf Ha Hdis. pose proof (get_ram_ptr_spec addr s Hwf) as H. pose proof (ram_view_None s addr Hwf) as Hn.
  unfold ram_view in *. pose proof (find_spec (holds addr) (ram_blocks s)) as F.
  destruct (List.find (holds addr) (ram_blocks s)) as [b|]; simpl in *; [|by apply proj1 in Hn; destruct Hn].
  destruct H as (l & H & Hl). do 2 eexists. split; [exact H|].
  destruct Hwf as (Hf & _ & l0 & Hp & Ht). destruct F as [Hb Hh].
  assert (b ∈ l0) as Hb0 by by rewrite <- Hp.
  apply (holds_spec _ _ _ _ Ht Hf) in Hh; [|done].
  pose proof (tiles_top _ _ Ht) as (_ & _ & Hin). specialize (Hin b Hb0).
  assert (holds_host (host b + (addr - offset b)) b = true) as Hhost.
  { unfold holds_host. rewrite negb_true_iff, orb_false_iff, Z.gtb_ltb, Z.ltb_ge, Z.leb_gt. lia. }
  unfold qemu_ram_addr_from_host, mbind, ST_bind, get. simpl.
  pose proof (find_spec (holds_host (host b + (addr - offset b))) l) as F.
  destruct (List.find _ l) as [b'|].
  - destruct F as [Hb' Hh']. rewrite Hl in Hb'. rewrite (Hdis _ b' b Hb' Hb Hh' Hhost).
    simpl. replace (offset b + (host b + (addr - offset b) - host b)) with addr by lia.
    by rewrite wrap_fits by (unfold fits in *; lia).
  - rewrite F in Hhost; [done|]. by rewrite Hl.
Qed.

(** ** Two blocks, the second allocated first in the list *)
Definition two_blocks : physmem := phys_init
  <| ram_blocks := [mkBlock 0x50000 4096 2048; mkBlock 0x10000 0 4096] |> <| last_ram_offset := 6144 |>
  <| phys_ram_dirty := replicate 6 0xff |>.
Lemma two_blocks_wf : ram_wf two_blocks.
Proof.
  split; [done|]. split; [done|]. exists (ram_blocks two_blocks). split; [done|].
  apply (tiles_cons 0x50000 2048 4096); [|done|done]. apply (tiles_cons 0x10000 4096 0 []); [apply tiles_nil|done|done].
Qed.
Example ram_blocks_refine_witness :
  ram_view two_blocks 100 = Some (0x10000 + 100) /\ ram_view two_blocks 5000 = Some (0x50000 + 904) /\
  forall vmalloc size, 0 <= size -> 6144 + size + 1023 < 2 ^ 64 ->
    exists s', qemu_ram_alloc vmalloc size two_blocks = Ok (6144, s') /\ ram_wf s' /\
      last_ram_offset s' = 6144 + (size + 1023) / 1024 * 1024 /\
      phys_ram_dirty s' = replicate 6 0xff ++ replicate (Z.to_nat ((size + 1023) / 1024)) 0xff /\
      forall addr, ram_view s' addr =
        if (6144 <=? addr) && (addr <? last_ram_offset s') then Some (vmalloc + (addr - 6144)) else ram_view two_blocks addr.
Proof.
  split; [done|]. split; [done|]. exact (proj2 (proj2 (ram_blocks_refine two_blocks two_blocks_wf))).
Defined.
Example ram_addr_roundtrip_witness :
  exists ptr s', qemu_get_ram_ptr 5000 two_blocks = Ok (ptr, s') /\ qemu_ram_addr_from_host ptr s' = Ok (5000, s').
Proof.
  apply (ram_addr_roundtrip two_blocks 5000); [exact two_blocks_wf|done|].
  intros ptr b1 b2 H1 H2. unfold two_blocks in H1, H2. cbn in H1, H2.
  rewrite !elem_of_cons, elem_of_nil in H1, H2. unfold holds_host.
  destruct H1 as [->|[->|[]]], H2 as [->|[->|[]]]; cbn [host block_length]; try done;
    rewrite !negb_true_iff, !orb_false_iff, !Z.gtb_ltb, !Z.ltb_ge, !Z.leb_gt; lia.
Defined.
