(* ===== verification/PhysZones.v ===== *)
(** * PhysZones: the table of I/O zones

    A zone has three read functions, three write functions and an opaque pointer; its
    number shifted left by IO_MEM_SHIFT is what a page holds.  Registering takes the lowest
    free zone, unregistering gives it back.  The lemmas describe the two-dimensional tables
    by their elements ([rd2]). *)
From S2P Require Import Prelude Physmem.
From stdpp Require Import sets.
#[local] Open Scope Z_scope.

(** ** Two-dimensional tables *)
Definition dims {A} (m n : nat) (tab : list (list A)) : Prop := length tab = m /\ Forall (fun row => length row = n) tab.
Section dims.
  Context {A : Type} (m n : nat) (tab : list (list A)) (i j : Z).
  Context (Hw : dims m n tab) (Hi : 0 <= i < Z.of_nat m) (Hj : 0 <= j < Z.of_nat n).
Lemma tab_row : exists row, rd tab i = Some row /\ length row = n.
Proof.
  destruct Hw as [Hl HF]. destruct (rd_Some tab i) as (row & Hr & _); [lia|]. exists row. split; [done|].
  by eapply (rd_Forall (fun row => length row = n)).
Qed.
Lemma rd2_Some : exists v, rd2 tab i j = Some v.
Proof.
  destruct tab_row as (row & Hr & Hl). unfold rd2. rewrite Hr. cbn.
  destruct (rd_Some row j) as (v & Hv & _); [lia|]. eauto.
Qed.
Lemma wr2_spec v : exists tab', wr2 tab i j v = Some tab' /\ dims m n tab' /\
    forall a b, rd2 tab' a b = if (a =? i) && (b =? j) then Some v else rd2 tab a b.
Proof.
  destruct tab_row as (row & Hr & Hl). destruct Hw as [Hlt HF].
  pose proof (wr_Some row j v ltac:(lia)) as Hw1. pose proof (wr_Some tab i (<[Z.to_nat j := v]> row) ltac:(lia)) as Hw2.
  eexists. split; [unfold wr2; rewrite Hr; cbn; rewrite Hw1; cbn; exact Hw2|]. split.
  - split; [by rewrite length_insert|]. apply Forall_insert; [done|]. by rewrite length_insert.
  - intros a b. unfold rd2. rewrite (rd_wr _ _ _ _ _ Hw2). rewrite (Z.eqb_sym a i).
    destruct (Z.eqb_spec i a) as [<-|]; [|done]. cbn. rewrite Hr. cbn.
    rewrite (rd_wr _ _ _ _ _ Hw1), (Z.eqb_sym b j). done.
Qed.
End dims.
(** The tables of 128 zones and 4 widths. *)
Abbreviation tab_wf := (dims 128 4).

(** ** State of the zones *)
Record zones_wf (s : physmem) : Prop := mkZonesWf {
  z_read : tab_wf (io_mem_read s);
  z_write : tab_wf (io_mem_write s);
  z_opaque : length (io_mem_opaque s) = 128%nat;
  z_used : length (io_mem_used s) = 128%nat
}.
(** Everything but the table of zones. *)
Record same_rest (s s' : physmem) : Prop := mkSameRest {
  r_l1 : l1_phys_map s' = l1_phys_map s;
  r_sub : subpages s' = subpages s;
  r_ram : ram_blocks s' = ram_blocks s;
  r_last : last_ram_offset s' = last_ram_offset s;
  r_dirty : phys_ram_dirty s' = phys_ram_dirty s;
  r_tlb : tlb_flushes s' = tlb_flushes s
}.
Lemma same_rest_refl s : same_rest s s.
Proof. by split. Qed.
Lemma same_rest_trans s1 s2 s3 : same_rest s1 s2 -> same_rest s2 s3 -> same_rest s1 s3.
Proof. intros [] []. split; congruence. Qed.
Definition zone_row (s : physmem) (z i : Z) : option (option fn) * option (option fn) :=
  (rd2 (io_mem_read s) z i, rd2 (io_mem_write s) z i).

Lemma set_zone_fn_wp E z i r w s (Q : unit -> physmem -> Prop) :
  zones_wf s -> 0 <= z < 128 -> 0 <= i < 4 ->
  (forall s', zones_wf s' -> same_rest s s' -> io_mem_opaque s' = io_mem_opaque s -> io_mem_used s' = io_mem_used s ->
     (forall a b, zone_row s' a b = if (a =? z) && (b =? i) then (Some r, Some w) else zone_row s a b) -> Q tt s') ->
  wp E (set_zone_fn z i r w) Q s.
Proof.
  intros [H1 H2 H3 H4] Hz Hi HQ. unfold set_zone_fn. wp_step. wp_step.
  destruct (wr2_spec 128 4 (io_mem_read s) z i H1 Hz Hi r) as (rs & Hr & Hrw & Hrd).
  destruct (wr2_spec 128 4 (io_mem_write s) z i H2 Hz Hi w) as (ws & Hw & Hww & Hwd).
  wp_step. eapply deref_wp; [exact Hr|]. wp_step. eapply deref_wp; [exact Hw|]. wp_step.
  apply HQ; [by split|by split|done|done|]. intros a b. unfold zone_row. simpl. rewrite Hrd, Hwd.
  by destruct ((a =? z) && (b =? i)).
Qed.
Lemma set_zone_opaque_wp E z o s (Q : unit -> physmem -> Prop) :
  zones_wf s -> 0 <= z < 128 ->
  (forall s', zones_wf s' -> same_rest s s' -> io_mem_used s' = io_mem_used s -> (forall a b, zone_row s' a b = zone_row s a b) ->
     (forall a, rd (io_mem_opaque s') a = if z =? a then Some o else rd (io_mem_opaque s) a) -> Q tt s') ->
  wp E (set_zone_opaque z o) Q s.
Proof.
  intros [H1 H2 H3 H4] Hz HQ. unfold set_zone_opaque. wp_step. wp_step.
  pose proof (wr_Some (io_mem_opaque s) z o ltac:(lia)) as Hw. wp_step. eapply deref_wp; [exact Hw|]. wp_step.
  apply HQ; [split; [done..|simpl; by rewrite length_insert|done]|by split|done|done|].
  intros a. simpl. by rewrite (rd_wr _ _ _ _ _ Hw).
Qed.

(** ** Free zones *)
Lemma first_free_spec used : forall i,
  match first_free used i with
  | Some k => i <= k < i + Z.of_nat (length used) /\ rd used (k - i) = Some false /\
      forall j, 0 <= j < k - i -> rd used j = Some true
  | None => forall j, 0 <= j < Z.of_nat (length used) -> rd used j = Some true
  end.
Proof.
  assert (forall (u : bool) l j, 0 < j -> rd (u :: l) j = rd l (j - 1)) as Hcons.
  { intros u l j Hj. unfold rd. destruct (Z.leb_spec 0 j), (Z.leb_spec 0 (j - 1)); try lia.
    by replace (Z.to_nat j) with (S (Z.to_nat (j - 1))) by lia. }
  induction used as [|u used IH]; intros i; simpl; [intros; lia|].
  destruct u.
  - specialize (IH (i + 1)). destruct (first_free used (i + 1)) as [k|].
    + destruct IH as (H1 & H2 & H3). split; [lia|]. split.
      * rewrite Hcons by lia. by replace (k - i - 1) with (k - (i + 1)) by lia.
      * intros j Hj. destruct (decide (j = 0)) as [->|]; [done|]. rewrite Hcons by lia. apply H3. lia.
    + intros j Hj. destruct (decide (j = 0)) as [->|]; [done|]. rewrite Hcons by lia. apply IH. lia.
  - split; [lia|]. split; [by rewrite Z.sub_diag|]. intros; lia.
Qed.

(** A table of functions given to cpu_register_io_memory. *)
Definition fns_at (fs : list (option fn)) (i : Z) : option fn := f ← rd fs i; f.
Definition subwidth_of (mem_read mem_write : list (option fn)) : Z :=
  if existsb (fun i => is_null (fns_at mem_read i) || is_null (fns_at mem_write i)) [0; 1; 2] then IO_MEM_SUBWIDTH else 0.
(** Zone [z] of [s'] has the functions and the opaque pointer given; all others are as in [s]. *)
Record zone_set (s s' : physmem) (z : Z) (mem_read mem_write : list (option fn)) (o : opaque_ptr) : Prop := mkZoneSet {
  s_wf : zones_wf s';
  s_rest : same_rest s s';
  s_row : forall a b, zone_row s' a b =
    if (a =? z) && (0 <=? b) && (b <? 3) then (rd mem_read b, rd mem_write b) else zone_row s a b;
  s_opq : forall a, rd (io_mem_opaque s') a = if z =? a then Some o else rd (io_mem_opaque s) a
}.

Lemma fill_zone_wp {A} E z mr mw o (k : MEM A) s (Q : A -> physmem -> Prop) r0 r1 r2 w0 w1 w2 :
  zones_wf s -> 0 <= z < 128 -> mr = [r0; r1; r2] -> mw = [w0; w1; w2] ->
  (forall s', zone_set s s' z mr mw o -> io_mem_used s' = io_mem_used s -> wp E k Q s') ->
  wp E (set_zone_fn z 0 r0 w0 ;; set_zone_fn z 1 r1 w1 ;; set_zone_fn z 2 r2 w2 ;; set_zone_opaque z o ;; k) Q s.
Proof.
  intros Hwf Hz -> -> HQ.
  wp_step. apply set_zone_fn_wp; [done|done|lia|]. intros s1 W1 R1 O1 U1 E1.
  wp_step. apply set_zone_fn_wp; [done|done|lia|]. intros s2 W2 R2 O2 U2 E2.
  wp_step. apply set_zone_fn_wp; [done|done|lia|]. intros s3 W3 R3 O3 U3 E3.
  wp_step. apply set_zone_opaque_wp; [done|done|]. intros s4 W4 R4 U4 E4 P4.
  apply HQ; [|congruence]. split; [done|repeat (eapply same_rest_trans; [eassumption|]); apply same_rest_refl| |].
  - intros a b. rewrite E4, E3, E2, E1. destruct (Z.eqb_spec a z) as [->|]; [|done]. cbn [andb].
    destruct (Z.eqb_spec b 2) as [->|]; [done|]. destruct (Z.eqb_spec b 1) as [->|]; [done|].
    destruct (Z.eqb_spec b 0) as [->|]; [done|].
    destruct (Z.leb_spec 0 b), (Z.ltb_spec b 3); done || lia.
  - intros a. rewrite P4. destruct (z =? a); congruence.
Qed.

Lemma lor_subwidth z sw : 0 <= z -> sw = 0 \/ sw = IO_MEM_SUBWIDTH -> Z.lor (Z.shiftl z IO_MEM_SHIFT) sw = z * 8 + sw.
Proof.
  intros Hz Hsw. rewrite Z.shiftl_mul_pow2 by done. change (2 ^ IO_MEM_SHIFT) with (2 ^ 3).
  rewrite or_disjoint by (done || destruct Hsw as [-> | ->]; done). done.
Qed.
Lemma zone_of_number z sw : 0 <= sw < 8 -> Z.shiftr (z * 8 + sw) IO_MEM_SHIFT = z.
Proof. intros H. rewrite Z.shiftr_div_pow2 by done. change (2 ^ IO_MEM_SHIFT) with 8. symmetry. apply (Z.div_unique _ _ _ sw); lia. Qed.
Lemma three_fns (fs : list (option fn)) : length fs = 3%nat -> exists a b c, fs = [a; b; c].
Proof. destruct fs as [|a [|b [|c [|]]]]; try done. eauto. Qed.
Lemma subwidth_cases mr mw : subwidth_of mr mw = 0 \/ subwidth_of mr mw = IO_MEM_SUBWIDTH.
Proof. unfold subwidth_of. destruct (existsb _ _); auto. Qed.

Lemma register_zone_wp E mr mw o s (Q : Z -> physmem -> Prop) :
  zones_wf s -> length mr = 3%nat -> length mw = 3%nat ->
  (forall z s', first_free (io_mem_used s) 0 = Some z -> 0 <= z < 128 -> zone_set s s' z mr mw o ->
     wr (io_mem_used s) z true = Some (io_mem_used s') -> Q (z * 8 + subwidth_of mr mw) s') ->
  (first_free (io_mem_used s) 0 = None -> Q (-1) s) ->
  wp E (cpu_register_io_memory mr mw o) Q s.
Proof.
  intros Hwf Hmr Hmw HQ HQn. destruct (three_fns mr Hmr) as (r0 & r1 & r2 & Er).
  destruct (three_fns mw Hmw) as (w0 & w1 & w2 & Ew).
  unfold cpu_register_io_memory, cpu_register_io_memory_fixed. cbn [Z.leb Z.compare]. wp_step.
  unfold get_free_io_mem_idx. wp_step. wp_step.
  pose proof (first_free_spec (io_mem_used s) 0) as F. destruct (first_free (io_mem_used s) 0) as [z|].
  2: { wp_step. rewrite Z.eqb_refl. wp_step. by apply HQn. }
  destruct F as (Hz & _). rewrite (z_used _ Hwf) in Hz. change (0 + Z.of_nat 128) with 128 in Hz.
  pose proof (wr_Some (io_mem_used s) z true ltac:(rewrite (z_used _ Hwf); lia)) as Hu.
  wp_step. eapply deref_wp; [exact Hu|]. wp_step. wp_step. wp_step.
  destruct (Z.eqb_spec z (-1)); [lia|]. rewrite Er, Ew.
  do 6 (wp_step; eapply deref_wp; [reflexivity|]).
  set (s1 := s <| io_mem_used := _ |>).
  assert (zones_wf s1) as Hwf1 by (destruct Hwf; split; [done..|unfold s1; simpl; by rewrite length_insert]).
  eapply (fill_zone_wp E z mr mw o); [done|lia|done|done|]. intros s' Hset Hu'. wp_step.
  match goal with |- context [Z.lor _ ?x] => replace x with (subwidth_of mr mw)
    by (unfold subwidth_of; rewrite Er, Ew; by destruct r0, r1, r2, w0, w1, w2) end.
  rewrite lor_subwidth by (lia || apply subwidth_cases). apply HQ; [done|lia| |by rewrite Hu'].
  destruct Hset as [W R1 R2 R3]. split; [done| |done|done].
  eapply same_rest_trans; [|exact R1]. by split.
Qed.
Lemma unregister_zone_wp E z sw s (Q : unit -> physmem -> Prop) :
  zones_wf s -> 0 <= z < 128 -> 0 <= sw < 8 ->
  (forall s', zone_set s s' z (three unassigned_mem) (three unassigned_mem) O_null ->
     wr (io_mem_used s) z false = Some (io_mem_used s') -> Q tt s') ->
  wp E (cpu_unregister_io_memory (z * 8 + sw)) Q s.
Proof.
  intros Hwf Hz Hsw HQ. unfold cpu_unregister_io_memory. rewrite zone_of_number by done.
  assert (forall (k : MEM unit) Q', wp E (set_zone_fn z 0 (Some (unassigned_mem 0)) (Some (unassigned_mem 0)) ;;
     set_zone_fn z 1 (Some (unassigned_mem 1)) (Some (unassigned_mem 1)) ;;
     set_zone_fn z 2 (Some (unassigned_mem 2)) (Some (unassigned_mem 2)) ;; k) Q' s ->
     wp E (for_each [0; 1; 2] (fun i => set_zone_fn z i (Some (unassigned_mem i)) (Some (unassigned_mem i))) ;; k) Q' s)
    as Hfor.
  { intros k Q' H. wp_step. cbn [for_each].
    do 3 (apply wp_bind in H; wp_step; eapply wp_mono; [exact H|]; clear H; intros [] ? H). by wp_step. }
  apply Hfor. eapply fill_zone_wp; [done|done|done|done|]. intros s1 Hset Hu. wp_step. wp_step.
  pose proof (wr_Some (io_mem_used s1) z false ltac:(rewrite Hu, (z_used _ Hwf); lia)) as Hw.
  wp_step. eapply deref_wp; [exact Hw|]. wp_step. apply HQ; [|by rewrite <- Hu].
  destruct Hset as [[] R1 R2 R3]. split; [split; [done..|simpl; by rewrite length_insert]| |done|done].
  eapply same_rest_trans; [exact R1|]. by split.
Qed.

(** Cpu_register_io_memory takes the lowest zone not in use, installs the functions and
    the opaque pointer there and nowhere else, and returns the number of the zone with
    IO_MEM_SUBWIDTH set when a function is missing; with all 128 zones in use it returns -1
    and changes nothing.  cpu_unregister_io_memory of the number returned makes the same
    zones free again and leaves the zone with the unassigned functions. *)
Theorem io_zone_alloc s mem_read mem_write opaque :
  zones_wf s -> length mem_read = 3%nat -> length mem_write = 3%nat ->
  (exists z s', cpu_register_io_memory mem_read mem_write opaque s = Ok (z * 8 + subwidth_of mem_read mem_write, s') /\
     0 <= z < 128 /\ rd (io_mem_used s) z = Some false /\ (forall j, 0 <= j < z -> rd (io_mem_used s) j = Some true) /\
     zone_set s s' z mem_read mem_write opaque /\
     (forall j, rd (io_mem_used s') j = if z =? j then Some true else rd (io_mem_used s) j) /\
     exists s'', cpu_unregister_io_memory (z * 8 + subwidth_of mem_read mem_write) s' = Ok (tt, s'') /\
       zone_set s' s'' z (three unassigned_mem) (three unassigned_mem) O_null /\
       forall j, rd (io_mem_used s'') j = rd (io_mem_used s) j) \/
  ((forall j, 0 <= j < 128 -> rd (io_mem_used s) j = Some true) /\
   cpu_register_io_memory mem_read mem_write opaque s = Ok (-1, s)).
Proof.
  intros Hwf Hr Hw. pose proof (first_free_spec (io_mem_used s) 0) as F. rewrite (z_used _ Hwf) in F.
  assert (wp no_err (cpu_register_io_memory mem_read mem_write opaque) (fun r s' =>
    match first_free (io_mem_used s) 0 with
    | Some z => r = z * 8 + subwidth_of mem_read mem_write /\ 0 <= z < 128 /\ zone_set s s' z mem_read mem_write opaque /\
        wr (io_mem_used s) z true = Some (io_mem_used s')
    | None => r = -1 /\ s' = s end) s) as H.
  { apply register_zone_wp; [done..| |]; [intros z s' -> ? ? ?; done|by intros ->]. }
  apply wp_total_ex in H as (r & s' & He & Hres). destruct (first_free (io_mem_used s) 0) as [z|].
  2: { destruct Hres as [-> ->]. right. by split. }
  destruct Hres as (-> & Hz & Hset & Hu). destruct F as (_ & Hf & Hlow). rewrite Z.sub_0_r in *.
  left. exists z, s'. do 5 (split; [done|]). split; [intros j; exact (rd_wr _ _ _ j _ Hu)|].
  assert (0 <= subwidth_of mem_read mem_write < 8) as Hsw by (destruct (subwidth_cases mem_read mem_write) as [-> | ->]; done).
  assert (wp no_err (cpu_unregister_io_memory (z * 8 + subwidth_of mem_read mem_write)) (fun _ s'' =>
    zone_set s' s'' z (three unassigned_mem) (three unassigned_mem) O_null /\
    wr (io_mem_used s') z false = Some (io_mem_used s'')) s') as H.
  { apply unregister_zone_wp; [apply Hset|done|done|]. by intros s'' H1 H2. }
  apply wp_total_ex in H as ([] & s'' & He2 & Hset2 & Hu2). exists s''. split; [done|]. split; [done|].
  intros j. rewrite (rd_wr _ _ _ _ _ Hu2), (rd_wr _ _ _ _ _ Hu). by destruct (Z.eqb_spec z j) as [<-|].
Qed.
Lemma phys_init_zones : zones_wf phys_init.
Proof. split; try split; rewrite ?length_replicate; try done; apply Forall_replicate; by rewrite length_replicate. Qed.
Example io_zone_alloc_witness :
  exists z s', cpu_register_io_memory (three (device_access 7)) (three (device_access 7)) (O_device 7) phys_init = Ok (z * 8, s') /\
    0 <= z < 128 /\ zone_set phys_init s' z (three (device_access 7)) (three (device_access 7)) (O_device 7).
Proof.
  destruct (io_zone_alloc phys_init (three (device_access 7)) (three (device_access 7)) (O_device 7) phys_init_zones eq_refl eq_refl)
    as [(z & s' & H1 & H2 & _ & _ & H3 & _)|[H _]].
  - rewrite Z.add_0_r in H1. exists z, s'. split; [exact H1|]. split; [exact H2|exact H3].
  - discriminate (H 0 ltac:(lia)).
Defined.
