(* ===== verification/PhysAccess.v ===== *)
(** * PhysAccess: physical memory accesses (exec.c)

    The slow path every DMA-capable device uses: cpu_physical_memory_rw and
    cpu_physical_memory_write_rom, the sized loads and stores, and the mapping of guest
    memory into the host with its bounce buffer.  The functions of a device, and those of
    exec.c that only the TLB leads to (notdirty, watchpoints), are the operations of the
    class [Devices]; the calls that invalidate translated code are recorded in order.
    Buffers are lists of bytes, host memory is a function from host addresses to bytes. *)
From S2P Require Import Prelude Physmem.
From stdpp Require Import sets.
#[local] Open Scope Z_scope.

(** ** Bytes *)
Definition le_bytes (n : nat) (v : Z) : list Z := List.map (fun i => Z.shiftr v (8 * Z.of_nat i) mod 256) (seq 0 n).
Definition le_value (bs : list Z) : Z := foldr (fun b acc => b + 256 * acc) 0 bs.
Definition loads (mem : Z -> Z) (ptr : Z) (n : nat) : list Z := List.map (fun i => mem (ptr + Z.of_nat i)) (seq 0 n).
Definition stores (ptr : Z) (bs : list Z) (mem : Z -> Z) : Z -> Z :=
  fun a => match rd bs (a - ptr) with Some b => b | None => mem a end.

(** ** State *)
Class Devices (D : Type) := {
  dev_read : fn -> opaque_ptr -> Z -> D -> Z * D;
  dev_write : fn -> opaque_ptr -> Z -> Z -> D -> D;
}.
(** A [buffer] of 0 is NULL. *)
Record BounceBuffer := mkBounce { buffer : Z; b_addr : Z; b_len : Z }.
#[export] Instance eta_bounce : Eta BounceBuffer := fun r => mkBounce (buffer r) (b_addr r) (b_len r).
Record machine (D : Type) := mkMachine {
  pmem : physmem;
  host_mem : Z -> Z;
  devices : D;
  invalidated : list (Z * Z);
  bounce : BounceBuffer;
  map_clients : list nat;
  notified : list nat
}.
Arguments mkMachine {D}. Arguments pmem {D}. Arguments host_mem {D}. Arguments devices {D}.
Arguments invalidated {D}. Arguments bounce {D}. Arguments map_clients {D}. Arguments notified {D}.
#[export] Instance eta_machine D : Eta (machine D) := fun r => mkMachine
  (pmem r) (host_mem r) (devices r) (invalidated r) (bounce r) (map_clients r) (notified r).

(** ** Subpages: the function an access ends in *)
(** A function of a zone; out of the table, and a NULL function, are undefined. *)
Definition fn_at (tab : list (list (option fn))) (zone w : Z) : option fn := f ← rd2 tab zone w; f.
Definition tables (is_write : bool) (s : physmem) : list (list (option fn)) :=
  if is_write then io_mem_write s else io_mem_read s.
Definition sides (is_write : bool) (sub : subpage_t) : list (list sub_entry) :=
  if is_write then writes sub else reads sub.
Definition or_fault {A} (o : option A) : outcome A := match o with Some a => Ok a | None => Err Fault end.
(** subpage_readlen and subpage_writelen call through the pointer of the byte, until a
    function that is not a subpage's. *)
Fixpoint subpage_target (fuel : nat) (is_write : bool) (s : physmem) (f : fn) (o : opaque_ptr) (addr : Z) :
    outcome (fn * opaque_ptr * Z) :=
  match f with
  | subpage_access len =>
    match fuel with
    | O => Err OutOfFuel
    | S fuel =>
      match (k ← (match o with O_subpage k => Some k | _ => None end);
             sub ← subpages s !! k;
             e ← rd2 (sides is_write sub) (page_off addr) len;
             z ← zone e;
             f ← fn_at (tables is_write s) z len;
             Some (f, e)) with
      | Some (f, e) => subpage_target fuel is_write s f (s_opaque e) (wrap 64 (addr + s_region e))
      | None => Err Fault
      end
    end
  | _ => Ok (f, o, addr)
  end.
Definition zone_target (is_write : bool) (s : physmem) (zone w addr : Z) : outcome (fn * opaque_ptr * Z) :=
  match fn_at (tables is_write s) zone w, rd (io_mem_opaque s) zone with
  | Some f, Some o => subpage_target (S (length (subpages s))) is_write s f o addr
  | _, _ => Err Fault
  end.
(** The zone of a page and the address its functions are given. *)
Definition io_zone (pd : Z) : Z := Z.land (Z.shiftr pd IO_MEM_SHIFT) (IO_MEM_NB_ENTRIES - 1).
Definition io_addr (d : option PhysPageDesc) (addr : Z) : Z :=
  match d with None => addr | Some d => wrap 64 (page_off addr + region_offset d) end.
Definition pd_of (d : option PhysPageDesc) : Z := match d with None => IO_MEM_UNASSIGNED | Some d => phys_offset d end.
Definition is_ram (pd : Z) : bool := page_off pd =? IO_MEM_RAM.
Definition reads_io (pd : Z) : bool := (page_off pd >? IO_MEM_ROM) && negb (truth (Z.land pd IO_MEM_ROMD)).

Section Access.
  Context {D : Type} `{!Devices D}.
  Abbreviation ACC := (ST (machine D)).

Definition lift {A} (m : MEM A) : ACC A := fun s =>
  match m (pmem s) with Ok (a, p) => Ok (a, s <| pmem := p |>) | Err e => Err e end.
Definition from_outcome {A} (o : outcome A) : ACC A := match o with Ok a => mret a | Err e => throw e end.

(** The descriptor of the page of [addr], NULL when it has no table. *)
Definition page_of (addr : Z) : ACC (option PhysPageDesc) :=
  p ← lift (phys_page_find (Z.shiftr addr TARGET_PAGE_BITS));
  match p with None => mret None | Some p => d ← lift (get_page p); mret (Some d) end.

(** io_mem_read[zone][w](io_mem_opaque[zone], addr) and the like for writing. *)
Definition io_read (zone w addr : Z) : ACC Z :=
  s ← get;
  t ← from_outcome (zone_target false (pmem s) zone w addr);
  let '(f, o, addr) := t in
  match f with
  | unassigned_mem _ => mret 0
  | _ => let '(v, d) := dev_read f o addr (devices s) in
         modify (fun s => s <| devices := d |>) ;; mret (wrap 32 v)
  end.
Definition io_write (zone w addr val : Z) : ACC unit :=
  s ← get;
  t ← from_outcome (zone_target true (pmem s) zone w addr);
  let '(f, o, addr) := t in
  match f with
  | unassigned_mem _ => mret tt
  | _ => modify (fun s => s <| devices := dev_write f o addr (wrap 32 val) (devices s) |>)
  end.

(** ** Dirty bits *)
Definition cpu_physical_memory_is_dirty (addr : Z) : ACC bool :=
  s ← get;
  d ← deref (rd (phys_ram_dirty (pmem s)) (Z.shiftr addr TARGET_PAGE_BITS));
  mret (d =? 0xff).
Definition set_dirty (addr : Z) : ACC unit :=
  s ← get;
  d ← deref (rd (phys_ram_dirty (pmem s)) (Z.shiftr addr TARGET_PAGE_BITS));
  l ← deref (wr (phys_ram_dirty (pmem s)) (Z.shiftr addr TARGET_PAGE_BITS)
               (Z.lor d (Z.land 0xff (wrap 32 (Z.lnot CODE_DIRTY_FLAG)))));
  modify (fun s => s <| pmem := (pmem s) <| phys_ram_dirty := l |> |>).
(** tb_invalidate_phys_page_range(addr, addr + l, 0), and the dirty bits, unless all are set. *)
Definition mark_dirty (addr l : Z) : ACC unit :=
  dirty ← cpu_physical_memory_is_dirty addr;
  when (negb dirty)
    (modify (fun s => s <| invalidated := invalidated s ++ [(addr, wrap 64 (addr + l))] |>) ;;
     set_dirty addr).

(** ** cpu_physical_memory_rw *)
Definition ram_read (ptr : Z) (n : nat) : ACC (list Z) := gets (fun s => loads (host_mem s) ptr n).
Definition ram_write (ptr : Z) (bs : list Z) : ACC unit := modify (fun s => s <| host_mem := stores ptr bs (host_mem s) |>).

(** The width of the next device access of at most [l] bytes: 2, 1 or 0 for 4, 2 or 1 bytes. *)
Definition access_width (l addr : Z) : Z :=
  if (l >=? 4) && (Z.land addr 3 =? 0) then 2 else if (l >=? 2) && (Z.land addr 1 =? 0) then 1 else 0.
Definition bytes_of (w : Z) : nat := Z.to_nat (Z.shiftl 1 w).
Definition page_left (addr len : Z) : Z := Z.min (wrap 64 (wrap 64 (page_down addr + TARGET_PAGE_SIZE) - addr)) len.

(** One turn of the loop: the bytes read, or the bytes of [buf] that were written. *)
Definition rw_turn (addr : Z) (buf : list Z) (is_write : bool) : ACC (list Z) :=
  let l := page_left addr (Z.of_nat (length buf)) in
  d ← page_of (page_down addr);
  let pd := pd_of d in
  let addr1 := io_addr d addr in
  let w := access_width l addr1 in
  if is_write then
    if negb (is_ram pd) then
      let bs := take (bytes_of w) buf in
      io_write (io_zone pd) w addr1 (le_value bs) ;; mret bs
    else
      let bs := take (Z.to_nat l) buf in
      let addr1 := wrap 64 (page_down pd + page_off addr) in
      ptr ← lift (qemu_get_ram_ptr addr1);
      ram_write ptr bs ;;
      mark_dirty addr1 l ;;
      mret bs
  else
    if reads_io pd then
      v ← io_read (io_zone pd) w addr1;
      mret (le_bytes (bytes_of w) v)
    else
      ptr ← lift (qemu_get_ram_ptr (page_down pd));
      ram_read (ptr + page_off addr) (Z.to_nat l).
Fixpoint rw_loop (fuel : nat) (addr : Z) (buf : list Z) (is_write : bool) : ACC (list Z) :=
  match buf with
  | [] => mret []
  | _ =>
    match fuel with
    | O => throw OutOfFuel
    | S fuel =>
      bs ← rw_turn addr buf is_write;
      rest ← rw_loop fuel (wrap 64 (addr + Z.of_nat (length bs))) (drop (length bs) buf) is_write;
      mret (bs ++ rest)
    end
  end.
Definition cpu_physical_memory_rw (addr : Z) (buf : list Z) (is_write : bool) : ACC (list Z) :=
  rw_loop (length buf) addr buf is_write.
Definition cpu_physical_memory_read (addr : Z) (len : nat) : ACC (list Z) :=
  cpu_physical_memory_rw addr (replicate len 0) false.
Definition cpu_physical_memory_write (addr : Z) (buf : list Z) : ACC unit :=
  cpu_physical_memory_rw addr buf true ;; mret tt.

Definition rom_turn (addr : Z) (buf : list Z) : ACC (list Z) :=
  let bs := take (Z.to_nat (page_left addr (Z.of_nat (length buf)))) buf in
  d ← page_of (page_down addr);
  let pd := pd_of d in
  (if negb (is_ram pd) && negb (page_off pd =? IO_MEM_ROM) && negb (truth (Z.land pd IO_MEM_ROMD)) then mret tt
   else
     ptr ← lift (qemu_get_ram_ptr (wrap 64 (page_down pd + page_off addr)));
     ram_write ptr bs) ;;
  mret bs.
Fixpoint rom_loop (fuel : nat) (addr : Z) (buf : list Z) : ACC unit :=
  match buf with
  | [] => mret tt
  | _ =>
    match fuel with
    | O => throw OutOfFuel
    | S fuel =>
      bs ← rom_turn addr buf;
      rom_loop fuel (wrap 64 (addr + Z.of_nat (length bs))) (drop (length bs) buf)
    end
  end.
Definition cpu_physical_memory_write_rom (addr : Z) (buf : list Z) : ACC unit := rom_loop (length buf) addr buf.

(** ** Sized loads and stores *)
(** The read of [n] bytes from RAM or ROM in ldl_phys and ldq_phys. *)
Definition load_ram (pd addr : Z) (n : nat) : ACC Z :=
  ptr ← lift (qemu_get_ram_ptr (page_down pd));
  bs ← ram_read (ptr + page_off addr) n;
  mret (le_value bs).
Definition ldl_phys (addr : Z) : ACC Z :=
  d ← page_of addr;
  if reads_io (pd_of d) then io_read (io_zone (pd_of d)) 2 (io_addr d addr) else load_ram (pd_of d) addr 4.
Definition ldq_phys (addr : Z) : ACC Z :=
  d ← page_of addr;
  if reads_io (pd_of d) then
    lo ← io_read (io_zone (pd_of d)) 2 (io_addr d addr);
    hi ← io_read (io_zone (pd_of d)) 2 (wrap 64 (io_addr d addr + 4));
    mret (Z.lor lo (Z.shiftl hi 32))
  else load_ram (pd_of d) addr 8.
Definition ldub_phys (addr : Z) : ACC Z := bs ← cpu_physical_memory_read addr 1; mret (le_value bs).
Definition lduw_phys (addr : Z) : ACC Z := bs ← cpu_physical_memory_read addr 2; mret (le_value bs).

(** A 32-bit store to RAM; [mark] is what is done to the dirty bits of the page. *)
Definition stl_with (mark : Z -> ACC unit) (addr val : Z) : ACC unit :=
  d ← page_of addr;
  if negb (is_ram (pd_of d)) then io_write (io_zone (pd_of d)) 2 (io_addr d addr) val
  else
    let addr1 := wrap 64 (page_down (pd_of d) + page_off addr) in
    ptr ← lift (qemu_get_ram_ptr addr1);
    ram_write ptr (le_bytes 4 val) ;;
    mark addr1.
Definition stl_phys (addr val : Z) : ACC unit := stl_with (fun addr1 => mark_dirty addr1 4) addr val.
Definition stl_phys_notdirty (in_migration : bool) (addr val : Z) : ACC unit :=
  stl_with (fun addr1 => when in_migration (mark_dirty addr1 4)) addr val.
Definition stq_phys_notdirty (addr val : Z) : ACC unit :=
  d ← page_of addr;
  if negb (is_ram (pd_of d)) then
    io_write (io_zone (pd_of d)) 2 (io_addr d addr) val ;;
    io_write (io_zone (pd_of d)) 2 (wrap 64 (io_addr d addr + 4)) (Z.shiftr val 32)
  else
    ptr ← lift (qemu_get_ram_ptr (page_down (pd_of d)));
    ram_write (ptr + page_off addr) (le_bytes 8 val).
Definition stb_phys (addr val : Z) : ACC unit := cpu_physical_memory_write addr (le_bytes 1 val).
Definition stw_phys (addr val : Z) : ACC unit := cpu_physical_memory_write addr (le_bytes 2 val).
Definition stq_phys (addr val : Z) : ACC unit := cpu_physical_memory_write addr (le_bytes 8 val).

(** ** Mapping guest memory into the host *)
Definition cpu_register_map_client (client : nat) : ACC unit :=
  modify (fun s => s <| map_clients := client :: map_clients s |>).
Definition cpu_unregister_map_client (client : nat) : ACC unit :=
  modify (fun s => s <| map_clients := List.filter (fun c => negb (Nat.eqb c client)) (map_clients s) |>).
Definition cpu_notify_map_clients : ACC unit :=
  modify (fun s => s <| notified := notified s ++ map_clients s |> <| map_clients := [] |>).

(** The host pointer of the [l] bytes at [addr]; None is the [break]: a bounce buffer was
    needed and it is in use, or something is mapped already.  [memalign] is the address
    qemu_memalign returns. *)
Definition map_turn (memalign addr l : Z) (first is_write : bool) : ACC (option Z) :=
  d ← page_of (page_down addr);
  let pd := pd_of d in
  if negb (is_ram pd) then
    s ← get;
    if negb first || truth (buffer (bounce s)) then mret None
    else
      modify (fun s => s <| bounce := mkBounce memalign addr l |>) ;;
      when (negb is_write)
        (bs ← cpu_physical_memory_rw addr (replicate (Z.to_nat l) 0) false;
         ram_write memalign bs) ;;
      mret (Some memalign)
  else
    ptr ← lift (qemu_get_ram_ptr (wrap 64 (page_down pd + page_off addr)));
    mret (Some ptr).
(** [ret] is NULL until the first page is mapped; [finished] is [done]. *)
Fixpoint map_loop (fuel : nat) (memalign addr len finished : Z) (ret : option Z) (is_write : bool) : ACC (option Z * Z) :=
  if len =? 0 then mret (ret, finished)
  else
    match fuel with
    | O => throw OutOfFuel
    | S fuel =>
      let l := page_left addr len in
      ptr ← map_turn memalign addr l (finished =? 0) is_write;
      match ptr with
      | None => mret (ret, finished)
      | Some ptr =>
        let ret := if finished =? 0 then Some ptr else ret in
        if negb (finished =? 0) && negb (bool_decide (ret = Some (ptr - finished))) then mret (ret, finished)
        else map_loop fuel memalign (wrap 64 (addr + l)) (len - l) (finished + l) ret is_write
      end
    end.
Definition cpu_physical_memory_map (memalign addr len : Z) (is_write : bool) : ACC (option Z * Z) :=
  map_loop (Z.to_nat len) memalign addr len 0 None is_write.

(** The loop of cpu_physical_memory_unmap over the pages written. *)
Fixpoint unmap_loop (fuel : nat) (addr1 access_len : Z) : ACC unit :=
  if access_len =? 0 then mret tt
  else
    match fuel with
    | O => throw OutOfFuel
    | S fuel =>
      let l := Z.min TARGET_PAGE_SIZE access_len in
      mark_dirty addr1 l ;;
      unmap_loop fuel (wrap 64 (addr1 + l)) (access_len - l)
    end.
Definition cpu_physical_memory_unmap (buf : Z) (is_write : bool) (access_len : Z) : ACC unit :=
  s ← get;
  if negb (buf =? buffer (bounce s)) then
    when is_write (addr1 ← lift (qemu_ram_addr_from_host buf); unmap_loop (Z.to_nat access_len) addr1 access_len)
  else
    when is_write
      (cpu_physical_memory_write (b_addr (bounce s)) (loads (host_mem s) (buffer (bounce s)) (Z.to_nat access_len))) ;;
    modify (fun s => s <| bounce := (bounce s) <| buffer := 0 |> |>) ;;
    cpu_notify_map_clients.
End Access.
