(* ===== verification/PhysRw.v ===== *)
(** * PhysRw: guest memory behaves as memory

    On guest addresses whose pages are RAM or ROM, the accesses of exec.c read and write
    the host bytes the page table and the RAM blocks lead to: [rptr] is the host pointer of
    a guest address.  What an access may disturb is only the order of the RAM blocks, the
    dirty bits and the record of invalidated code, which [agree] abstracts from. *)
From S2P Require Import Prelude Physmem PhysPages PhysRam PhysAccess.
From stdpp Require Import sets.
#[local] Open Scope Z_scope.

(** ** Bytes of host memory *)
Lemma loads_length mem ptr n : length (loads mem ptr n) = n.
Proof. unfold loads. by rewrite length_map, length_seq. Qed.
Lemma loads_lookup mem ptr n i : (i < n)%nat -> loads mem ptr n !! i = Some (mem (ptr + Z.of_nat i)).
Proof. intros Hi. unfold loads. by rewrite list_lookup_fmap, lookup_seq_lt. Qed.
Lemma stores_in ptr bs mem i b : bs !! i = Some b -> stores ptr bs mem (ptr + Z.of_nat i) = b.
Proof.
  intros Hb. unfold stores, rd. replace (ptr + Z.of_nat i - ptr) with (Z.of_nat i) by lia.
  destruct (Z.leb_spec 0 (Z.of_nat i)); [|lia]. by rewrite Nat2Z.id, Hb.
Qed.
Lemma stores_out ptr bs mem a : (forall i, (i < length bs)%nat -> a <> ptr + Z.of_nat i) -> stores ptr bs mem a = mem a.
Proof.
  intros Ha. unfold stores. destruct (rd bs (a - ptr)) as [b|] eqn:E; [|done].
  pose proof (rd_bound _ _ _ E). specialize (Ha (Z.to_nat (a - ptr))). lia.
Qed.

Section Rw.
  Context {D : Type} `{!Devices D}.
  Implicit Types s : machine D.

(** ** The state accesses rely on *)
Definition mem_wf s : Prop := pages_wf (pmem s) /\ ram_wf (pmem s).
Definition rptr (ok : Z -> bool) s (addr : Z) : option Z :=
  d ← desc_at (pmem s) (addr / 1024);
  if ok (phys_offset d) then ptr ← ram_view (pmem s) (page_down (phys_offset d)); Some (ptr + addr mod 1024) else None.
Definition readable (pd : Z) : bool := negb (reads_io pd).
Record agree s s' : Prop := mkAgree {
  agree_wf : mem_wf s';
  agree_desc : forall n, desc_at (pmem s') n = desc_at (pmem s) n;
  agree_view : forall a, ram_view (pmem s') a = ram_view (pmem s) a;
  agree_last : last_ram_offset (pmem s') = last_ram_offset (pmem s);
  agree_zones : io_mem_write (pmem s') = io_mem_write (pmem s)
}.
Lemma agree_refl s : mem_wf s -> agree s s.
Proof. by split. Qed.
Lemma agree_trans s1 s2 s3 : agree s1 s2 -> agree s2 s3 -> agree s1 s3.
Proof.
  intros [W1 D1 V1 L1 Z1] [W2 D2 V2 L2 Z2]. split; [done|..]; intros; congruence.
Qed.
Lemma agree_rptr s s' ok addr : agree s s' -> rptr ok s' addr = rptr ok s addr.
Proof.
  intros [_ Hd Hv _ _]. unfold rptr. rewrite Hd. destruct (desc_at (pmem s) (addr / 1024)); simpl; [|done].
  by rewrite Hv.
Qed.

(** ** Rules for the parts of an access *)
Lemma lift_wp {A} E (m : MEM A) (Q : A -> machine D -> Prop) s :
  wp E m (fun a p => Q a (s <| pmem := p |>)) (pmem s) -> wp E (lift m) Q s.
Proof. unfold wp, lift. by destruct (m (pmem s)) as [[a p]|e]. Qed.
Lemma page_of_wp E addr (Q : option PhysPageDesc -> machine D -> Prop) s :
  mem_wf s -> Q (desc_at (pmem s) (addr / 1024)) s -> wp E (page_of addr) Q s.
Proof.
  intros [Hp _] HQ. unfold page_of. rewrite page_number. wp_step. apply lift_wp. apply find_wp; [done|].
  replace (s <| pmem := pmem s |>) with s by by destruct s.
  destruct (desc_at (pmem s) (addr / 1024)) as [d|] eqn:Hd; [|by wp_step].
  wp_step. apply lift_wp. eapply get_page_wp; [exact Hd|]. wp_step. by destruct s.
Qed.
Lemma ram_ptr_wp E a ptr (Q : Z -> machine D -> Prop) s :
  mem_wf s -> ram_view (pmem s) a = Some ptr ->
  (forall s', agree s s' -> host_mem s' = host_mem s -> phys_ram_dirty (pmem s') = phys_ram_dirty (pmem s) ->
     bounce s' = bounce s -> Q ptr s') ->
  wp E (lift (qemu_get_ram_ptr a)) Q s.
Proof.
  intros [Hp Hr] Hv HQ. apply lift_wp. pose proof (get_ram_ptr_spec a (pmem s) Hr) as H. rewrite Hv in H.
  destruct H as (l & H & Hl). unfold wp. rewrite H. destruct (ram_view_perm _ l Hr Hl) as [Hr' Hv'].
  apply HQ; [|done..]. split; [by split|done|exact Hv'|done|done].
Qed.

(** ** Arithmetic of one turn *)
Lemma page_left_spec addr len : fits 64 addr -> 0 <= len ->
  page_left addr len = Z.min (1024 - addr mod 1024) len.
Proof.
  intros Ha Hl. unfold page_left. rewrite page_down_mod by done. f_equal.
  change TARGET_PAGE_SIZE with 1024. pose proof (Z.mod_pos_bound addr 1024).
  unfold wrap. rewrite Zminus_mod_idemp_l. replace (addr - addr mod 1024 + 1024 - addr) with (1024 - addr mod 1024) by lia.
  apply Z.mod_small. lia.
Qed.
Lemma same_page_div addr j : 0 <= j -> addr mod 1024 + j < 1024 ->
  (addr + j) / 1024 = addr / 1024 /\ (addr + j) mod 1024 = addr mod 1024 + j.
Proof.
  intros Hj Hb. pose proof (Z.div_mod addr 1024). pose proof (Z.mod_pos_bound addr 1024).
  split; [symmetry; apply (Z.div_unique _ _ _ (addr mod 1024 + j)); lia|].
  symmetry; apply (Z.mod_unique _ _ (addr / 1024)); lia.
Qed.
Lemma rptr_page ok s addr p j : rptr ok s addr = Some p -> 0 <= j -> addr mod 1024 + j < 1024 ->
  rptr ok s (addr + j) = Some (p + j).
Proof.
  intros Hp Hj Hb. destruct (same_page_div addr j Hj Hb) as [H1 H2]. unfold rptr in *. rewrite H1, H2.
  destruct (desc_at (pmem s) (addr / 1024)) as [d|]; simpl in *; [|done].
  destruct (ok (phys_offset d)); [|done]. destruct (ram_view (pmem s) (page_down (phys_offset d))); simpl in *; [|done].
  injection Hp as <-. f_equal. lia.
Qed.
(** A page of RAM is contiguous in the host. *)
Lemma tiles_aligned l top b : tiles l top -> b ∈ l -> offset b mod 1024 = 0 /\ block_length b mod 1024 = 0.
Proof.
  induction 1 as [|h len top l Ht IH Hl Hm]; [by intros ?%elem_of_nil|].
  intros [->|Hb]%elem_of_cons; [|by apply IH]. simpl. split; [by apply (tiles_top _ _ Ht)|done].
Qed.
Lemma ram_view_page (p : physmem) a ptr j : ram_wf p -> a mod 1024 = 0 -> 0 <= j < 1024 ->
  ram_view p a = Some ptr -> ram_view p (a + j) = Some (ptr + j).
Proof.
  intros (Hf & _ & l & Hp & Ht) Ha Hj. unfold ram_view.
  pose proof (find_spec (holds a) (ram_blocks p)) as F1. pose proof (find_spec (holds (a + j)) (ram_blocks p)) as F2.
  destruct (List.find (holds a) (ram_blocks p)) as [b|]; simpl; [|done]. destruct F1 as [Hb Hh]. intros [= <-].
  rewrite Hp in Hb. apply (holds_spec _ _ _ _ Ht Hf) in Hh; [|done].
  destruct (tiles_aligned _ _ _ Ht Hb) as [Ho Hlen].
  assert (offset b <= a + j < offset b + block_length b) as Hh2.
  { split; [lia|]. pose proof (Z.div_mod a 1024). pose proof (Z.div_mod (offset b) 1024).
    pose proof (Z.div_mod (block_length b) 1024). lia. }
  destruct (List.find (holds (a + j)) (ram_blocks p)) as [b'|]; simpl.
  - destruct F2 as [Hb' Hh']. rewrite Hp in Hb'. apply (holds_spec _ _ _ _ Ht Hf) in Hh'; [|done].
    rewrite (tiles_unique _ _ b' b (a + j) Ht Hb' Hb Hh' Hh2). f_equal. lia.
  - apply (holds_spec _ _ _ _ Ht Hf) in Hh2; [|done]. rewrite F2 in Hh2; [done|]. by rewrite Hp.
Qed.

(** ** Reading *)
(** The host bytes behind [n] guest addresses. *)
Definition guest_bytes s (addr : Z) (n : nat) : list Z :=
  List.map (fun i => host_mem s (default 0 (rptr readable s (addr + Z.of_nat i)))) (seq 0 n).
Lemma guest_bytes_app s addr a b :
  guest_bytes s addr (a + b) = guest_bytes s addr a ++ guest_bytes s (addr + Z.of_nat a) b.
Proof.
  unfold guest_bytes. rewrite seq_app, map_app. f_equal.
  rewrite Nat.add_0_l. rewrite <- (Nat.add_0_r a) at 1. rewrite <- fmap_add_seq. rewrite <- list_fmap_compose.
  apply list_fmap_ext. intros _ i _. simpl. by rewrite Nat2Z.inj_add, Z.add_assoc.
Qed.
Lemma guest_bytes_agree s s' addr n : agree s s' -> host_mem s' = host_mem s -> guest_bytes s' addr n = guest_bytes s addr n.
Proof.
  intros Ha Hm. unfold guest_bytes. apply map_ext. intros i. by rewrite Hm, (agree_rptr _ _ _ _ Ha).
Qed.
Lemma page_down_div addr : fits 64 addr -> page_down addr / 1024 = addr / 1024.
Proof.
  intros Ha. rewrite page_down_mod by done. pose proof (Z.div_mod addr 1024).
  replace (addr - addr mod 1024) with (addr / 1024 * 1024) by lia. by rewrite Z.div_mul by lia.
Qed.
Lemma guest_bytes_page s addr p n : rptr readable s addr = Some p -> (Z.of_nat n <= 1024 - addr mod 1024) ->
  guest_bytes s addr n = loads (host_mem s) p n.
Proof.
  intros Hp Hn. unfold guest_bytes, loads. apply map_ext_in. intros i Hi%in_seq.
  by rewrite (rptr_page _ _ _ p (Z.of_nat i) Hp) by lia.
Qed.

Lemma read_turn_wp E addr buf s :
  mem_wf s -> fits 64 addr -> buf <> [] -> is_Some (rptr readable s addr) ->
  wp E (rw_turn addr buf false) (fun bs s' => agree s s' /\ host_mem s' = host_mem s /\
    (0 < length bs <= length buf)%nat /\ bs = guest_bytes s addr (length bs)) s.
Proof.
  intros Hwf Ha Hb [p Hp]. unfold rw_turn. set (l := page_left addr (Z.of_nat (length buf))).
  assert (0 < l <= Z.of_nat (length buf) /\ l <= 1024 - addr mod 1024) as Hl.
  { unfold l. rewrite page_left_spec by (done || lia). pose proof (Z.mod_pos_bound addr 1024).
    destruct buf; [done|]. simpl. lia. }
  wp_step. apply page_of_wp; [done|]. rewrite page_down_div by done.
  pose proof Hp as Hp'. unfold rptr, readable in Hp'.
  destruct (desc_at (pmem s) (addr / 1024)) as [d|]; simpl in *; [|done].
  destruct (reads_io (phys_offset d)); simpl in Hp'; [done|].
  destruct (ram_view (pmem s) (page_down (phys_offset d))) as [q|] eqn:Hv; simpl in Hp'; [|done]. injection Hp' as Hq.
  wp_step. eapply ram_ptr_wp; [done|exact Hv|]. intros s' Hag Hm _ _. unfold ram_read. wp_step.
  rewrite loads_length. split; [done|]. split; [done|]. split; [lia|].
  rewrite Hm, page_off_mod, Hq. symmetry. apply guest_bytes_page; [done|lia].
Qed.

Lemma read_loop_wp E : forall fuel addr buf s,
  mem_wf s -> fits 64 addr -> addr + Z.of_nat (length buf) <= 2 ^ 64 -> (length buf <= fuel)%nat ->
  (forall i, (i < length buf)%nat -> is_Some (rptr readable s (addr + Z.of_nat i))) ->
  wp E (rw_loop fuel addr buf false) (fun bs s' => agree s s' /\ host_mem s' = host_mem s /\
    bs = guest_bytes s addr (length buf)) s.
Proof.
  induction fuel as [|fuel IH]; intros addr buf s Hwf Ha Hmax Hf Hr.
  { destruct buf; [|simpl in Hf; lia]. simpl. wp_step. split; [by apply agree_refl|done]. }
  destruct buf as [|b0 buf]; [simpl; wp_step; split; [by apply agree_refl|done]|].
  set (buf' := b0 :: buf) in *. change (rw_loop (S fuel) addr buf' false) with
    (bs ← rw_turn addr buf' false;
     rest ← rw_loop fuel (wrap 64 (addr + Z.of_nat (length bs))) (drop (length bs) buf') false; mret (bs ++ rest)).
  wp_step. eapply wp_mono.
  { apply read_turn_wp; [done..|]. replace addr with (addr + Z.of_nat 0) by lia. apply Hr. simpl. lia. }
  intros bs s1 (Hag & Hm & Hlen & Hbs). wp_step.
  destruct (decide (length bs = length buf')) as [Heq|Hne].
  - rewrite drop_ge by lia.
    assert (forall a, wp E (rw_loop fuel a [] false) (fun rest s' => rest = [] /\ s' = s1) s1) as Hnil
      by (intros a; by destruct fuel; simpl; wp_step).
    eapply wp_mono; [apply Hnil|]. intros rest s2 [-> ->]. wp_step. rewrite app_nil_r.
    split; [done|]. split; [done|]. by rewrite <- Heq.
  - assert (length bs < length buf')%nat as Hlt by lia.
    rewrite wrap_fits by (unfold fits in *; lia).
    eapply wp_mono.
    { apply IH; [apply Hag|unfold fits in *; lia|rewrite length_drop; lia|rewrite length_drop; lia|].
      intros i Hi. rewrite length_drop in Hi. rewrite (agree_rptr _ _ _ _ Hag).
      replace (addr + Z.of_nat (length bs) + Z.of_nat i) with (addr + Z.of_nat (length bs + i)) by lia. apply Hr. lia. }
    intros rest s2 (Hag2 & Hm2 & Hrest). wp_step. split; [by eapply agree_trans|]. split; [congruence|].
    rewrite Hrest, (guest_bytes_agree _ _ _ _ Hag Hm), length_drop.
    replace (length buf') with (length bs + (length buf' - length bs))%nat at 2 by lia.
    rewrite guest_bytes_app. by rewrite <- Hbs.
Qed.

(** ** Dirty bits *)
(** Every dirty flag but that of translated code is set for the page of RAM offset [a]. *)
Definition marked s (a : Z) : Prop :=
  exists d, rd (phys_ram_dirty (pmem s)) (a / 1024) = Some d /\ Z.land d 0xfd = 0xfd.
Lemma dirty_bound (p : physmem) a : ram_wf p -> 0 <= a < last_ram_offset p -> 0 <= a / 1024 < Z.of_nat (length (phys_ram_dirty p)).
Proof.
  intros (_ & Hd & bl & _ & Ht) Ha. rewrite Hd. pose proof (tiles_top _ _ Ht) as (_ & Hm & _).
  split; [apply Z.div_pos; lia|]. apply Z.div_lt_upper_bound; [lia|].
  pose proof (Z.div_mod (last_ram_offset p) 1024). lia.
Qed.
Lemma mark_dirty_wp E a l (Q : unit -> machine D -> Prop) s :
  mem_wf s -> 0 <= a < last_ram_offset (pmem s) ->
  (forall s', agree s s' -> host_mem s' = host_mem s -> marked s' a -> (forall a', marked s a' -> marked s' a') -> Q tt s') ->
  wp E (mark_dirty a l) Q s.
Proof.
  intros [Hp (Hf & Hd & Hb)] Ha HQ. unfold mark_dirty, cpu_physical_memory_is_dirty. rewrite page_number.
  pose proof (dirty_bound (pmem s) a (conj Hf (conj Hd Hb)) Ha) as Hi.
  destruct (rd_Some _ _ Hi) as (d & Hrd & _).
  wp_step. wp_step. wp_step. wp_step. eapply deref_wp; [exact Hrd|]. wp_step. wp_step.
  destruct (Z.eqb_spec d 0xff) as [->|Hne]; simpl.
  - apply HQ; [by apply agree_refl|done| |done]. by exists 0xff.
  - wp_step. wp_step. unfold set_dirty. rewrite page_number. wp_step. wp_step. wp_step. eapply deref_wp; [exact Hrd|].
    set (v := Z.lor d _). assert (Z.land v 0xfd = 0xfd) as Hv.
    { unfold v. change (Z.land 0xff _) with 0xfd. rewrite Z.land_lor_distr_l. change (Z.land 0xfd 0xfd) with 0xfd.
      apply Z.bits_inj'. intros i Hi0. rewrite Z.lor_spec, Z.land_spec. by destruct (Z.testbit d i), (Z.testbit 0xfd i). }
    pose proof (wr_Some _ _ v Hi) as Hw. wp_step. eapply deref_wp; [exact Hw|]. wp_step.
    apply HQ.
    + split; [|done..]. split; [by destruct s as [[]]|]. split; [done|]. split; [|done].
      simpl. by rewrite length_insert.
    + done.
    + exists v. split; [|done]. simpl. rewrite (rd_wr _ _ _ _ _ Hw). by rewrite Z.eqb_refl.
    + intros a' (d' & Hd' & Hl'). unfold marked. simpl. rewrite (rd_wr _ _ _ _ _ Hw).
      destruct (Z.eqb_spec (a / 1024) (a' / 1024)); [by exists v|by exists d'].
Qed.

(** ** Writing *)
Lemma page_down_aligned x : page_down x mod 1024 = 0.
Proof.
  rewrite <- page_off_mod. unfold page_off, page_down. apply Z.bits_inj'. intros i Hi.
  rewrite !Z.land_spec, wrap_testbit, Z.lnot_spec, Z.bits_0 by lia.
  destruct (i <? 64), (Z.testbit x i), (Z.testbit (TARGET_PAGE_SIZE - 1) i); done.
Qed.
Lemma ram_readable s addr p : rptr is_ram s addr = Some p -> rptr readable s addr = Some p.
Proof.
  unfold rptr. destruct (desc_at (pmem s) (addr / 1024)) as [d|]; simpl; [|done].
  unfold is_ram, readable, reads_io. destruct (Z.eqb_spec (page_off (phys_offset d)) IO_MEM_RAM) as [->|]; [|done]. done.
Qed.
(** The RAM offset of a guest address. *)
Definition ram_offset s (addr : Z) : Z :=
  match desc_at (pmem s) (addr / 1024) with Some d => page_down (phys_offset d) + addr mod 1024 | None => 0 end.
Lemma agree_offset s s' addr : agree s s' -> ram_offset s' addr = ram_offset s addr.
Proof. intros [_ Hd _ _ _]. unfold ram_offset. by rewrite Hd. Qed.
Lemma rptr_offset ok s addr p : mem_wf s -> rptr ok s addr = Some p ->
  ram_view (pmem s) (ram_offset s addr) = Some p /\ 0 <= ram_offset s addr < last_ram_offset (pmem s).
Proof.
  intros [_ Hr] Hp. unfold rptr, ram_offset in *. destruct (desc_at (pmem s) (addr / 1024)) as [d|]; simpl in *; [|done].
  destruct (ok (phys_offset d)); [|done].
  destruct (ram_view (pmem s) (page_down (phys_offset d))) as [q|] eqn:Hv; simpl in Hp; [|done]. injection Hp as <-.
  pose proof (Z.mod_pos_bound addr 1024).
  assert (ram_view (pmem s) (page_down (phys_offset d) + addr mod 1024) = Some (q + addr mod 1024)) as H'
    by (apply ram_view_page; [done|apply page_down_aligned|lia|done]).
  split; [done|]. destruct (decide (0 <= page_down (phys_offset d) + addr mod 1024 < last_ram_offset (pmem s))) as [|Hn]; [done|].
  apply ram_view_None in Hn; [|done]. by rewrite Hn in H'.
Qed.

Lemma ram_offset_page ok s addr p j : mem_wf s -> rptr ok s addr = Some p -> 0 <= j -> addr mod 1024 + j < 1024 ->
  ram_offset s (addr + j) / 1024 = ram_offset s addr / 1024.
Proof.
  intros Hwf Hp Hj Hb. destruct (same_page_div addr j Hj Hb) as [H1 H2]. unfold ram_offset. rewrite H1, H2.
  destruct (desc_at (pmem s) (addr / 1024)) as [d|]; [|done].
  pose proof (page_down_aligned (phys_offset d)). pose proof (Z.div_mod (page_down (phys_offset d)) 1024).
  pose proof (Z.mod_pos_bound addr 1024).
  rewrite <- (Z.div_unique (page_down (phys_offset d) + (addr mod 1024 + j)) 1024 (page_down (phys_offset d) / 1024) (addr mod 1024 + j)) by lia.
  by rewrite <- (Z.div_unique (page_down (phys_offset d) + addr mod 1024) 1024 (page_down (phys_offset d) / 1024) (addr mod 1024)) by lia.
Qed.

(** What a write of [buf] at [addr] leaves behind. *)
Definition wptr s addr (i : nat) : Z := default 0 (rptr is_ram s (addr + Z.of_nat i)).
Record written s addr (buf : list Z) s' : Prop := mkWritten {
  w_agree : agree s s';
  w_bytes : forall i b, buf !! i = Some b -> host_mem s' (wptr s addr i) = b;
  w_frame : forall h, (forall i, (i < length buf)%nat -> h <> wptr s addr i) -> host_mem s' h = host_mem s h;
  w_dirty : forall i, (i < length buf)%nat -> marked s' (ram_offset s (addr + Z.of_nat i));
  w_mono : forall a, marked s a -> marked s' a
}.
Lemma written_nil s addr : mem_wf s -> written s addr [] s.
Proof. intros Hwf. split; [by apply agree_refl|done|done| |done]. simpl. lia. Qed.
(** A write of consecutive bytes of one page. *)
Lemma written_page s addr bs s' p :
  mem_wf s -> rptr is_ram s addr = Some p -> Z.of_nat (length bs) <= 1024 - addr mod 1024 -> agree s s' ->
  host_mem s' = stores p bs (host_mem s) -> marked s' (ram_offset s addr) -> (forall a, marked s a -> marked s' a) ->
  written s addr bs s'.
Proof.
  intros Hwf Hp Hlen Hag Hm Hmk Hmono.
  assert (forall i, (i < length bs)%nat -> wptr s addr i = p + Z.of_nat i) as Hw.
  { intros i Hi. unfold wptr. by rewrite (rptr_page _ _ _ p (Z.of_nat i) Hp) by lia. }
  split; [done| | | |done].
  - intros i b Hb. rewrite Hw by by eapply lookup_lt_Some. rewrite Hm. by apply stores_in.
  - intros h Hh. rewrite Hm. apply stores_out. intros i Hi. rewrite <- Hw by done. by apply Hh.
  - intros i Hi. destruct Hmk as (d & Hd & Hx). exists d. split; [|done].
    by rewrite (ram_offset_page is_ram _ _ p) by (done || lia).
Qed.
Definition distinct_ptrs s addr (n : nat) : Prop :=
  forall i j, (i < n)%nat -> (j < n)%nat -> wptr s addr i = wptr s addr j -> i = j.
Lemma written_app s1 addr bs rest s2 s3 :
  distinct_ptrs s1 addr (length bs + length rest) ->
  written s1 addr bs s2 -> written s2 (addr + Z.of_nat (length bs)) rest s3 -> written s1 addr (bs ++ rest) s3.
Proof.
  intros Hdis [A1 B1 F1 D1 M1] [A2 B2 F2 D2 M2].
  assert (forall i, wptr s2 (addr + Z.of_nat (length bs)) i = wptr s1 addr (length bs + i)) as Hw.
  { intros i. unfold wptr. rewrite (agree_rptr _ _ _ _ A1). do 2 f_equal. lia. }
  split; [by eapply agree_trans| | | |by auto].
  - intros i b. rewrite lookup_app_Some. intros [Hb|[Hi Hb]].
    + pose proof (lookup_lt_Some _ _ _ Hb). rewrite F2; [by apply B1|].
      intros j Hj. rewrite Hw. intros E. apply Hdis in E; lia.
    + rewrite <- (B2 _ _ Hb), Hw. do 3 f_equal. lia.
  - intros h Hh. rewrite length_app in Hh. rewrite F2; [apply F1; intros i Hi; apply Hh; lia|].
    intros i Hi. rewrite Hw. apply Hh. lia.
  - intros i. rewrite length_app. intros Hi. destruct (decide (i < length bs)%nat) as [Hlt|Hge].
    + apply M2. by apply D1.
    + specialize (D2 (i - length bs)%nat). rewrite (agree_offset _ _ _ A1) in D2.
      replace (addr + Z.of_nat i) with (addr + Z.of_nat (length bs) + Z.of_nat (i - length bs)) by lia. apply D2. lia.
Qed.

Lemma write_turn_wp E addr buf s :
  mem_wf s -> fits 64 addr -> buf <> [] -> is_Some (rptr is_ram s addr) ->
  wp E (rw_turn addr buf true) (fun bs s' => (0 < length bs <= length buf)%nat /\ bs = take (length bs) buf /\
    written s addr bs s') s.
Proof.
  intros Hwf Ha Hb [p Hp]. unfold rw_turn. set (l := page_left addr (Z.of_nat (length buf))).
  assert (0 < l <= Z.of_nat (length buf) /\ l <= 1024 - addr mod 1024) as Hl.
  { unfold l. rewrite page_left_spec by (done || lia). pose proof (Z.mod_pos_bound addr 1024).
    destruct buf; [done|]. simpl. lia. }
  wp_step. apply page_of_wp; [done|]. rewrite page_down_div by done.
  destruct (rptr_offset _ _ _ _ Hwf Hp) as [Hv Hoff]. pose proof Hp as Hp'. pose proof (written_page s addr) as Hwr.
  unfold rptr in Hp'. unfold ram_offset in Hv, Hoff, Hwr.
  destruct (desc_at (pmem s) (addr / 1024)) as [d|]; simpl in *; [|done].
  destruct (is_ram (phys_offset d)); simpl in *; [|done].
  rewrite page_off_mod, wrap_fits by (destruct Hwf as [_ [Hf _]]; unfold fits in *; lia).
  wp_step. eapply ram_ptr_wp; [done|exact Hv|]. intros s1 Hag1 Hm1 Hdy1 _. unfold ram_write. wp_step. wp_step.
  assert (agree s (s1 <| host_mem := stores p (take (Z.to_nat l) buf) (host_mem s1) |>)) as Hag2
    by (destruct Hag1; by split).
  wp_step. eapply mark_dirty_wp; [apply Hag2|by rewrite (agree_last _ _ Hag2)|]. intros s3 Hag3 Hm3 Hmk Hmono.
  wp_step. assert (length (take (Z.to_nat l) buf) = Z.to_nat l) as Hlen by (rewrite length_take; lia).
  rewrite Hlen. split; [lia|]. split; [done|].
  apply (Hwr _ _ p); [done|done|lia|by eapply agree_trans| |done|].
  - rewrite Hm3. simpl. by rewrite Hm1.
  - intros a (d' & Hd' & Hx). apply Hmono. exists d'. split; [|done]. simpl. by rewrite Hdy1.
Qed.

Lemma write_loop_wp E : forall fuel addr buf s,
  mem_wf s -> fits 64 addr -> addr + Z.of_nat (length buf) <= 2 ^ 64 -> (length buf <= fuel)%nat ->
  (forall i, (i < length buf)%nat -> is_Some (rptr is_ram s (addr + Z.of_nat i))) ->
  distinct_ptrs s addr (length buf) ->
  wp E (rw_loop fuel addr buf true) (fun bs s' => bs = buf /\ written s addr buf s') s.
Proof.
  induction fuel as [|fuel IH]; intros addr buf s Hwf Ha Hmax Hf Hr Hdis.
  { destruct buf; [|simpl in Hf; lia]. simpl. wp_step. split; [done|by apply written_nil]. }
  destruct buf as [|b0 buf]; [simpl; wp_step; split; [done|by apply written_nil]|].
  set (buf' := b0 :: buf) in *. change (rw_loop (S fuel) addr buf' true) with
    (bs ← rw_turn addr buf' true;
     rest ← rw_loop fuel (wrap 64 (addr + Z.of_nat (length bs))) (drop (length bs) buf') true; mret (bs ++ rest)).
  wp_step. eapply wp_mono.
  { apply write_turn_wp; [done..|]. replace addr with (addr + Z.of_nat 0) by lia. apply Hr. simpl. lia. }
  intros bs s1 (Hlen & Hbs & Hw). wp_step.
  assert (buf' = bs ++ drop (length bs) buf') as Hsplit by (rewrite Hbs at 1; by rewrite take_drop).
  destruct (decide (length bs = length buf')) as [Heq|Hne].
  - rewrite drop_ge by lia. rewrite drop_ge, app_nil_r in Hsplit by lia.
    assert (forall a, wp E (rw_loop fuel a [] true) (fun rest s' => rest = [] /\ s' = s1) s1) as Hnil
      by (intros a; by destruct fuel; simpl; wp_step).
    eapply wp_mono; [apply Hnil|]. intros rest s2 [-> ->]. wp_step. rewrite app_nil_r. by rewrite Hsplit.
  - assert (length bs < length buf')%nat as Hlt by lia.
    rewrite wrap_fits by (unfold fits in *; lia). pose proof (w_agree _ _ _ _ Hw) as Hag.
    assert (forall i, wptr s1 (addr + Z.of_nat (length bs)) i = wptr s addr (length bs + i)) as Hp.
    { intros i. unfold wptr. rewrite (agree_rptr _ _ _ _ Hag). do 2 f_equal. lia. }
    eapply wp_mono.
    { apply IH; [apply Hag|unfold fits in *; lia|rewrite length_drop; lia|rewrite length_drop; lia| |].
      - intros i Hi. rewrite length_drop in Hi. rewrite (agree_rptr _ _ _ _ Hag).
        replace (addr + Z.of_nat (length bs) + Z.of_nat i) with (addr + Z.of_nat (length bs + i)) by lia. apply Hr. lia.
      - intros i j. rewrite length_drop, !Hp. intros Hi Hj Heq. apply Hdis in Heq; lia. }
    intros rest s2 (-> & Hw2). wp_step. split; [done|].
    rewrite Hsplit. eapply written_app; [|done|done]. by rewrite <- length_app, <- Hsplit.
Qed.

(** ** Round trip *)
Lemma guest_bytes_written s addr buf s' :
  written s addr buf s' -> (forall i, (i < length buf)%nat -> is_Some (rptr is_ram s (addr + Z.of_nat i))) ->
  guest_bytes s' addr (length buf) = buf.
Proof.
  intros Hw Hr. apply list_eq. intros i. unfold guest_bytes.
  destruct (decide (i < length buf)%nat) as [Hi|Hi].
  - rewrite list_lookup_fmap, lookup_seq_lt by done. simpl.
    destruct (lookup_lt_is_Some_2 buf i Hi) as [b Hb]. rewrite Hb. f_equal.
    rewrite <- (w_bytes _ _ _ _ Hw _ _ Hb). unfold wptr.
    rewrite (agree_rptr _ _ _ _ (w_agree _ _ _ _ Hw)). destruct (Hr i Hi) as [p Hp].
    by rewrite (ram_readable _ _ _ Hp), Hp.
  - rewrite !lookup_ge_None_2 by (rewrite ?length_map, ?length_seq; lia). done.
Qed.

Lemma write_wp E s addr buf :
  mem_wf s -> fits 64 addr -> addr + Z.of_nat (length buf) <= 2 ^ 64 ->
  (forall i, (i < length buf)%nat -> is_Some (rptr is_ram s (addr + Z.of_nat i))) -> distinct_ptrs s addr (length buf) ->
  wp E (cpu_physical_memory_write addr buf) (fun _ => written s addr buf) s.
Proof.
  intros Hwf Ha Hmax Hr Hdis. unfold cpu_physical_memory_write, cpu_physical_memory_rw. wp_step.
  eapply wp_mono; [by apply write_loop_wp|]. intros bs s' [_ Hw]. by wp_step.
Qed.
Lemma read_written_wp E s addr buf s' :
  fits 64 addr -> addr + Z.of_nat (length buf) <= 2 ^ 64 ->
  (forall i, (i < length buf)%nat -> is_Some (rptr is_ram s (addr + Z.of_nat i))) -> written s addr buf s' ->
  wp E (cpu_physical_memory_read addr (length buf)) (fun bs s'' => bs = buf /\ agree s' s'' /\ host_mem s'' = host_mem s') s'.
Proof.
  intros Ha Hmax Hr Hw. unfold cpu_physical_memory_read, cpu_physical_memory_rw.
  eapply wp_mono; [apply read_loop_wp; rewrite ?length_replicate; [apply Hw|done|done|done|]|].
  - intros i Hi. rewrite (agree_rptr _ _ _ _ (w_agree _ _ _ _ Hw)). destruct (Hr i Hi) as [p Hp].
    exists p. by apply ram_readable.
  - intros bs s'' (H1 & H2 & ->). rewrite length_replicate. by rewrite (guest_bytes_written _ _ _ _ Hw Hr).
Qed.

(** C15: guest RAM is memory.  cpu_physical_memory_write on addresses that are all RAM, at
    distinct host bytes, succeeds whatever the pages are and however the range crosses them;
    it changes no other host byte, marks every page it touched dirty for all clients, and
    cpu_physical_memory_read of the range then returns what was written.  Reading needs only
    that the pages be RAM or ROM, and returns the bytes behind them. *)
Theorem phys_rw_roundtrip s addr buf :
  mem_wf s -> fits 64 addr -> addr + Z.of_nat (length buf) <= 2 ^ 64 ->
  (forall i, (i < length buf)%nat -> is_Some (rptr is_ram s (addr + Z.of_nat i))) ->
  distinct_ptrs s addr (length buf) ->
  exists s', cpu_physical_memory_write addr buf s = Ok (tt, s') /\ written s addr buf s' /\
    exists s'', cpu_physical_memory_read addr (length buf) s' = Ok (buf, s'') /\ agree s' s'' /\ host_mem s'' = host_mem s'.
Proof.
  intros Hwf Ha Hmax Hr Hdis. pose proof (write_wp no_err s addr buf Hwf Ha Hmax Hr Hdis) as H.
  apply wp_total_ex in H as ([] & s' & He & Hw). exists s'. split; [done|]. split; [done|].
  pose proof (read_written_wp no_err s addr buf s' Ha Hmax Hr Hw) as H.
  apply wp_total_ex in H as (bs & s'' & H & -> & H2). by exists s''.
Qed.

(** ** Words *)
Lemma le_bytes_length n v : length (le_bytes n v) = n.
Proof. unfold le_bytes. by rewrite length_map, length_seq. Qed.
Lemma le_bytes_S n v : le_bytes (S n) v = v mod 256 :: le_bytes n (Z.shiftr v 8).
Proof.
  unfold le_bytes. cbn [seq List.map]. rewrite Z.shiftr_0_r. f_equal.
  rewrite <- seq_shift, List.map_map. apply map_ext. intros i.
  rewrite Z.shiftr_shiftr by lia. do 2 f_equal. lia.
Qed.
Lemma le_value_bytes n : forall v, le_value (le_bytes n v) = v mod 2 ^ (8 * Z.of_nat n).
Proof.
  induction n as [|n IH]; intros v; [by rewrite Z.mod_1_r|].
  rewrite le_bytes_S. cbn [le_value foldr]. change (foldr _ 0 ?l) with (le_value l).
  rewrite IH, Z.shiftr_div_pow2 by lia. change (2 ^ 8) with 256.
  replace (8 * Z.of_nat (S n)) with (8 + 8 * Z.of_nat n) by lia. rewrite Z.pow_add_r by lia.
  change (2 ^ 8) with 256. rewrite Z.rem_mul_r by lia. lia.
Qed.

(** Nothing but the order of the RAM blocks. *)
Record quiet s s' : Prop := mkQuiet {
  q_agree : agree s s'; q_mem : host_mem s' = host_mem s; q_dirty : phys_ram_dirty (pmem s') = phys_ram_dirty (pmem s)
}.
Lemma quiet_refl s : mem_wf s -> quiet s s.
Proof. split; [by apply agree_refl|done..]. Qed.
Lemma quiet_trans s1 s2 s3 : quiet s1 s2 -> quiet s2 s3 -> quiet s1 s3.
Proof. intros [A1 M1 D1] [A2 M2 D2]. split; [by eapply agree_trans|congruence..]. Qed.
Lemma load_ram_wp E addr d n (Q : Z -> machine D -> Prop) s :
  mem_wf s -> desc_at (pmem s) (addr / 1024) = Some d -> is_Some (rptr readable s addr) ->
  Z.of_nat n <= 1024 - addr mod 1024 ->
  (forall s', quiet s s' -> Q (le_value (guest_bytes s addr n)) s') ->
  wp E (load_ram (phys_offset d) addr n) Q s.
Proof.
  intros Hwf Hd [p Hp] Hn HQ. pose proof (guest_bytes_page s addr p n Hp Hn) as Hg.
  unfold rptr in Hp. rewrite Hd in Hp. simpl in Hp. destruct (readable (phys_offset d)); [|done].
  destruct (ram_view (pmem s) (page_down (phys_offset d))) as [q|] eqn:Hv; simpl in Hp; [|done]. injection Hp as Hq.
  unfold load_ram. wp_step. eapply ram_ptr_wp; [done|exact Hv|]. intros s' Hag Hm Hdy _. unfold ram_read. wp_steps.
  rewrite page_off_mod, Hq, Hm, <- Hg. by apply HQ.
Qed.
Lemma ldl_phys_wp E addr (Q : Z -> machine D -> Prop) s :
  mem_wf s -> addr mod 4 = 0 -> is_Some (rptr readable s addr) ->
  (forall s', quiet s s' -> Q (le_value (guest_bytes s addr 4)) s') ->
  wp E (ldl_phys addr) Q s.
Proof.
  intros Hwf H4 Hp HQ. unfold ldl_phys. wp_step. apply page_of_wp; [done|].
  pose proof Hp as [p Hp']. unfold rptr in Hp'. destruct (desc_at (pmem s) (addr / 1024)) as [d|] eqn:Hd; simpl in *; [|done].
  unfold readable in Hp'. destruct (reads_io (phys_offset d)); simpl in *; [done|].
  eapply load_ram_wp; [done..| |done].
  pose proof (Z.mod_pos_bound addr 1024). pose proof (Z.div_mod addr 1024). pose proof (Z.div_mod addr 4).
  change (Z.of_nat 4) with 4. lia.
Qed.
Lemma stl_with_wp E mark addr v (Q : unit -> machine D -> Prop) s :
  mem_wf s -> is_Some (rptr is_ram s addr) ->
  (forall s', agree s s' -> phys_ram_dirty (pmem s') = phys_ram_dirty (pmem s) ->
     host_mem s' = stores (wptr s addr 0) (le_bytes 4 v) (host_mem s) ->
     wp E (mark (ram_offset s addr)) Q s') ->
  wp E (stl_with mark addr v) Q s.
Proof.
  intros Hwf [p Hp] HQ. unfold stl_with. wp_step. apply page_of_wp; [done|].
  destruct (rptr_offset _ _ _ _ Hwf Hp) as [Hv Hoff]. unfold wptr in HQ. rewrite Z.add_0_r, Hp in HQ. simpl in HQ.
  unfold rptr in Hp. unfold ram_offset in *.
  destruct (desc_at (pmem s) (addr / 1024)) as [d|]; simpl in *; [|done].
  destruct (is_ram (phys_offset d)); simpl in *; [|done].
  rewrite page_off_mod, wrap_fits by (destruct Hwf as [_ [Hf _]]; unfold fits in *; lia).
  wp_step. eapply ram_ptr_wp; [done|exact Hv|]. intros s1 Hag1 Hm1 Hdy1 _. unfold ram_write. wp_step. wp_step.
  apply HQ; [destruct Hag1; by split|done|]. simpl. by rewrite Hm1.
Qed.

(** A word stored by stl_phys to an aligned RAM address is the little-endian bytes of
    its low 32 bits, no other byte changes and the page is marked dirty; ldl_phys reads the
    word back, and so does a byte-wise cpu_physical_memory_read. *)
Theorem phys_word_roundtrip s addr v :
  mem_wf s -> fits 64 addr -> addr mod 4 = 0 -> is_Some (rptr is_ram s addr) ->
  exists s', stl_phys addr v s = Ok (tt, s') /\ written s addr (le_bytes 4 v) s' /\
    (exists s'', ldl_phys addr s' = Ok (wrap 32 v, s'') /\ agree s' s'') /\
    (exists s'', cpu_physical_memory_read addr 4 s' = Ok (le_bytes 4 v, s'') /\ agree s' s'').
Proof.
  intros Hwf Ha H4 Hp.
  assert (Z.of_nat 4 <= 1024 - addr mod 1024 /\ addr + Z.of_nat 4 <= 2 ^ 64) as [Hlen Hmax].
  { pose proof (Z.mod_pos_bound addr 1024). pose proof (Z.div_mod addr 1024). pose proof (Z.div_mod addr 4).
    unfold fits in Ha. change (Z.of_nat 4) with 4. lia. }
  assert (wp no_err (stl_phys addr v) (fun _ => written s addr (le_bytes 4 v)) s) as H.
  { unfold stl_phys. apply stl_with_wp; [done..|]. intros s1 Hag Hdy Hm.
    destruct Hp as [p Hp]. destruct (rptr_offset _ _ _ _ Hwf Hp) as [_ Hoff].
    apply mark_dirty_wp; [apply Hag|by rewrite (agree_last _ _ Hag)|]. intros s2 Hag2 Hm2 Hmk Hmono.
    apply (written_page _ _ _ _ p); [done|done|by rewrite le_bytes_length|by eapply agree_trans| |done|].
    - rewrite Hm2, Hm. unfold wptr. by rewrite Z.add_0_r, Hp.
    - intros a (d & Hd & Hx). apply Hmono. exists d. split; [by rewrite Hdy|done]. }
  apply wp_total_ex in H as ([] & s' & He & Hw). exists s'. split; [done|]. split; [done|].
  assert (forall i, (i < 4)%nat -> is_Some (rptr is_ram s (addr + Z.of_nat i))) as Hr.
  { intros i Hi. destruct Hp as [p Hp]. exists (p + Z.of_nat i). apply rptr_page; [done|lia..]. }
  pose proof (w_agree _ _ _ _ Hw) as Hag.
  assert (guest_bytes s' addr 4 = le_bytes 4 v) as Hg.
  { rewrite <- (le_bytes_length 4 v) at 1. eapply guest_bytes_written; [done|]. by rewrite le_bytes_length. }
  split.
  - assert (wp no_err (ldl_phys addr) (fun r s'' => r = wrap 32 v /\ agree s' s'') s') as H.
    { apply ldl_phys_wp; [apply Hag|done| |].
      - rewrite (agree_rptr _ _ _ _ Hag). destruct Hp as [p Hp]. exists p. by apply ram_readable.
      - intros s'' [Hag2 _]. by rewrite Hg, le_value_bytes. }
    apply wp_total_ex in H as (r & s'' & H & -> & H2). by exists s''.
  - pose proof (read_written_wp no_err s addr (le_bytes 4 v) s') as H. rewrite le_bytes_length in H.
    specialize (H Ha Hmax Hr Hw).
    apply wp_total_ex in H as (bs & s'' & H & -> & H2 & _). by exists s''.
Qed.

(** ** Mapping *)
(** Every page registered as RAM lies in a block. *)
Definition ram_backed s : Prop := forall n d, desc_at (pmem s) n = Some d -> is_ram (phys_offset d) = true ->
  is_Some (ram_view (pmem s) (page_down (phys_offset d))).
Lemma backed_agree s s' : agree s s' -> ram_backed s -> ram_backed s'.
Proof. intros [_ Hd Hv _ _] Hb n d. rewrite Hd, Hv. apply Hb. Qed.
Lemma backed_rptr s addr d : ram_backed s -> desc_at (pmem s) (addr / 1024) = Some d -> is_ram (phys_offset d) = true ->
  is_Some (rptr is_ram s addr).
Proof.
  intros Hb Hd Hr. unfold rptr. rewrite Hd. simpl. rewrite Hr. destruct (Hb _ _ Hd Hr) as [q ->]. by eexists.
Qed.

(** A turn on a RAM page yields its host pointer; another page ends the mapping. *)
Lemma map_turn_wp E memalign addr l first is_write (Q : option Z -> machine D -> Prop) s :
  mem_wf s -> ram_backed s -> fits 64 addr ->
  is_Some (rptr is_ram s addr) \/ negb first || truth (buffer (bounce s)) = true ->
  (forall s', agree s s' -> host_mem s' = host_mem s -> bounce s' = bounce s -> Q (rptr is_ram s addr) s') ->
  wp E (map_turn memalign addr l first is_write) Q s.
Proof.
  intros Hwf Hbk Ha Hor HQ. unfold map_turn. wp_step. apply page_of_wp; [done|]. rewrite page_down_div by done.
  pose proof (backed_rptr s addr) as Hb. pose proof (rptr_offset is_ram s addr) as Ho. unfold ram_offset in Ho.
  destruct (desc_at (pmem s) (addr / 1024)) as [d|] eqn:Hd; simpl.
  - destruct (is_ram (phys_offset d)) eqn:Hr; simpl.
    + destruct (Hb d Hbk eq_refl Hr) as [p Hp]. destruct (Ho p Hwf Hp) as [Hv Hoff].
      rewrite page_off_mod, wrap_fits by (destruct Hwf as [_ [Hf _]]; unfold fits in *; lia).
      wp_step. eapply ram_ptr_wp; [done|exact Hv|]. intros s' Hag Hm _ Hbn. wp_step. rewrite Hp in HQ. by apply HQ.
    + assert (rptr is_ram s addr = None) as Hn by (unfold rptr; rewrite Hd; simpl; by rewrite Hr).
      rewrite Hn in *. destruct Hor as [[? ?]|Hor]; [done|]. wp_step. wp_step. rewrite Hor. wp_step.
      apply HQ; [by apply agree_refl|done..].
  - assert (rptr is_ram s addr = None) as Hn by (unfold rptr; by rewrite Hd).
    rewrite Hn in *. destruct Hor as [[? ?]|Hor]; [done|]. wp_step. wp_step. rewrite Hor. wp_step.
    apply HQ; [by apply agree_refl|done..].
Qed.

(** What is mapped is one run of host bytes. *)
Definition mapped s (start ptr0 n : Z) : Prop := forall i, 0 <= i < n -> rptr is_ram s (start + i) = Some (ptr0 + i).
Lemma mapped_more s start ptr0 n l p :
  mapped s start ptr0 n -> 0 <= n -> rptr is_ram s (start + n) = Some p -> p = ptr0 + n ->
  l <= 1024 - (start + n) mod 1024 -> mapped s start ptr0 (n + l).
Proof.
  intros Hm Hn Hp -> Hl i Hi. destruct (Z.lt_ge_cases i n); [apply Hm; lia|].
  replace (start + i) with (start + n + (i - n)) by lia.
  rewrite (rptr_page _ _ _ (ptr0 + n) (i - n) Hp) by lia. f_equal. lia.
Qed.
Lemma map_loop_wp E memalign is_write start ptr0 : forall fuel len finished s,
  mem_wf s -> ram_backed s -> fits 64 start -> start + finished + len <= 2 ^ 64 ->
  0 < finished -> 0 <= len -> (Z.to_nat len <= fuel)%nat -> mapped s start ptr0 finished ->
  wp E (map_loop fuel memalign (wrap 64 (start + finished)) len finished (Some ptr0) is_write) (fun r s' =>
    r.1 = Some ptr0 /\ finished <= r.2 <= finished + len /\ agree s s' /\ host_mem s' = host_mem s /\
    mapped s start ptr0 r.2) s.
Proof.
  induction fuel as [|fuel IH]; intros len finished s Hwf Hbk Hst Hmax Hfin Hlen Hf Hr.
  all: simpl; destruct (Z.eqb_spec len 0) as [->|Hl];
    [wp_step; simpl; split_and!; [done|lia|lia|by apply agree_refl|done|done]|].
  { lia. }
  set (addr := start + finished). assert (fits 64 addr) as Ha by (unfold fits in *; lia). rewrite (wrap_fits _ _ Ha).
  set (l := page_left addr len).
  assert (0 < l <= len /\ l <= 1024 - addr mod 1024) as Hlb.
  { unfold l. rewrite page_left_spec by done. pose proof (Z.mod_pos_bound addr 1024). lia. }
  destruct (Z.eqb_spec finished 0) as [?|_]; [lia|].
  wp_step. apply map_turn_wp; [done|done|done|by right|]. intros s1 Hag Hm _.
  destruct (rptr is_ram s addr) as [p|] eqn:Hp; simpl; [|wp_step; split_and!; done || (simpl; lia)].
  destruct (bool_decide_reflect (Some ptr0 = Some (p - finished))) as [[= Heq]|Hne]; simpl;
    [|wp_step; split_and!; done || (simpl; lia)].
  assert (mapped s start ptr0 (finished + l)) as Hm2 by (apply (mapped_more _ _ _ _ _ p); [done|lia|done|lia|exact (proj2 Hlb)]).
  replace (addr + l) with (start + (finished + l)) by lia.
  eapply wp_mono.
  { apply (IH (len - l) (finished + l) s1); [apply Hag|by eapply backed_agree|done|lia|lia|lia|lia|].
    intros i Hi. rewrite (agree_rptr _ _ _ _ Hag). by apply Hm2. }
  intros [r n] s2 (H1 & H2 & Hag2 & Hm3 & H3). simpl in *. split_and!; [done|lia|lia|by eapply agree_trans|congruence|].
  intros i Hi. rewrite <- (agree_rptr _ _ _ _ Hag). by apply H3.
Qed.

(** Cpu_physical_memory_map of a RAM address always succeeds: it returns a host pointer
    and a length between 1 and the one asked for, and the host bytes from the pointer on are
    exactly the guest bytes of that many addresses.  Mapping touches neither host memory nor
    the bounce buffer.  When the first page is not RAM and the bounce buffer is in use, the
    result is NULL with length 0. *)
Theorem phys_map_contiguous memalign s addr len is_write :
  mem_wf s -> ram_backed s -> fits 64 addr -> 0 < len -> addr + len <= 2 ^ 64 ->
  is_Some (rptr is_ram s addr) \/ buffer (bounce s) <> 0 ->
  exists ptr n s', cpu_physical_memory_map memalign addr len is_write s = Ok ((ptr, n), s') /\
    agree s s' /\ host_mem s' = host_mem s /\
    match rptr is_ram s addr with
    | Some p => ptr = Some p /\ 0 < n <= len /\ mapped s addr p n
    | None => ptr = None /\ n = 0
    end.
Proof.
  intros Hwf Hbk Ha Hl Hmax Hor.
  assert (wp no_err (cpu_physical_memory_map memalign addr len is_write) (fun r s' =>
    agree s s' /\ host_mem s' = host_mem s /\
    match rptr is_ram s addr with
    | Some p => r.1 = Some p /\ 0 < r.2 <= len /\ mapped s addr p r.2 | None => r.1 = None /\ r.2 = 0 end) s) as H.
  { unfold cpu_physical_memory_map. destruct (Z.to_nat len) as [|fuel] eqn:Hf; [lia|].
    simpl. destruct (Z.eqb_spec len 0); [lia|].
    set (l := page_left addr len).
    assert (0 < l <= len /\ l <= 1024 - addr mod 1024) as Hlb.
    { unfold l. rewrite page_left_spec by (done || lia). pose proof (Z.mod_pos_bound addr 1024). lia. }
    wp_step. apply map_turn_wp; [done|done|done|destruct Hor; [by left|right; by apply truth_true]|].
    intros s1 Hag Hm _. destruct (rptr is_ram s addr) as [p|] eqn:Hp; simpl; [|by wp_step].
    assert (mapped s addr p l) as Hmp.
    { apply (mapped_more s addr p 0 l p); [intros i; lia|done|by rewrite Z.add_0_r|lia|by rewrite Z.add_0_r; lia]. }
    eapply wp_mono.
    { apply (map_loop_wp no_err memalign is_write addr p fuel (len - l) l s1);
        [apply Hag|by eapply backed_agree|done|lia|lia|lia|lia|].
      intros i Hi. rewrite (agree_rptr _ _ _ _ Hag). by apply Hmp. }
    intros [r n0] s2 (H1 & H2 & Hag2 & Hm2 & H3). simpl in *.
    split_and!; [by eapply agree_trans|congruence|done|lia|lia|].
    intros i Hi. rewrite <- (agree_rptr _ _ _ _ Hag). by apply H3. }
  apply wp_total_ex in H as ([ptr n0] & s' & H & Hag & Hm & Hres). by exists ptr, n0, s'.
Qed.
End Rw.

(** ** A concrete machine: the first four pages are RAM, in one block. *)
#[local] Instance no_devices : Devices unit := {| dev_read := fun _ _ _ d => (0, d); dev_write := fun _ _ _ _ d => d |}.
Definition sample_pages : list PhysPageDesc :=
  [mkPage 0 0; mkPage 1024 0; mkPage 2048 0; mkPage 3072 0] ++ replicate 1020 (mkPage IO_MEM_UNASSIGNED 0).
Definition sample_phys : physmem := phys_init
  <| l1_phys_map := Some sample_pages :: replicate 4095 None |>
  <| ram_blocks := [mkBlock 0x10000 0 4096] |> <| last_ram_offset := 4096 |> <| phys_ram_dirty := [0; 0; 0; 0] |>.
Definition sample : machine unit := mkMachine sample_phys (fun _ => 0) tt [] (mkBounce 0 0 0) [] [].

Lemma sample_ram_wf : ram_wf sample_phys.
Proof.
  split; [done|]. split; [done|]. exists [mkBlock 0x10000 0 4096]. split; [done|].
  apply (tiles_cons 0x10000 4096 0 []); [apply tiles_nil|done|done].
Qed.
Lemma sample_wf : mem_wf sample.
Proof.
  split; [|apply sample_ram_wf]. split.
  - change (S (length (replicate 4095 (@None (list PhysPageDesc)))) = 4096%nat). by rewrite length_replicate.
  - apply Forall_cons. split; [|by apply Forall_replicate].
    intros l [= <-]. unfold sample_pages. by rewrite length_app, length_replicate.
Qed.
Lemma rptr_at {D} ok (s : machine D) addr n d q :
  addr / 1024 = n -> desc_at (pmem s) n = Some d -> ok (phys_offset d) = true ->
  ram_view (pmem s) (page_down (phys_offset d)) = Some q -> rptr ok s addr = Some (q + (addr - 1024 * n)).
Proof.
  intros Hn Hd Hok Hv. unfold rptr. rewrite Hn, Hd. cbn. rewrite Hok, Hv. cbn. do 2 f_equal.
  pose proof (Z.div_mod addr 1024). lia.
Qed.
Lemma sample_rptr addr : 0 <= addr < 4096 -> rptr is_ram sample addr = Some (0x10000 + addr).
Proof.
  intros Ha. assert (addr / 1024 = 0 \/ addr / 1024 = 1 \/ addr / 1024 = 2 \/ addr / 1024 = 3) as H.
  { pose proof (Z.div_mod addr 1024). pose proof (Z.mod_pos_bound addr 1024). lia. }
  destruct H as [H|[H|[H|H]]];
    [rewrite (rptr_at is_ram sample addr 0 (mkPage 0 0) 0x10000)
    |rewrite (rptr_at is_ram sample addr 1 (mkPage 1024 0) 0x10400)
    |rewrite (rptr_at is_ram sample addr 2 (mkPage 2048 0) 0x10800)
    |rewrite (rptr_at is_ram sample addr 3 (mkPage 3072 0) 0x10c00)];
    first [done | f_equal; lia | vm_compute; done].
Qed.
Lemma rd_cons_replicate {A} (x y z : A) n i : rd (x :: replicate n y) i = Some z -> z = x \/ z = y.
Proof.
  intros [_ H]%rd_lookup. destruct (Z.to_nat i); simpl in H; [injection H; auto|].
  apply lookup_replicate_1 in H. tauto.
Qed.
Lemma sample_backed : ram_backed sample.
Proof.
  intros n d. unfold desc_at, page_desc. generalize (page_index n). intros [i j].
  change (l1_phys_map (pmem sample)) with (Some sample_pages :: replicate 4095 None).
  destruct (rd _ _) as [o|] eqn:Ho; [|done].
  destruct (rd_cons_replicate _ _ _ _ _ Ho) as [-> | ->]; [|done].
  cbn [mbind option_bind snd]. intros [_ Hd]%rd_lookup. revert Hd. generalize (Z.to_nat j). intros k Hd.
  apply lookup_app_Some in Hd as [Hd|[_ Hd]]; [|by apply lookup_replicate_1 in Hd as [-> _]].
  destruct k as [|[|[|[|k]]]]; simpl in Hd; try done; injection Hd as <-; intros _; by eexists.
Qed.

Example phys_rw_roundtrip_witness :
  mem_wf sample /\ exists s', cpu_physical_memory_write 1020 [1; 2; 3; 4; 5; 6; 7; 8] sample = Ok (tt, s') /\
    written sample 1020 [1; 2; 3; 4; 5; 6; 7; 8] s' /\
    exists s'', cpu_physical_memory_read 1020 8 s' = Ok ([1; 2; 3; 4; 5; 6; 7; 8], s'') /\ agree s' s'' /\ host_mem s'' = host_mem s'.
Proof.
  split; [exact sample_wf|].
  apply (phys_rw_roundtrip sample 1020 [1; 2; 3; 4; 5; 6; 7; 8]); [exact sample_wf|done|done| |].
  - intros i Hi. cbn in Hi. rewrite sample_rptr by lia. by eexists.
  - intros i j Hi Hj. cbn in Hi, Hj. unfold wptr. rewrite !sample_rptr by lia. cbn. lia.
Defined.
Example phys_word_roundtrip_witness :
  exists s', stl_phys 2048 0x12345678 sample = Ok (tt, s') /\ written sample 2048 (le_bytes 4 0x12345678) s' /\
    (exists s'', ldl_phys 2048 s' = Ok (0x12345678, s'') /\ agree s' s'') /\
    (exists s'', cpu_physical_memory_read 2048 4 s' = Ok ([0x78; 0x56; 0x34; 0x12], s'') /\ agree s' s'').
Proof.
  apply (phys_word_roundtrip sample 2048 0x12345678); [exact sample_wf|done|done|].
  rewrite sample_rptr by lia. by eexists.
Defined.
Example phys_map_contiguous_witness :
  exists ptr n s', cpu_physical_memory_map 0x90000 100 3000 true sample = Ok ((ptr, n), s') /\
    agree sample s' /\ host_mem s' = host_mem sample /\
    match rptr is_ram sample 100 with
    | Some p => ptr = Some p /\ 0 < n <= 3000 /\ mapped sample 100 p n | None => ptr = None /\ n = 0 end.
Proof.
  apply (phys_map_contiguous 0x90000 sample 100 3000 true); [exact sample_wf| |done|done|done|].
  - exact sample_backed.
  - left. rewrite sample_rptr by lia. by eexists.
Defined.
