(* ===== verification/PhysSubpages.v ===== *)
(** * PhysSubpages: one page shared by several zones

    A device smaller than a page is registered on a part of it.  The page is then given a
    zone of its own, whose functions look the byte up in a [subpage_t] and call the zone the
    byte belongs to.  [io_target] follows an access to the function, the opaque pointer and
    the address it ends in; registering a part of a page changes it exactly there. *)
From S2P Require Import Prelude Physmem PhysPages PhysZones PhysAccess.
From stdpp Require Import sets.
#[local] Open Scope Z_scope.

(** ** Where an access ends *)
Definition io_target (is_write : bool) (s : physmem) (w addr : Z) : outcome (fn * opaque_ptr * Z) :=
  let d := desc_at s (addr / 1024) in zone_target is_write s (io_zone (pd_of d)) w (io_addr d addr).
Definition is_subpage (f : fn) : bool := match f with subpage_access _ => true | _ => false end.
(** A zone in use whose functions are there and are not those of a subpage. *)
Definition plain (s : physmem) (z : Z) : Prop :=
  0 <= z < 128 /\ rd (io_mem_used s) z = Some true /\
  forall is_write w, 0 <= w < 3 -> exists f, fn_at (tables is_write s) z w = Some f /\ is_subpage f = false.
Definition zone_fn (is_write : bool) (s : physmem) (z w : Z) : fn := default (unassigned_mem w) (fn_at (tables is_write s) z w).
Definition zone_opaque (s : physmem) (z : Z) : opaque_ptr := default O_null (rd (io_mem_opaque s) z).

Lemma opaque_at s z : zones_wf s -> 0 <= z < 128 -> rd (io_mem_opaque s) z = Some (zone_opaque s z).
Proof.
  intros Hwf Hz. destruct (rd_Some (io_mem_opaque s) z) as (o & Ho & _); [rewrite (z_opaque _ Hwf); lia|].
  unfold zone_opaque. by rewrite Ho.
Qed.
Lemma plain_fn s z is_write w : plain s z -> 0 <= w < 3 ->
  fn_at (tables is_write s) z w = Some (zone_fn is_write s z w) /\ is_subpage (zone_fn is_write s z w) = false.
Proof. intros (_ & _ & H) Hw. destruct (H is_write w Hw) as (f & Hf & Hp). unfold zone_fn. by rewrite Hf. Qed.
Lemma target_plain fuel is_write s f o addr : is_subpage f = false -> subpage_target fuel is_write s f o addr = Ok (f, o, addr).
Proof. by destruct f, fuel. Qed.
Lemma zone_target_plain is_write s z w addr : zones_wf s -> plain s z -> 0 <= w < 3 ->
  zone_target is_write s z w addr = Ok (zone_fn is_write s z w, zone_opaque s z, addr).
Proof.
  intros Hwf Hp Hw. destruct (plain_fn _ _ is_write w Hp Hw) as [Hf Hn]. unfold zone_target.
  rewrite Hf, (opaque_at _ _ Hwf) by apply Hp. by apply target_plain.
Qed.

(** ** Subpages *)
Definition sub_dims (sub : subpage_t) : Prop :=
  forall is_write, length (sides is_write sub) = 1024%nat /\ Forall (fun row => length row = 4%nat) (sides is_write sub).
(** The entry of byte [b] sends accesses of width [w] to zone [z], [r] further on. *)
Definition entry_is (s : physmem) (sub : subpage_t) (is_write : bool) (b w z r : Z) : Prop :=
  rd2 (sides is_write sub) b w = Some (mkSub (Some z) (zone_opaque s z) r).
Definition sub_ok (s : physmem) (sub : subpage_t) : Prop :=
  sub_dims sub /\ forall is_write b w, 0 <= b < 1024 -> 0 <= w < 3 -> exists z r, plain s z /\ entry_is s sub is_write b w z r.
(** Zone [k] is that of the subpage object [i]. *)
Definition sub_zone (s : physmem) (k : Z) (i : nat) : Prop :=
  0 <= k < 128 /\ rd (io_mem_used s) k = Some true /\ rd (io_mem_opaque s) k = Some (O_subpage i) /\
  forall is_write w, 0 <= w < 3 -> fn_at (tables is_write s) k w = Some (subpage_access w).

Lemma io_zone_number k sw : 0 <= k < 128 -> 0 <= sw < 8 -> io_zone (k * 8 + sw) = k.
Proof.
  intros Hk Hsw. unfold io_zone. rewrite zone_of_number by done.
  change (IO_MEM_NB_ENTRIES - 1) with (Z.ones 7). rewrite Z.land_ones by lia. apply Z.mod_small. change (2 ^ 7) with 128. lia.
Qed.
Lemma sub_target is_write s k i sub w addr z r :
  zones_wf s -> sub_zone s k i -> subpages s !! i = Some sub -> 0 <= w < 3 -> plain s z ->
  entry_is s sub is_write (addr mod 1024) w z r ->
  zone_target is_write s k w addr = Ok (zone_fn is_write s z w, zone_opaque s z, wrap 64 (addr + r)).
Proof.
  intros Hwf (Hk & _ & Ho & Hf) Hs Hw Hp He. unfold zone_target. rewrite (Hf _ _ Hw), Ho. cbn [subpage_target].
  unfold entry_is in He. rewrite page_off_mod. cbn. rewrite Hs. cbn. rewrite He. cbn.
  destruct (plain_fn _ _ is_write w Hp Hw) as [-> Hn]. cbn. by apply target_plain.
Qed.

(** Registering zone [m] on the bytes [idx] to [eidx] of a subpage. *)
Lemma route_lookup (fs : list (option fn)) o m r row w :
  rd (zip_with (fun f e => match f with Some _ => mkSub (Some m) o r | None => e end) fs row) w =
    (e ← rd row w; f ← rd fs w; Some (match f with Some _ => mkSub (Some m) o r | None => e end)).
Proof.
  unfold rd. destruct (0 <=? w); [|done]. rewrite lookup_zip_with.
  destruct (fs !! Z.to_nat w) as [f|], (row !! Z.to_nat w) as [e|]; done.
Qed.
Lemma route_bytes_rd idx eidx g rows b :
  rd (route_bytes idx eidx g rows) b = (row ← rd rows b; Some (if (idx <=? b) && (b <=? eidx) then g row else row)).
Proof.
  unfold rd. destruct (Z.leb_spec 0 b); [|done]. unfold route_bytes. rewrite list_lookup_imap.
  rewrite Z2Nat.id by done. by destruct (rows !! Z.to_nat b).
Qed.
Lemma route_dims idx eidx g rows :
  (forall row, length row = 4%nat -> length (g row) = 4%nat) ->
  length rows = 1024%nat /\ Forall (fun row => length row = 4%nat) rows ->
  length (route_bytes idx eidx g rows) = 1024%nat /\ Forall (fun row => length row = 4%nat) (route_bytes idx eidx g rows).
Proof.
  intros Hg [Hl HF]. unfold route_bytes. split; [by rewrite length_imap|].
  apply Forall_lookup. intros j row. rewrite list_lookup_imap.
  destruct (rows !! j) as [row0|] eqn:E; simpl; [|done]. intros [= <-].
  assert (length row0 = 4%nat) by exact (Forall_lookup_1 (fun row => length row = 4%nat) rows j row0 HF E). destruct (_ && _); auto.
Qed.
Lemma rd2_rows {A} (rows : list (list A)) b w : rd2 rows b w = (row ← rd rows b; rd row w).
Proof. done. Qed.

Lemma subpage_register_wp E i sub a b m sw r s (Q : Z -> physmem -> Prop) :
  zones_wf s -> plain s m -> 0 <= sw < 8 -> subpages s !! i = Some sub -> sub_dims sub -> 0 <= a <= b -> b < 1024 ->
  (forall sub', sub_dims sub' ->
     (forall is_write c w, 0 <= c < 1024 -> 0 <= w < 3 ->
        rd2 (sides is_write sub') c w =
          if (a <=? c) && (c <=? b) then Some (mkSub (Some m) (zone_opaque s m) r) else rd2 (sides is_write sub) c w) ->
     Q 0 (s <| subpages := <[i := sub']> (subpages s) |>)) ->
  wp E (subpage_register i a b (m * 8 + sw) r) Q s.
Proof.
  intros Hwf Hp Hsw Hs Hd Hab Hb HQ. unfold subpage_register.
  destruct (Z.geb_spec a TARGET_PAGE_SIZE) as [Hge|_]; [change TARGET_PAGE_SIZE with 1024 in Hge; lia|].
  destruct (Z.geb_spec b TARGET_PAGE_SIZE) as [Hge|_]; [change TARGET_PAGE_SIZE with 1024 in Hge; lia|]. cbn [orb].
  rewrite !page_off_mod, (Z.mod_small a), (Z.mod_small b), zone_of_number by lia.
  destruct (Z.leb_spec a b); [|lia]. wp_step. wp_step.
  destruct (tab_row _ _ _ m (z_read _ Hwf) (proj1 Hp)) as (rs & Hrs & Hrl).
  destruct (tab_row _ _ _ m (z_write _ Hwf) (proj1 Hp)) as (ws & Hws & Hwl).
  wp_step. eapply deref_wp; [exact Hrs|]. wp_step. eapply deref_wp; [exact Hws|].
  wp_step. eapply deref_wp; [exact (opaque_at _ _ Hwf (proj1 Hp))|]. wp_step. eapply deref_wp; [exact Hs|].
  wp_step. wp_step. wp_step.
  assert (forall fs row, length fs = 4%nat -> length row = 4%nat -> length (route fs (zone_opaque s m) m r row) = 4%nat) as Hlen
    by (intros fs row H1 H2; unfold route; rewrite length_zip_with; lia).
  apply HQ.
  - intros is_write. specialize (Hd is_write). destruct is_write; simpl in *; apply route_dims; auto.
  - intros is_write c w Hc Hw. destruct Hp as (Hm & _ & Hpf). destruct (Hpf is_write w Hw) as (f & Hf & _).
    destruct (Hd is_write) as [Hl HF].
    destruct (rd_Some (sides is_write sub) c) as (row & Hrow & _); [lia|].
    assert (length row = 4%nat) as Hr4 by by eapply (rd_Forall (fun row => length row = 4%nat)).
    destruct (rd_Some row w) as (e & He & _); [lia|].
    rewrite !rd2_rows. destruct is_write; simpl in *; rewrite route_bytes_rd, Hrow; cbn;
      (destruct ((a <=? c) && (c <=? b)); [|done]); unfold route; rewrite route_lookup, He; cbn;
      unfold fn_at, rd2 in Hf; [rewrite Hws in Hf; cbn in Hf; destruct (rd ws w)|rewrite Hrs in Hf; cbn in Hf; destruct (rd rs w)];
      cbn in Hf |- *; try done; by subst.
Qed.

(** ** A new subpage *)
(** The zones in use keep their functions. *)
Definition keeps (s s' : physmem) : Prop := forall z, plain s z ->
  plain s' z /\ (forall is_write w, 0 <= w < 3 -> zone_fn is_write s' z w = zone_fn is_write s z w) /\ zone_opaque s' z = zone_opaque s z.
Lemma keeps_refl s : keeps s s.
Proof. by intros z Hz. Qed.
Lemma keeps_trans s1 s2 s3 : keeps s1 s2 -> keeps s2 s3 -> keeps s1 s3.
Proof.
  intros H1 H2 z Hz. destruct (H1 z Hz) as (P1 & F1 & O1). destruct (H2 z P1) as (P2 & F2 & O2).
  split; [done|]. split; [|congruence]. intros is_write w Hw. by rewrite F2, F1.
Qed.
(** States with the same table of zones. *)
Definition same_zones (s s' : physmem) : Prop :=
  io_mem_read s' = io_mem_read s /\ io_mem_write s' = io_mem_write s /\ io_mem_opaque s' = io_mem_opaque s /\ io_mem_used s' = io_mem_used s.
Lemma same_zones_tables s s' is_write : same_zones s s' -> tables is_write s' = tables is_write s.
Proof. intros (H1 & H2 & _). by destruct is_write. Qed.
Lemma same_zones_keeps s s' : same_zones s s' -> keeps s s'.
Proof.
  intros Hs z Hz. pose proof (fun b => same_zones_tables s s' b Hs) as Ht. destruct Hs as (_ & _ & Ho & Hu).
  unfold plain, zone_fn, zone_opaque. rewrite Hu, Ho. destruct Hz as (Hz1 & Hz2 & Hz3). split_and!; [lia|lia|done| | |done].
  - intros is_write w Hw. rewrite Ht. by apply Hz3.
  - intros is_write w Hw. by rewrite Ht.
Qed.
Lemma same_zones_sub_zone s s' k i : same_zones s s' -> sub_zone s k i -> sub_zone s' k i.
Proof.
  intros Hs (Hk & Hu & Ho & Hf). pose proof (fun b => same_zones_tables s s' b Hs) as Ht. destruct Hs as (_ & _ & Eo & Eu).
  unfold sub_zone. rewrite Eo, Eu. split_and!; [lia|lia|done|done|]. intros is_write w Hw. rewrite Ht. by apply Hf.
Qed.
Lemma entry_keeps s s' sub is_write b w z r : keeps s s' -> plain s z -> entry_is s sub is_write b w z r -> entry_is s' sub is_write b w z r.
Proof. intros Hk Hz. unfold entry_is. destruct (Hk z Hz) as (_ & _ & ->). done. Qed.

Lemma zone_set_fn s s' k mr mw o is_write a w : zone_set s s' k mr mw o -> 0 <= w < 3 ->
  fn_at (tables is_write s') a w = if a =? k then fns_at (if is_write then mw else mr) w else fn_at (tables is_write s) a w.
Proof.
  intros Hset Hw. pose proof (s_row _ _ _ _ _ _ Hset a w) as H. unfold zone_row in H.
  destruct (Z.leb_spec 0 w), (Z.ltb_spec w 3); try lia. rewrite !andb_true_r in H.
  unfold fn_at, fns_at. destruct is_write; cbn [tables]; destruct (a =? k); injection H as E1 E2; rewrite ?E1, ?E2; done.
Qed.
Lemma zone_set_keeps s s' k mr mw o : zone_set s s' k mr mw o -> rd (io_mem_used s) k = Some false ->
  wr (io_mem_used s) k true = Some (io_mem_used s') -> keeps s s'.
Proof.
  intros Hset Hfree Hu z (Hz & Hzu & Hf).
  assert (z <> k) as Hne by congruence.
  assert (forall is_write w, 0 <= w < 3 -> fn_at (tables is_write s') z w = fn_at (tables is_write s) z w) as Ht.
  { intros is_write w Hw. rewrite (zone_set_fn _ _ _ _ _ _ _ _ _ Hset Hw). by destruct (Z.eqb_spec z k). }
  split; [|split].
  - split; [done|]. split; [rewrite (rd_wr _ _ _ _ _ Hu); by destruct (Z.eqb_spec k z)|].
    intros is_write w Hw. rewrite Ht by done. by apply Hf.
  - intros is_write w Hw. unfold zone_fn. by rewrite Ht.
  - unfold zone_opaque. rewrite (s_opq _ _ _ _ _ _ Hset). by destruct (Z.eqb_spec k z).
Qed.

(** The page [n] is the subpage [sub] (its object [i], its zone [k]). *)
Record shared (s : physmem) (n k : Z) (i : nat) (sub : subpage_t) : Prop := mkShared {
  sh_zone : sub_zone s k i;
  sh_sub : subpages s !! i = Some sub;
  sh_ok : sub_ok s sub
}.
Definition entries_from (s : physmem) (old new : subpage_t) (a b m r : Z) : Prop :=
  forall is_write c w, 0 <= c < 1024 -> 0 <= w < 3 ->
    rd2 (sides is_write new) c w =
      if (a <=? c) && (c <=? b) then Some (mkSub (Some m) (zone_opaque s m) r) else rd2 (sides is_write old) c w.
Record part_done (s : physmem) (n a b m r : Z) (old : subpage_t) (k : Z) (i : nat) (s' : physmem) (new : subpage_t) : Prop := mkPart {
  p_wf : zones_wf s' /\ pages_wf s';
  p_keeps : keeps s s';
  p_shared : shared s' n k i new;
  p_new : entries_from s old new a b m r;
  p_desc : desc_at s' n = Some (mkPage (k * 8 + 2) 0);
  p_frame : forall j, same_page n j = false -> desc_at s' j = desc_at s j
}.

Lemma zones_l1 s l1 : zones_wf s -> zones_wf (with_l1 s l1).
Proof. by intros []. Qed.
Lemma zones_sub s l : zones_wf s -> zones_wf (s <| subpages := l |>).
Proof. by intros []. Qed.
Lemma sub_ok_keeps s s' sub : keeps s s' -> sub_ok s sub -> sub_ok s' sub.
Proof.
  intros Hk [Hd He]. split; [done|]. intros is_write b w Hb Hw. destruct (He is_write b w Hb Hw) as (z & r & Hz & H).
  exists z, r. split; [by apply Hk|]. by eapply entry_keeps.
Qed.

(** The tail both branches of the registration end in. *)
Lemma register_part_wp E n k i sub a b m r x s d (Q : Z -> physmem -> Prop) :
  zones_wf s -> pages_wf s -> plain s m -> 0 <= a <= b -> b < 1024 ->
  desc_at s n = Some d -> phys_offset d = k * 8 + 2 -> sub_zone s k i -> subpages s !! i = Some sub -> sub_ok s sub ->
  (forall s' sub', part_done s n a b m r sub k i s' sub' -> Q x s') ->
  wp E (subpage_register i a b (m * 8) r ;; set_page (page_index n) (fun d => d <| region_offset := 0 |>) ;; mret x) Q s.
Proof.
  intros Hz Hp Hm Hab Hb Hd Hdp Hsz Hsub [Hdim Hent] HQ. wp_step.
  replace (m * 8) with (m * 8 + 0) by lia.
  eapply subpage_register_wp; [done|done|lia|done|done|done|done|]. intros sub' Hdim' Hent'.
  set (s1 := s <| subpages := _ |>). wp_step.
  eapply (set_page_wp E n s1 d); [done|done|]. intros l1 s2 Hp2 Hd2. wp_step.
  assert (same_zones s s2) as Hsame by done. pose proof (same_zones_keeps _ _ Hsame) as Hk.
  eapply (HQ s2 sub'). split.
  - split; [|done]. by apply zones_l1, zones_sub.
  - done.
  - split; [by eapply same_zones_sub_zone| |].
    + simpl. apply list_lookup_insert_eq. by eapply lookup_lt_Some.
    + apply (sub_ok_keeps s); [done|]. split; [done|]. intros is_write c w Hc Hw.
      unfold entry_is. rewrite Hent' by done. destruct (_ && _); [by exists m, r|by apply Hent].
  - done.
  - rewrite Hd2. unfold same_page. rewrite Z.eqb_refl. destruct d; simpl in *. by subst.
  - intros j Hj. rewrite Hd2, Hj. done.
Qed.

Lemma subpage_init_wp E n base z0 r0 s d (Q : nat -> physmem -> Prop) :
  zones_wf s -> pages_wf s -> plain s z0 -> first_free (io_mem_used s) 0 <> None -> desc_at s n = Some d ->
  (forall s' k i sub, zones_wf s' -> pages_wf s' -> keeps s s' -> sub_zone s' k i -> subpages s' !! i = Some sub ->
     sub_dims sub ->
     (forall is_write b w, 0 <= b < 1024 -> 0 <= w < 3 -> entry_is s sub is_write b w z0 r0) ->
     desc_at s' n = Some (mkPage (k * 8 + 2) (region_offset d)) ->
     (forall j, same_page n j = false -> desc_at s' j = desc_at s j) -> Q i s') ->
  wp E (subpage_init base (page_index n) (z0 * 8) r0) Q s.
Proof.
  intros Hz Hp Hz0 Hfree Hd HQ. unfold subpage_init. wp_step. wp_step. wp_step. wp_step.
  set (i := length (subpages s)). set (s1 := s <| subpages := _ |>).
  assert (zones_wf s1) as Hz1 by by apply zones_sub.
  wp_step. apply register_zone_wp; [done|done|done| |done].
  intros k s2 Hf Hk Hset Hu. pose proof (first_free_spec (io_mem_used s1) 0) as F. rewrite Hf in F.
  destruct F as (_ & Hkf & _). rewrite Z.sub_0_r in Hkf.
  assert (keeps s s2) as Hk2.
  { eapply keeps_trans; [by apply (same_zones_keeps s s1)|]. by eapply zone_set_keeps. }
  assert (Hsub2 : subpages s2 = subpages s ++ [new_subpage base]) by apply (r_sub _ _ (s_rest _ _ _ _ _ _ Hset)).
  assert (Hl2 : l1_phys_map s2 = l1_phys_map s) by apply (r_l1 _ _ (s_rest _ _ _ _ _ _ Hset)).
  assert (forall j, desc_at s2 j = desc_at s j) as Hd2 by (intros j; unfold desc_at, page_desc; by rewrite Hl2).
  assert (pages_wf s2) as Hp2 by (destruct Hp; split; by rewrite Hl2).
  assert (sub_zone s2 k i) as Hsz.
  { split; [done|]. split; [rewrite (rd_wr _ _ _ _ _ Hu); by rewrite Z.eqb_refl|].
    split; [rewrite (s_opq _ _ _ _ _ _ Hset); by rewrite Z.eqb_refl|].
    intros is_write w Hw. rewrite (zone_set_fn _ _ _ _ _ _ is_write k w Hset Hw), Z.eqb_refl.
    assert (w = 0 \/ w = 1 \/ w = 2) as [->|[->| ->]] by lia; by destruct is_write. }
  change (subwidth_of (three subpage_access) (three subpage_access)) with 0. rewrite Z.add_0_r.
  assert (wrap 64 (Z.lor (k * 8) IO_MEM_SUBPAGE) = k * 8 + 2) as ->.
  { change (k * 8) with (k * 2 ^ 3). rewrite or_disjoint by done. rewrite wrap_fits; [done|].
    unfold fits. change (2 ^ 64) with 18446744073709551616. change IO_MEM_SUBPAGE with 2. lia. }
  wp_step. eapply (set_page_wp E n s2 d); [done|by rewrite Hd2|]. intros l1 s3 Hp3 Hd3.
  assert (same_zones s2 s3) as Hsame by done. pose proof (same_zones_keeps _ _ Hsame) as Hk3.
  assert (keeps s s3) as Hks by by eapply keeps_trans.
  wp_step. change (TARGET_PAGE_SIZE - 1) with 1023. replace (z0 * 8) with (z0 * 8 + 0) by lia.
  assert (forall is_write, sides is_write (new_subpage base) = replicate 1024 (replicate 4 null_entry)) as Hnew by by intros [].
  eapply (subpage_register_wp E i (new_subpage base));
    [apply zones_l1, (s_wf _ _ _ _ _ _ Hset)|by apply Hks|lia| |intros is_write; rewrite Hnew|lia|lia|].
  - simpl. rewrite Hsub2. unfold i. by rewrite lookup_app_r, Nat.sub_diag by lia.
  - rewrite length_replicate. split; [done|]. apply Forall_replicate. by rewrite length_replicate.
  - intros sub' Hdim Hent. wp_step. destruct (Hks z0 Hz0) as (_ & _ & Ho0).
    eapply (HQ _ k i sub').
    + apply zones_sub, zones_l1, (s_wf _ _ _ _ _ _ Hset).
    + done.
    + by eapply keeps_trans; [|apply same_zones_keeps].
    + by eapply same_zones_sub_zone; [|exact Hsz].
    + simpl. apply list_lookup_insert_eq. rewrite Hsub2, length_app. unfold i. simpl. lia.
    + done.
    + intros is_write b w Hb Hw. unfold entry_is. rewrite Hent by done. rewrite Ho0.
      by destruct (Z.leb_spec 0 b), (Z.leb_spec b 1023); try lia.
    + change (desc_at s3 n = Some (mkPage (k * 8 + 2) (region_offset d))). rewrite Hd3. unfold same_page. by rewrite Z.eqb_refl.
    + intros j Hj. change (desc_at s3 j = desc_at s j). by rewrite Hd3, Hj, Hd2.
Qed.

(** ** Where the bytes of a shared page lead *)
Lemma shared_target is_write s n k i sub w addr z r :
  zones_wf s -> shared s n k i sub -> desc_at s (addr / 1024) = Some (mkPage (k * 8 + 2) 0) -> 0 <= w < 3 -> plain s z ->
  entry_is s sub is_write (addr mod 1024) w z r ->
  io_target is_write s w addr = Ok (zone_fn is_write s z w, zone_opaque s z, wrap 64 (addr mod 1024 + r)).
Proof.
  intros Hwf [Hz Hs Hok] Hd Hw Hp He. unfold io_target. rewrite Hd. cbn [pd_of io_addr phys_offset region_offset].
  rewrite io_zone_number by (apply Hz || lia). rewrite page_off_mod, Z.add_0_r.
  pose proof (Z.mod_pos_bound addr 1024 ltac:(lia)) as Hb.
  rewrite (wrap_fits 64 (addr mod 1024)) by (unfold fits; lia).
  eapply sub_target; [done..|]. by rewrite Z.mod_mod by lia.
Qed.
Lemma part_target s n a b m r old k i s' new is_write w addr :
  part_done s n a b m r old k i s' new -> plain s m -> 0 <= w < 3 -> addr / 1024 = n ->
  let c := addr mod 1024 in
  (a <= c <= b -> io_target is_write s' w addr = Ok (zone_fn is_write s m w, zone_opaque s m, wrap 64 (c + r))) /\
  (~ (a <= c <= b) -> forall z q, plain s z -> entry_is s old is_write c w z q ->
     io_target is_write s' w addr = Ok (zone_fn is_write s z w, zone_opaque s z, wrap 64 (c + q))).
Proof.
  intros [[Hwf _] Hk Hsh Hnew Hd _] Hm Hw Hn c.
  pose proof (Z.mod_pos_bound addr 1024 ltac:(lia)) as Hb. fold c in Hb.
  specialize (Hnew is_write c w Hb Hw).
  assert (forall z q, plain s z -> rd2 (sides is_write new) c w = Some (mkSub (Some z) (zone_opaque s z) q) ->
    io_target is_write s' w addr = Ok (zone_fn is_write s z w, zone_opaque s z, wrap 64 (c + q))) as Hgo.
  { intros z q Hz He. destruct (Hk z Hz) as (Hz' & Hf & Ho). rewrite <- Ho, <- Hf by done.
    eapply shared_target; [done|exact Hsh|by rewrite Hn|done|done|]. unfold entry_is. by rewrite Ho. }
  split.
  - intros Hc. apply Hgo; [done|]. rewrite Hnew. by destruct (Z.leb_spec a c), (Z.leb_spec c b); try lia.
  - intros Hc z q Hz He. apply Hgo; [done|]. rewrite Hnew.
    destruct (Z.leb_spec a c), (Z.leb_spec c b); try lia; done.
Qed.

(** ** Registering a part of a page *)
(** A page without RAM or ROM: unassigned, one zone, or a subpage already. *)
Definition io_page (s : physmem) (n : Z) : Prop :=
  match desc_at s n with
  | None => True
  | Some d => (exists z, phys_offset d = z * 8 /\ plain s z) \/
              (exists k i sub, d = mkPage (k * 8 + 2) 0 /\ shared s n k i sub)
  end.
Definition unassigned_zone (s : physmem) : Prop :=
  plain s 2 /\ forall is_write w, 0 <= w < 3 -> zone_fn is_write s 2 w = unassigned_mem w.
(** The same access, up to the address an unassigned access is given. *)
Definition same_access (t1 t2 : outcome (fn * opaque_ptr * Z)) : Prop :=
  exists f o a1 a2, t1 = Ok (f, o, a1) /\ t2 = Ok (f, o, a2) /\ (a1 = a2 \/ exists w, f = unassigned_mem w).

(** The page after a part of it got zone [m]. *)
Record part_registered (s s' : physmem) (start size m region : Z) : Prop := mkPartReg {
  pr_zones : zones_wf s';
  pr_pages : pages_wf s';
  pr_keeps : keeps s s';
  pr_page : io_page s' (start / 1024);
  pr_in : forall is_write w addr, 0 <= w < 3 -> addr / 1024 = start / 1024 -> start <= addr < start + size ->
    io_target is_write s' w addr = Ok (zone_fn is_write s m w, zone_opaque s m, wrap 64 (addr mod 1024 + region));
  pr_out : forall is_write w addr, 0 <= w < 3 -> addr / 1024 = start / 1024 -> ~ (start <= addr < start + size) ->
    same_access (io_target is_write s' w addr) (io_target is_write s w addr);
  pr_frame : forall j, same_page (start / 1024) j = false -> mapping s' j = mapping s j
}.

Lemma page_range start size addr : addr / 1024 = start / 1024 ->
  start <= addr < start + size <-> start mod 1024 <= addr mod 1024 <= start mod 1024 + size - 1.
Proof. intros H. pose proof (Z.div_mod addr 1024). pose proof (Z.div_mod start 1024). lia. Qed.
Lemma check_part start size :
  fits 64 start -> 0 < size < 1024 -> start mod 1024 + size <= 1024 -> start + 1024 <= 2 ^ 64 ->
  CHECK_SUBPAGE start size start = (start mod 1024, start mod 1024 + size - 1, true).
Proof.
  intros Hst Hsz Hp Hmax. unfold CHECK_SUBPAGE.
  destruct (Z.gtb_spec start start); [lia|]. rewrite !page_off_mod. change TARGET_PAGE_SIZE with 1024.
  pose proof (Z.mod_pos_bound start 1024). unfold fits in Hst.
  assert (wrap 64 (wrap 64 (start + size) - start) = size) as ->.
  { rewrite (wrap_fits 64 (start + size)) by (unfold fits; lia). rewrite wrap_fits by (unfold fits; lia). lia. }
  destruct (Z.geb_spec size 1024); [lia|].
  assert (wrap 64 (start + size - 1) mod 1024 = start mod 1024 + size - 1) as ->.
  { rewrite wrap_fits by (unfold fits; lia). pose proof (Z.div_mod start 1024).
    symmetry. apply (Z.mod_unique _ _ (start / 1024)); lia. }
  f_equal. destruct (Z.gtb_spec (start mod 1024) 0), (Z.ltb_spec (start mod 1024 + size - 1) (1024 - 1)); try done; lia.
Qed.
Lemma zone_not_ram m : 3 <= m < 128 -> advances (m * 8) = false /\ (m * 8 =? IO_MEM_UNASSIGNED) = false /\
  truth (Z.land (m * 8) IO_MEM_SUBPAGE) = false.
Proof.
  intros Hm. unfold advances. rewrite page_off_mod, Z.mod_small by lia.
  split_and!.
  - apply orb_false_iff. split; [apply Z.leb_gt; change IO_MEM_ROM with 8; lia|].
    change IO_MEM_ROMD with (bit 0). rewrite truth_land_bit by lia. change (m * 8) with (m * 2 ^ 3).
    by rewrite Z.mul_pow2_bits_low.
  - apply Z.eqb_neq. change IO_MEM_UNASSIGNED with 16. lia.
  - change IO_MEM_SUBPAGE with (bit 1). rewrite truth_land_bit by lia. change (m * 8) with (m * 2 ^ 3).
    by rewrite Z.mul_pow2_bits_low.
Qed.

Lemma part_finish s s0 s' start size m region k i old new :
  plain s m -> keeps s s0 ->
  part_done s0 (start / 1024) (start mod 1024) (start mod 1024 + size - 1) m region old k i s' new ->
  (forall is_write w addr, 0 <= w < 3 -> addr / 1024 = start / 1024 -> exists z q, plain s z /\
     entry_is s0 old is_write (addr mod 1024) w z q /\
     same_access (Ok (zone_fn is_write s z w, zone_opaque s z, wrap 64 (addr mod 1024 + q))) (io_target is_write s w addr)) ->
  (forall j, same_page (start / 1024) j = false -> mapping s0 j = mapping s j) ->
  part_registered s s' start size m region.
Proof.
  intros Hm Hk Hpd Hold Hfr. destruct (Hk m Hm) as (Hm0 & Hf0 & Ho0).
  assert (keeps s s') as Hks by (eapply keeps_trans; [exact Hk|apply (p_keeps _ _ _ _ _ _ _ _ _ _ _ Hpd)]).
  split; [apply Hpd|apply Hpd|done| | | |].
  - unfold io_page. rewrite (p_desc _ _ _ _ _ _ _ _ _ _ _ Hpd). right. exists k, i, new. split; [done|apply Hpd].
  - intros is_write w addr Hw Hn Hr. apply (page_range _ _ _ Hn) in Hr.
    destruct (part_target _ _ _ _ _ _ _ _ _ _ _ is_write w addr Hpd Hm0 Hw Hn) as [Hin _].
    rewrite Hin by done. by rewrite Hf0, Ho0.
  - intros is_write w addr Hw Hn Hr. rewrite (page_range _ _ _ Hn) in Hr.
    destruct (part_target _ _ _ _ _ _ _ _ _ _ _ is_write w addr Hpd Hm0 Hw Hn) as [_ Hout].
    destruct (Hold is_write w addr Hw Hn) as (z & q & Hz & He & Hsame).
    destruct (Hk z Hz) as (Hz0 & Hfz & Hoz). rewrite (Hout Hr z q Hz0 He). by rewrite Hfz, Hoz.
  - intros j Hj. rewrite <- Hfr by done. unfold mapping. by rewrite (p_frame _ _ _ _ _ _ _ _ _ _ _ Hpd j Hj).
Qed.

Lemma same_access_refl f o a : same_access (Ok (f, o, a)) (Ok (f, o, a)).
Proof. exists f, o, a, a. split; [done|]. split; [done|]. by left. Qed.
Lemma desc_mapping s s' j : desc_at s' j = desc_at s j -> mapping s' j = mapping s j.
Proof. unfold mapping. by intros ->. Qed.
Lemma zone_bit z : 0 <= z -> truth (Z.land (z * 8) IO_MEM_SUBPAGE) = false /\ truth (Z.land (z * 8 + 2) IO_MEM_SUBPAGE) = true.
Proof.
  intros Hz. change IO_MEM_SUBPAGE with (bit 1). rewrite !truth_land_bit by lia.
  change (z * 8) with (z * 2 ^ 3). rewrite <- (or_disjoint z 2 3) by done. rewrite Z.lor_spec.
  by rewrite Z.mul_pow2_bits_low.
Qed.

(** The page has a subpage of its own from now on: it was unassigned, or one zone. *)
Lemma split_page_wp E start size m region base z0 r0 s s1 d x (Q : Z -> physmem -> Prop) :
  let n := start / 1024 in
  zones_wf s1 -> pages_wf s1 -> plain s m -> keeps s s1 -> plain s z0 ->
  first_free (io_mem_used s1) 0 <> None -> desc_at s1 n = Some d -> 0 < size -> start mod 1024 + size <= 1024 ->
  (forall is_write w addr, 0 <= w < 3 -> addr / 1024 = n ->
     same_access (Ok (zone_fn is_write s z0 w, zone_opaque s z0, wrap 64 (addr mod 1024 + r0))) (io_target is_write s w addr)) ->
  (forall j, same_page n j = false -> mapping s1 j = mapping s j) ->
  (forall s', part_registered s s' start size m region -> Q x s') ->
  wp E (subpage ← subpage_init base (page_index n) (z0 * 8) r0;
        subpage_register subpage (start mod 1024) (start mod 1024 + size - 1) (m * 8) region ;;
        set_page (page_index n) (fun d => d <| region_offset := 0 |>) ;; mret x) Q s1.
Proof.
  intros n Hz Hp Hm Hk Hz0 Hfree Hd Hsz Hin Hsame Hfr HQ.
  destruct (Hk z0 Hz0) as (Hz1 & _ & _). pose proof (Z.mod_pos_bound start 1024).
  wp_step. eapply subpage_init_wp; [done..|].
  intros s2 k i sub Hzf Hpf Hk2 Hsz2 Hsub Hdim Hent Hd2 Hfr2.
  assert (keeps s s2) as Hks by by eapply keeps_trans.
  assert (sub_ok s2 sub) as Hok.
  { split; [done|]. intros is_write b w Hb Hw. exists z0, r0. destruct (Hk2 z0 Hz1) as (Hz2 & _ & Ho2).
    split; [done|]. apply (entry_keeps s1); [done|done|by apply Hent]. }
  eapply register_part_wp; [done|done|by apply Hks|lia|lia|exact Hd2|done|done|done|done|].
  intros s' sub' Hpd. apply HQ. eapply (part_finish s s2); [done|done|exact Hpd| |].
  - intros is_write w addr Hw Hn. exists z0, r0. split; [done|]. split; [|by apply Hsame].
    apply (entry_keeps s1); [done|done|]. apply Hent; [apply Z.mod_pos_bound; lia|done].
  - intros j Hj. rewrite <- Hfr by done. by apply desc_mapping, Hfr2.
Qed.

Lemma io_target_flush is_write s w addr n : io_target is_write (s <| tlb_flushes := n |>) w addr = io_target is_write s w addr.
Proof.
  assert (forall fuel f o a, subpage_target fuel is_write (s <| tlb_flushes := n |>) f o a = subpage_target fuel is_write s f o a) as H.
  { induction fuel as [|fuel IH]; intros f o a; destruct f; try done. cbn [subpage_target].
    change (subpages (s <| tlb_flushes := n |>)) with (subpages s).
    change (tables is_write (s <| tlb_flushes := n |>)) with (tables is_write s).
    destruct (_ ≫= _) as [[f e]|]; [apply IH|done]. }
  unfold io_target, zone_target. change (desc_at (s <| tlb_flushes := n |>)) with (desc_at s).
  change (subpages (s <| tlb_flushes := n |>)) with (subpages s).
  change (tables is_write (s <| tlb_flushes := n |>)) with (tables is_write s).
  change (io_mem_opaque (s <| tlb_flushes := n |>)) with (io_mem_opaque s).
  destruct (fn_at _ _ _); [|done]. destruct (rd _ _); [apply H|done].
Qed.
Lemma part_registered_flush s s' start size m region n :
  part_registered s s' start size m region -> part_registered s (s' <| tlb_flushes := n |>) start size m region.
Proof.
  intros [[Z1 Z2 Z3 Z4] H2 H3 H4 H5 H6 H7]. split; [by split|exact H2|exact H3| | | |exact H7].
  2, 3: intros is_write w addr; rewrite io_target_flush; auto.
  unfold io_page in *. change (desc_at (s' <| tlb_flushes := n |>) (start / 1024)) with (desc_at s' (start / 1024)).
  destruct (desc_at s' (start / 1024)) as [d|]; [|done].
  destruct H4 as [H4|(k & i & sub & -> & [S1 S2 S3])]; [left; exact H4|right].
  exists k, i, sub. split; [done|]. split; [exact S1|exact S2|exact S3].
Qed.

Section Part.
  Context (s : physmem) (start size m region : Z).
  Context (Hz : zones_wf s) (Hp : pages_wf s) (Hun : unassigned_zone s) (Hm : plain s m) (Hm3 : 3 <= m).
  Context (Hst : fits 64 start) (Hsz : 0 < size < 1024) (Hin : start mod 1024 + size <= 1024) (Hmax : start + 1024 <= 2 ^ 64).
  Context (Hfree : first_free (io_mem_used s) 0 <> None).

Lemma part_unassigned x :
  mapping s (start / 1024) = None -> io_page s (start / 1024) -> x = m * 8 ->
  wp no_err (register_unassigned start (start mod 1024) (start mod 1024 + size - 1) true (m * 8) region)
    (fun r s' => r = x /\ part_registered s s' start size m region) s.
Proof.
  intros Hmap Hio ->. unfold register_unassigned. rewrite page_number. set (n := start / 1024) in *.
  destruct (zone_not_ram m) as (Ha & _ & _); [destruct Hm; lia|]. rewrite Ha.
  wp_step. apply find_alloc_wp; [done|]. intros l1 d s1 Hp1 Hm1 Hd1. wp_step. wp_step. wp_step.
  eapply set_page_wp; [done|exact Hd1|]. intros l2 s2 Hp2 Hd2. rewrite orb_true_l. cbn [when].
  assert (same_zones s s2) as Hsame by done.
  assert (forall E (k : MEM nat) b i (Q : Z -> physmem -> Prop),
    wp E (subpage ← k; subpage_register subpage b i (m * 8) region ;;
          set_page (page_index n) (fun d => d <| region_offset := 0 |>) ;; mret (m * 8)) Q s2 ->
    wp E ((subpage ← k; subpage_register subpage b i (m * 8) region ;;
           set_page (page_index n) (fun d => d <| region_offset := 0 |>)) ;; mret (m * 8)) Q s2) as Hassoc.
  { intros E k b i Q H. unfold wp, mbind, ST_bind in *. destruct (k s2) as [[a s3]|]; [|done].
    destruct (subpage_register a b i (m * 8) region s3) as [[a2 s4]|]; done. }
  apply Hassoc. change IO_MEM_UNASSIGNED with (2 * 8).
  destruct Hun as [Hp0 Hf0].
  eapply (split_page_wp no_err start size m region (page_down start) 2 (page_down start) s s2).
  - by apply zones_l1, zones_l1.
  - done.
  - done.
  - by apply same_zones_keeps.
  - done.
  - done.
  - rewrite Hd2. unfold same_page. by rewrite Z.eqb_refl.
  - lia.
  - done.
  - intros is_write w addr Hw Hn. rewrite Hf0 by done. unfold io_target. rewrite Hn. fold n.
    assert (io_zone (pd_of (desc_at s n)) = 2) as ->.
    { unfold mapping in Hmap. unfold io_page in Hio. destruct (desc_at s n) as [d0|]; [|done]. simpl in Hmap |- *.
      destruct (Z.eqb_spec (phys_offset d0) IO_MEM_UNASSIGNED) as [->|]; [done|by destruct d0]. }
    rewrite zone_target_plain, Hf0 by done. do 4 eexists. split; [done|]. split; [done|]. right. by eexists.
  - intros j Hj. transitivity (mapping s1 j); [|apply Hm1]. apply desc_mapping. rewrite Hd2; unfold n; by rewrite Hj.
  - done.
Qed.

Lemma part_assigned d x :
  desc_at s (start / 1024) = Some d -> phys_offset d <> IO_MEM_UNASSIGNED -> io_page s (start / 1024) -> x = m * 8 ->
  wp no_err (register_assigned start (page_index (start / 1024)) d (start mod 1024) (start mod 1024 + size - 1) true (m * 8) region)
    (fun r s' => r = x /\ part_registered s s' start size m region) s.
Proof.
  intros Hd Hne Hio ->. unfold register_assigned. rewrite orb_true_l.
  unfold io_page in Hio. rewrite Hd in Hio. destruct Hio as [(z & Hpo & Hz0)|(k & i & sub & Ed & Hsh)].
  - rewrite Hpo. destruct (zone_bit z) as [-> _]; [apply Hz0|]. cbn [negb].
    eapply (split_page_wp no_err start size m region _ z (region_offset d) s s); try done; [lia|].
    intros is_write w addr Hw Hn. unfold io_target. rewrite Hn, Hd. cbn [pd_of io_addr]. rewrite Hpo.
    replace (z * 8) with (z * 8 + 0) by lia. rewrite io_zone_number by (apply Hz0 || lia).
    rewrite zone_target_plain, page_off_mod by done. apply same_access_refl.
  - rewrite Ed. cbn [phys_offset]. pose proof (sh_zone _ _ _ _ _ Hsh) as Hsz0. destruct (zone_bit k) as [_ ->]; [apply Hsz0|].
    cbn [negb]. pose proof (Z.mod_pos_bound start 1024).
    assert (Z.shiftr (page_off (k * 8 + 2)) IO_MEM_SHIFT = k) as ->.
    { destruct Hsz0 as [Hk _]. rewrite page_off_mod, Z.mod_small by lia. by apply zone_of_number. }
    wp_step. wp_step. wp_step. wp_step. eapply deref_wp; [apply Hsz0|]. cbv beta iota. wp_step.
    eapply register_part_wp; [done|done|done|lia|lia|exact Hd|by rewrite Ed|done|apply Hsh|apply Hsh|].
    intros s' sub' Hpd. split; [done|]. eapply (part_finish s s); [done|apply keeps_refl|exact Hpd| |done].
    intros is_write w addr Hw Hn. pose proof (Z.mod_pos_bound addr 1024).
    destruct (sh_ok _ _ _ _ _ Hsh) as [_ Hent]. destruct (Hent is_write (addr mod 1024) w) as (z & q & Hz0 & He); [lia|done|].
    exists z, q. split; [done|]. split; [done|].
    rewrite (shared_target _ _ _ k i sub w addr z q Hz Hsh) by (by rewrite ?Hn, ?Hd, ?Ed). apply same_access_refl.
Qed.
End Part.

(** C7: registering a device on a part of one page succeeds and is exact, for a page that is
    unassigned, belongs as a whole to one device, or is already divided ([io_page]; not
    a page of RAM or ROM, on which the code indexes outside io_mem_read), a device with
    all its six functions ([plain]) and while a slot for a zone is free: accesses of every
    width to the bytes of the part end in the device's functions with its opaque pointer and
    the offset in the page plus the region offset; accesses to the other bytes of the page
    end where they did before, in the same function with the same address (an unassigned
    access may see another address); the other pages are not touched and the page can be
    divided again. *)
Theorem register_part s start size m region :
  zones_wf s -> pages_wf s -> unassigned_zone s -> plain s m -> 3 <= m ->
  fits 64 start -> 0 < size < 1024 -> start mod 1024 + size <= 1024 -> start + 1024 <= 2 ^ 64 -> fits 64 region ->
  first_free (io_mem_used s) 0 <> None -> io_page s (start / 1024) ->
  exists s', cpu_register_physical_memory_offset start size (m * 8) region s = Ok (tt, s') /\
    part_registered s s' start size m (page_down region).
Proof.
  intros Hz Hp Hun Hm Hm3 Hst Hsz Hin Hmax Hr Hfree Hio.
  destruct (zone_not_ram m) as (_ & Hu & _); [destruct Hm; lia|].
  assert (wp no_err (cpu_register_physical_memory_offset start size (m * 8) region) (fun _ s' =>
    part_registered s s' start size m (page_down region)) s) as H.
  { unfold cpu_register_physical_memory_offset. rewrite Hu. cbv zeta.
    assert (page_down (wrap 64 (size + TARGET_PAGE_SIZE - 1)) = 1024) as ->.
    { change TARGET_PAGE_SIZE with 1024. rewrite wrap_fits by (unfold fits; lia).
      rewrite page_down_mod by (unfold fits; lia).
      rewrite <- (Z.mod_unique (size + 1024 - 1) 1024 1 (size - 1)) by lia. lia. }
    change (Z.to_nat (1024 / TARGET_PAGE_SIZE)) with 1%nat. cbn [register_loop].
    pose proof (Z.mod_pos_bound start 1024).
    assert (wrap 64 (start + 1024) <> start) as Hne.
    { destruct (Z.eq_dec (start + 1024) (2 ^ 64)) as [E|E].
      - rewrite E. change (wrap 64 (2 ^ 64)) with 0. intros <-. done.
      - rewrite wrap_fits by (unfold fits in *; lia). lia. }
    destruct (Z.eqb_spec start (wrap 64 (start + 1024))); [congruence|]. change (start + TARGET_PAGE_SIZE) with (start + 1024).
    rewrite Z.eqb_refl.
    wp_step. wp_step. eapply (wp_mono _ _ (fun r s' => r = m * 8 /\ part_registered s s' start size m (page_down region))).
    2: { intros r s' [_ Hreg]. wp_step. wp_step. by apply part_registered_flush. }
    unfold register_page. rewrite check_part by done. rewrite page_number.
    wp_step. apply find_wp; [done|]. destruct (desc_at s (start / 1024)) as [d|] eqn:Hd.
    - wp_step. eapply get_page_wp; [exact Hd|].
      destruct (Z.eqb_spec (phys_offset d) IO_MEM_UNASSIGNED) as [E|E]; cbn [negb].
      + apply part_unassigned; try done. unfold mapping. rewrite Hd. cbn. by rewrite E.
      + by apply part_assigned.
    - apply part_unassigned; try done. unfold mapping. by rewrite Hd. }
  apply wp_total_ex in H as ([] & s' & He & Hres). by exists s'.
Qed.

(** ** The state after io_mem_init, with device 7 registered as zone 6 *)
Definition booted : physmem :=
  match (io_mem_init ;; cpu_register_io_memory (three (device_access 7)) (three (device_access 7)) (O_device 7)) phys_init with
  | Ok (_, s) => s | Err _ => phys_init end.
Lemma booted_plain z : z = 2 \/ z = 6 -> plain booted z.
Proof.
  intros Hz. split; [lia|]. split; [by destruct Hz as [-> | ->]; vm_compute|].
  intros is_write w Hw. assert (w = 0 \/ w = 1 \/ w = 2) as Hw' by lia.
  destruct Hz as [-> | ->], Hw' as [->|[-> | ->]], is_write; (eexists; split; [vm_compute; reflexivity|reflexivity]).
Qed.
Lemma booted_zones : zones_wf booted.
Proof.
  split; try split; try (vm_compute; reflexivity);
    (apply (bool_decide_unpack (Forall (fun row => length row = 4%nat) _)); vm_compute; exact I).
Qed.
Lemma booted_pages : pages_wf booted.
Proof.
  assert (l1_phys_map booted = replicate 4096 None) as E by (vm_compute; reflexivity).
  split; rewrite E; [by rewrite length_replicate|by apply Forall_replicate].
Qed.
Example register_part_witness :
  exists s', cpu_register_physical_memory_offset 0x70000100 0x80 (6 * 8) 0 booted = Ok (tt, s') /\
    part_registered booted s' 0x70000100 0x80 6 0.
Proof.
  apply (register_part booted 0x70000100 0x80 6 0);
    [exact booted_zones|exact booted_pages| |apply booted_plain; lia|lia|done|done|by vm_compute|by vm_compute|done| |].
  - split; [apply booted_plain; lia|]. intros is_write w Hw. assert (w = 0 \/ w = 1 \/ w = 2) as [->|[->| ->]] by lia;
      destruct is_write; vm_compute; reflexivity.
  - intros H. vm_compute in H. discriminate H.
  - assert (desc_at booted (0x70000100 / 1024) = None) as E by (vm_compute; reflexivity). unfold io_page. by rewrite E.
Defined.
