(* ===== verification/PhysIo.v ===== *)
(** * PhysIo: how a buffer is cut into device accesses

    cpu_physical_memory_rw on a page of a device calls the device with 4, 2 or 1 bytes at a
    time.  [covers] says what a sequence of accesses has to be: consecutive, each aligned to
    its own size, the bytes of the buffer in order and each of them exactly once. *)
From S2P Require Import Prelude Physmem PhysPages PhysZones PhysAccess PhysRam PhysRw PhysSubpages.
From stdpp Require Import sets.
#[local] Open Scope Z_scope.

(** Accesses as address, width (0, 1, 2 for 1, 2, 4 bytes) and value. *)
Abbreviation access := (Z * Z * Z)%type.
Inductive covers : Z -> list Z -> list access -> Prop :=
| covers_nil a : covers a [] []
| covers_cons a w bs v rest log :
    0 <= w < 3 -> length bs = bytes_of w -> a mod 2 ^ w = 0 -> le_value bs = v mod 2 ^ (8 * 2 ^ w) ->
    covers (a + 2 ^ w) rest log -> covers a (bs ++ rest) ((a, w, v) :: log).

Lemma access_width_spec l a : 0 < l ->
  0 <= access_width l a < 3 /\ 2 ^ access_width l a <= l /\ a mod 2 ^ access_width l a = 0.
Proof.
  intros Hl. unfold access_width.
  replace (Z.land a 3) with (a mod 2 ^ 2) by (change 3 with (Z.ones 2); by rewrite Z.land_ones).
  replace (Z.land a 1) with (a mod 2 ^ 1) by (change 1 with (Z.ones 1); by rewrite Z.land_ones).
  destruct (Z.geb_spec l 4), (Z.eqb_spec (a mod 2 ^ 2) 0), (Z.geb_spec l 2), (Z.eqb_spec (a mod 2 ^ 1) 0); simpl;
    split_and!; try lia; try done; apply Z.mod_1_r.
Qed.
Lemma bytes_of_pow w : 0 <= w < 3 -> Z.of_nat (bytes_of w) = 2 ^ w.
Proof. intros Hw. assert (w = 0 \/ w = 1 \/ w = 2) as [->|[-> | ->]] by lia; done. Qed.
Lemma le_value_bound bs : Forall (fun b => 0 <= b < 256) bs -> 0 <= le_value bs < 2 ^ (8 * Z.of_nat (length bs)).
Proof.
  induction 1 as [|b bs Hb _ IH]; [done|]. cbn [le_value foldr length]. change (foldr _ 0 ?l) with (le_value l).
  replace (8 * Z.of_nat (S (length bs))) with (8 + 8 * Z.of_nat (length bs)) by lia. rewrite Z.pow_add_r by lia. lia.
Qed.

Lemma nonempty {A} (l : list A) : l <> [] -> 0 < Z.of_nat (length l).
Proof. by destruct l; [|simpl; lia]. Qed.

Section Io.
  Context {D : Type} `{!Devices D}.
  Implicit Types s : machine D.

(** One call of a device function, and a sequence of them. *)
Definition call_write (f : fn) (o : opaque_ptr) (a v : Z) (d : D) : D :=
  match f with unassigned_mem _ => d | _ => dev_write f o a (wrap 32 v) d end.
Definition call_read (f : fn) (o : opaque_ptr) (a : Z) (d : D) : Z * D :=
  match f with unassigned_mem _ => (0, d) | _ => let '(v, d) := dev_read f o a d in (wrap 32 v, d) end.
Inductive reads_are (fs : Z -> fn) (o : opaque_ptr) : D -> list access -> D -> Prop :=
| reads_nil d : reads_are fs o d [] d
| reads_cons d a w log v d1 d2 : call_read (fs w) o a d = (v, d1) -> reads_are fs o d1 log d2 ->
    reads_are fs o d ((a, w, v) :: log) d2.

(** The page of [addr] belongs to the plain zone [z], with region offset [r]. *)
Definition device_page s (addr z r : Z) : Prop :=
  mem_wf s /\ zones_wf (pmem s) /\ plain (pmem s) z /\ 2 <= z /\ desc_at (pmem s) (addr / 1024) = Some (mkPage (z * 8) r).
(** The address the device sees. *)
Definition dev_addr (addr r : Z) : Z := addr mod 1024 + r.

Lemma device_pd z : 2 <= z < 128 -> is_ram (z * 8) = false /\ reads_io (z * 8) = true /\ io_zone (z * 8) = z.
Proof.
  intros Hz. unfold is_ram, reads_io. rewrite page_off_mod, Z.mod_small by lia. split_and!.
  - apply Z.eqb_neq. change IO_MEM_RAM with 0. lia.
  - apply andb_true_iff. split; [rewrite Z.gtb_lt; change IO_MEM_ROM with 8; lia|].
    change IO_MEM_ROMD with (bit 0). rewrite truth_land_bit by lia. change (z * 8) with (z * 2 ^ 3). by rewrite Z.mul_pow2_bits_low.
  - replace (z * 8) with (z * 8 + 0) by lia. apply io_zone_number; lia.
Qed.
Lemma io_write_wp E s z w a v (Q : unit -> machine D -> Prop) :
  zones_wf (pmem s) -> plain (pmem s) z -> 0 <= w < 3 ->
  Q tt (s <| devices := call_write (zone_fn true (pmem s) z w) (zone_opaque (pmem s) z) a v (devices s) |>) ->
  wp E (io_write z w a v) Q s.
Proof.
  intros Hz Hp Hw HQ. unfold io_write. wp_step. wp_step. rewrite zone_target_plain by done.
  cbn [from_outcome]. wp_step. wp_step. unfold call_write in HQ.
  destruct (zone_fn true (pmem s) z w); wp_step; try exact HQ. by destruct s.
Qed.
Lemma io_read_wp E s z w a (Q : Z -> machine D -> Prop) :
  zones_wf (pmem s) -> plain (pmem s) z -> 0 <= w < 3 ->
  (let '(v, d) := call_read (zone_fn false (pmem s) z w) (zone_opaque (pmem s) z) a (devices s) in Q v (s <| devices := d |>)) ->
  wp E (io_read z w a) Q s.
Proof.
  intros Hz Hp Hw HQ. unfold io_read. wp_step. wp_step. rewrite zone_target_plain by done.
  cbn [from_outcome]. wp_step. wp_step. unfold call_read in HQ.
  destruct (zone_fn false (pmem s) z w); [wp_step; by destruct s|..];
    (destruct (dev_read _ _ _ _) as [v d]; wp_step; wp_step; wp_step; exact HQ).
Qed.

(** One turn of the loop on a device page. *)
Lemma io_turn s addr buf z r :
  device_page s addr z r -> fits 64 addr -> 0 <= r -> dev_addr addr r + Z.of_nat (length buf) <= 2 ^ 64 -> buf <> [] ->
  addr mod 1024 + Z.of_nat (length buf) <= 1024 ->
  let a := dev_addr addr r in let w := access_width (Z.of_nat (length buf)) a in
  wp no_err (rw_turn addr buf true) (fun bs s' => bs = take (bytes_of w) buf /\
    s' = s <| devices := call_write (zone_fn true (pmem s) z w) (zone_opaque (pmem s) z) a (le_value bs) (devices s) |>) s /\
  wp no_err (rw_turn addr buf false) (fun bs s' => exists v d,
    call_read (zone_fn false (pmem s) z w) (zone_opaque (pmem s) z) a (devices s) = (v, d) /\
    bs = le_bytes (bytes_of w) v /\ s' = s <| devices := d |>) s.
Proof.
  intros (Hwf & Hz & Hp & Hz2 & Hd) Ha Hr Hmax Hne Hpage a w.
  destruct (device_pd z) as (Hram & Hio & Hzn); [destruct Hp; lia|].
  assert (0 < Z.of_nat (length buf)) as Hlen by (destruct buf; [done|simpl; lia]).
  pose proof (Z.mod_pos_bound addr 1024 ltac:(lia)) as Hb.
  assert (page_left addr (Z.of_nat (length buf)) = Z.of_nat (length buf)) as Hl by (rewrite page_left_spec by (done || lia); lia).
  assert (wrap 64 (page_off addr + r) = a) as Haddr.
  { unfold a, dev_addr in *. rewrite page_off_mod. apply wrap_fits. unfold fits. lia. }
  destruct (access_width_spec (Z.of_nat (length buf)) a Hlen) as (Hw & _ & _). fold w in Hw.
  split; unfold rw_turn; rewrite Hl; wp_step; (apply page_of_wp; [done|]); rewrite page_down_div, Hd by done;
    cbn [pd_of io_addr phys_offset region_offset]; rewrite Haddr, Hzn; fold w.
  - rewrite Hram. cbn [negb]. wp_step. apply io_write_wp; [done..|]. by wp_step.
  - rewrite Hio. wp_step. apply io_read_wp; [done..|].
    destruct (call_read _ _ _ _) as [v d] eqn:Ec. wp_step. by exists v, d.
Qed.

(** What the loop asks of its arguments. *)
Record io_range s (addr : Z) (n : nat) (z r : Z) : Prop := mkRange {
  g_page : device_page s addr z r;
  g_addr : fits 64 addr;
  g_region : 0 <= r;
  g_max : dev_addr addr r + Z.of_nat n <= 2 ^ 64;
  g_in : addr mod 1024 + Z.of_nat n <= 1024
}.
Lemma io_range_next s addr n k z r d : io_range s addr n z r -> (k < n)%nat ->
  wrap 64 (addr + Z.of_nat k) = addr + Z.of_nat k /\ dev_addr (addr + Z.of_nat k) r = dev_addr addr r + Z.of_nat k /\
  io_range (s <| devices := d |>) (addr + Z.of_nat k) (n - k) z r.
Proof.
  intros [(Hwf & Hz & Hp & Hz2 & Hd) Ha Hr Hmax Hin] Hk.
  destruct (same_page_div addr (Z.of_nat k)) as [H1 H2]; [lia|lia|].
  assert (addr + Z.of_nat k < 2 ^ 64) as Hlt.
  { pose proof (Z.div_mod addr 1024). pose proof (Z.mod_pos_bound addr 1024). unfold fits in Ha.
    change (2 ^ 64) with 18446744073709551616 in *. lia. }
  split; [apply wrap_fits; unfold fits in *; lia|]. unfold dev_addr in *. rewrite H2. split; [lia|].
  split; [|unfold fits in *; lia|done|unfold dev_addr; rewrite H2; lia|lia].
  unfold device_page. rewrite H1. by split_and!.
Qed.
Lemma loop_nil E fuel addr is_write s (Q : list Z -> machine D -> Prop) : Q [] s -> wp E (rw_loop fuel addr [] is_write) Q s.
Proof. intros HQ. by destruct fuel; simpl; wp_step. Qed.

(** One turn, then the rest of the buffer. *)
Lemma loop_step fuel addr buf is_write s z r (Q : list Z -> machine D -> Prop) (R : list Z -> D -> Prop) :
  io_range s addr (length buf) z r -> buf <> [] ->
  let n := bytes_of (access_width (Z.of_nat (length buf)) (dev_addr addr r)) in
  wp no_err (rw_turn addr buf is_write) (fun bs s' => exists d, length bs = n /\ R bs d /\ s' = s <| devices := d |>) s ->
  (forall bs d, R bs d -> length bs = n -> let s' := s <| devices := d |> in
     (length buf = n -> Q bs s') /\
     ((n < length buf)%nat -> io_range s' (addr + Z.of_nat n) (length (drop n buf)) z r ->
        wp no_err (rw_loop fuel (addr + Z.of_nat n) (drop n buf) is_write) (fun rest => Q (bs ++ rest)) s')) ->
  wp no_err (rw_loop (S fuel) addr buf is_write) Q s.
Proof.
  intros Hg Hne n Hturn Hrest.
  assert (n <= length buf)%nat as Hn.
  { destruct (access_width_spec (Z.of_nat (length buf)) (dev_addr addr r)) as (Hw & Hle & _); [by apply nonempty|].
    pose proof (bytes_of_pow _ Hw). unfold n. lia. }
  destruct buf as [|b0 buf]; [exfalso; exact (Hne eq_refl)|]. set (buf' := b0 :: buf) in *.
  change (rw_loop (S fuel) addr buf' is_write) with (bs ← rw_turn addr buf' is_write;
     rest ← rw_loop fuel (wrap 64 (addr + Z.of_nat (length bs))) (drop (length bs) buf') is_write; mret (bs ++ rest)).
  wp_step. eapply wp_mono; [exact Hturn|]. intros bs s' (d & Hlen & HR & ->). destruct (Hrest bs d HR Hlen) as [H1 H2].
  rewrite Hlen. wp_step. destruct (decide (length buf' = n)) as [He|He].
  - rewrite drop_ge by lia. apply loop_nil. wp_step. rewrite app_nil_r. by apply H1.
  - assert (n < length buf')%nat as Hlt by lia. destruct (io_range_next s addr (length buf') n z r d Hg Hlt) as (-> & _ & Hg').
    eapply wp_mono; [apply H2; [done|by rewrite length_drop]|]. intros rest s' HQ. by wp_step.
Qed.

Definition run_writes (fs : Z -> fn) (o : opaque_ptr) (log : list access) (d : D) : D :=
  foldl (fun d '(a, w, v) => call_write (fs w) o a v d) d log.
Lemma write_log fs o z r : forall fuel addr buf s,
  io_range s addr (length buf) z r -> Forall (fun b => 0 <= b < 256) buf -> (length buf <= fuel)%nat ->
  fs = zone_fn true (pmem s) z -> o = zone_opaque (pmem s) z ->
  wp no_err (rw_loop fuel addr buf true) (fun bs s' => bs = buf /\ exists log,
    covers (dev_addr addr r) buf log /\ s' = s <| devices := run_writes fs o log (devices s) |>) s.
Proof.
  induction fuel as [|fuel IH]; intros addr buf s Hg Hby Hf Hfs Ho.
  { destruct buf; [|simpl in Hf; lia]. apply loop_nil. split; [done|]. exists []. split; [apply covers_nil|by destruct s]. }
  destruct (decide (buf = [])) as [->|Hne].
  { apply loop_nil. split; [done|]. exists []. split; [apply covers_nil|by destruct s]. }
  set (w := access_width (Z.of_nat (length buf)) (dev_addr addr r)). set (n := bytes_of w).
  destruct (access_width_spec (Z.of_nat (length buf)) (dev_addr addr r)) as (Hw & Hle & Hal); [by apply nonempty|].
  fold w in Hw, Hle, Hal. pose proof (bytes_of_pow w Hw) as Hpow. fold n in Hpow.
  assert (forall rest log, covers (dev_addr addr r + 2 ^ w) rest log ->
    covers (dev_addr addr r) (take n buf ++ rest) ((dev_addr addr r, w, le_value (take n buf)) :: log)) as Hcov.
  { intros rest log Hc. apply covers_cons; [done|rewrite length_take; fold n; lia|done| |done].
    symmetry. apply Z.mod_small. pose proof (le_value_bound (take n buf) (Forall_take _ n buf Hby)) as Hb.
    rewrite length_take, Nat.min_l in Hb by lia. by rewrite Hpow in Hb. }
  apply (loop_step fuel addr buf true s z r _ (fun bs d => bs = take n buf /\
    d = call_write (fs w) o (dev_addr addr r) (le_value (take n buf)) (devices s))); [done|done| |].
  - destruct (io_turn s addr buf z r (g_page _ _ _ _ _ Hg) (g_addr _ _ _ _ _ Hg) (g_region _ _ _ _ _ Hg)
      (g_max _ _ _ _ _ Hg) Hne (g_in _ _ _ _ _ Hg)) as [Hwr _].
    eapply wp_mono; [exact Hwr|]. intros bs s' [-> ->]. eexists.
    split; [rewrite length_take; fold w n; lia|]. split; [|reflexivity]. split; [reflexivity|]. rewrite Hfs, Ho. reflexivity.
  - fold w n. intros bs d [-> ->] _. split.
    + intros He. split; [by apply take_ge; lia|]. exists [(dev_addr addr r, w, le_value (take n buf))]. split; [|done].
      rewrite <- (app_nil_r buf) at 1. rewrite <- (take_ge buf n) at 1 by lia. apply Hcov, covers_nil.
    + intros Hlt Hg'. destruct (io_range_next s addr (length buf) n z r (devices s) Hg Hlt) as (_ & Hda & _).
      eapply wp_mono; [apply IH; [exact Hg'|by apply Forall_drop|rewrite length_drop; lia|done|done]|].
      intros rest s' (-> & log & Hc & ->). rewrite take_drop. split; [done|].
      exists ((dev_addr addr r, w, le_value (take n buf)) :: log). split; [|done].
      rewrite <- (take_drop n buf) at 1. apply Hcov. rewrite Hda in Hc. by rewrite <- Hpow.
Qed.

Lemma call_read_fits f o a (d : D) : fits 32 (call_read f o a d).1.
Proof.
  unfold call_read.
  destruct f; [done|..]; destruct (dev_read _ _ _ _) as [v d']; by apply fits_wrap.
Qed.
Lemma read_log fs o z r : forall fuel addr buf s,
  io_range s addr (length buf) z r -> (length buf <= fuel)%nat ->
  fs = zone_fn false (pmem s) z -> o = zone_opaque (pmem s) z ->
  wp no_err (rw_loop fuel addr buf false) (fun bs s' => length bs = length buf /\ exists log d,
    covers (dev_addr addr r) bs log /\ reads_are fs o (devices s) log d /\ s' = s <| devices := d |>) s.
Proof.
  induction fuel as [|fuel IH]; intros addr buf s Hg Hf Hfs Ho.
  { destruct buf; [|simpl in Hf; lia]. apply loop_nil. split; [done|]. exists [], (devices s).
    split; [apply covers_nil|]. split; [apply reads_nil|by destruct s]. }
  destruct (decide (buf = [])) as [->|Hne].
  { apply loop_nil. split; [done|]. exists [], (devices s).
    split; [apply covers_nil|]. split; [apply reads_nil|by destruct s]. }
  set (w := access_width (Z.of_nat (length buf)) (dev_addr addr r)). set (n := bytes_of w).
  destruct (access_width_spec (Z.of_nat (length buf)) (dev_addr addr r)) as (Hw & Hle & Hal); [by apply nonempty|].
  fold w in Hw, Hle, Hal. pose proof (bytes_of_pow w Hw) as Hpow. fold n in Hpow.
  assert (forall v rest log, covers (dev_addr addr r + 2 ^ w) rest log ->
    covers (dev_addr addr r) (le_bytes n v ++ rest) ((dev_addr addr r, w, v) :: log)) as Hcov.
  { intros v rest log Hc. apply covers_cons; [done|by rewrite le_bytes_length|done| |done].
    rewrite le_value_bytes. by rewrite Hpow. }
  apply (loop_step fuel addr buf false s z r _ (fun bs d => exists v,
    call_read (fs w) o (dev_addr addr r) (devices s) = (v, d) /\ bs = le_bytes n v)); [done|done| |].
  - destruct (io_turn s addr buf z r (g_page _ _ _ _ _ Hg) (g_addr _ _ _ _ _ Hg) (g_region _ _ _ _ _ Hg)
      (g_max _ _ _ _ _ Hg) Hne (g_in _ _ _ _ _ Hg)) as [_ Hrd].
    eapply wp_mono; [exact Hrd|]. intros bs s' (v & d & Hc & -> & ->). exists d.
    split; [by rewrite le_bytes_length|]. split; [|reflexivity]. exists v. rewrite Hfs, Ho. split; [exact Hc|reflexivity].
  - fold w n. intros bs d (v & Hcall & ->) _. split.
    + intros He. split; [by rewrite le_bytes_length|]. exists [(dev_addr addr r, w, v)], d.
      split; [rewrite <- (app_nil_r (le_bytes n v)); apply Hcov, covers_nil|].
      split; [eapply reads_cons; [exact Hcall|apply reads_nil]|done].
    + intros Hlt Hg'. destruct (io_range_next s addr (length buf) n z r d Hg Hlt) as (_ & Hda & _).
      eapply wp_mono; [apply IH; [exact Hg'|rewrite length_drop; lia|done|done]|].
      intros rest s' (Hlen & log & d' & Hc & Hrd & ->). rewrite length_drop in Hlen.
      split; [rewrite length_app, le_bytes_length; lia|].
      exists ((dev_addr addr r, w, v) :: log), d'. split; [|split; [eapply reads_cons; [exact Hcall|exact Hrd]|reflexivity]].
      apply Hcov. rewrite Hda in Hc. by rewrite <- Hpow.
Qed.

(** A buffer moved to or from a page of a device by cpu_physical_memory_rw is cut into
    device accesses that cover it: 1, 2 or 4 bytes each, every access aligned to its size,
    in order, from the offset in the page plus the region offset, each byte in exactly one
    of them and in little-endian order.  A write calls the write functions of the widths with
    those values; a read returns the bytes of what the read functions returned.  Nothing but
    the device changes. *)
Theorem phys_io_split s addr buf z r :
  io_range s addr (length buf) z r -> Forall (fun b => 0 <= b < 256) buf ->
  (exists log, covers (dev_addr addr r) buf log /\
     cpu_physical_memory_write addr buf s =
       Ok (tt, s <| devices := run_writes (zone_fn true (pmem s) z) (zone_opaque (pmem s) z) log (devices s) |>)) /\
  (exists bs log d, length bs = length buf /\ covers (dev_addr addr r) bs log /\
     reads_are (zone_fn false (pmem s) z) (zone_opaque (pmem s) z) (devices s) log d /\
     cpu_physical_memory_read addr (length buf) s = Ok (bs, s <| devices := d |>)).
Proof.
  intros Hg Hby. split.
  - assert (wp no_err (cpu_physical_memory_write addr buf) (fun _ s' => exists log, covers (dev_addr addr r) buf log /\
      s' = s <| devices := run_writes (zone_fn true (pmem s) z) (zone_opaque (pmem s) z) log (devices s) |>) s) as H.
    { unfold cpu_physical_memory_write, cpu_physical_memory_rw. wp_step.
      eapply wp_mono; [by eapply write_log|]. intros bs s' [_ Hlog]. by wp_step. }
    apply wp_total_ex in H as ([] & s' & He & log & Hc & ->). by exists log.
  - assert (wp no_err (cpu_physical_memory_read addr (length buf)) (fun bs s' => length bs = length buf /\ exists log d,
      covers (dev_addr addr r) bs log /\ reads_are (zone_fn false (pmem s) z) (zone_opaque (pmem s) z) (devices s) log d /\
      s' = s <| devices := d |>) s) as H.
    { unfold cpu_physical_memory_read, cpu_physical_memory_rw. rewrite <- (length_replicate (length buf) 0) in Hg.
      eapply wp_mono; [by eapply read_log|]. intros bs s' [Hlen Hlog]. by rewrite length_replicate in Hlen. }
    apply wp_total_ex in H as (bs & s' & He & Hlen & log & d & Hc & Hrd & ->). by exists bs, log, d.
Qed.
End Io.

(** ** A device that keeps its last word, on one page *)
#[local] Instance word_device : Devices Z := {| dev_read := fun _ _ a d => (d + a, d); dev_write := fun _ _ _ v _ => v |}.
Definition io_pages : list PhysPageDesc := mkPage (6 * 8) 0x400 :: replicate 1023 (mkPage IO_MEM_UNASSIGNED 0).
Definition io_sample : machine Z :=
  mkMachine (booted <| l1_phys_map := Some io_pages :: replicate 4095 None |>) (fun _ => 0) 5 [] (mkBounce 0 0 0) [] [].
Lemma io_sample_range : io_range io_sample 3 6 6 0x400.
Proof.
  split; [|done|done|by vm_compute|by vm_compute]. split; [split|].
  - split.
    + change (S (length (replicate 4095 (@None (list PhysPageDesc)))) = 4096%nat). by rewrite length_replicate.
    + apply Forall_cons. split; [|by apply Forall_replicate].
      intros l [= <-]. unfold io_pages. by rewrite length_cons, length_replicate.
  - split; [by vm_compute|]. split; [by vm_compute|]. exists []. split; [by vm_compute|]. apply tiles_nil.
  - split; [exact (zones_l1 _ _ booted_zones)|]. split; [exact (proj1 (same_zones_keeps booted _ ltac:(done) 6 (booted_plain 6 ltac:(by right))))|].
    split; [done|]. by vm_compute.
Qed.
Example phys_io_split_witness :
  exists log, covers (dev_addr 3 0x400) [1; 2; 3; 4; 5; 6] log /\
    cpu_physical_memory_write 3 [1; 2; 3; 4; 5; 6] io_sample =
      Ok (tt, io_sample <| devices := run_writes (zone_fn true (pmem io_sample) 6) (zone_opaque (pmem io_sample) 6) log (devices io_sample) |>).
Proof.
  refine (proj1 (phys_io_split io_sample 3 [1; 2; 3; 4; 5; 6] 6 0x400 io_sample_range _)).
  apply (bool_decide_unpack (Forall (fun b => 0 <= b < 256) [1; 2; 3; 4; 5; 6])). vm_compute. exact I.
Defined.
