(* ===== verification/PhysSafe.v ===== *)
(** * PhysSafe: the operations on physical memory together

    A board builds its memory map with the operations of exec.c.  [phys_op] lists them with
    the conditions on their arguments, [phys_step] is one of them succeeding; the states
    reachable from power-on satisfy [phys_inv], in which every page of RAM lies in a block,
    and in those states no operation fails.  The last theorem is the sequence every board
    performs: allocate RAM, register it, and use it. *)
From S2P Require Import Prelude Physmem PhysPages PhysZones PhysRam PhysAccess PhysRw.
From stdpp Require Import sets relations.
#[local] Open Scope Z_scope.

(** ** Operations *)
Inductive phys_op : Type :=
| RamAlloc (vmalloc size : Z)
| Register (start count phys region : Z)
| RegisterIo (mem_read mem_write : list (option fn)) (opaque : opaque_ptr)
| UnregisterIo (zone subwidth : Z)
| RamPtr (addr : Z).
Definition run_op (op : phys_op) : MEM unit :=
  match op with
  | RamAlloc v size => qemu_ram_alloc v size ;; mret tt
  | Register start count phys region => cpu_register_physical_memory_offset start (count * 1024) phys region
  | RegisterIo r w o => cpu_register_io_memory r w o ;; mret tt
  | UnregisterIo z sw => cpu_unregister_io_memory (z * 8 + sw)
  | RamPtr addr => qemu_get_ram_ptr addr ;; mret tt
  end.
(** What the callers ensure; RAM is registered only where it is allocated. *)
Definition op_ok (op : phys_op) (s : physmem) : Prop :=
  match op with
  | RamAlloc v size => 0 <= size /\ last_ram_offset s + size + 1023 < 2 ^ 64
  | Register start count phys region =>
      start mod 1024 = 0 /\ 0 <= start /\ 0 <= count /\ start + count * 1024 <= 2 ^ 32 /\ fits 64 region /\
      0 <= phys /\ phys + count * 1024 < 2 ^ 64 /\ truth (Z.land phys IO_MEM_SUBWIDTH) = false /\
      (is_ram phys = true -> phys + count * 1024 <= last_ram_offset s)
  | RegisterIo r w o => length r = 3%nat /\ length w = 3%nat
  | UnregisterIo z sw => 0 <= z < 128 /\ 0 <= sw < 8
  | RamPtr addr => 0 <= addr < last_ram_offset s
  end.
Inductive phys_step : physmem -> physmem -> Prop :=
| phys_step_op op s s' : op_ok op s -> run_op op s = Ok (tt, s') -> phys_step s s'.

(** ** Invariant *)
Definition backed (s : physmem) : Prop := forall n p r,
  mapping s n = Some (p, r) -> is_ram p = true -> 0 <= p /\ p + 1024 <= last_ram_offset s.
Record phys_inv (s : physmem) : Prop := mkInv {
  i_pages : pages_wf s;
  i_zones : zones_wf s;
  i_ram : ram_wf s;
  i_backed : backed s
}.

Lemma is_ram_mod p : is_ram p = true <-> p mod 1024 = 0.
Proof. unfold is_ram. rewrite page_off_mod, Z.eqb_eq. done. Qed.
Lemma phys_of_ram phys i : is_ram (phys_of phys i) = is_ram phys.
Proof.
  unfold phys_of, is_ram. destruct (advances phys); [|done]. rewrite !page_off_mod. by rewrite Z.mod_add by lia.
Qed.
Lemma ram_advances phys : is_ram phys = true -> advances phys = true.
Proof. intros H%is_ram_mod. unfold advances. by rewrite page_off_mod, H. Qed.
Lemma backed_placed s s' n count phys region :
  backed s -> last_ram_offset s' = last_ram_offset s -> 0 <= count -> 0 <= phys ->
  (is_ram phys = true -> phys + count * 1024 <= last_ram_offset s) ->
  (forall m, mapping s' m = pages_placed n count phys region m (mapping s m)) -> backed s'.
Proof.
  intros Hb Hl Hc Hp Hram Hm m p r. rewrite Hm, Hl. unfold pages_placed. set (i := (m - n) mod 2 ^ 22).
  pose proof (Z.mod_pos_bound (m - n) (2 ^ 22) ltac:(lia)) as Hi. fold i in Hi.
  destruct (Z.ltb_spec i count); [|apply Hb]. unfold placed.
  destruct (phys_of phys i =? IO_MEM_UNASSIGNED); [done|]. intros [= <- _]. rewrite phys_of_ram. intros Hr.
  specialize (Hram Hr). unfold phys_of. rewrite (ram_advances _ Hr). lia.
Qed.
(** Changes that leave the page table and the blocks alone. *)
Lemma inv_same s s' : phys_inv s -> same_rest s s' -> zones_wf s' -> phys_inv s'.
Proof.
  intros [Hp Hz Hr Hb] [E1 E2 E3 E4 E5 E6] Hz'. split; [|done| |].
  - unfold pages_wf. by rewrite E1.
  - unfold ram_wf. by rewrite E3, E4, E5.
  - intros n p r. rewrite E4. intros H. apply (Hb n p r). revert H. unfold mapping, desc_at, page_desc. by rewrite E1.
Qed.
Lemma qemu_ram_alloc_frame v size s r s' : qemu_ram_alloc v size s = Ok (r, s') ->
  l1_phys_map s' = l1_phys_map s /\ (zones_wf s -> zones_wf s').
Proof. intros [= <- <-]. split; [done|]. by intros []. Qed.

(** Every operation succeeds and keeps the invariant. *)
Lemma run_op_wp op s : phys_inv s -> op_ok op s -> wp no_err (run_op op) (fun _ => phys_inv) s.
Proof.
  intros Hinv Hok. pose proof Hinv as [Hp Hz Hr Hb]. destruct op as [v size|start count phys region|r w o|z sw|addr]; simpl in *.
  - destruct Hok as [H0 Hmax]. destruct (ram_alloc_spec v size s Hr H0 Hmax) as (s' & He & Hr' & Hl & _).
    destruct (qemu_ram_alloc_frame _ _ _ _ _ He) as [Hl1 Hz'].
    wp_step. unfold wp at 1. rewrite He. wp_step. split; [|auto|done|].
    + unfold pages_wf. by rewrite Hl1.
    + intros n p q Hm Hram.
      assert (mapping s n = Some (p, q)) as Hm' by (revert Hm; unfold mapping, desc_at, page_desc; by rewrite Hl1).
      destruct (Hb n p q Hm' Hram) as [? ?]. rewrite Hl.
      assert (0 <= (size + 1023) / 1024) by (apply Z.div_pos; lia). lia.
  - destruct Hok as (H1 & H2 & H3 & H4 & H5 & H6 & H7 & H8 & H9).
    eapply wp_mono; [by apply register_memory_whole|]. intros _ s' (l1 & Hs' & Hp' & Hm').
    split; [done| | |].
    + rewrite Hs'. by destruct Hz.
    + rewrite Hs'. exact Hr.
    + eapply (backed_placed s s'); [exact Hb|by rewrite Hs'|exact H3|exact H6|exact H9|exact Hm'].
  - destruct Hok as [H1 H2]. wp_step. apply register_zone_wp; [done..| |].
    + intros z s' _ _ Hset _. wp_step. eapply inv_same; [done|apply Hset|apply Hset].
    + intros _. by wp_step.
  - destruct Hok as [H1 H2]. apply unregister_zone_wp; [done..|]. intros s' Hset _.
    eapply inv_same; [done|apply Hset|apply Hset].
  - wp_step. pose proof (get_ram_ptr_spec addr s Hr) as H. pose proof (ram_view_None s addr Hr) as Hn.
    destruct (ram_view s addr) as [ptr|]; [|exfalso; by apply (proj1 Hn)].
    destruct H as (l & He & Hl). unfold wp. rewrite He. destruct (ram_view_perm s l Hr Hl) as [Hr' _].
    split; [exact Hp|by destruct Hz|exact Hr'|exact Hb].
Qed.
Lemma phys_init_inv : phys_inv phys_init.
Proof.
  split; [apply phys_init_wf|apply phys_init_zones| |].
  - split; [done|]. split; [done|]. exists []. split; [done|apply tiles_nil].
  - intros n p r. assert (mapping phys_init n = None) as ->; [|done].
    unfold mapping, desc_at, page_desc. destruct (rd (l1_phys_map phys_init) (page_index n).1) as [o|] eqn:Ho; [|done].
    apply rd_lookup in Ho as [_ Ho]. by apply lookup_replicate_1 in Ho as [-> _].
Qed.


(** ** A board's RAM *)
Lemma rptr_mapping {D} ok (s : machine D) addr p r q :
  mapping (pmem s) (addr / 1024) = Some (p, r) -> ok p = true -> ram_view (pmem s) (page_down p) = Some q ->
  rptr ok s addr = Some (q + addr mod 1024).
Proof.
  unfold mapping, rptr. destruct (desc_at (pmem s) (addr / 1024)) as [d|]; cbn; [|done].
  destruct (phys_offset d =? IO_MEM_UNASSIGNED); [done|]. intros [= -> _] -> ->. done.
Qed.
Lemma ram_region_ptr {D} (s : machine D) vmalloc start count :
  mem_wf s -> start mod 1024 = 0 -> 0 <= start -> 0 <= count -> start + count * 1024 <= 2 ^ 32 ->
  last_ram_offset (pmem s) + count * 1024 + 1023 < 2 ^ 64 ->
  exists p, (off ← qemu_ram_alloc vmalloc (count * 1024);
             cpu_register_physical_memory_offset start (count * 1024) (Z.lor off IO_MEM_RAM) 0) (pmem s) = Ok (tt, p) /\
    mem_wf (s <| pmem := p |>) /\
    forall addr, start <= addr < start + count * 1024 -> rptr is_ram (s <| pmem := p |>) addr = Some (vmalloc + (addr - start)).
Proof.
  intros [Hp Hr] Hst H0 Hc Hmax Hlast.
  destruct (ram_alloc_spec vmalloc (count * 1024) (pmem s) Hr) as (p1 & He & Hr1 & Hl1 & _ & Hv1); [lia|lia|].
  destruct (qemu_ram_alloc_frame _ _ _ _ _ He) as [El1 _].
  assert (pages_wf p1) as Hp1 by (unfold pages_wf; by rewrite El1).
  assert ((count * 1024 + 1023) / 1024 * 1024 = count * 1024) as Hal.
  { rewrite Z.add_comm, Z.div_add by lia. change (1023 / 1024) with 0. lia. }
  rewrite Hal in Hl1. set (off := last_ram_offset (pmem s)) in *.
  assert (0 <= off /\ off mod 1024 = 0) as [Hoff Hmod].
  { destruct Hr as (_ & _ & l & _ & Ht). by destruct (tiles_top _ _ Ht) as (? & ? & _). }
  assert (is_ram off = true) as Hram by by apply is_ram_mod.
  pose proof (ram_advances _ Hram) as Hadv.
  assert (truth (Z.land off IO_MEM_SUBWIDTH) = false) as Hsw.
  { change IO_MEM_SUBWIDTH with (bit 2). rewrite truth_land_bit by lia.
    rewrite <- (Z.mod_pow2_bits_low off 10) by lia. change (2 ^ 10) with 1024. by rewrite Hmod. }
  pose proof (register_memory_whole start count off 0 p1 Hp1 Hst H0 Hc Hmax ltac:(done) Hoff ltac:(lia) Hsw) as H.
  apply wp_total_ex in H as ([] & p2 & He2 & l1 & Hs2 & Hp2 & Hm2).
  exists p2. split; [|split].
  - unfold mbind, ST_bind. rewrite He. change IO_MEM_RAM with 0. rewrite Z.lor_0_r. exact He2.
  - split; [exact Hp2|]. cbn. rewrite Hs2. exact Hr1.
  - intros addr Ha. pose proof (Z.div_mod addr 1024 ltac:(lia)) as Hd. pose proof (Z.div_mod start 1024 ltac:(lia)) as Hds.
    pose proof (Z.mod_pos_bound addr 1024 ltac:(lia)) as Hb.
    set (i := addr / 1024 - start / 1024). assert (0 <= i < count) as Hi by (unfold i; lia).
    assert (mapping p2 (addr / 1024) = Some (off + i * 1024, default (wrap 64 (page_down 0 + i * 1024)) (snd <$> mapping p1 (addr / 1024)))) as Hmap.
    { rewrite Hm2. unfold pages_placed. fold i. rewrite (Z.mod_small i) by lia.
      destruct (Z.ltb_spec i count); [|lia]. unfold placed, phys_of. rewrite Hadv.
      destruct (Z.eqb_spec (off + i * 1024) IO_MEM_UNASSIGNED) as [E|]; [|done].
      exfalso. apply (f_equal (fun x => x mod 1024)) in E. rewrite Z.mod_add, Hmod in E by lia. discriminate E. }
    erewrite (rptr_mapping is_ram (s <| pmem := p2 |>) addr (off + i * 1024) _ (vmalloc + i * 1024)); [|exact Hmap|..].
    + f_equal. lia.
    + apply is_ram_mod. by rewrite Z.mod_add by lia.
    + rewrite page_down_mod by (unfold fits; lia). rewrite Z.mod_add, Hmod, Z.sub_0_r by lia.
      transitivity (ram_view p1 (off + i * 1024)); [by rewrite Hs2|]. rewrite Hv1, Hl1.
      destruct (Z.leb_spec off (off + i * 1024)), (Z.ltb_spec (off + i * 1024) (off + count * 1024)); try lia.
      cbn [andb]. f_equal. lia.
Qed.

(** C3: RAM a board allocates and registers is usable memory: after qemu_ram_alloc and
    cpu_register_physical_memory of [count] pages at [start], any buffer written inside the
    range, across pages or not, is stored at the host addresses of the block in order and is
    read back unchanged, whatever was registered at those addresses before. *)
Theorem board_ram_works {D} `{!Devices D} (s : machine D) vmalloc start count :
  mem_wf s -> start mod 1024 = 0 -> 0 <= start -> 0 <= count -> start + count * 1024 <= 2 ^ 32 ->
  last_ram_offset (pmem s) + count * 1024 + 1023 < 2 ^ 64 ->
  exists p, (off ← qemu_ram_alloc vmalloc (count * 1024);
             cpu_register_physical_memory_offset start (count * 1024) (Z.lor off IO_MEM_RAM) 0) (pmem s) = Ok (tt, p) /\
    forall addr buf, start <= addr -> addr + Z.of_nat (length buf) <= start + count * 1024 ->
      exists s1 s2, cpu_physical_memory_write addr buf (s <| pmem := p |>) = Ok (tt, s1) /\
        (forall i b, buf !! i = Some b -> host_mem s1 (vmalloc + (addr - start) + Z.of_nat i) = b) /\
        cpu_physical_memory_read addr (length buf) s1 = Ok (buf, s2).
Proof.
  intros Hwf Hst H0 Hc Hmax Hlast.
  destruct (ram_region_ptr s vmalloc start count Hwf Hst H0 Hc Hmax Hlast) as (p & He & Hwf1 & Hptr).
  exists p. split; [exact He|]. intros addr buf Ha Hend. set (s0 := s <| pmem := p |>) in *.
  assert (forall i, (i < length buf)%nat -> rptr is_ram s0 (addr + Z.of_nat i) = Some (vmalloc + (addr - start) + Z.of_nat i)) as Hr.
  { intros i Hi. rewrite Hptr by lia. f_equal. lia. }
  assert (forall i, (i < length buf)%nat -> is_Some (rptr is_ram s0 (addr + Z.of_nat i))) as Hr' by (intros i Hi; rewrite Hr; eauto).
  pose proof (write_wp no_err s0 addr buf Hwf1 ltac:(unfold fits; lia) ltac:(lia) Hr') as H.
  assert (forall i, (i < length buf)%nat -> wptr s0 addr i = vmalloc + (addr - start) + Z.of_nat i) as Hw
    by (intros i Hi; unfold wptr; by rewrite Hr).
  assert (distinct_ptrs s0 addr (length buf)) as Hdis by (intros i j Hi Hj; rewrite !Hw by done; lia).
  specialize (H Hdis). apply wp_total_ex in H as ([] & s1 & He1 & Hwr).
  pose proof (read_written_wp no_err s0 addr buf s1 ltac:(unfold fits; lia) ltac:(lia) Hr' Hwr) as H.
  apply wp_total_ex in H as (bs & s2 & He2 & -> & _). exists s1, s2. split; [exact He1|]. split; [|exact He2].
  intros i b Hb. rewrite <- (w_bytes _ _ _ _ Hwr i b Hb). by rewrite Hw by by eapply lookup_lt_Some.
Qed.
#[local] Existing Instance no_devices.
Example board_ram_works_witness :
  exists p, (off ← qemu_ram_alloc 0x90000 (8 * 1024);
             cpu_register_physical_memory_offset 0x20000000 (8 * 1024) (Z.lor off IO_MEM_RAM) 0) (pmem sample) = Ok (tt, p) /\
    exists s1 s2, cpu_physical_memory_write 0x200003fe [1; 2; 3; 4] (sample <| pmem := p |>) = Ok (tt, s1) /\
      cpu_physical_memory_read 0x200003fe 4 s1 = Ok ([1; 2; 3; 4], s2).
Proof.
  destruct (board_ram_works sample 0x90000 0x20000000 8 sample_wf) as (p & H1 & H2); [done|done|done|by vm_compute|by vm_compute|].
  exists p. split; [exact H1|]. destruct (H2 0x200003fe [1; 2; 3; 4]) as (s1 & s2 & H3 & _ & H4); [by vm_compute|by vm_compute|].
  exists s1, s2. split; [exact H3|exact H4].
Defined.
