(* ===== verification/NetSum.v ===== *)
(** * NetSum: the checksums of the Internet protocols (net/checksum.c)

    The state is the buffer of the packet, an array of bytes; an access outside it is
    undefined ([Fault]).  A pointer into the buffer is an offset. *)
From S2P Require Import Prelude.
#[local] Open Scope Z_scope.

Definition PROTO_TCP : Z := 6.
Definition PROTO_UDP : Z := 17.
Definition data_at (i : Z) : ST (list Z) Z := d ← get; deref (rd d i).
Definition data_set (i v : Z) : ST (list Z) unit := d ← get; d ← deref (wr d i (wrap 8 v)); put d.
(** [for (i = 0; i < len; i++)], with [n] turns left. *)
Fixpoint sum_loop (n : nat) (buf i sum : Z) : ST (list Z) Z :=
  match n with
  | O => mret sum
  | S n => b ← data_at (buf + i); sum_loop n buf (i + 1) (wrap 32 (sum + if truth (Z.land i 1) then b else Z.shiftl b 8))
  end.
Definition net_checksum_add (len buf : Z) : ST (list Z) Z := sum_loop (Z.to_nat len) buf 0 0.
(** [while (sum>>16)]; [None] when the fuel runs out. *)
Fixpoint carry_loop (fuel : nat) (sum : Z) : option Z :=
  if truth (Z.shiftr sum 16) then
    match fuel with O => None | S fuel => carry_loop fuel (wrap 32 (Z.land sum 0xFFFF + Z.shiftr sum 16)) end
  else Some sum.
Definition net_checksum_finish (sum : Z) : option Z := s ← carry_loop 2 sum; Some (wrap 16 (Z.lnot s)).
Definition net_checksum_tcpudp (length proto addrs buf : Z) : ST (list Z) Z :=
  let sum := 0 in
  a ← net_checksum_add length buf;
  let sum := wrap 32 (sum + a) in
  a ← net_checksum_add 8 addrs;
  let sum := wrap 32 (sum + a) in
  let sum := wrap 32 (sum + (proto + length)) in
  match net_checksum_finish sum with Some r => mret r | None => throw OutOfFuel end.
(** The parameter [length] of the code is not used. *)
Definition net_checksum_calculate (length : Z) : ST (list Z) unit :=
  v ← data_at 14;
  if negb (Z.land v 0xf0 =? 0x40) then mret tt
  else
    let hlen := Z.land v 0x0f * 4 in
    hi ← data_at 16; lo ← data_at 17;
    let plen := Z.lor (Z.shiftl hi 8) lo - hlen in
    proto ← data_at 23;
    match (if proto =? PROTO_TCP then Some 16 else if proto =? PROTO_UDP then Some 6 else None) with
    | None => mret tt
    | Some csum_offset =>
      if plen <? csum_offset + 2 then mret tt
      else
        data_set (14 + hlen + csum_offset) 0 ;;
        data_set (14 + hlen + csum_offset + 1) 0 ;;
        csum ← net_checksum_tcpudp (wrap 16 plen) (wrap 16 proto) (14 + 12) (14 + hlen);
        data_set (14 + hlen + csum_offset) (Z.shiftr csum 8) ;;
        data_set (14 + hlen + csum_offset + 1) (Z.land csum 0xff)
    end.

(** ** The sum of the 16-bit words of a segment *)
Fixpoint words (l : list Z) : Z := match l with a :: b :: l => a * 256 + b + words l | [a] => a * 256 | [] => 0 end.
Definition seg (d : list Z) (p n : Z) : list Z := take (Z.to_nat n) (drop (Z.to_nat p) d).
(** The same sum, byte by byte; [odd] says that the first byte is the low one of its word. *)
Fixpoint wsum (odd : bool) (l : list Z) : Z := match l with [] => 0 | b :: l => (if odd then b else b * 256) + wsum (negb odd) l end.
Lemma wsum_words l : wsum false l = words l.
Proof.
  assert (wsum false l = words l /\ forall b, wsum false (b :: l) = words (b :: l)) as [H _]; [|exact H].
  induction l as [|x l [IH1 IH2]]; [split; [done|]; intros b; cbn; lia|]. split; [apply IH2|]. intros b. cbn [words wsum negb] in *. rewrite <- IH1. cbn [negb]. lia.
Qed.
Lemma wsum_bounds odd l : Forall (fits 8) l -> 0 <= wsum odd l <= 65280 * Z.of_nat (length l).
Proof.
  intros Hl. revert odd. induction Hl as [|b l Hb Hl IH]; intros odd; [cbn; lia|]. cbn [wsum length]. specialize (IH (negb odd)). unfold fits in Hb. change (2 ^ 8) with 256 in Hb. destruct odd; lia.
Qed.
Lemma truth_odd_succ i : truth (Z.land (i + 1) 1) = negb (truth (Z.land i 1)).
Proof.
  assert (forall j, truth (Z.land j 1) = Z.odd j) as Ho by (intros j; change 1 with (bit 0); rewrite truth_land_bit by done; apply Z.bit0_odd).
  rewrite !Ho. by rewrite Z.odd_add, xorb_true_r.
Qed.
Lemma seg_cons d p b n : rd d p = Some b -> seg d p (Z.of_nat (S n)) = b :: seg d (p + 1) (Z.of_nat n).
Proof.
  intros Hb. apply rd_lookup in Hb as [Hp Hb]. unfold seg. rewrite !Nat2Z.id. rewrite (drop_S _ _ _ Hb). cbn [take]. by replace (Z.to_nat (p + 1)) with (S (Z.to_nat p)) by lia.
Qed.
Lemma sum_loop_spec n : forall buf i sum d, Forall (fits 8) d -> 0 <= buf + i -> buf + i + Z.of_nat n <= Z.of_nat (length d) ->
  0 <= sum -> sum + 65280 * Z.of_nat n < 2 ^ 32 ->
  sum_loop n buf i sum d = Ok (sum + wsum (truth (Z.land i 1)) (seg d (buf + i) (Z.of_nat n)), d).
Proof.
  induction n as [|n IH]; intros buf i sum d Hd H0 Hn Hs Hb; [unfold seg; cbn; by rewrite Z.add_0_r|]. destruct (rd_Some d (buf + i)) as (b & E & _); [lia|]. pose proof (rd_Forall _ _ _ _ Hd E) as Hbf.
  cbn [sum_loop]. unfold data_at, mbind, ST_bind, get. rewrite E. cbn [deref]. unfold mret, ST_ret. rewrite (seg_cons _ _ _ _ E). cbn [wsum]. unfold fits in Hbf. change (2 ^ 8) with 256 in Hbf.
  assert (Z.shiftl b 8 = b * 256) as -> by (by rewrite Z.shiftl_mul_pow2). set (v := if truth (Z.land i 1) then b else b * 256). assert (0 <= v <= 65280) by (unfold v; destruct (truth _); lia).
  rewrite wrap_fits by (unfold fits; lia). rewrite IH by (done || lia). rewrite truth_odd_succ. rewrite Z.add_assoc. by rewrite <- Z.add_assoc.
Qed.
Lemma net_checksum_add_spec len buf d : Forall (fits 8) d -> 0 <= buf -> 0 <= len <= 65535 -> buf + len <= Z.of_nat (length d) ->
  net_checksum_add len buf d = Ok (words (seg d buf len), d).
Proof.
  intros Hd Hb Hl Hn. unfold net_checksum_add. rewrite sum_loop_spec by (done || lia). by rewrite Z.add_0_r, Z2Nat.id, Z.add_0_l, wsum_words by lia.
Qed.
Lemma sum_loop_fault n : forall buf i sum d, 0 <= buf + i -> Z.of_nat (length d) < buf + i + Z.of_nat n -> buf + i <= Z.of_nat (length d) -> sum_loop n buf i sum d = Err Fault.
Proof.
  induction n as [|n IH]; intros buf i sum d H0 Hn Hi; [lia|]. cbn [sum_loop]. unfold data_at, mbind, ST_bind, get. destruct (rd d (buf + i)) as [b|] eqn:E; [|done].
  apply rd_bound in E. cbn. apply IH; lia.
Qed.
(** ** Folding the carries *)
(** The representative of a sum modulo 65535 that the end-around carry leads to. *)
Definition fold16 (s : Z) : Z := if s =? 0 then 0 else (s - 1) mod 65535 + 1.
Lemma fold16_small s : 0 <= s < 65536 -> fold16 s = s.
Proof. intros Hs. unfold fold16. destruct (Z.eqb_spec s 0); [lia|]. rewrite Z.mod_small by lia. lia. Qed.
Lemma carry_step s : fits 32 s -> let s' := wrap 32 (Z.land s 0xFFFF + Z.shiftr s 16) in s' = s mod 65536 + s / 65536 /\ fold16 s' = fold16 s.
Proof.
  intros Hs. cbv zeta. change 0xFFFF with (Z.ones 16). rewrite Z.land_ones, Z.shiftr_div_pow2 by lia. change (2 ^ 16) with 65536. unfold fits in Hs. change (2 ^ 32) with (65536 * 65536) in Hs.
  pose proof (Z.div_mod s 65536 ltac:(lia)) as Hd. pose proof (Z.mod_pos_bound s 65536 ltac:(lia)). pose proof (Z.div_pos s 65536). pose proof (Z.div_lt_upper_bound s 65536 65536 ltac:(lia)).
  set (h := s / 65536) in *. set (l := s mod 65536) in *. rewrite wrap_fits by (unfold fits; change (2 ^ 32) with (65536 * 65536); lia). split; [done|]. unfold fold16.
  destruct (Z.eqb_spec (l + h) 0), (Z.eqb_spec s 0); [done|lia|lia|]. f_equal. replace (s - 1) with (l + h - 1 + h * 65535) by lia. by rewrite Z.mod_add.
Qed.
Lemma carry_loop_spec s : fits 32 s -> carry_loop 2 s = Some (fold16 s).
Proof.
  intros Hs. assert (forall t, fits 32 t -> truth (Z.shiftr t 16) = (65536 <=? t)) as Ht.
  { intros t H. rewrite Z.shiftr_div_pow2 by lia. change (2 ^ 16) with 65536. unfold fits in H. unfold truth. pose proof (Z.div_mod t 65536 ltac:(lia)). pose proof (Z.mod_pos_bound t 65536 ltac:(lia)).
    destruct (Z.eqb_spec (t / 65536) 0), (Z.leb_spec 65536 t); lia || done. }
  assert (forall t, fits 32 t -> wrap 32 (Z.land t 0xFFFF + Z.shiftr t 16) <= 65535 + t / 65536 /\ fits 32 (wrap 32 (Z.land t 0xFFFF + Z.shiftr t 16))) as Hb.
  { intros t H. split; [|by apply fits_wrap]. destruct (carry_step t H) as [-> _]. pose proof (Z.mod_pos_bound t 65536 ltac:(lia)). lia. }
  cbn [carry_loop]. rewrite Ht by done. destruct (Z.leb_spec 65536 s); [|unfold fits in Hs; by rewrite fold16_small by lia].
  destruct (carry_step s Hs) as [E1 <-]. destruct (Hb s Hs) as [B1 F1]. set (s1 := wrap 32 _) in *. clearbody s1.
  assert (s1 <= 131070) by (unfold fits in Hs; change (2 ^ 32) with (65536 * 65536) in Hs; pose proof (Z.div_lt_upper_bound s 65536 65536 ltac:(lia)); lia).
  rewrite Ht by done. destruct (Z.leb_spec 65536 s1); [|unfold fits in F1; by rewrite fold16_small by lia].
  destruct (carry_step s1 F1) as [E2 <-]. destruct (Hb s1 F1) as [B2 F2]. set (s2 := wrap 32 _) in *. rewrite Ht by done.
  assert (s1 / 65536 = 1) as Hq by (symmetry; apply (Z.div_unique_pos _ _ _ (s1 - 65536)); lia). assert (s1 mod 65536 = s1 - 65536) as Hm by (symmetry; apply (Z.mod_unique_pos _ _ 1); lia).
  rewrite Hq, Hm in E2. unfold fits in F2. destruct (Z.leb_spec 65536 s2); [lia|]. by rewrite fold16_small by lia.
Qed.
Lemma net_checksum_finish_spec s : fits 32 s -> net_checksum_finish s = Some (65535 - fold16 s).
Proof.
  intros Hs. unfold net_checksum_finish. rewrite carry_loop_spec by done. cbn. f_equal. assert (0 <= fold16 s < 65536) as Hf.
  { unfold fold16. destruct (s =? 0); [lia|]. pose proof (Z.mod_pos_bound (s - 1) 65535). lia. }
  replace (Z.lnot (fold16 s)) with (- fold16 s - 1) by (unfold Z.lnot; lia). unfold wrap. change (2 ^ 16) with 65536. symmetry. apply (Z.mod_unique_pos _ _ (-1)); lia.
Qed.
(** The sum of the pseudo-header of 12 bytes and the segment. *)
Definition pseudo_sum (d : list Z) (hlen plen proto : Z) : Z := words (seg d (14 + hlen) plen) + words (seg d 26 8) + (proto + plen).
Lemma seg_fits d p n : Forall (fits 8) d -> Forall (fits 8) (seg d p n).
Proof. intros Hd. unfold seg. by apply Forall_take, Forall_drop. Qed.
Lemma seg_length d p n : 0 <= p -> 0 <= n -> p + n <= Z.of_nat (length d) -> length (seg d p n) = Z.to_nat n.
Proof. intros. unfold seg. rewrite length_take, length_drop. lia. Qed.
Lemma words_bound d p n : Forall (fits 8) d -> 0 <= p -> 0 <= n -> p + n <= Z.of_nat (length d) -> 0 <= words (seg d p n) <= 65280 * n.
Proof.
  intros Hd Hp Hn Hl. rewrite <- wsum_words. pose proof (wsum_bounds false (seg d p n) (seg_fits _ _ _ Hd)) as H. rewrite seg_length, Z2Nat.id in H by done. done.
Qed.
Lemma pseudo_sum_fits d hlen plen proto : Forall (fits 8) d -> 0 <= plen <= 65535 -> fits 8 proto -> 34 <= Z.of_nat (length d) -> 0 <= hlen -> 14 + hlen + plen <= Z.of_nat (length d) ->
  fits 32 (pseudo_sum d hlen plen proto).
Proof.
  intros Hd Hp Hpr Hl Hh Hn. unfold pseudo_sum. pose proof (words_bound d (14 + hlen) plen Hd ltac:(lia) ltac:(lia) Hn). pose proof (words_bound d 26 8 Hd ltac:(lia) ltac:(lia) ltac:(lia)).
  unfold fits in *. change (2 ^ 8) with 256 in *. change (2 ^ 32) with 4294967296. lia.
Qed.
Lemma net_checksum_tcpudp_spec d hlen plen proto : Forall (fits 8) d -> 0 <= plen <= 65535 -> fits 8 proto -> 34 <= Z.of_nat (length d) -> 0 <= hlen -> 14 + hlen + plen <= Z.of_nat (length d) ->
  net_checksum_tcpudp plen proto 26 (14 + hlen) d = Ok (65535 - fold16 (pseudo_sum d hlen plen proto), d).
Proof.
  intros Hd Hp Hpr Hl Hh Hn. pose proof (pseudo_sum_fits d hlen plen proto Hd Hp Hpr Hl Hh Hn) as Hs. unfold net_checksum_tcpudp. cbv zeta. unfold mbind, ST_bind.
  pose proof (words_bound d (14 + hlen) plen Hd ltac:(lia) ltac:(lia) Hn). pose proof (words_bound d 26 8 Hd ltac:(lia) ltac:(lia) ltac:(lia)).
  rewrite !net_checksum_add_spec by (done || lia). unfold pseudo_sum, fits in *. change (2 ^ 8) with 256 in *.
  rewrite (wrap_fits 32 (0 + _)) by (unfold fits; lia). rewrite (wrap_fits 32 (0 + _ + _)) by (unfold fits; lia). rewrite wrap_fits by (unfold fits; lia). rewrite Z.add_0_l.
  rewrite net_checksum_finish_spec by (unfold fits; lia). done.
Qed.
(** ** Changing a byte of the segment *)
Lemma wsum_insert l : forall odd k v, (k < length l)%nat ->
  wsum odd (<[k := v]> l) = wsum odd l + (v - default 0 (l !! k)) * (if xorb odd (Nat.odd k) then 1 else 256).
Proof.
  induction l as [|b l IH]; intros odd [|k] v Hk; cbn [length] in Hk; [lia..| |].
  - cbn [wsum insert list_insert]. change (default 0 ((b :: l) !! 0%nat)) with b. rewrite xorb_false_r. destruct odd; lia.
  - change (<[S k := v]> (b :: l)) with (b :: <[k := v]> l). cbn [wsum]. rewrite IH by lia. change ((b :: l) !! S k) with (l !! k). rewrite Nat.odd_succ, <- Nat.negb_odd.
    replace (xorb (negb odd) (Nat.odd k)) with (xorb odd (negb (Nat.odd k))) by (by destruct odd, (Nat.odd k)). lia.
Qed.
Lemma seg_insert_in d p n k v : 0 <= p -> 0 <= k < n -> p + n <= Z.of_nat (length d) -> seg (<[Z.to_nat (p + k) := v]> d) p n = <[Z.to_nat k := v]> (seg d p n).
Proof.
  intros Hp Hk Hl. unfold seg. apply list_eq. intros i. destruct (decide (i < Z.to_nat n)%nat).
  - rewrite lookup_take_lt, lookup_drop by done. destruct (decide (i = Z.to_nat k)) as [->|Hne].
    + replace (Z.to_nat p + Z.to_nat k)%nat with (Z.to_nat (p + k)) by lia. rewrite !list_lookup_insert_eq; [done|rewrite length_take, length_drop; lia|lia].
    + rewrite !list_lookup_insert_ne by lia. by rewrite lookup_take_lt, lookup_drop by done.
  - rewrite !lookup_ge_None_2; [done|rewrite length_insert, length_take; lia|rewrite length_take; lia].
Qed.
Lemma seg_insert_out d p n k v : 0 <= k -> p + n <= k -> 0 <= p -> seg (<[Z.to_nat k := v]> d) p n = seg d p n.
Proof.
  intros H0 Hk Hp. unfold seg. apply list_eq. intros i. destruct (decide (i < Z.to_nat n)%nat).
  - rewrite !lookup_take_lt, !lookup_drop by done. by rewrite list_lookup_insert_ne by lia.
  - rewrite !lookup_ge_None_2; [done|rewrite length_take; lia..].
Qed.
Lemma data_set_ok i v d : 0 <= i < Z.of_nat (length d) -> data_set i v d = Ok (tt, <[Z.to_nat i := wrap 8 v]> d).
Proof. intros Hi. unfold data_set, mbind, ST_bind, get. by rewrite wr_Some. Qed.
Lemma data_set_fault i v d : Z.of_nat (length d) <= i -> data_set i v d = Err Fault.
Proof. intros Hi. unfold data_set, mbind, ST_bind, get, wr. destruct (Z.ltb_spec i (Z.of_nat (length d))); [lia|]. by rewrite andb_false_r. Qed.
Lemma odd_of_nat n : Nat.odd n = Z.odd (Z.of_nat n).
Proof. induction n as [|n IH]; [done|]. by rewrite Nat.odd_succ, <- Nat.negb_odd, IH, Nat2Z.inj_succ, Z.odd_succ, Z.negb_odd. Qed.
Lemma words_insert d p n k v : 0 <= p -> 0 <= k < n -> p + n <= Z.of_nat (length d) ->
  words (seg (<[Z.to_nat (p + k) := v]> d) p n) = words (seg d p n) + (v - default 0 (rd d (p + k))) * (if Z.odd k then 1 else 256).
Proof.
  intros Hp Hk Hl. rewrite seg_insert_in by done. rewrite <- !wsum_words, wsum_insert by (rewrite seg_length; lia). rewrite xorb_false_l. do 2 f_equal.
  - unfold seg, rd. rewrite lookup_take_lt, lookup_drop by lia. rewrite (proj2 (Z.leb_le _ _)) by lia. by replace (Z.to_nat (p + k)) with (Z.to_nat p + Z.to_nat k)%nat by lia.
  - rewrite odd_of_nat, Z2Nat.id by lia. done.
Qed.
(** ** The checksum of a packet *)
Definition byte_of (d : list Z) (i : Z) : Z := default 0 (rd d i).
(** The header length, the length of the segment, the protocol, and the offset of the
    checksum in the segment, of an IPv4 packet with a checksum to set. *)
Definition checksum_site (d : list Z) : option (Z * Z * Z * Z) :=
  if negb (Z.land (byte_of d 14) 0xf0 =? 0x40) then None
  else
    let hlen := Z.land (byte_of d 14) 0x0f * 4 in
    let plen := byte_of d 16 * 256 + byte_of d 17 - hlen in
    let off := if byte_of d 23 =? PROTO_TCP then Some 16 else if byte_of d 23 =? PROTO_UDP then Some 6 else None in
    match off with Some off => if plen <? off + 2 then None else Some (hlen, plen, byte_of d 23, off) | None => None end.
Lemma data_at_ok i d : 0 <= i < Z.of_nat (length d) -> data_at i d = Ok (byte_of d i, d).
Proof. intros Hi. destruct (rd_Some d i Hi) as (b & E & _). unfold data_at, byte_of, mbind, ST_bind, get. by rewrite E. Qed.
Lemma byte_fits d i : Forall (fits 8) d -> 0 <= byte_of d i < 256.
Proof. intros Hd. unfold byte_of. destruct (rd d i) as [b|] eqn:E; cbn; [|lia]. pose proof (rd_Forall _ _ _ _ Hd E) as H. exact H. Qed.
(** The writes of the checksum, from the bytes read. *)
Definition set_checksum (hlen plen proto off : Z) : ST (list Z) unit :=
  data_set (14 + hlen + off) 0 ;;
  data_set (14 + hlen + off + 1) 0 ;;
  csum ← net_checksum_tcpudp (wrap 16 plen) (wrap 16 proto) (14 + 12) (14 + hlen);
  data_set (14 + hlen + off) (Z.shiftr csum 8) ;;
  data_set (14 + hlen + off + 1) (Z.land csum 0xff).
Lemma calculate_site len d : Forall (fits 8) d -> 24 <= Z.of_nat (length d) ->
  net_checksum_calculate len d = match checksum_site d with None => Ok (tt, d) | Some (hlen, plen, proto, off) => set_checksum hlen plen proto off d end.
Proof.
  intros Hd Hl. unfold net_checksum_calculate, checksum_site. unfold mbind at 1, ST_bind at 1. rewrite data_at_ok by lia. destruct (negb _); [done|]. cbv zeta.
  unfold mbind at 1, ST_bind at 1. rewrite data_at_ok by lia. unfold mbind at 1, ST_bind at 1. rewrite data_at_ok by lia. unfold mbind at 1, ST_bind at 1. rewrite data_at_ok by lia.
  pose proof (byte_fits d 17 Hd) as H17. rewrite Z.shiftl_mul_pow2 by lia. rewrite (or_disjoint _ _ 8) by (done || (unfold fits; change (2 ^ 8) with 256; lia)). change (2 ^ 8) with 256.
  destruct (byte_of d 23 =? PROTO_TCP); [|destruct (byte_of d 23 =? PROTO_UDP)]; cbv beta iota; [..|done]; match goal with |- context [?a <? ?b] => by destruct (a <? b) end.
Qed.
Lemma site_bounds d hlen plen proto off : Forall (fits 8) d -> checksum_site d = Some (hlen, plen, proto, off) ->
  0 <= hlen /\ off + 2 <= plen <= 65535 /\ fits 8 proto /\ (off = 16 \/ off = 6).
Proof.
  intros Hd. unfold checksum_site. destruct (negb _); [done|]. cbv zeta. pose proof (byte_fits d 16 Hd). pose proof (byte_fits d 17 Hd). pose proof (byte_fits d 23 Hd) as H23.
  assert (0 <= Z.land (byte_of d 14) 15) by (apply Z.land_nonneg; lia).
  destruct (byte_of d 23 =? PROTO_TCP); [|destruct (byte_of d 23 =? PROTO_UDP)]; [..|done]; match goal with |- context [?a <? ?b] => destruct (Z.ltb_spec a b) end; intros [= <- <- <- <-];
    unfold fits; change (2 ^ 8) with 256; lia.
Qed.
Lemma fold16_complement s : 0 <= s -> 0 <= fold16 s <= 65535 /\ fold16 (s + (65535 - fold16 s)) = 65535 /\ (s + (65535 - fold16 s)) mod 65535 = 0.
Proof.
  intros Hs. unfold fold16 at 1 2 4 5. destruct (Z.eqb_spec s 0) as [->|Hn]; [done|]. pose proof (Z.mod_pos_bound (s - 1) 65535 ltac:(lia)). pose proof (Z.div_mod (s - 1) 65535 ltac:(lia)) as Hd.
  set (r := (s - 1) mod 65535) in *. set (q := (s - 1) / 65535) in *. split; [lia|]. replace (s + (65535 - (r + 1))) with ((q + 1) * 65535) by lia. split; [|by apply Z.mod_mul].
  unfold fold16. destruct (Z.eqb_spec ((q + 1) * 65535) 0); [lia|]. replace ((q + 1) * 65535 - 1) with (65534 + q * 65535) by lia. by rewrite Z.mod_add.
Qed.
Lemma fits_bytes csum : 0 <= csum <= 65535 -> wrap 8 (Z.shiftr csum 8) = csum / 256 /\ wrap 8 (Z.land csum 0xff) = csum mod 256.
Proof.
  intros H. change 0xff with (Z.ones 8). rewrite Z.land_ones, Z.shiftr_div_pow2 by lia. change (2 ^ 8) with 256. pose proof (Z.mod_pos_bound csum 256 ltac:(lia)). split; apply wrap_fits; unfold fits; change (2 ^ 8) with 256; [|done].
  split; [apply Z.div_pos; lia|apply Z.div_lt_upper_bound; lia].
Qed.
(** Two bytes of the segment, at an even offset. *)
Definition put_word (d : list Z) (q v : Z) : list Z := <[Z.to_nat (q + 1) := v mod 256]> (<[Z.to_nat q := v / 256]> d).
Lemma put_word_length d q v : length (put_word d q v) = length d.
Proof. unfold put_word. by rewrite !length_insert. Qed.
Lemma put_word_other d q v i : 0 <= q -> i <> q -> i <> q + 1 -> rd (put_word d q v) i = rd d i.
Proof. intros Hq H1 H2. unfold rd, put_word. destruct (Z.leb_spec 0 i); [|done]. by rewrite !list_lookup_insert_ne by lia. Qed.
Lemma put_word_fits d q v : Forall (fits 8) d -> 0 <= v <= 65535 -> Forall (fits 8) (put_word d q v).
Proof.
  intros Hd Hv. unfold put_word. pose proof (Z.mod_pos_bound v 256 ltac:(lia)). pose proof (Z.div_pos v 256). pose proof (Z.div_lt_upper_bound v 256 256 ltac:(lia)).
  apply Forall_insert; [apply Forall_insert; [done|]|]; unfold fits; change (2 ^ 8) with 256; lia.
Qed.
Lemma put_word_twice d q v w : 0 <= q -> put_word (put_word d q v) q w = put_word d q w.
Proof. intros Hq. unfold put_word. rewrite (list_insert_insert_ne _ (Z.to_nat q) (Z.to_nat (q + 1))) by lia. rewrite list_insert_insert_eq. rewrite (list_insert_insert_ne d (Z.to_nat (q + 1)) (Z.to_nat q)) by lia. rewrite list_insert_insert_eq. by rewrite list_insert_insert_ne by lia. Qed.
Lemma words_put d p n k v : 0 <= p -> 0 <= k -> k + 2 <= n -> Z.odd k = false -> p + n <= Z.of_nat (length d) ->
  words (seg (put_word d (p + k) v) p n) = words (seg d p n) + v - (byte_of d (p + k) * 256 + byte_of d (p + k + 1)).
Proof.
  intros Hp Hk Hn Ho Hl. unfold put_word. rewrite <- Z.add_assoc. rewrite words_insert by (rewrite ?length_insert; lia). rewrite words_insert by lia.
  rewrite Z.odd_add, Ho. cbn [xorb]. change (Z.odd 1) with true. cbn [xorb]. cbv iota.
  assert (rd (<[Z.to_nat (p + k) := v / 256]> d) (p + (k + 1)) = rd d (p + (k + 1))) as ->.
  { unfold rd. rewrite (proj2 (Z.leb_le 0 _)) by lia. by rewrite list_lookup_insert_ne by lia. }
  fold (byte_of d (p + (k + 1))) (byte_of d (p + k)). pose proof (Z.div_mod v 256 ltac:(lia)). lia.
Qed.
Lemma pseudo_put d hlen plen proto off v : 20 <= hlen -> off = 16 \/ off = 6 -> off + 2 <= plen -> 14 + hlen + plen <= Z.of_nat (length d) ->
  pseudo_sum (put_word d (14 + hlen + off) v) hlen plen proto =
  pseudo_sum d hlen plen proto + v - (byte_of d (14 + hlen + off) * 256 + byte_of d (14 + hlen + off + 1)).
Proof.
  intros Hh Ho Hp Hl. unfold pseudo_sum. rewrite words_put by (lia || by destruct Ho as [-> | ->]). unfold put_word at 1. rewrite !seg_insert_out by lia. lia.
Qed.
(** The checksum written: the complement of the sum of the packet without one. *)
Definition checksum_of (d : list Z) (hlen plen proto off : Z) : Z := 65535 - fold16 (pseudo_sum (put_word d (14 + hlen + off) 0) hlen plen proto).
Lemma set_checksum_put d hlen plen proto off : Forall (fits 8) d -> 0 <= hlen -> 34 <= Z.of_nat (length d) -> off + 2 <= plen <= 65535 -> fits 8 proto -> off = 16 \/ off = 6 ->
  14 + hlen + plen <= Z.of_nat (length d) -> let csum := checksum_of d hlen plen proto off in
  0 <= csum <= 65535 /\ set_checksum hlen plen proto off d = Ok (tt, put_word d (14 + hlen + off) csum).
Proof.
  intros Hd Hh H34 Hp Hpr Ho Hl. cbv zeta. unfold checksum_of. set (q := 14 + hlen + off) in *. set (d1 := put_word d q 0). assert (Forall (fits 8) d1) as Hd1 by (apply put_word_fits; [done|lia]).
  assert (length d1 = length d) as L1 by apply put_word_length.
  pose proof (pseudo_sum_fits d1 hlen plen proto Hd1 ltac:(lia) Hpr ltac:(lia) ltac:(lia) ltac:(lia)) as HS. set (S := pseudo_sum d1 hlen plen proto) in *.
  destruct (fold16_complement S) as (Hb & _); [unfold fits in HS; lia|]. split; [lia|].
  unfold set_checksum. fold q. unfold mbind, ST_bind. rewrite data_set_ok by (unfold q; lia). rewrite data_set_ok by (rewrite length_insert; unfold q; lia).
  change (<[Z.to_nat (q + 1) := wrap 8 0]> (<[Z.to_nat q := wrap 8 0]> d)) with d1. unfold fits in Hpr. change (2 ^ 8) with 256 in Hpr.
  rewrite (wrap_fits 16 plen), (wrap_fits 16 proto) by (unfold fits; change (2 ^ 16) with 65536; lia). change (14 + 12) with 26. rewrite net_checksum_tcpudp_spec by (done || lia). fold S.
  rewrite data_set_ok by (unfold q; lia). rewrite data_set_ok by (rewrite length_insert; unfold q; lia). destruct (fits_bytes (65535 - fold16 S) ltac:(lia)) as [-> ->].
  do 2 f_equal. apply (put_word_twice d q 0). unfold q. lia.
Qed.
(** A header of at least five words: the checksum lies outside the pseudo-header. *)
Lemma checksum_of_zero d hlen plen proto off : Forall (fits 8) d -> 20 <= hlen -> off + 2 <= plen <= 65535 -> fits 8 proto -> off = 16 \/ off = 6 ->
  14 + hlen + plen <= Z.of_nat (length d) -> let d' := put_word d (14 + hlen + off) (checksum_of d hlen plen proto off) in
  pseudo_sum d' hlen plen proto mod 65535 = 0 /\ fold16 (pseudo_sum d' hlen plen proto) = 65535.
Proof.
  intros Hd Hh Hp Hpr Ho Hl. cbv zeta. unfold checksum_of. set (S := pseudo_sum (put_word d (14 + hlen + off) 0) hlen plen proto).
  assert (0 <= S) as HS by (apply pseudo_sum_fits; rewrite ?put_word_length; lia || done || by apply put_word_fits).
  assert (pseudo_sum (put_word d (14 + hlen + off) (65535 - fold16 S)) hlen plen proto = S + (65535 - fold16 S)) as ->
    by (unfold S; rewrite !pseudo_put by lia; lia).
  destruct (fold16_complement S HS) as (_ & Hf & Hm). done.
Qed.
Lemma set_checksum_fault d hlen plen proto off : Forall (fits 8) d -> 0 <= hlen -> off + 2 <= plen <= 65535 -> fits 8 proto -> off = 16 \/ off = 6 ->
  Z.of_nat (length d) < 14 + hlen + plen -> set_checksum hlen plen proto off d = Err Fault.
Proof.
  intros Hd Hh Hp Hpr Ho Hl. unfold set_checksum, mbind, ST_bind. set (q := 14 + hlen + off). assert (0 <= q) by (unfold q; lia).
  destruct (Z.lt_ge_cases q (Z.of_nat (length d))) as [Hq|Hq]; [|by rewrite data_set_fault]. rewrite data_set_ok by lia.
  destruct (Z.lt_ge_cases (q + 1) (Z.of_nat (length d))) as [Hq1|Hq1]; [|by rewrite data_set_fault by (rewrite length_insert; lia)]. rewrite data_set_ok by (rewrite length_insert; lia).
  unfold net_checksum_tcpudp, net_checksum_add, mbind, ST_bind. rewrite (wrap_fits 16 plen) by (unfold fits; change (2 ^ 16) with 65536; lia). rewrite sum_loop_fault; [done|lia|rewrite !length_insert; lia|rewrite !length_insert; unfold q in *; lia].
Qed.
(** C33: the checksum of a packet.  For a buffer of at least 24 bytes, that is one with the
    Ethernet header and the IP header up to the protocol, net_checksum_calculate leaves
    alone a packet that is not IPv4 with TCP or UDP, or whose segment is too short.
    If the length in the IP header reaches past the buffer it accesses memory out of
    bounds, whatever length the caller gives.  If the segment lies in the buffer, and so do the
    addresses (34 bytes), it ends and changes at most the two bytes at the checksum's
    offset behind the header length that the packet claims; if that is at least 20 bytes, as IP demands, the words
    of the pseudo-header and of the segment then add up to zero modulo 65535 and the
    receiver's check gives zero.  The code does not check that length: below 20 the two
    bytes may lie in the IP header itself, and nothing is said of the sum. *)
Theorem checksum_calculated len d : Forall (fits 8) d -> 24 <= Z.of_nat (length d) ->
  match checksum_site d with
  | None => net_checksum_calculate len d = Ok (tt, d)
  | Some (hlen, plen, proto, off) =>
    (Z.of_nat (length d) < 14 + hlen + plen -> net_checksum_calculate len d = Err Fault) /\
    (34 <= Z.of_nat (length d) -> 14 + hlen + plen <= Z.of_nat (length d) ->
     exists d', net_checksum_calculate len d = Ok (tt, d') /\
       (forall i, i <> 14 + hlen + off -> i <> 14 + hlen + off + 1 -> rd d' i = rd d i) /\
       (20 <= hlen -> pseudo_sum d' hlen plen proto mod 65535 = 0 /\
         net_checksum_tcpudp plen proto 26 (14 + hlen) d' = Ok (0, d')))
  end.
Proof.
  intros Hd Hl. rewrite calculate_site by done. destruct (checksum_site d) as [[[[hlen plen] proto] off]|] eqn:E; [|done].
  destruct (site_bounds d hlen plen proto off Hd E) as (Hh & Hp & Hpr & Ho). split; [by apply set_checksum_fault|]. intros H34 Hin.
  destruct (set_checksum_put d hlen plen proto off Hd Hh H34 Hp Hpr Ho Hin) as (Hc & Hr). eexists. split; [exact Hr|]. split.
  - intros i H1 H2. apply put_word_other; lia.
  - intros Hh2. destruct (checksum_of_zero d hlen plen proto off Hd Hh2 Hp Hpr Ho Hin) as (Hm & Hf). split; [exact Hm|].
    rewrite net_checksum_tcpudp_spec by (rewrite ?put_word_length; lia || done || by apply put_word_fits). by rewrite Hf.
Qed.
(** A UDP packet of one byte from 10.0.0.1 to 10.0.0.2. *)
Definition sample_packet : list Z :=
  replicate 12 0 ++ [8; 0; 0x45; 0; 0; 29; 0; 0; 0; 0; 64; 17; 0; 0; 10; 0; 0; 1; 10; 0; 0; 2; 0; 7; 0; 9; 0; 9; 1; 2; 0x61].
Example checksum_calculated_witness : checksum_site sample_packet = Some (20, 9, 17, 6) /\
  exists d, net_checksum_calculate 43 sample_packet = Ok (tt, d) /\ net_checksum_tcpudp 9 17 26 34 d = Ok (0, d) /\ byte_of d 40 = 0x8a.
Proof.
  split; [reflexivity|]. destruct (checksum_calculated 43 sample_packet) as [_ H]; [unfold fits; apply (bool_decide_eq_true_1 _); reflexivity|by vm_compute|].
  destruct (H ltac:(by vm_compute) ltac:(by vm_compute)) as (d & R & _ & V). destruct (V ltac:(done)) as [_ V1]. exists d. split; [exact R|]. split; [exact V1|]. vm_compute in R. injection R as <-. reflexivity.
Defined.
