(* ===== verification/NetQueue.v ===== *)
(** * NetQueue: the packet queue of a network (net/queue.c) and the hub (net.c)

    The receivers of the packets are not part of the queue: they are programs ([Prog]) that may
    send further packets on the same queue and flush it while they run, and the callback of
    a sender is such a program too.  [interp] runs one with the functions of the queue.
    The list [trace] records what happened; no function reads it. *)
From S2P Require Import Prelude Device.
#[local] Open Scope Z_scope.

(** ** Packets and programs *)
Record NetPacket := mkPacket { sender : nat; flags : Z; data : list Z; sent_cb : option Z }.
Record NetQueue := mkNetQueue { packets : list NetPacket; delivering : bool }.
#[export] Instance eta_packet : Eta NetPacket := fun r => mkPacket (sender r) (flags r) (data r) (sent_cb r).
#[export] Instance eta_netqueue : Eta NetQueue := fun r => mkNetQueue (packets r) (delivering r).
(** A receiver or callback that runs in a world [W]. *)
Inductive Prog (W A : Type) : Type :=
| Done (w : W) (a : A)
| Send (w : W) (p : NetPacket) (k : Z -> W -> Prog W A)
| Flush (w : W) (vc : nat) (k : W -> Prog W A)
| Stop (e : err).
Arguments Done {W A}. Arguments Send {W A}. Arguments Flush {W A}. Arguments Stop {W A}.
(** NetPacketDeliver, NetPacketDeliverIOV and NetPacketSent. *)
Class NetHandlers (W : Type) := {
  deliver : nat -> Z -> list Z -> W -> Prog W Z;
  deliver_iov : nat -> Z -> list (list Z) -> W -> Prog W Z;
  sent : Z -> nat -> Z -> W -> Prog W unit
}.
Inductive net_event : Type :=
| ESend (p : NetPacket)    (** qemu_net_queue_send is called *)
| EOffer (p : NetPacket)   (** the packet is given to the receiver *)
| EDirect (p : NetPacket)  (** it was taken at once *)
| EQueue (p : NetPacket)   (** it is put into the queue *)
| ETake (p : NetPacket)    (** it was taken out of the queue *)
| ECall (cb : Z) (from : nat) (ret : Z).
Record NetState (W : Type) := mkNet { net_queue : NetQueue; world : W; trace : list net_event }.
Arguments mkNet {W}. Arguments net_queue {W}. Arguments world {W}. Arguments trace {W}.

Section Queue.
Context {W : Type} `{NetHandlers W}.
Definition on_queue (f : NetQueue -> NetQueue) : ST (NetState W) unit := modify (fun s => mkNet (f (net_queue s)) (world s) (trace s)).
Definition set_world (w : W) : ST (NetState W) unit := modify (fun s => mkNet (net_queue s) w (trace s)).
Definition log (e : net_event) : ST (NetState W) unit := modify (fun s => mkNet (net_queue s) (world s) (trace s ++ [e])).
Definition packet_size (p : NetPacket) : Z := Z.of_nat (length (data p)).

Definition qemu_new_net_queue : NetQueue := mkNetQueue [] false.
Definition qemu_del_net_queue (q : NetQueue) : NetQueue := q <| packets := [] |>.
Definition qemu_net_queue_append (p : NetPacket) : ST (NetState W) Z :=
  log (EQueue p) ;; on_queue (fun q => q <| packets := packets q ++ [p] |>) ;; mret (packet_size p).
(** The pieces of a packet are copied one after the other. *)
Definition qemu_net_queue_append_iov (from : nat) (fl : Z) (iov : list (list Z)) (cb : option Z) : ST (NetState W) Z :=
  qemu_net_queue_append (mkPacket from fl (List.concat iov) cb).
(** Running a program, with the functions of the queue it may call. *)
Fixpoint interp {A} (send : NetPacket -> ST (NetState W) Z) (flush : ST (NetState W) unit) (m : Prog W A) : ST (NetState W) A :=
  match m with
  | Done w a => set_world w ;; mret a
  | Send w p k => set_world w ;; r ← send p; w ← gets world; interp send flush (k r w)
  | Flush w _ k => set_world w ;; flush ;; w ← gets world; interp send flush (k w)
  | Stop e => throw e
  end.
Definition qemu_net_queue_deliver (send : NetPacket -> ST (NetState W) Z) (flush : ST (NetState W) unit) (p : NetPacket) : ST (NetState W) Z :=
  on_queue (fun q => q <| delivering := true |>) ;;
  log (EOffer p) ;;
  w ← gets world;
  ret ← interp send flush (deliver (sender p) (flags p) (data p) w);
  on_queue (fun q => q <| delivering := false |>) ;;
  mret ret.
Definition qemu_net_queue_deliver_iov (send : NetPacket -> ST (NetState W) Z) (flush : ST (NetState W) unit) (from : nat) (fl : Z) (iov : list (list Z)) (cb : option Z) : ST (NetState W) Z :=
  on_queue (fun q => q <| delivering := true |>) ;;
  log (EOffer (mkPacket from fl (List.concat iov) cb)) ;;
  w ← gets world;
  ret ← interp send flush (deliver_iov from fl iov w);
  on_queue (fun q => q <| delivering := false |>) ;;
  mret ret.
(** The functions call each other through the receivers. *)
Fixpoint qemu_net_queue_send (fuel : nat) (p : NetPacket) : ST (NetState W) Z :=
  match fuel with
  | O => throw OutOfFuel
  | S fuel =>
    log (ESend p) ;;
    q ← gets net_queue;
    if delivering q then qemu_net_queue_append (p <| sent_cb := None |>)
    else
      ret ← qemu_net_queue_deliver (qemu_net_queue_send fuel) (qemu_net_queue_flush fuel) p;
      if ret =? 0 then qemu_net_queue_append p ;; mret 0
      else log (EDirect p) ;; qemu_net_queue_flush fuel ;; mret ret
  end
with qemu_net_queue_flush (fuel : nat) : ST (NetState W) unit :=
  match fuel with
  | O => throw OutOfFuel
  | S fuel =>
    q ← gets net_queue;
    match packets q with
    | [] => mret tt
    | p :: ps =>
      on_queue (fun q => q <| packets := ps |>) ;;
      ret ← qemu_net_queue_deliver (qemu_net_queue_send fuel) (qemu_net_queue_flush fuel) p;
      if s32 ret =? 0 then on_queue (fun q => q <| packets := p :: packets q |>)
      else
        log (ETake p) ;;
        match sent_cb p with
        | Some cb =>
          log (ECall cb (sender p) (s32 ret)) ;;
          w ← gets world;
          interp (qemu_net_queue_send fuel) (qemu_net_queue_flush fuel) (sent cb (sender p) (s32 ret) w)
        | None => mret tt
        end ;;
        qemu_net_queue_flush fuel
    end
  end.
Definition qemu_net_queue_send_iov (fuel : nat) (from : nat) (fl : Z) (iov : list (list Z)) (cb : option Z) : ST (NetState W) Z :=
  log (ESend (mkPacket from fl (List.concat iov) cb)) ;;
  q ← gets net_queue;
  if delivering q then qemu_net_queue_append_iov from fl iov None
  else
    ret ← qemu_net_queue_deliver_iov (qemu_net_queue_send fuel) (qemu_net_queue_flush fuel) from fl iov cb;
    if ret =? 0 then qemu_net_queue_append_iov from fl iov cb ;; mret 0
    else log (EDirect (mkPacket from fl (List.concat iov) cb)) ;; qemu_net_queue_flush fuel ;; mret ret.
Definition qemu_net_queue_purge (from : nat) : ST (NetState W) unit :=
  on_queue (fun q => q <| packets := List.filter (fun p => negb (sender p =? from)%nat) (packets q) |>).
End Queue.

(** ** The hub of net.c *)
Definition QEMU_NET_PACKET_FLAG_RAW : Z := 1.
Record VLANClientState := mkClient { link_down : bool; receive_disabled : bool; has_receive_raw : bool }.
#[export] Instance eta_client : Eta VLANClientState := fun r => mkClient (link_down r) (receive_disabled r) (has_receive_raw r).
Record VLANState (X : Type) := mkVlan { clients : list VLANClientState; ext : X }.
Arguments mkVlan {X}. Arguments clients {X}. Arguments ext {X}.
(** The functions of the clients (NetClientInfo), which run in the world [X] of the
    devices; [receive_iov] and [can_receive] may be missing. *)
Class NetClients (X : Type) := {
  receive : nat -> bool -> list Z -> X -> Prog X Z;
  receive_iov : nat -> option (list (list Z) -> X -> Prog X Z);
  packet_sent : Z -> nat -> Z -> X -> Prog X unit;
  can_receive : nat -> option (X -> bool)
}.
Section Hub.
Context {X : Type} `{NetClients X}.
Definition on_client (i : nat) (f : VLANClientState -> VLANClientState) (w : VLANState X) : VLANState X := mkVlan (alter f i (clients w)) (ext w).
Definition is_down (w : VLANState X) (i : nat) : bool := match clients w !! i with Some vc => link_down vc | None => false end.
(** What a client does to the network goes through qemu_send_packet_async_with_flags and
    qemu_flush_queued_packets. *)
Fixpoint lift {A} (m : Prog X A) (w : VLANState X) : Prog (VLANState X) A :=
  match m with
  | Done x a => Done (mkVlan (clients w) x) a
  | Send x p k =>
    if is_down w (sender p) then lift (k (packet_size p) x) (mkVlan (clients w) x)
    else Send (mkVlan (clients w) x) p (fun r w => lift (k r (ext w)) w)
  | Flush x vc k => Flush (on_client vc (fun c => c <| receive_disabled := false |>) (mkVlan (clients w) x)) vc (fun w => lift (k (ext w)) w)
  | Stop e => Stop e
  end.
Fixpoint pbind {W A B} (m : Prog W A) (f : A -> W -> Prog W B) : Prog W B :=
  match m with
  | Done w a => f a w
  | Send w p k => Send w p (fun r w => pbind (k r w) f)
  | Flush w vc k => Flush w vc (fun w => pbind (k w) f)
  | Stop e => Stop e
  end.
(** The loop over the clients, from the ones of [l] on. *)
Fixpoint vlan_deliver (l : list nat) (from : nat) (fl : Z) (buf : list Z) (ret : Z) (w : VLANState X) : Prog (VLANState X) Z :=
  match l with
  | [] => Done w ret
  | i :: l =>
    match clients w !! i with
    | None => vlan_deliver l from fl buf ret w
    | Some vc =>
      if (i =? from)%nat then vlan_deliver l from fl buf ret w
      else if link_down vc then vlan_deliver l from fl buf (Z.of_nat (length buf)) w
      else if receive_disabled vc then vlan_deliver l from fl buf 0 w
      else
        pbind (lift (receive i (truth (Z.land fl QEMU_NET_PACKET_FLAG_RAW) && has_receive_raw vc) buf (ext w)) w) (fun len w =>
          vlan_deliver l from fl buf (if 0 <=? ret then ret else len)
            (if len =? 0 then on_client i (fun c => c <| receive_disabled := true |>) w else w))
    end
  end.
Definition qemu_vlan_deliver_packet (from : nat) (fl : Z) (buf : list Z) (w : VLANState X) : Prog (VLANState X) Z :=
  vlan_deliver (seq 0 (length (clients w))) from fl buf (-1) w.
(** The pieces are copied into a buffer of 4096 bytes. *)
Definition vc_sendv_compat (i : nat) (iov : list (list Z)) : X -> Prog X Z := receive i false (take 4096 (List.concat iov)).
Definition calc_iov_length (iov : list (list Z)) : Z := Z.of_nat (length (List.concat iov)).
Fixpoint vlan_deliver_iov (l : list nat) (from : nat) (fl : Z) (iov : list (list Z)) (ret : Z) (w : VLANState X) : Prog (VLANState X) Z :=
  match l with
  | [] => Done w ret
  | i :: l =>
    match clients w !! i with
    | None => vlan_deliver_iov l from fl iov ret w
    | Some vc =>
      if (i =? from)%nat then vlan_deliver_iov l from fl iov ret w
      else if link_down vc then vlan_deliver_iov l from fl iov (calc_iov_length iov) w
      else if truth (Z.land fl QEMU_NET_PACKET_FLAG_RAW) then Stop HwError
      else
        pbind (lift (match receive_iov i with Some f => f iov (ext w) | None => vc_sendv_compat i iov (ext w) end) w) (fun len w =>
          vlan_deliver_iov l from fl iov (if 0 <=? ret then ret else len) w)
    end
  end.
Definition qemu_vlan_deliver_packet_iov (from : nat) (fl : Z) (iov : list (list Z)) (w : VLANState X) : Prog (VLANState X) Z :=
  vlan_deliver_iov (seq 0 (length (clients w))) from fl iov (-1) w.
#[export] Instance hub_handlers : NetHandlers (VLANState X) := {
  deliver := qemu_vlan_deliver_packet;
  deliver_iov := qemu_vlan_deliver_packet_iov;
  sent cb from ret w := lift (packet_sent cb from ret (ext w)) w
}.
(** The functions of net.c for a client of the hub. *)
Definition qemu_can_send_packet (from : nat) (w : VLANState X) : bool :=
  existsb (fun i => negb (i =? from)%nat && match can_receive i with None => true | Some f => f (ext w) end) (seq 0 (length (clients w))).
Definition qemu_send_packet_async_with_flags (n : nat) (from : nat) (fl : Z) (buf : list Z) (cb : option Z) : ST (NetState (VLANState X)) Z :=
  w ← gets world;
  if is_down w from then mret (Z.of_nat (length buf)) else qemu_net_queue_send n (mkPacket from fl buf cb).
Definition qemu_sendv_packet_async (n : nat) (from : nat) (iov : list (list Z)) (cb : option Z) : ST (NetState (VLANState X)) Z :=
  w ← gets world;
  if is_down w from then mret (calc_iov_length iov) else qemu_net_queue_send_iov n from 0 iov cb.
Definition qemu_flush_queued_packets (n : nat) (vc : nat) : ST (NetState (VLANState X)) unit :=
  w ← gets world; set_world (on_client vc (fun c => c <| receive_disabled := false |>) w) ;; qemu_net_queue_flush n.
Definition qemu_purge_queued_packets (vc : nat) : ST (NetState (VLANState X)) unit := qemu_net_queue_purge vc.
End Hub.
(** ** What a trace tells *)
Definition ev_sent (e : net_event) : option NetPacket := match e with ESend p => Some (p <| sent_cb := None |>) | _ => None end.
Definition ev_offered (e : net_event) : option NetPacket := match e with EOffer p => Some (p <| sent_cb := None |>) | _ => None end.
Definition ev_queued (e : net_event) : option NetPacket := match e with EQueue p => Some p | _ => None end.
Definition ev_direct (e : net_event) : option NetPacket := match e with EDirect p => Some p | _ => None end.
Definition ev_taken (e : net_event) : option NetPacket := match e with ETake p => Some p | _ => None end.
Definition ev_called (e : net_event) : option (Z * nat) := match e with ECall cb from _ => Some (cb, from) | _ => None end.
Definition plain (p : NetPacket) : NetPacket := p <| sent_cb := None |>.
Definition callback_of (p : NetPacket) : option (Z * nat) := cb ← sent_cb p; Some (cb, sender p).
(** Between two states no packet is lost or doubled: every packet sent was taken at once or
    queued, every packet queued was taken or is in the queue, and the callbacks of the
    queued packets that were taken, and no others, have been called, in order. *)
Definition conserves {W} (s s' : NetState W) : Prop := exists tr, trace s' = trace s ++ tr /\
  omap ev_sent tr ≡ₚ map plain (omap ev_direct tr ++ omap ev_queued tr) /\
  packets (net_queue s) ++ omap ev_queued tr ≡ₚ omap ev_taken tr ++ packets (net_queue s') /\
  omap ev_called tr = omap callback_of (omap ev_taken tr).
Lemma conserves_step {W} (s s' : NetState W) tr : trace s' = trace s ++ tr ->
  omap ev_sent tr = map plain (omap ev_direct tr ++ omap ev_queued tr) ->
  packets (net_queue s) ++ omap ev_queued tr = omap ev_taken tr ++ packets (net_queue s') ->
  omap ev_called tr = omap callback_of (omap ev_taken tr) -> conserves s s'.
Proof. intros H1 H2 H3 H4. exists tr. by rewrite H2, H3. Qed.
Lemma conserves_refl {W} (s s' : NetState W) : trace s' = trace s -> packets (net_queue s') = packets (net_queue s) -> conserves s s'.
Proof. intros H1 H2. apply (conserves_step s s' []); [by rewrite app_nil_r|done|by rewrite app_nil_r, H2|done]. Qed.
Lemma conserves_trans {W} (s1 s2 s3 : NetState W) : conserves s1 s2 -> conserves s2 s3 -> conserves s1 s3.
Proof.
  intros (t1 & E1 & A1 & B1 & C1) (t2 & E2 & A2 & B2 & C2). exists (t1 ++ t2). rewrite !omap_app. split_and!.
  - by rewrite E2, E1, app_assoc.
  - rewrite A1, A2, <- map_app. apply Permutation_map. rewrite <- !app_assoc. apply Permutation_app_head. rewrite !app_assoc. apply Permutation_app_tail, Permutation_app_comm.
  - rewrite app_assoc, B1, <- !app_assoc, B2. done.
  - by rewrite C1, C2.
Qed.

Section Total.
Context {W : Type} `{NetHandlers W} (credit : W -> nat).
(** The packets a program may still send are limited by the credit of the world. *)
Fixpoint paid {A} (n : nat) (m : Prog W A) : Prop :=
  match m with
  | Done w _ => (credit w <= n)%nat
  | Send w _ k => (credit w < n)%nat /\ forall r w', (credit w' <= credit w)%nat -> paid (credit w') (k r w')
  | Flush w _ k => (credit w <= n)%nat /\ forall w', (credit w' <= credit w)%nat -> paid (credit w') (k w')
  | Stop _ => False
  end.
Class PaidHandlers : Prop := {
  deliver_paid from fl d w : paid (credit w) (deliver from fl d w);
  sent_paid cb from r w : paid (credit w) (sent cb from r w)
}.
Definition measure (s : NetState W) : nat := 2 * credit (world s) + length (packets (net_queue s)).
(** What the functions of the queue do, for any state they can finish from with [n] turns. *)
Definition send_total (n : nat) (send : NetPacket -> ST (NetState W) Z) : Prop := forall p s, (measure s + 2 <= n)%nat ->
  wp no_err (send p) (fun _ s' => conserves s s' /\ (measure s' <= measure s + 1)%nat /\ (credit (world s') <= credit (world s))%nat) s.
Definition flush_total (n : nat) (flush : ST (NetState W) unit) : Prop := forall s, (measure s + 1 <= n)%nat ->
  wp no_err flush (fun _ s' => conserves s s' /\ (measure s' <= measure s)%nat /\ (credit (world s') <= credit (world s))%nat) s.
Lemma interp_total n send flush {A} (m : Prog W A) : send_total n send -> flush_total n flush -> forall c s, paid c m -> (credit (world s) <= c)%nat ->
  (2 * c + length (packets (net_queue s)) + 1 <= n)%nat ->
  wp no_err (interp send flush m) (fun _ s' => conserves s s' /\ (measure s' <= 2 * c + length (packets (net_queue s)))%nat /\ (credit (world s') <= c)%nat) s.
Proof.
  intros Hs Hf. induction m as [w a|w p k IH|w vc k IH|e]; intros c s Hp Hw Hn; cbn [interp]; unfold set_world.
  - cbn [paid] in Hp. wp_steps. split; [by apply conserves_refl|]. unfold measure. cbn [world net_queue]. lia.
  - destruct Hp as [Hc Hk]. wp_steps. set (s1 := mkNet _ _ _). assert (measure s1 = 2 * credit w + length (packets (net_queue s)))%nat as Hm by done.
    assert (conserves s s1) as C1 by by apply conserves_refl.
    eapply wp_mono; [apply Hs; lia|]. intros r s2 (C2 & M2 & W2). wp_steps. cbn [world s1] in W2. eapply wp_mono; [apply (IH r (world s2) (credit (world s2)) s2 (Hk r _ W2)); unfold measure in *; lia|].
    intros a s3 (C3 & M3 & W3). split; [eauto using conserves_trans|]. unfold measure in *. lia.
  - destruct Hp as [Hc Hk]. wp_steps. set (s1 := mkNet _ _ _). assert (measure s1 = 2 * credit w + length (packets (net_queue s)))%nat as Hm by done.
    assert (conserves s s1) as C1 by by apply conserves_refl.
    eapply wp_mono; [apply Hf; lia|]. intros [] s2 (C2 & M2 & W2). wp_steps. cbn [world s1] in W2. eapply wp_mono; [apply (IH (world s2) (credit (world s2)) s2 (Hk _ W2)); unfold measure in *; lia|].
    intros a s3 (C3 & M3 & W3). split; [eauto using conserves_trans|]. unfold measure in *. lia.
  - destruct Hp.
Qed.
Lemma conserves_sent (s s1 s2 s3 : NetState W) p e : trace s1 = trace s ++ [ESend p] -> packets (net_queue s1) = packets (net_queue s) -> conserves s1 s2 ->
  trace s3 = trace s2 ++ [e] -> (e = EQueue p /\ packets (net_queue s3) = packets (net_queue s2) ++ [p] \/ e = EDirect p /\ packets (net_queue s3) = packets (net_queue s2)) -> conserves s s3.
Proof.
  intros T1 P1 (tr & T2 & A & B & C) T3 He. exists (ESend p :: tr ++ [e]). split; [by rewrite T3, T2, T1, <- !app_assoc|]. cbn [omap list_omap ev_sent ev_direct ev_queued ev_taken ev_called]. rewrite P1 in B.
  change (p <| sent_cb := None |>) with (plain p). destruct He as [[-> ->]|[-> ->]]; rewrite !omap_app; cbn [omap list_omap ev_sent ev_direct ev_queued ev_taken ev_called]; rewrite ?app_nil_r.
  - split_and!; [|rewrite app_assoc, B; by rewrite app_assoc|done]. rewrite A, app_assoc, (map_app plain (_ ++ _)). apply Permutation_cons_append.
  - split_and!; [|done|done]. rewrite A, <- app_assoc, !map_app. apply Permutation_middle.
Qed.
Lemma conserves_blocked (s s1 s2 s3 : NetState W) p : trace s1 = trace s -> packets (net_queue s) = p :: packets (net_queue s1) -> conserves s1 s2 ->
  trace s3 = trace s2 -> packets (net_queue s3) = p :: packets (net_queue s2) -> conserves s s3.
Proof.
  intros T1 P1 (tr & T2 & A & B & C) T3 P3. exists tr. split; [by rewrite T3, T2, T1|]. split_and!; [done| |done]. rewrite P1, P3. cbn [app]. rewrite B. by apply Permutation_middle.
Qed.
Lemma conserves_taken (s s1 s2 s3 : NetState W) p tr3 : trace s1 = trace s -> packets (net_queue s) = p :: packets (net_queue s1) -> conserves s1 s2 ->
  trace s3 = trace s2 ++ ETake p :: tr3 -> tr3 = match sent_cb p with Some cb => tr3 | None => [] end ->
  (forall cb, sent_cb p = Some cb -> exists r, tr3 = [ECall cb (sender p) r]) -> packets (net_queue s3) = packets (net_queue s2) -> conserves s s3.
Proof.
  intros T1 P1 (tr & T2 & A & B & C) T3 Hn Hc P3. exists (tr ++ ETake p :: tr3). split; [by rewrite T3, T2, T1, <- !app_assoc|]. rewrite !omap_app. cbn [omap list_omap ev_sent ev_direct ev_queued ev_taken ev_called].
  assert (omap ev_sent tr3 = [] /\ omap ev_direct tr3 = [] /\ omap ev_queued tr3 = [] /\ omap ev_taken tr3 = [] /\ omap ev_called tr3 = omap callback_of [p]) as (-> & -> & -> & -> & ->).
  { unfold callback_of. cbn [omap list_omap]. destruct (sent_cb p) as [cb|] eqn:E; [|by subst]. destruct (Hc cb eq_refl) as (r & ->). done. }
  rewrite !app_nil_r. split_and!; [done| |].
  - rewrite P1, P3. cbn [app]. rewrite B, <- app_assoc. by apply Permutation_middle.
  - by rewrite C.
Qed.
Context `{PaidHandlers}.
Lemma deliver_total n send flush p s : send_total n send -> flush_total n flush -> (measure s + 1 <= n)%nat ->
  wp no_err (qemu_net_queue_deliver send flush p) (fun _ s' => conserves s s' /\ (measure s' <= measure s)%nat /\ (credit (world s') <= credit (world s))%nat) s.
Proof.
  intros Hs Hf Hn. unfold qemu_net_queue_deliver, on_queue, log. wp_steps. set (s1 := mkNet _ _ _).
  assert (conserves s s1) as C1 by (apply (conserves_step _ _ [EOffer p]); [done|done|apply app_nil_r|done]). eapply wp_mono; [apply (interp_total n _ _ _ Hs Hf (credit (world s)) s1 (deliver_paid _ _ _ _)); [done|exact Hn]|].
  intros r s2 (C2 & M2 & W2). wp_steps. split; [|done]. eapply conserves_trans; [exact C1|]. eapply conserves_trans; [exact C2|]. by apply conserves_refl.
Qed.
Lemma queue_total n : send_total n (qemu_net_queue_send n) /\ flush_total n (qemu_net_queue_flush n).
Proof.
  induction n as [|n [IHs IHf]]; [split; intros ? *; lia|]. split.
  - intros p s Hn. cbn [qemu_net_queue_send]. unfold log. wp_steps. set (s1 := mkNet _ _ _). destruct (delivering _) eqn:Ed.
    + unfold qemu_net_queue_append, log, on_queue. wp_steps. split; [apply (conserves_step _ _ [ESend p; EQueue (p <| sent_cb := None |>)]); [cbn; by rewrite <- app_assoc|done..]|]. unfold measure. cbn. rewrite length_app. cbn. lia.
    + eapply wp_bind, wp_mono; [apply (deliver_total n _ _ p s1 IHs IHf); unfold measure in *; cbn; lia|]. intros ret s2 (C2 & M2 & W2). change (measure s1) with (measure s) in M2. cbn [world s1] in W2. wp_if.
      * unfold qemu_net_queue_append, log, on_queue. wp_steps. split; [by eapply (conserves_sent s s1 s2); [..|left]|]. unfold measure in *. cbn. rewrite length_app. cbn. lia.
      * wp_step. wp_step. set (s3 := mkNet _ _ _). assert (conserves s s3) as C3 by (by eapply (conserves_sent s s1 s2); [..|right]).
        eapply wp_bind, wp_mono; [apply IHf; unfold measure in *; cbn; lia|]. intros [] s4 (C4 & M4 & W4). wp_steps. split; [eauto using conserves_trans|]. unfold measure in *. cbn in *. lia.
  - intros s Hn. cbn [qemu_net_queue_flush]. wp_steps. destruct (packets (net_queue s)) as [|p ps] eqn:Ep; [wp_steps; by split; [apply conserves_refl|]|].
    unfold on_queue. wp_steps. set (s1 := mkNet _ _ _). assert (measure s = S (measure s1)) as Hm by (unfold measure; rewrite Ep; cbn; lia).
    eapply wp_mono; [apply (deliver_total n _ _ p s1 IHs IHf); lia|]. intros ret s2 (C2 & M2 & W2). cbn [world s1] in W2. wp_if.
    + wp_steps. split; [by eapply (conserves_blocked s s1 s2)|]. unfold measure in *. cbn in *. lia.
    + unfold log. wp_steps. set (s3 := mkNet _ _ _). destruct (sent_cb p) as [cb|] eqn:Ec.
      * wp_steps. set (s4 := mkNet _ _ _). assert (conserves s s4) as C4 by (eapply (conserves_taken s s1 s2 s4 p [ECall cb (sender p) (s32 ret)]); [done|by rewrite Ep|done|by cbn; rewrite <- app_assoc|by rewrite Ec|intros cb' E; rewrite Ec in E; injection E as <-; by eexists|done]).
        assert (measure s4 = measure s2) as M4 by done.
        eapply wp_mono; [apply (interp_total n _ _ _ IHs IHf (credit (world s4)) s4 (sent_paid _ _ _ _)); [done|unfold measure in *; lia]|].
        intros [] s5 (C5 & M5 & W5). eapply wp_mono; [apply IHf; unfold measure in *; lia|]. intros [] s6 (C6 & M6 & W6). split; [eauto using conserves_trans|]. cbn [world s4] in *. unfold measure in *. cbn in *. lia.
      * assert (conserves s s3) as C3 by (eapply (conserves_taken s s1 s2 s3 p []); [done|by rewrite Ep|done|done|by rewrite Ec|by rewrite Ec|done]).
        wp_steps. eapply wp_mono; [apply IHf; unfold measure in *; cbn in *; lia|]. intros [] s6 (C6 & M6 & W6). split; [eauto using conserves_trans|]. unfold measure in *. cbn in *. lia.
Qed.
End Total.
(** ** A receiver that is always ready *)
Section Fifo.
Context {W : Type} `{NetHandlers W} (good : W -> Prop).
(** As long as the world is [good], the receiver takes every packet and keeps it so. *)
Fixpoint ready (m : Prog W Z) : Prop :=
  match m with
  | Done w a => good w /\ s32 a <> 0
  | Send w _ k => good w /\ forall r w', good w' -> ready (k r w')
  | Flush w _ k => good w /\ forall w', good w' -> ready (k w')
  | Stop _ => False
  end.
Class ReadyHandlers : Prop := deliver_ready from fl d w : good w -> ready (deliver from fl d w).
(** Packets are offered to the receiver in the order they are sent; those not offered yet
    are in the queue, in that order; no callback is called. *)
Definition in_order (s s' : NetState W) : Prop := exists tr, trace s' = trace s ++ tr /\
  map plain (packets (net_queue s)) ++ omap ev_sent tr = omap ev_offered tr ++ map plain (packets (net_queue s')) /\ omap ev_called tr = [].
Definition no_callbacks (s : NetState W) : Prop := Forall (fun p => sent_cb p = None) (packets (net_queue s)).
Definition calm (s : NetState W) : Prop := no_callbacks s /\ good (world s) /\ (delivering (net_queue s) = false -> packets (net_queue s) = []).
Lemma in_order_refl (s s' : NetState W) : trace s' = trace s -> packets (net_queue s') = packets (net_queue s) -> in_order s s'.
Proof. intros T P. exists []. by rewrite P, !app_nil_r. Qed.
Lemma in_order_trans (s1 s2 s3 : NetState W) : in_order s1 s2 -> in_order s2 s3 -> in_order s1 s3.
Proof.
  intros (t1 & T1 & A1 & C1) (t2 & T2 & A2 & C2). exists (t1 ++ t2). rewrite !omap_app, C1, C2. split; [by rewrite T2, T1, app_assoc|]. split; [|done].
  by rewrite app_assoc, A1, <- !app_assoc, A2.
Qed.
(** Events around a step. *)
Lemma in_order_around (s s1 s2 s3 : NetState W) l l' : trace s1 = trace s ++ l -> in_order s1 s2 -> trace s3 = trace s2 ++ l' -> packets (net_queue s3) = packets (net_queue s2) ->
  omap ev_sent l' = [] -> omap ev_offered l' = [] -> omap ev_called (l ++ l') = [] ->
  map plain (packets (net_queue s)) ++ omap ev_sent l = omap ev_offered l ++ map plain (packets (net_queue s1)) -> in_order s s3.
Proof.
  intros T1 (tr & T2 & A & C) T3 P3 S3 O3 C3 Hl. rewrite omap_app in C3. apply app_eq_nil in C3 as [C3 C3']. exists (l ++ tr ++ l'). rewrite !omap_app, S3, O3, C, C3, C3', !app_nil_r, P3. split; [|split; [|done]].
  - by rewrite T3, T2, T1, <- !app_assoc.
  - by rewrite app_assoc, Hl, <- !app_assoc, A.
Qed.
Definition send_ordered (send : NetPacket -> ST (NetState W) Z) : Prop := forall p s, calm s ->
  wp any_err (send p) (fun _ s' => in_order s s' /\ calm s' /\ (delivering (net_queue s) = false -> packets (net_queue s') = [])) s.
Definition flush_ordered (flush : ST (NetState W) unit) : Prop := forall s, no_callbacks s -> good (world s) ->
  wp any_err flush (fun _ s' => in_order s s' /\ packets (net_queue s') = [] /\ good (world s')) s.
Lemma calm_empty s : packets (net_queue s) = [] -> good (world s) -> calm s.
Proof. intros P G. split; [unfold no_callbacks; by rewrite P|done]. Qed.
Lemma interp_ordered send flush (m : Prog W Z) : send_ordered send -> flush_ordered flush -> forall s, ready m -> calm s ->
  wp any_err (interp send flush m) (fun r s' => in_order s s' /\ no_callbacks s' /\ good (world s') /\ s32 r <> 0) s.
Proof.
  intros Hs Hf. induction m as [w a|w p k IH|w vc k IH|e]; intros s Hr Hc; cbn [interp]; unfold set_world; [..|destruct Hr]; destruct Hr as [Hg Hr].
  - wp_steps. split; [by apply in_order_refl|]. split; [apply Hc|done].
  - wp_steps. set (s1 := mkNet _ _ _). assert (in_order s s1) as O1 by by apply in_order_refl. assert (calm s1) as C1 by by split; [apply Hc|split; [|apply Hc]].
    eapply wp_mono; [by apply (Hs p s1)|]. intros r s2 (O2 & C2 & _). wp_steps.
    eapply wp_mono; [apply (IH r (world s2) s2 (Hr _ _ (proj1 (proj2 C2))) C2)|]. intros a s3 (O3 & N3 & R3). split; [eauto using in_order_trans|done].
  - wp_steps. set (s1 := mkNet _ _ _). assert (in_order s s1) as O1 by by apply in_order_refl. eapply wp_mono; [by apply (Hf s1); [apply Hc|]|]. intros [] s2 (O2 & P2 & G2). wp_steps.
    eapply wp_mono; [apply (IH (world s2) s2 (Hr _ G2) (calm_empty _ P2 G2))|]. intros a s3 (O3 & N3 & R3). split; [eauto using in_order_trans|done].
Qed.
Context `{ReadyHandlers}.
Lemma deliver_ordered send flush p s : send_ordered send -> flush_ordered flush -> no_callbacks s -> good (world s) ->
  wp any_err (qemu_net_queue_deliver send flush p)
    (fun r s' => in_order (mkNet (net_queue s) (world s) (trace s ++ [EOffer p])) s' /\ no_callbacks s' /\ good (world s') /\ s32 r <> 0) s.
Proof.
  intros Hs Hf Hn Hg. unfold qemu_net_queue_deliver, on_queue, log. wp_steps. set (s1 := mkNet _ _ _). assert (calm s1) as C1 by by split; [|split].
  eapply wp_mono; [apply (interp_ordered _ _ _ Hs Hf s1 (deliver_ready _ _ _ _ Hg) C1)|]. intros r s2 (O2 & N2 & R2). wp_steps. split; [|done].
  eapply in_order_trans; [|eapply in_order_trans; [exact O2|by apply in_order_refl]]. by apply in_order_refl.
Qed.
Lemma ready_nonzero r : s32 r <> 0 -> (s32 r =? 0) = false /\ (r =? 0) = false.
Proof. intros Hr. split; [by apply Z.eqb_neq|]. apply Z.eqb_neq. by intros ->. Qed.
Lemma queue_ordered n : send_ordered (qemu_net_queue_send n) /\ flush_ordered (qemu_net_queue_flush n).
Proof.
  induction n as [|n [IHs IHf]]; [split; intros ? *; done|]. split.
  - intros p s (Hn & Hg & Hd). cbn [qemu_net_queue_send]. unfold log. wp_steps. set (s1 := mkNet _ _ _). destruct (delivering _) eqn:Ed.
    + unfold qemu_net_queue_append, log, on_queue. wp_steps. split; [|split].
      * exists [ESend p; EQueue (p <| sent_cb := None |>)]. split; [cbn; by rewrite <- app_assoc|]. split; [|done]. cbn. by rewrite map_app.
      * split; [|split; [done|cbn; rewrite Ed; done]]. unfold no_callbacks. cbn. apply Forall_app. by split; [|constructor].
      * done.
    + specialize (Hd eq_refl). eapply wp_bind, wp_mono; [apply (deliver_ordered _ _ p s1 IHs IHf Hn Hg)|]. intros r s2 (O2 & N2 & G2 & R2). destruct (ready_nonzero r R2) as [_ ->].
      wp_steps. set (s3 := mkNet _ _ _). assert (in_order s s3) as O3.
      { eapply (in_order_around s _ s2 s3 [ESend p; EOffer p] [EDirect p]); [|exact O2|done..|]; [cbn; by rewrite <- app_assoc|cbn; by rewrite Hd]. }
      eapply wp_mono; [by apply IHf|]. intros [] s4 (O4 & P4 & G4). wp_steps. split; [by eapply in_order_trans|]. split; [by apply calm_empty|done].
  - intros s Hn Hg. cbn [qemu_net_queue_flush]. wp_steps. unfold no_callbacks in Hn. destruct (packets (net_queue s)) as [|p ps] eqn:Ep; [wp_steps; by split; [apply in_order_refl|]|].
    destruct (Forall_cons_1 _ _ _ Hn) as [Hp Hn1]. unfold on_queue. wp_steps. set (s1 := mkNet _ _ _).
    eapply wp_mono; [apply (deliver_ordered _ _ p s1 IHs IHf Hn1 Hg)|]. intros r s2 (O2 & N2 & G2 & R2). destruct (ready_nonzero r R2) as [-> _]. rewrite Hp.
    unfold log. wp_steps. set (s3 := mkNet _ _ _). assert (in_order s s3) as O3.
    { eapply (in_order_around s _ s2 s3 [EOffer p] [ETake p]); [|exact O2|done..|]; [done|cbn; by rewrite Ep, app_nil_r]. }
    eapply wp_mono; [by apply IHf|]. intros [] s4 (O4 & P4 & G4). split; [by eapply in_order_trans|done].
Qed.
End Fifo.

(** ** The hub as a receiver *)
Section HubFacts.
Context {X : Type} `{NetClients X}.
Lemma paid_mono {W A} (credit : W -> nat) n n' (m : Prog W A) : paid credit n m -> (n <= n')%nat -> paid credit n' m.
Proof. destruct m; cbn; intros Hp Hn; [lia|split; [lia|apply Hp]|split; [lia|apply Hp]|done]. Qed.
Lemma pbind_paid {W A B} (credit : W -> nat) n (m : Prog W A) (f : A -> W -> Prog W B) : paid credit n m -> (forall a w, paid credit (credit w) (f a w)) -> paid credit n (pbind m f).
Proof.
  intros Hm Hf. revert n Hm. induction m as [w a|w p k IH|w vc k IH|e]; intros n Hm; cbn [pbind paid] in *; [..|done].
  - by eapply paid_mono.
  - destruct Hm as [Hc Hk]. split; [done|]. intros r w' Hw. by apply IH, Hk.
  - destruct Hm as [Hc Hk]. split; [done|]. intros w' Hw. by apply IH, Hk.
Qed.
Context (creditX : X -> nat).
Definition hub_credit (w : VLANState X) : nat := creditX (ext w).
Class PaidClients : Prop := {
  receive_paid i raw d x : paid creditX (creditX x) (receive i raw d x);
  packet_sent_paid cb from r x : paid creditX (creditX x) (packet_sent cb from r x)
}.
Lemma lift_paid {A} (m : Prog X A) n w : paid creditX n m -> paid hub_credit n (lift m w).
Proof.
  revert n w. induction m as [x a|x p k IH|x vc k IH|e]; intros n w Hm; cbn [lift paid] in *; [done|..|done]; destruct Hm as [Hc Hk].
  - destruct (is_down w (sender p)).
    + eapply paid_mono; [apply IH, Hk|]; lia.
    + split; [done|]. intros r w' Hw. by apply IH, Hk.
  - split; [done|]. intros w' Hw. by apply IH, Hk.
Qed.
#[export] Instance hub_paid : PaidClients -> PaidHandlers hub_credit.
Proof.
  intros HP. split; [|intros; apply lift_paid, packet_sent_paid]. intros from fl d w. cbn [deliver hub_handlers]. unfold qemu_vlan_deliver_packet. generalize (seq 0 (length (clients w))) (-1). intros l. revert w.
  induction l as [|i l IH]; intros w ret; cbn [vlan_deliver paid]; [done|]. destruct (clients w !! i) as [vc|]; [|done]. destruct (i =? from)%nat; [done|]. destruct (link_down vc); [done|]. destruct (receive_disabled vc); [done|].
  apply pbind_paid; [apply lift_paid, receive_paid|]. intros len w'. destruct (len =? 0); [|apply IH]. apply (IH (on_client i _ w')).
Qed.
(** Every client has its link up and is enabled; every client takes what it is given. *)
Definition hub_good (w : VLANState X) : Prop := Forall (fun vc => link_down vc = false /\ receive_disabled vc = false) (clients w).
Fixpoint takes (m : Prog X Z) : Prop :=
  match m with Done _ a => 0 < a < 2 ^ 31 | Send _ _ k => forall r x, takes (k r x) | Flush _ _ k => forall x, takes (k x) | Stop _ => False end.
Class ReadyClients : Prop := receive_takes i raw d x : takes (receive i raw d x).
Lemma good_is_down w i : hub_good w -> is_down w i = false.
Proof. intros Hg. unfold is_down. destruct (clients w !! i) as [vc|] eqn:E; [|done]. by apply (Forall_lookup_1 _ _ _ _ Hg E). Qed.
Lemma good_enable w i : hub_good w -> hub_good (on_client i (fun c => c <| receive_disabled := false |>) w).
Proof.
  intros Hg. unfold hub_good, on_client. cbn [clients]. apply Forall_lookup_2. intros j vc Hj. rewrite list_lookup_alter in Hj. destruct (decide (i = j)) as [->|].
  - apply fmap_Some in Hj as (c & Hc & ->). split; [|done]. apply (Forall_lookup_1 _ _ _ _ Hg Hc).
  - apply (Forall_lookup_1 _ _ _ _ Hg Hj).
Qed.
Lemma lift_ready (m : Prog X Z) (f : Z -> VLANState X -> Prog (VLANState X) Z) w : takes m -> hub_good w ->
  (forall a w', 0 < a < 2 ^ 31 -> hub_good w' -> ready hub_good (f a w')) -> ready hub_good (pbind (lift m w) f).
Proof.
  intros Hm Hg Hf. revert w Hg. induction m as [x a|x p k IH|x vc k IH|e]; intros w Hg; cbn [lift pbind takes] in *; [by apply Hf| |..|done].
  - rewrite good_is_down by done. split; [done|]. intros r w' Hg'. by apply IH.
  - split; [exact (good_enable (mkVlan (clients w) x) vc Hg)|]. intros w' Hg'. by apply IH.
Qed.
Lemma vlan_deliver_ready `{ReadyClients} from fl d l : forall ret w, ret = -1 \/ 0 < ret < 2 ^ 31 -> hub_good w -> ready hub_good (vlan_deliver l from fl d ret w).
Proof.
  induction l as [|i l IH]; intros ret w Hret Hg; cbn [vlan_deliver ready].
  - split; [done|]. unfold s32, wrap. destruct Hret as [->|Hr]; [done|]. rewrite Z.mod_small by lia. destruct (Z.ltb_spec ret (2 ^ 31)); lia.
  - destruct (clients w !! i) as [vc|] eqn:E; [|by apply IH]. destruct (i =? from)%nat; [by apply IH|]. destruct (Forall_lookup_1 _ _ _ _ Hg E) as [-> ->].
    apply lift_ready; [apply receive_takes|done|]. intros a w' Ha Hg'. destruct (Z.eqb_spec a 0); [lia|]. apply IH; [|done]. right. destruct Hret as [->|Hr]; [done|]. by destruct (Z.leb_spec 0 ret); lia.
Qed.
#[export] Instance hub_ready : ReadyClients -> ReadyHandlers hub_good.
Proof. intros HR from fl d w Hg. apply vlan_deliver_ready; [by left|done]. Qed.
End HubFacts.

(** ** Examples *)
(** Clients that log what they receive; client 1 answers the first packet it gets while
    it receives it. *)
Definition net_log : Type := list (nat * list Z).
Definition unanswered (x : net_log) : bool := forallb (fun '(j, _) => negb (j =? 1)%nat) x.
Definition answering_clients : NetClients net_log := {|
  receive i _ d x :=
    if (i =? 1)%nat && unanswered x then Send (x ++ [(i, d)]) (mkPacket 1 0 [7; 7] None) (fun _ x => Done x 1)
    else Done (x ++ [(i, d)]) 1;
  receive_iov _ := None;
  packet_sent _ _ _ x := Done x tt;
  can_receive _ := None
|}.
Definition log_credit (x : net_log) : nat := if unanswered x then 1 else 0.
Lemma unanswered_app x j d : unanswered (x ++ [(j, d)]) = unanswered x && negb (j =? 1)%nat.
Proof. unfold unanswered. rewrite forallb_app. cbn. by rewrite andb_true_r. Qed.
Lemma answering_paid : @PaidClients net_log answering_clients log_credit.
Proof.
  split; [|intros; cbn; lia]. intros i raw d x. cbn [receive answering_clients]. destruct (Nat.eqb_spec i 1) as [->|Hi]; cbn [andb].
  - destruct (unanswered x) eqn:E; cbn [paid]; unfold log_credit; rewrite unanswered_app, andb_false_r; [|destruct (unanswered x); lia]. rewrite E. split; [lia|]. intros. lia.
  - cbn [paid]. unfold log_credit. rewrite unanswered_app. destruct (unanswered x); cbn; [|lia]. destruct (negb _); lia.
Qed.
Lemma answering_ready : @ReadyClients net_log answering_clients.
Proof. intros i raw d x. cbn [receive answering_clients]. destruct (_ && _); cbn [takes]; lia. Qed.
Definition up_client : VLANClientState := mkClient false false false.
(** A client that is disabled makes the hub report that nobody took the packet: it is
    queued, and the other clients get it again. *)
Definition quiet_clients : NetClients net_log := {|
  receive i _ d x := Done (x ++ [(i, d)]) (Z.of_nat (length d));
  receive_iov _ := None; packet_sent _ _ _ x := Done x tt; can_receive _ := None
|}.
Example hub_redelivers :
  let s0 := mkNet qemu_new_net_queue (mkVlan [up_client; mkClient false true false; up_client] []) [] in
  option_map (fun s => ext (world s)) (exec (_ ← @qemu_send_packet_async_with_flags _ quiet_clients 4 0 0 [5] None; @qemu_flush_queued_packets _ quiet_clients 4 1) s0) =
  Some [(2%nat, [5]); (1%nat, [5]); (2%nat, [5])].
Proof. reflexivity. Qed.
(** A client that refuses a packet another client took before does not get it later. *)
Definition slow_clients : NetClients net_log := {|
  receive i _ d x := if (i =? 2)%nat && unanswered x then Done x 0 else Done (x ++ [(i, d)]) (Z.of_nat (length d));
  receive_iov _ := None; packet_sent _ _ _ x := Done x tt; can_receive _ := None
|}.
Example hub_loses :
  let s0 := mkNet qemu_new_net_queue (mkVlan [up_client; mkClient true false false; up_client; up_client] []) [] in
  option_map (fun s => (packets (net_queue s), ext (world s))) (exec (_ ← @qemu_send_packet_async_with_flags _ slow_clients 4 0 0 [5] None; @qemu_flush_queued_packets _ slow_clients 4 2) s0) =
  Some ([], [(3%nat, [5])]).
Proof. reflexivity. Qed.
