(* ===== verification/ArmCpu.v ===== *)
(** * ArmCpu: the state of the ARM processor (target-arm/cpu.h, helper.c, op_helper.c)

    CPUARMState with its banked registers, the status register, processor modes, and reset.
    A C array is a list of its elements.  Of CPU_COMMON the fields the modelled code uses are
    kept; the floating-point registers proper, the iwMMXt data registers and the coprocessor
    callbacks are not.  env->v7m.nvic is NULL or the controller. *)
From S2P Require Import Prelude.
From stdpp Require Import sets.
#[local] Open Scope Z_scope.

(** ** Constants *)
Definition CPSR_M : Z := 0x1f.
Definition CPSR_T : Z := bit 5.
Definition CPSR_F : Z := bit 6.
Definition CPSR_I : Z := bit 7.
Definition CPSR_A : Z := bit 8.
Definition CPSR_IT_2_7 : Z := 0xfc00.
Definition CPSR_GE : Z := Z.shiftl 0xf 16.
Definition CPSR_J : Z := bit 24.
Definition CPSR_IT_0_1 : Z := Z.shiftl 3 25.
Definition CPSR_Q : Z := bit 27.
Definition CPSR_NZCV : Z := Z.lor (bit 31) (Z.lor (bit 30) (Z.lor (bit 29) (bit 28))).
Definition CPSR_IT : Z := Z.lor CPSR_IT_0_1 CPSR_IT_2_7.
Definition CACHED_CPSR_BITS : Z :=
  Z.lor CPSR_T (Z.lor CPSR_GE (Z.lor CPSR_IT (Z.lor CPSR_Q CPSR_NZCV))).
Definition CPSR_EXEC : Z := Z.lor CPSR_T (Z.lor CPSR_IT CPSR_J).

Definition ARM_CPU_MODE_USR : Z := 0x10.
Definition ARM_CPU_MODE_FIQ : Z := 0x11.
Definition ARM_CPU_MODE_IRQ : Z := 0x12.
Definition ARM_CPU_MODE_SVC : Z := 0x13.
Definition ARM_CPU_MODE_ABT : Z := 0x17.
Definition ARM_CPU_MODE_UND : Z := 0x1b.
Definition ARM_CPU_MODE_SYS : Z := 0x1f.

Definition EXCP_UDEF : Z := 1.
Definition EXCP_SWI : Z := 2.
Definition EXCP_PREFETCH_ABORT : Z := 3.
Definition EXCP_DATA_ABORT : Z := 4.
Definition EXCP_IRQ : Z := 5.
Definition EXCP_FIQ : Z := 6.
Definition EXCP_BKPT : Z := 7.
Definition EXCP_EXCEPTION_EXIT : Z := 8.
Definition CPU_INTERRUPT_EXITTB : Z := 0x04.
Definition CPU_INTERRUPT_HALT : Z := 0x20.

Inductive arm_features : Type :=
| ARM_FEATURE_VFP | ARM_FEATURE_AUXCR | ARM_FEATURE_XSCALE | ARM_FEATURE_IWMMXT | ARM_FEATURE_V6
| ARM_FEATURE_V6K | ARM_FEATURE_V7 | ARM_FEATURE_THUMB2 | ARM_FEATURE_MPU | ARM_FEATURE_VFP3
| ARM_FEATURE_VFP_FP16 | ARM_FEATURE_NEON | ARM_FEATURE_DIV | ARM_FEATURE_M | ARM_FEATURE_OMAPCP
| ARM_FEATURE_THUMB2EE | ARM_FEATURE_TRUSTZONE.
(** The values of the enumeration. *)
Definition feature_number (f : arm_features) : Z :=
  match f with
  | ARM_FEATURE_VFP => 0 | ARM_FEATURE_AUXCR => 1 | ARM_FEATURE_XSCALE => 2 | ARM_FEATURE_IWMMXT => 3
  | ARM_FEATURE_V6 => 4 | ARM_FEATURE_V6K => 5 | ARM_FEATURE_V7 => 6 | ARM_FEATURE_THUMB2 => 7
  | ARM_FEATURE_MPU => 8 | ARM_FEATURE_VFP3 => 9 | ARM_FEATURE_VFP_FP16 => 10 | ARM_FEATURE_NEON => 11
  | ARM_FEATURE_DIV => 12 | ARM_FEATURE_M => 13 | ARM_FEATURE_OMAPCP => 14 | ARM_FEATURE_THUMB2EE => 15
  | ARM_FEATURE_TRUSTZONE => 16
  end.

Definition ARM_CPUID_ARM1026 : Z := 0x4106a262.
Definition ARM_CPUID_ARM926 : Z := 0x41069265.
Definition ARM_CPUID_ARM946 : Z := 0x41059461.
Definition ARM_CPUID_TI915T : Z := 0x54029152.
Definition ARM_CPUID_TI925T : Z := 0x54029252.
Definition ARM_CPUID_PXA250 : Z := 0x69052100.
Definition ARM_CPUID_PXA255 : Z := 0x69052d00.
Definition ARM_CPUID_PXA260 : Z := 0x69052903.
Definition ARM_CPUID_PXA261 : Z := 0x69052d05.
Definition ARM_CPUID_PXA262 : Z := 0x69052d06.
Definition ARM_CPUID_PXA270_A0 : Z := 0x69054110.
Definition ARM_CPUID_PXA270_A1 : Z := 0x69054111.
Definition ARM_CPUID_PXA270_B0 : Z := 0x69054112.
Definition ARM_CPUID_PXA270_B1 : Z := 0x69054113.
Definition ARM_CPUID_PXA270_C0 : Z := 0x69054114.
Definition ARM_CPUID_PXA270_C5 : Z := 0x69054117.
Definition ARM_CPUID_ARM1136 : Z := 0x4117b363.
Definition ARM_CPUID_ARM1136_R2 : Z := 0x4107b362.
Definition ARM_CPUID_ARM11MPCORE : Z := 0x410fb022.
Definition ARM_CPUID_CORTEXA8 : Z := 0x410fc080.
Definition ARM_CPUID_CORTEXA8_R2 : Z := 0x412fc083.
Definition ARM_CPUID_CORTEXA9 : Z := 0x410fc090.
Definition ARM_CPUID_CORTEXM3 : Z := 0x410fc231.
Definition ARM_CPUID_ANY : Z := 0xffffffff.

Definition ARM_VFP_FPSID : Z := 0.
Definition ARM_VFP_MVFR1 : Z := 6.
Definition ARM_VFP_MVFR0 : Z := 7.
Definition ARM_VFP_FPEXC : Z := 8.
Definition ARM_IWMMXT_wCID : Z := 0.

Definition NB_MMU_MODES : Z := 2.
Definition CPU_TLB_SIZE : Z := bit 8.

(** ** State *)
Record CPUTLBEntry := mkTlb { addr_read : Z; addr_write : Z; addr_code : Z; addend : Z }.
#[export] Instance eta_tlb : Eta CPUTLBEntry := fun r => mkTlb (addr_read r) (addr_write r) (addr_code r) (addend r).

(** The struct [cp15] of CPUARMState. *)
Record cp15_state := mkCp15 {
  c0_cpuid : Z; c0_cachetype : Z; c0_ccsid : list Z; c0_clid : Z; c0_cssel : Z;
  c0_c1 : list Z; c0_c2 : list Z;
  c1_sys : Z; c1_coproc : Z; c1_xscaleauxcr : Z; c1_secfg : Z; c1_sedbg : Z; c1_nseac : Z;
  c2_base0 : Z; c2_base1 : Z; c2_control : Z; c2_mask : Z; c2_base_mask : Z; c2_data : Z; c2_insn : Z;
  c3 : Z; c5_insn : Z; c5_data : Z; c6_region : list Z; c6_insn : Z; c6_data : Z;
  c9_insn : Z; c9_data : Z; c13_fcse : Z; c13_context : Z; c13_tls1 : Z; c13_tls2 : Z; c13_tls3 : Z;
  c15_cpar : Z; c15_ticonfig : Z; c15_i_max : Z; c15_i_min : Z; c15_threadid : Z
}.
#[export] Instance eta_cp15 : Eta cp15_state := fun r => mkCp15
  (c0_cpuid r) (c0_cachetype r) (c0_ccsid r) (c0_clid r) (c0_cssel r) (c0_c1 r) (c0_c2 r)
  (c1_sys r) (c1_coproc r) (c1_xscaleauxcr r) (c1_secfg r) (c1_sedbg r) (c1_nseac r)
  (c2_base0 r) (c2_base1 r) (c2_control r) (c2_mask r) (c2_base_mask r) (c2_data r) (c2_insn r)
  (c3 r) (c5_insn r) (c5_data r) (c6_region r) (c6_insn r) (c6_data r)
  (c9_insn r) (c9_data r) (c13_fcse r) (c13_context r) (c13_tls1 r) (c13_tls2 r) (c13_tls3 r)
  (c15_cpar r) (c15_ticonfig r) (c15_i_max r) (c15_i_min r) (c15_threadid r).
Definition cp15_zero : cp15_state := mkCp15
  0 0 (replicate 16 0) 0 0 (replicate 8 0) (replicate 8 0) 0 0 0 0 0 0 0 0 0 0 0 0 0
  0 0 0 (replicate 8 0) 0 0 0 0 0 0 0 0 0 0 0 0 0 0.

(** The struct [v7m]. *)
Record v7m_state := mkV7m {
  other_sp : Z; vecbase : Z; basepri : Z; control : Z; current_sp : Z; v7m_exception : Z;
  nvic_present : bool (** v7m.nvic is not NULL *)
}.
#[export] Instance eta_v7m : Eta v7m_state := fun r => mkV7m
  (other_sp r) (vecbase r) (basepri r) (control r) (current_sp r) (v7m_exception r) (nvic_present r).

Record CPUARMState := mkCpu {
  regs : list Z; uncached_cpsr : Z; spsr : Z;
  banked_spsr : list Z; banked_r13 : list Z; banked_r14 : list Z;
  usr_regs : list Z; fiq_regs : list Z;
  CF : Z; VF : Z; NF : Z; ZF : Z; QF : Z; GE : Z; thumb : Z;
  condexec_bits : Z; actual_condexec_bits : Z; saved_condexec_bits : Z; saved_condexec_tb : Z;
  cp15 : cp15_state; v7m : v7m_state; features : Z;
  vfp_xregs : list Z; iwmmxt_cregs : list Z;
  interrupt_request : Z;
  tlb_table : list (list CPUTLBEntry); iotlb : list (list Z); mem_io_vaddr : Z;
  (** From here on: preserved by reset. *)
  watchpoints : list Z; exception_index : Z; cpu_index : Z
}.
#[export] Instance eta_cpu : Eta CPUARMState := fun r => mkCpu
  (regs r) (uncached_cpsr r) (spsr r) (banked_spsr r) (banked_r13 r) (banked_r14 r)
  (usr_regs r) (fiq_regs r) (CF r) (VF r) (NF r) (ZF r) (QF r) (GE r) (thumb r)
  (condexec_bits r) (actual_condexec_bits r) (saved_condexec_bits r) (saved_condexec_tb r)
  (cp15 r) (v7m r) (features r) (vfp_xregs r) (iwmmxt_cregs r) (interrupt_request r)
  (tlb_table r) (iotlb r) (mem_io_vaddr r) (watchpoints r) (exception_index r) (cpu_index r).
Abbreviation CPU := (ST CPUARMState).

Definition set_cp15_with (f : cp15_state -> cp15_state) : CPU unit := modify (fun e => e <| cp15 := f (cp15 e) |>).
Definition set_v7m_with (f : v7m_state -> v7m_state) : CPU unit := modify (fun e => e <| v7m := f (v7m e) |>).
(** env->regs[i] *)
Definition get_reg (i : Z) : CPU Z := e ← get; deref (rd (regs e) i).
Definition put_reg (i v : Z) : CPU unit :=
  e ← get; l ← deref (wr (regs e) i v); modify (fun e => e <| regs := l |>).
Definition put_xreg (i v : Z) : CPU unit :=
  e ← get; l ← deref (wr (vfp_xregs e) i v); modify (fun e => e <| vfp_xregs := l |>).
Definition put_ccsid (i v : Z) : CPU unit :=
  e ← get; l ← deref (wr (c0_ccsid (cp15 e)) i v); set_cp15_with (fun c => c <| c0_ccsid := l |>).

Definition arm_feature (e : CPUARMState) (f : arm_features) : bool :=
  truth (Z.land (features e) (bit (feature_number f))).
Definition IS_M (e : CPUARMState) : bool := arm_feature e ARM_FEATURE_M.
Definition set_feature (f : arm_features) : CPU unit :=
  modify (fun e => e <| features := Z.lor (features e) (bit (feature_number f)) |>).

(** ** The TLB *)
Definition s_cputlb_empty_entry : CPUTLBEntry := mkTlb 0xffffffff 0xffffffff 0xffffffff (2 ^ 64 - 1).
Definition tlb_flush (flush_global : Z) : CPU unit :=
  modify (fun e => e <| tlb_table := replicate (Z.to_nat NB_MMU_MODES) (replicate (Z.to_nat CPU_TLB_SIZE) s_cputlb_empty_entry) |>).

Definition put_creg (i v : Z) : CPU unit :=
  e ← get; l ← deref (wr (iwmmxt_cregs e) i v); modify (fun e => e <| iwmmxt_cregs := l |>).

(** ** Reset *)
Definition cortexa9_cp15_c0_c1 : list Z := [0x1031; 0x11; 0x000; 0; 0x00100103; 0x20000000; 0x01230000; 0x00002111].
Definition cortexa9_cp15_c0_c2 : list Z := [0x00101111; 0x13112111; 0x21232041; 0x11112131; 0x00111142; 0; 0; 0].
Definition cortexa8_cp15_c0_c1 : list Z := [0x1031; 0x11; 0x400; 0; 0x31100003; 0x20000000; 0x01202000; 0x11].
Definition cortexa8_cp15_c0_c2 : list Z := [0x00101111; 0x12112111; 0x21232031; 0x11112131; 0x00111142; 0; 0; 0].
Definition cortexa8r2_cp15_c0_c2 : list Z := [0x00101111; 0x12112111; 0x21232031; 0x11112131; 0x00011142; 0; 0; 0].
Definition mpcore_cp15_c0_c1 : list Z := [0x111; 0x1; 0; 0x2; 0x01100103; 0x10020302; 0x01222000; 0].
Definition mpcore_cp15_c0_c2 : list Z := [0x00100011; 0x12002111; 0x11221011; 0x01102131; 0x141; 0; 0; 0].
Definition arm1136_cp15_c0_c1 : list Z := [0x111; 0x1; 0x2; 0x3; 0x01130003; 0x10030302; 0x01222110; 0].
Definition arm1136_cp15_c0_c2 : list Z := [0x00140011; 0x12002111; 0x11231111; 0x01102131; 0x141; 0; 0; 0].

Definition cpu_reset_model_id (id : Z) : CPU unit :=
  set_cp15_with (fun c => c <| c0_cpuid := id |>) ;;
  if id =? ARM_CPUID_ARM926 then
    set_feature ARM_FEATURE_VFP ;; put_xreg ARM_VFP_FPSID 0x41011090 ;;
    set_cp15_with (fun c => c <| c0_cachetype := 0x1dd20d2 |>) ;;
    set_cp15_with (fun c => c <| c1_sys := 0x00090078 |>)
  else if id =? ARM_CPUID_ARM946 then
    set_feature ARM_FEATURE_MPU ;; set_cp15_with (fun c => c <| c0_cachetype := 0x0f004006 |>) ;;
    set_cp15_with (fun c => c <| c1_sys := 0x00000078 |>)
  else if id =? ARM_CPUID_ARM1026 then
    set_feature ARM_FEATURE_VFP ;; set_feature ARM_FEATURE_AUXCR ;; put_xreg ARM_VFP_FPSID 0x410110a0 ;;
    set_cp15_with (fun c => c <| c0_cachetype := 0x1dd20d2 |>) ;;
    set_cp15_with (fun c => c <| c1_sys := 0x00090078 |>)
  else if (id =? ARM_CPUID_ARM1136_R2) || (id =? ARM_CPUID_ARM1136) then
    set_feature ARM_FEATURE_V6 ;; set_feature ARM_FEATURE_VFP ;; set_feature ARM_FEATURE_AUXCR ;;
    put_xreg ARM_VFP_FPSID 0x410120b4 ;; put_xreg ARM_VFP_MVFR0 0x11111111 ;;
    put_xreg ARM_VFP_MVFR1 0x00000000 ;; set_cp15_with (fun c => c <| c0_c1 := arm1136_cp15_c0_c1 |>) ;;
    set_cp15_with (fun c => c <| c0_c2 := arm1136_cp15_c0_c2 |>) ;;
    set_cp15_with (fun c => c <| c0_cachetype := 0x1dd20d2 |>)
  else if id =? ARM_CPUID_ARM11MPCORE then
    set_feature ARM_FEATURE_V6 ;; set_feature ARM_FEATURE_V6K ;; set_feature ARM_FEATURE_VFP ;;
    set_feature ARM_FEATURE_AUXCR ;; put_xreg ARM_VFP_FPSID 0x410120b4 ;; put_xreg ARM_VFP_MVFR0 0x11111111 ;;
    put_xreg ARM_VFP_MVFR1 0x00000000 ;; set_cp15_with (fun c => c <| c0_c1 := mpcore_cp15_c0_c1 |>) ;;
    set_cp15_with (fun c => c <| c0_c2 := mpcore_cp15_c0_c2 |>) ;;
    set_cp15_with (fun c => c <| c0_cachetype := 0x1dd20d2 |>)
  else if id =? ARM_CPUID_CORTEXA8 then
    set_feature ARM_FEATURE_V6 ;; set_feature ARM_FEATURE_V6K ;; set_feature ARM_FEATURE_V7 ;;
    set_feature ARM_FEATURE_AUXCR ;; set_feature ARM_FEATURE_THUMB2 ;; set_feature ARM_FEATURE_VFP ;;
    set_feature ARM_FEATURE_VFP3 ;; set_feature ARM_FEATURE_NEON ;; set_feature ARM_FEATURE_THUMB2EE ;;
    set_feature ARM_FEATURE_TRUSTZONE ;; put_xreg ARM_VFP_FPSID 0x410330c0 ;;
    put_xreg ARM_VFP_MVFR0 0x11110222 ;; put_xreg ARM_VFP_MVFR1 0x00011100 ;;
    set_cp15_with (fun c => c <| c0_c1 := cortexa8_cp15_c0_c1 |>) ;;
    set_cp15_with (fun c => c <| c0_c2 := cortexa8_cp15_c0_c2 |>) ;;
    set_cp15_with (fun c => c <| c0_cachetype := 0x82048004 |>) ;;
    set_cp15_with (fun c => c <| c0_clid := Z.lor (Z.shiftl 1 27) (Z.lor (Z.shiftl 2 24) 3) |>) ;;
    put_ccsid 0 0xe007e01a ;; put_ccsid 1 0x2007e01a ;; put_ccsid 2 0xf0000000
  else if id =? ARM_CPUID_CORTEXA8_R2 then
    set_feature ARM_FEATURE_V6 ;; set_feature ARM_FEATURE_V6K ;; set_feature ARM_FEATURE_V7 ;;
    set_feature ARM_FEATURE_AUXCR ;; set_feature ARM_FEATURE_THUMB2 ;; set_feature ARM_FEATURE_VFP ;;
    set_feature ARM_FEATURE_VFP3 ;; set_feature ARM_FEATURE_NEON ;; set_feature ARM_FEATURE_THUMB2EE ;;
    set_feature ARM_FEATURE_TRUSTZONE ;; put_xreg ARM_VFP_FPSID 0x410330c2 ;;
    put_xreg ARM_VFP_MVFR0 0x11110222 ;; put_xreg ARM_VFP_MVFR1 0x00011111 ;;
    set_cp15_with (fun c => c <| c0_c1 := cortexa8_cp15_c0_c1 |>) ;;
    set_cp15_with (fun c => c <| c0_c2 := cortexa8r2_cp15_c0_c2 |>) ;;
    set_cp15_with (fun c => c <| c0_cachetype := 0x82048004 |>) ;;
    set_cp15_with (fun c => c <| c0_clid := Z.lor (Z.shiftl 1 27) (Z.lor (Z.shiftl 2 24) (Z.lor (Z.shiftl 4 3) 3)) |>) ;;
    put_ccsid 0 0xe007e01a ;; put_ccsid 1 0x2007e01a ;; put_ccsid 2 0xf03fe03a
  else if id =? ARM_CPUID_CORTEXA9 then
    set_feature ARM_FEATURE_V6 ;; set_feature ARM_FEATURE_V6K ;; set_feature ARM_FEATURE_V7 ;;
    set_feature ARM_FEATURE_AUXCR ;; set_feature ARM_FEATURE_THUMB2 ;; set_feature ARM_FEATURE_VFP ;;
    set_feature ARM_FEATURE_VFP3 ;; set_feature ARM_FEATURE_VFP_FP16 ;; set_feature ARM_FEATURE_NEON ;;
    set_feature ARM_FEATURE_THUMB2EE ;; set_feature ARM_FEATURE_TRUSTZONE ;;
    put_xreg ARM_VFP_FPSID 0x41034000 ;; put_xreg ARM_VFP_MVFR0 0x11110222 ;;
    put_xreg ARM_VFP_MVFR1 0x01111111 ;; set_cp15_with (fun c => c <| c0_c1 := cortexa9_cp15_c0_c1 |>) ;;
    set_cp15_with (fun c => c <| c0_c2 := cortexa9_cp15_c0_c2 |>) ;;
    set_cp15_with (fun c => c <| c0_cachetype := 0x80038003 |>) ;;
    set_cp15_with (fun c => c <| c0_clid := Z.lor (Z.shiftl 1 27) (Z.lor (Z.shiftl 1 24) 3) |>) ;;
    put_ccsid 0 0xe00fe015 ;; put_ccsid 1 0x200fe015
  else if id =? ARM_CPUID_CORTEXM3 then
    set_feature ARM_FEATURE_V6 ;; set_feature ARM_FEATURE_THUMB2 ;; set_feature ARM_FEATURE_V7 ;;
    set_feature ARM_FEATURE_M ;; set_feature ARM_FEATURE_DIV
  else if id =? ARM_CPUID_ANY then
    set_feature ARM_FEATURE_V6 ;; set_feature ARM_FEATURE_V6K ;; set_feature ARM_FEATURE_V7 ;;
    set_feature ARM_FEATURE_THUMB2 ;; set_feature ARM_FEATURE_VFP ;; set_feature ARM_FEATURE_VFP3 ;;
    set_feature ARM_FEATURE_VFP_FP16 ;; set_feature ARM_FEATURE_NEON ;; set_feature ARM_FEATURE_THUMB2EE ;;
    set_feature ARM_FEATURE_DIV
  else if (id =? ARM_CPUID_TI915T) || (id =? ARM_CPUID_TI925T) then
    set_feature ARM_FEATURE_OMAPCP ;; set_cp15_with (fun c => c <| c0_cpuid := ARM_CPUID_TI925T |>) ;;
    set_cp15_with (fun c => c <| c0_cachetype := 0x5109149 |>) ;;
    set_cp15_with (fun c => c <| c1_sys := 0x00000070 |>) ;;
    set_cp15_with (fun c => c <| c15_i_max := 0x000 |>) ;; set_cp15_with (fun c => c <| c15_i_min := 0xff0 |>)
  else if (id =? ARM_CPUID_PXA250) || (id =? ARM_CPUID_PXA255) || (id =? ARM_CPUID_PXA260) ||
          (id =? ARM_CPUID_PXA261) || (id =? ARM_CPUID_PXA262) then
    set_feature ARM_FEATURE_XSCALE ;; set_cp15_with (fun c => c <| c0_cachetype := 0xd172172 |>) ;;
    set_cp15_with (fun c => c <| c1_sys := 0x00000078 |>)
  else if (id =? ARM_CPUID_PXA270_A0) || (id =? ARM_CPUID_PXA270_A1) || (id =? ARM_CPUID_PXA270_B0) ||
          (id =? ARM_CPUID_PXA270_B1) || (id =? ARM_CPUID_PXA270_C0) || (id =? ARM_CPUID_PXA270_C5) then
    set_feature ARM_FEATURE_XSCALE ;; set_feature ARM_FEATURE_IWMMXT ;;
    put_creg ARM_IWMMXT_wCID (Z.lor 0x69051000 81) ;;
    set_cp15_with (fun c => c <| c0_cachetype := 0xd172172 |>) ;;
    set_cp15_with (fun c => c <| c1_sys := 0x00000078 |>)
  else hw_error.

(** memset(env, 0, offsetof(CPUARMState, breakpoints)) *)
Definition cpu_zero (e : CPUARMState) : CPUARMState := mkCpu
  (replicate 16 0) 0 0 (replicate 6 0) (replicate 6 0) (replicate 6 0) (replicate 5 0) (replicate 5 0)
  0 0 0 0 0 0 0 0 0 0 0 cp15_zero (mkV7m 0 0 0 0 0 0 false) 0 (replicate 16 0) (replicate 16 0) 0
  (replicate (Z.to_nat NB_MMU_MODES) (replicate (Z.to_nat CPU_TLB_SIZE) (mkTlb 0 0 0 0)))
  (replicate (Z.to_nat NB_MMU_MODES) (replicate (Z.to_nat CPU_TLB_SIZE) 0)) 0
  (watchpoints e) (exception_index e) (cpu_index e).
Definition cpu_reset : CPU unit :=
  e ← get;
  let id := c0_cpuid (cp15 e) in
  put (cpu_zero e) ;;
  when (truth id) (cpu_reset_model_id id) ;;
  modify (fun e => e <| uncached_cpsr := Z.lor ARM_CPU_MODE_SVC (Z.lor CPSR_A (Z.lor CPSR_F CPSR_I)) |>) ;;
  e ← get;
  when (IS_M e) (modify (fun e => e <| uncached_cpsr := Z.land (uncached_cpsr e) (not32 CPSR_I) |>)) ;;
  put_xreg ARM_VFP_FPEXC 0 ;;
  set_cp15_with (fun c => c <| c2_base_mask := 0xffffc000 |>) ;;
  put_reg 15 0 ;;
  tlb_flush 1.

(** ** Modes and banked registers *)
(** Any other mode is a cpu_abort(). *)
Definition bank_number (mode : Z) : CPU Z :=
  if (mode =? ARM_CPU_MODE_USR) || (mode =? ARM_CPU_MODE_SYS) then mret 0
  else if mode =? ARM_CPU_MODE_SVC then mret 1
  else if mode =? ARM_CPU_MODE_ABT then mret 2
  else if mode =? ARM_CPU_MODE_UND then mret 3
  else if mode =? ARM_CPU_MODE_IRQ then mret 4
  else if mode =? ARM_CPU_MODE_FIQ then mret 5
  else hw_error.

(** The five words regs + 8. *)
Definition regs_8_12 (e : CPUARMState) : list Z := take 5 (drop 8 (regs e)).
Definition with_8_12 (l : list Z) (e : CPUARMState) : CPUARMState :=
  e <| regs := take 8 (regs e) ++ l ++ drop 13 (regs e) |>.

Definition switch_mode (mode : Z) : CPU unit :=
  e ← get;
  let old_mode := Z.land (uncached_cpsr e) CPSR_M in
  if mode =? old_mode then mret tt
  else
    (if old_mode =? ARM_CPU_MODE_FIQ then
       modify (fun e => e <| fiq_regs := regs_8_12 e |>) ;;
       modify (fun e => with_8_12 (usr_regs e) e)
     else if mode =? ARM_CPU_MODE_FIQ then
       modify (fun e => e <| usr_regs := regs_8_12 e |>) ;;
       modify (fun e => with_8_12 (fiq_regs e) e)
     else mret tt) ;;
    i ← bank_number old_mode;
    r13 ← get_reg 13;
    r14 ← get_reg 14;
    e ← get;
    b13 ← deref (wr (banked_r13 e) i r13);
    b14 ← deref (wr (banked_r14 e) i r14);
    bs ← deref (wr (banked_spsr e) i (spsr e));
    modify (fun e => e <| banked_r13 := b13 |> <| banked_r14 := b14 |> <| banked_spsr := bs |>) ;;
    i ← bank_number mode;
    r13 ← deref (rd b13 i);
    r14 ← deref (rd b14 i);
    sp ← deref (rd bs i);
    put_reg 13 r13 ;;
    put_reg 14 r14 ;;
    modify (fun e => e <| spsr := sp |>).

Definition set_r13_banked (mode val : Z) : CPU unit :=
  i ← bank_number mode;
  e ← get;
  l ← deref (wr (banked_r13 e) i val);
  modify (fun e => e <| banked_r13 := l |>).
Definition get_r13_banked (mode : Z) : CPU Z :=
  i ← bank_number mode;
  e ← get;
  deref (rd (banked_r13 e) i).

(** The registers of user mode, from a privileged mode. *)
Definition get_user_reg (regno : Z) : CPU Z :=
  e ← get;
  if regno =? 13 then deref (rd (banked_r13 e) 0)
  else if regno =? 14 then deref (rd (banked_r14 e) 0)
  else if (regno >=? 8) && (Z.land (uncached_cpsr e) 0x1f =? ARM_CPU_MODE_FIQ) then deref (rd (usr_regs e) (regno - 8))
  else get_reg regno.
Definition set_user_reg (regno val : Z) : CPU unit :=
  e ← get;
  if regno =? 13 then l ← deref (wr (banked_r13 e) 0 val); modify (fun e => e <| banked_r13 := l |>)
  else if regno =? 14 then l ← deref (wr (banked_r14 e) 0 val); modify (fun e => e <| banked_r14 := l |>)
  else if (regno >=? 8) && (Z.land (uncached_cpsr e) 0x1f =? ARM_CPU_MODE_FIQ) then
    l ← deref (wr (usr_regs e) (regno - 8) val); modify (fun e => e <| usr_regs := l |>)
  else put_reg regno val.

(** ** The status register *)
Definition cpsr_read (e : CPUARMState) : Z :=
  let zf := if ZF e =? 0 then 1 else 0 in
  Z.lor (uncached_cpsr e) (Z.lor (Z.land (NF e) 0x80000000) (Z.lor (Z.shiftl zf 30)
    (Z.lor (wrap 32 (Z.shiftl (CF e) 29)) (Z.lor (Z.shiftr (Z.land (VF e) 0x80000000) 3)
      (Z.lor (wrap 32 (Z.shiftl (QF e) 27)) (Z.lor (wrap 32 (Z.shiftl (thumb e) 5))
        (Z.lor (Z.shiftl (Z.land (condexec_bits e) 3) 25)
          (Z.lor (Z.shiftl (Z.land (condexec_bits e) 0xfc) 8) (wrap 32 (Z.shiftl (GE e) 16)))))))))).

Definition b2z (b : bool) : Z := if b then 1 else 0.
(** The assignments of cpsr_write and xpsr_write under one bit group of the mask. *)
Definition write_nzcv (val : Z) (e : CPUARMState) : CPUARMState :=
  e <| ZF := Z.land (not32 val) (bit 30) |> <| NF := val |> <| CF := Z.land (Z.shiftr val 29) 1 |>
    <| VF := Z.land (wrap 32 (Z.shiftl val 3)) 0x80000000 |>.
Definition write_it_0_1 (val : Z) (e : CPUARMState) : CPUARMState :=
  let c := Z.lor (Z.land (condexec_bits e) (not32 3)) (Z.land (Z.shiftr val 25) 3) in
  e <| condexec_bits := c |> <| actual_condexec_bits := c |>.
Definition write_it_2_7 (val : Z) (e : CPUARMState) : CPUARMState :=
  let c := Z.lor (Z.land (condexec_bits e) 3) (Z.land (Z.shiftr val 8) 0xfc) in
  e <| condexec_bits := c |> <| actual_condexec_bits := c |>.
Definition if_mask (b : Z) (f : CPUARMState -> CPUARMState) : CPU unit := when (truth b) (modify f).

(** The part of cpsr_write that concerns the flags kept in fields of their own. *)
Definition write_flags (val mask : Z) : CPU unit :=
  if_mask (Z.land mask CPSR_NZCV) (write_nzcv val) ;;
  if_mask (Z.land mask CPSR_Q) (fun e => e <| QF := b2z (truth (Z.land val CPSR_Q)) |>) ;;
  if_mask (Z.land mask CPSR_T) (fun e => e <| thumb := b2z (truth (Z.land val CPSR_T)) |>) ;;
  if_mask (Z.land mask CPSR_IT_0_1) (write_it_0_1 val) ;;
  if_mask (Z.land mask CPSR_IT_2_7) (write_it_2_7 val) ;;
  if_mask (Z.land mask CPSR_GE) (fun e => e <| GE := Z.land (Z.shiftr val 16) 0xf |>).
Definition cpsr_write (val mask : Z) : CPU unit :=
  write_flags val mask ;;
  e ← get;
  when (truth (Z.land (Z.land (Z.lxor (uncached_cpsr e) val) mask) CPSR_M))
    (switch_mode (Z.land val CPSR_M)) ;;
  let mask := Z.land mask (not32 CACHED_CPSR_BITS) in
  modify (fun e => e <| uncached_cpsr :=
    Z.lor (Z.land (uncached_cpsr e) (not32 mask)) (Z.land val mask) |>).
(** What MRS reads: the execution state bits as zero. *)
Definition helper_cpsr_read (e : CPUARMState) : Z := Z.land (cpsr_read e) (not32 CPSR_EXEC).

(** ** The M profile's view of the status *)
Definition xpsr_read (e : CPUARMState) : Z :=
  let zf := if ZF e =? 0 then 1 else 0 in
  Z.lor (Z.land (NF e) 0x80000000) (Z.lor (Z.shiftl zf 30)
    (Z.lor (wrap 32 (Z.shiftl (CF e) 29)) (Z.lor (Z.shiftr (Z.land (VF e) 0x80000000) 3)
      (Z.lor (wrap 32 (Z.shiftl (QF e) 27)) (Z.lor (wrap 32 (Z.shiftl (thumb e) 24))
        (Z.lor (Z.shiftl (Z.land (condexec_bits e) 3) 25)
          (Z.lor (Z.shiftl (Z.land (condexec_bits e) 0xfc) 8) (v7m_exception (v7m e))))))))).
Definition xpsr_write (val mask : Z) : CPU unit :=
  if_mask (Z.land mask CPSR_NZCV) (write_nzcv val) ;;
  if_mask (Z.land mask CPSR_Q) (fun e => e <| QF := b2z (truth (Z.land val CPSR_Q)) |>) ;;
  if_mask (Z.land mask (bit 24)) (fun e => e <| thumb := b2z (truth (Z.land val (bit 24))) |>) ;;
  if_mask (Z.land mask CPSR_IT_0_1) (write_it_0_1 val) ;;
  if_mask (Z.land mask CPSR_IT_2_7) (write_it_2_7 val) ;;
  if_mask (Z.land mask 0x1ff) (fun e => e <| v7m := (v7m e) <| v7m_exception := Z.land val 0x1ff |> |>).

(** Selecting the main or the process stack pointer. *)
Definition switch_v7m_sp (process : Z) : CPU unit :=
  e ← get;
  when (negb (current_sp (v7m e) =? process))
    (r13 ← get_reg 13;
     set_v7m_with (fun v => v <| other_sp := r13 |>) ;;
     put_reg 13 (other_sp (v7m e)) ;;
     set_v7m_with (fun v => v <| current_sp := process |>)).

(** The special registers of the M profile; an unknown number is a cpu_abort(). *)
Definition v7m_mrs (reg : Z) : CPU Z :=
  e ← get;
  if reg =? 0 then mret (Z.land (xpsr_read e) 0xf8000000)
  else if reg =? 1 then mret (Z.land (xpsr_read e) 0xf80001ff)
  else if reg =? 2 then mret (Z.land (xpsr_read e) 0xff00fc00)
  else if reg =? 3 then mret (Z.land (xpsr_read e) 0xff00fdff)
  else if reg =? 5 then mret (Z.land (xpsr_read e) 0x000001ff)
  else if reg =? 6 then mret (Z.land (xpsr_read e) 0x0700fc00)
  else if reg =? 7 then mret (Z.land (xpsr_read e) 0x0700edff)
  else if reg =? 8 then if truth (current_sp (v7m e)) then mret (other_sp (v7m e)) else get_reg 13
  else if reg =? 9 then if truth (current_sp (v7m e)) then get_reg 13 else mret (other_sp (v7m e))
  else if reg =? 16 then mret (b2z (truth (Z.land (uncached_cpsr e) CPSR_I)))
  else if reg =? 17 then mret (b2z (truth (Z.land (uncached_cpsr e) CPSR_F)))
  else if (reg =? 18) || (reg =? 19) then mret (basepri (v7m e))
  else if reg =? 20 then mret (control (v7m e))
  else hw_error.
Definition set_other_sp (val : Z) : CPU unit := set_v7m_with (fun v => v <| other_sp := val |>).
Definition v7m_msr (reg val : Z) : CPU unit :=
  e ← get;
  if reg =? 0 then xpsr_write val 0xf8000000
  else if reg =? 1 then xpsr_write val 0xf8000000
  else if reg =? 2 then xpsr_write val 0xfe00fc00
  else if reg =? 3 then xpsr_write val 0xfe00fc00
  else if reg =? 5 then mret tt
  else if reg =? 6 then xpsr_write val 0x0600fc00
  else if reg =? 7 then xpsr_write val 0x0600fc00
  else if reg =? 8 then if truth (current_sp (v7m e)) then set_other_sp val else put_reg 13 val
  else if reg =? 9 then if truth (current_sp (v7m e)) then put_reg 13 val else set_other_sp val
  else if reg =? 16 then
    modify (fun e => e <| uncached_cpsr := if truth (Z.land val 1) then Z.lor (uncached_cpsr e) CPSR_I
                                           else Z.land (uncached_cpsr e) (not32 CPSR_I) |>)
  else if reg =? 17 then
    modify (fun e => e <| uncached_cpsr := if truth (Z.land val 1) then Z.lor (uncached_cpsr e) CPSR_F
                                           else Z.land (uncached_cpsr e) (not32 CPSR_F) |>)
  else if reg =? 18 then set_v7m_with (fun v => v <| basepri := Z.land val 0xff |>)
  else if reg =? 19 then
    let val := Z.land val 0xff in
    when (truth val && ((val <? basepri (v7m e)) || (basepri (v7m e) =? 0)))
      (set_v7m_with (fun v => v <| basepri := val |>))
  else if reg =? 20 then
    set_v7m_with (fun v => v <| control := Z.land val 3 |>) ;;
    switch_v7m_sp (b2z (truth (Z.land val 2)))
  else hw_error.

(** The code generated for a return from an exception: store_reg(15) and gen_set_cpsr(). *)
Definition exception_return (pc : Z) : CPU unit :=
  put_reg 15 (Z.land pc (not32 1)) ;;
  e ← get;
  cpsr_write (spsr e) 0xffffffff.
