(* ===== verification/ArmModes.v ===== *)
(** * ArmModes: the banked register file of the ARM processor

    The architecture has one set of physical registers, [areg]; a mode sees sixteen of them
    and its SPSR ([seen_by]).  The code keeps the registers of the current mode in [regs] and
    the others in the banks: [contents] reads a physical register off that representation.
    switch_mode changes the representation and no physical register. *)
From S2P Require Import Prelude ArmCpu.
From stdpp Require Import sets.
#[local] Open Scope Z_scope.

(** ** Modes and physical registers *)
Definition modes : list Z :=
  [ARM_CPU_MODE_USR; ARM_CPU_MODE_FIQ; ARM_CPU_MODE_IRQ; ARM_CPU_MODE_SVC; ARM_CPU_MODE_ABT; ARM_CPU_MODE_UND; ARM_CPU_MODE_SYS].
Definition valid_mode (m : Z) : Prop := m ∈ modes.
#[export] Instance valid_mode_dec m : Decision (valid_mode m).
Proof. unfold valid_mode. apply _. Defined.
Lemma mode_bits m : valid_mode m -> Z.land m CPSR_M = m.
Proof.
  intros Hm. unfold valid_mode, modes in Hm. repeat (apply elem_of_cons in Hm as [->|Hm]; [done|]). by apply elem_of_nil in Hm.
Qed.
Definition bank (m : Z) : Z :=
  if (m =? ARM_CPU_MODE_USR) || (m =? ARM_CPU_MODE_SYS) then 0 else if m =? ARM_CPU_MODE_SVC then 1
  else if m =? ARM_CPU_MODE_ABT then 2 else if m =? ARM_CPU_MODE_UND then 3 else if m =? ARM_CPU_MODE_IRQ then 4 else 5.
Definition is_fiq (m : Z) : bool := m =? ARM_CPU_MODE_FIQ.
Definition cur_mode (e : CPUARMState) : Z := Z.land (uncached_cpsr e) CPSR_M.

Inductive areg : Type :=
| Low (i : Z)               (** r0 to r7 and the program counter: one for all modes *)
| Mid (fiq : bool) (i : Z)  (** r8 to r12: one for FIQ mode, one for the others *)
| Sp (b : Z) | Lr (b : Z) | Spsr (b : Z).  (** one per bank *)
#[export] Instance areg_eq_dec : EqDecision areg.
Proof. solve_decision. Defined.
Definition areg_ok (r : areg) : Prop :=
  match r with
  | Low i => 0 <= i < 8 \/ i = 15
  | Mid _ i => 8 <= i < 13
  | Sp b | Lr b | Spsr b => 0 <= b < 6
  end.
(** What mode [m] calls r0 to r15, and r16 for its SPSR. *)
Definition seen_by (m i : Z) : areg :=
  if (8 <=? i) && (i <? 13) then Mid (is_fiq m) i
  else if i =? 13 then Sp (bank m) else if i =? 14 then Lr (bank m) else if i =? 16 then Spsr (bank m) else Low i.

Definition contents (m : Z) (e : CPUARMState) (r : areg) : option Z :=
  match r with
  | Low i => rd (regs e) i
  | Mid f i => if Bool.eqb f (is_fiq m) then rd (regs e) i else rd (if f then fiq_regs e else usr_regs e) (i - 8)
  | Sp b => if b =? bank m then rd (regs e) 13 else rd (banked_r13 e) b
  | Lr b => if b =? bank m then rd (regs e) 14 else rd (banked_r14 e) b
  | Spsr b => if b =? bank m then Some (spsr e) else rd (banked_spsr e) b
  end.

Record cpu_wf (e : CPUARMState) : Prop := {
  wf_regs : length (regs e) = 16%nat;
  wf_usr : length (usr_regs e) = 5%nat;
  wf_fiq : length (fiq_regs e) = 5%nat;
  wf_r13 : length (banked_r13 e) = 6%nat;
  wf_r14 : length (banked_r14 e) = 6%nat;
  wf_spsr : length (banked_spsr e) = 6%nat
}.
(** [e'] is [e] but for the register file. *)
Definition same_control (e e' : CPUARMState) : Prop :=
  e' = e <| regs := regs e' |> <| spsr := spsr e' |> <| banked_spsr := banked_spsr e' |> <| banked_r13 := banked_r13 e' |>
         <| banked_r14 := banked_r14 e' |> <| usr_regs := usr_regs e' |> <| fiq_regs := fiq_regs e' |>.
Lemma same_control_refl e : same_control e e.
Proof. by destruct e. Qed.
Lemma same_control_trans a b c : same_control a b -> same_control b c -> same_control a c.
Proof. unfold same_control. intros -> ->. by destruct a. Qed.

(** Every physical register has a value, and is what some mode sees. *)
Lemma bank_bound m : 0 <= bank m < 6.
Proof. unfold bank. repeat case_match; lia. Qed.
Lemma contents_some m e r : cpu_wf e -> areg_ok r -> is_Some (contents m e r).
Proof.
  intros [H1 H2 H3 H4 H5 H6] Hr.
  assert (forall (l : list Z) i, 0 <= i < Z.of_nat (length l) -> is_Some (rd l i)) as Hs.
  { intros l i Hi. destruct (rd_Some l i Hi) as (x & -> & _). eauto. }
  destruct r as [i|f i|b|b|b]; simpl in *; repeat case_match; try (apply Hs; lia). eauto.
Qed.
Lemma seen_by_ok m i : 0 <= i <= 16 -> areg_ok (seen_by m i).
Proof. intros Hi. pose proof (bank_bound m). unfold seen_by. repeat case_match; simpl; lia. Qed.

(** ** Rules of the operations *)
Lemma bank_number_wp E m (Q : Z -> CPUARMState -> Prop) e :
  valid_mode m -> Q (bank m) e -> wp E (bank_number m) Q e.
Proof.
  intros Hm. unfold valid_mode, modes in Hm. intros HQ. unfold bank_number.
  repeat (apply elem_of_cons in Hm as [->|Hm]; [exact HQ|]). by apply elem_of_nil in Hm.
Qed.
Lemma get_reg_wp E i v (Q : Z -> CPUARMState -> Prop) e : rd (regs e) i = Some v -> Q v e -> wp E (get_reg i) Q e.
Proof. intros Hv HQ. unfold get_reg. wp_steps. by eapply deref_wp. Qed.
Lemma put_reg_wp E i v l (Q : unit -> CPUARMState -> Prop) e :
  wr (regs e) i v = Some l -> Q tt (e <| regs := l |>) -> wp E (put_reg i v) Q e.
Proof. intros Hv HQ. unfold put_reg. wp_steps. eapply deref_wp; [exact Hv|]. by wp_steps. Qed.

Lemma rd_drop {A} (l : list A) n i : 0 <= i -> rd (drop n l) i = rd l (Z.of_nat n + i).
Proof.
  intros Hi. unfold rd. destruct (Z.leb_spec 0 i), (Z.leb_spec 0 (Z.of_nat n + i)); try lia.
  rewrite lookup_drop. f_equal. lia.
Qed.
Lemma rd_take {A} (l : list A) n i : i < Z.of_nat n -> rd (take n l) i = rd l i.
Proof. intros Hi. unfold rd. destruct (Z.leb_spec 0 i); [|done]. apply lookup_take_lt. lia. Qed.
Lemma rd_app {A} (l k : list A) i :
  rd (l ++ k) i = if i <? Z.of_nat (length l) then rd l i else rd k (i - Z.of_nat (length l)).
Proof.
  unfold rd. destruct (Z.ltb_spec i (Z.of_nat (length l))), (Z.leb_spec 0 i); try done.
  - apply lookup_app_l. lia.
  - destruct (Z.leb_spec 0 (i - Z.of_nat (length l))); [|lia]. rewrite lookup_app_r by lia. f_equal. lia.
  - lia.
Qed.

(** Exchanging r8 to r12. *)
Lemma regs_8_12_spec e i : 8 <= i < 13 -> rd (regs_8_12 e) (i - 8) = rd (regs e) i.
Proof. intros Hi. unfold regs_8_12. rewrite rd_take, rd_drop by lia. f_equal. lia. Qed.
Lemma regs_8_12_length e : length (regs e) = 16%nat -> length (regs_8_12 e) = 5%nat.
Proof. intros H. unfold regs_8_12. rewrite length_take, length_drop. lia. Qed.
Lemma with_8_12_spec l e i : length (regs e) = 16%nat -> length l = 5%nat ->
  rd (regs (with_8_12 l e)) i = if (8 <=? i) && (i <? 13) then rd l (i - 8) else rd (regs e) i.
Proof.
  intros H1 H2. simpl. rewrite !rd_app, length_take, H1, H2. change (Z.of_nat (8 `min` 16)) with 8. change (Z.of_nat 5) with 5.
  destruct (Z.ltb_spec i 8), (Z.leb_spec 8 i), (Z.ltb_spec i 13); simpl; try lia.
  - apply rd_take. lia.
  - destruct (Z.ltb_spec (i - 8) 5); [done|lia].
  - destruct (Z.ltb_spec (i - 8) 5); [lia|]. rewrite rd_drop by lia. f_equal. lia.
Qed.
Lemma with_8_12_length l e : length (regs e) = 16%nat -> length l = 5%nat -> length (regs (with_8_12 l e)) = 16%nat.
Proof. intros H1 H2. simpl. rewrite !length_app, length_take, length_drop. lia. Qed.

(** ** Switching modes *)
(** The exchange of r8 to r12 before the banks are used. *)
Lemma exchange_wp E mode (Q : unit -> CPUARMState -> Prop) e : cpu_wf e -> mode <> cur_mode e ->
  (forall e1, cpu_wf e1 -> same_control e e1 -> spsr e1 = spsr e -> banked_r13 e1 = banked_r13 e ->
     banked_r14 e1 = banked_r14 e -> banked_spsr e1 = banked_spsr e ->
     (forall i, ~ (8 <= i < 13) -> rd (regs e1) i = rd (regs e) i) ->
     (forall f i, 8 <= i < 13 -> contents mode e1 (Mid f i) = contents (cur_mode e) e (Mid f i)) -> Q tt e1) ->
  wp E (if cur_mode e =? ARM_CPU_MODE_FIQ then
       modify (fun e => e <| fiq_regs := regs_8_12 e |>) ;; modify (fun e => with_8_12 (usr_regs e) e)
     else if mode =? ARM_CPU_MODE_FIQ then
       modify (fun e => e <| usr_regs := regs_8_12 e |>) ;; modify (fun e => with_8_12 (fiq_regs e) e)
     else mret tt) Q e.
Proof.
  intros [H1 H2 H3 H4 H5 H6] Hne HQ.
  assert (forall i, ~ (8 <= i < 13) -> (8 <=? i) && (i <? 13) = false) as Hout
    by (intros i Hi; destruct (Z.leb_spec 8 i), (Z.ltb_spec i 13); simpl; done || lia).
  assert (forall i, 8 <= i < 13 -> (8 <=? i) && (i <? 13) = true) as Hin
    by (intros i Hi; destruct (Z.leb_spec 8 i), (Z.ltb_spec i 13); simpl; done || lia).
  destruct (Z.eqb_spec (cur_mode e) ARM_CPU_MODE_FIQ) as [Hc|Hc];
    [|destruct (Z.eqb_spec mode ARM_CPU_MODE_FIQ) as [Hm|Hm]]; wp_steps; apply HQ; try done.
  - split; simpl; try done; [by apply (with_8_12_length _ e)|by apply regs_8_12_length].
  - intros i Hi. etrans; [by apply (with_8_12_spec (usr_regs e) e)|]. by rewrite Hout.
  - intros f i Hi. unfold contents, is_fiq. rewrite Hc in Hne |- *. apply Z.eqb_neq in Hne. rewrite Hne.
    destruct f; [by apply regs_8_12_spec|]. etrans; [by apply (with_8_12_spec (usr_regs e) e)|]. by rewrite Hin.
  - split; simpl; try done; [by apply (with_8_12_length _ e)|by apply regs_8_12_length].
  - intros i Hi. etrans; [by apply (with_8_12_spec (fiq_regs e) e)|]. by rewrite Hout.
  - intros f i Hi. unfold contents, is_fiq. rewrite Hm. apply Z.eqb_neq in Hc. rewrite Hc.
    destruct f; [|by apply regs_8_12_spec]. etrans; [by apply (with_8_12_spec (fiq_regs e) e)|]. by rewrite Hin.
  - apply same_control_refl.
  - intros f i Hi. unfold contents, is_fiq. apply Z.eqb_neq in Hc, Hm. by rewrite Hc, Hm.
Qed.

Lemma switch_mode_wp E mode (Q : unit -> CPUARMState -> Prop) e :
  cpu_wf e -> valid_mode (cur_mode e) -> valid_mode mode ->
  (forall e', cpu_wf e' -> same_control e e' ->
     (forall r, areg_ok r -> contents mode e' r = contents (cur_mode e) e r) -> Q tt e') ->
  wp E (switch_mode mode) Q e.
Proof.
  intros Hwf Hv Hm HQ. unfold switch_mode. wp_step. wp_step. fold (cur_mode e).
  destruct (Z.eqb_spec mode (cur_mode e)) as [->|Hne].
  { wp_step. apply HQ; [done|apply same_control_refl|done]. }
  wp_step. apply exchange_wp; [done..|].
  intros e1 W1 C1 Hs H13 H14 Hsp Hlo Hmid. pose proof W1 as [L1 L2 L3 L4 L5 L6].
  pose proof (bank_bound (cur_mode e)) as Bo. pose proof (bank_bound mode) as Bn.
  wp_step. apply bank_number_wp; [done|].
  destruct (rd_Some (regs e1) 13) as (r13 & R13 & _); [lia|]. destruct (rd_Some (regs e1) 14) as (r14 & R14 & _); [lia|].
  wp_step. eapply get_reg_wp; [exact R13|]. wp_step. eapply get_reg_wp; [exact R14|]. wp_step. wp_step.
  pose proof (wr_Some (banked_r13 e1) (bank (cur_mode e)) r13 ltac:(lia)) as W13.
  pose proof (wr_Some (banked_r14 e1) (bank (cur_mode e)) r14 ltac:(lia)) as W14.
  pose proof (wr_Some (banked_spsr e1) (bank (cur_mode e)) (spsr e1) ltac:(lia)) as Wsp.
  set (b13 := <[_ := r13]> _) in W13. set (b14 := <[_ := r14]> _) in W14. set (bs := <[_ := spsr e1]> _) in Wsp.
  pose proof (wr_length _ _ _ _ W13) as N13. pose proof (wr_length _ _ _ _ W14) as N14. pose proof (wr_length _ _ _ _ Wsp) as Nsp.
  wp_step. eapply deref_wp; [exact W13|]. wp_step. eapply deref_wp; [exact W14|]. wp_step. eapply deref_wp; [exact Wsp|].
  wp_step. wp_step. wp_step. apply bank_number_wp; [done|].
  destruct (rd_Some b13 (bank mode)) as (n13 & M13 & _); [lia|]. destruct (rd_Some b14 (bank mode)) as (n14 & M14 & _); [lia|].
  destruct (rd_Some bs (bank mode)) as (nsp & Msp & _); [lia|].
  wp_step. eapply deref_wp; [exact M13|]. wp_step. eapply deref_wp; [exact M14|]. wp_step. eapply deref_wp; [exact Msp|].
  pose proof (wr_Some (regs e1) 13 n13 ltac:(lia)) as P13. set (l13 := <[_ := n13]> _) in P13.
  pose proof (wr_length _ _ _ _ P13) as K13.
  wp_step. eapply put_reg_wp; [exact P13|].
  pose proof (wr_Some l13 14 n14 ltac:(lia)) as P14. set (l14 := <[_ := n14]> _) in P14. pose proof (wr_length _ _ _ _ P14) as K14.
  wp_step. eapply put_reg_wp; [exact P14|]. wp_step.
  assert (forall i, rd l14 i = if 14 =? i then Some n14 else if 13 =? i then Some n13 else rd (regs e1) i) as Hl
    by (intros i; rewrite (rd_wr _ _ _ _ _ P14); destruct (14 =? i); [done|apply (rd_wr _ _ _ _ _ P13)]).
  apply HQ; [split; simpl; congruence|eapply same_control_trans; [exact C1|by destruct e1]|].
  intros [i|f i|b|b|b] Hr; simpl in Hr; unfold contents; simpl.
  - rewrite Hl. destruct (Z.eqb_spec 14 i), (Z.eqb_spec 13 i); try lia. apply Hlo. lia.
  - rewrite Hl. destruct (Z.eqb_spec 14 i), (Z.eqb_spec 13 i); try lia. apply (Hmid f i Hr).
  - rewrite Hl, Z.eqb_refl. simpl. destruct (Z.eqb_spec b (bank mode)) as [->|]; [rewrite <- M13|];
      rewrite (rd_wr _ _ _ _ _ W13), Z.eqb_sym; destruct (_ =? _); [|congruence| |congruence]; rewrite <- R13; apply Hlo; lia.
  - rewrite Hl, Z.eqb_refl. destruct (Z.eqb_spec b (bank mode)) as [->|]; [rewrite <- M14|];
      rewrite (rd_wr _ _ _ _ _ W14), Z.eqb_sym; destruct (_ =? _); [|congruence| |congruence]; rewrite <- R14; apply Hlo; lia.
  - destruct (Z.eqb_spec b (bank mode)) as [->|]; [rewrite <- Msp|];
      rewrite (rd_wr _ _ _ _ _ Wsp), Z.eqb_sym; destruct (_ =? _); congruence.
Qed.

(** C4: the modes' views of the registers are one register file: from every state with a valid mode,
    switching to a valid mode succeeds, and every mode finds the same words under the
    same names as before; nothing but the banks and the current registers is touched. *)
Theorem switch_mode_refines e mode :
  cpu_wf e -> valid_mode (cur_mode e) -> valid_mode mode ->
  exists e', switch_mode mode e = Ok (tt, e') /\ cpu_wf e' /\ same_control e e' /\
    forall m i, valid_mode m -> 0 <= i <= 16 ->
      contents mode e' (seen_by m i) = contents (cur_mode e) e (seen_by m i) /\
      is_Some (contents mode e' (seen_by m i)).
Proof.
  intros Hwf Hv Hm.
  assert (wp no_err (switch_mode mode) (fun _ e' => cpu_wf e' /\ same_control e e' /\
    forall r, areg_ok r -> contents mode e' r = contents (cur_mode e) e r) e) as H by by apply switch_mode_wp.
  apply wp_total_ex in H as ([] & e' & He & W & C & K). exists e'. split; [done|]. split; [done|]. split; [done|].
  intros m i _ Hi. split; [apply K|apply contents_some; [done|]]; by apply seen_by_ok.
Qed.

(** ** A processor in user mode *)
Definition sample_cpu : CPUARMState := mkCpu
  (List.map Z.of_nat (seq 100 15) ++ [0x8000]) 0x10 0 [1; 2; 3; 4; 5; 6] [10; 20; 30; 40; 50; 60] [11; 21; 31; 41; 51; 61]
  (replicate 5 0) [208; 209; 210; 211; 212] 1 0 (2 ^ 31) 1 0 5 0 0 0 0 0 cp15_zero (mkV7m 0 0 0 0 0 0 false) 0
  (replicate 16 0) (replicate 16 0) 0 [] [] 0 [] EXCP_IRQ 0.
Lemma sample_cpu_wf : cpu_wf sample_cpu.
Proof. by split. Qed.
Example switch_mode_witness : exists e', switch_mode ARM_CPU_MODE_FIQ sample_cpu = Ok (tt, e') /\
  contents ARM_CPU_MODE_FIQ e' (seen_by ARM_CPU_MODE_USR 8) = Some 108 /\ rd (regs e') 8 = Some 208.
Proof.
  destruct (switch_mode_refines sample_cpu ARM_CPU_MODE_FIQ sample_cpu_wf) as (e' & H & _ & _ & K);
    [apply (bool_decide_unpack _); exact I..|].
  exists e'. split; [exact H|]. split; [apply (K ARM_CPU_MODE_USR 8); [apply (bool_decide_unpack _); exact I|lia]|].
  destruct (K ARM_CPU_MODE_FIQ 8) as [K1 _]; [apply (bool_decide_unpack _); exact I|lia|]. exact K1.
Defined.
