(* ===== verification/ArmPsr.v ===== *)
(** * ArmPsr: the status register of the ARM processor

    The code keeps the flags that change often in fields of their own.  [cpsr_bit] says where
    each bit of the register is; cpsr_write replaces exactly the bits its mask selects,
    switching the register file to the new mode. *)
From S2P Require Import Prelude ArmCpu ArmModes.
From stdpp Require Import sets.
#[local] Open Scope Z_scope.

(** ** The representation *)
Record psr_wf (e : CPUARMState) : Prop := {
  wf_uncached : fits 32 (uncached_cpsr e);
  wf_cached : Z.land (uncached_cpsr e) CACHED_CPSR_BITS = 0;
  wf_CF : fits 1 (CF e); wf_QF : fits 1 (QF e); wf_thumb : fits 1 (thumb e);
  wf_GE : fits 4 (GE e); wf_it : fits 8 (condexec_bits e);
  wf_NF : fits 32 (NF e); wf_VF : fits 32 (VF e)
}.

(** A number below 32, or at least 32. *)
Ltac each_bit i :=
  let H := fresh in
  let l := eval vm_compute in (List.map Z.of_nat (seq 0 32)) in
  assert (32 <= i \/ In i l) as H
    by (destruct (Z.le_gt_cases 32 i); [left; assumption|right];
        change l with (List.map Z.of_nat (seq 0 32)); apply in_map_iff; exists (Z.to_nat i);
        split; [lia|apply in_seq; lia]);
  destruct H as [H|H]; [|simpl in H; repeat destruct H as [<-|H]; [..|destruct H]].

(** Where bit [i] of the register is kept. *)
Definition cpsr_bit (e : CPUARMState) (i : Z) : bool :=
  if 32 <=? i then false
  else if i =? 31 then Z.testbit (NF e) 31
  else if i =? 30 then ZF e =? 0
  else if i =? 29 then Z.testbit (CF e) 0
  else if i =? 28 then Z.testbit (VF e) 31
  else if i =? 27 then Z.testbit (QF e) 0
  else if (25 <=? i) && (i <=? 26) then Z.testbit (condexec_bits e) (i - 25)
  else if (16 <=? i) && (i <=? 19) then Z.testbit (GE e) (i - 16)
  else if (10 <=? i) && (i <=? 15) then Z.testbit (condexec_bits e) (i - 8)
  else if i =? 5 then Z.testbit (thumb e) 0
  else Z.testbit (uncached_cpsr e) i.

Lemma land_zero_bit a m i : Z.land a m = 0 -> Z.testbit m i = true -> Z.testbit a i = false.
Proof.
  intros H Hm. apply (f_equal (fun x => Z.testbit x i)) in H. rewrite Z.land_spec, Hm, Z.bits_0 in H.
  by rewrite andb_true_r in H.
Qed.
Lemma testbit_lt w x i : fits w x -> 0 <= w <= i -> Z.testbit x i = false.
Proof. intros Hx Hw. apply (fits_testbit w); [lia|done|lia]. Qed.

(** Bits known to be clear, at a literal index. *)
Ltac bit_facts :=
  repeat match goal with
  | |- context [Z.testbit ?x (?a - ?b)] => let j := eval vm_compute in (a - b) in change (a - b) with j
  | |- context [Z.testbit ?x (?a + ?b)] => let j := eval vm_compute in (a + b) in change (a + b) with j
  | |- context [Z.testbit 0 ?j] => rewrite (Z.bits_0 j)
  | |- context [Z.testbit ?x (Z.neg ?p)] => rewrite (Z.testbit_neg_r x (Z.neg p)) by reflexivity
  | H : fits ?w ?x |- context [Z.testbit ?x ?j] => rewrite (testbit_lt w x j H) by lia
  | H : Z.land ?x ?m = 0 |- context [Z.testbit ?x ?j] => rewrite (land_zero_bit x m j H) by reflexivity
  | |- context [Z.testbit (Z.pos ?p) ?j] =>
      let b := eval vm_compute in (Z.testbit (Z.pos p) j) in change (Z.testbit (Z.pos p) j) with b
  end.
Lemma cpsr_read_bit e i : psr_wf e -> 0 <= i -> Z.testbit (cpsr_read e) i = cpsr_bit e i.
Proof.
  intros [H1 H2 H3 H4 H5 H6 H7 H8 H9] Hi. unfold cpsr_read.
  assert (forall x j, 0 <= j -> fits 1 x -> Z.testbit x j = (j =? 0) && Z.testbit x 0) as B1.
  { intros x j Hj Hx. destruct (Z.eqb_spec j 0) as [->|]; [done|]. apply (testbit_lt 1); [done|lia]. }
  rewrite !Z.lor_spec. rewrite !wrap_testbit by lia. rewrite !Z.shiftl_spec by lia. rewrite Z.shiftr_spec by lia. rewrite !Z.land_spec.
  each_bit i.
  { replace (i <? 32) with false by lia. unfold cpsr_bit. replace (32 <=? i) with true by lia.
    rewrite (testbit_lt 32 (uncached_cpsr e)), (testbit_lt 32 (NF e)), (testbit_lt 32 (VF e)) by (done || lia).
    rewrite (testbit_lt 8 (condexec_bits e) (i - 8)) by (done || lia).
    rewrite (testbit_lt 2 3 (i - 25)), andb_false_r by (done || lia). simpl.
    rewrite !orb_false_r. apply (testbit_lt 1); [destruct (ZF e =? 0); done|lia]. }
  all: unfold cpsr_bit; destruct (ZF e =? 0); cbn -[Z.testbit CACHED_CPSR_BITS]; bit_facts; cbn -[Z.testbit CACHED_CPSR_BITS].
  all: rewrite ?andb_false_r, ?orb_false_r, ?andb_true_r; try reflexivity.
Qed.

(** ** Replacing the bits of a mask *)
Definition mix (a b m : Z) : Z := Z.lor (Z.land a (not32 m)) (Z.land b m).
Lemma mix_bit a b m i : fits 32 a -> fits 32 m -> 0 <= i ->
  Z.testbit (mix a b m) i = if Z.testbit m i then Z.testbit b i else Z.testbit a i.
Proof.
  intros Ha Hm Hi. unfold mix. rewrite Z.lor_spec, !Z.land_spec, not32_testbit by done.
  destruct (Z.testbit m i) eqn:E; simpl; [by rewrite andb_false_r, andb_false_r, andb_true_r|].
  rewrite andb_false_r, orb_false_r, andb_true_r. destruct (Z.ltb_spec i 32); [by rewrite andb_true_r|].
  by rewrite (testbit_lt 32 a) by (done || lia).
Qed.
Lemma fits_mix w a b m : 0 <= w -> fits w a -> fits w b -> 0 <= m -> fits w (mix a b m).
Proof.
  intros Hw Ha Hb Hm. apply fits_lor; [done| |by apply fits_land_l].
  apply fits_land_l; [done..|]. pose proof (fits_not32 m) as [? _]. done.
Qed.
Lemma fits32_mix a b m : fits 32 a -> fits 32 b -> fits 32 m -> fits 32 (mix a b m).
Proof. intros Ha Hb [Hm _]. by apply fits_mix. Qed.
Lemma mix_zero a b : fits 32 a -> mix a b 0 = a.
Proof.
  intros Ha. apply Z.bits_inj'. intros i Hi. by rewrite mix_bit, Z.bits_0 by (done || by split).
Qed.
Lemma mix_mix a b m1 m2 : fits 32 a -> fits 32 b -> fits 32 m1 -> fits 32 m2 ->
  mix (mix a b m1) b m2 = mix a b (Z.lor m1 m2).
Proof.
  intros Ha Hb H1 H2. assert (fits 32 (mix a b m1)) by (apply fits_mix; [done..|apply H1]).
  assert (fits 32 (Z.lor m1 m2)) by by apply fits_lor. apply Z.bits_inj'. intros i Hi. rewrite !mix_bit by done.
  rewrite Z.lor_spec. by destruct (Z.testbit m1 i), (Z.testbit m2 i).
Qed.
Lemma fits_cpsr_read e : psr_wf e -> fits 32 (cpsr_read e).
Proof.
  intros H. apply fits_bits; [done|]. split.
  - destruct H. unfold cpsr_read. repeat (apply Z.lor_nonneg; split).
    all: try (apply fits_wrap; done). all: try apply Z.shiftl_nonneg. all: try apply Z.shiftr_nonneg.
    all: try (apply Z.land_nonneg; right; done). { by apply wf_uncached0. } by destruct (ZF e =? 0).
  - intros i Hi. rewrite cpsr_read_bit by (done || lia). unfold cpsr_bit. by replace (32 <=? i) with true by lia.
Qed.

(** ** The bit groups *)
(** Nothing but flags differs. *)
Definition flags_only (e e' : CPUARMState) : Prop :=
  e' = e <| CF := CF e' |> <| VF := VF e' |> <| NF := NF e' |> <| ZF := ZF e' |> <| QF := QF e' |>
         <| GE := GE e' |> <| thumb := thumb e' |> <| condexec_bits := condexec_bits e' |>
         <| actual_condexec_bits := actual_condexec_bits e' |>.
Lemma flags_only_refl e : flags_only e e.
Proof. by destruct e. Qed.
Lemma flags_only_trans a b c : flags_only a b -> flags_only b c -> flags_only a c.
Proof. unfold flags_only. intros -> ->. by destruct a. Qed.
(** [f] writes the bits [g] of the status register from [val]. *)
Definition writes_group (g val : Z) (f : CPUARMState -> CPUARMState) : Prop := forall e, psr_wf e ->
  psr_wf (f e) /\ cpsr_read (f e) = mix (cpsr_read e) val g /\ flags_only e (f e).

Lemma land_clear_bit x i : 0 <= i < 32 -> (Z.land (not32 x) (bit i) =? 0) = Z.testbit x i.
Proof.
  intros Hi. pose proof (truth_land_bit (not32 x) i ltac:(lia)) as H. rewrite not32_testbit in H by lia.
  unfold truth in H. apply (f_equal negb) in H. rewrite negb_involutive in H. rewrite H.
  replace (i <? 32) with true by lia. simpl. by rewrite negb_involutive.
Qed.
Lemma b2z_bit b : Z.testbit (b2z b) 0 = b.
Proof. by destruct b. Qed.
Lemma fits_b2z b : fits 1 (b2z b).
Proof. by destruct b. Qed.
#[local] Hint Resolve fits_b2z : fits.

(** The status register after writing a group, bit by bit. *)
Ltac group_bits :=
  let i := fresh "i" in let Hi := fresh "Hi" in
  apply Z.bits_inj'; intros i Hi; rewrite mix_bit by (done || by apply fits_cpsr_read);
  rewrite !cpsr_read_bit by done; each_bit i;
  [unfold cpsr_bit; replace (32 <=? i) with true by lia; rewrite testbit_lt with (w := 32) by (done || lia); reflexivity|..];
  unfold cpsr_bit; cbn -[Z.testbit not32 wrap bit b2z]; try reflexivity;
  rewrite ?b2z_bit; unfold CPSR_Q, CPSR_T; rewrite ?land_clear_bit, ?truth_land_bit by done;
  repeat first [rewrite Z.lor_spec | rewrite Z.land_spec | rewrite wrap_testbit by done | rewrite not32_testbit by done
               | rewrite Z.shiftl_spec by done | rewrite Z.shiftr_spec by done];
  bit_facts; rewrite ?andb_true_r, ?andb_false_r, ?orb_false_r; try reflexivity.

Lemma fits_land1 x : fits 1 (Z.land x 1).
Proof. change 1 with (Z.ones 1) at 2. rewrite Z.land_ones by done. by apply fits_wrap. Qed.

Lemma nzcv_group val : fits 32 val -> writes_group CPSR_NZCV val (write_nzcv val).
Proof.
  intros Hv e He. assert (psr_wf (write_nzcv val e)) as He'.
  { destruct He. split; try done; simpl; [apply fits_land1|]. apply fits_land; [done|by apply fits_wrap|done]. }
  split; [done|]. split; [group_bits|reflexivity].
Qed.
Lemma q_group val : fits 32 val -> writes_group CPSR_Q val (fun e => e <| QF := b2z (truth (Z.land val CPSR_Q)) |>).
Proof.
  intros Hv e He. set (f := _ <| QF := _ |>). assert (psr_wf f) as He'.
  { destruct He. split; try done. apply fits_b2z. }
  split; [done|]. split; [group_bits|reflexivity].
Qed.
Lemma t_group val : fits 32 val -> writes_group CPSR_T val (fun e => e <| thumb := b2z (truth (Z.land val CPSR_T)) |>).
Proof.
  intros Hv e He. set (f := _ <| thumb := _ |>). assert (psr_wf f) as He'.
  { destruct He. split; try done. apply fits_b2z. }
  split; [done|]. split; [group_bits|reflexivity].
Qed.
Lemma ge_group val : fits 32 val -> writes_group CPSR_GE val (fun e => e <| GE := Z.land (Z.shiftr val 16) 0xf |>).
Proof.
  intros Hv e He. set (f := _ <| GE := _ |>). assert (psr_wf f) as He'.
  { destruct He. split; try done. simpl. apply fits_land_r; [done|apply Z.shiftr_nonneg, Hv|done]. }
  split; [done|]. split; [group_bits|reflexivity].
Qed.
Lemma it01_group val : fits 32 val -> writes_group CPSR_IT_0_1 val (write_it_0_1 val).
Proof.
  intros Hv e He. assert (psr_wf (write_it_0_1 val e)) as He'.
  { destruct He. split; try done. simpl. apply fits_lor; [done|apply fits_land_l; done|].
    apply fits_land_r; [done|apply Z.shiftr_nonneg, Hv|done]. }
  split; [done|]. split; [group_bits|reflexivity].
Qed.
Lemma it27_group val : fits 32 val -> writes_group CPSR_IT_2_7 val (write_it_2_7 val).
Proof.
  intros Hv e He. assert (psr_wf (write_it_2_7 val e)) as He'.
  { destruct He. split; try done. simpl. apply fits_lor; [done|apply fits_land_l; done|].
    apply fits_land_r; [done|apply Z.shiftr_nonneg, Hv|done]. }
  split; [done|]. split; [group_bits|reflexivity].
Qed.

Lemma if_mask_wp E g val f mask (Q : unit -> CPUARMState -> Prop) e :
  writes_group g val f -> (Z.land mask g = 0 \/ Z.land mask g = g) -> psr_wf e ->
  (forall e', psr_wf e' -> cpsr_read e' = mix (cpsr_read e) val (Z.land mask g) -> flags_only e e' -> Q tt e') ->
  wp E (if_mask (Z.land mask g) f) Q e.
Proof.
  intros Hf Hg He HQ. unfold if_mask. wp_step. destruct (truth (Z.land mask g)) eqn:Ht.
  - wp_step. destruct (Hf e He) as (H1 & H2 & H3). destruct Hg as [Hg|Hg]; [by rewrite Hg in Ht|].
    apply HQ; [done|by rewrite Hg|done].
  - apply truth_false in Ht. apply HQ; [done| |apply flags_only_refl]. rewrite Ht. symmetry. apply mix_zero. by apply fits_cpsr_read.
Qed.
(** A group of one bit is selected or not. *)
Lemma single_bit mask i : 0 <= i -> Z.land mask (bit i) = 0 \/ Z.land mask (bit i) = bit i.
Proof.
  intros Hi. destruct (Z.testbit mask i) eqn:Hb; [right|left]; apply Z.bits_inj'; intros j Hj;
    rewrite Z.land_spec, bit_testbit by done; rewrite ?Z.bits_0; destruct (Z.eqb_spec i j) as [->|]; rewrite ?Hb; try done;
    by rewrite andb_false_r.
Qed.

(** ** cpsr_write *)
(** The documented condition on the mask, and a mode that exists. *)
Definition groups_ok (mask : Z) : Prop :=
  Forall (fun g => Z.land mask g = 0 \/ Z.land mask g = g) [CPSR_NZCV; CPSR_IT_0_1; CPSR_IT_2_7; CPSR_GE].
Definition mask_ok (mask val : Z) : Prop :=
  groups_ok mask /\ (Z.land mask CPSR_M = 0 \/ Z.land mask CPSR_M = CPSR_M /\ valid_mode (Z.land val CPSR_M)).

Definition uncached_mask (mask : Z) : Z := Z.land mask (not32 CACHED_CPSR_BITS).
Lemma fits_land_any w x y : 0 <= w -> fits w x -> fits w (Z.land x y).
Proof.
  intros Hw. rewrite !fits_bits by done. intros [H0 H1]. split; [apply Z.land_nonneg; by left|].
  intros i Hi. by rewrite Z.land_spec, H1.
Qed.
Definition flag_mask (mask : Z) : Z :=
  Z.lor (Z.land mask CPSR_NZCV) (Z.lor (Z.land mask CPSR_Q) (Z.lor (Z.land mask CPSR_T) (Z.lor (Z.land mask CPSR_IT_0_1)
    (Z.lor (Z.land mask CPSR_IT_2_7) (Z.land mask CPSR_GE))))).
Lemma all_groups mask : fits 32 mask -> Z.lor (flag_mask mask) (uncached_mask mask) = mask.
Proof.
  intros Hm. apply Z.bits_inj'. intros i Hi. unfold flag_mask, uncached_mask, CACHED_CPSR_BITS, CPSR_IT.
  rewrite !Z.lor_spec, !Z.land_spec, not32_testbit, !Z.lor_spec by done.
  destruct (Z.ltb_spec i 32); [|by rewrite (testbit_lt 32 mask) by (done || lia)].
  destruct (Z.testbit mask i); [|done].
  destruct (Z.testbit CPSR_NZCV i), (Z.testbit CPSR_Q i), (Z.testbit CPSR_T i), (Z.testbit CPSR_IT_0_1 i),
    (Z.testbit CPSR_IT_2_7 i), (Z.testbit CPSR_GE i); done.
Qed.
Lemma fits_flag_mask mask : fits 32 mask -> fits 32 (flag_mask mask).
Proof. intros H. unfold flag_mask. repeat (apply fits_lor; [done|by apply fits_land_any|]). by apply fits_land_any. Qed.
Lemma fits_uncached_mask mask : fits 32 mask -> fits 32 (uncached_mask mask).
Proof. intros H. apply fits_land_l; [done..|apply fits_not32]. Qed.
Lemma uncached_mask_bit mask i : fits 32 mask -> 0 <= i ->
  Z.testbit (uncached_mask mask) i = Z.testbit mask i && negb (Z.testbit CACHED_CPSR_BITS i).
Proof.
  intros Hm Hi. unfold uncached_mask. rewrite Z.land_spec, not32_testbit by done. destruct (Z.ltb_spec i 32); [done|].
  by rewrite (testbit_lt 32 mask) by (done || lia).
Qed.

Lemma uncached_write e val mask : psr_wf e -> fits 32 val -> fits 32 mask ->
  let e' := e <| uncached_cpsr := mix (uncached_cpsr e) val (uncached_mask mask) |> in
  psr_wf e' /\ cpsr_read e' = mix (cpsr_read e) val (uncached_mask mask).
Proof.
  intros He Hv Hm e'. pose proof (fits_uncached_mask mask Hm) as Hu.
  assert (psr_wf e') as He'.
  { destruct He. split; try done; simpl; [by apply fits_mix; [|..|apply Hu]|].
    apply Z.bits_inj'. intros i Hi. rewrite Z.land_spec, mix_bit, uncached_mask_bit, Z.bits_0 by done.
    destruct (Z.testbit CACHED_CPSR_BITS i) eqn:Hc; [|by rewrite andb_false_r]. rewrite andb_false_r.
    by rewrite (land_zero_bit _ _ _ wf_cached0 Hc). }
  split; [done|]. pose proof (wf_uncached _ He) as Huc.
  apply Z.bits_inj'. intros i Hi. rewrite mix_bit by (done || by apply fits_cpsr_read). rewrite !cpsr_read_bit by done. each_bit i.
  { unfold cpsr_bit. replace (32 <=? i) with true by lia. by rewrite (testbit_lt 32 (uncached_mask mask)) by (done || lia). }
  all: rewrite uncached_mask_bit by done; unfold cpsr_bit; cbn -[Z.testbit mix CACHED_CPSR_BITS].
  all: try (change (Z.testbit CACHED_CPSR_BITS _) with true; by rewrite andb_false_r).
  all: rewrite mix_bit, uncached_mask_bit by done; change (Z.testbit CACHED_CPSR_BITS _) with false; done.
Qed.

Lemma mode_bits_uncached i : Z.testbit CPSR_M i = true -> Z.testbit CACHED_CPSR_BITS i = false.
Proof. apply land_zero_bit. reflexivity. Qed.
Lemma land_full_bit a m i : Z.land a m = m -> Z.testbit m i = true -> Z.testbit a i = true.
Proof.
  intros H Hm. apply (f_equal (fun x => Z.testbit x i)) in H. rewrite Z.land_spec, Hm in H. by rewrite andb_true_r in H.
Qed.
Lemma mode_kept u val mask : fits 32 u -> fits 32 mask -> Z.land mask CPSR_M = 0 ->
  Z.land (mix u val (uncached_mask mask)) CPSR_M = Z.land u CPSR_M.
Proof.
  intros Hu Hm H0. apply Z.bits_inj'. intros i Hi. rewrite !Z.land_spec, mix_bit, uncached_mask_bit by (done || by apply fits_uncached_mask).
  destruct (Z.testbit CPSR_M i) eqn:E; [|by rewrite !andb_false_r]. by rewrite (land_zero_bit _ _ _ H0 E).
Qed.
Lemma mode_written u val mask : fits 32 u -> fits 32 mask -> Z.land mask CPSR_M = CPSR_M ->
  Z.land (mix u val (uncached_mask mask)) CPSR_M = Z.land val CPSR_M.
Proof.
  intros Hu Hm H0. apply Z.bits_inj'. intros i Hi. rewrite !Z.land_spec, mix_bit, uncached_mask_bit by (done || by apply fits_uncached_mask).
  destruct (Z.testbit CPSR_M i) eqn:E; [|by rewrite !andb_false_r].
  by rewrite (land_full_bit _ _ _ H0 E), (mode_bits_uncached i E).
Qed.
Lemma mode_changes u val mask : Z.land mask CPSR_M = CPSR_M ->
  truth (Z.land (Z.land (Z.lxor u val) mask) CPSR_M) = negb (Z.land u CPSR_M =? Z.land val CPSR_M).
Proof.
  intros Hm. rewrite <- Z.land_assoc, Hm. unfold truth. f_equal.
  assert (Z.land (Z.lxor u val) CPSR_M = Z.lxor (Z.land u CPSR_M) (Z.land val CPSR_M)) as ->.
  { apply Z.bits_inj'. intros i Hi. rewrite Z.land_spec, !Z.lxor_spec, !Z.land_spec.
    by destruct (Z.testbit u i), (Z.testbit val i), (Z.testbit CPSR_M i). }
  destruct (Z.eqb_spec (Z.land u CPSR_M) (Z.land val CPSR_M)) as [->|Hne]; [by rewrite Z.lxor_nilpotent|].
  apply Z.eqb_neq. by rewrite Z.lxor_eq_0_iff.
Qed.

(** What the status register and the register file do not hold. *)
Definition system (e : CPUARMState) :=
  (cp15 e, v7m e, features e, vfp_xregs e, iwmmxt_cregs e, interrupt_request e, tlb_table e, iotlb e, mem_io_vaddr e,
   watchpoints e, exception_index e, cpu_index e, (saved_condexec_bits e, saved_condexec_tb e)).
Lemma flags_system e e' : flags_only e e' -> system e' = system e.
Proof. intros H. apply (f_equal system) in H. exact H. Qed.
Lemma control_system e e' : same_control e e' -> system e' = system e.
Proof. intros H. apply (f_equal system) in H. exact H. Qed.
Lemma flags_contents e e' m r : flags_only e e' -> contents m e' r = contents m e r.
Proof. intros H. apply (f_equal (fun x => contents m x r)) in H. exact H. Qed.
Lemma flags_wf e e' : flags_only e e' -> cpu_wf e -> cpu_wf e'.
Proof. intros -> H. destruct H. by split. Qed.
Lemma flags_uncached e e' : flags_only e e' -> uncached_cpsr e' = uncached_cpsr e.
Proof. intros H. apply (f_equal uncached_cpsr) in H. exact H. Qed.
Lemma control_psr e e' : same_control e e' -> psr_wf e -> psr_wf e' /\ cpsr_read e' = cpsr_read e /\ uncached_cpsr e' = uncached_cpsr e.
Proof.
  intros H He. split; [rewrite H; by destruct He|]. split; [apply (f_equal cpsr_read) in H; exact H|].
  apply (f_equal uncached_cpsr) in H; exact H.
Qed.

(** The mode switch of cpsr_write. *)
Lemma switch_part_wp E val mask (Q : unit -> CPUARMState -> Prop) e :
  cpu_wf e -> psr_wf e -> valid_mode (cur_mode e) -> fits 32 mask ->
  (Z.land mask CPSR_M = 0 \/ Z.land mask CPSR_M = CPSR_M /\ valid_mode (Z.land val CPSR_M)) ->
  (forall e', cpu_wf e' -> same_control e e' ->
     (forall r, areg_ok r -> contents (Z.land (mix (uncached_cpsr e) val (uncached_mask mask)) CPSR_M) e' r = contents (cur_mode e) e r) -> Q tt e') ->
  wp E (when (truth (Z.land (Z.land (Z.lxor (uncached_cpsr e) val) mask) CPSR_M)) (switch_mode (Z.land val CPSR_M))) Q e.
Proof.
  intros Hwf Hp Hv Hm Hmode HQ. pose proof (wf_uncached _ Hp) as Hu. wp_step. destruct Hmode as [H0|[HM Hval]].
  - rewrite <- Z.land_assoc, H0, Z.land_0_r. simpl. apply HQ; [done|apply same_control_refl|]. by rewrite mode_kept.
  - rewrite mode_changes by done. fold (cur_mode e). rewrite mode_written in HQ by done.
    destruct (Z.eqb_spec (cur_mode e) (Z.land val CPSR_M)) as [Heq|Hne]; simpl.
    + apply HQ; [done|apply same_control_refl|]. by rewrite Heq.
    + apply switch_mode_wp; [done..|]. exact HQ.
Qed.

Lemma write_flags_wp E val mask (Q : unit -> CPUARMState -> Prop) e :
  psr_wf e -> fits 32 val -> fits 32 mask -> groups_ok mask ->
  (forall e', psr_wf e' -> cpsr_read e' = mix (cpsr_read e) val (flag_mask mask) -> flags_only e e' -> Q tt e') ->
  wp E (write_flags val mask) Q e.
Proof.
  intros Hp Hv Hm HG HQ.
  inversion_clear HG as [|? ? G1 HG']. inversion_clear HG' as [|? ? G2 HG]. inversion_clear HG as [|? ? G3 HG'].
  inversion_clear HG' as [|? ? G4 _]. unfold write_flags.
  wp_step. apply (if_mask_wp _ _ val); [by apply nzcv_group|done..|]. intros e1 P1 R1 F1.
  wp_step. apply (if_mask_wp _ _ val); [by apply q_group|by apply single_bit|done|]. intros e2 P2 R2 F2.
  wp_step. apply (if_mask_wp _ _ val); [by apply t_group|by apply single_bit|done|]. intros e3 P3 R3 F3.
  wp_step. apply (if_mask_wp _ _ val); [by apply it01_group|done..|]. intros e4 P4 R4 F4.
  wp_step. apply (if_mask_wp _ _ val); [by apply it27_group|done..|]. intros e5 P5 R5 F5.
  apply (if_mask_wp _ _ val); [by apply ge_group|done..|]. intros e6 P6 R6 F6.
  apply HQ; [done| |].
  - rewrite R6, R5, R4, R3, R2, R1. pose proof (fits_cpsr_read e Hp).
    assert (forall x, fits 32 (Z.land mask x)) as Fm by (intros x; by apply fits_land_any).
    rewrite !mix_mix by (repeat first [assumption | apply Fm | apply fits32_mix | apply fits_lor; [done| |]]). done.
  - exact (flags_only_trans _ _ _ F1 (flags_only_trans _ _ _ F2 (flags_only_trans _ _ _ F3
      (flags_only_trans _ _ _ F4 (flags_only_trans _ _ _ F5 F6))))).
Qed.

Lemma cpsr_write_wp E val mask (Q : unit -> CPUARMState -> Prop) e :
  cpu_wf e -> psr_wf e -> valid_mode (cur_mode e) -> fits 32 val -> fits 32 mask -> mask_ok mask val ->
  (forall e', cpu_wf e' -> psr_wf e' -> cpsr_read e' = mix (cpsr_read e) val mask -> system e' = system e ->
     uncached_cpsr e' = mix (uncached_cpsr e) val (uncached_mask mask) ->
     (forall r, areg_ok r -> contents (cur_mode e') e' r = contents (cur_mode e) e r) -> Q tt e') ->
  wp E (cpsr_write val mask) Q e.
Proof.
  intros Hwf Hp Hmode Hv Hm [HG HM] HQ. unfold cpsr_write.
  wp_step. apply write_flags_wp; [done..|]. intros e6 P6 R6 F. pose proof (flags_uncached _ _ F) as Hu.
  wp_step. wp_step. wp_step. apply switch_part_wp; try done.
  { by apply (flags_wf e). } { unfold cur_mode. by rewrite Hu. }
  intros e7 W7 C7 K7. destruct (control_psr _ _ C7 P6) as (P7 & R7 & U7). wp_step.
  destruct (uncached_write e7 val mask P7 Hv Hm) as [P8 R8]. apply HQ.
  - by destruct W7.
  - exact P8.
  - etrans; [exact R8|]. rewrite R7, R6, mix_mix, all_groups;
      auto using fits_cpsr_read, fits_flag_mask, fits_uncached_mask.
  - etrans; [|exact (flags_system _ _ F)]. exact (control_system _ _ C7).
  - simpl. by rewrite U7, Hu.
  - intros r Hr. rewrite <- (flags_contents e e6 (cur_mode e) r F). unfold cur_mode at 2. rewrite <- Hu. fold (cur_mode e6).
    rewrite <- (K7 r Hr). unfold cur_mode. simpl. by rewrite U7.
Qed.

(** C23: a write to the status register replaces exactly the bits its mask selects, the mode
    switching the register file along: the physical registers keep their words, and nothing
    else of the processor changes. *)
Theorem cpsr_write_exact e val mask :
  cpu_wf e -> psr_wf e -> valid_mode (cur_mode e) -> fits 32 val -> fits 32 mask -> mask_ok mask val ->
  exists e', cpsr_write val mask e = Ok (tt, e') /\ cpu_wf e' /\ psr_wf e' /\
    (forall i, 0 <= i -> Z.testbit (cpsr_read e') i = if Z.testbit mask i then Z.testbit val i else Z.testbit (cpsr_read e) i) /\
    system e' = system e /\
    forall r, areg_ok r -> contents (cur_mode e') e' r = contents (cur_mode e) e r.
Proof.
  intros Hwf Hp Hmode Hv Hm Hok.
  assert (wp no_err (cpsr_write val mask) (fun _ e' => cpu_wf e' /\ psr_wf e' /\ cpsr_read e' = mix (cpsr_read e) val mask /\
    system e' = system e /\ forall r, areg_ok r -> contents (cur_mode e') e' r = contents (cur_mode e) e r) e) as H
    by (apply cpsr_write_wp; done).
  apply wp_total_ex in H as ([] & e' & He & W & P & R & S & K). exists e'. split; [done|]. split; [done|]. split; [done|].
  split; [|done]. intros i Hi. rewrite R. apply mix_bit; [by apply fits_cpsr_read|done..].
Qed.

Lemma sample_psr_wf : psr_wf sample_cpu.
Proof. split; try reflexivity; split; reflexivity || (intros H; discriminate H). Qed.
Example cpsr_write_witness : exists e', cpsr_write 0x600001d3 0xff0000ff sample_cpu = Ok (tt, e') /\
  Z.testbit (cpsr_read e') 30 = true /\ contents (cur_mode e') e' (Sp 0) = Some 113.
Proof.
  destruct (cpsr_write_exact sample_cpu 0x600001d3 0xff0000ff sample_cpu_wf sample_psr_wf)
    as (e' & H & _ & _ & R & _ & K).
  1: apply (bool_decide_unpack _); exact I. 1, 2: split; [discriminate|reflexivity].
  { split; [|right; split; [reflexivity|apply (bool_decide_unpack _); exact I]].
    repeat (apply List.Forall_cons; [first [right; reflexivity | left; reflexivity]|]). apply List.Forall_nil. }
  exists e'. split; [exact H|]. split; [exact (R 30 ltac:(lia))|exact (K (Sp 0) ltac:(simpl; lia))].
Defined.
