(* ===== verification/ArmExc.v ===== *)
(** * ArmExc: exceptions of the ARM processor (target-arm/helper.c)

    do_interrupt for the A and R profiles and for the M profile.  The processor and the
    machine it is in are a pair; [NvicOps] is the interrupt controller of the M profile and
    [Semihosting] the debugger's service calls with the instruction fetch that recognises
    them. *)
From S2P Require Import Prelude Physmem PhysAccess ArmCpu ArmModes ArmPsr.
From stdpp Require Import sets.
#[local] Open Scope Z_scope.

Definition ARMV7M_EXCP_MEM : Z := 4.
Definition ARMV7M_EXCP_USAGE : Z := 6.
Definition ARMV7M_EXCP_SVC : Z := 11.
Definition ARMV7M_EXCP_DEBUG : Z := 12.

Abbreviation SYS D := (ST (CPUARMState * machine D)%type).
Class NvicOps (D : Type) := {
  nvic_set_pending : Z -> SYS D unit;
  nvic_acknowledge_irq : SYS D Z;
  nvic_complete_irq : Z -> SYS D unit
}.
Class Semihosting (D : Type) := {
  semihosting_enabled : bool;
  lduw_code : Z -> SYS D Z;
  ldl_code : Z -> SYS D Z;
  do_arm_semihosting : SYS D Z
}.

Section exceptions.
  Context {D : Type} `{!Devices D} `{!NvicOps D} `{!Semihosting D}.
Definition on_cpu {A} (m : CPU A) : SYS D A := fun '(e, s) =>
  match m e with Ok (a, e) => Ok (a, (e, s)) | Err x => Err x end.
Definition on_mem {A} (m : ST (machine D) A) : SYS D A := fun '(e, s) =>
  match m s with Ok (a, s) => Ok (a, (e, s)) | Err x => Err x end.
(** A function of v7m.nvic, whose callees dereference it. *)
Definition with_nvic {A} (m : SYS D A) : SYS D A :=
  e ← on_cpu get; if nvic_present (v7m e) then m else throw Fault.

(** ** The M profile *)
Definition v7m_push (val : Z) : SYS D unit :=
  sp ← on_cpu (get_reg 13);
  on_cpu (put_reg 13 (wrap 32 (sp - 4))) ;;
  on_mem (stl_phys (wrap 32 (sp - 4)) val).
Definition v7m_pop : SYS D Z :=
  sp ← on_cpu (get_reg 13);
  val ← on_mem (ldl_phys sp);
  on_cpu (put_reg 13 (wrap 32 (sp + 4))) ;;
  mret val.
Definition pop_into (i : Z) : SYS D unit := v ← v7m_pop; on_cpu (put_reg i v).

Definition do_v7m_exception_exit : SYS D unit :=
  type ← on_cpu (get_reg 15);
  e ← on_cpu get;
  when (truth (v7m_exception (v7m e))) (with_nvic (nvic_complete_irq (v7m_exception (v7m e)))) ;;
  on_cpu (switch_v7m_sp (b2z (truth (Z.land type 4)))) ;;
  for_each [0; 1; 2; 3; 12; 14; 15] pop_into ;;
  xpsr ← v7m_pop;
  on_cpu (xpsr_write xpsr 0xfffffdff) ;;
  when (truth (Z.land xpsr 0x200)) (sp ← on_cpu (get_reg 13); on_cpu (put_reg 13 (Z.lor sp 4))).

Definition push_reg (i : Z) : SYS D unit := v ← on_cpu (get_reg i); v7m_push v.
(** The part of do_interrupt_v7m after the exception has been acknowledged. *)
Definition v7m_exception_entry (xpsr lr : Z) : SYS D unit :=
  sp ← on_cpu (get_reg 13);
  xpsr ← (if truth (Z.land sp 4) then on_cpu (put_reg 13 (wrap 32 (sp - 4))) ;; mret (Z.lor xpsr 0x200)
          else mret xpsr);
  v7m_push xpsr ;;
  for_each [15; 14; 12; 3; 2; 1; 0] push_reg ;;
  on_cpu (switch_v7m_sp 0) ;;
  on_cpu (modify (fun e => e <| uncached_cpsr := Z.land (uncached_cpsr e) (not32 CPSR_IT) |>)) ;;
  on_cpu (put_reg 14 lr) ;;
  e ← on_cpu get;
  addr ← on_mem (ldl_phys (wrap 32 (vecbase (v7m e) + v7m_exception (v7m e) * 4)));
  on_cpu (put_reg 15 (Z.land addr 0xfffffffe)) ;;
  on_cpu (modify (fun e => e <| thumb := Z.land addr 1 |>)).
Definition do_interrupt_v7m : SYS D unit :=
  e ← on_cpu get;
  let xpsr := xpsr_read e in
  let lr := 0xfffffff1 in
  let lr := if truth (current_sp (v7m e)) then Z.lor lr 4 else lr in
  let lr := if v7m_exception (v7m e) =? 0 then Z.lor lr 8 else lr in
  let x := exception_index e in
  if x =? EXCP_UDEF then with_nvic (nvic_set_pending ARMV7M_EXCP_USAGE)
  else if x =? EXCP_SWI then
    pc ← on_cpu (get_reg 15);
    on_cpu (put_reg 15 (wrap 32 (pc + 2))) ;;
    with_nvic (nvic_set_pending ARMV7M_EXCP_SVC)
  else if (x =? EXCP_PREFETCH_ABORT) || (x =? EXCP_DATA_ABORT) then with_nvic (nvic_set_pending ARMV7M_EXCP_MEM)
  else if x =? EXCP_BKPT then
    pc ← on_cpu (get_reg 15);
    nr ← (if semihosting_enabled then w ← lduw_code pc; mret (Z.land w 0xff) else mret 0);
    if semihosting_enabled && (nr =? 0xab) then
      on_cpu (put_reg 15 (wrap 32 (pc + 2))) ;;
      r ← do_arm_semihosting;
      on_cpu (put_reg 0 r)
    else with_nvic (nvic_set_pending ARMV7M_EXCP_DEBUG)
  else if x =? EXCP_IRQ then
    n ← with_nvic nvic_acknowledge_irq;
    on_cpu (set_v7m_with (fun v => v <| v7m_exception := n |>)) ;;
    v7m_exception_entry xpsr lr
  else if x =? EXCP_EXCEPTION_EXIT then do_v7m_exception_exit
  else hw_error.

(** ** The other profiles *)
(** The part of do_interrupt after the exception has been classified. *)
Definition take_exception (new_mode addr mask offset : Z) : CPU unit :=
  e ← get;
  pc ← get_reg 15;
  when (truth (thumb e) && truth (actual_condexec_bits e))
    (modify (fun e => e <| saved_condexec_tb := pc |> <| saved_condexec_bits := actual_condexec_bits e |>
                        <| actual_condexec_bits := 0 |>)) ;;
  let addr := if truth (Z.land (c1_sys (cp15 e)) (bit 13)) then wrap 32 (addr + 0xffff0000) else addr in
  switch_mode new_mode ;;
  modify (fun e => e <| spsr := cpsr_read e |>) ;;
  modify (fun e => e <| condexec_bits := 0 |>) ;;
  modify (fun e => e <| uncached_cpsr := Z.lor (Z.land (uncached_cpsr e) (not32 CPSR_M)) new_mode |>) ;;
  modify (fun e => e <| uncached_cpsr := Z.lor (uncached_cpsr e) mask |>) ;;
  modify (fun e => e <| thumb := 0 |>) ;;
  pc ← get_reg 15;
  put_reg 14 (wrap 32 (pc + offset)) ;;
  put_reg 15 addr ;;
  modify (fun e => e <| interrupt_request := Z.lor (interrupt_request e) CPU_INTERRUPT_EXITTB |>).

(** Whether a software interrupt or breakpoint is a call of the debugger. *)
Definition semihosting_swi (e : CPUARMState) : SYS D bool :=
  if semihosting_enabled then
    pc ← on_cpu (get_reg 15);
    mask ← (if truth (thumb e) then w ← lduw_code (wrap 32 (pc - 2)); mret (Z.land w 0xff)
            else w ← ldl_code (wrap 32 (pc - 4)); mret (Z.land w 0xffffff) : SYS D Z);
    mret (((mask =? 0x123456) && negb (truth (thumb e)) || (mask =? 0xab) && truth (thumb e))
          && negb (Z.land (uncached_cpsr e) CPSR_M =? ARM_CPU_MODE_USR))
  else mret false.
Definition semihosting_bkpt (e : CPUARMState) : SYS D bool :=
  if truth (thumb e) && semihosting_enabled then
    pc ← on_cpu (get_reg 15);
    w ← lduw_code pc;
    mret ((Z.land w 0xff =? 0xab) && negb (Z.land (uncached_cpsr e) CPSR_M =? ARM_CPU_MODE_USR))
  else mret false.

Definition do_interrupt : SYS D unit :=
  e ← on_cpu get;
  if IS_M e then do_interrupt_v7m
  else
    let x := exception_index e in
    let prefetch_abort := on_cpu (take_exception ARM_CPU_MODE_ABT 0x0c (Z.lor CPSR_A CPSR_I) 4) in
    if x =? EXCP_UDEF then on_cpu (take_exception ARM_CPU_MODE_UND 0x04 CPSR_I (if truth (thumb e) then 2 else 4))
    else if x =? EXCP_SWI then
      call ← semihosting_swi e;
      if (call : bool) then r ← do_arm_semihosting; on_cpu (put_reg 0 r)
      else on_cpu (take_exception ARM_CPU_MODE_SVC 0x08 CPSR_I 0)
    else if x =? EXCP_BKPT then
      call ← semihosting_bkpt e;
      if (call : bool) then
        pc ← on_cpu (get_reg 15);
        on_cpu (put_reg 15 (wrap 32 (pc + 2))) ;;
        r ← do_arm_semihosting;
        on_cpu (put_reg 0 r)
      else prefetch_abort
    else if x =? EXCP_PREFETCH_ABORT then prefetch_abort
    else if x =? EXCP_DATA_ABORT then on_cpu (take_exception ARM_CPU_MODE_ABT 0x10 (Z.lor CPSR_A CPSR_I) 8)
    else if x =? EXCP_IRQ then on_cpu (take_exception ARM_CPU_MODE_IRQ 0x18 (Z.lor CPSR_A CPSR_I) 4)
    else if x =? EXCP_FIQ then
      on_cpu (take_exception ARM_CPU_MODE_FIQ 0x1c (Z.lor CPSR_A (Z.lor CPSR_I CPSR_F)) 4)
    else hw_error.
End exceptions.
