(* ===== verification/ArmEntry.v ===== *)
(** * ArmEntry: entering and leaving an exception

    What do_interrupt does to the physical registers and the status register, and that an
    exception handler which returns is invisible to the program it interrupted. *)
From S2P Require Import Prelude Physmem PhysAccess ArmCpu ArmModes ArmPsr ArmExc.
From stdpp Require Import sets.
#[local] Open Scope Z_scope.

(** ** The new status register *)
(** The mode replaced, ARM state, no IT block, the interrupts of [mask] disabled. *)
Definition entry_cpsr (c m mask : Z) : Z :=
  Z.lor (Z.lor (Z.land c (not32 (Z.lor CPSR_M (Z.lor CPSR_T CPSR_IT)))) m) mask.
Definition entry_uncached (u m mask : Z) : Z := Z.lor (Z.lor (Z.land u (not32 CPSR_M)) m) mask.

Section entry.
  Context (m mask : Z) (Hm : valid_mode m) (Hmask : fits 32 mask)
    (Hc : Z.land mask CACHED_CPSR_BITS = 0) (HM : Z.land mask CPSR_M = 0).

Lemma mode_fits : fits 5 m.
Proof. rewrite <- (mode_bits m Hm), Z.land_comm. by apply fits_land_any. Qed.
Lemma mode_bit_high i : 5 <= i -> Z.testbit m i = false.
Proof. intros Hi. apply (testbit_lt 5); [apply mode_fits|lia]. Qed.

Lemma entry_mode u : Z.land (entry_uncached u m mask) CPSR_M = m.
Proof.
  unfold entry_uncached. rewrite !Z.land_lor_distr_l, HM, (mode_bits m Hm), Z.lor_0_r, <- Z.land_assoc.
  change (Z.land (not32 CPSR_M) CPSR_M) with 0. by rewrite Z.land_0_r.
Qed.
Lemma entry_uncached_wf u : fits 32 u -> Z.land u CACHED_CPSR_BITS = 0 ->
  fits 32 (entry_uncached u m mask) /\ Z.land (entry_uncached u m mask) CACHED_CPSR_BITS = 0.
Proof.
  intros Hu H0. unfold entry_uncached. split.
  - repeat apply fits_lor; try done; [by apply fits_land_l; [..|apply fits_not32]|].
    eapply fits_le; [|apply mode_fits]. lia.
  - rewrite !Z.land_lor_distr_l, Hc, <- (mode_bits m Hm), <- !Z.land_assoc.
    change (Z.land CPSR_M CACHED_CPSR_BITS) with 0. rewrite (Z.land_comm (not32 CPSR_M)), Z.land_assoc, H0. by rewrite !Z.land_0_r.
Qed.
Lemma entry_psr e f : psr_wf e -> uncached_cpsr f = entry_uncached (uncached_cpsr e) m mask ->
  condexec_bits f = 0 -> thumb f = 0 -> CF f = CF e -> VF f = VF e -> NF f = NF e -> ZF f = ZF e -> QF f = QF e -> GE f = GE e ->
  psr_wf f /\ cpsr_read f = entry_cpsr (cpsr_read e) m mask.
Proof.
  intros He Eu Ei Et EC EV EN EZ EQ EG. pose proof He as [H1 H2 H3 H4 H5 H6 H7 H8 H9].
  assert (psr_wf f) as Hf.
  { destruct (entry_uncached_wf _ H1 H2). by split; rewrite ?Eu, ?Ei, ?Et, ?EC, ?EV, ?EN, ?EQ, ?EG. }
  split; [done|]. apply Z.bits_inj'. intros i Hi. unfold entry_cpsr.
  rewrite !Z.lor_spec, Z.land_spec, not32_testbit, !cpsr_read_bit by done.
  assert (32 <= i -> Z.testbit mask i = false /\ Z.testbit m i = false) as Hhi.
  { intros. split; [by apply (testbit_lt 32)|apply mode_bit_high; lia]. }
  each_bit i.
  { unfold cpsr_bit. replace (32 <=? i) with true by lia. by destruct Hhi as [-> ->]. }
  all: unfold cpsr_bit; cbn -[Z.testbit CACHED_CPSR_BITS Z.lor Z.land not32];
    rewrite ?Eu, ?Ei, ?Et, ?EC, ?EV, ?EN, ?EZ, ?EQ, ?EG; unfold entry_uncached; rewrite ?Z.lor_spec, ?Z.land_spec, ?not32_testbit by done;
    repeat match goal with
    | |- context [Z.testbit CPSR_M ?j] => let v := eval vm_compute in (Z.testbit CPSR_M j) in change (Z.testbit CPSR_M j) with v
    | |- context [Z.testbit CPSR_T ?j] => let v := eval vm_compute in (Z.testbit CPSR_T j) in change (Z.testbit CPSR_T j) with v
    | |- context [Z.testbit CPSR_IT ?j] => let v := eval vm_compute in (Z.testbit CPSR_IT j) in change (Z.testbit CPSR_IT j) with v
    end; cbn -[Z.testbit CACHED_CPSR_BITS];
    rewrite ?Z.bits_0; try rewrite (land_zero_bit _ _ _ Hc) by reflexivity; try rewrite mode_bit_high by lia;
    rewrite ?andb_true_r, ?andb_false_r, ?orb_false_r; try reflexivity.
Qed.

(** The registers after an exception to mode [m] at [vector]: the link register of the new mode
    holds [link], its SPSR the old status; every other physical register is untouched. *)
Record entered (vector link : Z) (e e' : CPUARMState) : Prop := mkEntered {
  en_wf : cpu_wf e'; en_psr : psr_wf e'; en_mode : cur_mode e' = m;
  en_pc : contents m e' (Low 15) = Some vector;
  en_lr : contents m e' (Lr (bank m)) = Some link;
  en_spsr : contents m e' (Spsr (bank m)) = Some (cpsr_read e);
  en_rest : forall r, areg_ok r -> r <> Low 15 -> r <> Lr (bank m) -> r <> Spsr (bank m) ->
    contents m e' r = contents (cur_mode e) e r;
  en_cpsr : cpsr_read e' = entry_cpsr (cpsr_read e) m mask;
  en_cp15 : cp15 e' = cp15 e;
  en_features : features e' = features e
}.

(** Saving the IT bits concerns no register. *)
Lemma save_it_wp E b pc (Q : unit -> CPUARMState -> Prop) e : cpu_wf e -> psr_wf e ->
  (forall e1, cpu_wf e1 -> psr_wf e1 -> cpsr_read e1 = cpsr_read e -> uncached_cpsr e1 = uncached_cpsr e -> cp15 e1 = cp15 e -> features e1 = features e ->
     (forall x r, contents x e1 r = contents x e r) -> Q tt e1) ->
  wp E (when b (modify (fun e => e <| saved_condexec_tb := pc |> <| saved_condexec_bits := actual_condexec_bits e |>
                        <| actual_condexec_bits := 0 |>))) Q e.
Proof.
  intros Hw Hp HQ. wp_step. destruct b; [wp_step|by apply HQ]. apply HQ; try done; [by destruct Hw|by destruct Hp].
Qed.

Definition vector_of (e : CPUARMState) (addr : Z) : Z :=
  if truth (Z.land (c1_sys (cp15 e)) (bit 13)) then wrap 32 (addr + 0xffff0000) else addr.

Lemma take_exception_wp E addr offset pc (Q : unit -> CPUARMState -> Prop) e :
  cpu_wf e -> psr_wf e -> valid_mode (cur_mode e) -> rd (regs e) 15 = Some pc ->
  (forall e', entered (vector_of e addr) (wrap 32 (pc + offset)) e e' -> Q tt e') ->
  wp E (take_exception m addr mask offset) Q e.
Proof.
  intros Hw Hp Hv Hpc HQ. unfold take_exception. wp_step. wp_step. wp_step. eapply get_reg_wp; [exact Hpc|].
  wp_step. apply save_it_wp; [done..|]. intros e1 W1 P1 R1 U1 S1 F1 K1. fold (vector_of e addr).
  assert (cur_mode e1 = cur_mode e) as M1 by (unfold cur_mode; by rewrite U1).
  wp_step. apply switch_mode_wp; [done|by rewrite M1|done|]. intros e2 W2 C2 K2.
  destruct (control_psr _ _ C2 P1) as (P2 & R2 & U2).
  assert (cp15 e2 = cp15 e) as S2 by (rewrite <- S1; apply (f_equal cp15) in C2; exact C2).
  assert (features e2 = features e) as F2 by (rewrite <- F1; apply (f_equal features) in C2; exact C2).
  do 5 (wp_step; wp_step).
  pose proof (K2 (Low 15) ltac:(simpl; lia)) as H15. rewrite K1 in H15. simpl in H15.
  wp_step. eapply get_reg_wp; [simpl; rewrite H15; exact Hpc|].
  pose proof (wf_regs _ W2) as L2. set (link := wrap 32 (pc + offset)).
  pose proof (wr_Some (regs e2) 14 link ltac:(lia)) as E14. set (l14 := <[_ := link]> _) in E14.
  pose proof (wr_length _ _ _ _ E14) as N14.
  wp_step. eapply put_reg_wp; [exact E14|].
  pose proof (wr_Some l14 15 (vector_of e addr) ltac:(lia)) as E15. set (l15 := <[_ := vector_of e addr]> _) in E15.
  pose proof (wr_length _ _ _ _ E15) as N15.
  wp_step. eapply put_reg_wp; [exact E15|]. wp_step.
  assert (forall i, rd l15 i = if 15 =? i then Some (vector_of e addr) else if 14 =? i then Some link else rd (regs e2) i) as Hl
    by (intros i; rewrite (rd_wr _ _ _ _ _ E15); destruct (15 =? i); [done|apply (rd_wr _ _ _ _ _ E14)]).
  apply HQ. set (e' := _ <| interrupt_request := _ |>).
  destruct (entry_psr e2 e') as [P' R']; try done.
  split; try done.
  - destruct W2. split; try done. simpl. congruence.
  - apply entry_mode.
  - unfold contents, e'. simpl. by rewrite Hl.
  - unfold contents, e'. simpl. by rewrite Z.eqb_refl, Hl.
  - unfold contents, e'. simpl. rewrite Z.eqb_refl. f_equal. change (cpsr_read e2 = cpsr_read e). congruence.
  - intros r Hr N1 N2 N3. rewrite <- (K1 (cur_mode e) r), <- M1, <- (K2 r Hr).
    destruct r as [i|f i|b|b|b]; unfold contents, e'; simpl in Hr |- *; rewrite ?Hl.
    + destruct (Z.eqb_spec 15 i); [congruence|]. destruct (Z.eqb_spec 14 i); [lia|done].
    + destruct (Z.eqb_spec 15 i); [lia|]. destruct (Z.eqb_spec 14 i); [lia|done].
    + done.
    + destruct (Z.eqb_spec b (bank m)); [congruence|done].
    + destruct (Z.eqb_spec b (bank m)); [congruence|done].
  - rewrite R'. congruence.
Qed.
End entry.

(** ** Classification *)
(** Mode, vector, interrupts disabled and distance of the link register from the program
    counter, per exception and instruction set. *)
Definition exc_entry (x : Z) (in_thumb : bool) : option (Z * Z * Z * Z) :=
  if x =? EXCP_UDEF then Some (ARM_CPU_MODE_UND, 0x04, CPSR_I, if in_thumb then 2 else 4)
  else if x =? EXCP_SWI then Some (ARM_CPU_MODE_SVC, 0x08, CPSR_I, 0)
  else if (x =? EXCP_PREFETCH_ABORT) || (x =? EXCP_BKPT) then Some (ARM_CPU_MODE_ABT, 0x0c, Z.lor CPSR_A CPSR_I, 4)
  else if x =? EXCP_DATA_ABORT then Some (ARM_CPU_MODE_ABT, 0x10, Z.lor CPSR_A CPSR_I, 8)
  else if x =? EXCP_IRQ then Some (ARM_CPU_MODE_IRQ, 0x18, Z.lor CPSR_A CPSR_I, 4)
  else if x =? EXCP_FIQ then Some (ARM_CPU_MODE_FIQ, 0x1c, Z.lor CPSR_A (Z.lor CPSR_I CPSR_F), 4)
  else None.

(** A processor in a consistent state, outside the M profile, with its next instruction at [pc]. *)
Record cpu_ok (pc : Z) (e : CPUARMState) : Prop := mkCpuOk {
  ok_wf : cpu_wf e; ok_psr : psr_wf e; ok_mode : valid_mode (cur_mode e);
  ok_profile : IS_M e = false; ok_pc : rd (regs e) 15 = Some pc
}.

Section interrupt.
  Context {D : Type} `{!Devices D} `{!NvicOps D} `{!Semihosting D}.

Lemma wp_on_cpu {A} E (m : CPU A) (Q : A -> CPUARMState * machine D -> Prop) e s :
  wp E (on_cpu m) Q (e, s) <-> wp E m (fun a e' => Q a (e', s)) e.
Proof. unfold wp, on_cpu. by destruct (m e) as [[??]|]. Qed.
Lemma wp_on_mem {A} E (m : ST (machine D) A) (Q : A -> CPUARMState * machine D -> Prop) e s :
  wp E (on_mem m) Q (e, s) <-> wp E m (fun a s' => Q a (e, s')) s.
Proof. unfold wp, on_mem. by destruct (m s) as [[??]|]. Qed.

Lemma do_interrupt_wp E e s pc m vector mask offset (Q : unit -> CPUARMState * machine D -> Prop) :
  cpu_ok pc e -> semihosting_enabled (D := D) = false ->
  exc_entry (exception_index e) (truth (thumb e)) = Some (m, vector, mask, offset) ->
  (forall e', entered m mask (vector_of e vector) (wrap 32 (pc + offset)) e e' -> Q tt (e', s)) ->
  wp E (do_interrupt (D := D)) Q (e, s).
Proof.
  intros [Hw Hp Hv HM Hpc] Hs He HQ. unfold do_interrupt. wp_step. apply wp_on_cpu. wp_step. rewrite HM.
  assert (forall m' v' k' o', Some (m', v', k', o') = Some (m, vector, mask, offset) -> valid_mode m' -> fits 32 k' ->
    Z.land k' CACHED_CPSR_BITS = 0 -> Z.land k' CPSR_M = 0 ->
    wp E (on_cpu (take_exception m' v' k' o')) Q (e, s)) as Htake.
  { intros m' v' k' o' [= -> -> -> ->] H1 H2 H3 H4. apply wp_on_cpu. by eapply take_exception_wp. }
  unfold exc_entry in He. unfold semihosting_swi, semihosting_bkpt. rewrite Hs, andb_false_r.
  assert (forall m, bool_decide (valid_mode m) = true -> valid_mode m) as Hd by (intros x; apply bool_decide_eq_true).
  repeat match type of He with
  | (if (?a || ?b) then _ else _) = _ => destruct a eqn:?, b eqn:?; cbn [orb] in He
  | (if ?b then _ else _) = _ => destruct b eqn:?
  end.
  all: repeat match goal with H : (_ =? _) = _ |- _ => rewrite H in *; clear H end; try wp_step.
  all: try discriminate He; try (apply (Htake _ _ _ _ He); first [apply Hd; reflexivity | done]).
Qed.

(** C9: [do_interrupt] on an exception of the A and R profiles that is no call of the debugger
    enters the mode and the vector of the exception: the old status goes to the SPSR of the
    new mode, the return address to its link register, and no other physical register
    changes; memory is not touched. *)
Theorem exception_entry e s pc m vector mask offset :
  cpu_ok pc e -> semihosting_enabled (D := D) = false ->
  exc_entry (exception_index e) (truth (thumb e)) = Some (m, vector, mask, offset) ->
  exists e', do_interrupt (D := D) (e, s) = Ok (tt, (e', s)) /\
    entered m mask (vector_of e vector) (wrap 32 (pc + offset)) e e'.
Proof.
  intros Ho Hs He. assert (wp no_err (do_interrupt (D := D)) (fun _ x => x.2 = s /\
    entered m mask (vector_of e vector) (wrap 32 (pc + offset)) e x.1) (e, s)) as H by by eapply do_interrupt_wp.
  apply wp_total_ex in H as ([] & [e' s'] & H & Hs' & Hen). simpl in Hs'. subst s'. by exists e'.
Qed.
End interrupt.

(** ** Returning *)
Lemma cpsr_mode e : psr_wf e -> Z.land (cpsr_read e) CPSR_M = cur_mode e.
Proof.
  intros Hp. apply Z.bits_inj'. intros i Hi. unfold cur_mode. rewrite !Z.land_spec.
  destruct (Z.testbit CPSR_M i) eqn:HM; [|by rewrite !andb_false_r]. rewrite !andb_true_r, cpsr_read_bit by done.
  each_bit i; [by rewrite (testbit_lt 5 CPSR_M) in HM by (done || lia)|..]; try discriminate HM; reflexivity.
Qed.
Lemma mix_full a b : fits 32 a -> fits 32 b -> mix a b 0xffffffff = b.
Proof.
  intros Ha Hb. apply Z.bits_inj'. intros i Hi. rewrite mix_bit by done.
  change 0xffffffff with (Z.ones 32). destruct (Z.ltb_spec i 32).
  - by rewrite Z.ones_spec_low by lia.
  - rewrite Z.ones_spec_high by lia. by rewrite !(testbit_lt 32) by (done || lia).
Qed.
Lemma even_return pc : fits 32 pc -> Z.testbit pc 0 = false -> Z.land pc (not32 1) = pc.
Proof.
  intros Hf Hp. apply Z.bits_inj'. intros i Hi. rewrite Z.land_spec, not32_testbit by done.
  destruct (Z.ltb_spec i 32); [|by rewrite (testbit_lt 32 pc) by (done || lia)].
  destruct (Z.eqb_spec i 0) as [->|]; [by rewrite Hp|]. rewrite (testbit_lt 1 1) by (done || lia). by rewrite andb_true_r.
Qed.

Lemma system_features e e' : system e' = system e -> features e' = features e.
Proof. unfold system. congruence. Qed.

(** What a handler has to leave as it found it: every physical register but the program
    counter. *)
Definition handled (e1 e2 : CPUARMState) : Prop :=
  cpu_wf e2 /\ psr_wf e2 /\ cur_mode e2 = cur_mode e1 /\ features e2 = features e1 /\
  forall r, areg_ok r -> r <> Low 15 -> contents (cur_mode e2) e2 r = contents (cur_mode e1) e1 r.

Lemma exception_return_wp E pc m mask vector link e e1 e2 (Q : unit -> CPUARMState -> Prop) :
  cpu_ok pc e -> fits 32 pc -> Z.testbit pc 0 = false -> valid_mode m ->
  entered m mask vector link e e1 -> handled e1 e2 ->
  (forall e3, cpu_ok pc e3 -> cpsr_read e3 = cpsr_read e -> cur_mode e3 = cur_mode e ->
     (forall r, areg_ok r -> r <> Lr (bank m) -> r <> Spsr (bank m) -> contents (cur_mode e3) e3 r = contents (cur_mode e) e r) ->
     system e3 = system e2 -> Q tt e3) ->
  wp E (exception_return pc) Q e2.
Proof.
  intros [Hw Hp Hv HM Hpc] Hf Heven Hm Hen (W2 & P2 & M2 & F2 & K2) HQ. unfold exception_return.
  rewrite (even_return pc Hf Heven). pose proof (wf_regs _ W2) as L2. rewrite (en_mode _ _ _ _ _ _ Hen) in M2, K2.
  pose proof (wr_Some (regs e2) 15 pc ltac:(lia)) as E15. set (l15 := <[_ := pc]> _) in E15.
  pose proof (wr_length _ _ _ _ E15) as N15.
  wp_step. eapply put_reg_wp; [exact E15|]. wp_step. wp_step. set (e2' := e2 <| regs := l15 |>).
  assert (spsr e2 = cpsr_read e) as Hs.
  { pose proof (bank_bound m). pose proof (K2 (Spsr (bank m)) ltac:(simpl; lia) ltac:(discriminate)) as Hb.
    rewrite (en_spsr _ _ _ _ _ _ Hen), M2 in Hb. simpl in Hb. rewrite Z.eqb_refl in Hb. congruence. }
  change (spsr e2') with (spsr e2). rewrite Hs. pose proof (fits_cpsr_read e Hp) as Hc.
  assert (Z.land (cpsr_read e) CPSR_M = cur_mode e) as Hcm by by apply cpsr_mode.
  apply cpsr_write_wp.
  - destruct W2. split; try done. simpl. congruence.
  - by destruct P2.
  - change (cur_mode e2') with (cur_mode e2). by rewrite M2.
  - done.
  - done.
  - split; [|right; split; [done|by rewrite Hcm]].
    repeat (apply List.Forall_cons; [right; reflexivity|]). apply List.Forall_nil.
  - intros e3 W3 P3 R3 S3 U3 K3.
    assert (cur_mode e3 = cur_mode e) as M3.
    { unfold cur_mode at 1. rewrite U3, mode_written; [done|by apply P2|done|done]. }
    rewrite mix_full in R3 by (done || apply fits_cpsr_read; by destruct P2).
    assert (forall r, areg_ok r -> r <> Low 15 -> contents (cur_mode e2') e2' r = contents m e2 r) as K2'.
    { intros r Hr Hne. change (cur_mode e2') with (cur_mode e2). rewrite M2.
      destruct r as [i|f i|b|b|b]; unfold contents, e2'; simpl in Hr |- *; rewrite ?(rd_wr _ _ _ _ _ E15); try done.
      - destruct (Z.eqb_spec 15 i); [congruence|done].
      - destruct (Z.eqb_spec 15 i); [lia|done]. }
    apply HQ; try done.
    + split; [done|done|by rewrite M3| |].
      * unfold IS_M, arm_feature in *. rewrite (system_features _ _ S3). change (features e2') with (features e2).
        by rewrite F2, (en_features _ _ _ _ _ _ Hen).
      * pose proof (K3 (Low 15) ltac:(simpl; lia)) as H. simpl in H. rewrite H. by rewrite (rd_wr _ _ _ _ _ E15).
    + intros r Hr N1 N2. rewrite K3 by done. destruct (decide (r = Low 15)) as [->|Hne].
      * simpl. rewrite (rd_wr _ _ _ _ _ E15). done.
      * rewrite K2' by done. rewrite <- M2, K2 by done. by apply (en_rest _ _ _ _ _ _ Hen).
Qed.

(** C10: an interrupt whose handler leaves the registers as it found them and returns to the saved
    address is invisible: the status register and every physical register are as before,
    except the link register and SPSR of the exception's mode. *)
Theorem handler_transparent {D} `{!Devices D} `{!NvicOps D} `{!Semihosting D} e s pc m vector mask offset :
  cpu_ok pc e -> fits 32 pc -> Z.testbit pc 0 = false -> semihosting_enabled (D := D) = false ->
  exc_entry (exception_index e) (truth (thumb e)) = Some (m, vector, mask, offset) ->
  exists e1, do_interrupt (D := D) (e, s) = Ok (tt, (e1, s)) /\
    forall e2, handled e1 e2 ->
    exists link e3, contents m e2 (Lr (bank m)) = Some link /\
      exception_return (wrap 32 (link - offset)) e2 = Ok (tt, e3) /\
      cpu_ok pc e3 /\ cpsr_read e3 = cpsr_read e /\ cur_mode e3 = cur_mode e /\
      (forall r, areg_ok r -> r <> Lr (bank m) -> r <> Spsr (bank m) ->
         contents (cur_mode e3) e3 r = contents (cur_mode e) e r).
Proof.
  intros Ho Hf Heven Hs He.
  assert (valid_mode m) as Hm.
  { unfold exc_entry in He. repeat case_match; try discriminate He; injection He as <- _ _ _; apply (bool_decide_unpack _); exact I. }
  assert (wp no_err (do_interrupt (D := D)) (fun _ x => x.2 = s /\
    entered m mask (vector_of e vector) (wrap 32 (pc + offset)) e x.1) (e, s)) as H by by eapply do_interrupt_wp.
  apply wp_total_ex in H as ([] & [e1 s1] & Hrun & Hs' & Hen). simpl in Hs', Hen. subst s1. exists e1. split; [exact Hrun|].
  intros e2 Hh. exists (wrap 32 (pc + offset)).
  assert (contents m e2 (Lr (bank m)) = Some (wrap 32 (pc + offset))) as Hl.
  { destruct Hh as (_ & _ & M2 & _ & K2). rewrite (en_mode _ _ _ _ _ _ Hen) in M2, K2. rewrite <- M2 at 1.
    pose proof (bank_bound m). rewrite K2 by (done || simpl; lia). apply (en_lr _ _ _ _ _ _ Hen). }
  assert (wrap 32 (wrap 32 (pc + offset) - offset) = pc) as ->.
  { unfold wrap. rewrite Zminus_mod_idemp_l. replace (pc + offset - offset) with pc by lia. by apply Z.mod_small. }
  assert (wp no_err (exception_return pc) (fun _ e3 => cpu_ok pc e3 /\ cpsr_read e3 = cpsr_read e /\ cur_mode e3 = cur_mode e /\
    (forall r, areg_ok r -> r <> Lr (bank m) -> r <> Spsr (bank m) -> contents (cur_mode e3) e3 r = contents (cur_mode e) e r)) e2) as H.
  { eapply exception_return_wp; [exact Ho|done|done|exact Hm|exact Hen|exact Hh|]. by intros e3 H1 H2 H3 H4 _. }
  apply wp_total_ex in H as ([] & e3 & H & Hrest). exists e3. split; [exact Hl|]. split; [exact H|exact Hrest].
Qed.

(** ** An interrupt of a program in user mode *)
#[local] Instance no_devices : Devices unit := {| dev_read := fun _ _ _ d => (0, d); dev_write := fun _ _ _ _ d => d |}.
#[local] Instance no_nvic : NvicOps unit :=
  {| nvic_set_pending := fun _ => mret tt; nvic_acknowledge_irq := mret 0; nvic_complete_irq := fun _ => mret tt |}.
#[local] Instance no_debugger : Semihosting unit :=
  {| semihosting_enabled := false; lduw_code := fun _ => mret 0; ldl_code := fun _ => mret 0; do_arm_semihosting := mret 0 |}.
Definition empty_machine : machine unit := mkMachine phys_init (fun _ => 0) tt [] (mkBounce 0 0 0) [] [].
Lemma sample_cpu_ok : cpu_ok 0x8000 sample_cpu.
Proof.
  split; [exact sample_cpu_wf|exact sample_psr_wf|apply (bool_decide_unpack _); exact I|reflexivity|reflexivity].
Qed.
Example exception_entry_witness : exists e', do_interrupt (D := unit) (sample_cpu, empty_machine) = Ok (tt, (e', empty_machine)) /\
  entered ARM_CPU_MODE_IRQ 0x180 0x18 0x8004 sample_cpu e'.
Proof. exact (exception_entry sample_cpu empty_machine 0x8000 _ _ _ _ sample_cpu_ok eq_refl eq_refl). Defined.
Example handler_transparent_witness :
  exists e1, do_interrupt (D := unit) (sample_cpu, empty_machine) = Ok (tt, (e1, empty_machine)) /\
    forall e2, handled e1 e2 ->
    exists link e3, contents ARM_CPU_MODE_IRQ e2 (Lr 4) = Some link /\
      exception_return (wrap 32 (link - 4)) e2 = Ok (tt, e3) /\
      cpu_ok 0x8000 e3 /\ cpsr_read e3 = cpsr_read sample_cpu /\ cur_mode e3 = ARM_CPU_MODE_USR /\
      (forall r, areg_ok r -> r <> Lr 4 -> r <> Spsr 4 -> contents (cur_mode e3) e3 r = contents ARM_CPU_MODE_USR sample_cpu r).
Proof.
  refine (handler_transparent sample_cpu empty_machine 0x8000 _ _ _ _ sample_cpu_ok _ eq_refl eq_refl eq_refl).
  split; [discriminate|reflexivity].
Defined.
