(* ===== verification/ArmSafe.v ===== *)
(** * ArmSafe: the processor over the operations of a guest

    [cpu_op] lists what a guest can do to the register file and the status register, with the
    conditions under which the code is defined; [cpu_inv] holds after reset and is kept by
    every operation, none of which fails.  Outside the conditions the emulator can be made to
    abort: a status register with a mode the architecture does not define. *)
From S2P Require Import Prelude Physmem PhysAccess ArmCpu ArmModes ArmPsr ArmExc ArmEntry.
From stdpp Require Import sets relations.
#[local] Open Scope Z_scope.

Record cpu_inv (e : CPUARMState) : Prop := mkCpuInv {
  inv_wf : cpu_wf e; inv_psr : psr_wf e; inv_mode : valid_mode (cur_mode e);
  inv_words : forall r v, areg_ok r -> contents (cur_mode e) e r = Some v -> fits 32 v
}.

(** ** Reset *)
Record cp15_wf (c : cp15_state) : Prop := {
  wf_ccsid : length (c0_ccsid c) = 16%nat; wf_c1 : length (c0_c1 c) = 8%nat;
  wf_c2 : length (c0_c2 c) = 8%nat; wf_region : length (c6_region c) = 8%nat
}.
(** The processor in the middle of a reset: zero but for what depends on the model. *)
Definition others (e : CPUARMState) : CPUARMState :=
  e <| features := 0 |> <| cp15 := cp15_zero |> <| vfp_xregs := [] |> <| iwmmxt_cregs := [] |>.
Record resetting (e0 e : CPUARMState) : Prop := {
  rs_same : others e = others (cpu_zero e0);
  rs_xregs : length (vfp_xregs e) = 16%nat;
  rs_cregs : length (iwmmxt_cregs e) = 16%nat;
  rs_cp15 : cp15_wf (cp15 e)
}.
Section reset.
  Context (E : err -> Prop) (e0 : CPUARMState).
  Abbreviation keeps m := (forall e, resetting e0 e -> wp E m (fun _ => resetting e0) e).
Lemma keeps_seq (m1 m2 : CPU unit) : keeps m1 -> keeps m2 -> keeps (m1 ;; m2).
Proof. intros H1 H2 e He. wp_step. eapply wp_mono; [by apply H1|]. intros [] e' He'. by apply H2. Qed.
Lemma keeps_feature f : keeps (set_feature f).
Proof. intros e [H1 H2 H3 H4]. unfold set_feature. wp_step. by split. Qed.
Lemma keeps_cp15 f : (forall c, cp15_wf c -> cp15_wf (f c)) -> keeps (set_cp15_with f).
Proof. intros Hf e [H1 H2 H3 H4]. unfold set_cp15_with. wp_step. split; try done. simpl. auto. Qed.
Lemma keeps_xreg i v : 0 <= i < 16 -> keeps (put_xreg i v).
Proof.
  intros Hi e [H1 H2 H3 H4]. unfold put_xreg. wp_steps. eapply deref_wp; [apply wr_Some; lia|]. wp_step.
  split; try done. simpl. by rewrite length_insert.
Qed.
Lemma keeps_creg i v : 0 <= i < 16 -> keeps (put_creg i v).
Proof.
  intros Hi e [H1 H2 H3 H4]. unfold put_creg. wp_steps. eapply deref_wp; [apply wr_Some; lia|]. wp_step.
  split; try done. simpl. by rewrite length_insert.
Qed.
Lemma keeps_ccsid i v : 0 <= i < 16 -> keeps (put_ccsid i v).
Proof.
  intros Hi e [H1 H2 H3 [W1 W2 W3 W4]]. unfold put_ccsid, set_cp15_with. wp_steps. eapply deref_wp; [apply wr_Some; lia|]. wp_step.
  split; try done. split; try done. simpl. by rewrite length_insert.
Qed.
Lemma keeps_if (b : bool) (m1 m2 : CPU unit) : (b = true -> keeps m1) -> (b = false -> keeps m2) -> keeps (if b then m1 else m2).
Proof. intros H1 H2. destruct b; auto. Qed.

Definition known_ids : list Z :=
  [ARM_CPUID_ARM926; ARM_CPUID_ARM946; ARM_CPUID_ARM1026; ARM_CPUID_ARM1136_R2; ARM_CPUID_ARM1136; ARM_CPUID_ARM11MPCORE;
   ARM_CPUID_CORTEXA8; ARM_CPUID_CORTEXA8_R2; ARM_CPUID_CORTEXA9; ARM_CPUID_CORTEXM3; ARM_CPUID_ANY; ARM_CPUID_TI915T;
   ARM_CPUID_TI925T; ARM_CPUID_PXA250; ARM_CPUID_PXA255; ARM_CPUID_PXA260; ARM_CPUID_PXA261; ARM_CPUID_PXA262;
   ARM_CPUID_PXA270_A0; ARM_CPUID_PXA270_A1; ARM_CPUID_PXA270_B0; ARM_CPUID_PXA270_B1; ARM_CPUID_PXA270_C0; ARM_CPUID_PXA270_C5].
Lemma keeps_model_id id : id ∈ known_ids -> keeps (cpu_reset_model_id id).
Proof.
  intros Hid. unfold cpu_reset_model_id. apply keeps_seq; [apply keeps_cp15; by intros c []|].
  repeat match goal with |- forall e, _ -> wp _ (if _ then _ else _) _ _ => apply keeps_if; intros ? end.
  all: repeat first [apply keeps_seq | apply keeps_feature | apply keeps_xreg; done | apply keeps_creg; done
      | apply keeps_ccsid; done | apply keeps_cp15; by intros c []].
  exfalso. unfold known_ids in Hid.
  repeat (apply elem_of_cons in Hid as [->|Hid]; [match goal with H : _ = false |- _ => discriminate H end|]).
  by apply elem_of_nil in Hid.
Qed.
End reset.

Lemma resetting_eq e0 e : resetting e0 e ->
  e = (cpu_zero e0) <| features := features e |> <| cp15 := cp15 e |> <| vfp_xregs := vfp_xregs e |> <| iwmmxt_cregs := iwmmxt_cregs e |>.
Proof.
  intros [H1 _ _ _]. transitivity ((others e) <| features := features e |> <| cp15 := cp15 e |> <| vfp_xregs := vfp_xregs e |>
    <| iwmmxt_cregs := iwmmxt_cregs e |>); [clear H1; destruct e; reflexivity|]. rewrite H1. reflexivity.
Qed.
Lemma cpu_reset_wp E e (Q : unit -> CPUARMState -> Prop) :
  (c0_cpuid (cp15 e) = 0 \/ c0_cpuid (cp15 e) ∈ known_ids) ->
  (forall e', cpu_inv e' -> cur_mode e' = ARM_CPU_MODE_SVC -> rd (regs e') 15 = Some 0 ->
     tlb_table e' = replicate 2 (replicate 256 s_cputlb_empty_entry) -> Q tt e') ->
  wp E cpu_reset Q e.
Proof.
  intros Hid HQ. unfold cpu_reset. wp_step. wp_step. wp_step. wp_step. wp_step.
  assert (resetting e (cpu_zero e)) as H0.
  { split; try reflexivity. by split. }
  eapply wp_mono with (Q := fun _ => resetting e).
  { wp_step. destruct (truth (c0_cpuid (cp15 e))) eqn:Ht; [|done].
    apply keeps_model_id; [|done]. destruct Hid as [Hid|Hid]; [|done]. by rewrite Hid in Ht. }
  intros [] e1 He1. pose proof (resetting_eq _ _ He1) as S1. destruct He1 as [_ X1 R1 [C1 C2 C3 C4]]. wp_step. wp_step. wp_step. wp_step.
  assert (forall (b : bool) e2, e2 = e1 <| uncached_cpsr := uncached_cpsr e2 |> ->
    (uncached_cpsr e2 = 0x1d3 \/ uncached_cpsr e2 = 0x153) ->
    wp E (put_xreg ARM_VFP_FPEXC 0 ;; set_cp15_with (fun c => c <| c2_base_mask := 0xffffc000 |>) ;; put_reg 15 0 ;; tlb_flush 1) Q e2)
    as Hrest.
  { intros _ e2 E2 Hu. unfold put_xreg, set_cp15_with, tlb_flush. wp_step. wp_step. wp_step. wp_step. eapply deref_wp.
    { apply wr_Some. rewrite E2. simpl. rewrite X1. done. }
    wp_step. wp_step. wp_step. wp_step.
    eapply put_reg_wp; [apply wr_Some; rewrite E2, S1; done|]. wp_step. rewrite E2, S1. apply HQ.
    - split.
      + split; reflexivity.
      + destruct Hu as [-> | ->]; split; simpl; done.
      + destruct Hu as [-> | ->]; apply (bool_decide_unpack _); exact I.
      + intros r v Hr. assert (forall (l : list Z) i w, Forall (eq 0) l -> rd l i = Some w -> fits 32 w) as Hz.
        { intros l i w Hl Hi. by rewrite <- (rd_Forall (eq 0) l i w Hl Hi). }
        destruct r as [i|f i|b|b|b]; unfold contents; simpl; repeat case_match; intros Hx; try discriminate Hx;
          try (injection Hx as <-; done); eapply Hz; try exact Hx; repeat constructor.
    - destruct Hu as [-> | ->]; reflexivity.
    - reflexivity.
    - reflexivity. }
  wp_step. destruct (IS_M _); [wp_step|].
  - apply (Hrest true); [done|by right].
  - apply (Hrest true); [done|by left].
Qed.

(** ** Operations *)
Inductive cpu_op : Type :=
| Op_reset
| Op_reg (i v : Z)            (** an instruction writes a register *)
| Op_spsr (v : Z)             (** MSR SPSR *)
| Op_user_reg (regno v : Z)   (** LDM of user registers *)
| Op_sp (mode v : Z)          (** SRS: the stack pointer of another mode *)
| Op_msr (val mask : Z)       (** MSR CPSR, CPS, SETEND *)
| Op_exception (x : Z)
| Op_return (pc : Z).

Section operations.
  Context {D : Type} `{!Devices D} `{!NvicOps D} `{!Semihosting D}.
Definition run_cpu_op (op : cpu_op) : SYS D unit :=
  match op with
  | Op_reset => on_cpu cpu_reset
  | Op_reg i v => on_cpu (put_reg i v)
  | Op_spsr v => on_cpu (modify (fun e => e <| spsr := v |>))
  | Op_user_reg regno v => on_cpu (set_user_reg regno v)
  | Op_sp mode v => on_cpu (set_r13_banked mode v)
  | Op_msr val mask => on_cpu (cpsr_write val mask)
  | Op_exception x => on_cpu (modify (fun e => e <| exception_index := x |>)) ;; do_interrupt
  | Op_return pc => on_cpu (exception_return pc)
  end.
Definition cpu_op_ok (op : cpu_op) (e : CPUARMState) : Prop :=
  match op with
  | Op_reset => c0_cpuid (cp15 e) = 0 \/ c0_cpuid (cp15 e) ∈ known_ids
  | Op_reg i v => 0 <= i < 16 /\ fits 32 v
  | Op_spsr v => fits 32 v
  | Op_user_reg regno v => 0 <= regno < 15 /\ fits 32 v
  | Op_sp mode v => valid_mode mode /\ fits 32 v
  | Op_msr val mask => fits 32 val /\ fits 32 mask /\ mask_ok mask val
  | Op_exception x => IS_M e = false /\ semihosting_enabled (D := D) = false /\ is_Some (exc_entry x (truth (thumb e)))
  | Op_return pc => fits 32 pc /\ valid_mode (Z.land (spsr e) CPSR_M)
  end.
Inductive cpu_step : CPUARMState * machine D -> CPUARMState * machine D -> Prop :=
| cpu_step_op op e s x : cpu_op_ok op e -> run_cpu_op op (e, s) = Ok (tt, x) -> cpu_step (e, s) x.

(** A register is written: one physical register holds the word, the others are kept. *)
Lemma inv_write e e' v : cpu_inv e -> fits 32 v -> cpu_wf e' -> psr_wf e' -> cur_mode e' = cur_mode e ->
  (forall r, areg_ok r -> contents (cur_mode e) e' r = contents (cur_mode e) e r \/ contents (cur_mode e) e' r = Some v) -> cpu_inv e'.
Proof.
  intros [Hw Hp Hm Hf] Hv Hw' Hp' Hm' HK. split; [done|done|by rewrite Hm'|]. rewrite Hm'.
  intros r w Hr Hc. destruct (HK r Hr) as [E|E]; rewrite E in Hc; [by eapply Hf|congruence].
Qed.
Lemma inv_entered m mask vector link e e' : cpu_inv e -> valid_mode m -> fits 32 vector -> fits 32 link ->
  entered m mask vector link e e' -> cpu_inv e'.
Proof.
  intros [Hw Hp Hm Hf] Hv Hvec Hlink [W P M PC LR SP K C S F]. split; [done|done|by rewrite M|]. rewrite M.
  intros r w Hr Hc. destruct (decide (r = Low 15)) as [->|N1]; [congruence|].
  destruct (decide (r = Lr (bank m))) as [->|N2]; [congruence|].
  destruct (decide (r = Spsr (bank m))) as [->|N3].
  - assert (w = cpsr_read e) as -> by congruence. by apply fits_cpsr_read.
  - rewrite K in Hc by done. by eapply Hf.
Qed.
Lemma put_reg_inv E i v e : cpu_inv e -> 0 <= i < 16 -> fits 32 v -> wp E (put_reg i v) (fun _ => cpu_inv) e.
Proof.
  intros Hinv Hi Hv. pose proof (inv_wf _ Hinv) as [L1 L2 L3 L4 L5 L6].
  pose proof (wr_Some (regs e) i v ltac:(lia)) as Hw. eapply put_reg_wp; [exact Hw|].
  apply (inv_write e _ v Hinv Hv); [by split; simpl; rewrite ?length_insert|by destruct (inv_psr _ Hinv)|done|].
  intros [j|f j|b|b|b] Hr; unfold contents; simpl; repeat case_match; rewrite ?(rd_wr _ _ _ _ _ Hw); repeat case_match; auto.
Qed.
Lemma bank_write_inv e e' l l' i v :
  cpu_inv e -> fits 32 v -> wr l i v = Some l' ->
  (e' = e <| banked_r13 := l' |> /\ l = banked_r13 e \/ e' = e <| banked_r14 := l' |> /\ l = banked_r14 e \/
   e' = e <| usr_regs := l' |> /\ l = usr_regs e) -> cpu_inv e'.
Proof.
  intros Hinv Hv Hw He. pose proof (inv_wf _ Hinv) as [L1 L2 L3 L4 L5 L6]. pose proof (wr_length _ _ _ _ Hw) as Hl.
  destruct He as [[-> ->]|[[-> ->]|[-> ->]]];
    (apply (inv_write e _ v Hinv Hv); [by split; simpl; rewrite ?Hl|by destruct (inv_psr _ Hinv)|done|]);
    intros [j|f j|b|b|b] Hr; unfold contents; simpl; repeat case_match; rewrite ?(rd_wr _ _ _ _ _ Hw); repeat case_match; auto.
Qed.
Lemma set_user_reg_inv E regno v e : cpu_inv e -> 0 <= regno < 15 -> fits 32 v ->
  wp E (set_user_reg regno v) (fun _ => cpu_inv) e.
Proof.
  intros Hinv Hr Hv. pose proof (inv_wf _ Hinv) as [L1 L2 L3 L4 L5 L6]. unfold set_user_reg. wp_steps.
  destruct (Z.eqb_spec regno 13); [|destruct (Z.eqb_spec regno 14);
    [|destruct (Z.geb_spec regno 8); simpl; [destruct (_ =? ARM_CPU_MODE_FIQ)|]]];
    try (apply put_reg_inv; [done|lia|done]).
  - wp_step. eapply deref_wp; [apply wr_Some; lia|]. wp_step. eapply bank_write_inv; [exact Hinv|exact Hv|apply wr_Some|by left]. lia.
  - wp_step. eapply deref_wp; [apply wr_Some; lia|]. wp_step. eapply bank_write_inv; [exact Hinv|exact Hv|apply wr_Some|by right; left]. lia.
  - wp_step. eapply deref_wp; [apply wr_Some; lia|]. wp_step. eapply bank_write_inv; [exact Hinv|exact Hv|apply wr_Some|by right; right]. lia.
Qed.
Lemma cpsr_write_inv E val mask e : cpu_inv e -> fits 32 val -> fits 32 mask -> mask_ok mask val ->
  wp E (cpsr_write val mask) (fun _ => cpu_inv) e.
Proof.
  intros [Hw Hp Hm Hf] Hv Hk Hok. apply cpsr_write_wp; try done. intros e' W P R S U K.
  split; [done|done| |].
  - unfold cur_mode. rewrite U. pose proof (wf_uncached _ Hp). destruct Hok as [_ [H0|[H1 H2]]].
    + by rewrite mode_kept.
    + by rewrite mode_written.
  - intros r v Hr Hc. rewrite K in Hc by done. by eapply Hf.
Qed.
Lemma exc_entry_facts x t m vector mask offset : exc_entry x t = Some (m, vector, mask, offset) ->
  valid_mode m /\ fits 32 vector.
Proof.
  unfold exc_entry. intros H. repeat case_match; try discriminate H; injection H as <- <- _ _;
    (split; [apply (bool_decide_unpack _); exact I|done]).
Qed.
Lemma vector_fits e addr : fits 32 addr -> fits 32 (vector_of e addr).
Proof. intros H. unfold vector_of. case_match; [by apply fits_wrap|done]. Qed.
Lemma spsr_fits e : cpu_inv e -> fits 32 (spsr e).
Proof.
  intros [_ _ _ Hf]. apply (Hf (Spsr (bank (cur_mode e)))); [apply bank_bound|]. simpl. by rewrite Z.eqb_refl.
Qed.
Lemma full_mask_ok val : valid_mode (Z.land val CPSR_M) -> mask_ok 0xffffffff val.
Proof.
  intros Hv. split; [|by right]. repeat (apply List.Forall_cons; [right; reflexivity|]). apply List.Forall_nil.
Qed.
Lemma run_cpu_op_wp op e s : cpu_inv e -> cpu_op_ok op e ->
  wp no_err (run_cpu_op op) (fun _ x => cpu_inv x.1 /\ x.2 = s) (e, s).
Proof.
  intros Hinv Hop.
  assert (forall m : CPU unit, wp no_err m (fun _ => cpu_inv) e -> wp no_err (on_cpu m) (fun _ x => cpu_inv x.1 /\ x.2 = s) (e, s)) as Hcpu.
  { intros m Hm. apply wp_on_cpu. eapply wp_mono; [exact Hm|]. done. }
  destruct op as [|i v|v|regno v|mode v|val mask|x|pc]; simpl in Hop |- *.
  - apply Hcpu, cpu_reset_wp; [done|]. done.
  - apply Hcpu. destruct Hop. by apply put_reg_inv.
  - apply Hcpu. wp_step. pose proof (inv_wf _ Hinv) as [L1 L2 L3 L4 L5 L6].
    apply (inv_write e _ v Hinv Hop); [by split|by destruct (inv_psr _ Hinv)|done|].
    intros [j|f j|b|b|b] Hr; unfold contents; simpl; repeat case_match; auto.
  - apply Hcpu. destruct Hop. by apply set_user_reg_inv.
  - apply Hcpu. destruct Hop as [Hm Hv]. pose proof (inv_wf _ Hinv) as [L1 L2 L3 L4 L5 L6]. pose proof (bank_bound mode).
    unfold set_r13_banked. wp_step. apply bank_number_wp; [done|]. wp_step. wp_step. wp_step.
    eapply deref_wp; [apply wr_Some; lia|]. wp_step. eapply bank_write_inv; [exact Hinv|exact Hv|apply wr_Some|by left]. lia.
  - apply Hcpu. destruct Hop as (Hv & Hk & Hok). by apply cpsr_write_inv.
  - destruct Hop as (HM & Hs & [[[[m vector] mask] offset] Hx]). wp_step. apply wp_on_cpu. wp_step.
    set (e1 := e <| exception_index := x |>). destruct (inv_wf _ Hinv) as [L1 L2 L3 L4 L5 L6].
    destruct (rd_Some (regs e) 15) as (pc & Hpc & _); [lia|].
    assert (cpu_inv e1) as H1.
    { destruct Hinv as [W P M F]. split; [by destruct W|by destruct P|done|exact F]. }
    destruct (exc_entry_facts _ _ _ _ _ _ Hx) as [Hm Hvec].
    eapply do_interrupt_wp; [|done|exact Hx|].
    { split; [apply H1|apply H1|apply H1|exact HM|exact Hpc]. }
    intros e' He'. split; [|done]. apply (inv_entered _ _ _ _ _ _ H1 Hm) in He'; [done|by apply vector_fits|by apply fits_wrap].
  - apply Hcpu. destruct Hop as [Hpc Hm]. unfold exception_return. wp_step.
    pose proof (inv_wf _ Hinv) as [L1 L2 L3 L4 L5 L6].
    assert (fits 32 (Z.land pc (not32 1))) as Hpc' by by apply fits_land_any.
    eapply wp_mono with (Q := fun _ e' => cpu_inv e' /\ spsr e' = spsr e).
    { apply wp_and; [by apply put_reg_inv|]. eapply put_reg_wp; [apply wr_Some; lia|done]. }
    intros [] e' [H1 Hs]. wp_step. wp_step. rewrite Hs. apply cpsr_write_inv; [done|by apply spsr_fits|done|by apply full_mask_ok].
Qed.

(** C22: from reset on, whatever a guest does within the conditions of [cpu_op_ok], the processor
    is in a consistent state: the banks have their sizes, every physical register holds a
    32-bit word, the mode exists and the cached flags agree with the status register; memory
    is untouched; and the next such operation does not fail. *)
Theorem cpu_reachable e0 (s : machine D) :
  (c0_cpuid (cp15 e0) = 0 \/ c0_cpuid (cp15 e0) ∈ known_ids) ->
  exists e1, cpu_reset e0 = Ok (tt, e1) /\
    forall x, rtc cpu_step (e1, s) x ->
      cpu_inv x.1 /\ x.2 = s /\ forall op, cpu_op_ok op x.1 -> exists y, run_cpu_op op x = Ok (tt, y).
Proof.
  intros Hid. assert (wp no_err cpu_reset (fun _ => cpu_inv) e0) as H by (apply cpu_reset_wp; done).
  apply wp_total_ex in H as ([] & e1 & Hr & Hinv). exists e1. split; [exact Hr|].
  assert (forall x y, rtc cpu_step x y -> cpu_inv x.1 /\ x.2 = s -> cpu_inv y.1 /\ y.2 = s) as Hsteps.
  { induction 1 as [x|x y z Hxy _ IH]; [done|]. intros [Hi Hs]. apply IH. destruct Hxy as [op e s' x Hop Hrun].
    simpl in Hi, Hs. subst s'. exact (wp_ok _ _ _ _ _ _ (run_cpu_op_wp op e s Hi Hop) Hrun). }
  intros x Hx. apply Hsteps in Hx as [Hi Hs]; [|done]. split; [done|]. split; [done|].
  intros op Hop. destruct x as [e s']. pose proof (run_cpu_op_wp op e s' Hi Hop) as H.
  apply wp_total_ex in H as ([] & y & H & _). by exists y.
Qed.
End operations.

(** ** Modes that do not exist *)
Lemma switch_bad_mode e mode : cpu_wf e -> valid_mode (cur_mode e) -> ~ valid_mode mode ->
  wp only_hw (switch_mode mode) (fun _ _ => False) e.
Proof.
  intros Hwf Hv Hm. unfold switch_mode. wp_step. wp_step. fold (cur_mode e).
  destruct (Z.eqb_spec mode (cur_mode e)) as [->|Hne]; [done|].
  wp_step. apply exchange_wp; [done..|]. intros e1 [L1 L2 L3 L4 L5 L6] _ _ _ _ _ _ _. pose proof (bank_bound (cur_mode e)).
  wp_step. apply bank_number_wp; [done|].
  destruct (rd_Some (regs e1) 13) as (r13 & R13 & _); [lia|]. destruct (rd_Some (regs e1) 14) as (r14 & R14 & _); [lia|].
  wp_step. eapply get_reg_wp; [exact R13|]. wp_step. eapply get_reg_wp; [exact R14|]. wp_step. wp_step.
  do 3 (wp_step; eapply deref_wp; [apply wr_Some; lia|]). wp_step. wp_step. wp_step.
  assert (forall x, valid_mode x -> (mode =? x) = false) as Hx by (intros x Hx; apply Z.eqb_neq; congruence).
  unfold bank_number. rewrite !Hx by (apply (bool_decide_unpack _); exact I). simpl. by wp_step.
Qed.

(** Writing a mode the architecture does not define to the status register, from any
    consistent state, ends the emulator: cpsr_write calls cpu_abort(). *)
Theorem undefined_mode_aborts e val mask :
  cpu_inv e -> fits 32 val -> fits 32 mask ->
  groups_ok mask ->
  Z.land mask CPSR_M = CPSR_M -> ~ valid_mode (Z.land val CPSR_M) ->
  cpsr_write val mask e = Err HwError.
Proof.
  intros [Hwf Hp Hmode Hf] Hv Hm HG HM Hbad.
  assert (wp only_hw (cpsr_write val mask) (fun _ _ => False) e) as H.
  { unfold cpsr_write. wp_step. apply write_flags_wp; [done..|]. intros e6 P6 R6 F. pose proof (flags_uncached _ _ F) as Hu.
    assert (cur_mode e6 = cur_mode e) as M6 by (unfold cur_mode; by rewrite Hu).
    wp_step. wp_step. wp_step. wp_step. rewrite mode_changes by done. fold (cur_mode e6). rewrite M6.
    destruct (Z.eqb_spec (cur_mode e) (Z.land val CPSR_M)) as [Heq|Hne]; simpl; [by rewrite <- Heq in Hbad|].
    eapply wp_mono; [apply switch_bad_mode; [by apply (flags_wf e)|by rewrite M6|done]|done]. }
  unfold wp in H. destruct (cpsr_write val mask e) as [[[] e']|x]; [done|]. by rewrite H.
Qed.

(** ** A Cortex-A8 *)
#[local] Existing Instance no_devices.
#[local] Existing Instance no_nvic.
#[local] Existing Instance no_debugger.
Definition cortex_a8 : CPUARMState := sample_cpu <| cp15 := cp15_zero <| c0_cpuid := ARM_CPUID_CORTEXA8 |> |>.
Example cpu_reachable_witness :
  exists e1, cpu_reset cortex_a8 = Ok (tt, e1) /\
    forall x, rtc (cpu_step (D := unit)) (e1, empty_machine) x ->
      cpu_inv x.1 /\ x.2 = empty_machine /\ forall op, cpu_op_ok (D := unit) op x.1 -> exists y, run_cpu_op op x = Ok (tt, y).
Proof. apply (cpu_reachable cortex_a8 empty_machine). right. apply (bool_decide_unpack _); exact I. Defined.
Lemma sample_cpu_inv : cpu_inv sample_cpu.
Proof.
  split; [exact sample_cpu_wf|exact sample_psr_wf|apply (bool_decide_unpack _); exact I|].
  assert (forall (l : list Z) i v, Forall (fits 32) l -> rd l i = Some v -> fits 32 v) as Hl
    by (intros l i v; apply (rd_Forall (fits 32))).
  assert (Forall (fits 32) (regs sample_cpu ++ usr_regs sample_cpu ++ fiq_regs sample_cpu ++ banked_r13 sample_cpu ++
    banked_r14 sample_cpu ++ banked_spsr sample_cpu)) as Hall by (apply (bool_decide_unpack _); vm_compute; exact I).
  rewrite !Forall_app in Hall. destruct Hall as (H1 & H2 & H3 & H4 & H5 & H6).
  intros [i|f i|b|b|b] v Hr; unfold contents; repeat case_match; intros Hv; try (by eapply Hl; [|exact Hv]).
  injection Hv as <-. split; [discriminate|reflexivity].
Qed.
Example undefined_mode_witness : cpsr_write 0 0x1f sample_cpu = Err HwError.
Proof.
  apply (undefined_mode_aborts sample_cpu 0 0x1f sample_cpu_inv).
  1, 2: split; [discriminate|reflexivity]. 2: reflexivity. 2: apply (bool_decide_unpack _); exact I.
  repeat (apply List.Forall_cons; [left; reflexivity|]). apply List.Forall_nil.
Defined.
