(* ===== verification/ArmMmu.v ===== *)
(** * ArmMmu: address translation of the ARM processor (target-arm/helper.c)

    The page-table walks of ARMv5 and ARMv6, the memory protection unit, and the choice
    between them.  [ldl_phys] is the access to physical memory the walks read descriptors with:
    that of PhysAccess in the emulator, a function on words in specifications.  A translation ends in a fault code or in a physical address and the
    protection of its page. *)
From S2P Require Import Prelude ArmCpu.
From stdpp Require Import sets.
#[local] Open Scope Z_scope.

Definition PAGE_READ : Z := 1.
Definition PAGE_WRITE : Z := 2.
Definition PAGE_EXEC : Z := 4.
Definition READ_WRITE : Z := Z.lor PAGE_READ PAGE_WRITE.

(** access_type: 0 is a read, 1 a write and 2 an instruction fetch.  Of the access
    permissions [ap] only 0 to 7 exist, for any other the code calls abort(). *)
Definition check_ap (e : CPUARMState) (ap domain access_type : Z) (is_user : bool) : outcome Z :=
  if domain =? 3 then Ok READ_WRITE
  else
    let prot_ro := if access_type =? 1 then 0 else PAGE_READ in
    if ap =? 0 then
      if access_type =? 1 then Ok 0
      else
        let sr := Z.land (Z.shiftr (c1_sys (cp15 e)) 8) 3 in
        if sr =? 1 then Ok (if is_user then 0 else PAGE_READ)
        else if sr =? 2 then Ok PAGE_READ
        else Ok 0
    else if ap =? 1 then Ok (if is_user then 0 else READ_WRITE)
    else if ap =? 2 then Ok (if is_user then prot_ro else READ_WRITE)
    else if ap =? 3 then Ok READ_WRITE
    else if ap =? 4 then Ok 0
    else if ap =? 5 then Ok (if is_user then 0 else prot_ro)
    else if ap =? 6 then Ok prot_ro
    else if ap =? 7 then Ok (if negb (arm_feature e ARM_FEATURE_V7) then 0 else prot_ro)
    else Err HwError.

Definition get_level1_table_address (e : CPUARMState) (address : Z) : Z :=
  let table := if truth (Z.land address (c2_mask (cp15 e))) then Z.land (c2_base1 (cp15 e)) 0xffffc000
               else Z.land (c2_base0 (cp15 e)) (c2_base_mask (cp15 e)) in
  Z.lor table (Z.land (Z.shiftr address 18) 0x3ffc).

Inductive translation : Type := Translated (phys_addr prot : Z) | Faulted (code : Z).
(** code | (domain << 4) *)
Definition do_fault (code domain : Z) : translation := Faulted (Z.lor code (Z.shiftl domain 4)).
(** The frame of a descriptor with the offset of an address: (desc & ~low) | (address & low). *)
Definition frame (desc high low address : Z) : Z := Z.lor (Z.land desc high) (Z.land address low).

Section walk.
  Context {M : Type} (ldl_phys : Z -> ST M Z).
Definition from_outcome {A} (o : outcome A) : ST M A := match o with Ok a => mret a | Err e => throw e end.

(** The end of both walks: the permission check. *)
Definition finish_walk (e : CPUARMState) (ap domain access_type : Z) (is_user : bool) (code phys_addr : Z) : ST M translation :=
  prot ← from_outcome (check_ap e ap domain access_type is_user);
  if prot =? 0 then mret (do_fault code domain) else mret (Translated phys_addr prot).

(** Address and permissions of the second-level descriptor [desc], [None] for a translation fault. *)
Definition l2_v5 (e : CPUARMState) (type desc address : Z) : option (Z * Z) :=
  let d := Z.land desc 3 in
  let subpage_ap := Z.land (Z.shiftr desc (4 + Z.land (Z.shiftr address 13) 6)) 3 in
  if d =? 0 then None
  else if d =? 1 then Some (frame desc 0xffff0000 0xffff address, subpage_ap)
  else if d =? 2 then Some (frame desc 0xfffff000 0xfff address, subpage_ap)
  else if type =? 1 then
    if arm_feature e ARM_FEATURE_XSCALE then Some (frame desc 0xfffff000 0xfff address, Z.land (Z.shiftr desc 4) 3)
    else None
  else Some (frame desc 0xfffffc00 0x3ff address, Z.land (Z.shiftr desc 4) 3).
Definition get_phys_addr_v5 (e : CPUARMState) (address access_type : Z) (is_user : bool) : ST M translation :=
  desc ← ldl_phys (get_level1_table_address e address);
  let type := Z.land desc 3 in
  let domain := Z.land (Z.shiftr (c3 (cp15 e)) (Z.land (Z.shiftr desc 4) 0x1e)) 3 in
  if type =? 0 then mret (do_fault 5 domain)
  else if (domain =? 0) || (domain =? 2) then mret (do_fault (if type =? 2 then 9 else 11) domain)
  else if type =? 2 then
    finish_walk e (Z.land (Z.shiftr desc 10) 3) domain access_type is_user 13 (frame desc 0xfff00000 0x000fffff address)
  else
    let table := if type =? 1 then Z.lor (Z.land desc 0xfffffc00) (Z.land (Z.shiftr address 10) 0x3fc)
                 else Z.lor (Z.land desc 0xfffff000) (Z.land (Z.shiftr address 8) 0xffc) in
    desc ← ldl_phys table;
    match l2_v5 e type desc address with
    | None => mret (do_fault 7 domain)
    | Some (phys_addr, ap) => finish_walk e ap domain access_type is_user 15 phys_addr
    end.

(** The checks of the ARMv6 walk on the execute-never and access flags. *)
Definition finish_v6 (e : CPUARMState) (xn ap domain access_type : Z) (is_user : bool) (code phys_addr : Z) : ST M translation :=
  if truth xn && (access_type =? 2) then mret (do_fault code domain)
  else if truth (Z.land (c1_sys (cp15 e)) (bit 29)) && (Z.land ap 1 =? 0)
  then mret (do_fault (if code =? 15 then 6 else 3) domain)
  else finish_walk e ap domain access_type is_user code phys_addr.
Definition get_phys_addr_v6 (e : CPUARMState) (address access_type : Z) (is_user : bool) : ST M translation :=
  desc ← ldl_phys (get_level1_table_address e address);
  let type := Z.land desc 3 in
  let super := truth (Z.land desc (bit 18)) in
  if (type =? 0) || (type =? 3) then mret (do_fault 5 0)
  else
    let domain := if (type =? 2) && super then 0 else Z.land (Z.shiftr desc 4) 0x1e in
    let domain := Z.land (Z.shiftr (c3 (cp15 e)) domain) 3 in
    if (domain =? 0) || (domain =? 2) then mret (do_fault (if type =? 2 then 9 else 11) domain)
    else if type =? 2 then
      let phys_addr := if super then frame desc 0xff000000 0x00ffffff address
                       else frame desc 0xfff00000 0x000fffff address in
      let ap := Z.lor (Z.land (Z.shiftr desc 10) 3) (Z.land (Z.shiftr desc 13) 4) in
      finish_v6 e (Z.land desc (bit 4)) ap domain access_type is_user 13 phys_addr
    else
      desc ← ldl_phys (Z.lor (Z.land desc 0xfffffc00) (Z.land (Z.shiftr address 10) 0x3fc));
      let ap := Z.lor (Z.land (Z.shiftr desc 4) 3) (Z.land (Z.shiftr desc 7) 4) in
      if Z.land desc 3 =? 0 then mret (do_fault 7 domain)
      else if Z.land desc 3 =? 1 then
        finish_v6 e (Z.land desc (bit 15)) ap domain access_type is_user 15 (frame desc 0xffff0000 0xffff address)
      else finish_v6 e (Z.land desc 1) ap domain access_type is_user 15 (frame desc 0xfffff000 0xfff address).

(** ** The memory protection unit *)
(** The loop for (n = 7; n >= 0; n--); [n] counts the regions left. *)
Fixpoint mpu_region (regions : list Z) (n : nat) (address : Z) : option Z :=
  match n with
  | O => None
  | S n =>
    base ← regions !! n;
    if Z.land base 1 =? 0 then mpu_region regions n address
    else
      let mask := wrap 32 (Z.shiftl 1 (Z.land (Z.shiftr base 1) 0x1f)) in
      let mask := wrap 32 (wrap 32 (Z.shiftl mask 1) - 1) in
      if Z.land (Z.lxor base address) (not32 mask) =? 0 then Some (Z.of_nat n)
      else mpu_region regions n address
  end.
Definition get_phys_addr_mpu (e : CPUARMState) (address access_type : Z) (is_user : bool) : ST M translation :=
  match mpu_region (c6_region (cp15 e)) 8 address with
  | None => mret (Faulted 2)
  | Some n =>
    let mask := if access_type =? 2 then c5_insn (cp15 e) else c5_data (cp15 e) in
    let mask := Z.land (Z.shiftr mask (n * 4)) 0xf in
    if mask =? 0 then mret (Faulted 1)
    else if mask =? 1 then if is_user then mret (Faulted 1) else mret (Translated address READ_WRITE)
    else if mask =? 2 then mret (Translated address (if negb is_user then READ_WRITE else PAGE_READ))
    else if mask =? 3 then mret (Translated address READ_WRITE)
    else if mask =? 5 then if is_user then mret (Faulted 1) else mret (Translated address PAGE_READ)
    else if mask =? 6 then mret (Translated address PAGE_READ)
    else mret (Faulted 1)
  end.

(** ** The choice *)
Definition fcse (e : CPUARMState) (address : Z) : Z :=
  if address <? 0x02000000 then wrap 32 (address + c13_fcse (cp15 e)) else address.
Definition get_phys_addr (e : CPUARMState) (address access_type : Z) (is_user : bool) : ST M translation :=
  let address := fcse e address in
  if Z.land (c1_sys (cp15 e)) 1 =? 0 then mret (Translated address READ_WRITE)
  else if arm_feature e ARM_FEATURE_MPU then get_phys_addr_mpu e address access_type is_user
  else if truth (Z.land (c1_sys (cp15 e)) (bit 23)) then get_phys_addr_v6 e address access_type is_user
  else get_phys_addr_v5 e address access_type is_user.

(** The physical address of a page for the debugger: -1 when it has none. *)
Definition cpu_get_phys_page_debug (e : CPUARMState) (addr : Z) : ST M Z :=
  r ← get_phys_addr e addr 0 false;
  mret (match r with Translated phys_addr _ => phys_addr | Faulted _ => wrap 64 (-1) end).
End walk.
