(* ===== verification/ArmWalk.v ===== *)
(** * ArmWalk: what a translation promises

    A translation is a function of the page: addresses of one page of 1 KiB, the size of an
    entry of the TLB, go to one physical page under one protection.  A translation that
    succeeds protects the page so that the access is allowed, and for data accesses the
    protection is exact.  No translation aborts the emulator. *)
From S2P Require Import Prelude Physmem PhysPages PhysRam PhysAccess PhysRw ArmCpu ArmModes ArmPsr ArmMmu.
From stdpp Require Import sets.
#[local] Open Scope Z_scope.

(** ** Permissions *)
(** Whether the protection [prot] allows an access. *)
Definition allows (prot access_type : Z) : bool :=
  truth (Z.land prot (if access_type =? 1 then PAGE_WRITE else PAGE_READ)).

Definition ap_ok (ap : Z) : Prop := 0 <= ap < 8.
Lemma check_ap_total e ap domain t u : ap_ok ap -> exists prot, check_ap e ap domain t u = Ok prot.
Proof.
  intros Hap. unfold ap_ok in Hap. unfold check_ap. repeat case_match; try (by eexists).
  repeat match goal with H : (_ =? _) = false |- _ => apply Z.eqb_neq in H end. lia.
Qed.
(** The branches of [check_ap] that return. *)
Ltac ap_cases :=
  repeat case_match; let H := fresh in intros H; first [discriminate H | injection H as <-]; try done.
(** The permissions of a read are those of a fetch, and a write is allowed exactly if the
    permissions of a read include writing. *)
Lemma check_ap_allows e ap domain t u prot : check_ap e ap domain t u = Ok prot -> prot <> 0 -> allows prot t = true.
Proof.
  unfold check_ap, allows. destruct (t =? 1) eqn:Ht; ap_cases.
Qed.
Lemma check_ap_fetch e ap domain u : check_ap e ap domain 2 u = check_ap e ap domain 0 u.
Proof. done. Qed.
Lemma check_ap_data e ap domain u prot : check_ap e ap domain 0 u = Ok prot ->
  check_ap e ap domain 1 u = Ok (if allows prot 1 then READ_WRITE else 0) /\ (allows prot 1 = true -> prot = READ_WRITE).
Proof.
  unfold check_ap, allows. simpl. ap_cases.
Qed.

(** ** One page, one translation *)
Definition page_eq (a b : Z) : Prop := Z.shiftr a 10 = Z.shiftr b 10.
Lemma page_eq_div a b : page_eq a b <-> a / 1024 = b / 1024.
Proof. unfold page_eq. rewrite !Z.shiftr_div_pow2 by lia. done. Qed.
Lemma land_page a b m : page_eq a b -> Z.land m 0x3ff = 0 -> Z.land a m = Z.land b m.
Proof.
  intros Hp Hm. apply Z.bits_inj'. intros i Hi. rewrite !Z.land_spec. destruct (Z.lt_ge_cases i 10).
  - assert (Z.testbit m i = false) as ->; [|by rewrite !andb_false_r].
    apply (land_zero_bit _ _ _ Hm). change 0x3ff with (Z.ones 10). by apply Z.ones_spec_low.
  - apply (f_equal (fun x => Z.testbit x (i - 10))) in Hp. rewrite !Z.shiftr_spec in Hp by lia.
    replace (i - 10 + 10) with i in Hp by lia. by rewrite Hp.
Qed.
Lemma shiftr_page a b k : page_eq a b -> 10 <= k -> Z.shiftr a k = Z.shiftr b k.
Proof.
  intros Hp Hk. replace k with (10 + (k - 10)) by lia. rewrite <- !Z.shiftr_shiftr by lia. by rewrite Hp.
Qed.
Lemma shiftr_land_page a b k m : page_eq a b -> 0 <= k -> Z.land (Z.shiftl m k) 0x3ff = 0 ->
  Z.land (Z.shiftr a k) m = Z.land (Z.shiftr b k) m.
Proof.
  intros Hp Hk Hm. assert (m = Z.shiftr (Z.shiftl m k) k) as E.
  { rewrite Z.shiftr_shiftl_l, Z.sub_diag by lia. by rewrite Z.shiftl_0_r. }
  rewrite E, <- !Z.shiftr_land. by rewrite (land_page a b _ Hp Hm).
Qed.
Lemma frame_page d high low a b : page_eq a b -> Z.land high 0x3ff = 0 -> Z.land low 0x3ff = 0x3ff ->
  page_eq (frame d high low a) (frame d high low b) /\ Z.land (frame d high low a) 0x3ff = Z.land a 0x3ff.
Proof.
  intros Hp Hh Hl. unfold frame, page_eq. split.
  - rewrite !Z.shiftr_lor, !(Z.shiftr_land _ low), (shiftr_page a b) by (done || lia). done.
  - by rewrite Z.land_lor_distr_l, <- !Z.land_assoc, Hh, Hl, Z.land_0_r.
Qed.

(** Two results of the addresses [a] and [b]. *)
Definition moved (a b : Z) (ra rb : translation) : Prop :=
  match ra, rb with
  | Translated pa prot, Translated pb prot' =>
    prot' = prot /\ page_eq pa pb /\ Z.land pa 0x3ff = Z.land a 0x3ff /\ Z.land pb 0x3ff = Z.land b 0x3ff
  | Faulted c, Faulted c' => c' = c
  | _, _ => False
  end.

Section page.
  Context {M : Type} (ldl : Z -> ST M Z).
(** Two computations with the same effect and results related by [R]. *)
Definition same_run {A} (R : A -> A -> Prop) (m1 m2 : ST M A) : Prop := forall s,
  match m1 s, m2 s with
  | Ok (r1, s1), Ok (r2, s2) => R r1 r2 /\ s1 = s2
  | Err x, Err y => x = y
  | _, _ => False
  end.
Lemma same_ret {A} (R : A -> A -> Prop) x y : R x y -> same_run R (mret x) (mret y).
Proof. intros H s. by split. Qed.
Lemma same_bind {A B} (R : B -> B -> Prop) (m : ST M A) (f g : A -> ST M B) :
  (forall v, same_run R (f v) (g v)) -> same_run R (m ≫= f) (m ≫= g).
Proof. intros H s. unfold mbind, ST_bind. destruct (m s) as [[v s1]|x]; [apply H|done]. Qed.
Lemma same_fault a b code domain : same_run (moved a b) (mret (do_fault code domain)) (mret (do_fault code domain)).
Proof. by apply same_ret. Qed.

Lemma finish_walk_page e ap domain t u code a b pa pb :
  moved a b (Translated pa 0) (Translated pb 0) ->
  same_run (moved a b) (finish_walk e ap domain t u code pa) (finish_walk e ap domain t u code pb).
Proof.
  intros H. unfold finish_walk. apply same_bind. intros prot. destruct (prot =? 0); [apply same_fault|].
  apply same_ret. destruct H as (_ & H). by split.
Qed.
Lemma finish_v6_page e xn ap domain t u code a b pa pb :
  moved a b (Translated pa 0) (Translated pb 0) ->
  same_run (moved a b) (finish_v6 e xn ap domain t u code pa) (finish_v6 e xn ap domain t u code pb).
Proof.
  intros H. unfold finish_v6. destruct (truth xn && (t =? 2)); [apply same_fault|].
  destruct (truth _ && _); [apply same_fault|by apply finish_walk_page].
Qed.
Lemma frame_moved d high low a b : page_eq a b -> Z.land high 0x3ff = 0 -> Z.land low 0x3ff = 0x3ff ->
  moved a b (Translated (frame d high low a) 0) (Translated (frame d high low b) 0).
Proof.
  intros Hp Hh Hl. destruct (frame_page d high low a b Hp Hh Hl) as [H1 H2].
  destruct (frame_page d high low b a (eq_sym Hp) Hh Hl) as [_ H3]. done.
Qed.

(** What the registers have to be for pages to be the unit of translation. *)
Record mmu_ok (e : CPUARMState) : Prop := {
  ok_mask : Z.land (c2_mask (cp15 e)) 0x3ff = 0;
  ok_base : Z.land (c2_base_mask (cp15 e)) 3 = 0;
  ok_fcse : Z.land (c13_fcse (cp15 e)) 0x3ff = 0;
  ok_regions : arm_feature e ARM_FEATURE_MPU = true ->
    Forall (fun base => Z.land base 1 = 0 \/ 9 <= Z.land (Z.shiftr base 1) 0x1f) (c6_region (cp15 e))
}.
Lemma level1_page e a b : mmu_ok e -> page_eq a b -> get_level1_table_address e a = get_level1_table_address e b.
Proof.
  intros He Hp. unfold get_level1_table_address. by rewrite (land_page a b _ Hp (ok_mask _ He)), (shiftr_page a b 18) by (done || lia).
Qed.

(** The common steps of two walks. *)
Ltac walk_steps :=
  cbv zeta;
  repeat match goal with
  | |- same_run _ (mret (do_fault _ _)) _ => apply same_fault
  | |- same_run _ (if ?b then _ else _) (if ?b then _ else _) => destruct b
  | |- same_run _ (_ ≫= _) (_ ≫= _) => apply same_bind; let v := fresh "v" in intros v
  end.
Lemma v6_page e a b t u : mmu_ok e -> page_eq a b ->
  same_run (moved a b) (get_phys_addr_v6 ldl e a t u) (get_phys_addr_v6 ldl e b t u).
Proof.
  intros He Hp. unfold get_phys_addr_v6. rewrite <- (level1_page e a b He Hp), <- (shiftr_page a b 10 Hp) by lia.
  walk_steps; apply finish_v6_page; [destruct (truth (Z.land v (bit 18)))|..]; by apply frame_moved.
Qed.
Lemma v5_page e a b t u : mmu_ok e -> page_eq a b ->
  same_run (moved a b) (get_phys_addr_v5 ldl e a t u) (get_phys_addr_v5 ldl e b t u).
Proof.
  intros He Hp. unfold get_phys_addr_v5. rewrite <- (level1_page e a b He Hp), <- (shiftr_page a b 10 Hp) by lia.
  rewrite <- (shiftr_land_page a b 8 0xffc Hp) by (done || lia).
  walk_steps; [apply finish_walk_page; by apply frame_moved|].
  unfold l2_v5. rewrite <- (shiftr_page a b 13 Hp) by lia.
  repeat case_match; try apply same_fault; try discriminate; simplify_eq;
    try (apply finish_walk_page; by apply frame_moved).
Qed.

Lemma region_mask k : 9 <= k < 32 ->
  Z.land (not32 (wrap 32 (wrap 32 (Z.shiftl (wrap 32 (Z.shiftl 1 k)) 1) - 1))) 0x3ff = 0.
Proof.
  intros Hk. assert (In k [9;10;11;12;13;14;15;16;17;18;19;20;21;22;23;24;25;26;27;28;29;30;31]) as Hin by (simpl; lia).
  simpl in Hin. repeat destruct Hin as [<-|Hin]; try reflexivity. destruct Hin.
Qed.
Lemma mpu_region_page regions a b n : page_eq a b ->
  Forall (fun base => Z.land base 1 = 0 \/ 9 <= Z.land (Z.shiftr base 1) 0x1f) regions ->
  mpu_region regions n a = mpu_region regions n b.
Proof.
  intros Hp Hr. induction n as [|n IH]; [done|]. cbn [mpu_region mbind option_bind].
  destruct (regions !! n) as [base|] eqn:Hb; [|done]. cbn [mbind option_bind].
  pose proof (Forall_lookup_1 _ _ _ _ Hr Hb) as Hbase. cbv beta in Hbase. destruct (Z.eqb_spec (Z.land base 1) 0) as [|Hne]; [done|].
  destruct Hbase as [|Hk]; [done|].
  assert (Z.land (Z.shiftr base 1) 0x1f < 32) as Hk2.
  { change 0x1f with (Z.ones 5). rewrite Z.land_ones by done. by apply Z.mod_pos_bound. }
  rewrite (land_page (Z.lxor base a) (Z.lxor base b)), IH; [done| |].
  - unfold page_eq. by rewrite !Z.shiftr_lxor, Hp.
  - by apply region_mask.
Qed.
Lemma mpu_page e a b t u : mmu_ok e -> arm_feature e ARM_FEATURE_MPU = true -> page_eq a b ->
  same_run (moved a b) (get_phys_addr_mpu (M := M) e a t u) (get_phys_addr_mpu e b t u).
Proof.
  intros He HM Hp. unfold get_phys_addr_mpu. rewrite (mpu_region_page _ a b 8 Hp (ok_regions _ He HM)).
  destruct (mpu_region _ _ _); [|by apply same_ret]. repeat case_match; by apply same_ret.
Qed.
Lemma fcse_page e a b : mmu_ok e -> fits 32 a -> fits 32 b -> page_eq a b ->
  page_eq (fcse e a) (fcse e b) /\ Z.land (fcse e a) 0x3ff = Z.land a 0x3ff.
Proof.
  intros He Ha Hb. rewrite !page_eq_div. intros Hp. unfold fcse.
  assert (forall x, Z.land x 0x3ff = x mod 1024) as Hl by (intros x; apply (Z.land_ones x 10); done).
  pose proof (ok_fcse _ He) as Hf. rewrite Hl in Hf. rewrite !Hl.
  set (f := c13_fcse (cp15 e)) in *.
  assert (forall x, wrap 32 (x + f) mod 1024 = x mod 1024) as Hm.
  { intros x. unfold wrap. change (2 ^ 32) with (1024 * 4194304). rewrite Z.rem_mul_r by lia.
    rewrite Z.mul_comm, Z.mod_add, Z.mod_mod by lia. by rewrite Z.add_mod, Hf, Z.add_0_r, Z.mod_mod by lia. }
  assert (forall x, wrap 32 (x + f) / 1024 = (x / 1024 + f / 1024) mod 4194304) as Hd.
  { intros x. unfold wrap. change (2 ^ 32) with (1024 * 4194304). rewrite Z.rem_mul_r by lia.
    pose proof (Z.mod_pos_bound (x + f) 1024 ltac:(lia)).
    rewrite Z.mul_comm, Z.add_comm, Z.div_add_l by lia. rewrite (Z.div_small ((x + f) mod 1024)), Z.add_0_r by lia.
    f_equal. pose proof (Z.div_mod f 1024 ltac:(lia)) as E. rewrite Hf, Z.add_0_r in E. rewrite E at 1.
    rewrite Z.mul_comm. by rewrite Z.div_add by lia. }
  assert ((a <? 0x02000000) = (b <? 0x02000000)) as ->.
  { pose proof (Z.div_mod a 1024). pose proof (Z.div_mod b 1024). pose proof (Z.mod_pos_bound a 1024). pose proof (Z.mod_pos_bound b 1024).
    destruct (Z.ltb_spec a 0x02000000), (Z.ltb_spec b 0x02000000); lia. }
  destruct (b <? 0x02000000); [|done]. by rewrite !Hd, Hp, Hm.
Qed.
End page.

Lemma get_phys_addr_page {M} (ldl : Z -> ST M Z) e a b t u :
  mmu_ok e -> fits 32 a -> fits 32 b -> a / 1024 = b / 1024 ->
  same_run (moved a b) (get_phys_addr ldl e a t u) (get_phys_addr ldl e b t u).
Proof.
  intros He Ha Hb Hp. apply page_eq_div in Hp. destruct (fcse_page e a b He Ha Hb Hp) as [Hf Hla].
  destruct (fcse_page e b a He Hb Ha (eq_sym Hp)) as [_ Hlb].
  assert (forall ra rb, moved (fcse e a) (fcse e b) ra rb -> moved a b ra rb) as Hmv.
  { intros [pa p|c] [pb p'|c']; simpl; try done. by rewrite Hla, Hlb. }
  assert (forall m1 m2 : ST M translation, same_run (moved (fcse e a) (fcse e b)) m1 m2 -> same_run (moved a b) m1 m2) as Hrun.
  { intros m1 m2 H s. specialize (H s). destruct (m1 s) as [[r1 s1]|], (m2 s) as [[r2 s2]|]; try done. destruct H. auto. }
  apply Hrun. unfold get_phys_addr. cbv zeta.
  destruct (_ =? 0); [by apply same_ret|].
  destruct (arm_feature e ARM_FEATURE_MPU) eqn:HM; [by apply mpu_page|].
  destruct (truth _); [by apply v6_page|by apply v5_page].
Qed.

(** Addresses of one page of 1 KiB are translated alike: the same fault, or addresses at the
    same offsets of one physical page, with the same protection and the same effect on
    memory.  An entry of the TLB, which stands for a page, is therefore right for all its
    addresses. *)
Theorem translation_page {M} (ldl : Z -> ST M Z) e a b t u :
  mmu_ok e -> fits 32 a -> fits 32 b -> a / 1024 = b / 1024 ->
  same_run (moved a b) (get_phys_addr ldl e a t u) (get_phys_addr ldl e b t u).
Proof. apply get_phys_addr_page. Qed.

(** ** The protection of a page *)
Lemma check_ap_pair e ap domain t t' u prot : t' = 0 \/ t' = 1 -> check_ap e ap domain t u = Ok prot -> prot <> 0 ->
  allows prot t = true /\ check_ap e ap domain t' u = Ok (if allows prot t' then prot else 0).
Proof.
  intros Ht' Hp Hne. split; [by eapply check_ap_allows|]. revert Hp Hne. unfold check_ap, allows.
  destruct Ht' as [-> | ->]; simpl; destruct (Z.eqb_spec t 1) as [->|Hn]; simpl; ap_cases.
Qed.
Section protection.
  Context {M : Type} (ldl : Z -> ST M Z) (e : CPUARMState) (u : bool) (t t' : Z) (Ht' : t' = 0 \/ t' = 1).
(** A success of [m], a translation for accesses [t], says what [m'], the same for [t'], does. *)
Definition grants (m m' : ST M translation) : Prop := forall s pa prot s1,
  m s = Ok (Translated pa prot, s1) -> allows prot t = true /\
  exists r, m' s = Ok (r, s1) /\ if allows prot t' then r = Translated pa prot else exists c, r = Faulted c.
Lemma grants_fault code domain m' : grants (mret (do_fault code domain)) m'.
Proof. by intros s pa prot s1 [= ]. Qed.
Lemma grants_bind {A} (m : ST M A) f g : (forall v, grants (f v) (g v)) -> grants (m ≫= f) (m ≫= g).
Proof.
  intros H s pa prot s1. unfold mbind, ST_bind. destruct (m s) as [[v s2]|x]; [apply H|done].
Qed.
Lemma grants_finish ap domain code pa :
  grants (finish_walk e ap domain t u code pa) (finish_walk e ap domain t' u code pa).
Proof.
  intros s pa' prot s1. unfold finish_walk, mbind, ST_bind.
  destruct (check_ap e ap domain t u) as [p|x] eqn:Hc; cbn; [|done].
  destruct (Z.eqb_spec p 0) as [|Hne]; [done|]. intros [= <- <- <-].
  destruct (check_ap_pair _ _ _ _ _ _ _ Ht' Hc Hne) as [H1 H2]. split; [done|]. rewrite H2. cbn.
  destruct (allows p t'); cbn; [|by eauto]. apply Z.eqb_neq in Hne. rewrite Hne. eauto.
Qed.
Lemma grants_v6 xn ap domain code pa :
  grants (finish_v6 e xn ap domain t u code pa) (finish_v6 e xn ap domain t' u code pa).
Proof.
  unfold finish_v6. replace (t' =? 2) with false by (destruct Ht' as [-> | ->]; done). rewrite (andb_false_r (truth xn)).
  destruct (truth xn && (t =? 2)); [apply grants_fault|]. destruct (truth _ && _); [apply grants_fault|apply grants_finish].
Qed.
Ltac grant_steps :=
  cbv zeta;
  repeat match goal with
  | |- grants (mret (do_fault _ _)) _ => apply grants_fault
  | |- grants (if ?b then _ else _) (if ?b then _ else _) => destruct b
  | |- grants (_ ≫= _) (_ ≫= _) => apply grants_bind; let v := fresh "v" in intros v
  end.
Lemma grants_get_phys_addr a : arm_feature e ARM_FEATURE_MPU = false ->
  grants (get_phys_addr ldl e a t u) (get_phys_addr ldl e a t' u).
Proof.
  intros Ht. unfold get_phys_addr. cbv zeta. destruct (_ =? 0).
  { intros s pa prot s1 [= <- <- <-]. split; [by unfold allows; destruct (t =? 1)|]. eexists. split; [done|].
    by destruct Ht' as [-> | ->]. }
  rewrite Ht. destruct (truth _).
  - unfold get_phys_addr_v6. grant_steps; apply grants_v6.
  - unfold get_phys_addr_v5. grant_steps; [apply grants_finish|]. case_match; [|apply grants_fault].
    case_match. apply grants_finish.
Qed.
End protection.

(** With an MMU (no protection unit), a translation that succeeds for some access gives the
    page a protection that allows this access and is exact for data: a read or a write of
    the same address succeeds, with the same result, if the protection allows it, and faults
    otherwise. *)
Theorem protection_exact {M} (ldl : Z -> ST M Z) e a t t' u s pa prot s1 :
  arm_feature e ARM_FEATURE_MPU = false -> t' = 0 \/ t' = 1 ->
  get_phys_addr ldl e a t u s = Ok (Translated pa prot, s1) ->
  allows prot t = true /\
  exists r, get_phys_addr ldl e a t' u s = Ok (r, s1) /\
    if allows prot t' then r = Translated pa prot else exists c, r = Faulted c.
Proof. intros HM Ht' H. by apply (grants_get_phys_addr ldl e u t t' Ht' a HM). Qed.

(** ** Translation as a function of the words of memory *)
Definition translate (word : Z -> Z) (e : CPUARMState) (a t : Z) (u : bool) : translation :=
  default (Faulted 0) (result (get_phys_addr (fun adr => mret (word adr)) e a t u) tt).
(** The descriptors a translation may read. *)
Definition walk_reads (word : Z -> Z) (e : CPUARMState) (a : Z) : list Z :=
  let a := fcse e a in
  if (Z.land (c1_sys (cp15 e)) 1 =? 0) || arm_feature e ARM_FEATURE_MPU then []
  else
    let l1 := get_level1_table_address e a in
    let desc := word l1 in
    let coarse := Z.lor (Z.land desc 0xfffffc00) (Z.land (Z.shiftr a 10) 0x3fc) in
    let fine := Z.lor (Z.land desc 0xfffff000) (Z.land (Z.shiftr a 8) 0xffc) in
    l1 :: (if Z.land desc 3 =? 1 then [coarse] else if Z.land desc 3 =? 3 then [fine] else []).

Lemma ap_ok_2 x : ap_ok (Z.land x 3).
Proof.
  assert (fits 2 (Z.land x 3)) as H; [|unfold fits, ap_ok in *; lia].
  rewrite Z.land_comm. by apply fits_land_any. Qed.
Lemma ap_ok_3 x y : ap_ok (Z.lor (Z.land x 3) (Z.land y 4)).
Proof.
  assert (fits 3 (Z.lor (Z.land x 3) (Z.land y 4))) as H; [|exact H].
  apply fits_lor; [done|rewrite Z.land_comm; by apply fits_land_any..].
Qed.

Section simulation.
  Context {M : Type} (E : err -> Prop) (R : M -> Prop).
Definition simulates {A} (m : ST M A) (p : ST unit A) : Prop := forall s, R s -> wp E m (fun r s' => p tt = Ok (r, tt) /\ R s') s.
Lemma sim_ret {A} (x : A) : simulates (mret x) (mret x).
Proof. intros s Hs. by wp_step. Qed.
Lemma sim_finish e ap domain t u code pa : ap_ok ap ->
  simulates (finish_walk e ap domain t u code pa) (finish_walk e ap domain t u code pa).
Proof.
  intros Hap s Hs. unfold finish_walk. destruct (check_ap_total e ap domain t u Hap) as [p Hp]. rewrite Hp.
  cbn [from_outcome]. wp_step. wp_step. destruct (p =? 0) eqn:Hz; wp_step; (split; [unfold mbind, ST_bind, mret, ST_ret; by rewrite Hz|done]).
Qed.
Lemma sim_finish_v6 e xn ap domain t u code pa : ap_ok ap ->
  simulates (finish_v6 e xn ap domain t u code pa) (finish_v6 e xn ap domain t u code pa).
Proof.
  intros Hap. unfold finish_v6. destruct (truth xn && _); [apply sim_ret|]. destruct (truth _ && _); [apply sim_ret|by apply sim_finish].
Qed.
Lemma sim_load {A} (ldl : Z -> ST M Z) word adr (f : Z -> ST M A) (g : Z -> ST unit A) :
  (forall s, R s -> wp E (ldl adr) (fun v s' => v = word adr /\ R s') s) ->
  simulates (f (word adr)) (g (word adr)) -> simulates (ldl adr ≫= f) (mret (word adr) ≫= g).
Proof. intros Hl H s Hs. wp_step. eapply wp_mono; [by apply Hl|]. intros v s' [-> Hs']. by apply H. Qed.

Ltac sim_ifs := repeat match goal with |- simulates (if ?b then _ else _) _ => destruct b end.
Lemma translate_wp (ldl : Z -> ST M Z) word e a t u (Q : translation -> M -> Prop) s :
  (forall adr s, adr ∈ walk_reads word e a -> R s -> wp E (ldl adr) (fun v s' => v = word adr /\ R s') s) -> R s ->
  (forall s', R s' -> Q (translate word e a t u) s') -> wp E (get_phys_addr ldl e a t u) Q s.
Proof.
  intros Hl Hs HQ.
  assert (simulates (get_phys_addr ldl e a t u) (get_phys_addr (fun adr => mret (word adr)) e a t u)) as H.
  { unfold walk_reads in Hl. unfold get_phys_addr. cbv zeta in Hl |- *.
    destruct (_ =? 0); [apply sim_ret|]. destruct (arm_feature e ARM_FEATURE_MPU).
    { unfold get_phys_addr_mpu. destruct (mpu_region _ _ _); [|apply sim_ret]. repeat case_match; apply sim_ret. }
    cbn [orb] in Hl. destruct (truth _).
    - unfold get_phys_addr_v6. apply sim_load; [intros; apply Hl; [left|done]|]. cbv zeta.
      set (d := word (get_level1_table_address e (fcse e a))) in *.
      destruct (Z.eqb_spec (Z.land d 3) 0); [apply sim_ret|]. destruct (Z.eqb_spec (Z.land d 3) 3); [apply sim_ret|]. cbn [orb].
      match goal with |- simulates (if ?b then _ else _) _ => destruct b; [apply sim_ret|] end.
      destruct (Z.eqb_spec (Z.land d 3) 2).
      { apply sim_finish_v6, ap_ok_3. }
      pose proof (ap_ok_2 d) as Hap. unfold ap_ok in Hap.
      assert (Z.land d 3 = 1) as H1.
      { assert (Z.land d 3 < 4); [|lia]. change 3 with (Z.ones 2). rewrite Z.land_ones by done. by apply Z.mod_pos_bound. }
      rewrite H1 in Hl. apply sim_load; [intros; apply Hl; [right; left|done]|].
      sim_ifs; first [apply sim_ret | apply sim_finish_v6, ap_ok_3].
    - unfold get_phys_addr_v5. apply sim_load; [intros; apply Hl; [left|done]|]. cbv zeta.
      set (d := word (get_level1_table_address e (fcse e a))) in *.
      destruct (Z.eqb_spec (Z.land d 3) 0); [apply sim_ret|].
      match goal with |- simulates (if ?b then _ else _) _ => destruct b; [apply sim_ret|] end.
      destruct (Z.eqb_spec (Z.land d 3) 2). { apply sim_finish, ap_ok_2. }
      assert (Z.land d 3 = 1 \/ Z.land d 3 = 3) as H1.
      { assert (0 <= Z.land d 3 < 4); [|lia]. change 3 with (Z.ones 2). rewrite Z.land_ones by done. by apply Z.mod_pos_bound. }
      assert (forall d2, match l2_v5 e (Z.land d 3) d2 (fcse e a) with Some (_, ap) => ap_ok ap | None => True end) as Hap.
      { intros d2. unfold l2_v5. cbv zeta. repeat case_match; try done; simplify_eq; apply ap_ok_2. }
      destruct H1 as [H1|H1]; rewrite H1 in Hl |- *; cbn [Z.eqb Pos.eqb] in Hl |- *;
        (apply sim_load; [intros; apply Hl; [right; left|done]|]); rewrite <- H1;
        (match goal with |- context [l2_v5 e (Z.land d 3) ?d2 ?x] => specialize (Hap d2) end);
        (destruct (l2_v5 _ _ _ _) as [[pa ap]|]; [by apply sim_finish|apply sim_ret]). }
  eapply wp_mono; [by apply H|]. intros r s' [Hr Hs']. unfold translate, result in HQ. rewrite Hr in HQ. by apply HQ.
Qed.
End simulation.

(** In memory a translation is a function of the words behind the descriptors' addresses, and
    it always ends: permissions outside the architecture, for which the code would abort, do
    not occur. *)
Lemma translate_total word e a t u :
  get_phys_addr (fun adr => mret (word adr)) e a t u tt = Ok (translate word e a t u, tt).
Proof.
  assert (wp no_err (get_phys_addr (fun adr => mret (word adr)) e a t u) (fun r _ => r = translate word e a t u) tt) as H.
  { apply (translate_wp no_err (fun _ => True) _ word); done. }
  apply wp_total_ex in H as (r & [] & H & ->). exact H.
Qed.

(** ** A section of 1 MiB, with access for all *)
Definition section_cpu : CPUARMState :=
  sample_cpu <| cp15 := cp15_zero <| c1_sys := 1 |> <| c2_base0 := 0x4000 |> <| c2_base_mask := 0xffffc000 |> <| c3 := 1 |> |>.
Definition section_words (adr : Z) : ST unit Z := mret 0x00300c02.
Example translation_page_witness :
  same_run (moved 0x1004 0x13fc) (get_phys_addr section_words section_cpu 0x1004 0 true) (get_phys_addr section_words section_cpu 0x13fc 0 true).
Proof.
  apply (translation_page section_words section_cpu 0x1004 0x13fc 0 true); [|done..].
  split; [reflexivity..|discriminate].
Defined.
Example protection_exact_witness :
  get_phys_addr section_words section_cpu 0x1004 1 true tt = Ok (Translated 0x301004 READ_WRITE, tt) /\
  allows READ_WRITE 1 = true /\
  exists r, get_phys_addr section_words section_cpu 0x1004 0 true tt = Ok (r, tt) /\
    if allows READ_WRITE 0 then r = Translated 0x301004 READ_WRITE else exists c, r = Faulted c.
Proof.
  split; [reflexivity|].
  apply (protection_exact section_words section_cpu 0x1004 1 0 true tt 0x301004 READ_WRITE tt); [reflexivity|by left|reflexivity].
Defined.
