(* ===== verification/ArmTlb.v ===== *)
(** * ArmTlb: the software TLB (exec.c, softmmu_template.h, target-arm/helper.c, op_helper.c)

    Filling an entry of the TLB, the faults of the processor, and the loads and stores of
    translated code that miss the inline path.  A guest exception leaves the code by longjmp:
    such a load or store returns [None].  Invalidating translated code is the operation of the
    class [TbCache]. *)
From S2P Require Import Prelude Physmem PhysAccess ArmCpu ArmMmu ArmExc.
From stdpp Require Import sets.
#[local] Open Scope Z_scope.

Definition TLB_INVALID_MASK : Z := bit 3.
Definition TLB_NOTDIRTY : Z := bit 4.
Definition TLB_MMIO : Z := bit 5.
Definition MMU_USER_IDX : Z := 1.
(** TARGET_PAGE_MASK on target_ulong. *)
Definition page_down32 (x : Z) : Z := Z.land x 0xfffffc00.
(** The zone of the watchpoint functions, which io_mem_init registers. *)
Definition io_mem_watch : Z := default 0 (result io_mem_init phys_init).

Class TbCache (D : Type) := tb_invalidate_phys_page_fast : Z -> Z -> SYS D unit.

Section tlb.
  Context {D : Type} `{!Devices D} `{!TbCache D}.

(** ** Filling an entry *)
Definition tlb_index (vaddr : Z) : Z := Z.land (Z.shiftr vaddr TARGET_PAGE_BITS) (CPU_TLB_SIZE - 1).
Definition get_entry (mmu_idx index : Z) : SYS D CPUTLBEntry :=
  e ← on_cpu get; deref (rd2 (tlb_table e) mmu_idx index).
Definition get_iotlb (mmu_idx index : Z) : SYS D Z :=
  e ← on_cpu get; deref (rd2 (iotlb e) mmu_idx index).
Definition set_entry (mmu_idx index : Z) (te : CPUTLBEntry) : CPU unit :=
  e ← get; t ← deref (wr2 (tlb_table e) mmu_idx index te); modify (fun e => e <| tlb_table := t |>).
Definition set_iotlb (mmu_idx index v : Z) : CPU unit :=
  e ← get; t ← deref (wr2 (iotlb e) mmu_idx index v); modify (fun e => e <| iotlb := t |>).

(** The value of iotlb for a page without watchpoints. *)
Definition iotlb_of (d : option PhysPageDesc) (paddr : Z) : Z :=
  let pd := pd_of d in
  if page_off pd <=? IO_MEM_ROM then
    Z.lor (page_down pd) (if page_off pd =? IO_MEM_RAM then IO_MEM_NOTDIRTY else IO_MEM_ROM)
  else wrap 64 (page_off pd + match d with Some d => region_offset d | None => paddr end).
(** The address a write has to match: through the functions of the page unless it is RAM
    whose dirty bits are all set. *)
Definition write_tag (pd address : Z) (dirty : bool) : Z :=
  if (page_off pd =? IO_MEM_ROM) || truth (Z.land pd IO_MEM_ROMD) then Z.lor address TLB_MMIO
  else if (page_off pd =? IO_MEM_RAM) && negb dirty then Z.lor address TLB_NOTDIRTY
  else address.
Definition tlb_set_page_exec (vaddr paddr prot mmu_idx : Z) : SYS D Z :=
  e ← on_cpu get;
  d ← on_mem (page_of paddr);
  let pd := pd_of d in
  let address := if reads_io pd then Z.lor vaddr TLB_MMIO else vaddr in
  ptr ← on_mem (lift (qemu_get_ram_ptr (page_down pd)));
  let code_address := address in
  let watched := existsb (fun wp => vaddr =? page_down32 wp) (watchpoints e) in
  let io := if watched then wrap 64 (io_mem_watch + paddr) else iotlb_of d paddr in
  let address := if watched then Z.lor address TLB_MMIO else address in
  let index := tlb_index vaddr in
  on_cpu (set_iotlb mmu_idx index (wrap 64 (io - vaddr))) ;;
  dirty ← (if truth (Z.land prot PAGE_WRITE) && negb ((page_off pd =? IO_MEM_ROM) || truth (Z.land pd IO_MEM_ROMD))
              && (page_off pd =? IO_MEM_RAM)
           then on_mem (cpu_physical_memory_is_dirty pd) else mret false);
  on_cpu (set_entry mmu_idx index (mkTlb
    (if truth (Z.land prot PAGE_READ) then address else 0xffffffff)
    (if truth (Z.land prot PAGE_WRITE) then write_tag pd address dirty else 0xffffffff)
    (if truth (Z.land prot PAGE_EXEC) then code_address else 0xffffffff)
    (wrap 64 (ptr - vaddr)))) ;;
  mret 0.
Definition tlb_set_page (vaddr paddr prot mmu_idx : Z) : SYS D Z :=
  let prot := if truth (Z.land prot PAGE_READ) then Z.lor prot PAGE_EXEC else prot in
  tlb_set_page_exec vaddr paddr prot mmu_idx.

(** ** Faults *)
Definition cpu_arm_handle_mmu_fault (address access_type mmu_idx : Z) : SYS D Z :=
  e ← on_cpu get;
  ret ← on_mem (get_phys_addr ldl_phys e address access_type (mmu_idx =? MMU_USER_IDX));
  match ret with
  | Translated phys_addr prot => tlb_set_page (page_down32 address) (page_down32 phys_addr) prot mmu_idx
  | Faulted code =>
    (if access_type =? 2 then
       on_cpu (set_cp15_with (fun c => c <| c5_insn := code |> <| c6_insn := address |>)) ;;
       on_cpu (modify (fun e => e <| exception_index := EXCP_PREFETCH_ABORT |>))
     else
       let v6 := (access_type =? 1) && arm_feature e ARM_FEATURE_V6 in
       on_cpu (set_cp15_with (fun c => c <| c5_data := if v6 then Z.lor code (bit 11) else code |> <| c6_data := address |>)) ;;
       on_cpu (modify (fun e => e <| exception_index := EXCP_DATA_ABORT |>))) ;;
    mret 1
  end.
(** Whether an exception was raised. *)
Definition tlb_fill (addr is_write mmu_idx : Z) : SYS D bool :=
  ret ← cpu_arm_handle_mmu_fault addr is_write mmu_idx;
  mret (truth ret).

(** ** Loads *)
Definition page_match (addr tlb_addr : Z) : bool :=
  page_down32 addr =? Z.land tlb_addr (Z.lor 0xfffffc00 TLB_INVALID_MASK).
Definition spans_pages (addr size : Z) : bool := Z.land addr 0x3ff + size - 1 >=? TARGET_PAGE_SIZE.
Definition tlb_io_read (shift physaddr addr : Z) : SYS D Z :=
  let index := io_zone physaddr in
  let physaddr := wrap 64 (page_down physaddr + addr) in
  on_cpu (modify (fun e => e <| mem_io_vaddr := addr |>)) ;;
  if shift <=? 2 then on_mem (io_read index shift physaddr)
  else
    lo ← on_mem (io_read index 2 physaddr);
    hi ← on_mem (io_read index 2 (wrap 64 (physaddr + 4)));
    mret (Z.lor lo (Z.shiftl hi 32)).
(** One pass of the load functions of 2^[shift] bytes; [redo] is the jump back after a fill. *)
Definition ld_pass (code : bool) (shift addr mmu_idx : Z) (redo unaligned : SYS D (option Z)) : SYS D (option Z) :=
  let size := Z.shiftl 1 shift in
  let index := tlb_index addr in
  te ← get_entry mmu_idx index;
  let tlb_addr := if code then addr_code te else addr_read te in
  if page_match addr tlb_addr then
    if truth (Z.land tlb_addr 0x3ff) then
      if truth (Z.land addr (size - 1)) then unaligned
      else io ← get_iotlb mmu_idx index; v ← tlb_io_read shift io addr; mret (Some v)
    else if spans_pages addr size then unaligned
    else bs ← on_mem (ram_read (wrap 64 (addr + addend te)) (Z.to_nat size)); mret (Some (le_value bs))
  else
    raised ← tlb_fill addr (if code then 2 else 0) mmu_idx;
    if (raised : bool) then mret None else redo.
(** slow_ld: an unaligned access is two aligned ones. *)
Fixpoint slow_ld (fuel : nat) (code : bool) (shift addr mmu_idx : Z) : SYS D (option Z) :=
  match fuel with
  | O => throw OutOfFuel
  | S fuel =>
    let size := Z.shiftl 1 shift in
    let addr1 := Z.land addr (not32 (size - 1)) in
    let k := Z.land addr (size - 1) * 8 in
    ld_pass code shift addr mmu_idx (slow_ld fuel code shift addr mmu_idx)
      (res1 ← slow_ld fuel code shift addr1 mmu_idx;
       match res1 with
       | None => mret None
       | Some res1 =>
         res2 ← slow_ld fuel code shift (wrap 32 (addr1 + size)) mmu_idx;
         mret (res2 ← res2; Some (wrap (size * 8) (Z.lor (Z.shiftr res1 k) (Z.shiftl res2 (size * 8 - k)))))
       end)
  end.
(** __ld: the entry from translated code. *)
Fixpoint ld_mmu (fuel : nat) (code : bool) (shift addr mmu_idx : Z) : SYS D (option Z) :=
  match fuel with
  | O => throw OutOfFuel
  | S fuel => ld_pass code shift addr mmu_idx (ld_mmu fuel code shift addr mmu_idx) (slow_ld fuel code shift addr mmu_idx)
  end.

(** ** Stores *)
Definition tlb_set_dirty1 (vaddr : Z) (te : CPUTLBEntry) : CPUTLBEntry :=
  if addr_write te =? Z.lor vaddr TLB_NOTDIRTY then te <| addr_write := vaddr |> else te.
Definition tlb_set_dirty (vaddr : Z) : CPU unit :=
  let vaddr := page_down32 vaddr in
  let i := tlb_index vaddr in
  for_each [0; 1] (fun mmu_idx =>
    e ← get; te ← deref (rd2 (tlb_table e) mmu_idx i); set_entry mmu_idx i (tlb_set_dirty1 vaddr te)).
Definition get_dirty (ram_addr : Z) : SYS D Z :=
  s ← on_mem get; deref (rd (phys_ram_dirty (pmem s)) (Z.shiftr ram_addr TARGET_PAGE_BITS)).
(** notdirty_mem_writeb, w and l for [shift] 0, 1 and 2. *)
Definition notdirty_write (shift ram_addr val : Z) : SYS D unit :=
  dirty_flags ← get_dirty ram_addr;
  dirty_flags ← (if truth (Z.land dirty_flags CODE_DIRTY_FLAG) then mret dirty_flags
                 else tb_invalidate_phys_page_fast ram_addr (Z.shiftl 1 shift) ;; get_dirty ram_addr);
  ptr ← on_mem (lift (qemu_get_ram_ptr ram_addr));
  on_mem (ram_write ptr (le_bytes (bytes_of shift) val)) ;;
  let dirty_flags := Z.lor dirty_flags (Z.land 0xff (wrap 32 (Z.lnot CODE_DIRTY_FLAG))) in
  s ← on_mem get;
  l ← deref (wr (phys_ram_dirty (pmem s)) (Z.shiftr ram_addr TARGET_PAGE_BITS) dirty_flags);
  on_mem (modify (fun s => s <| pmem := (pmem s) <| phys_ram_dirty := l |> |>)) ;;
  e ← on_cpu get;
  when (dirty_flags =? 0xff) (on_cpu (tlb_set_dirty (mem_io_vaddr e))).
(** io_mem_write[index][shift](io_mem_opaque[index], physaddr, val) *)
Definition zone_write (index shift physaddr val : Z) : SYS D unit :=
  s ← on_mem get;
  match fn_at (io_mem_write (pmem s)) index shift with
  | Some (notdirty_mem_write w) => notdirty_write w physaddr (wrap 32 val)
  | _ => on_mem (io_write index shift physaddr val)
  end.
Definition tlb_io_write (shift physaddr val addr : Z) : SYS D unit :=
  let index := io_zone physaddr in
  let physaddr := wrap 64 (page_down physaddr + addr) in
  on_cpu (modify (fun e => e <| mem_io_vaddr := addr |>)) ;;
  if shift <=? 2 then zone_write index shift physaddr val
  else zone_write index 2 physaddr val ;; zone_write index 2 (wrap 64 (physaddr + 4)) (Z.shiftr val 32).
Definition st_pass (shift addr val mmu_idx : Z) (redo unaligned : SYS D (option unit)) : SYS D (option unit) :=
  let size := Z.shiftl 1 shift in
  let index := tlb_index addr in
  te ← get_entry mmu_idx index;
  if page_match addr (addr_write te) then
    if truth (Z.land (addr_write te) 0x3ff) then
      if truth (Z.land addr (size - 1)) then unaligned
      else io ← get_iotlb mmu_idx index; tlb_io_write shift io val addr ;; mret (Some tt)
    else if spans_pages addr size then unaligned
    else on_mem (ram_write (wrap 64 (addr + addend te)) (le_bytes (Z.to_nat size) val)) ;; mret (Some tt)
  else
    raised ← tlb_fill addr 1 mmu_idx;
    if (raised : bool) then mret None else redo.
(** A byte is never unaligned. *)
Fixpoint slow_stb (fuel : nat) (addr val mmu_idx : Z) : SYS D (option unit) :=
  match fuel with
  | O => throw OutOfFuel
  | S fuel => st_pass 0 addr (wrap 8 val) mmu_idx (slow_stb fuel addr val mmu_idx) (throw Fault)
  end.
(** The bytes of an unaligned store, from the last to the first. *)
Fixpoint store_bytes (fuel i : nat) (addr val mmu_idx : Z) : SYS D (option unit) :=
  match i with
  | O => mret (Some tt)
  | S i =>
    r ← slow_stb fuel (wrap 32 (addr + Z.of_nat i)) (Z.shiftr val (Z.of_nat i * 8)) mmu_idx;
    match r with None => mret None | Some _ => store_bytes fuel i addr val mmu_idx end
  end.
(** slow_st and __st have the same passes: both end in the bytes of an unaligned store. *)
Fixpoint st_mmu (fuel : nat) (shift addr val mmu_idx : Z) : SYS D (option unit) :=
  match fuel with
  | O => throw OutOfFuel
  | S fuel =>
    st_pass shift addr val mmu_idx (st_mmu fuel shift addr val mmu_idx)
      (store_bytes fuel (bytes_of shift) addr val mmu_idx)
  end.

(** ** Flushing a page *)
Definition tlb_flush_entry (addr : Z) (te : CPUTLBEntry) : CPUTLBEntry :=
  let m := Z.lor 0xfffffc00 TLB_INVALID_MASK in
  if (addr =? Z.land (addr_read te) m) || (addr =? Z.land (addr_write te) m) || (addr =? Z.land (addr_code te) m)
  then s_cputlb_empty_entry else te.
Definition tlb_flush_page (addr : Z) : CPU unit :=
  let addr := page_down32 addr in
  let i := tlb_index addr in
  for_each [0; 1] (fun mmu_idx =>
    e ← get; te ← deref (rd2 (tlb_table e) mmu_idx i); set_entry mmu_idx i (tlb_flush_entry addr te)).

(** ** Dirty bits and the TLB *)
Definition tlb_reset_dirty_range (start length : Z) (te : CPUTLBEntry) : CPUTLBEntry :=
  if Z.land (addr_write te) 0x3ff =? IO_MEM_RAM then
    let addr := wrap 64 (Z.land (addr_write te) 0xfffffc00 + addend te) in
    if wrap 64 (addr - start) <? length
    then te <| addr_write := Z.lor (Z.land (addr_write te) 0xfffffc00) TLB_NOTDIRTY |> else te
  else te.
(** The loops over all entries of the board's one processor. *)
Definition each_entry (f : CPUTLBEntry -> CPUTLBEntry) : CPU unit :=
  modify (fun e => e <| tlb_table := List.map (List.map f) (tlb_table e) |>).
(** p[i] &= mask, for [n] pages from page [i]. *)
Definition clear_dirty (mask : Z) (i : Z) (n : nat) : SYS D unit :=
  for_each (seq 0 n) (fun k =>
    s ← on_mem get;
    d ← deref (rd (phys_ram_dirty (pmem s)) (i + Z.of_nat k));
    l ← deref (wr (phys_ram_dirty (pmem s)) (i + Z.of_nat k) (Z.land d mask));
    on_mem (modify (fun s => s <| pmem := (pmem s) <| phys_ram_dirty := l |> |>))).
Definition cpu_physical_memory_reset_dirty (start end_ dirty_flags : Z) : SYS D unit :=
  let start := page_down start in
  let end_ := TARGET_PAGE_ALIGN end_ in
  let length := wrap 64 (end_ - start) in
  if length =? 0 then mret tt
  else
    (* int len *)
    let len := wrap 32 (Z.shiftr length TARGET_PAGE_BITS) in
    let len := if len <? 2 ^ 31 then len else 0 in
    clear_dirty (wrap 8 (Z.lnot dirty_flags)) (Z.shiftr start TARGET_PAGE_BITS) (Z.to_nat len) ;;
    start1 ← on_mem (lift (qemu_get_ram_ptr start));
    last ← on_mem (lift (qemu_get_ram_ptr (wrap 64 (end_ - 1))));
    if negb (wrap 64 (last - start1) =? wrap 64 (end_ - 1 - start)) then throw HwError
    else on_cpu (each_entry (tlb_reset_dirty_range start1 length)).
Definition tlb_protect_code (ram_addr : Z) : SYS D unit :=
  cpu_physical_memory_reset_dirty ram_addr (wrap 64 (ram_addr + TARGET_PAGE_SIZE)) CODE_DIRTY_FLAG.
Definition tlb_unprotect_code_phys (ram_addr : Z) : SYS D unit :=
  s ← on_mem get;
  d ← deref (rd (phys_ram_dirty (pmem s)) (Z.shiftr ram_addr TARGET_PAGE_BITS));
  l ← deref (wr (phys_ram_dirty (pmem s)) (Z.shiftr ram_addr TARGET_PAGE_BITS) (Z.lor d CODE_DIRTY_FLAG));
  on_mem (modify (fun s => s <| pmem := (pmem s) <| phys_ram_dirty := l |> |>)).
(** cpu_tlb_update_dirty, after the memory has been loaded: one entry at a time. *)
Definition tlb_update_dirty (te : CPUTLBEntry) : SYS D CPUTLBEntry :=
  if Z.land (addr_write te) 0x3ff =? IO_MEM_RAM then
    ram_addr ← on_mem (lift (qemu_ram_addr_from_host (wrap 64 (Z.land (addr_write te) 0xfffffc00 + addend te))));
    dirty ← on_mem (cpu_physical_memory_is_dirty ram_addr);
    mret (if (dirty : bool) then te else te <| addr_write := Z.lor (addr_write te) TLB_NOTDIRTY |>)
  else mret te.
Definition cpu_tlb_update_dirty : SYS D unit :=
  for_each [0; 1] (fun mmu_idx => for_each (seq 0 256) (fun i =>
    te ← get_entry mmu_idx (Z.of_nat i);
    te ← tlb_update_dirty te;
    on_cpu (set_entry mmu_idx (Z.of_nat i) te))).
End tlb.
