(* ===== verification/ArmTlbInv.v ===== *)
(** * ArmTlbInv: the invariant of the software TLB

    [coherent] says that an entry of the TLB that matches an address has the translation of
    that address, for loads and for stores, and that an entry which lets stores through to
    RAM without a check is of a page whose dirty bits are all set.  Filling an entry keeps the
    invariant. *)
From S2P Require Import Prelude Physmem PhysPages PhysRam PhysZones PhysAccess PhysRw ArmCpu ArmModes ArmPsr ArmMmu ArmExc ArmEntry.
From S2P Require Import ArmWalk ArmTlb.
From stdpp Require Import sets.
#[local] Open Scope Z_scope.

(** ** Translation depends on the words of memory and on the system registers *)
Definition mmu_view (e : CPUARMState) : list Z :=
  let c := cp15 e in [features e; c1_sys c; c2_base0 c; c2_base1 c; c2_mask c; c2_base_mask c; c3 c; c13_fcse c].
Lemma view_get_phys_addr {M} (ldl : Z -> ST M Z) e e' a t u : arm_feature e ARM_FEATURE_MPU = false -> mmu_view e' = mmu_view e ->
  get_phys_addr ldl e' a t u = get_phys_addr ldl e a t u.
Proof.
  intros HM [= E1 E2 E3 E4 E5 E6 E7 E8]. unfold get_phys_addr.
  assert (arm_feature e' ARM_FEATURE_MPU = false) as -> by (unfold arm_feature in *; by rewrite E1). rewrite HM.
  unfold get_phys_addr_v5, get_phys_addr_v6, finish_v6, finish_walk, l2_v5, check_ap, get_level1_table_address, fcse, arm_feature.
  by rewrite E1, E2, E3, E4, E5, E6, E7, E8.
Qed.
Lemma translate_view word e e' a t u : arm_feature e ARM_FEATURE_MPU = false -> mmu_view e' = mmu_view e ->
  translate word e' a t u = translate word e a t u.
Proof. intros HM Hv. unfold translate. by rewrite (view_get_phys_addr _ e). Qed.
Lemma view_mmu_ok e e' : arm_feature e ARM_FEATURE_MPU = false -> mmu_view e' = mmu_view e -> mmu_ok e -> mmu_ok e'.
Proof.
  intros HM [= E1 E2 E3 E4 E5 E6 E7 E8] [H1 H2 H3 H4]. split; [by rewrite E5|by rewrite E6|by rewrite E8|].
  unfold arm_feature in *. rewrite E1, HM. done.
Qed.
Lemma translate_word word word' e a t u : (forall adr, word' adr = word adr) ->
  translate word' e a t u = translate word e a t u.
Proof.
  intros Hw. assert (wp no_err (get_phys_addr (fun adr => mret (word' adr)) e a t u) (fun r _ => r = translate word e a t u) tt) as H.
  { apply (translate_wp no_err (fun _ => True) _ word); [|done..]. intros adr s _ _. wp_step. by rewrite Hw. }
  unfold wp in H. rewrite translate_total in H. exact H.
Qed.
(** Addresses of one page are translated alike. *)
Lemma translate_page word e a b t u : mmu_ok e -> fits 32 a -> fits 32 b -> a / 1024 = b / 1024 ->
  moved a b (translate word e a t u) (translate word e b t u).
Proof.
  intros He Ha Hb Hp. pose proof (get_phys_addr_page (fun adr => mret (word adr)) e a b t u He Ha Hb Hp tt) as H.
  rewrite !translate_total in H. apply H.
Qed.
Lemma translate_allows word e a t u pa prot : arm_feature e ARM_FEATURE_MPU = false ->
  translate word e a t u = Translated pa prot -> allows prot t = true.
Proof.
  intros HM Ht. pose proof (translate_total word e a t u) as H. rewrite Ht in H.
  by destruct (grants_get_phys_addr _ e u t 0 (or_introl eq_refl) a HM _ _ _ _ H).
Qed.
(** The physical address of a translation has 32 bits, and descriptors are at aligned
    addresses. *)
Lemma fits_frame desc high low a : fits 32 high -> fits 32 low -> fits 32 (frame desc high low a).
Proof.
  intros Hh Hl. unfold frame. rewrite (Z.land_comm desc), (Z.land_comm a). apply fits_lor; [done|by apply fits_land_any..].
Qed.
Lemma translate_fits word e a t u pa prot : arm_feature e ARM_FEATURE_MPU = false -> fits 32 a ->
  translate word e a t u = Translated pa prot -> fits 32 pa.
Proof.
  intros HM Ha Ht. pose (P := fun (r : translation) (_ : unit) => match r with Translated pa _ => fits 32 pa | Faulted _ => True end).
  assert (forall ap domain code phys, fits 32 phys -> wp any_err (finish_walk e ap domain t u code phys) P tt) as Hf.
  { intros ap domain code phys Hp. unfold finish_walk. wp_step. destruct (check_ap e ap domain t u); [|done].
    cbn [from_outcome]. wp_step. by destruct (_ =? 0). }
  assert (forall xn ap domain code phys, fits 32 phys -> wp any_err (finish_v6 e xn ap domain t u code phys) P tt) as H6.
  { intros. unfold finish_v6. repeat case_match; try done; by apply Hf. }
  assert (wp any_err (get_phys_addr (fun adr => mret (word adr)) e a t u) P tt) as H.
  { unfold get_phys_addr. rewrite HM. case_match.
    { wp_step. unfold P, fcse. case_match; [by apply fits_wrap|done]. }
    case_match.
    - unfold get_phys_addr_v6. wp_step. wp_step. repeat case_match; try done; try (apply H6; by apply fits_frame).
      all: wp_step; wp_step; repeat case_match; try done; apply H6; by apply fits_frame.
    - unfold get_phys_addr_v5. wp_step. wp_step. repeat case_match; try done; try (apply Hf; by apply fits_frame).
      all: wp_step; wp_step; unfold l2_v5; repeat case_match; try done; simplify_eq; apply Hf; by apply fits_frame. }
  unfold wp in H. rewrite translate_total in H. rewrite Ht in H. exact H.
Qed.
Lemma walk_aligned word e a adr : mmu_ok e -> adr ∈ walk_reads word e a -> adr mod 4 = 0.
Proof.
  intros He. change (adr mod 4) with (adr mod 2 ^ 2). rewrite <- Z.land_ones by done. change (Z.ones 2) with 3.
  assert (forall x y m k, Z.land m 3 = 0 -> Z.land k 3 = 0 -> Z.land (Z.lor (Z.land x m) (Z.land y k)) 3 = 0) as H.
  { intros x y m k Hm Hk. by rewrite Z.land_lor_distr_l, <- !Z.land_assoc, Hm, Hk, !Z.land_0_r. }
  unfold walk_reads. cbv zeta. case_match; [by intros ?%elem_of_nil|]. intros [->|Hin]%elem_of_cons.
  - unfold get_level1_table_address. cbv zeta. case_match; apply H; try done. apply (ok_base _ He).
  - repeat case_match; try apply elem_of_cons in Hin as [->|Hin]; try by apply elem_of_nil in Hin. all: by apply H.
Qed.
(** The address does not depend on the privilege of the access. *)
Section privilege.
  Context {M : Type}.
Definition same_pa (m1 m2 : ST M translation) : Prop := forall s pa p s1 pb q s2,
  m1 s = Ok (Translated pa p, s1) -> m2 s = Ok (Translated pb q, s2) -> pa = pb.
Lemma same_pa_fault code domain m : same_pa (mret (do_fault code domain)) m.
Proof. by intros s pa p s1 pb q s2 [= ]. Qed.
Lemma same_pa_bind {A} (m : ST M A) f g : (forall v, same_pa (f v) (g v)) -> same_pa (m ≫= f) (m ≫= g).
Proof.
  intros H s pa p s1 pb q s2. unfold mbind, ST_bind. destruct (m s) as [[v s3]|x]; [apply H|done].
Qed.
Lemma same_pa_finish e ap domain t u u' code pa :
  same_pa (finish_walk e ap domain t u code pa) (finish_walk e ap domain t u' code pa).
Proof.
  intros s pa1 p1 s1 pa2 p2 s2. unfold finish_walk, mbind, ST_bind.
  destruct (check_ap e ap domain t u) as [c1|], (check_ap e ap domain t u') as [c2|]; cbn; try done.
  destruct (c1 =? 0), (c2 =? 0); try done. by intros [= -> _ _] [= -> _ _].
Qed.
Lemma same_pa_v6 e xn ap domain t u u' code pa :
  same_pa (finish_v6 e xn ap domain t u code pa) (finish_v6 e xn ap domain t u' code pa).
Proof.
  unfold finish_v6. destruct (truth xn && (t =? 2)); [apply same_pa_fault|]. destruct (truth _ && _); [apply same_pa_fault|].
  apply same_pa_finish.
Qed.
End privilege.
Lemma translate_user word e a t u u' pa p pb q : arm_feature e ARM_FEATURE_MPU = false ->
  translate word e a t u = Translated pa p -> translate word e a t u' = Translated pb q -> pa = pb.
Proof.
  intros HM H1 H2. pose proof (translate_total word e a t u) as T1. pose proof (translate_total word e a t u') as T2.
  rewrite H1 in T1. rewrite H2 in T2.
  assert (same_pa (M := unit) (get_phys_addr (fun adr => mret (word adr)) e a t u) (get_phys_addr (fun adr => mret (word adr)) e a t u')) as Hs.
  { unfold get_phys_addr. rewrite HM. destruct (_ =? 0); [by intros s pa1 p1 s1 pa2 p2 s2 [= -> _ _] [= -> _ _]|].
    destruct (truth _).
    - unfold get_phys_addr_v6. cbv zeta.
      repeat match goal with
      | |- same_pa (mret (do_fault _ _)) _ => apply same_pa_fault
      | |- same_pa (if ?b then _ else _) (if ?b then _ else _) => destruct b
      | |- same_pa (_ ≫= _) (_ ≫= _) => apply same_pa_bind; intros ?
      end; apply same_pa_v6.
    - unfold get_phys_addr_v5. cbv zeta.
      repeat match goal with
      | |- same_pa (mret (do_fault _ _)) _ => apply same_pa_fault
      | |- same_pa (if ?b then _ else _) (if ?b then _ else _) => destruct b
      | |- same_pa (_ ≫= _) (_ ≫= _) => apply same_pa_bind; intros ?
      end; [apply same_pa_finish|]. case_match; [|apply same_pa_fault]. case_match. apply same_pa_finish. }
  exact (Hs _ _ _ _ _ _ _ T1 T2).
Qed.

(** ** Tags *)
Lemma page_down32_div a : fits 32 a -> page_down32 a = a / 1024 * 1024.
Proof.
  intros Ha. replace (a / 1024 * 1024) with (Z.shiftl (Z.shiftr a 10) 10)
    by by rewrite Z.shiftl_mul_pow2, Z.shiftr_div_pow2 by done.
  unfold page_down32. apply Z.bits_inj'. intros i Hi. rewrite Z.land_spec, Z.shiftl_spec by done.
  replace 0xfffffc00 with (Z.shiftl (Z.ones 22) 10) by reflexivity. rewrite Z.shiftl_spec by done.
  destruct (Z.ltb_spec i 10) as [|Hge].
  - by rewrite !(Z.testbit_neg_r _ (i - 10)), andb_false_r by lia.
  - rewrite Z.shiftr_spec by lia. replace (i - 10 + 10) with i by lia. destruct (Z.ltb_spec i 32).
    + by rewrite Z.ones_spec_low, andb_true_r by lia.
    + by rewrite (testbit_lt 32 a) by (done || lia).
Qed.
Lemma page_down32_facts a : fits 32 a -> fits 32 (page_down32 a) /\ page_down32 a mod 1024 = 0 /\ page_down32 a / 1024 = a / 1024 /\
  a = page_down32 a + a mod 1024.
Proof.
  intros Ha. rewrite page_down32_div by done. unfold fits in *. pose proof (Z.div_mod a 1024). pose proof (Z.mod_pos_bound a 1024).
  pose proof (Z.div_pos a 1024). rewrite Z.mod_mul, Z.div_mul by lia. lia.
Qed.
Lemma tlb_index_page a : fits 32 a -> tlb_index (page_down32 a) = tlb_index a.
Proof. intros Ha. unfold tlb_index. rewrite !page_number. by destruct (page_down32_facts a Ha) as (_ & _ & -> & _). Qed.
Lemma tlb_index_bound a : 0 <= tlb_index a < Z.of_nat 256.
Proof. unfold tlb_index. change (CPU_TLB_SIZE - 1) with (Z.ones 8). rewrite Z.land_ones by done. by apply Z.mod_pos_bound. Qed.
Lemma page_match_never a : page_match a 0xffffffff = false.
Proof.
  unfold page_match, page_down32. apply Z.eqb_neq. intros H. apply (f_equal (fun x => Z.testbit x 3)) in H.
  rewrite Z.land_spec in H. by rewrite andb_false_r in H.
Qed.
Lemma page_match_flag a b f : fits 32 a -> fits 32 b -> Z.land f 0xfffffc08 = 0 ->
  page_match a (Z.lor (page_down32 b) f) = (a / 1024 =? b / 1024).
Proof.
  intros Ha Hb Hf. unfold page_match. change (Z.lor 0xfffffc00 TLB_INVALID_MASK) with 0xfffffc08.
  rewrite Z.land_lor_distr_l, Hf, Z.lor_0_r.
  assert (Z.land (page_down32 b) 0xfffffc08 = page_down32 b) as -> by (unfold page_down32; by rewrite <- Z.land_assoc).
  rewrite !page_down32_div by done. destruct (Z.eqb_spec (a / 1024) (b / 1024)) as [->|]; [apply Z.eqb_refl|apply Z.eqb_neq; lia].
Qed.
Lemma page_match_tag a b : fits 32 a -> fits 32 b -> page_match a (page_down32 b) = (a / 1024 =? b / 1024).
Proof. intros Ha Hb. by rewrite <- (page_match_flag a b 0), Z.lor_0_r. Qed.
Lemma tag_low a : Z.land (page_down32 a) 0x3ff = 0.
Proof. unfold page_down32. by rewrite <- Z.land_assoc, Z.land_0_r. Qed.
Lemma flag_low a f : Z.land (Z.lor (page_down32 a) f) 0x3ff = Z.land f 0x3ff.
Proof. by rewrite Z.land_lor_distr_l, tag_low. Qed.
Lemma land_low a : Z.land a 0x3ff = a mod 1024.
Proof. by apply (Z.land_ones a 10). Qed.

Section invariant.
  Context {D : Type} `{!Devices D} `{!TbCache D}.
  Implicit Types (e : CPUARMState) (s : machine D) (te : CPUTLBEntry).

(** The word of guest memory the page-table walk reads at [adr]. *)
Definition phys_word s (adr : Z) : Z := le_value (guest_bytes s adr 4).
Definition user (mmu_idx : Z) : bool := mmu_idx =? MMU_USER_IDX.
(** Where an access of kind [t] to [a] goes, by the page tables in memory. *)
Definition target e s (mmu_idx a t : Z) : translation := translate (phys_word s) e a t (user mmu_idx).

(** ** The invariant *)
Record tlb_dims e : Prop := {
  dims_table : dims 2 256 (tlb_table e); dims_iotlb : dims 2 256 (iotlb e)
}.
(** The entry [te] leads a load of [a] where the page tables do. *)
Definition serves_load e s (mmu_idx a : Z) te : Prop :=
  exists pa prot, target e s mmu_idx a 0 = Translated pa prot /\
    forall p, rptr readable s pa = Some p -> Z.land (addr_read te) 0x3ff = 0 /\ wrap 64 (a + addend te) = p.
(** All dirty bits of the page of RAM offset [r] are set. *)
Definition all_dirty s (r : Z) : Prop := rd (phys_ram_dirty (pmem s)) (r / 1024) = Some 0xff.
(** The entry leads a store to RAM, directly if all dirty bits are set, or through the
    functions that set them. *)
Definition serves_store e s (mmu_idx a : Z) te (io : Z) : Prop :=
  exists pa prot, target e s mmu_idx a 1 = Translated pa prot /\
    forall p, rptr is_ram s pa = Some p -> wrap 64 (a + addend te) = p /\
      io_zone io = 3 /\ wrap 64 (page_down io + a) = ram_offset s pa /\
      (Z.land (addr_write te) 0x3ff = 0 /\ all_dirty s (ram_offset s pa) \/ Z.land (addr_write te) 0x3ff = TLB_NOTDIRTY).
Definition coherent e s : Prop := forall mmu_idx index te io a,
  rd2 (tlb_table e) mmu_idx index = Some te -> rd2 (iotlb e) mmu_idx index = Some io -> fits 32 a -> tlb_index a = index ->
  (page_match a (addr_read te) = true -> serves_load e s mmu_idx a te) /\
  (page_match a (addr_write te) = true -> serves_store e s mmu_idx a te io).
(** Memory in which accesses do not fail: RAM pages are in blocks at addresses of the host, and
    the zone of the functions that set dirty bits is as io_mem_init made it. *)
Record mem_ok s : Prop := {
  mem_ok_wf : mem_wf s;
  mem_ok_backed : ram_backed s;
  mem_ok_desc : forall n d, desc_at (pmem s) n = Some d -> fits 64 (phys_offset d);
  mem_ok_host : forall a p, ram_view (pmem s) a = Some p -> fits 64 p;
  mem_ok_zone : forall w, 0 <= w < 3 -> fn_at (io_mem_write (pmem s)) 3 w = Some (notdirty_mem_write w)
}.
Record tlb_inv e s : Prop := mkTlbInv {
  ti_dims : tlb_dims e;
  ti_mem : mem_ok s;
  ti_mmu : mmu_ok e;
  ti_feature : arm_feature e ARM_FEATURE_MPU = false;
  ti_watch : watchpoints e = [];
  ti_coherent : coherent e s
}.
(** The translation of [a] reads its descriptors from memory. *)
Definition walk_ok e s a : Prop :=
  forall adr, adr ∈ walk_reads (phys_word s) e a -> is_Some (rptr readable s adr).

(** ** What the invariant depends on *)
(** The dirty bits that are all set stay so. *)
Definition dirty_kept s s' : Prop := forall r, all_dirty s r -> all_dirty s' r.
Lemma quiet_dirty s s' : quiet s s' -> dirty_kept s s'.
Proof. intros [_ _ Hd] r. unfold all_dirty. by rewrite Hd. Qed.
Lemma phys_word_agree s s' adr : agree s s' -> host_mem s' = host_mem s -> phys_word s' adr = phys_word s adr.
Proof. intros Ha Hm. unfold phys_word. by rewrite (guest_bytes_agree _ _ _ _ Ha Hm). Qed.
Lemma target_same e s e' s' m a t : arm_feature e ARM_FEATURE_MPU = false -> mmu_view e' = mmu_view e -> agree s s' ->
  host_mem s' = host_mem s -> target e' s' m a t = target e s m a t.
Proof.
  intros HM Hv Ha Hh. unfold target. rewrite (translate_view _ e e') by done. apply translate_word. intros adr.
  by apply phys_word_agree.
Qed.
Lemma mem_ok_agree s s' : agree s s' -> mem_ok s -> mem_ok s'.
Proof.
  intros Ha [H1 H2 H3 H4 H5]. split; [apply Ha|by eapply backed_agree| | |].
  - intros n d. rewrite (agree_desc _ _ Ha). apply H3.
  - intros a p. rewrite (agree_view _ _ Ha). apply H4.
  - by rewrite (agree_zones _ _ Ha).
Qed.
(** Entries are judged by the targets, the addresses and the dirty bits. *)
Lemma serves_load_same e s e' s' m a te : target e' s' m a 0 = target e s m a 0 -> agree s s' ->
  serves_load e s m a te -> serves_load e' s' m a te.
Proof.
  intros Ht Ha (pa & prot & Hp & H). exists pa, prot. rewrite Ht. split; [done|].
  intros p. rewrite (agree_rptr _ _ _ _ Ha). apply H.
Qed.
Lemma serves_store_same e s e' s' m a te io : target e' s' m a 1 = target e s m a 1 -> agree s s' -> dirty_kept s s' ->
  serves_store e s m a te io -> serves_store e' s' m a te io.
Proof.
  intros Ht Ha Hd (pa & prot & Hp & H). exists pa, prot. rewrite Ht. split; [done|].
  intros p. rewrite (agree_rptr _ _ _ _ Ha), (agree_offset _ _ _ Ha). intros Hr.
  destruct (H p Hr) as (H1 & H2 & H3 & H4). split_and!; [done..|]. destruct H4 as [[H4 H5]|H4]; [left; auto|by right].
Qed.
Lemma tlb_inv_same e s e' s' : tlb_inv e s -> tlb_table e' = tlb_table e -> iotlb e' = iotlb e -> watchpoints e' = watchpoints e ->
  mmu_view e' = mmu_view e -> agree s s' -> dirty_kept s s' ->
  (forall m a t, fits 32 a -> target e' s' m a t = target e s m a t) -> tlb_inv e' s'.
Proof.
  intros [[D1 D2] Hm Hu HF Hw Hc] Ht Hi Hwp Hv Ha Hd Htg.
  split; [split; congruence|by eapply mem_ok_agree|by eapply view_mmu_ok| |congruence|].
  - injection Hv as E1 _. unfold arm_feature in *. by rewrite E1.
  - intros m i te io a. rewrite Ht, Hi. intros H1 H2 H3 H4. destruct (Hc _ _ _ _ _ H1 H2 H3 H4) as [HL HS]. split; intros Hp.
    + apply (serves_load_same e s); auto.
    + apply (serves_store_same e s); auto.
Qed.

(** ** Filling an entry *)
(** Only the TLB differs. *)
Definition tlb_only e e' : Prop := e' = e <| tlb_table := tlb_table e' |> <| iotlb := iotlb e' |>.
Lemma tlb_only_view e e' : tlb_only e e' -> mmu_view e' = mmu_view e.
Proof. intros ->. reflexivity. Qed.
Lemma is_dirty_wp E s pd (Q : bool -> machine D -> Prop) : mem_ok s -> fits 64 pd -> is_ram pd = true ->
  is_Some (ram_view (pmem s) (page_down pd)) -> (forall b : bool, (b = true -> all_dirty s (page_down pd)) -> Q b s) -> wp E (cpu_physical_memory_is_dirty pd) Q s.
Proof.
  intros Hok Hf Hr [q Hq] HQ. unfold cpu_physical_memory_is_dirty. rewrite page_number.
  destruct (mem_ok_wf _ Hok) as [_ Hw].
  assert (0 <= page_down pd < last_ram_offset (pmem s)) as Hb.
  { destruct (decide (0 <= page_down pd < last_ram_offset (pmem s))) as [|Hn]; [done|]. apply ram_view_None in Hn; [|done]. congruence. }
  pose proof (dirty_bound _ _ Hw Hb) as Hi. rewrite page_down_div in Hi by done.
  destruct (rd_Some _ _ Hi) as (d & Hd & _). wp_step. wp_step. wp_step. eapply deref_wp; [exact Hd|]. wp_step. apply HQ.
  intros ->%Z.eqb_eq. unfold all_dirty. by rewrite page_down_div.
Qed.
Lemma set_table_wp E e mmu_idx index te (Q : unit -> CPUARMState -> Prop) :
  dims 2 256 (tlb_table e) -> 0 <= mmu_idx < 2 -> 0 <= index < 256 ->
  (forall t, dims 2 256 t -> (forall m i, rd2 t m i = if (m =? mmu_idx) && (i =? index) then Some te else rd2 (tlb_table e) m i) ->
     Q tt (e <| tlb_table := t |>)) -> wp E (set_entry mmu_idx index te) Q e.
Proof.
  intros Hd Hm Hi HQ. destruct (wr2_spec 2 256 _ mmu_idx index Hd Hm Hi te) as (t & Hw & Ht & Hr).
  unfold set_entry. wp_step. wp_step. wp_step. eapply deref_wp; [exact Hw|]. wp_step. by apply HQ.
Qed.
Lemma set_iotlb_wp E e mmu_idx index v (Q : unit -> CPUARMState -> Prop) :
  dims 2 256 (iotlb e) -> 0 <= mmu_idx < 2 -> 0 <= index < 256 ->
  (forall t, dims 2 256 t -> (forall m i, rd2 t m i = if (m =? mmu_idx) && (i =? index) then Some v else rd2 (iotlb e) m i) ->
     Q tt (e <| iotlb := t |>)) -> wp E (set_iotlb mmu_idx index v) Q e.
Proof.
  intros Hd Hm Hi HQ. destruct (wr2_spec 2 256 _ mmu_idx index Hd Hm Hi v) as (t & Hw & Ht & Hr).
  unfold set_iotlb. wp_step. wp_step. wp_step. eapply deref_wp; [exact Hw|]. wp_step. by apply HQ.
Qed.

(** The new entry of the page [vaddr], for the frame [paddr] of memory. *)
Record filled s (vaddr paddr prot : Z) te (io : Z) : Prop := mkFilled {
  fl_read : addr_read te = (if truth (Z.land prot PAGE_READ) then vaddr else 0xffffffff);
  fl_addend : forall p, rptr readable s paddr = Some p -> addend te = wrap 64 (p - vaddr);
  fl_write : truth (Z.land prot PAGE_WRITE) = false -> addr_write te = 0xffffffff;
  fl_tag : truth (Z.land prot PAGE_WRITE) = true -> exists f, addr_write te = Z.lor vaddr f /\ Z.land f 0xfffffc08 = 0;
  fl_ram : forall p, truth (Z.land prot PAGE_WRITE) = true -> rptr is_ram s paddr = Some p ->
    addr_write te = vaddr /\ all_dirty s (ram_offset s paddr) \/ addr_write te = Z.lor vaddr TLB_NOTDIRTY;
  fl_io : forall p, rptr is_ram s paddr = Some p -> io = wrap 64 (Z.lor (ram_offset s paddr) IO_MEM_NOTDIRTY - vaddr)
}.
Lemma exec_bits prot w : Z.land PAGE_EXEC w = 0 ->
  truth (Z.land (if truth (Z.land prot PAGE_READ) then Z.lor prot PAGE_EXEC else prot) w) = truth (Z.land prot w).
Proof. intros Hw. destruct (truth (Z.land prot PAGE_READ)); [|done]. by rewrite Z.land_lor_distr_l, Hw, Z.lor_0_r. Qed.
Lemma rptr_aligned ok s paddr p : rptr ok s paddr = Some p -> paddr mod 1024 = 0 ->
  exists d, desc_at (pmem s) (paddr / 1024) = Some d /\ ok (phys_offset d) = true /\
    ram_view (pmem s) (page_down (phys_offset d)) = Some p /\ ram_offset s paddr = page_down (phys_offset d).
Proof.
  unfold rptr, ram_offset. intros Hp Hal. rewrite Hal in Hp |- *. destruct (desc_at (pmem s) (paddr / 1024)) as [d|]; [|discriminate Hp].
  cbn in Hp. exists d. rewrite Z.add_0_r. destruct (ok (phys_offset d)); [|discriminate Hp].
  destruct (ram_view (pmem s) (page_down (phys_offset d))) as [q|]; [|discriminate Hp]. cbn in Hp. rewrite Z.add_0_r in Hp.
  injection Hp as ->. done.
Qed.
Lemma is_ram_off pd : is_ram pd = true <-> page_off pd = 0.
Proof. apply Z.eqb_eq. Qed.
Lemma write_tag_flag pd vaddr dirty : exists f, write_tag pd vaddr dirty = Z.lor vaddr f /\ Z.land f 0xfffffc08 = 0.
Proof.
  unfold write_tag. destruct (_ || _); [by exists TLB_MMIO|]. destruct (_ && _); [by exists TLB_NOTDIRTY|].
  exists 0. by rewrite Z.lor_0_r.
Qed.

Lemma tlb_set_page_wp E e s vaddr paddr prot mmu_idx p (Q : Z -> CPUARMState * machine D -> Prop) :
  tlb_dims e -> mem_ok s -> watchpoints e = [] -> 0 <= mmu_idx < 2 -> rptr readable s paddr = Some p -> paddr mod 1024 = 0 ->
  (forall e' s' te io, tlb_only e e' -> tlb_dims e' -> quiet s s' -> filled s vaddr paddr prot te io ->
     (forall m i, rd2 (tlb_table e') m i = if (m =? mmu_idx) && (i =? tlb_index vaddr) then Some te else rd2 (tlb_table e) m i) ->
     (forall m i, rd2 (iotlb e') m i = if (m =? mmu_idx) && (i =? tlb_index vaddr) then Some io else rd2 (iotlb e) m i) ->
     Q 0 (e', s')) ->
  wp E (tlb_set_page vaddr paddr prot mmu_idx) Q (e, s).
Proof.
  intros [Ht Hi] Hok Hwp Hm Hp Hal HQ. pose proof (tlb_index_bound vaddr) as Hx. pose proof (mem_ok_wf _ Hok) as Hwf.
  destruct (rptr_aligned _ _ _ _ Hp Hal) as (d & Hd & Hrd & Hv & Hoff). unfold readable in Hrd. apply negb_true_iff in Hrd.
  unfold tlb_set_page. set (prot' := if truth (Z.land prot PAGE_READ) then Z.lor prot PAGE_EXEC else prot).
  assert (truth (Z.land prot' PAGE_READ) = truth (Z.land prot PAGE_READ)) as HR by by apply exec_bits.
  assert (truth (Z.land prot' PAGE_WRITE) = truth (Z.land prot PAGE_WRITE)) as HW by by apply exec_bits.
  unfold tlb_set_page_exec. wp_step. apply wp_on_cpu. wp_step. wp_step. apply wp_on_mem. apply page_of_wp; [done|].
  rewrite Hd. cbn [pd_of]. rewrite Hrd, Hwp, HR, HW. cbn [existsb]. wp_step. apply wp_on_mem.
  eapply ram_ptr_wp; [done|exact Hv|]. intros s1 Hag Hh Hdy _. wp_step. apply wp_on_cpu. apply set_iotlb_wp; [done..|].
  intros io Hdio Hio. wp_step. set (e1 := e <| iotlb := io |>).
  assert (quiet s s1) as Hq by done.
  (* the entry, once the dirty bits are known *)
  assert (forall dirty : bool, (is_ram (phys_offset d) = true -> truth (Z.land prot PAGE_WRITE) = true -> dirty = true ->
    all_dirty s (page_down (phys_offset d))) -> forall c,
    wp E (on_cpu (set_entry mmu_idx (tlb_index vaddr) (mkTlb (if truth (Z.land prot PAGE_READ) then vaddr else 0xffffffff)
      (if truth (Z.land prot PAGE_WRITE) then write_tag (phys_offset d) vaddr dirty else 0xffffffff) c (wrap 64 (p - vaddr)))) ;; mret 0)
      Q (e1, s1)) as Hset.
  { intros dirty Hdirty c. wp_step. apply wp_on_cpu. apply set_table_wp; [done..|]. intros t Hdt Hrt. wp_step.
    eapply HQ; [reflexivity|by split|exact Hq| |exact Hrt|exact Hio]. split; cbn [addr_read addr_write addend].
    - done.
    - intros p' Hp'. by rewrite Hp in Hp'; injection Hp' as ->.
    - by intros ->.
    - intros ->. apply write_tag_flag.
    - intros p' HW' Hp'. rewrite HW'. destruct (rptr_aligned _ _ _ _ Hp' Hal) as (d' & Hd' & Hr' & _ & Hoff').
      rewrite Hd in Hd'. injection Hd' as <-. rewrite Hoff. pose proof Hr' as H0%is_ram_off. unfold write_tag, is_ram in *. rewrite H0.
      assert (Z.land (phys_offset d) IO_MEM_ROMD = 0) as ->.
      { change IO_MEM_ROMD with (Z.land (TARGET_PAGE_SIZE - 1) IO_MEM_ROMD). rewrite Z.land_assoc.
        change (Z.land (page_off (phys_offset d)) IO_MEM_ROMD = 0). by rewrite H0. }
      cbn. destruct dirty; [left; auto|by right].
    - intros p' Hp'. destruct (rptr_aligned _ _ _ _ Hp' Hal) as (d' & Hd' & Hr' & _ & Hoff').
      rewrite Hd in Hd'. injection Hd' as <-. rewrite Hoff. pose proof Hr' as H0%is_ram_off. unfold iotlb_of. cbn [pd_of]. by rewrite H0. }
  match goal with |- wp _ (if ?b then _ else _) _ _ => destruct b eqn:Hb end.
  - apply andb_prop in Hb as [Hb Hram]. apply wp_on_mem.
    apply is_dirty_wp; [by eapply mem_ok_agree|by eapply mem_ok_desc|done|by rewrite (agree_view _ _ Hag), Hv|].
    intros b Hb2. apply Hset. intros _ _ Hbt. specialize (Hb2 Hbt). unfold all_dirty in *. by rewrite <- Hdy.
  - wp_step. by apply Hset.
Qed.

(** ** A new entry serves every address of its page *)
(** The host address of [b], in the page of [a]. *)
Lemma rptr_moved ok s (a b pa pb p : Z) : fits 32 a -> fits 32 b -> fits 32 pa -> a / 1024 = b / 1024 -> page_eq pa pb ->
  Z.land pb 0x3ff = Z.land b 0x3ff -> rptr ok s pb = Some p -> rptr ok s (page_down32 pa) = Some (p - b mod 1024).
Proof.
  intros Ha Hb Hpa Hpg Hpp Hlo Hp. rewrite !land_low in Hlo. apply page_eq_div in Hpp.
  destruct (page_down32_facts pa Hpa) as (_ & M1 & D1 & _).
  unfold rptr in *. rewrite D1, M1, Hpp. destruct (desc_at (pmem s) (pb / 1024)) as [d|]; [|discriminate Hp]. cbn in *.
  destruct (ok (phys_offset d)); [|discriminate Hp]. destruct (ram_view (pmem s) (page_down (phys_offset d))); [|discriminate Hp].
  cbn in *. injection Hp as <-. rewrite Hlo. f_equal. lia.
Qed.
Lemma rptr_fits ok s pa p : mem_ok s -> rptr ok s pa = Some p -> fits 64 p.
Proof.
  intros Hok Hp. destruct (rptr_offset _ _ _ _ (mem_ok_wf _ Hok) Hp) as [Hv _]. exact (mem_ok_host _ Hok _ _ Hv).
Qed.
Lemma addend_moved ok s (a b pb p : Z) : mem_ok s -> fits 32 a -> fits 32 b -> a / 1024 = b / 1024 -> rptr ok s pb = Some p ->
  wrap 64 (b + wrap 64 (p - b mod 1024 - page_down32 a)) = p.
Proof.
  intros Hok Ha Hb Hpg Hp. destruct (page_down32_facts b Hb) as (_ & _ & _ & E3). rewrite (page_down32_div a), Hpg, <- page_down32_div by done.
  unfold wrap. rewrite Zplus_mod_idemp_r. replace (b + (p - b mod 1024 - page_down32 b)) with p by lia.
  apply Z.mod_small. by eapply rptr_fits.
Qed.
Lemma notdirty_zone r v : r mod 1024 = 0 -> 0 <= r -> v mod 1024 = 0 ->
  io_zone (wrap 64 (Z.lor r IO_MEM_NOTDIRTY - v)) = 3 /\ page_down (wrap 64 (Z.lor r IO_MEM_NOTDIRTY - v)) = wrap 64 (r - v).
Proof.
  intros Hr H0 Hv. assert (Z.lor r IO_MEM_NOTDIRTY = r + 24) as ->.
  { pose proof (or_disjoint (r / 1024) 24 10 ltac:(lia) ltac:(done)) as H'. change (2 ^ 10) with 1024 in H'.
    change IO_MEM_NOTDIRTY with 24. pose proof (Z.div_mod r 1024). replace (r / 1024 * 1024) with r in H' by lia. done. }
  set (x := wrap 64 (r + 24 - v)).
  assert (x mod 1024 = 24) as Hx.
  { unfold x, wrap. rewrite Z.mod_mod_divide by (exists (2 ^ 54); reflexivity).
    replace (r + 24 - v) with (24 + (r / 1024 - v / 1024) * 1024) by (pose proof (Z.div_mod r 1024); pose proof (Z.div_mod v 1024); lia).
    by rewrite Z.mod_add. }
  assert (fits 64 x) as Fx by by apply fits_wrap. split.
  - unfold io_zone. rewrite Z.shiftr_div_pow2 by done. change (2 ^ IO_MEM_SHIFT) with 8. change (IO_MEM_NB_ENTRIES - 1) with (Z.ones 7).
    rewrite Z.land_ones by done. change (2 ^ 7) with 128.
    pose proof (Z.div_mod x 1024 ltac:(lia)) as Ex. rewrite Hx in Ex.
    replace (x / 8) with (3 + x / 1024 * 128) by (apply (Z.div_unique _ _ _ 0); lia). by rewrite Z.mod_add.
  - rewrite page_down_mod, Hx by done. unfold x, wrap. symmetry. rewrite (Z.mod_eq (r - v)), (Z.mod_eq (r + 24 - v)) by lia.
    assert ((r - v) / 2 ^ 64 = (r + 24 - v) / 2 ^ 64); [|lia].
    pose proof (Z.div_mod (r - v) 1024). assert ((r - v) mod 1024 = 0) as Hm.
    { rewrite Zminus_mod, Hr, Hv. done. }
    change (2 ^ 64) with (1024 * 2 ^ 54). rewrite <- !Z.div_div by lia. f_equal.
    rewrite Hm in *. apply (Z.div_unique _ _ _ 24); lia.
Qed.

Lemma fill_serves e s mmu_idx a b t te io pa prot p :
  mmu_ok e -> arm_feature e ARM_FEATURE_MPU = false -> mem_ok s -> fits 32 a -> fits 32 b ->
  target e s mmu_idx a t = Translated pa prot -> rptr readable s (page_down32 pa) = Some p ->
  filled s (page_down32 a) (page_down32 pa) prot te io ->
  (page_match b (addr_read te) = true -> serves_load e s mmu_idx b te) /\
  (page_match b (addr_write te) = true -> serves_store e s mmu_idx b te io).
Proof.
  intros He HF Hok Ha Hb Ht Hp [Fr Fa Fw Ft Fm Fi].
  (* what the translation of [a] says about [b], for an access the page allows *)
  assert (forall t', t' = 0 \/ t' = 1 -> allows prot t' = true -> a / 1024 = b / 1024 ->
    exists pb, target e s mmu_idx b t' = Translated pb prot /\ page_eq pa pb /\ Z.land pb 0x3ff = Z.land b 0x3ff) as Hmv.
  { intros t' Ht' Hal Hpg. unfold target in *. pose proof (translate_total (phys_word s) e a t (user mmu_idx)) as Hta. rewrite Ht in Hta.
    destruct (grants_get_phys_addr _ e (user mmu_idx) t t' Ht' a HF _ _ _ _ Hta) as (_ & r & Hr0 & Hcase).
    rewrite translate_total in Hr0. injection Hr0 as Hr0. rewrite Hal in Hcase. subst r.
    pose proof (translate_page (phys_word s) e a b t' (user mmu_idx) He Ha Hb Hpg) as Hmv. rewrite Hcase in Hmv.
    destruct (translate (phys_word s) e b t' (user mmu_idx)) as [pb prot'|c]; [|done]. destruct Hmv as (-> & Hpg' & _ & Hlo).
    by exists pb. }
  pose proof (translate_fits _ _ _ _ _ _ _ HF Ha Ht) as Fpa. destruct (page_down32_facts pa Fpa) as (_ & M1 & D1 & _).
  split; intros Hpm.
  - rewrite Fr in Hpm. destruct (truth (Z.land prot PAGE_READ)) eqn:HR; [|by rewrite page_match_never in Hpm].
    rewrite page_match_tag in Hpm by done. apply Z.eqb_eq in Hpm. symmetry in Hpm.
    destruct (Hmv 0 (or_introl eq_refl) HR Hpm) as (pb & Hb0 & Hpg & Hlo). exists pb, prot. split; [exact Hb0|]. intros q Hq.
    rewrite Fr. split; [apply tag_low|].
    rewrite (Fa _ (rptr_moved _ s a b pa pb q Ha Hb Fpa Hpm Hpg Hlo Hq)). by eapply addend_moved.
  - destruct (truth (Z.land prot PAGE_WRITE)) eqn:HW; [|by rewrite Fw, page_match_never in Hpm].
    destruct (Ft eq_refl) as (f & Hf & Hfm). rewrite Hf, page_match_flag in Hpm by done. apply Z.eqb_eq in Hpm. symmetry in Hpm.
    destruct (Hmv 1 (or_intror eq_refl) HW Hpm) as (pb & Hb0 & Hpg & Hlo). exists pb, prot. split; [exact Hb0|]. intros q Hq.
    pose proof (rptr_moved _ s a b pa pb q Ha Hb Fpa Hpm Hpg Hlo Hq) as Hq0.
    split; [rewrite (Fa _ (ram_readable _ _ _ Hq0)); by eapply addend_moved|].
    assert (ram_offset s pb = ram_offset s (page_down32 pa) + b mod 1024) as Hoff.
    { rewrite !land_low in Hlo. apply page_eq_div in Hpg. unfold ram_offset. rewrite D1, M1, Hpg, Hlo.
      unfold rptr in Hq. destruct (desc_at (pmem s) (pb / 1024)); [lia|discriminate Hq]. }
    destruct (rptr_aligned _ _ _ _ Hq0 M1) as (d & _ & _ & _ & Hod).
    assert (ram_offset s (page_down32 pa) mod 1024 = 0) as Hal by (rewrite Hod; apply page_down_aligned).
    destruct (rptr_offset _ _ _ _ (mem_ok_wf _ Hok) Hq0) as [_ Hbd].
    destruct (rptr_offset _ _ _ _ (mem_ok_wf _ Hok) Hq) as [_ Hbq].
    destruct (page_down32_facts a Ha) as (_ & Ma & _). destruct (page_down32_facts b Hb) as (_ & _ & _ & Eb).
    destruct (notdirty_zone _ (page_down32 a) Hal ltac:(lia) Ma) as [Hz Hdn]. rewrite (Fi _ Hq0).
    split; [done|]. split.
    + rewrite Hdn, Hoff, (page_down32_div a), Hpm, <- page_down32_div by done. unfold wrap. rewrite Zplus_mod_idemp_l.
      replace (ram_offset s (page_down32 pa) - page_down32 b + b) with (ram_offset s (page_down32 pa) + b mod 1024) by lia.
      rewrite <- Hoff. apply Z.mod_small. destruct (mem_ok_wf _ Hok) as [_ [Hfit _]]. unfold fits in Hfit. lia.
    + assert (ram_offset s pb / 1024 = ram_offset s (page_down32 pa) / 1024) as Hsame.
      { rewrite Hoff. symmetry. apply (Z.div_unique _ _ _ (b mod 1024)); [apply or_introl, Z.mod_pos_bound; lia|].
        pose proof (Z.div_mod (ram_offset s (page_down32 pa)) 1024). lia. }
      unfold all_dirty. rewrite Hsame. destruct (Fm _ eq_refl Hq0) as [[-> Hd]| ->]; [left|right]; [by rewrite tag_low|by rewrite flag_low].
Qed.

(** ** Filling *)
(** The state after an access that only fills the TLB. *)
Definition loaded e s e' s' : Prop := tlb_inv e' s' /\ tlb_only e e' /\ quiet s s'.
(** The data abort of an access of kind [t] to [a]. *)
Definition aborted (t code a : Z) e : CPUARMState :=
  e <| cp15 := (cp15 e) <| c5_data := if (t =? 1) && arm_feature e ARM_FEATURE_V6 then Z.lor code (bit 11) else code |> <| c6_data := a |> |>
    <| exception_index := EXCP_DATA_ABORT |>.

Lemma walk_wp E e s a t u (Q : translation -> CPUARMState * machine D -> Prop) :
  mmu_ok e -> mem_ok s -> walk_ok e s a ->
  (forall s', quiet s s' -> Q (translate (phys_word s) e a t u) (e, s')) ->
  wp E (on_mem (get_phys_addr ldl_phys e a t u)) Q (e, s).
Proof.
  intros He Hok Hw HQ. apply wp_on_mem.
  apply (translate_wp E (quiet s) ldl_phys (phys_word s)).
  - intros adr s1 Hin Hq. pose proof (q_agree _ _ Hq) as Hag. apply ldl_phys_wp; [apply Hag|by eapply walk_aligned| |].
    + rewrite (agree_rptr _ _ _ _ Hag). by apply Hw.
    + intros s2 Hq2. split; [apply phys_word_agree; [done|apply Hq]|]. by eapply quiet_trans.
  - apply quiet_refl, (mem_ok_wf _ Hok).
  - intros s' Hq. by apply HQ.
Qed.

Lemma fill_wp E e s mmu_idx a t (Q : bool -> CPUARMState * machine D -> Prop) :
  tlb_inv e s -> fits 32 a -> 0 <= mmu_idx < 2 -> walk_ok e s a -> t = 0 \/ t = 1 ->
  match target e s mmu_idx a t with
  | Translated pa prot => is_Some (rptr readable s pa) /\ forall e' s' te, loaded e s e' s' ->
      rd2 (tlb_table e') mmu_idx (tlb_index a) = Some te ->
      (t = 0 -> page_match a (addr_read te) = true) -> (t = 1 -> page_match a (addr_write te) = true) -> Q false (e', s')
  | Faulted code => forall s', quiet s s' -> tlb_inv (aborted t code a e) s' -> Q true (aborted t code a e, s')
  end -> wp E (tlb_fill a t mmu_idx) Q (e, s).
Proof.
  intros Hinv Ha Hm Hw Htt HQ. pose proof Hinv as [[D1 D2] Hok He HF Hwp Hc]. unfold tlb_fill, cpu_arm_handle_mmu_fault.
  wp_step. wp_step. apply wp_on_cpu. wp_step. wp_step. apply walk_wp; [done..|]. intros s1 Hq.
  pose proof (q_agree _ _ Hq) as Hag. pose proof (q_mem _ _ Hq) as Hh.
  fold (user mmu_idx). fold (target e s mmu_idx a t). destruct (target e s mmu_idx a t) as [pa prot|code] eqn:Ht.
  - destruct HQ as [[p Hp] HQ]. pose proof (translate_fits _ _ _ _ _ _ _ HF Ha Ht) as Fpa.
    destruct (page_down32_facts pa Fpa) as (F1 & M1 & D1' & E1).
    assert (rptr readable s (page_down32 pa) = Some (p - pa mod 1024)) as Hp1 by (eapply (rptr_moved _ s pa pa pa pa); done).
    eapply tlb_set_page_wp; [by split|by eapply mem_ok_agree|exact Hwp|exact Hm|by rewrite (agree_rptr _ _ _ _ Hag)|exact M1|].
    intros e' s' te io Htl Hdm Hq2 Hfl Hrd Hio. wp_step. rewrite (tlb_index_page a Ha) in Hrd, Hio.
    assert (quiet s s') as Hq' by by eapply quiet_trans.
    assert (filled s (page_down32 a) (page_down32 pa) prot te io) as Hfl0.
    { destruct Hfl as [G1 G2 G3 G4 G5 G6]. split; [done| |done|done| |].
      - intros q. rewrite <- (agree_rptr _ _ readable (page_down32 pa) Hag). apply G2.
      - intros q HW. rewrite <- (agree_rptr _ _ is_ram (page_down32 pa) Hag), <- (agree_offset _ _ (page_down32 pa) Hag).
        unfold all_dirty. rewrite <- (q_dirty _ _ Hq). by apply G5.
      - intros q. rewrite <- (agree_rptr _ _ is_ram (page_down32 pa) Hag), <- (agree_offset _ _ (page_down32 pa) Hag). apply G6. }
    pose proof (tlb_only_view _ _ Htl) as Hv. pose proof (translate_allows _ _ _ _ _ _ _ HF Ht) as HA. unfold allows in HA.
    apply (HQ e' s' te).
    + split; [|done]. split; [done|eapply mem_ok_agree; [apply Hq'|done]|by eapply view_mmu_ok| | |].
      * rewrite Htl. exact HF.
      * rewrite Htl. exact Hwp.
      * intros m i te2 io2 b Hte2 Hio2 Hb Hi. rewrite Hrd in Hte2. rewrite Hio in Hio2.
        assert ((page_match b (addr_read te2) = true -> serves_load e s m b te2) /\
                (page_match b (addr_write te2) = true -> serves_store e s m b te2 io2)) as [HL HS].
        { destruct (Z.eqb_spec m mmu_idx) as [->|]; cbn [andb] in Hte2, Hio2; [|by eapply Hc].
          destruct (Z.eqb_spec i (tlb_index a)) as [Hia|]; [|by eapply Hc]. injection Hte2 as <-. injection Hio2 as <-.
          by eapply (fill_serves e s mmu_idx a b t te io pa prot (p - pa mod 1024)). }
        assert (forall t, target e' s' m b t = target e s m b t) as Htg by (intros; apply target_same; [done|done|apply Hq'..]).
        split; intros Hpm; [apply (serves_load_same e s)|apply (serves_store_same e s)]; auto; try apply Hq'. by apply quiet_dirty.
    + by rewrite Hrd, !Z.eqb_refl.
    + intros ->. destruct Hfl0 as [G1 _ _ _ _ _]. cbn in HA. rewrite G1, HA, page_match_tag by done. apply Z.eqb_refl.
    + intros ->. destruct Hfl0 as [_ _ _ G4 _ _]. destruct (G4 HA) as (f & -> & Hf). rewrite page_match_flag by done. apply Z.eqb_refl.
  - replace (t =? 2) with false by (destruct Htt as [-> | ->]; done). wp_step. wp_step. apply wp_on_cpu. unfold set_cp15_with. wp_step.
    apply wp_on_cpu. wp_step. wp_step. wp_step. apply HQ; [done|].
    apply (tlb_inv_same e s); try done; [apply quiet_dirty, Hq|]. intros m b t' _. by apply target_same.
Qed.
End invariant.
