(* ===== verification/ArmLoad.v ===== *)
(** * ArmLoad: loads through the TLB read the memory the page tables map

    A load of translated code fills the TLB where it has to and keeps it coherent; its result
    is the guest bytes at the translated address, or the data abort of the translation. *)
From S2P Require Import Prelude Physmem PhysPages PhysRam PhysZones PhysAccess PhysRw ArmCpu ArmModes ArmPsr ArmMmu ArmExc ArmEntry.
From S2P Require Import ArmWalk ArmTlb ArmTlbInv.
From stdpp Require Import sets.
#[local] Open Scope Z_scope.

Section loads.
  Context {D : Type} `{!Devices D} `{!TbCache D}.
  Implicit Types (e : CPUARMState) (s : machine D) (te : CPUTLBEntry).

(** The TLB has an entry for every access. *)
Lemma entry_exists e (s : machine D) mmu_idx a : tlb_inv e s -> 0 <= mmu_idx < 2 ->
  exists te io, rd2 (tlb_table e) mmu_idx (tlb_index a) = Some te /\ rd2 (iotlb e) mmu_idx (tlb_index a) = Some io.
Proof.
  intros Hinv Hm. destruct (ti_dims _ _ Hinv) as [D1 D2].
  destruct (rd2_Some 2 256 _ mmu_idx (tlb_index a) D1 Hm (tlb_index_bound a)) as [te Hte].
  destruct (rd2_Some 2 256 _ mmu_idx (tlb_index a) D2 Hm (tlb_index_bound a)) as [io Hio]. by exists te, io.
Qed.
(** The offset in the page is that of the translated address. *)
Lemma target_offset e s mmu_idx a t pa prot : mmu_ok e -> fits 32 a -> target e s mmu_idx a t = Translated pa prot ->
  pa mod 1024 = a mod 1024.
Proof.
  intros He Ha Ht. pose proof (translate_page (phys_word s) e a a t (user mmu_idx) He Ha Ha eq_refl) as Hmv.
  unfold target in Ht. rewrite Ht in Hmv. destruct Hmv as (_ & _ & Hx & _). by rewrite !land_low in Hx.
Qed.

(** One pass that finds the page in the TLB. *)
Lemma hit_wp E e s mmu_idx shift a te redo unaligned (Q : option Z -> CPUARMState * machine D -> Prop) :
  tlb_inv e s -> 0 <= mmu_idx < 2 -> fits 32 a -> 0 <= shift -> a mod 1024 + 2 ^ shift <= 1024 ->
  rd2 (tlb_table e) mmu_idx (tlb_index a) = Some te -> page_match a (addr_read te) = true ->
  (forall pa prot, target e s mmu_idx a 0 = Translated pa prot -> is_Some (rptr readable s pa) /\
     Q (Some (le_value (guest_bytes s pa (Z.to_nat (2 ^ shift))))) (e, s)) ->
  wp E (ld_pass false shift a mmu_idx redo unaligned) Q (e, s).
Proof.
  intros Hinv Hm Ha Hs Hlen Hte Hpm HQ. destruct (entry_exists e s mmu_idx a Hinv Hm) as (te' & io & Hte' & Hio).
  rewrite Hte in Hte'. injection Hte' as <-.
  destruct (ti_coherent _ _ Hinv _ _ _ _ _ Hte Hio Ha eq_refl) as [HL _]. destruct (HL Hpm) as (pa & prot & Ht & Hp).
  destruct (HQ _ _ Ht) as [[p Hp'] HQ']. destruct (Hp _ Hp') as [H0 Hadd].
  unfold ld_pass. wp_step. unfold get_entry. wp_step. apply wp_on_cpu. wp_step. eapply deref_wp; [exact Hte|].
  rewrite Hpm, H0. cbn [truth negb Z.eqb]. unfold spans_pages. rewrite Z.shiftl_mul_pow2, Z.mul_1_l, land_low by done.
  change TARGET_PAGE_SIZE with 1024. destruct (Z.geb_spec (a mod 1024 + 2 ^ shift - 1) 1024); [lia|].
  wp_step. apply wp_on_mem. unfold ram_read. wp_step. wp_step. rewrite Hadd.
  pose proof (target_offset _ _ _ _ _ _ _ (ti_mmu _ _ Hinv) Ha Ht) as Hpa.
  rewrite <- (guest_bytes_page s pa p); [exact HQ'|done|]. rewrite Z2Nat.id by (apply Z.pow_nonneg; lia). lia.
Qed.

(** What a load of 2^[shift] bytes at [a] gives. *)
Definition load_result e s (mmu_idx shift a : Z) (r : option Z) e' s' : Prop :=
  match target e s mmu_idx a 0 with
  | Translated pa _ => r = Some (le_value (guest_bytes s pa (Z.to_nat (2 ^ shift)))) /\ tlb_only e e'
  | Faulted code => r = None /\ e' = aborted 0 code a e
  end /\ tlb_inv e' s' /\ quiet s s'.

(** C20: a load inside a page, from any state of the TLB the emulator has kept coherent, is the
    load of the guest bytes at the address the page tables in memory give, or the data abort
    they give, with its status and address.  It fills the TLB if it has to and does it once,
    keeps it coherent, and changes nothing else. *)
Theorem load_through_tlb e s mmu_idx shift a fuel :
  tlb_inv e s -> fits 32 a -> 0 <= mmu_idx < 2 -> 0 <= shift -> a mod 1024 + 2 ^ shift <= 1024 ->
  walk_ok e s a -> (forall pa prot, target e s mmu_idx a 0 = Translated pa prot -> is_Some (rptr readable s pa)) ->
  exists r e' s', ld_mmu (S (S fuel)) false shift a mmu_idx (e, s) = Ok (r, (e', s')) /\ load_result e s mmu_idx shift a r e' s'.
Proof.
  intros Hinv Ha Hm Hs Hlen Hw Hram.
  assert (wp no_err (ld_mmu (S (S fuel)) false shift a mmu_idx)
    (fun r x => load_result e s mmu_idx shift a r x.1 x.2) (e, s)) as Hwp.
  { destruct (entry_exists e s mmu_idx a Hinv Hm) as (te & io & Hte & Hio).
    cbn [ld_mmu]. destruct (page_match a (addr_read te)) eqn:Hpm.
    - eapply hit_wp; [done..|]. intros pa prot Ht. split; [by eapply Hram|]. unfold load_result. rewrite Ht. cbn [fst snd].
      split; [split; [done|by destruct e]|]. split; [done|]. apply quiet_refl, (mem_ok_wf _ (ti_mem _ _ Hinv)).
    - unfold ld_pass at 1. wp_step. unfold get_entry. wp_step. apply wp_on_cpu. wp_step. eapply deref_wp; [exact Hte|].
      rewrite Hpm. wp_step. apply fill_wp; [done..|by left|]. unfold load_result. destruct (target e s mmu_idx a 0) as [pa prot|code] eqn:Ht.
      + split; [by eapply Hram|]. intros e' s' te' (Hi & Htl & Hq) Hte' Hpm' _. pose proof (q_agree _ _ Hq) as Hag.
        eapply hit_wp; [done..|by apply Hpm'|]. intros pa' prot' Ht'.
        rewrite (target_same e s) in Ht'; [|apply (ti_feature _ _ Hinv)|by apply tlb_only_view|done|apply Hq].
        rewrite Ht in Ht'. injection Ht' as <- <-. rewrite (agree_rptr _ _ _ _ Hag). split; [by eapply Hram|]. cbn [fst snd].
        by rewrite (guest_bytes_agree _ _ _ _ Hag (q_mem _ _ Hq)).
      + intros s' Hq Hi. wp_step. done. }
  apply wp_total_ex in Hwp as (r & [e' s'] & Hrun & Hres). by exists r, e', s'.
Qed.
End loads.

(** ** A program behind a page table *)
#[local] Existing Instance PhysRw.no_devices.
#[export] Instance no_tb_cache : TbCache unit := fun _ _ => mret tt.
(** The first word of memory is the section descriptor of the first mebibyte. *)
Definition with_contents {D} (h : Z -> Z) (z : list (list (option fn))) (s : machine D) : machine D :=
  s <| pmem := (pmem s) <| io_mem_write := z |> |> <| host_mem := h |>.
Lemma with_contents_ok {D} h z (s : machine D) : mem_wf s -> ram_backed s ->
  (forall n d, desc_at (pmem s) n = Some d -> fits 64 (phys_offset d)) -> (forall a p, ram_view (pmem s) a = Some p -> fits 64 p) ->
  (forall w, 0 <= w < 3 -> fn_at z 3 w = Some (notdirty_mem_write w)) -> mem_ok (with_contents h z s).
Proof. intros H1 H2 H3 H4 H5. split; [exact H1|exact H2|exact H3|exact H4|exact H5]. Qed.
Lemma with_contents_rptr {D} ok h z (s : machine D) a : rptr ok (with_contents h z s) a = rptr ok s a.
Proof. reflexivity. Qed.
Definition initial_zones : list (list (option fn)) := io_mem_write (default phys_init (exec io_mem_init phys_init)).
Definition paged_machine : machine unit :=
  with_contents (fun h => if h <? 0x10004 then Z.shiftr 0xc02 (8 * (h - 0x10000)) mod 256 else h mod 256) initial_zones sample.
Definition paged_cpu : CPUARMState :=
  section_cpu <| cp15 := (cp15 section_cpu) <| c2_base0 := 0 |> |>
    <| tlb_table := replicate 2 (replicate 256 s_cputlb_empty_entry) |> <| iotlb := replicate 2 (replicate 256 0) |>.
Lemma empty_dims {A} (x : A) : dims 2 256 (replicate 2 (replicate 256 x)).
Proof. split; [done|]. by repeat (apply Forall_cons; split). Qed.
Lemma rd2_replicate {A} (x y : A) i j : rd2 (replicate 2 (replicate 256 x)) i j = Some y -> y = x.
Proof.
  unfold rd2. destruct (rd _ i) as [row|] eqn:Hrow; [|discriminate].
  apply rd_lookup in Hrow as [_ Hrow]. apply lookup_replicate_1 in Hrow as [-> _]. cbn [mbind option_bind].
  intros [_ Hy]%rd_lookup. by apply lookup_replicate_1 in Hy as [-> _].
Qed.
Lemma empty_coherent {D} `{!Devices D} e (s : machine D) :
  tlb_table e = replicate 2 (replicate 256 s_cputlb_empty_entry) -> coherent e s.
Proof.
  intros Ht m i te io a. rewrite Ht. intros ->%rd2_replicate _ _ _. cbn [s_cputlb_empty_entry addr_read addr_write].
  by rewrite page_match_never.
Qed.
Lemma sample_descs n d : desc_at (pmem sample) n = Some d -> fits 64 (phys_offset d).
Proof.
  unfold desc_at, page_desc. generalize (page_index n). intros [i j].
  change (l1_phys_map (pmem sample)) with (Some sample_pages :: replicate 4095 None).
  destruct (rd _ _) as [o|] eqn:Ho; [|done]. destruct (rd_cons_replicate _ _ _ _ _ Ho) as [-> | ->]; [|done].
  cbn [mbind option_bind snd]. intros Hd. apply (rd_Forall (fun d => fits 64 (phys_offset d)) sample_pages _ _) in Hd; [done|].
  apply Forall_app. split; [|apply Forall_replicate; done]. repeat (apply Forall_cons; split; [done|]). done.
Qed.
Lemma sample_host a p : ram_view (pmem sample) a = Some p -> fits 64 p.
Proof.
  unfold ram_view. cbn -[holds]. destruct (holds a _) eqn:Hh; [|done]. cbn. intros [= <-].
  apply (holds_spec 4096 [mkBlock 0x10000 0 4096]) in Hh; [cbn in Hh; unfold fits; lia| |done|left].
  apply (tiles_cons 0x10000 4096 0 []); [apply tiles_nil|done|done].
Qed.
Lemma paged_inv : tlb_inv paged_cpu paged_machine.
Proof.
  split; [split; apply empty_dims| |split; [reflexivity..|discriminate]|reflexivity|reflexivity|by apply empty_coherent].
  apply with_contents_ok; [exact sample_wf|exact sample_backed|exact sample_descs|exact sample_host|]. intros w Hw. assert (w = 0 \/ w = 1 \/ w = 2) as [->|[->| ->]] by lia; vm_compute; reflexivity.
Qed.
Lemma paged_walk : walk_ok paged_cpu paged_machine 0x804.
Proof.
  intros adr Hin. assert (adr = 0) as ->.
  { replace (walk_reads (phys_word paged_machine) paged_cpu 0x804) with [0] in Hin by (vm_compute; reflexivity).
    apply elem_of_cons in Hin as [->|Hin]; [done|by apply elem_of_nil in Hin]. }
  exists 0x10000. unfold paged_machine. rewrite with_contents_rptr. apply ram_readable. exact (sample_rptr 0 ltac:(lia)).
Qed.
Lemma paged_target : target paged_cpu paged_machine 1 0x804 0 = Translated 0x804 READ_WRITE.
Proof. vm_compute. reflexivity. Qed.
Example load_through_tlb_witness : exists e' s',
  ld_mmu 2 false 2 0x804 1 (paged_cpu, paged_machine) = Ok (Some 0x07060504, (e', s')) /\ tlb_inv e' s' /\ tlb_only paged_cpu e'.
Proof.
  destruct (load_through_tlb paged_cpu paged_machine 1 2 0x804 0 paged_inv) as (r & e' & s' & Hrun & Hres & Hinv & _);
    [done|done|done|done|exact paged_walk| |].
  - intros pa prot. rewrite paged_target. intros [= <- _]. exists 0x10804. unfold paged_machine. rewrite with_contents_rptr.
    apply ram_readable. exact (sample_rptr 0x804 ltac:(lia)).
  - rewrite paged_target in Hres. destruct Hres as [-> Hres]. exists e', s'.
    split; [|split; [exact Hinv|exact Hres]]. rewrite Hrun. do 3 f_equal.
Defined.
