(* ===== verification/ArmStore.v ===== *)
(** * ArmStore: stores through the TLB, and the detection of changed code

    An aligned store of translated code writes the bytes at the translated address and sets
    the dirty bits of the page, directly or through the functions of the NOTDIRTY zone;
    the invariant of the TLB is kept as long as the store changes no translation.  When the
    translator protects a page that holds code, no entry of the TLB lets a store reach the
    page without a check.  [TbLaws] is what the translator promises: invalidating code changes
    no memory and only sets dirty bits. *)
From S2P Require Import Prelude Physmem PhysPages PhysRam PhysZones PhysAccess PhysRw ArmCpu ArmModes ArmPsr ArmMmu ArmExc ArmEntry.
From S2P Require Import ArmWalk ArmTlb ArmTlbInv ArmLoad.
From stdpp Require Import sets.
#[local] Open Scope Z_scope.

(** Memory is as before, and dirty bits have only been set. *)
Record dirtied {D} (s s' : machine D) : Prop := mkDirtied {
  dd_agree : agree s s'; dd_mem : host_mem s' = host_mem s;
  dd_bits : forall i d, rd (phys_ram_dirty (pmem s)) i = Some d -> exists x, fits 8 x /\ rd (phys_ram_dirty (pmem s')) i = Some (Z.lor d x)
}.
Class TbLaws (D : Type) `{!TbCache D} := tb_law : forall E addr len e (s : machine D) (Q : unit -> CPUARMState * machine D -> Prop),
  mem_wf s -> (forall s', dirtied s s' -> Q tt (e, s')) -> wp E (tb_invalidate_phys_page_fast addr len) Q (e, s).

(** ** Dirty bits *)
Lemma lor_ff x : fits 8 x -> Z.lor 0xff x = 0xff.
Proof.
  intros Hx. apply Z.bits_inj'. intros i Hi. rewrite Z.lor_spec. change 0xff with (Z.ones 8). destruct (Z.ltb_spec i 8).
  - by rewrite Z.ones_spec_low by lia.
  - by rewrite (testbit_lt 8 x), orb_false_r by (done || lia).
Qed.
Lemma marked_lor d x : Z.land d 0xfd = 0xfd -> Z.land (Z.lor d x) 0xfd = 0xfd.
Proof.
  intros Hd. rewrite Z.land_lor_distr_l, Hd. apply Z.bits_inj'. intros i Hi. rewrite Z.lor_spec, Z.land_spec.
  by destruct (Z.testbit 0xfd i), (Z.testbit x i).
Qed.

Lemma le_bytes_wrap n k v : 8 * Z.of_nat n <= k -> le_bytes n (wrap k v) = le_bytes n v.
Proof.
  intros Hk. unfold le_bytes. apply map_ext_in. intros i Hi%in_seq. apply Z.bits_inj'. intros j Hj.
  change 256 with (2 ^ 8). destruct (Z.ltb_spec j 8).
  - rewrite !Z.mod_pow2_bits_low, !Z.shiftr_spec, wrap_testbit by lia. replace (j + 8 * Z.of_nat i <? k) with true by lia. done.
  - by rewrite !Z.mod_pow2_bits_high by lia.
Qed.

Section stores.
  Context {D : Type} `{!Devices D} `{!TbCache D} `{!TbLaws D}.
  Implicit Types (e : CPUARMState) (s : machine D) (te : CPUTLBEntry).

Definition with_dirty (l : list Z) s : machine D := s <| pmem := (pmem s) <| phys_ram_dirty := l |> |>.
Lemma agree_dirty l s : mem_wf s -> length l = length (phys_ram_dirty (pmem s)) -> agree s (with_dirty l s).
Proof.
  intros [Hp (Hf & Hd & Hb)] Hl. split; [|done..]. split; [exact Hp|]. split; [exact Hf|]. split; [|exact Hb].
  cbn. by rewrite Hl.
Qed.
Lemma agree_host h s : mem_wf s -> agree s (s <| host_mem := h |>).
Proof. intros Hw. by split. Qed.
Lemma dirtied_kept s s' : dirtied s s' -> dirty_kept s s'.
Proof. intros [_ _ Hb] r Hr. destruct (Hb _ _ Hr) as (x & Hx & Hd). unfold all_dirty. by rewrite Hd, lor_ff. Qed.
Lemma dirtied_marked s s' a : dirtied s s' -> marked s a -> marked s' a.
Proof. intros [_ _ Hb] (d & Hd & Hl). destruct (Hb _ _ Hd) as (x & _ & Hd'). exists (Z.lor d x). split; [done|by apply marked_lor]. Qed.
Lemma dirtied_refl s : mem_wf s -> dirtied s s.
Proof. intros Hw. split; [by apply agree_refl|done|]. intros i d Hd. exists 0. by rewrite Z.lor_0_r. Qed.
Lemma get_dirty_wp E e s r (Q : Z -> CPUARMState * machine D -> Prop) : mem_wf s -> 0 <= r < last_ram_offset (pmem s) ->
  (forall d, rd (phys_ram_dirty (pmem s)) (r / 1024) = Some d -> Q d (e, s)) -> wp E (get_dirty r) Q (e, s).
Proof.
  intros Hw Hr HQ. unfold get_dirty. wp_step. apply wp_on_mem. wp_step. rewrite page_number.
  destruct (rd_Some _ _ (dirty_bound _ _ (proj2 Hw) Hr)) as (d & Hd & _). eapply deref_wp; [exact Hd|]. by apply HQ.
Qed.

(** ** The functions of the NOTDIRTY zone *)
Lemma notdirty_write_wp E e s w pa p v (Q : unit -> CPUARMState * machine D -> Prop) :
  mem_ok s -> 0 <= w -> rptr is_ram s pa = Some p -> pa mod 1024 + Z.of_nat (bytes_of w) <= 1024 ->
  (forall s' (full : bool), written s pa (le_bytes (bytes_of w) v) s' -> dirty_kept s s' ->
     (full = true -> all_dirty s' (ram_offset s pa)) ->
     wp E (when full (on_cpu (tlb_set_dirty (mem_io_vaddr e)))) Q (e, s')) ->
  wp E (notdirty_write w (ram_offset s pa) v) Q (e, s).
Proof.
  intros Hok Hw Hp Hlen HQ. pose proof (mem_ok_wf _ Hok) as Hwf. destruct (rptr_offset _ _ _ _ Hwf Hp) as [Hv Hb].
  unfold notdirty_write. wp_step. apply get_dirty_wp; [done..|]. intros d0 Hd0. wp_step.
  (* the flags after the code of the page has been invalidated *)
  eapply (wp_mono _ _ (fun d x => exists s1, x = (e, s1) /\ dirtied s s1 /\ rd (phys_ram_dirty (pmem s1)) (ram_offset s pa / 1024) = Some d)).
  { destruct (truth _); [wp_step; exists s; split; [done|]; split; [by apply dirtied_refl|done]|].
    wp_step. apply tb_law; [done|]. intros s1 Hd1. pose proof (dd_agree _ _ Hd1) as A1.
    apply get_dirty_wp; [apply A1|by rewrite (agree_last _ _ A1)|]. intros d Hd. by exists s1. }
  intros d x (s1 & -> & Hd1 & Hd). pose proof (dd_agree _ _ Hd1) as A1. wp_step. apply wp_on_mem.
  eapply ram_ptr_wp; [apply A1|by rewrite (agree_view _ _ A1)|]. intros s2 A2 H2 D2 _. wp_step. apply wp_on_mem. unfold ram_write. wp_step.
  set (s3 := s2 <| host_mem := _ |>). change (Z.land 0xff (wrap 32 (Z.lnot CODE_DIRTY_FLAG))) with 0xfd.
  wp_step. apply wp_on_mem. wp_step. rewrite page_number.
  assert (0 <= ram_offset s pa / 1024 < Z.of_nat (length (phys_ram_dirty (pmem s3)))) as Hi.
  { change (pmem s3) with (pmem s2). rewrite D2. by eapply rd_bound. }
  pose proof (wr_Some _ _ (Z.lor d 0xfd) Hi) as Hwr. wp_step. eapply deref_wp; [exact Hwr|]. wp_step. apply wp_on_mem. wp_step.
  set (l := <[_ := Z.lor d 0xfd]> _) in *. fold (with_dirty l s3). set (s4 := with_dirty l s3). wp_step. apply wp_on_cpu. wp_step.
  assert (agree s s3) as A3.
  { eapply agree_trans; [exact A1|]. eapply agree_trans; [exact A2|]. apply agree_host, A2. }
  assert (agree s s4) as A4.
  { eapply agree_trans; [exact A3|]. apply agree_dirty; [apply A3|]. unfold l. by rewrite length_insert. }
  assert (forall i, rd (phys_ram_dirty (pmem s4)) i = if ram_offset s pa / 1024 =? i then Some (Z.lor d 0xfd) else rd (phys_ram_dirty (pmem s1)) i) as Hrd.
  { intros i. cbn [s4 with_dirty pmem phys_ram_dirty]. rewrite (rd_wr _ _ _ _ _ Hwr). change (pmem s3) with (pmem s2). by rewrite D2. }
  apply (HQ s4 (Z.lor d 0xfd =? 0xff)).
  - apply (written_page s pa _ s4 p); [done|done|rewrite le_bytes_length; lia|done| | |].
    + change (host_mem s4) with (stores p (le_bytes (bytes_of w) v) (host_mem s2)). by rewrite H2, (dd_mem _ _ Hd1).
    + exists (Z.lor d 0xfd). rewrite Hrd, Z.eqb_refl. split; [done|]. rewrite Z.lor_comm. by apply marked_lor.
    + intros a Ha. destruct (dirtied_marked _ _ _ Hd1 Ha) as (d' & Hd' & Hl'). unfold marked. rewrite Hrd.
      destruct (Z.eqb_spec (ram_offset s pa / 1024) (a / 1024)) as [Heq|]; [|by exists d'].
      exists (Z.lor d 0xfd). split; [done|]. rewrite Z.lor_comm. by apply marked_lor.
  - intros r Hr. apply (dirtied_kept _ _ Hd1) in Hr. unfold all_dirty in *. rewrite Hrd.
    destruct (Z.eqb_spec (ram_offset s pa / 1024) (r / 1024)) as [Heq|]; [|done]. rewrite <- Heq, Hd in Hr. injection Hr as ->. done.
  - intros Hf%Z.eqb_eq. unfold all_dirty. by rewrite Hrd, Z.eqb_refl, Hf.
Qed.

(** ** Letting stores through *)
(** The processor differs in the TLB and in the address of the access only. *)
Definition store_only e e' : Prop := e' = e <| tlb_table := tlb_table e' |> <| iotlb := iotlb e' |> <| mem_io_vaddr := mem_io_vaddr e' |>.
Lemma store_only_view e e' : store_only e e' -> mmu_view e' = mmu_view e.
Proof. intros ->. reflexivity. Qed.
Lemma tlb_store_only e e' : tlb_only e e' -> store_only e e'.
Proof. unfold tlb_only, store_only. intros He. rewrite He. reflexivity. Qed.
Lemma store_only_trans e1 e2 e3 : store_only e1 e2 -> store_only e2 e3 -> store_only e1 e3.
Proof. unfold store_only. intros H1 H2. rewrite H2, H1. reflexivity. Qed.

(** Entries of a table changed one by one by [f]. *)
Lemma each_index_wp E f i e (Q : unit -> CPUARMState -> Prop) : dims 2 256 (tlb_table e) -> 0 <= i < 256 ->
  (forall t, dims 2 256 t ->
     (forall m j, rd2 t m j = if ((m =? 0) || (m =? 1)) && (j =? i) then f <$> rd2 (tlb_table e) m j else rd2 (tlb_table e) m j) ->
     Q tt (e <| tlb_table := t |>)) ->
  wp E (for_each [0; 1] (fun m => e ← get; te ← deref (rd2 (tlb_table e) m i); set_entry m i (f te))) Q e.
Proof.
  intros Hd Hi HQ. destruct (rd2_Some 2 256 _ 0 i Hd ltac:(lia) Hi) as [t0 H0]. destruct (rd2_Some 2 256 _ 1 i Hd ltac:(lia) Hi) as [t1 H1].
  cbn [for_each]. wp_step. wp_step. wp_step. wp_step. eapply deref_wp; [exact H0|]. apply set_table_wp; [done|lia|done|]. intros t Ht Hr.
  wp_step. wp_step. wp_step. wp_step. eapply deref_wp; [exact (eq_trans (Hr 1 i) H1)|]. apply set_table_wp; [done|lia|done|]. intros t' Ht' Hr'.
  wp_step. change (e <| tlb_table := t |> <| tlb_table := t' |>) with (e <| tlb_table := t' |>). apply HQ; [done|].
  intros m j. rewrite Hr'. change (tlb_table (e <| tlb_table := t |>)) with t. rewrite Hr.
  destruct (Z.eqb_spec m 0), (Z.eqb_spec m 1), (Z.eqb_spec j i); subst; cbn [andb orb Z.eqb]; try done.
  - by rewrite H0.
  - by rewrite H1.
Qed.
(** The frame of a page is the same for both privileges and all addresses of the page. *)
Lemma target_frame e s m m' a b t pa pb p q : tlb_inv e s -> fits 32 a -> fits 32 b -> a / 1024 = b / 1024 ->
  target e s m a t = Translated pa p -> target e s m' b t = Translated pb q -> pa / 1024 = pb / 1024.
Proof.
  intros Hinv Ha Hb Hpg H1 H2. unfold target in *.
  pose proof (translate_page (phys_word s) e a b t (user m) (ti_mmu _ _ Hinv) Ha Hb Hpg) as Hmv. rewrite H1 in Hmv.
  destruct (translate (phys_word s) e b t (user m)) as [pb' p'|] eqn:H3; [|done]. destruct Hmv as (_ & Hpp & _).
  rewrite (translate_user _ _ _ _ _ _ _ _ _ _ (ti_feature _ _ Hinv) H3 H2) in Hpp. by apply page_eq_div in Hpp.
Qed.
Lemma ram_offset_frame ok s pa pb p : rptr ok s pa = Some p -> pa / 1024 = pb / 1024 -> ram_offset s pa / 1024 = ram_offset s pb / 1024.
Proof.
  unfold rptr, ram_offset. intros Hp <-. destruct (desc_at (pmem s) (pa / 1024)) as [d|]; [|discriminate Hp].
  pose proof (page_down_aligned (phys_offset d)) as Hal. pose proof (Z.div_mod (page_down (phys_offset d)) 1024).
  assert (forall x, 0 <= x < 1024 -> (page_down (phys_offset d) + x) / 1024 = page_down (phys_offset d) / 1024) as Hx
    by (intros x Hx; symmetry; apply (Z.div_unique _ _ _ x); lia).
  by rewrite !Hx by (apply Z.mod_pos_bound; lia).
Qed.

(** No translation is changed: the store hits no descriptor in use. *)
Definition same_translations e s s' : Prop := forall m a t, fits 32 a -> target e s' m a t = target e s m a t.
(** After a store to the page of [a], which has set all dirty bits: entries of the page may let
    stores through. *)
Lemma set_dirty_inv e s s' a m pa prot p : tlb_inv e s -> fits 32 a -> target e s m a 1 = Translated pa prot -> rptr is_ram s pa = Some p ->
  agree s s' -> dirty_kept s s' -> all_dirty s' (ram_offset s pa) ->
  wp no_err (tlb_set_dirty a) (fun _ e' => store_only e e' /\ (same_translations e s s' -> tlb_inv e' s')) e.
Proof.
  intros Hinv Ha Ht Hp Hag Hdk Hfull. unfold tlb_set_dirty. rewrite (tlb_index_page a Ha). pose proof (ti_dims _ _ Hinv) as [D1 D2].
  apply each_index_wp; [done|apply tlb_index_bound|]. intros t Hdt Hrd. set (e' := e <| tlb_table := t |>).
  split; [reflexivity|]. intros Hst. destruct Hinv as [Hd Hok He HF Hw Hc].
  split; [by split|by eapply mem_ok_agree|exact (view_mmu_ok e e' HF eq_refl He)|exact HF|exact Hw|].
  intros m' i te io b Hte Hio Hb Hi. cbn [e' tlb_table] in Hte. rewrite Hrd in Hte.
  assert (exists te0, rd2 (tlb_table e) m' i = Some te0 /\ (te = te0 \/ te = tlb_set_dirty1 (page_down32 a) te0)) as (te0 & H0 & Hcase).
  { destruct (_ && _); [|by exists te; auto]. destruct (rd2 (tlb_table e) m' i) as [te0|]; [|discriminate Hte].
    injection Hte as <-. by exists te0; auto. }
  assert (forall t, target e' s' m' b t = target e s m' b t) as Htg.
  { intros t'. rewrite <- Hst by done. reflexivity. }
  destruct (Hc _ _ _ _ _ H0 Hio Hb Hi) as [HL HS]. destruct Hcase as [->| ->].
  { split; intros Hpm; [apply (serves_load_same e s)|apply (serves_store_same e s)]; auto. }
  unfold tlb_set_dirty1. destruct (Z.eqb_spec (addr_write te0) (Z.lor (page_down32 a) TLB_NOTDIRTY)) as [Hw0|].
  2: { split; intros Hpm; [apply (serves_load_same e s)|apply (serves_store_same e s)]; auto. }
  split; [intros Hpm; apply (serves_load_same e s); auto|]. intros Hpm.
  change (page_match b (page_down32 a) = true) in Hpm. rewrite page_match_tag in Hpm by done. apply Z.eqb_eq in Hpm.
  destruct HS as (pb & q & Hb0 & HS). { rewrite Hw0, page_match_flag by done. by apply Z.eqb_eq. }
  exists pb, q. rewrite Htg. split; [done|]. intros r. rewrite (agree_rptr _ _ _ _ Hag), (agree_offset _ _ _ Hag). intros Hr.
  destruct (HS r Hr) as (H1 & H2 & H3 & _). split_and!; [done..|]. left. split; [exact (tag_low a)|].
  pose proof (target_frame e s m m' a b 1 pa pb prot q (mkTlbInv _ _ Hd Hok He HF Hw Hc) Ha Hb (eq_sym Hpm) Ht Hb0) as Hfr.
  unfold all_dirty in *. by rewrite <- (ram_offset_frame _ _ _ _ _ Hp Hfr).
Qed.

(** ** One pass that finds the page in the TLB *)
(** The effect of a store of [n] bytes of [v] to RAM at [pa]. *)
Record stored e s (pa v : Z) (n : nat) e' s' : Prop := mkStored {
  st_written : written s pa (le_bytes n v) s';
  st_dirty : dirty_kept s s';
  st_only : store_only e e';
  st_inv : same_translations e s s' -> tlb_inv e' s'
}.
Lemma bytes_of_shift shift : 0 <= shift -> bytes_of shift = Z.to_nat (2 ^ shift).
Proof. intros Hs. unfold bytes_of. by rewrite Z.shiftl_mul_pow2, Z.mul_1_l. Qed.
Lemma aligned_in_page a k : 0 <= k <= 10 -> a mod 2 ^ k = 0 -> a mod 1024 + 2 ^ k <= 1024.
Proof.
  intros Hk Ha. pose proof (Z.mod_pos_bound a 1024 ltac:(lia)). assert (0 < 2 ^ k) by lia.
  assert (2 ^ 10 = 2 ^ k * 2 ^ (10 - k)) as E by (rewrite <- Z.pow_add_r by lia; f_equal; lia).
  assert ((a mod 1024) mod 2 ^ k = 0) as Hm by (rewrite Z.mod_mod_divide; [done|exists (2 ^ (10 - k)); rewrite Z.mul_comm; exact E]).
  pose proof (Z.div_mod (a mod 1024) (2 ^ k) ltac:(lia)) as Hd. rewrite Hm, Z.add_0_r in Hd. change (2 ^ 10) with 1024 in E.
  set (q := a mod 1024 / 2 ^ k) in *. assert (q < 2 ^ (10 - k)) by nia. nia.
Qed.
Lemma inv_after e s s' v : tlb_inv e s -> agree s s' -> dirty_kept s s' ->
  same_translations e s s' -> tlb_inv (e <| mem_io_vaddr := v |>) s'.
Proof. intros Hinv Ha Hd Hst. apply (tlb_inv_same e s); try done. Qed.

Lemma st_hit_wp e s m shift a v te redo unaligned pa prot p (Q : option unit -> CPUARMState * machine D -> Prop) :
  tlb_inv e s -> 0 <= m < 2 -> fits 32 a -> 0 <= shift < 3 -> a mod 2 ^ shift = 0 ->
  rd2 (tlb_table e) m (tlb_index a) = Some te -> page_match a (addr_write te) = true ->
  target e s m a 1 = Translated pa prot -> rptr is_ram s pa = Some p ->
  (forall e' s', stored e s pa v (bytes_of shift) e' s' -> Q (Some tt) (e', s')) ->
  wp no_err (st_pass shift a v m redo unaligned) Q (e, s).
Proof.
  intros Hinv Hm Ha Hs Hal Hte Hpm Ht Hp HQ. destruct (entry_exists e s m a Hinv Hm) as (te' & io & Hte' & Hio).
  rewrite Hte in Hte'. injection Hte' as <-.
  destruct (ti_coherent _ _ Hinv _ _ _ _ _ Hte Hio Ha eq_refl) as [_ HS]. destruct (HS Hpm) as (pa' & prot' & Ht' & HS').
  rewrite Ht in Ht'. injection Ht' as <- <-. destruct (HS' _ Hp) as (Hadd & Hz & Hphys & Hcase).
  pose proof (target_offset _ _ _ _ _ _ _ (ti_mmu _ _ Hinv) Ha Ht) as Hpa. pose proof (ti_mem _ _ Hinv) as Hok.
  pose proof (mem_ok_wf _ Hok) as Hwf. pose proof (aligned_in_page a shift ltac:(lia) Hal) as Hlen.
  assert (Z.of_nat (bytes_of shift) = 2 ^ shift) as Hn by (rewrite bytes_of_shift, Z2Nat.id; [done|apply Z.pow_nonneg|]; lia).
  unfold st_pass. wp_step. unfold get_entry. wp_step. apply wp_on_cpu. wp_step. eapply deref_wp; [exact Hte|]. rewrite Hpm.
  rewrite Z.shiftl_mul_pow2, Z.mul_1_l by lia. destruct Hcase as [[-> Hfull]| ->]; cbn [truth negb Z.eqb].
  - (* directly *)
    unfold spans_pages. rewrite land_low. change TARGET_PAGE_SIZE with 1024.
    destruct (Z.geb_spec (a mod 1024 + 2 ^ shift - 1) 1024); [lia|]. wp_step. apply wp_on_mem. unfold ram_write. wp_step. wp_step.
    rewrite Hadd, <- bytes_of_shift by lia. set (s' := s <| host_mem := _ |>).
    assert (agree s s') as Hag by by apply agree_host.
    assert (dirty_kept s s') as Hdk by exact (fun r Hr => Hr). apply HQ. split; [|exact Hdk|by destruct e|].
    + apply (written_page s pa _ s' p); [done|done|rewrite le_bytes_length; lia|done|reflexivity| |done].
      exists 0xff. by split.
    + intros Hst. apply (inv_after e s s' (mem_io_vaddr e)) in Hst; [|done..]. replace e with (e <| mem_io_vaddr := mem_io_vaddr e |>) by by destruct e. exact Hst.
  - (* through the functions of the NOTDIRTY zone *)
    change (truth TLB_NOTDIRTY) with true. cbn iota.
    assert (Z.land a (2 ^ shift - 1) = 0) as ->.
    { rewrite <- Hal, <- Z.land_ones, Z.ones_equiv by lia. done. }
    change (truth 0) with false. cbn iota. wp_step. unfold get_iotlb. wp_step. apply wp_on_cpu. wp_step. eapply deref_wp; [exact Hio|].
    wp_step. unfold tlb_io_write. rewrite Hz, Hphys. wp_step. apply wp_on_cpu. wp_step. replace (shift <=? 2) with true by lia.
    unfold zone_write. wp_step. apply wp_on_mem. wp_step. rewrite (mem_ok_zone _ Hok) by lia.
    set (e1 := e <| mem_io_vaddr := a |>).
    apply (notdirty_write_wp _ e1 s shift pa p); [done|lia|done|lia|]. intros s' full Hw Hdk Hf.
    rewrite le_bytes_wrap in Hw by (rewrite Hn; assert (shift = 0 \/ shift = 1 \/ shift = 2) as [->|[->| ->]] by lia; done).
    pose proof (w_agree _ _ _ _ Hw) as Hag. wp_step. destruct full; [|wp_step; apply HQ; split; [done|done|reflexivity|]].
    + apply wp_on_cpu. assert (tlb_inv e1 s) as Hinv1.
      { apply (inv_after e s s a); [done|by apply agree_refl|exact (fun r Hr => Hr)|exact (fun _ _ _ _ => eq_refl)]. }
      eapply wp_mono; [apply (set_dirty_inv e1 s s' a m pa prot p); auto|]. intros [] e' [Ho Hi]. wp_step. apply HQ.
      split; [done|done| |exact Hi]. rewrite Ho. reflexivity.
    + intros Hst. by apply (inv_after e s s').
Qed.

Lemma written_quiet s s1 pa bs s' : mem_wf s -> quiet s s1 -> written s1 pa bs s' -> written s pa bs s'.
Proof.
  intros Hwf [Ha Hh Hd] [W1 W2 W3 W4 W5].
  assert (forall i, wptr s1 pa i = wptr s pa i) as Hw by (intros i; unfold wptr; by rewrite (agree_rptr _ _ _ _ Ha)).
  assert (forall a, marked s a <-> marked s1 a) as Hm by (intros a; unfold marked; by rewrite Hd).
  split.
  - by eapply agree_trans.
  - intros i b Hb. rewrite <- Hw. by apply W2.
  - intros h Hx. rewrite W3, Hh; [done|]. intros i Hi. rewrite Hw. by apply Hx.
  - intros i Hi. rewrite <- (agree_offset _ _ _ Ha). by apply W4.
  - intros a Hx. by apply W5, Hm.
Qed.

(** C18: an aligned store of 1, 2 or 4 bytes, from any state of the TLB the emulator has kept
    coherent, writes these bytes to the guest memory at the address the page tables give, and
    nowhere else, and marks the page dirty; or it is the data abort the page tables give.  It
    fills the TLB if it has to.  Unless it changes a translation, the TLB stays coherent. *)
Theorem store_through_tlb e s m shift a v fuel :
  tlb_inv e s -> fits 32 a -> 0 <= m < 2 -> 0 <= shift < 3 -> a mod 2 ^ shift = 0 ->
  walk_ok e s a -> (forall pa prot, target e s m a 1 = Translated pa prot -> is_Some (rptr is_ram s pa)) ->
  exists r e' s', st_mmu (S (S fuel)) shift a v m (e, s) = Ok (r, (e', s')) /\
    match target e s m a 1 with
    | Translated pa _ => r = Some tt /\ stored e s pa v (bytes_of shift) e' s'
    | Faulted code => r = None /\ e' = aborted 1 code a e /\ tlb_inv e' s' /\ quiet s s'
    end.
Proof.
  intros Hinv Ha Hm Hs Hal Hw Hram.
  assert (wp no_err (st_mmu (S (S fuel)) shift a v m) (fun r x =>
    match target e s m a 1 with
    | Translated pa _ => r = Some tt /\ stored e s pa v (bytes_of shift) x.1 x.2
    | Faulted code => r = None /\ x.1 = aborted 1 code a e /\ tlb_inv x.1 x.2 /\ quiet s x.2
    end) (e, s)) as Hwp.
  { destruct (entry_exists e s m a Hinv Hm) as (te & io & Hte & Hio). cbn [st_mmu]. destruct (page_match a (addr_write te)) eqn:Hpm.
    - destruct (ti_coherent _ _ Hinv _ _ _ _ _ Hte Hio Ha eq_refl) as [_ HS]. destruct (HS Hpm) as (pa & prot & Ht & _). rewrite Ht.
      destruct (Hram _ _ Ht) as [p Hp]. by eapply (st_hit_wp e s m shift a v te _ _ pa prot p).
    - unfold st_pass at 1. wp_step. unfold get_entry. wp_step. apply wp_on_cpu. wp_step. eapply deref_wp; [exact Hte|].
      rewrite Hpm. wp_step. apply fill_wp; [done..|by right|]. destruct (target e s m a 1) as [pa prot|code] eqn:Ht.
      + destruct (Hram _ _ eq_refl) as [p Hp]. split; [exists p; by apply ram_readable|].
        intros e' s' te' (Hi & Htl & Hq) Hte' _ Hpm'. pose proof (q_agree _ _ Hq) as Hag.
        eapply (st_hit_wp e' s' m shift a v te' _ _ pa prot p); [done..|by apply Hpm'| |by rewrite (agree_rptr _ _ _ _ Hag)|].
        { rewrite <- Ht. apply target_same; [apply (ti_feature _ _ Hinv)|by apply tlb_only_view|done|apply Hq]. }
        intros e2 s2 [S1 S2 S3 S4]. cbn [fst snd]. split; [done|]. split.
        * eapply written_quiet; [apply (mem_ok_wf _ (ti_mem _ _ Hinv))|done|done].
        * intros r Hr. apply S2. by apply (quiet_dirty _ _ Hq).
        * eapply store_only_trans; [by apply tlb_store_only|done].
        * intros Hst. apply S4. intros m' b t Hb. rewrite (target_same e s e' s') by (apply (ti_feature _ _ Hinv) || by apply tlb_only_view || apply Hq).
          rewrite <- Hst by done. unfold target. apply translate_view; [apply (ti_feature _ _ Hinv)|by apply tlb_only_view].
      + intros s' Hq Hi. wp_step. done. }
  apply wp_total_ex in Hwp as (r & [e' s'] & Hrun & Hres). by exists r, e', s'.
Qed.

(** ** Protecting code *)
Lemma rd_map {A B} (f : A -> B) (l : list A) i : rd (List.map f l) i = f <$> rd l i.
Proof. unfold rd. destruct (0 <=? i); [|done]. apply list_lookup_fmap. Qed.
Lemma rd2_map {A B} (f : A -> B) (t : list (list A)) i j : rd2 (List.map (List.map f) t) i j = f <$> rd2 t i j.
Proof. unfold rd2. rewrite rd_map. destruct (rd t i); [|done]. apply rd_map. Qed.
Lemma dims_map {A B} (f : A -> B) m n t : dims m n t -> dims m n (List.map (List.map f) t).
Proof.
  intros [Hl HF]. split; [by rewrite length_map|]. apply Forall_map. eapply Forall_impl; [exact HF|]. intros row Hr. cbn. by rewrite length_map.
Qed.
(** A retagged entry matches the same addresses. *)
Lemma retag_match b w : Z.land w 0x3ff = 0 -> page_match b (Z.lor (Z.land w 0xfffffc00) TLB_NOTDIRTY) = page_match b w /\
  Z.land w 0xfffffc08 = Z.land w 0xfffffc00.
Proof.
  intros Hw. assert (Z.land w 0xfffffc08 = Z.land w 0xfffffc00) as E.
  { change 0xfffffc08 with (Z.lor 0xfffffc00 (Z.land 0x3ff 8)). by rewrite Z.land_lor_distr_r, Z.land_assoc, Hw, Z.lor_0_r. }
  split; [|done]. unfold page_match. change (Z.lor 0xfffffc00 TLB_INVALID_MASK) with 0xfffffc08.
  rewrite Z.land_lor_distr_l, <- Z.land_assoc, E.
  change (Z.land 0xfffffc00 0xfffffc08) with 0xfffffc00. change (Z.land TLB_NOTDIRTY 0xfffffc08) with 0. by rewrite Z.lor_0_r.
Qed.
Lemma ram_offset_mod ok s pa p : rptr ok s pa = Some p -> ram_offset s pa mod 1024 = pa mod 1024.
Proof.
  unfold rptr, ram_offset. destruct (desc_at (pmem s) (pa / 1024)) as [d|]; [|discriminate].
  intros _. rewrite Z.add_mod, page_down_aligned, Z.add_0_l, !Z.mod_mod by lia. done.
Qed.

(** The entries after the dirty bits of the page of RAM offset [r], at host address [h], have
    been cleared. *)
Lemma protect_inv e s s' r h : tlb_inv e s -> r mod 1024 = 0 -> ram_view (pmem s) r = Some h -> agree s s' -> host_mem s' = host_mem s ->
  (forall r', r' / 1024 <> r / 1024 -> all_dirty s r' -> all_dirty s' r') ->
  tlb_inv (e <| tlb_table := List.map (List.map (tlb_reset_dirty_range h 1024)) (tlb_table e) |>) s'.
Proof.
  intros Hinv Hr Hh Hag Hmem Hdk. pose proof Hinv as [[D1 D2] Hok He HF Hw Hc]. set (e' := e <| tlb_table := _ |>).
  split; [by split; [apply dims_map|]|by eapply mem_ok_agree|exact (view_mmu_ok e e' HF eq_refl He)|exact HF|exact Hw|].
  intros m i te' io b Hte Hio Hb Hi. change (rd2 (List.map (List.map (tlb_reset_dirty_range h 1024)) (tlb_table e)) m i = Some te') in Hte.
  rewrite rd2_map in Hte. destruct (rd2 (tlb_table e) m i) as [te|] eqn:H0; [|discriminate Hte]. injection Hte as <-.
  assert (forall t, target e' s' m b t = target e s m b t) as Htg by (intros t; by apply target_same).
  destruct (Hc _ _ _ _ _ H0 Hio Hb Hi) as [HL HS].
  assert (tlb_reset_dirty_range h 1024 te = te \/ Z.land (addr_write te) 0x3ff = 0 /\
    tlb_reset_dirty_range h 1024 te = te <| addr_write := Z.lor (Z.land (addr_write te) 0xfffffc00) TLB_NOTDIRTY |>) as Hcase.
  { unfold tlb_reset_dirty_range. change IO_MEM_RAM with 0. destruct (Z.eqb_spec (Z.land (addr_write te) 0x3ff) 0); [|by left].
    cbv zeta. destruct (_ <? 1024); [by right|by left]. }
  split; intros Hpm.
  - assert (addr_read (tlb_reset_dirty_range h 1024 te) = addr_read te /\ addend (tlb_reset_dirty_range h 1024 te) = addend te) as [Er Ea]
      by (destruct Hcase as [->|[_ ->]]; done).
    rewrite Er in Hpm. destruct (HL Hpm) as (pa & prot & Ht & Hp). exists pa, prot. rewrite Htg, Er, Ea. split; [done|].
    intros p. rewrite (agree_rptr _ _ _ _ Hag). apply Hp.
  - assert (page_match b (addr_write te) = true) as Hpm0.
    { destruct Hcase as [E|[H1 E]]; rewrite E in Hpm; [done|]. by rewrite <- (proj1 (retag_match b _ H1)). }
    destruct (HS Hpm0) as (pa & prot & Ht & Hp). exists pa, prot. rewrite Htg. split; [done|].
    intros p. rewrite (agree_rptr _ _ _ _ Hag), (agree_offset _ _ _ Hag). intros Hpp.
    destruct (Hp p Hpp) as (H1 & H2 & H3 & H4).
    assert (addend (tlb_reset_dirty_range h 1024 te) = addend te) as -> by (destruct Hcase as [->|[_ ->]]; done).
    split_and!; [done..|]. destruct Hcase as [E|[_ E]].
    2: { right. rewrite E. change (Z.land (Z.lor (Z.land (addr_write te) 0xfffffc00) TLB_NOTDIRTY) 0x3ff = TLB_NOTDIRTY).
         by rewrite Z.land_lor_distr_l, <- Z.land_assoc, Z.land_0_r. }
    rewrite E. destruct H4 as [[H4 H5]|H4]; [left|by right]. split; [done|]. apply Hdk; [|done]. intros Hpage.
    (* the entry is of the page: it would have been retagged *)
    pose proof (ram_offset_mod _ _ _ _ Hpp) as Hmod. rewrite (target_offset _ _ _ _ _ _ _ He Hb Ht) in Hmod.
    pose proof (Z.mod_pos_bound b 1024 ltac:(lia)) as Hbb.
    assert (ram_offset s pa = r + b mod 1024) as Hro.
    { pose proof (Z.div_mod (ram_offset s pa) 1024). pose proof (Z.div_mod r 1024). lia. }
    destruct (rptr_offset _ _ _ _ (mem_ok_wf _ Hok) Hpp) as [Hv _].
    rewrite Hro, (ram_view_page _ _ _ _ (proj2 (mem_ok_wf _ Hok)) Hr Hbb Hh) in Hv. injection Hv as Hv.
    assert (Z.land (addr_write te) 0xfffffc00 = page_down32 b) as Htag.
    { unfold page_match in Hpm0. apply Z.eqb_eq in Hpm0. rewrite Hpm0. symmetry. exact (proj2 (retag_match b _ H4)). }
    assert (wrap 64 (page_down32 b + addend te) = h) as Hbase.
    { destruct (page_down32_facts b Hb) as (_ & _ & _ & Eb). pose proof (mem_ok_host _ Hok _ _ Hh) as Fh. rewrite <- (wrap_fits 64 h Fh) at 1.
      replace h with (p - b mod 1024) by lia. rewrite <- H1. unfold wrap. rewrite Zminus_mod_idemp_l. f_equal. lia. }
    unfold tlb_reset_dirty_range in E. rewrite H4 in E. cbn in E. rewrite Htag, Hbase, Z.sub_diag in E. cbn in E.
    apply (f_equal (fun t => Z.land (addr_write t) 0x3ff)) in E. rewrite H4 in E.
    change (Z.land (Z.lor (page_down32 b) TLB_NOTDIRTY) 0x3ff = 0) in E. by rewrite flag_low in E.
Qed.
Lemma protect_wp e s r : tlb_inv e s -> 0 <= r -> r mod 1024 = 0 -> r + 1024 <= last_ram_offset (pmem s) ->
  wp no_err (tlb_protect_code r) (fun _ x => exists d, tlb_inv x.1 x.2 /\ tlb_only e x.1 /\ agree s x.2 /\ host_mem x.2 = host_mem s /\
    rd (phys_ram_dirty (pmem s)) (r / 1024) = Some d /\
    (forall i, rd (phys_ram_dirty (pmem x.2)) i = if r / 1024 =? i then Some (Z.land d 0xfd) else rd (phys_ram_dirty (pmem s)) i)) (e, s).
Proof.
  intros Hinv H0 Hr Hl. pose proof (mem_ok_wf _ (ti_mem _ _ Hinv)) as Hw. pose proof (proj1 (proj2 Hw)) as Hf. unfold fits in Hf.
  assert (r + 2047 < 2 ^ 64) as Hm by (pose proof (Z.div_mod r 1024); lia).
  destruct (rd_Some _ _ (dirty_bound _ r (proj2 Hw) ltac:(lia))) as (d & Hd & _).
  destruct (ram_view (pmem s) r) as [h|] eqn:Hh; [|apply ram_view_None in Hh; [lia|apply Hw]].
  unfold tlb_protect_code, cpu_physical_memory_reset_dirty. cbv zeta.
  assert (page_down r = r) as -> by (rewrite page_down_mod by (unfold fits; lia); lia).
  assert (TARGET_PAGE_ALIGN (wrap 64 (r + TARGET_PAGE_SIZE)) = r + 1024) as ->.
  { change TARGET_PAGE_SIZE with 1024. rewrite wrap_fits by (unfold fits; lia). rewrite align_spec by lia.
    pose proof (Z.div_mod r 1024). replace (r + 1024 + 1023) with ((r / 1024 + 1) * 1024 + 1023) by lia.
    rewrite Z.div_add_l by lia. change (1023 / 1024) with 0. lia. }
  replace (r + 1024 - r) with 1024 by lia. change (wrap 64 1024) with 1024. change (1024 =? 0) with false. cbn match.
  change (wrap 32 (Z.shiftr 1024 TARGET_PAGE_BITS)) with 1. change (wrap 8 (Z.lnot CODE_DIRTY_FLAG)) with 0xfd. cbn -[clear_dirty].
  rewrite page_number. unfold clear_dirty. change (seq 0 (Z.to_nat (if 1 <? 2 ^ 31 then 1 else 0))) with [0%nat].
  cbn [for_each]. change (Z.of_nat 0) with 0. rewrite Z.add_0_r.
  wp_step. wp_step. wp_step. apply wp_on_mem. wp_step. wp_step. eapply deref_wp; [exact Hd|].
  pose proof (wr_Some _ _ (Z.land d 0xfd) (rd_bound _ _ _ Hd)) as Hwr. wp_step. eapply deref_wp; [exact Hwr|].
  apply wp_on_mem. wp_step. wp_step. set (l := <[_ := Z.land d 0xfd]> _) in *. fold (with_dirty l s). set (s1 := with_dirty l s).
  assert (agree s s1) as A1 by (apply agree_dirty; [done|]; unfold l; by rewrite length_insert).
  assert (forall a, 0 <= a < 1024 -> ram_view (pmem s1) (r + a) = Some (h + a)) as Hv1.
  { intros a Ha. rewrite (agree_view _ _ A1). by eapply ram_view_page; [apply Hw|..]. }
  pose proof (Hv1 0 ltac:(lia)) as Hv0. rewrite !Z.add_0_r in Hv0.
  wp_step. apply wp_on_mem. eapply ram_ptr_wp; [apply A1|exact Hv0|]. intros s2 A2 M2 D2 _.
  assert (wrap 64 (r + 1024 - 1) = r + 1023) as -> by (rewrite wrap_fits by (unfold fits; lia); lia).
  wp_step. apply wp_on_mem. eapply ram_ptr_wp; [apply A2|rewrite (agree_view _ _ A2); by apply Hv1|]. intros s3 A3 M3 D3 _.
  replace (wrap 64 (h + 1023 - h) =? wrap 64 (r + 1024 - 1 - r)) with true by (symmetry; apply Z.eqb_eq; f_equal; lia). cbn [negb].
  apply wp_on_cpu. unfold each_entry. wp_step. exists d. cbn [fst snd].
  assert (agree s s3) as A by (eapply agree_trans; [exact A1|]; by eapply agree_trans).
  assert (forall i, rd (phys_ram_dirty (pmem s3)) i = if r / 1024 =? i then Some (Z.land d 0xfd) else rd (phys_ram_dirty (pmem s)) i) as Hrd.
  { intros i. rewrite D3, D2. apply (rd_wr _ _ _ _ _ Hwr). }
  split; [|split; [reflexivity|split; [exact A|split; [by rewrite M3, M2|split; [exact Hd|exact Hrd]]]]].
  apply (protect_inv e s s3 r h); [done..|by rewrite M3, M2|]. intros r' Hne. unfold all_dirty. rewrite Hrd.
  by destruct (Z.eqb_spec (r / 1024) (r' / 1024)) as [Heq|]; [destruct Hne|].
Qed.

(** C19: tlb_protect_code makes every change of a page that holds code visible: it clears the
    code bit of the page of RAM and keeps the invariant of the TLB, and afterwards an entry
    that leads a store of any address, with any privilege, to the page has the NOTDIRTY flag, so that
    the store goes through the functions that invalidate the code.  Memory, the other dirty
    bits and the registers are unchanged. *)
Theorem protect_code e s r :
  tlb_inv e s -> 0 <= r -> r mod 1024 = 0 -> r + 1024 <= last_ram_offset (pmem s) ->
  exists e' s' d, tlb_protect_code r (e, s) = Ok (tt, (e', s')) /\ tlb_inv e' s' /\ tlb_only e e' /\ agree s s' /\ host_mem s' = host_mem s /\
    rd (phys_ram_dirty (pmem s)) (r / 1024) = Some d /\
    (forall i, rd (phys_ram_dirty (pmem s')) i = if r / 1024 =? i then Some (Z.land d 0xfd) else rd (phys_ram_dirty (pmem s)) i) /\
    forall m b te pa prot p, 0 <= m < 2 -> fits 32 b -> rd2 (tlb_table e') m (tlb_index b) = Some te -> page_match b (addr_write te) = true ->
      target e s m b 1 = Translated pa prot -> rptr is_ram s pa = Some p -> ram_offset s pa / 1024 = r / 1024 ->
      Z.land (addr_write te) 0x3ff = TLB_NOTDIRTY.
Proof.
  intros Hinv H0 Hr Hl. pose proof (protect_wp e s r Hinv H0 Hr Hl) as Hwp.
  apply wp_total_ex in Hwp as ([] & [e' s'] & Hrun & d & Hi & Htl & Hag & Hmem & Hd & Hrd). cbn [fst snd] in *.
  exists e', s', d. do 7 (split; [done|]). intros m b te pa prot p Hm0 Hb Hte Hpm Ht Hp Hpage.
  destruct (entry_exists e' s' m b Hi Hm0) as (te' & io & Hte' & Hio). rewrite Hte in Hte'. injection Hte' as <-.
  destruct (ti_coherent _ _ Hi _ _ _ _ _ Hte Hio Hb eq_refl) as [_ HS]. destruct (HS Hpm) as (pa' & prot' & Ht' & HS').
  rewrite (target_same e s e' s') in Ht' by (apply (ti_feature _ _ Hinv) || by apply tlb_only_view || done). rewrite Ht in Ht'. injection Ht' as <- <-.
  destruct (HS' p) as (_ & _ & _ & [[_ Hall]|Hnd]); [by rewrite (agree_rptr _ _ _ _ Hag)| |done].
  exfalso. unfold all_dirty in Hall. rewrite (agree_offset _ _ _ Hag), Hpage, Hrd, Z.eqb_refl in Hall. injection Hall as Hall.
  apply (f_equal (fun x => Z.testbit x 1)) in Hall. rewrite Z.land_spec, andb_false_r in Hall. discriminate Hall.
Qed.
End stores.

(** The machine of ArmLoad, whose code cache does nothing. *)
#[local] Existing Instance PhysRw.no_devices.
#[local] Instance no_tb_laws : TbLaws unit.
Proof. intros E addr len e s Q Hw HQ. apply HQ. by apply dirtied_refl. Qed.
Lemma paged_store_target : target paged_cpu paged_machine 1 0x804 1 = Translated 0x804 READ_WRITE.
Proof. vm_compute. reflexivity. Qed.
Example store_through_tlb_witness : exists e' s',
  st_mmu 2 2 0x804 0x11223344 1 (paged_cpu, paged_machine) = Ok (Some tt, (e', s')) /\
  stored paged_cpu paged_machine 0x804 0x11223344 4 e' s'.
Proof.
  destruct (store_through_tlb paged_cpu paged_machine 1 2 0x804 0x11223344 0 paged_inv) as (r & e' & s' & Hrun & Hres);
    [done|done|done|done|exact paged_walk| |].
  - intros pa prot. rewrite paged_store_target. intros [= <- _]. exists 0x10804. unfold paged_machine. rewrite with_contents_rptr.
    exact (sample_rptr 0x804 ltac:(lia)).
  - rewrite paged_store_target in Hres. destruct Hres as [-> Hres]. exists e', s'. split; [exact Hrun|exact Hres].
Defined.
(** The same machine with every page dirty in every respect, and its state once the TLB has an
    entry for the page at 0x800, through which a store goes straight to memory. *)
Definition dirty_machine : machine unit := with_dirty (replicate 4 255) paged_machine.
Lemma dirty_agree : agree paged_machine dirty_machine.
Proof. apply agree_dirty; [apply (mem_ok_wf _ (ti_mem _ _ paged_inv))|reflexivity]. Qed.
Lemma dirty_inv : tlb_inv paged_cpu dirty_machine.
Proof.
  destruct paged_inv as [H1 H2 H3 H4 H5 _]. split; [exact H1| |exact H3|exact H4|exact H5|by apply empty_coherent].
  eapply mem_ok_agree; [exact dirty_agree|exact H2].
Qed.
Lemma dirty_rptr a : 0 <= a < 4096 -> rptr readable dirty_machine a = Some (0x10000 + a).
Proof.
  intros Ha. rewrite (agree_rptr _ _ _ _ dirty_agree). unfold paged_machine. rewrite with_contents_rptr. by apply ram_readable, sample_rptr.
Qed.
Lemma dirty_walk : walk_ok paged_cpu dirty_machine 0x804.
Proof.
  intros adr Hin. replace (walk_reads (phys_word dirty_machine) paged_cpu 0x804) with [0] in Hin by (vm_compute; reflexivity).
  apply elem_of_cons in Hin as [->|Hin]; [|by apply elem_of_nil in Hin]. exists 0x10000. by apply dirty_rptr.
Qed.
Definition warm : CPUARMState * machine unit :=
  default (paged_cpu, dirty_machine) (exec (tlb_fill 0x804 1 1) (paged_cpu, dirty_machine)).
Lemma warm_inv : tlb_inv warm.1 warm.2.
Proof.
  assert (wp no_err (tlb_fill 0x804 1 1) (fun _ x => tlb_inv x.1 x.2) (paged_cpu, dirty_machine)) as H.
  { apply fill_wp; [exact dirty_inv|done|done|exact dirty_walk|by right|].
    replace (target paged_cpu dirty_machine 1 0x804 1) with (Translated 0x804 READ_WRITE) by (vm_compute; reflexivity).
    split; [exists 0x10804; by apply dirty_rptr|]. intros e' s' te [Hi _] _ _ _. exact Hi. }
  apply wp_total_ex in H as (r & [e' s'] & Hrun & Hi). unfold warm, exec. by rewrite Hrun.
Qed.
Definition leads_there (o : outcome (unit * (CPUARMState * machine unit))) : bool :=
  match o with
  | Ok (_, (e, _)) => match rd2 (tlb_table e) 1 (tlb_index 0x804) with Some te => page_match 0x804 (addr_write te) | None => false end
  | Err _ => false
  end.
Lemma warm_straight : (fun t => Z.land (addr_write t) 0x3ff) <$> rd2 (tlb_table warm.1) 1 (tlb_index 0x804) = Some 0.
Proof. vm_compute. reflexivity. Qed.
(** The entry of the page before and after the page is protected: it leads straight to memory,
    and gets the flag. *)
Example protect_code_witness : exists e' s' te te',
  rd2 (tlb_table warm.1) 1 (tlb_index 0x804) = Some te /\ Z.land (addr_write te) 0x3ff = 0 /\
  tlb_protect_code 0x800 warm = Ok (tt, (e', s')) /\ tlb_inv e' s' /\
  rd2 (tlb_table e') 1 (tlb_index 0x804) = Some te' /\ page_match 0x804 (addr_write te') = true /\
  Z.land (addr_write te') 0x3ff = TLB_NOTDIRTY.
Proof.
  destruct (protect_code warm.1 warm.2 0x800 warm_inv) as (e' & s' & d & Hrun & Hi & _ & _ & _ & _ & _ & Hflag);
    [done|done|by vm_compute|].
  destruct (entry_exists e' s' 1 0x804 Hi ltac:(lia)) as (te' & io & Hte' & _).
  assert (leads_there (tlb_protect_code 0x800 warm) = true) as Hpm by (vm_compute; reflexivity).
  rewrite <- (surjective_pairing warm) in Hrun. rewrite Hrun in Hpm. unfold leads_there in Hpm. rewrite Hte' in Hpm.
  destruct (entry_exists warm.1 warm.2 1 0x804 warm_inv ltac:(lia)) as (te & io0 & Hte & _).
  pose proof warm_straight as Hraw.
  rewrite Hte in Hraw. injection Hraw as Hraw. exists e', s', te, te'. split; [exact Hte|]. split; [exact Hraw|].
  split; [exact Hrun|]. split; [exact Hi|]. split; [exact Hte'|]. split; [exact Hpm|].
  apply (Hflag 1 0x804 te' 0x804 READ_WRITE 0x10804); [lia|unfold fits; lia|exact Hte'|exact Hpm|vm_compute; reflexivity|vm_compute; reflexivity|vm_compute; reflexivity].
Defined.
