(* ===== verification/ArmCp15.v ===== *)
(** * ArmCp15: the system control coprocessor (target-arm/helper.c)

    The registers of coprocessor 15: identification, system control, page tables, domains,
    faults, TLB and process.  Invalidating all translated code and unlinking the block that
    runs are operations of the class [TbFlush].  A register that is not implemented ends the
    emulator (cpu_abort). *)
From S2P Require Import Prelude Physmem PhysAccess ArmCpu ArmExc.
#[local] Open Scope Z_scope.

Class TbFlush (D : Type) := { tb_flush : SYS D unit; cpu_unlink_tb : SYS D unit }.

(** The coprocessors 0 to 14 of a board, env->cp[]: functions of their fields, or none. *)
Class Coprocessors (D : Type) := {
  cp_write : Z -> option (Z -> Z -> Z -> Z -> SYS D unit);
  cp_read : Z -> option (Z -> Z -> Z -> SYS D Z)
}.

(** ** Access permissions of the protection unit: two bits per region or four *)
Definition simple_mpu_ap_bits (val : Z) : Z :=
  fst (foldl (fun '(ret, mask) i => (Z.lor ret (Z.land (Z.shiftr val i) mask), wrap 32 (Z.shiftl mask 2))) (0, 3)
    [0; 2; 4; 6; 8; 10; 12; 14]).
Definition extended_mpu_ap_bits (val : Z) : Z :=
  fst (foldl (fun '(ret, mask) i => (Z.lor ret (wrap 32 (Z.shiftl (Z.land val mask) i)), wrap 32 (Z.shiftl mask 2))) (0, 3)
    [0; 2; 4; 6; 8; 10; 12; 14]).

(** The fields of an instruction MCR or MRC. *)
Definition cp15_crn (insn : Z) : Z := Z.land (Z.shiftr insn 16) 0xf.
Definition cp15_op1 (insn : Z) : Z := Z.land (Z.shiftr insn 21) 7.
Definition cp15_op2 (insn : Z) : Z := Z.land (Z.shiftr insn 5) 7.
Definition cp15_crm (insn : Z) : Z := Z.land insn 0xf.

Section cp15.
  Context {D : Type} `{!TbFlush D}.

(** cpu_interrupt, called by the processor itself and without instruction counting. *)
Definition cpu_interrupt (m : Z) : SYS D unit :=
  on_cpu (modify (fun e => e <| interrupt_request := Z.lor (interrupt_request e) m |>)) ;;
  cpu_unlink_tb.

(** ** Writes *)
Definition put15 (f : cp15_state -> cp15_state) : SYS D unit := on_cpu (set_cp15_with f).
(** Secure registers need the secure state and a privileged mode. *)
Definition no_trustzone (e : CPUARMState) : bool :=
  negb (arm_feature e ARM_FEATURE_TRUSTZONE) || (Z.land (uncached_cpsr e) CPSR_M =? ARM_CPU_MODE_USR).
Definition set_c1 (op2 crm val : Z) (e : CPUARMState) : SYS D unit :=
  let c := cp15 e in
  if crm =? 0 then
    let op2 := if arm_feature e ARM_FEATURE_OMAPCP then 0 else op2 in
    if op2 =? 0 then
      when (negb (arm_feature e ARM_FEATURE_XSCALE)) (put15 (fun c => c <| c1_sys := val |>)) ;;
      on_cpu (tlb_flush 1)
    else if op2 =? 1 then when (arm_feature e ARM_FEATURE_XSCALE) (put15 (fun c => c <| c1_xscaleauxcr := val |>))
    else if op2 =? 2 then
      if arm_feature e ARM_FEATURE_XSCALE then hw_error
      else when (negb (c1_coproc c =? val)) (put15 (fun c => c <| c1_coproc := val |>) ;; tb_flush)
    else hw_error
  else if crm =? 1 then
    if no_trustzone e then hw_error
    else if op2 =? 0 then if truth (Z.land (c1_secfg c) 1) then hw_error else put15 (fun c => c <| c1_secfg := val |>)
    else if op2 =? 1 then if truth (Z.land (c1_secfg c) 1) then hw_error else put15 (fun c => c <| c1_sedbg := val |>)
    else if op2 =? 2 then if truth (Z.land (c1_secfg c) 1) then hw_error else put15 (fun c => c <| c1_nseac := val |>)
    else hw_error
  else hw_error.
Definition set_c2 (op2 val : Z) (e : CPUARMState) : SYS D unit :=
  if arm_feature e ARM_FEATURE_MPU then
    if op2 =? 0 then put15 (fun c => c <| c2_data := val |>)
    else if op2 =? 1 then put15 (fun c => c <| c2_insn := val |>)
    else hw_error
  else if op2 =? 0 then put15 (fun c => c <| c2_base0 := val |>)
  else if op2 =? 1 then put15 (fun c => c <| c2_base1 := val |>)
  else if op2 =? 2 then
    let val := Z.land val 7 in
    put15 (fun c => c <| c2_control := val |> <| c2_mask := not32 (Z.shiftr 0xffffffff val) |>
                      <| c2_base_mask := not32 (Z.shiftr 0x3fff val) |>)
  else hw_error.
Definition set_c5 (op2 val : Z) (e : CPUARMState) : SYS D unit :=
  let mpu := arm_feature e ARM_FEATURE_MPU in
  let op2 := if arm_feature e ARM_FEATURE_OMAPCP then 0 else op2 in
  if op2 =? 0 then put15 (fun c => c <| c5_data := if mpu then extended_mpu_ap_bits val else val |>)
  else if op2 =? 1 then put15 (fun c => c <| c5_insn := if mpu then extended_mpu_ap_bits val else val |>)
  else if op2 =? 2 then if mpu then put15 (fun c => c <| c5_data := val |>) else hw_error
  else if op2 =? 3 then if mpu then put15 (fun c => c <| c5_insn := val |>) else hw_error
  else hw_error.
Definition put_region (i v : Z) : CPU unit :=
  e ← get; l ← deref (wr (c6_region (cp15 e)) i v); set_cp15_with (fun c => c <| c6_region := l |>).
Definition set_c6 (op2 crm val : Z) (e : CPUARMState) : SYS D unit :=
  if arm_feature e ARM_FEATURE_MPU then
    if crm >=? 8 then hw_error else on_cpu (put_region crm val)
  else
    let op2 := if arm_feature e ARM_FEATURE_OMAPCP then 0 else op2 in
    if op2 =? 0 then put15 (fun c => c <| c6_data := val |>)
    else if (op2 =? 1) || (op2 =? 2) then put15 (fun c => c <| c6_insn := val |>)
    else hw_error.
Definition set_c8 (op2 val : Z) : SYS D unit :=
  if op2 =? 0 then on_cpu (tlb_flush 0)
  else if op2 =? 1 then on_cpu (tlb_flush 1)
  else if op2 =? 2 then on_cpu (tlb_flush (Z.b2z (val =? 0)))
  else if op2 =? 3 then on_cpu (tlb_flush 1)
  else hw_error.
Definition set_c9 (op1 op2 crm val : Z) (e : CPUARMState) : SYS D unit :=
  if arm_feature e ARM_FEATURE_OMAPCP then mret tt
  else if crm =? 0 then
    if op1 =? 0 then
      if op2 =? 0 then put15 (fun c => c <| c9_data := val |>)
      else if op2 =? 1 then put15 (fun c => c <| c9_insn := val |>)
      else hw_error
    else if op1 =? 1 then mret tt
    else hw_error
  else if crm =? 1 then hw_error
  else if crm =? 12 then mret tt
  else hw_error.
Definition set_c13 (op2 val : Z) (e : CPUARMState) : SYS D unit :=
  if op2 =? 0 then
    when (negb (c13_fcse (cp15 e) =? val)) (on_cpu (tlb_flush 1)) ;; put15 (fun c => c <| c13_fcse := val |>)
  else if op2 =? 1 then
    when (negb (c13_context (cp15 e) =? val) && negb (arm_feature e ARM_FEATURE_MPU)) (on_cpu (tlb_flush 0)) ;;
    put15 (fun c => c <| c13_context := val |>)
  else if op2 =? 2 then put15 (fun c => c <| c13_tls1 := val |>)
  else if op2 =? 3 then put15 (fun c => c <| c13_tls2 := val |>)
  else if op2 =? 4 then put15 (fun c => c <| c13_tls3 := val |>)
  else hw_error.
Definition set_c15 (op2 crm val : Z) (e : CPUARMState) : SYS D unit :=
  if arm_feature e ARM_FEATURE_XSCALE then
    if (op2 =? 0) && (crm =? 1) then
      when (negb (c15_cpar (cp15 e) =? Z.land val 0x3fff)) (tb_flush ;; put15 (fun c => c <| c15_cpar := Z.land val 0x3fff |>))
    else hw_error
  else if arm_feature e ARM_FEATURE_OMAPCP then
    if crm =? 0 then mret tt
    else if crm =? 1 then
      put15 (fun c => c <| c15_ticonfig := Z.land val 0xe7 |>
        <| c0_cpuid := if truth (Z.land val (bit 5)) then ARM_CPUID_TI915T else ARM_CPUID_TI925T |>)
    else if crm =? 2 then put15 (fun c => c <| c15_i_max := val |>)
    else if crm =? 3 then put15 (fun c => c <| c15_i_min := val |>)
    else if crm =? 4 then put15 (fun c => c <| c15_threadid := Z.land val 0xffff |>)
    else if crm =? 8 then cpu_interrupt CPU_INTERRUPT_HALT
    else hw_error
  else mret tt.
Definition set_cp15 (insn val : Z) : SYS D unit :=
  let op1 := cp15_op1 insn in
  let op2 := cp15_op2 insn in
  let crm := cp15_crm insn in
  let crn := cp15_crn insn in
  e ← on_cpu get;
  if crn =? 0 then
    if arm_feature e ARM_FEATURE_XSCALE then mret tt
    else if arm_feature e ARM_FEATURE_OMAPCP then mret tt
    else if arm_feature e ARM_FEATURE_V7 && (op1 =? 2) && (crm =? 0) && (op2 =? 0)
    then put15 (fun c => c <| c0_cssel := Z.land val 0xf |>)
    else hw_error
  else if crn =? 1 then set_c1 op2 crm val e
  else if crn =? 2 then set_c2 op2 val e
  else if crn =? 3 then put15 (fun c => c <| c3 := val |>) ;; on_cpu (tlb_flush 1)
  else if crn =? 4 then hw_error
  else if crn =? 5 then set_c5 op2 val e
  else if crn =? 6 then set_c6 op2 crm val e
  else if crn =? 7 then put15 (fun c => c <| c15_i_max := 0x000 |> <| c15_i_min := 0xff0 |>)
  else if crn =? 8 then set_c8 op2 val
  else if crn =? 9 then set_c9 op1 op2 crm val e
  else if crn =? 10 then mret tt
  else if crn =? 12 then hw_error
  else if crn =? 13 then set_c13 op2 val e
  else if crn =? 14 then hw_error
  else if crn =? 15 then set_c15 op2 crm val e
  else mret tt.

(** ** Reads *)
Definition get_c0 (op1 op2 crm : Z) (e : CPUARMState) : CPU Z :=
  let c := cp15 e in
  if op1 =? 0 then
    if crm =? 0 then
      if op2 =? 0 then mret (c0_cpuid c)
      else if op2 =? 1 then mret (c0_cachetype c)
      else if op2 =? 2 then mret 0
      else if op2 =? 3 then mret 0
      else if op2 =? 5 then
        mret (if c0_cpuid c =? ARM_CPUID_CORTEXA9 then Z.lor (cpu_index e) 0x80000900 else cpu_index e)
      else hw_error
    else if crm =? 1 then if negb (arm_feature e ARM_FEATURE_V6) then hw_error else deref (rd (c0_c1 c) op2)
    else if crm =? 2 then if negb (arm_feature e ARM_FEATURE_V6) then hw_error else deref (rd (c0_c2 c) op2)
    else if (3 <=? crm) && (crm <=? 7) then mret 0
    else hw_error
  else if op1 =? 1 then
    if negb (arm_feature e ARM_FEATURE_V6) then hw_error
    else if negb (crm =? 0) then hw_error
    else if negb (arm_feature e ARM_FEATURE_V7) then mret 0
    else if op2 =? 0 then deref (rd (c0_ccsid c) (c0_cssel c))
    else if op2 =? 1 then mret (c0_clid c)
    else if op2 =? 7 then mret 0
    else hw_error
  else if op1 =? 2 then
    if negb (op2 =? 0) || negb (crm =? 0) then hw_error else mret (c0_cssel c)
  else hw_error.
(** The auxiliary control register of each core. *)
Definition auxcr (cpuid : Z) : CPU Z :=
  if cpuid =? ARM_CPUID_ARM1026 then mret 1
  else if (cpuid =? ARM_CPUID_ARM1136) || (cpuid =? ARM_CPUID_ARM1136_R2) then mret 7
  else if cpuid =? ARM_CPUID_ARM11MPCORE then mret 1
  else if (cpuid =? ARM_CPUID_CORTEXA8) || (cpuid =? ARM_CPUID_CORTEXA8_R2) then mret 2
  else if cpuid =? ARM_CPUID_CORTEXA9 then mret 0
  else hw_error.
Definition get_c1 (op2 crm : Z) (e : CPUARMState) : CPU Z :=
  let c := cp15 e in
  if crm =? 0 then
    let op2 := if arm_feature e ARM_FEATURE_OMAPCP then 0 else op2 in
    if op2 =? 0 then mret (c1_sys c)
    else if op2 =? 1 then
      if arm_feature e ARM_FEATURE_XSCALE then mret (c1_xscaleauxcr c)
      else if negb (arm_feature e ARM_FEATURE_AUXCR) then hw_error
      else auxcr (c0_cpuid c)
    else if op2 =? 2 then if arm_feature e ARM_FEATURE_XSCALE then hw_error else mret (c1_coproc c)
    else hw_error
  else if crm =? 1 then
    if no_trustzone e then hw_error
    else if op2 =? 0 then if truth (Z.land (c1_secfg c) 1) then hw_error else mret (c1_secfg c)
    else if op2 =? 1 then if truth (Z.land (c1_secfg c) 1) then hw_error else mret (c1_sedbg c)
    else if op2 =? 2 then mret (c1_nseac c)
    else hw_error
  else hw_error.
Definition get_c2 (op2 : Z) (e : CPUARMState) : CPU Z :=
  let c := cp15 e in
  if arm_feature e ARM_FEATURE_MPU then
    if op2 =? 0 then mret (c2_data c) else if op2 =? 1 then mret (c2_insn c) else hw_error
  else if op2 =? 0 then mret (c2_base0 c)
  else if op2 =? 1 then mret (c2_base1 c)
  else if op2 =? 2 then mret (c2_control c)
  else hw_error.
Definition get_c5 (op2 : Z) (e : CPUARMState) : CPU Z :=
  let c := cp15 e in
  let mpu := arm_feature e ARM_FEATURE_MPU in
  let op2 := if arm_feature e ARM_FEATURE_OMAPCP then 0 else op2 in
  if op2 =? 0 then mret (if mpu then simple_mpu_ap_bits (c5_data c) else c5_data c)
  else if op2 =? 1 then mret (if mpu then simple_mpu_ap_bits (c5_data c) else c5_insn c)
  else if op2 =? 2 then if mpu then mret (c5_data c) else hw_error
  else if op2 =? 3 then if mpu then mret (c5_insn c) else hw_error
  else hw_error.
Definition get_c6 (op2 crm : Z) (e : CPUARMState) : CPU Z :=
  let c := cp15 e in
  if arm_feature e ARM_FEATURE_MPU then
    if crm >=? 8 then hw_error else deref (rd (c6_region c) crm)
  else
    let op2 := if arm_feature e ARM_FEATURE_OMAPCP then 0 else op2 in
    if op2 =? 0 then mret (c6_data c)
    else if op2 =? 1 then mret (if arm_feature e ARM_FEATURE_V6 then 0 else c6_insn c)
    else if op2 =? 2 then if arm_feature e ARM_FEATURE_V6 then mret (c6_insn c) else hw_error
    else hw_error.
Definition get_c9 (op1 op2 crm : Z) (e : CPUARMState) : CPU Z :=
  let c := cp15 e in
  if op1 =? 0 then
    if arm_feature e ARM_FEATURE_OMAPCP then mret 0
    else if op2 =? 0 then mret (c9_data c)
    else if op2 =? 1 then mret (c9_insn c)
    else hw_error
  else if op1 =? 1 then if negb (crm =? 0) then hw_error else mret 0
  else hw_error.
Definition get_c13 (op2 : Z) (e : CPUARMState) : CPU Z :=
  let c := cp15 e in
  if op2 =? 0 then mret (c13_fcse c)
  else if op2 =? 1 then mret (c13_context c)
  else if op2 =? 2 then mret (c13_tls1 c)
  else if op2 =? 3 then mret (c13_tls2 c)
  else if op2 =? 4 then mret (c13_tls3 c)
  else hw_error.
Definition get_c15 (op2 crm : Z) (e : CPUARMState) : CPU Z :=
  let c := cp15 e in
  if arm_feature e ARM_FEATURE_XSCALE then
    if (op2 =? 0) && (crm =? 1) then mret (c15_cpar c) else hw_error
  else if arm_feature e ARM_FEATURE_OMAPCP then
    if crm =? 0 then mret 0
    else if crm =? 1 then mret (c15_ticonfig c)
    else if crm =? 2 then mret (c15_i_max c)
    else if crm =? 3 then mret (c15_i_min c)
    else if crm =? 4 then mret (c15_threadid c)
    else if crm =? 8 then mret 0
    else hw_error
  else mret 0.
(** Secure vector base, of the reserved registers c11 and c12. *)
Definition get_c12 (op1 crm : Z) (e : CPUARMState) : CPU Z :=
  if (op1 =? 0) && (crm =? 0) && arm_feature e ARM_FEATURE_TRUSTZONE then mret 0 else hw_error.
Definition get_cp15 (insn : Z) : CPU Z :=
  let op1 := cp15_op1 insn in
  let op2 := cp15_op2 insn in
  let crm := cp15_crm insn in
  let crn := cp15_crn insn in
  e ← get;
  if crn =? 0 then get_c0 op1 op2 crm e
  else if crn =? 1 then get_c1 op2 crm e
  else if crn =? 2 then get_c2 op2 e
  else if crn =? 3 then mret (c3 (cp15 e))
  else if crn =? 4 then hw_error
  else if crn =? 5 then get_c5 op2 e
  else if crn =? 6 then get_c6 op2 crm e
  else if crn =? 7 then
    when (Z.land (Z.shiftr insn 12) 0xf =? 0xf) (modify (fun e => e <| ZF := 0 |>)) ;; mret 0
  else if crn =? 8 then hw_error
  else if crn =? 9 then get_c9 op1 op2 crm e
  else if crn =? 10 then mret 0
  else if (crn =? 11) || (crn =? 12) then get_c12 op1 crm e
  else if crn =? 13 then get_c13 op2 e
  else if crn =? 14 then hw_error
  else get_c15 op2 crm e.

(** ** The other coprocessors *)
Context `{!Coprocessors D}.
(** The array has 15 entries. *)
Definition cp_entry {A} (f : Z -> option A) (cp_num : Z) : SYS D (option A) :=
  if cp_num <? 15 then mret (f cp_num) else throw Fault.
Definition set_cp (insn val : Z) : SYS D unit :=
  let cp_num := Z.land (Z.shiftr insn 8) 0xf in
  let cp_info := Z.land (Z.shiftr insn 5) 7 in
  let src := Z.land (Z.shiftr insn 16) 0xf in
  let operand := Z.land insn 0xf in
  f ← cp_entry cp_write cp_num;
  match f with Some f => f cp_info src operand val | None => mret tt end.
Definition get_cp (insn : Z) : SYS D Z :=
  let cp_num := Z.land (Z.shiftr insn 8) 0xf in
  let cp_info := Z.land (Z.shiftr insn 5) 7 in
  let dest := Z.land (Z.shiftr insn 16) 0xf in
  let operand := Z.land insn 0xf in
  f ← cp_entry cp_read cp_num;
  match f with Some f => f cp_info dest operand | None => mret 0 end.
End cp15.
