(* ===== verification/ArmSys.v ===== *)
(** * ArmSys: the system registers and the TLB

    Which writes of coprocessor 15 keep the TLB coherent with the page tables, and what a
    register reads back.  [TbFlushLaws]: flushing translated code and unlinking the running
    block leave the processor and memory alone. *)
From S2P Require Import Prelude Physmem PhysAccess PhysZones PhysRw ArmCpu ArmModes ArmPsr ArmMmu ArmExc ArmEntry ArmWalk ArmTlb ArmTlbInv ArmLoad ArmCp15.
#[local] Open Scope Z_scope.

Class TbFlushLaws (D : Type) `{!TbFlush D} := {
  tb_flush_law E e (s : machine D) (Q : unit -> CPUARMState * machine D -> Prop) : Q tt (e, s) -> wp E tb_flush Q (e, s);
  unlink_law E e (s : machine D) (Q : unit -> CPUARMState * machine D -> Prop) : Q tt (e, s) -> wp E cpu_unlink_tb Q (e, s)
}.

Section sys.
  Context {D : Type} `{!Devices D} `{!TbCache D} `{!TbFlush D} `{!TbFlushLaws D}.
  Implicit Types (e : CPUARMState) (s : machine D).

(** ** What a write does to the TLB *)
(** The TLB and all it depends on are as before. *)
Definition kept e e' : Prop := tlb_table e' = tlb_table e /\ iotlb e' = iotlb e /\ watchpoints e' = watchpoints e /\ mmu_view e' = mmu_view e.
(** The TLB is empty. *)
Definition flushed e e' : Prop := tlb_table e' = replicate 2 (replicate 256 s_cputlb_empty_entry) /\ iotlb e' = iotlb e /\
  watchpoints e' = watchpoints e /\ features e' = features e /\ (mmu_ok e -> mmu_ok e').
(** The registers of the page tables have changed. *)
Definition retabled e e' : Prop := tlb_table e' = tlb_table e /\ iotlb e' = iotlb e /\
  watchpoints e' = watchpoints e /\ features e' = features e /\ (mmu_ok e -> mmu_ok e').
Definition flushes (insn : Z) : bool :=
  (cp15_crn insn =? 8) || (cp15_crn insn =? 3) || (cp15_crn insn =? 1) && (cp15_crm insn =? 0) && (cp15_op2 insn =? 0).
Definition write_ok (w : Z * Z) : Prop :=
  fits 32 w.2 /\ (cp15_crn w.1 = 13 -> cp15_op2 w.1 = 0 -> Z.land w.2 0x3ff = 0).
Definition write_effect (insn : Z) e e' : Prop :=
  if cp15_crn insn =? 2 then retabled e e' else flushed e e' \/ flushes insn = false /\ kept e e'.

Lemma put15_wp E e s f (Q : unit -> CPUARMState * machine D -> Prop) :
  Q tt (e <| cp15 := f (cp15 e) |>, s) -> wp E (put15 f) Q (e, s).
Proof. intros HQ. unfold put15. apply wp_on_cpu. unfold set_cp15_with. by wp_step. Qed.
Lemma tlb_flush_wp E e s g (Q : unit -> CPUARMState * machine D -> Prop) :
  Q tt (e <| tlb_table := replicate 2 (replicate 256 s_cputlb_empty_entry) |>, s) -> wp E (on_cpu (tlb_flush g)) Q (e, s).
Proof. intros HQ. apply wp_on_cpu. unfold tlb_flush. wp_step. exact HQ. Qed.
Lemma kept_refl e : kept e e.
Proof. done. Qed.
Lemma mmu_ok_c2 e e' : features e' = features e -> c2_mask (cp15 e') = c2_mask (cp15 e) ->
  c2_base_mask (cp15 e') = c2_base_mask (cp15 e) -> c13_fcse (cp15 e') = c13_fcse (cp15 e) -> c6_region (cp15 e') = c6_region (cp15 e) ->
  mmu_ok e -> mmu_ok e'.
Proof. intros E1 E2 E3 E4 E5 [H1 H2 H3 H4]. unfold arm_feature in *. split; rewrite ?E2, ?E3, ?E4, ?E5; unfold arm_feature; rewrite ?E1; done. Qed.
(** The masks c2_control selects. *)
Lemma control_masks val : Z.land (not32 (Z.shiftr 0xffffffff (Z.land val 7))) 0x3ff = 0 /\ Z.land (not32 (Z.shiftr 0x3fff (Z.land val 7))) 3 = 0.
Proof.
  assert (0 <= Z.land val 7 < 8) as Hv by (change 7 with (Z.ones 3); rewrite Z.land_ones by done; by apply Z.mod_pos_bound).
  assert (Z.land val 7 ∈ [0; 1; 2; 3; 4; 5; 6; 7]) as Hin.
  { assert (Z.land val 7 = 0 \/ Z.land val 7 = 1 \/ Z.land val 7 = 2 \/ Z.land val 7 = 3 \/ Z.land val 7 = 4 \/ Z.land val 7 = 5 \/
      Z.land val 7 = 6 \/ Z.land val 7 = 7) as H by lia.
    repeat (destruct H as [->|H]; [repeat (first [apply list_elem_of_here|apply list_elem_of_further])|]).
    rewrite H. repeat (first [apply list_elem_of_here|apply list_elem_of_further]). }
  revert Hin. generalize (Z.land val 7). intros k Hin. repeat (apply elem_of_cons in Hin as [->|Hin]; [done|]). by apply elem_of_nil in Hin.
Qed.

(** Steps of a register access, case by case. *)
Ltac sys_step := lazymatch goal with
  | |- wp _ (put15 _) _ _ => apply put15_wp
  | |- wp _ (on_cpu (tlb_flush _)) _ _ => apply tlb_flush_wp
  | |- wp _ tb_flush _ _ => apply tb_flush_law
  | |- wp _ cpu_unlink_tb _ _ => apply unlink_law
  | |- context [if ?c =? ?k then _ else _] => destruct (Z.eqb_spec c k)
  | |- context [if ?b then _ else _] => destruct b eqn:?
  | |- _ => wp_step
  end.
Ltac sys_steps := repeat sys_step; try reflexivity.
Ltac by_kept := split_and!; reflexivity.
Ltac by_flushed := split_and!; try reflexivity; apply mmu_ok_c2; reflexivity.

Lemma set_c1_wp e s op2 crm val (Q : unit -> CPUARMState * machine D -> Prop) :
  (forall e', flushed e e' \/ (crm =? 0) && (op2 =? 0) = false /\ kept e e' -> Q tt (e', s)) -> wp only_hw (set_c1 op2 crm val e) Q (e, s).
Proof.
  intros HQ. unfold set_c1. cbv zeta. destruct (arm_feature e ARM_FEATURE_OMAPCP); sys_steps; apply HQ;
    first [left; by_flushed | right; split; [destruct (Z.eqb_spec op2 0); lia|by_kept]].
Qed.
Lemma set_c2_wp e s op2 val (Q : unit -> CPUARMState * machine D -> Prop) :
  (forall e', retabled e e' -> Q tt (e', s)) -> wp only_hw (set_c2 op2 val e) Q (e, s).
Proof.
  intros HQ. unfold set_c2. cbv zeta. sys_steps; apply HQ; try by_flushed.
  split_and!; try reflexivity. intros [H1 H2 H3 H4]. destruct (control_masks val). by split.
Qed.
(** The other registers change nothing the TLB depends on. *)
Lemma set_plain_wp e s op1 op2 crm val m (Q : unit -> CPUARMState * machine D -> Prop) :
  m ∈ [set_c5 op2 val e; set_c6 op2 crm val e; set_c9 op1 op2 crm val e; set_c15 op2 crm val e] ->
  (arm_feature e ARM_FEATURE_MPU = false) ->
  (forall e', kept e e' -> Q tt (e', s)) -> wp only_hw m Q (e, s).
Proof.
  intros Hm HM HQ. repeat (apply elem_of_cons in Hm as [->|Hm]); [..|by apply elem_of_nil in Hm].
  - unfold set_c5. cbv zeta. rewrite HM. sys_steps; apply HQ; by_kept.
  - unfold set_c6. cbv zeta. rewrite HM. sys_steps; apply HQ; by_kept.
  - unfold set_c9. sys_steps; apply HQ; by_kept.
  - unfold set_c15, cpu_interrupt. sys_steps; try (apply HQ; by_kept). apply wp_on_cpu. wp_step. sys_steps. apply HQ; by_kept.
Qed.
Lemma set_c13_wp e s op2 val (Q : unit -> CPUARMState * machine D -> Prop) : (op2 = 0 -> Z.land val 0x3ff = 0) ->
  (forall e', flushed e e' \/ kept e e' -> Q tt (e', s)) -> wp only_hw (set_c13 op2 val e) Q (e, s).
Proof.
  intros Hv HQ. unfold set_c13. destruct (Z.eqb_spec op2 0) as [H0|H0].
  - wp_step. wp_step. destruct (Z.eqb_spec (c13_fcse (cp15 e)) val) as [<-|]; cbn [negb]; sys_steps; apply HQ; [right; by_kept|left].
    split_and!; try reflexivity. intros [M1 M2 M3 M4]. split; [exact M1|exact M2|exact (Hv H0)|exact M4].
  - sys_steps; apply HQ; first [left; by_flushed|right; by_kept].
Qed.

(** A write that does not abort flushes the TLB, or leaves alone what it depends on, or is
    of the page-table registers. *)
Lemma set_cp15_wp e s insn val (Q : unit -> CPUARMState * machine D -> Prop) : write_ok (insn, val) -> arm_feature e ARM_FEATURE_MPU = false ->
  (forall e', write_effect insn e e' -> Q tt (e', s)) -> wp only_hw (set_cp15 insn val) Q (e, s).
Proof.
  intros [_ Hf] HM HQ. cbn [fst snd] in Hf. unfold set_cp15, write_effect, flushes in *.
  generalize dependent (cp15_crn insn). generalize dependent (cp15_op2 insn). generalize (cp15_crm insn) (cp15_op1 insn). intros crm op1 op2 crn Hf HQ.
  cbv zeta. wp_step. apply wp_on_cpu. wp_step.
  assert (forall e', crn <> 2 -> flushed e e' -> Q tt (e', s)) as HF.
  { intros e' Hn He. apply HQ. destruct (Z.eqb_spec crn 2); [done|by left]. }
  assert (forall e', crn <> 1 -> crn <> 2 -> crn <> 3 -> crn <> 8 -> kept e e' -> Q tt (e', s)) as HK.
  { intros e' H1 H2 H3 H8 He. apply HQ. destruct (Z.eqb_spec crn 2); [done|]. right. split; [|done].
    destruct (Z.eqb_spec crn 8), (Z.eqb_spec crn 3), (Z.eqb_spec crn 1); done. }
  repeat match goal with |- wp _ (if ?c =? ?k then _ else _) _ _ => destruct (Z.eqb_spec c k) as [->|] end.
  - sys_steps; apply HK; try lia; by_kept.
  - apply set_c1_wp. exact HQ.
  - apply set_c2_wp. exact HQ.
  - sys_steps. apply HF; [lia|by_flushed].
  - sys_steps.
  - apply (set_plain_wp e s op1 op2 crm val); [repeat (first [apply list_elem_of_here|apply list_elem_of_further])|done|]. intros e' He. by apply HK.
  - apply (set_plain_wp e s op1 op2 crm val); [repeat (first [apply list_elem_of_here|apply list_elem_of_further])|done|]. intros e' He. by apply HK.
  - sys_steps. apply HK; try lia; by_kept.
  - unfold set_c8. sys_steps; apply HF; try lia; by_flushed.
  - apply (set_plain_wp e s op1 op2 crm val); [repeat (first [apply list_elem_of_here|apply list_elem_of_further])|done|]. intros e' He. by apply HK.
  - sys_steps. apply HK; try lia; by_kept.
  - sys_steps.
  - apply set_c13_wp; [by apply Hf|]. intros e' [He|He]; [by apply HF|by apply HK].
  - sys_steps.
  - apply (set_plain_wp e s op1 op2 crm val); [repeat (first [apply list_elem_of_here|apply list_elem_of_further])|done|]. intros e' He. by apply HK.
  - sys_steps. apply HK; try lia; by_kept.
Qed.

(** ** Page tables and the TLB *)
(** The invariant of the TLB, apart from what its entries say. *)
Record tlb_core e s : Prop := mkCore {
  tc_dims : tlb_dims e; tc_mem : mem_ok s; tc_mmu : mmu_ok e; tc_feature : arm_feature e ARM_FEATURE_MPU = false; tc_watch : watchpoints e = []
}.
Lemma core_inv e s : tlb_inv e s <-> tlb_core e s /\ coherent e s.
Proof.
  split; [intros [H1 H2 H3 H4 H5 H6]; split; [by constructor|exact H6]|intros [[H1 H2 H3 H4 H5] H6]; by constructor].
Qed.
Lemma flushed_inv e e' s : tlb_core e s -> flushed e e' -> tlb_inv e' s.
Proof.
  intros [[D1 D2] C2 C3 C4 C5] (F1 & F2 & F3 & F4 & F5). split.
  - split; [rewrite F1; apply empty_dims|rewrite F2; exact D2].
  - exact C2.
  - exact (F5 C3).
  - unfold arm_feature in *. by rewrite F4.
  - by rewrite F3.
  - exact (empty_coherent e' s F1).
Qed.
Lemma view_feature e e' f : mmu_view e' = mmu_view e -> arm_feature e' f = arm_feature e f.
Proof. intros [= E _]. unfold arm_feature. by rewrite E. Qed.
Lemma kept_core e e' s : tlb_core e s -> kept e e' -> tlb_core e' s.
Proof.
  intros [[D1 D2] C2 C3 C4 C5] (K1 & K2 & K3 & K4).
  split; [split; [by rewrite K1|by rewrite K2]|exact C2|by eapply view_mmu_ok|by rewrite (view_feature e)|by rewrite K3].
Qed.
Lemma kept_inv e e' s : tlb_inv e s -> kept e e' -> tlb_inv e' s.
Proof.
  intros Hi (K1 & K2 & K3 & K4). pose proof (ti_feature _ _ Hi) as HF.
  apply (tlb_inv_same e s e' s Hi K1 K2 K3 K4); [apply agree_refl, (mem_ok_wf _ (ti_mem _ _ Hi))|exact (fun r Hr => Hr)|].
  intros m a t _. unfold target. by apply translate_view.
Qed.
Lemma retabled_core e e' s : tlb_core e s -> retabled e e' -> tlb_core e' s.
Proof.
  intros [[D1 D2] C2 C3 C4 C5] (R1 & R2 & R3 & R4 & R5).
  split; [split; [by rewrite R1|by rewrite R2]|exact C2|exact (R5 C3)|unfold arm_feature in *; by rewrite R4|by rewrite R3].
Qed.

(** Whether entries of old page tables may be left after a write. *)
Definition stale_after (stale : bool) (w : Z * Z) : bool :=
  if cp15_crn w.1 =? 2 then true else stale && negb (flushes w.1).
Definition cp15_writes (ws : list (Z * Z)) : SYS D unit := for_each ws (fun w => set_cp15 w.1 w.2).
Lemma stale_step e e' s stale w : tlb_core e s -> (stale = false -> coherent e s) -> write_effect w.1 e e' ->
  tlb_core e' s /\ (stale_after stale w = false -> coherent e' s).
Proof.
  intros Hc Hco He. unfold write_effect, stale_after in *. destruct (cp15_crn w.1 =? 2); [by split; [eapply retabled_core|]|].
  destruct He as [He|[Hf He]].
  - pose proof (flushed_inv _ _ _ Hc He) as Hi. apply core_inv in Hi as [H1 H2]. by split.
  - rewrite Hf, andb_true_r. split; [by eapply kept_core|]. intros Hs. apply (ti_coherent e' s). eapply kept_inv; [|exact He].
    apply core_inv. split; [exact Hc|exact (Hco Hs)].
Qed.

(** C21: the registers of the system control coprocessor and the TLB work together.  Any
    sequence of register writes that the emulator implements leaves memory alone, and if the
    TLB was coherent with the page tables at first (or was flushed meanwhile), it is
    coherent with the tables the registers now select, provided that the last write to a
    page-table register is followed by a write that flushes: to the TLB operations, the
    domains or the control register.  The other writes either change nothing that a
    translation depends on or flush. *)
Theorem cp15_tlb_protocol ws : forall e s stale, tlb_core e s -> (stale = false -> coherent e s) -> Forall write_ok ws ->
  wp only_hw (cp15_writes ws) (fun _ x => x.2 = s /\ tlb_core x.1 s /\ (foldl stale_after stale ws = false -> tlb_inv x.1 s)) (e, s).
Proof.
  induction ws as [|[insn val] ws IH]; intros e s stale Hc Hco Hws; cbn [cp15_writes for_each foldl].
  - unfold cp15_writes. cbn [for_each]. wp_step. split; [done|]. split; [exact Hc|]. intros Hs. apply core_inv. split; [exact Hc|exact (Hco Hs)].
  - apply Forall_cons_1 in Hws as [Hw Hws]. unfold cp15_writes. cbn [for_each]. wp_step.
    apply set_cp15_wp; [exact Hw|exact (tc_feature _ _ Hc)|]. intros e' He.
    destruct (stale_step e e' s stale (insn, val) Hc Hco He) as [Hc' Hco']. exact (IH e' s _ Hc' Hco' Hws).
Qed.

(** ** Reading back *)
Inductive sysreg := SCTLR | CPACR | TTBR0 | TTBR1 | DACR | DFSR | IFSR | DFAR | IFAR | DLOCK | ILOCK | FCSE | CONTEXT | TLS1 | TLS2 | TLS3.
#[local] Instance sysreg_eq : EqDecision sysreg.
Proof. solve_decision. Defined.
(** The fields crn, op1, crm and op2 that name a register. *)
Definition sysreg_name (r : sysreg) : Z * Z * Z * Z :=
  match r with
  | SCTLR => (1, 0, 0, 0) | CPACR => (1, 0, 0, 2) | TTBR0 => (2, 0, 0, 0) | TTBR1 => (2, 0, 0, 1) | DACR => (3, 0, 0, 0)
  | DFSR => (5, 0, 0, 0) | IFSR => (5, 0, 0, 1) | DFAR => (6, 0, 0, 0) | IFAR => (6, 0, 0, 2)
  | DLOCK => (9, 0, 0, 0) | ILOCK => (9, 0, 0, 1)
  | FCSE => (13, 0, 0, 0) | CONTEXT => (13, 0, 0, 1) | TLS1 => (13, 0, 0, 2) | TLS2 => (13, 0, 0, 3) | TLS3 => (13, 0, 0, 4)
  end.
Definition accesses (insn : Z) (r : sysreg) : Prop := (cp15_crn insn, cp15_op1 insn, cp15_crm insn, cp15_op2 insn) = sysreg_name r.
(** The file of registers. *)
Definition reg_value (r : sysreg) (c : cp15_state) : Z :=
  match r with
  | SCTLR => c1_sys c | CPACR => c1_coproc c | TTBR0 => c2_base0 c | TTBR1 => c2_base1 c | DACR => c3 c
  | DFSR => c5_data c | IFSR => c5_insn c | DFAR => c6_data c | IFAR => c6_insn c | DLOCK => c9_data c | ILOCK => c9_insn c
  | FCSE => c13_fcse c | CONTEXT => c13_context c | TLS1 => c13_tls1 c | TLS2 => c13_tls2 c | TLS3 => c13_tls3 c
  end.
(** A core with an MMU and the ARMv6 fault registers. *)
Definition v6_mmu e : Prop := arm_feature e ARM_FEATURE_MPU = false /\ arm_feature e ARM_FEATURE_OMAPCP = false /\
  arm_feature e ARM_FEATURE_XSCALE = false /\ arm_feature e ARM_FEATURE_V6 = true.
Lemma get_sysreg_wp E e insn r : v6_mmu e -> accesses insn r ->
  wp E (get_cp15 insn) (fun v e' => v = reg_value r (cp15 e) /\ e' = e) e.
Proof.
  intros (HM & HO & HX & H6) Ha. unfold accesses in Ha. unfold get_cp15, get_c1, get_c2, get_c5, get_c6, get_c9, get_c13. cbv zeta. wp_step. wp_step.
  rewrite HM, HO, HX, H6. destruct r; injection Ha as -> -> -> ->; reflexivity || (split; reflexivity).
Qed.
(** A write changes the register and, of the rest of the coprocessor, nothing. *)
Definition reg_set (r : sysreg) (v : Z) e e' : Prop :=
  features e' = features e /\ forall q, reg_value q (cp15 e') = if decide (q = r) then v else reg_value q (cp15 e).
Lemma set_sysreg_wp E e s insn r val (Q : unit -> CPUARMState * machine D -> Prop) : v6_mmu e -> accesses insn r ->
  (forall e', reg_set r val e e' -> Q tt (e', s)) -> wp E (set_cp15 insn val) Q (e, s).
Proof.
  intros (HM & HO & HX & H6) Ha HQ. unfold accesses in Ha. unfold set_cp15, set_c1, set_c2, set_c5, set_c6, set_c9, set_c13. cbv zeta.
  wp_step. apply wp_on_cpu. wp_step. rewrite HM, HO, HX. destruct r; injection Ha as -> -> -> ->; cbn [Z.eqb Pos.eqb negb orb andb];
    repeat sys_step; apply HQ; (split; [reflexivity|]); intros []; try reflexivity.
  by match goal with H : negb _ = false |- _ => apply negb_false_iff, Z.eqb_eq in H end.
Qed.

(** On a core with an MMU the named registers of coprocessor 15 are a register file: a
    write of any of them succeeds, and afterwards the register reads as the value written and
    every other one as before. *)
Theorem cp15_register_file e s r insn val : v6_mmu e -> accesses insn r ->
  exists e' s', set_cp15 insn val (e, s) = Ok (tt, (e', s')) /\ v6_mmu e' /\ s' = s /\
    forall q insn', accesses insn' q -> exists old,
      get_cp15 insn' e = Ok (old, e) /\ get_cp15 insn' e' = Ok (if decide (q = r) then val else old, e').
Proof.
  intros Hv Ha. assert (wp no_err (set_cp15 insn val) (fun _ x => reg_set r val e x.1 /\ x.2 = s) (e, s)) as H
    by (eapply set_sysreg_wp; [exact Hv|exact Ha|]; intros e' He; by split).
  apply wp_total_ex in H as ([] & [e' s'] & Hrun & [Hf Hr] & Hs). cbn [fst snd] in *. exists e', s'. split; [exact Hrun|].
  assert (v6_mmu e') as Hv' by (unfold v6_mmu, arm_feature in *; by rewrite Hf). split; [exact Hv'|]. split; [exact Hs|].
  intros q insn' Hq. exists (reg_value q (cp15 e)).
  pose proof (get_sysreg_wp no_err e insn' q Hv Hq) as G. apply wp_total_ex in G as (v & e1 & G & -> & ->).
  pose proof (get_sysreg_wp no_err e' insn' q Hv' Hq) as G'. apply wp_total_ex in G' as (v' & e2 & G' & -> & ->).
  split; [exact G|]. by rewrite G', Hr.
Qed.
End sys.

(** ** Permissions of the protection unit *)
Lemma below n (P : Z -> Prop) : Forall P (seqZ 0 n) -> forall i, 0 <= i < n -> P i.
Proof. intros H i Hi. apply (proj1 (List.Forall_forall _ _) H i), list_elem_of_In, elem_of_seqZ. lia. Qed.
(** An equation of bits of [f], for each index in turn. *)
Ltac each_bit n f :=
  apply (below n); let l := eval vm_compute in (seqZ 0 n) in change (seqZ 0 n) with l;
  repeat (apply Forall_cons_2; [vm_compute; repeat match goal with |- context [f ?c] => destruct (f c) end; reflexivity|]); apply Forall_nil_2.
Lemma extended_bits v i : 0 <= i < 32 -> Z.testbit (extended_mpu_ap_bits v) i = (i mod 4 <? 2) && Z.testbit v (i / 4 * 2 + i mod 4).
Proof.
  intros Hi. change (extended_mpu_ap_bits v) with
    (Z.lor (Z.lor (Z.lor (Z.lor (Z.lor (Z.lor (Z.lor (Z.lor 0 (wrap 32 (Z.shiftl (Z.land v 3) 0))) (wrap 32 (Z.shiftl (Z.land v 12)
    2))) (wrap 32 (Z.shiftl (Z.land v 48) 4))) (wrap 32 (Z.shiftl (Z.land v 192) 6))) (wrap 32 (Z.shiftl (Z.land v 768) 8))) (wrap 32
    (Z.shiftl (Z.land v 3072) 10))) (wrap 32 (Z.shiftl (Z.land v 12288) 12))) (wrap 32 (Z.shiftl (Z.land v 49152) 14))).
  rewrite !Z.lor_spec, !wrap_testbit, Z.bits_0 by lia. rewrite (proj2 (Z.ltb_lt i 32)), !andb_true_l by lia.
  rewrite !Z.shiftl_spec, !Z.land_spec by lia. generalize (Z.testbit v). intros f. revert i Hi.
  each_bit 32 f.
Qed.
Lemma simple_bits v i : 0 <= i < 16 -> Z.testbit (simple_mpu_ap_bits v) i = Z.testbit v (i / 2 * 4 + i mod 2).
Proof.
  intros Hi. change (simple_mpu_ap_bits v) with
    (Z.lor (Z.lor (Z.lor (Z.lor (Z.lor (Z.lor (Z.lor (Z.lor 0 (Z.land (Z.shiftr v 0) 3)) (Z.land (Z.shiftr v 2) 12)) (Z.land (Z.shiftr
    v 4) 48)) (Z.land (Z.shiftr v 6) 192)) (Z.land (Z.shiftr v 8) 768)) (Z.land (Z.shiftr v 10) 3072)) (Z.land (Z.shiftr v 12) 12288))
    (Z.land (Z.shiftr v 14) 49152)).
  rewrite !Z.lor_spec, !Z.land_spec, Z.bits_0 by lia. 
  rewrite !Z.shiftr_spec by lia. generalize (Z.testbit v). intros f. revert i Hi.
  each_bit 16 f.
Qed.
(** The short form of the extended form is the short form. *)
Lemma simple_extended v i : 0 <= i < 16 -> Z.testbit (simple_mpu_ap_bits (extended_mpu_ap_bits v)) i = Z.testbit v i.
Proof.
  intros Hi. rewrite simple_bits by done. pose proof (Z.div_mod i 2 ltac:(lia)). pose proof (Z.mod_pos_bound i 2 ltac:(lia)).
  rewrite extended_bits by lia. generalize (Z.testbit v). intros f. revert i Hi H H0. intros i Hi _ _. revert i Hi. each_bit 16 f.
Qed.

(** ** New page tables for the machine of ArmLoad *)
#[local] Existing Instance PhysRw.no_devices.
#[local] Instance no_tb_flush : TbFlush unit := {| tb_flush := mret tt; cpu_unlink_tb := mret tt |}.
#[local] Instance no_tb_flush_laws : TbFlushLaws unit.
Proof. split; intros E e s Q HQ; exact HQ. Qed.
(** MCR p15, 0, rd, c2, c0, 0 and MCR p15, 0, rd, c8, c7, 0. *)
Definition write_ttbr0 : Z := 0xee020f10.
Definition invalidate_tlb : Z := 0xee080f17.
Example cp15_tlb_protocol_witness : exists e' s',
  cp15_writes [(write_ttbr0, 0x4000); (invalidate_tlb, 0)] (paged_cpu, paged_machine) = Ok (tt, (e', s')) /\
  c2_base0 (cp15 e') = 0x4000 /\ tlb_inv e' paged_machine.
Proof.
  assert (Forall write_ok [(write_ttbr0, 0x4000); (invalidate_tlb, 0)]) as Hw.
  { repeat apply Forall_cons_2; [..|apply Forall_nil_2]; (split; [split; [discriminate|reflexivity]|discriminate]). }
  pose proof (cp15_tlb_protocol [(write_ttbr0, 0x4000); (invalidate_tlb, 0)] paged_cpu paged_machine false
    (proj1 (proj1 (core_inv _ _) paged_inv)) (fun _ => ti_coherent _ _ paged_inv) Hw) as H.
  assert (exists e', cp15_writes [(write_ttbr0, 0x4000); (invalidate_tlb, 0)] (paged_cpu, paged_machine) = Ok (tt, (e', paged_machine)) /\
    c2_base0 (cp15 e') = 0x4000) as (e' & Hrun & Hb) by (eexists; split; reflexivity).
  exists e', paged_machine. split; [exact Hrun|]. split; [exact Hb|]. unfold wp in H. rewrite Hrun in H. exact (proj2 (proj2 H) eq_refl).
Defined.
Example cp15_register_file_witness : exists e' s',
  set_cp15 write_ttbr0 0x4000 (paged_cpu <| features := bit 4 |>, paged_machine) = Ok (tt, (e', s')) /\ get_cp15 write_ttbr0 e' = Ok (0x4000, e').
Proof.
  destruct (cp15_register_file (paged_cpu <| features := bit 4 |>) paged_machine TTBR0 write_ttbr0 0x4000) as (e' & s' & Hrun & _ & _ & Hg).
  - split; [|split; [|split]]; reflexivity.
  - reflexivity.
  - destruct (Hg TTBR0 write_ttbr0 eq_refl) as (old & _ & G). exists e', s'. split; [exact Hrun|exact G].
Defined.
