(* ===== verification/ArmArith.v ===== *)
(** * ArmArith: integer arithmetic of the ARM instructions (target-arm/op_helper.c,
    helper.c, op_addsub.h)

    Helpers the translated code calls: arithmetic and shifts that set the condition flags,
    saturating arithmetic, which sets the sticky flag Q, and the ARMv6 instructions that
    add and subtract the halves or the bytes of a register in parallel.  Their reference is
    arithmetic on integers: a result is the exact one, wrapped, halved, or clamped to the
    range of the type. *)
From S2P Require Import Prelude HostUtils ArmCpu ArmModes.
#[local] Open Scope Z_scope.

(** The value of a w-bit word as a signed integer. *)
Definition sgn (w x : Z) : Z := let y := wrap w x in if y <? 2 ^ (w - 1) then y else y - 2 ^ w.

(** ** Flag-setting arithmetic (op_helper.c) *)
Definition SIGNBIT : Z := 0x80000000.
Definition SIGNBIT64 : Z := bit 63.
Definition set_QF : CPU unit := modify (fun e => e <| QF := 1 |>).
Definition set_flags (result cf vf : Z) : CPU unit :=
  modify (fun e => e <| NF := result |> <| ZF := result |> <| CF := cf |> <| VF := vf |>).
Definition set_CF (c : Z) : CPU unit := modify (fun e => e <| CF := c |>).
(** [-1] on uint32_t. *)
Definition all_ones : Z := 0xffffffff.

Definition add_cc (a b : Z) : CPU Z :=
  let result := wrap 32 (a + b) in
  set_flags result (Z.b2z (result <? a)) (Z.land (Z.lxor (Z.lxor a b) all_ones) (Z.lxor a result)) ;;
  mret result.
Definition adc_cc (a b : Z) : CPU Z :=
  e ← get;
  let '(result, cf) := if negb (truth (CF e)) then let r := wrap 32 (a + b) in (r, Z.b2z (r <? a))
    else let r := wrap 32 (a + b + 1) in (r, Z.b2z (r <=? a)) in
  set_flags result cf (Z.land (Z.lxor (Z.lxor a b) all_ones) (Z.lxor a result)) ;;
  mret result.
Definition sub_cc (a b : Z) : CPU Z :=
  let result := wrap 32 (a - b) in
  set_flags result (Z.b2z (b <=? a)) (Z.land (Z.lxor a b) (Z.lxor a result)) ;;
  mret result.
Definition sbc_cc (a b : Z) : CPU Z :=
  e ← get;
  let '(result, cf) := if negb (truth (CF e)) then (wrap 32 (a - b - 1), Z.b2z (b <? a))
    else (wrap 32 (a - b), Z.b2z (b <=? a)) in
  set_flags result cf (Z.land (Z.lxor a b) (Z.lxor a result)) ;;
  mret result.

(** ** Shifts by a register *)
Definition helper_shl (x i : Z) : Z := let shift := Z.land i 0xff in if 32 <=? shift then 0 else wrap 32 (Z.shiftl x shift).
Definition helper_shr (x i : Z) : Z := let shift := Z.land i 0xff in if 32 <=? shift then 0 else Z.shiftr x shift.
Definition helper_sar (x i : Z) : Z :=
  let shift := Z.land i 0xff in
  let shift := if 32 <=? shift then 31 else shift in
  wrap 32 (Z.shiftr (sgn 32 x) shift).
Definition shl_cc (x i : Z) : CPU Z :=
  let shift := Z.land i 0xff in
  if 32 <=? shift then
    set_CF (if shift =? 32 then Z.land x 1 else 0) ;; mret 0
  else if negb (shift =? 0) then
    set_CF (Z.land (Z.shiftr x (32 - shift)) 1) ;; mret (wrap 32 (Z.shiftl x shift))
  else mret x.
Definition shr_cc (x i : Z) : CPU Z :=
  let shift := Z.land i 0xff in
  if 32 <=? shift then
    set_CF (if shift =? 32 then Z.land (Z.shiftr x 31) 1 else 0) ;; mret 0
  else if negb (shift =? 0) then
    set_CF (Z.land (Z.shiftr x (shift - 1)) 1) ;; mret (Z.shiftr x shift)
  else mret x.
Definition sar_cc (x i : Z) : CPU Z :=
  let shift := Z.land i 0xff in
  if 32 <=? shift then
    set_CF (Z.land (Z.shiftr x 31) 1) ;; mret (wrap 32 (Z.shiftr (sgn 32 x) 31))
  else if negb (shift =? 0) then
    set_CF (Z.land (Z.shiftr x (shift - 1)) 1) ;; mret (wrap 32 (Z.shiftr (sgn 32 x) shift))
  else mret x.
Definition ror_cc (x i : Z) : CPU Z :=
  let shift1 := Z.land i 0xff in
  let shift := Z.land shift1 0x1f in
  if shift =? 0 then
    when (negb (shift1 =? 0)) (set_CF (Z.land (Z.shiftr x 31) 1)) ;; mret x
  else
    set_CF (Z.land (Z.shiftr x (shift - 1)) 1) ;;
    mret (Z.lor (Z.shiftr x shift) (wrap 32 (Z.shiftl x (32 - shift)))).

(** ** Saturating arithmetic (op_helper.c) *)
Definition add_setq (a b : Z) : CPU Z :=
  let res := wrap 32 (a + b) in
  when (truth (Z.land (Z.lxor res a) SIGNBIT) && negb (truth (Z.land (Z.lxor a b) SIGNBIT))) set_QF ;;
  mret res.
(** [~(((int32_t)a >> 31) ^ SIGNBIT)] *)
Definition limit_of (a : Z) : Z := not32 (Z.lxor (wrap 32 (Z.shiftr (sgn 32 a) 31)) SIGNBIT).
Definition add_saturate (a b : Z) : CPU Z :=
  let res := wrap 32 (a + b) in
  if truth (Z.land (Z.lxor res a) SIGNBIT) && negb (truth (Z.land (Z.lxor a b) SIGNBIT)) then
    set_QF ;; mret (limit_of a)
  else mret res.
Definition sub_saturate (a b : Z) : CPU Z :=
  let res := wrap 32 (a - b) in
  if truth (Z.land (Z.lxor res a) SIGNBIT) && truth (Z.land (Z.lxor a b) SIGNBIT) then
    set_QF ;; mret (limit_of a)
  else mret res.
(** The argument is an int32_t. *)
Definition double_saturate (val : Z) : CPU Z :=
  if 0x40000000 <=? val then set_QF ;; mret (not32 SIGNBIT)
  else if val <=? sgn 32 0xc0000000 then set_QF ;; mret SIGNBIT
  else mret (wrap 32 (Z.shiftl val 1)).
Definition add_usaturate (a b : Z) : CPU Z :=
  let res := wrap 32 (a + b) in
  if res <? a then set_QF ;; mret all_ones else mret res.
Definition sub_usaturate (a b : Z) : CPU Z :=
  let res := wrap 32 (a - b) in
  if a <? res then set_QF ;; mret 0 else mret res.
Definition do_ssat (val shift : Z) : CPU Z :=
  let top := Z.shiftr val shift in
  let mask := wrap 32 (wrap 32 (Z.shiftl 1 shift) - 1) in
  if 0 <? top then set_QF ;; mret mask
  else if top <? -1 then set_QF ;; mret (not32 mask)
  else mret (wrap 32 val).
Definition do_usat (val shift : Z) : CPU Z :=
  let max := wrap 32 (wrap 32 (Z.shiftl 1 shift) - 1) in
  if val <? 0 then set_QF ;; mret 0
  else if max <? wrap 32 val then set_QF ;; mret max
  else mret (wrap 32 val).
Definition ssat (x shift : Z) : CPU Z := do_ssat (sgn 32 x) shift.
Definition ssat16 (x shift : Z) : CPU Z :=
  l ← do_ssat (sgn 16 x) shift;
  h ← do_ssat (Z.shiftr (sgn 32 x) 16) shift;
  mret (Z.lor (wrap 16 l) (wrap 32 (Z.shiftl h 16))).
Definition usat (x shift : Z) : CPU Z := do_usat (sgn 32 x) shift.
Definition usat16 (x shift : Z) : CPU Z :=
  l ← do_usat (sgn 16 x) shift;
  h ← do_usat (Z.shiftr (sgn 32 x) 16) shift;
  mret (Z.lor (wrap 16 l) (wrap 32 (Z.shiftl h 16))).

(** ** Bit and division helpers (helper.c) *)
Definition sxtb16 (x : Z) : Z :=
  Z.lor (wrap 16 (sgn 8 x)) (wrap 32 (Z.shiftl (sgn 8 (Z.shiftr x 16)) 16)).
Definition uxtb16 (x : Z) : Z :=
  Z.lor (wrap 16 (wrap 8 x)) (wrap 32 (Z.shiftl (wrap 8 (Z.shiftr x 16)) 16)).
Definition clz (x : Z) : Z := clz32 x.
Definition INT_MIN : Z := - 2 ^ 31.
(** The arguments are of type int32_t. *)
Definition sdiv (num den : Z) : Z :=
  if den =? 0 then 0 else if (num =? INT_MIN) && (den =? -1) then INT_MIN else Z.quot num den.
Definition udiv (num den : Z) : Z := if den =? 0 then 0 else num / den.
Definition rbit (x : Z) : Z :=
  let x := Z.lor (Z.shiftr (Z.land x 0xff000000) 24) (Z.lor (Z.shiftr (Z.land x 0x00ff0000) 8)
    (Z.lor (Z.shiftl (Z.land x 0x0000ff00) 8) (Z.shiftl (Z.land x 0x000000ff) 24))) in
  let x := Z.lor (Z.shiftr (Z.land x 0xf0f0f0f0) 4) (Z.shiftl (Z.land x 0x0f0f0f0f) 4) in
  Z.lor (Z.shiftr (Z.land x 0x88888888) 3) (Z.lor (Z.shiftr (Z.land x 0x44444444) 1)
    (Z.lor (Z.shiftl (Z.land x 0x22222222) 1) (Z.shiftl (Z.land x 0x11111111) 3))).
Definition abs (x : Z) : Z := if sgn 32 x <? 0 then wrap 32 (- x) else x.

(** ** Parallel addition and subtraction (helper.c, op_addsub.h) *)
(** In the C functions of two words, the arguments are converted to the type of a lane. *)
Definition add16_sat (a b : Z) : Z :=
  let a := wrap 16 a in let b := wrap 16 b in
  let res := wrap 16 (a + b) in
  if truth (Z.land (Z.lxor res a) 0x8000) && negb (truth (Z.land (Z.lxor a b) 0x8000)) then
    if truth (Z.land a 0x8000) then 0x8000 else 0x7fff
  else res.
Definition add8_sat (a b : Z) : Z :=
  let a := wrap 8 a in let b := wrap 8 b in
  let res := wrap 8 (a + b) in
  if truth (Z.land (Z.lxor res a) 0x80) && negb (truth (Z.land (Z.lxor a b) 0x80)) then
    if truth (Z.land a 0x80) then 0x80 else 0x7f
  else res.
Definition sub16_sat (a b : Z) : Z :=
  let a := wrap 16 a in let b := wrap 16 b in
  let res := wrap 16 (a - b) in
  if truth (Z.land (Z.lxor res a) 0x8000) && truth (Z.land (Z.lxor a b) 0x8000) then
    if truth (Z.land a 0x8000) then 0x8000 else 0x7fff
  else res.
Definition sub8_sat (a b : Z) : Z :=
  let a := wrap 8 a in let b := wrap 8 b in
  let res := wrap 8 (a - b) in
  if truth (Z.land (Z.lxor res a) 0x80) && truth (Z.land (Z.lxor a b) 0x80) then
    if truth (Z.land a 0x80) then 0x80 else 0x7f
  else res.
Definition add16_usat (a b : Z) : Z :=
  let a := wrap 16 a in let b := wrap 16 b in
  let res := wrap 16 (a + b) in if res <? a then 0xffff else res.
Definition sub16_usat (a b : Z) : Z :=
  let a := wrap 16 a in let b := wrap 16 b in if b <? a then a - b else 0.
Definition add8_usat (a b : Z) : Z :=
  let a := wrap 8 a in let b := wrap 8 b in
  let res := wrap 8 (a + b) in if res <? a then 0xff else res.
Definition sub8_usat (a b : Z) : Z :=
  let a := wrap 8 a in let b := wrap 8 b in if b <? a then a - b else 0.

(** The variables [res] and [ge] of a helper. *)
Record addsub_acc := mkAcc { acc_res : Z; acc_ge : Z }.
Definition RESULT (width val n : Z) (s : addsub_acc) : addsub_acc :=
  mkAcc (Z.lor (acc_res s) (Z.shiftl (wrap width val) (n * width))) (acc_ge s).
Definition GE_bits (c : bool) (bits : Z) (s : addsub_acc) : addsub_acc :=
  if c then mkAcc (acc_res s) (Z.lor (acc_ge s) bits) else s.
Abbreviation lane_op := (Z -> Z -> Z -> addsub_acc -> addsub_acc).
(** The macros op_addsub.h is included with. *)
Record addsub_ops := mkOps { ADD16 : lane_op; SUB16 : lane_op; ADD8 : lane_op; SUB8 : lane_op }.
Definition SARITH16 (op : Z -> Z -> Z) : lane_op := fun a b n s =>
  let sum := sgn 16 (op (wrap 16 a) (wrap 16 b)) in
  GE_bits (0 <=? sum) (Z.shiftl 3 (n * 2)) (RESULT 16 sum n s).
Definition SARITH8 (op : Z -> Z -> Z) : lane_op := fun a b n s =>
  let sum := sgn 8 (op (wrap 8 a) (wrap 8 b)) in
  GE_bits (0 <=? sum) (Z.shiftl 1 n) (RESULT 8 sum n s).

Definition q_ops : addsub_ops := mkOps
  (fun a b => RESULT 16 (add16_sat a b)) (fun a b => RESULT 16 (sub16_sat a b))
  (fun a b => RESULT 8 (add8_sat a b)) (fun a b => RESULT 8 (sub8_sat a b)).
Definition uq_ops : addsub_ops := mkOps
  (fun a b => RESULT 16 (add16_usat a b)) (fun a b => RESULT 16 (sub16_usat a b))
  (fun a b => RESULT 8 (add8_usat a b)) (fun a b => RESULT 8 (sub8_usat a b)).
Definition s_ops : addsub_ops := mkOps (SARITH16 Z.add) (SARITH16 Z.sub) (SARITH8 Z.add) (SARITH8 Z.sub).
Definition u_ops : addsub_ops := mkOps
  (fun a b n s => let sum := wrap 32 (wrap 16 a + wrap 16 b) in
    GE_bits (Z.shiftr sum 16 =? 1) (Z.shiftl 3 (n * 2)) (RESULT 16 sum n s))
  (fun a b n s => let sum := wrap 32 (wrap 16 a - wrap 16 b) in
    GE_bits (Z.shiftr sum 16 =? 0) (Z.shiftl 3 (n * 2)) (RESULT 16 sum n s))
  (fun a b n s => let sum := wrap 32 (wrap 8 a + wrap 8 b) in
    GE_bits (Z.shiftr sum 8 =? 1) (Z.shiftl 1 n) (RESULT 8 sum n s))
  (fun a b n s => let sum := wrap 32 (wrap 8 a - wrap 8 b) in
    GE_bits (Z.shiftr sum 8 =? 0) (Z.shiftl 1 n) (RESULT 8 sum n s)).
Definition sh_ops : addsub_ops := mkOps
  (fun a b => RESULT 16 (Z.shiftr (sgn 16 a + sgn 16 b) 1)) (fun a b => RESULT 16 (Z.shiftr (sgn 16 a - sgn 16 b) 1))
  (fun a b => RESULT 8 (Z.shiftr (sgn 8 a + sgn 8 b) 1)) (fun a b => RESULT 8 (Z.shiftr (sgn 8 a - sgn 8 b) 1)).
Definition uh_ops : addsub_ops := mkOps
  (fun a b => RESULT 16 (Z.shiftr (wrap 32 (wrap 16 a + wrap 16 b)) 1)) (fun a b => RESULT 16 (Z.shiftr (wrap 32 (wrap 16 a - wrap 16 b)) 1))
  (fun a b => RESULT 8 (Z.shiftr (wrap 32 (wrap 8 a + wrap 8 b)) 1)) (fun a b => RESULT 8 (Z.shiftr (wrap 32 (wrap 8 a - wrap 8 b)) 1)).

(** The six functions of op_addsub.h: [res] is returned, and [ge] stored through [gep]
    where ARITH_GE is defined. *)
Section op_addsub.
  Context (o : addsub_ops).
Definition add16 (a b : Z) : addsub_acc := ADD16 o (Z.shiftr a 16) (Z.shiftr b 16) 1 (ADD16 o a b 0 (mkAcc 0 0)).
Definition add8 (a b : Z) : addsub_acc :=
  ADD8 o (Z.shiftr a 24) (Z.shiftr b 24) 3 (ADD8 o (Z.shiftr a 16) (Z.shiftr b 16) 2
    (ADD8 o (Z.shiftr a 8) (Z.shiftr b 8) 1 (ADD8 o a b 0 (mkAcc 0 0)))).
Definition sub16 (a b : Z) : addsub_acc := SUB16 o (Z.shiftr a 16) (Z.shiftr b 16) 1 (SUB16 o a b 0 (mkAcc 0 0)).
Definition sub8 (a b : Z) : addsub_acc :=
  SUB8 o (Z.shiftr a 24) (Z.shiftr b 24) 3 (SUB8 o (Z.shiftr a 16) (Z.shiftr b 16) 2
    (SUB8 o (Z.shiftr a 8) (Z.shiftr b 8) 1 (SUB8 o a b 0 (mkAcc 0 0)))).
Definition subaddx (a b : Z) : addsub_acc := SUB16 o (Z.shiftr a 16) b 1 (ADD16 o a (Z.shiftr b 16) 0 (mkAcc 0 0)).
Definition addsubx (a b : Z) : addsub_acc := ADD16 o (Z.shiftr a 16) b 1 (SUB16 o a (Z.shiftr b 16) 0 (mkAcc 0 0)).
End op_addsub.

Definition do_usad (a b : Z) : Z :=
  let a := wrap 8 a in let b := wrap 8 b in if b <? a then a - b else b - a.
Definition usad8 (a b : Z) : Z :=
  do_usad a b + do_usad (Z.shiftr a 8) (Z.shiftr b 8) + do_usad (Z.shiftr a 16) (Z.shiftr b 16) + do_usad (Z.shiftr a 24) (Z.shiftr b 24).
Definition sel_flags (flags a b : Z) : Z :=
  let mask := Z.lor (if truth (Z.land flags 1) then 0xff else 0) (Z.lor (if truth (Z.land flags 2) then 0xff00 else 0)
    (Z.lor (if truth (Z.land flags 4) then 0xff0000 else 0) (if truth (Z.land flags 8) then 0xff000000 else 0))) in
  Z.lor (Z.land a mask) (Z.land b (not32 mask)).
Definition logicq_cc (val : Z) : Z := Z.lor (wrap 32 (Z.shiftr val 32)) (Z.b2z (truth val)).

(** ** Signed words *)
(** The nearest value of a w-bit type. *)
Definition sclamp (w x : Z) : Z := Z.max (- 2 ^ (w - 1)) (Z.min (2 ^ (w - 1) - 1) x).
Definition uclamp (w x : Z) : Z := Z.max 0 (Z.min (2 ^ w - 1) x).
Definition sfits (w x : Z) : Prop := - 2 ^ (w - 1) <= x < 2 ^ (w - 1).
#[export] Instance sfits_dec w x : Decision (sfits w x).
Proof. unfold sfits. apply _. Defined.

Lemma pow_half w : 1 <= w -> 2 ^ w = 2 * 2 ^ (w - 1) /\ 0 < 2 ^ (w - 1).
Proof. intros. split; [|apply Z.pow_pos_nonneg; lia]. rewrite <- Z.pow_succ_r by lia. f_equal. lia. Qed.
Lemma msb_spec w x : 1 <= w -> fits w x -> Z.testbit x (w - 1) = (2 ^ (w - 1) <=? x).
Proof.
  intros Hw Hx. destruct (pow_half w Hw) as [HP HP0]. unfold fits in Hx. rewrite Z.testbit_eqb by lia.
  destruct (Z.leb_spec (2 ^ (w - 1)) x).
  - apply Z.eqb_eq. replace (x / 2 ^ (w - 1)) with 1; [done|]. apply (Z.div_unique_pos _ _ _ (x - 2 ^ (w - 1))); lia.
  - apply Z.eqb_neq. by rewrite Z.div_small by lia.
Qed.
Lemma sgn_msb w x : 1 <= w -> fits w x -> sgn w x = if Z.testbit x (w - 1) then x - 2 ^ w else x.
Proof.
  intros Hw Hx. rewrite msb_spec by done. unfold sgn. rewrite wrap_fits by done. cbv zeta.
  destruct (Z.ltb_spec x (2 ^ (w - 1))), (Z.leb_spec (2 ^ (w - 1)) x); done || lia.
Qed.
Lemma sgn_sfits w x : 1 <= w -> sfits w (sgn w x).
Proof.
  intros Hw. destruct (pow_half w Hw) as [HP HP0]. unfold sgn, sfits. pose proof (fits_wrap w x ltac:(lia)) as Hx. unfold fits in Hx. cbv zeta.
  destruct (Z.ltb_spec (wrap w x) (2 ^ (w - 1))); lia.
Qed.
Lemma wrap_sgn w x : 1 <= w -> wrap w (sgn w x) = wrap w x.
Proof.
  intros Hw. unfold sgn. cbv zeta. destruct (_ <? _); [apply wrap_idem; lia|].
  unfold wrap. rewrite <- Zminus_mod_idemp_r, Z.mod_same, Z.sub_0_r by (apply Z.pow_nonzero; lia). apply Z.mod_mod, Z.pow_nonzero; lia.
Qed.
Lemma sgn_wrap w x : 0 <= w -> sgn w (wrap w x) = sgn w x.
Proof. intros. unfold sgn. by rewrite wrap_idem. Qed.
Lemma sgn_id w x : 1 <= w -> sfits w x -> sgn w x = x.
Proof.
  intros Hw [H1 H2]. destruct (pow_half w Hw) as [HP HP0]. unfold sgn. cbv zeta. destruct (Z.lt_ge_cases x 0).
  - assert (wrap w x = x + 2 ^ w) as ->; [|by destruct (Z.ltb_spec (x + 2 ^ w) (2 ^ (w - 1))); lia].
    symmetry. apply (Z.mod_unique_pos _ _ (-1)); lia.
  - rewrite wrap_fits by (unfold fits; lia). by destruct (Z.ltb_spec x (2 ^ (w - 1))); [|lia].
Qed.
Lemma wrap_plus w a b : fits w a -> fits w b -> wrap w (a + b) = if a + b <? 2 ^ w then a + b else a + b - 2 ^ w.
Proof.
  unfold fits. intros. unfold wrap. destruct (Z.ltb_spec (a + b) (2 ^ w)); [apply Z.mod_small; lia|].
  symmetry. apply (Z.mod_unique_pos _ _ 1); lia.
Qed.
Lemma wrap_minus w a b : fits w a -> fits w b -> wrap w (a - b) = if b <=? a then a - b else a - b + 2 ^ w.
Proof.
  unfold fits. intros. unfold wrap. destruct (Z.leb_spec b a); [apply Z.mod_small; lia|].
  symmetry. apply (Z.mod_unique_pos _ _ (-1)); lia.
Qed.
Lemma wrap_neg w x : - 2 ^ w <= x < 0 -> wrap w x = x + 2 ^ w.
Proof. intros. symmetry. apply (Z.mod_unique_pos _ _ (-1)); lia. Qed.
(** The test of a sign bit of [x ^ y]. *)
Lemma truth_xor_msb w x y : 1 <= w -> truth (Z.land (Z.lxor x y) (2 ^ (w - 1))) = xorb (Z.testbit x (w - 1)) (Z.testbit y (w - 1)).
Proof. intros. replace (2 ^ (w - 1)) with (bit (w - 1)) by (unfold bit; rewrite Z.shiftl_mul_pow2; lia). by rewrite truth_land_bit, Z.lxor_spec by lia. Qed.

(** The overflow of an addition: same signs, and the sign of the sum differs. *)
Lemma add_overflow w a b : 1 <= w -> fits w a -> fits w b -> let r := wrap w (a + b) in
  let m x := Z.testbit x (w - 1) in
  (if xorb (m r) (m a) && negb (xorb (m a) (m b)) then ~ sfits w (sgn w a + sgn w b) else sgn w r = sgn w a + sgn w b) /\
  (sfits w (sgn w a + sgn w b) \/ m a = (sgn w a + sgn w b <? 0)).
Proof.
  intros Hw Ha Hb r m. pose proof (fits_wrap w (a + b) ltac:(lia)) as Hr. fold r in Hr. destruct (pow_half w Hw) as [HP HP0].
  rewrite !(sgn_msb w) by done. fold (m a) (m b) (m r). unfold m. rewrite !msb_spec by done. unfold r in *. rewrite wrap_plus in * by done.
  unfold fits, sfits in *. destruct (Z.ltb_spec (a + b) (2 ^ w)), (Z.leb_spec (2 ^ (w - 1)) a), (Z.leb_spec (2 ^ (w - 1)) b); cbn [xorb negb andb];
    match goal with |- context [?x <=? ?y] => destruct (Z.leb_spec x y) | |- _ => idtac end; cbn [xorb negb andb]; split; lia.
Qed.
Lemma sub_overflow w a b : 1 <= w -> fits w a -> fits w b -> let r := wrap w (a - b) in
  let m x := Z.testbit x (w - 1) in
  (if xorb (m r) (m a) && xorb (m a) (m b) then ~ sfits w (sgn w a - sgn w b) else sgn w r = sgn w a - sgn w b) /\
  (sfits w (sgn w a - sgn w b) \/ m a = (sgn w a - sgn w b <? 0)).
Proof.
  intros Hw Ha Hb r m. pose proof (fits_wrap w (a - b) ltac:(lia)) as Hr. fold r in Hr. destruct (pow_half w Hw) as [HP HP0].
  rewrite !(sgn_msb w) by done. fold (m a) (m b) (m r). unfold m. rewrite !msb_spec by done. unfold r in *. rewrite wrap_minus in * by done.
  unfold fits, sfits in *. destruct (Z.leb_spec b a), (Z.leb_spec (2 ^ (w - 1)) a), (Z.leb_spec (2 ^ (w - 1)) b); cbn [xorb negb andb];
    match goal with |- context [?x <=? ?y] => destruct (Z.leb_spec x y) | |- _ => idtac end; cbn [xorb negb andb]; split; lia.
Qed.

(** ** Saturation is clamping *)
Lemma sat_add w a b : 1 <= w -> fits w a -> fits w b -> let m x := Z.testbit x (w - 1) in
  (if xorb (m (wrap w (a + b))) (m a) && negb (xorb (m a) (m b)) then if m a then 2 ^ (w - 1) else 2 ^ (w - 1) - 1 else wrap w (a + b)) =
  wrap w (sclamp w (sgn w a + sgn w b)) /\
  xorb (m (wrap w (a + b))) (m a) && negb (xorb (m a) (m b)) = bool_decide (~ sfits w (sgn w a + sgn w b)).
Proof.
  intros Hw Ha Hb. cbv beta zeta. destruct (pow_half w Hw) as [HP HP0]. pose proof (add_overflow w a b Hw Ha Hb) as [H1 H2]. cbv beta zeta in H1, H2.
  destruct (xorb _ _ && _).
  - split; [|by rewrite bool_decide_true]. destruct H2 as [|H2]; [done|]. rewrite H2. unfold sfits in H1. unfold sclamp.
    destruct (Z.ltb_spec (sgn w a + sgn w b) 0); [rewrite wrap_neg by lia; lia|rewrite wrap_fits by (unfold fits; lia); lia].
  - assert (sfits w (sgn w a + sgn w b)) as Hs by (rewrite <- H1; by apply sgn_sfits). split; [|by rewrite bool_decide_false by tauto].
    unfold sclamp. unfold sfits in Hs. replace (Z.max _ _) with (sgn w a + sgn w b) by lia. by rewrite <- H1, wrap_sgn, wrap_idem by lia.
Qed.
Lemma sat_sub w a b : 1 <= w -> fits w a -> fits w b -> let m x := Z.testbit x (w - 1) in
  (if xorb (m (wrap w (a - b))) (m a) && xorb (m a) (m b) then if m a then 2 ^ (w - 1) else 2 ^ (w - 1) - 1 else wrap w (a - b)) =
  wrap w (sclamp w (sgn w a - sgn w b)) /\
  xorb (m (wrap w (a - b))) (m a) && xorb (m a) (m b) = bool_decide (~ sfits w (sgn w a - sgn w b)).
Proof.
  intros Hw Ha Hb. cbv beta zeta. destruct (pow_half w Hw) as [HP HP0]. pose proof (sub_overflow w a b Hw Ha Hb) as [H1 H2]. cbv beta zeta in H1, H2.
  destruct (xorb _ _ && _).
  - split; [|by rewrite bool_decide_true]. destruct H2 as [|H2]; [done|]. rewrite H2. unfold sfits in H1. unfold sclamp.
    destruct (Z.ltb_spec (sgn w a - sgn w b) 0); [rewrite wrap_neg by lia; lia|rewrite wrap_fits by (unfold fits; lia); lia].
  - assert (sfits w (sgn w a - sgn w b)) as Hs by (rewrite <- H1; by apply sgn_sfits). split; [|by rewrite bool_decide_false by tauto].
    unfold sclamp. unfold sfits in Hs. replace (Z.max _ _) with (sgn w a - sgn w b) by lia. by rewrite <- H1, wrap_sgn, wrap_idem by lia.
Qed.
Lemma sat_uadd w a b : 0 <= w -> fits w a -> fits w b ->
  (if wrap w (a + b) <? a then 2 ^ w - 1 else wrap w (a + b)) = uclamp w (a + b) /\ (wrap w (a + b) <? a) = bool_decide (~ fits w (a + b)).
Proof.
  intros Hw Ha Hb. rewrite wrap_plus by done. unfold fits, uclamp in *. destruct (Z.ltb_spec (a + b) (2 ^ w)).
  - destruct (Z.ltb_spec (a + b) a); [lia|]. rewrite bool_decide_false by lia. lia.
  - destruct (Z.ltb_spec (a + b - 2 ^ w) a); [|lia]. rewrite bool_decide_true by lia. lia.
Qed.
Lemma sat_usub w a b : 0 <= w -> fits w a -> fits w b ->
  (if a <? wrap w (a - b) then 0 else wrap w (a - b)) = uclamp w (a - b) /\ (a <? wrap w (a - b)) = bool_decide (~ fits w (a - b)).
Proof.
  intros Hw Ha Hb. rewrite wrap_minus by done. unfold fits, uclamp in *. destruct (Z.leb_spec b a).
  - destruct (Z.ltb_spec a (a - b)); [lia|]. rewrite bool_decide_false by lia. lia.
  - destruct (Z.ltb_spec a (a - b + 2 ^ w)); [|lia]. rewrite bool_decide_true by lia. lia.
Qed.
Lemma uclamp_fits w x : 0 <= w -> fits w (uclamp w x).
Proof. intros. unfold fits, uclamp. pose proof (Z.pow_pos_nonneg 2 w). lia. Qed.
(** [limit_of a]: the limit in the direction of the sign of [a]. *)
Lemma limit_of_spec a : fits 32 a -> limit_of a = if Z.testbit a 31 then 2 ^ 31 else 2 ^ 31 - 1.
Proof.
  intros Ha. unfold limit_of. pose proof (sgn_sfits 32 a ltac:(lia)) as Hs. pose proof (sgn_msb 32 a ltac:(lia) Ha) as Hm. change (32 - 1) with 31 in Hm.
  unfold sfits, fits in *. rewrite Z.shiftr_div_pow2 by done. destruct (Z.testbit a 31).
  - replace (sgn 32 a / 2 ^ 31) with (-1); [done|]. apply (Z.div_unique_pos _ _ _ (sgn 32 a + 2 ^ 31)); lia.
  - rewrite Z.div_small by lia. done.
Qed.

(** Running a computation that clamps [v] to [lo .. hi], with the flag Q. *)
Definition saturated (lo hi v : Z) (e : CPUARMState) : CPUARMState := if bool_decide (lo <= v <= hi) then e else e <| QF := 1 |>.
Definition clamp (lo hi v : Z) : Z := Z.max lo (Z.min hi v).

Lemma sgn_bit31 x y : truth (Z.land (Z.lxor x y) SIGNBIT) = xorb (Z.testbit x (32 - 1)) (Z.testbit y (32 - 1)).
Proof. exact (truth_xor_msb 32 x y ltac:(lia)). Qed.
(** The common end of the proofs: the code takes the saturating branch exactly outside the range. *)
Lemma saturated_case (P : Prop) `{Decision P} lo hi v e (x y : Z) : (P <-> ~ lo <= v <= hi) ->
  (if bool_decide P then set_QF ;; mret x else mret y : CPU Z) e = Ok (if bool_decide P then x else y, saturated lo hi v e).
Proof.
  intros HP. unfold saturated. destruct (decide P) as [p|p].
  - rewrite (bool_decide_true P) by done. by rewrite bool_decide_false by tauto.
  - rewrite (bool_decide_false P) by done. rewrite bool_decide_true; [done|]. destruct (decide (lo <= v <= hi)); tauto.
Qed.
Lemma add_saturate_run a b e : fits 32 a -> fits 32 b -> let v := sgn 32 a + sgn 32 b in
  add_saturate a b e = Ok (wrap 32 (clamp (- 2 ^ 31) (2 ^ 31 - 1) v), saturated (- 2 ^ 31) (2 ^ 31 - 1) v e).
Proof.
  intros Ha Hb v. destruct (sat_add 32 a b ltac:(lia) Ha Hb) as [H1 H2]. cbv beta zeta in H1, H2. fold v in H1, H2. rewrite H2 in H1.
  change (clamp (- 2 ^ 31) (2 ^ 31 - 1) v) with (sclamp 32 v). rewrite <- H1. unfold add_saturate. cbv zeta. rewrite !sgn_bit31, H2, limit_of_spec by done.
  apply saturated_case. unfold sfits. change (32 - 1) with 31. lia.
Qed.
Lemma sub_saturate_run a b e : fits 32 a -> fits 32 b -> let v := sgn 32 a - sgn 32 b in
  sub_saturate a b e = Ok (wrap 32 (clamp (- 2 ^ 31) (2 ^ 31 - 1) v), saturated (- 2 ^ 31) (2 ^ 31 - 1) v e).
Proof.
  intros Ha Hb v. destruct (sat_sub 32 a b ltac:(lia) Ha Hb) as [H1 H2]. cbv beta zeta in H1, H2. fold v in H1, H2. rewrite H2 in H1.
  change (clamp (- 2 ^ 31) (2 ^ 31 - 1) v) with (sclamp 32 v). rewrite <- H1. unfold sub_saturate. cbv zeta. rewrite !sgn_bit31, H2, limit_of_spec by done.
  apply saturated_case. unfold sfits. change (32 - 1) with 31. lia.
Qed.
Lemma add_setq_run a b e : fits 32 a -> fits 32 b ->
  add_setq a b e = Ok (wrap 32 (a + b), saturated (- 2 ^ 31) (2 ^ 31 - 1) (sgn 32 a + sgn 32 b) e).
Proof.
  intros Ha Hb. destruct (sat_add 32 a b ltac:(lia) Ha Hb) as [_ H2]. cbv beta zeta in H2. unfold add_setq. cbv zeta. rewrite !sgn_bit31, H2.
  transitivity (Ok (if bool_decide (~ sfits 32 (sgn 32 a + sgn 32 b)) then wrap 32 (a + b) else wrap 32 (a + b), saturated (- 2 ^ 31) (2 ^ 31 - 1) (sgn 32 a + sgn 32 b) e)).
  - rewrite <- saturated_case by (unfold sfits; change (32 - 1) with 31; lia). by destruct (bool_decide _).
  - by destruct (bool_decide _).
Qed.
Lemma add_usaturate_run a b e : fits 32 a -> fits 32 b -> add_usaturate a b e = Ok (wrap 32 (clamp 0 (2 ^ 32 - 1) (a + b)), saturated 0 (2 ^ 32 - 1) (a + b) e).
Proof.
  intros Ha Hb. destruct (sat_uadd 32 a b ltac:(lia) Ha Hb) as [H1 H2]. rewrite wrap_fits by (apply (uclamp_fits 32); lia).
  change (clamp 0 (2 ^ 32 - 1) (a + b)) with (uclamp 32 (a + b)). rewrite <- H1. unfold add_usaturate. cbv zeta. rewrite H2.
  apply saturated_case. unfold fits. lia.
Qed.
Lemma sub_usaturate_run a b e : fits 32 a -> fits 32 b -> sub_usaturate a b e = Ok (wrap 32 (clamp 0 (2 ^ 32 - 1) (a - b)), saturated 0 (2 ^ 32 - 1) (a - b) e).
Proof.
  intros Ha Hb. destruct (sat_usub 32 a b ltac:(lia) Ha Hb) as [H1 H2]. rewrite wrap_fits by (apply (uclamp_fits 32); lia).
  change (clamp 0 (2 ^ 32 - 1) (a - b)) with (uclamp 32 (a - b)). rewrite <- H1. unfold sub_usaturate. cbv zeta. rewrite H2.
  apply saturated_case. unfold fits. lia.
Qed.
(** The flag is set at -2^30 too, whose double fits. *)
Lemma double_saturate_run val e : sfits 32 val ->
  double_saturate val e = Ok (wrap 32 (clamp (- 2 ^ 31) (2 ^ 31 - 1) (2 * val)), saturated (- 2 ^ 31 + 1) (2 ^ 31 - 1) (2 * val) e).
Proof.
  unfold sfits. change (32 - 1) with 31. intros Hv. unfold double_saturate, saturated, clamp. change (sgn 32 0xc0000000) with (-0x40000000).
  destruct (Z.leb_spec 0x40000000 val); [rewrite bool_decide_false by lia; rewrite Z.min_l, Z.max_r by lia; done|].
  destruct (Z.leb_spec val (-0x40000000)); [rewrite bool_decide_false by lia; rewrite Z.min_r, Z.max_l by lia; done|].
  rewrite bool_decide_true by lia. rewrite Z.min_r, Z.max_r by lia. rewrite Z.shiftl_mul_pow2 by done. by rewrite Z.mul_comm.
Qed.
Lemma ones_wrap sh : 0 <= sh < 32 -> wrap 32 (wrap 32 (Z.shiftl 1 sh) - 1) = 2 ^ sh - 1.
Proof.
  intros Hs. pose proof (Z.pow_pos_nonneg 2 sh). pose proof (Z.pow_lt_mono_r 2 sh 32). rewrite Z.shiftl_mul_pow2, Z.mul_1_l by lia.
  rewrite (wrap_fits 32 (2 ^ sh)) by (unfold fits; lia). rewrite wrap_fits by (unfold fits; lia). done.
Qed.
Lemma do_ssat_run val sh e : sfits 32 val -> 0 <= sh < 32 ->
  do_ssat val sh e = Ok (wrap 32 (clamp (- 2 ^ sh) (2 ^ sh - 1) val), saturated (- 2 ^ sh) (2 ^ sh - 1) val e).
Proof.
  unfold sfits. change (32 - 1) with 31. intros Hv Hs. pose proof (Z.pow_pos_nonneg 2 sh ltac:(lia) ltac:(lia)). pose proof (Z.pow_lt_mono_r 2 sh 32).
  pose proof (Z.mul_div_le val (2 ^ sh) ltac:(lia)). pose proof (Z.mul_succ_div_gt val (2 ^ sh) ltac:(lia)).
  unfold do_ssat, saturated, clamp. cbv zeta. rewrite ones_wrap, Z.shiftr_div_pow2 by lia. set (t := val / 2 ^ sh) in *. set (p := 2 ^ sh) in *. cbv zeta.
  destruct (Z.ltb_spec 0 t); [assert (p <= val) by nia; rewrite bool_decide_false by lia; rewrite Z.min_l, Z.max_r, wrap_fits by (unfold fits; lia); done|].
  destruct (Z.ltb_spec t (-1)).
  - assert (val < - p) by nia. rewrite bool_decide_false by lia. rewrite Z.min_r, Z.max_l by lia. unfold not32, Z.lnot. by replace (Z.pred (- (p - 1))) with (- p) by lia.
  - assert (- p <= val < p) by nia. rewrite bool_decide_true by lia. by rewrite Z.min_r, Z.max_r by lia.
Qed.
Lemma do_usat_run val sh e : sfits 32 val -> 0 <= sh < 32 ->
  do_usat val sh e = Ok (wrap 32 (clamp 0 (2 ^ sh - 1) val), saturated 0 (2 ^ sh - 1) val e).
Proof.
  unfold sfits. change (32 - 1) with 31. intros Hv Hs. pose proof (Z.pow_pos_nonneg 2 sh ltac:(lia) ltac:(lia)). pose proof (Z.pow_lt_mono_r 2 sh 32).
  unfold do_usat, saturated, clamp. cbv zeta. rewrite ones_wrap by lia. set (p := 2 ^ sh) in *.
  destruct (Z.ltb_spec val 0); [rewrite bool_decide_false by lia; by rewrite Z.min_r, Z.max_l by lia|].
  rewrite (wrap_fits 32 val) by (unfold fits; lia). destruct (Z.ltb_spec (p - 1) val).
  - rewrite bool_decide_false by lia. rewrite Z.min_l, Z.max_r, wrap_fits by (unfold fits; lia). done.
  - rewrite bool_decide_true by lia. rewrite Z.min_r, Z.max_r, wrap_fits by (unfold fits; lia). done.
Qed.

(** ** The condition flags *)
Record flags := mkFlags { fN : bool; fZ : bool; fC : bool; fV : bool }.
(** The flags as [CPUARMState] keeps them: N and V are the sign bits of NF and VF, Z says
    that ZF is zero. *)
Definition flags_of (e : CPUARMState) : flags := mkFlags (Z.testbit (NF e) 31) (ZF e =? 0) (truth (CF e)) (Z.testbit (VF e) 31).
Definition same_but_flags (e e' : CPUARMState) : Prop := e' = e <| NF := NF e' |> <| ZF := ZF e' |> <| CF := CF e' |> <| VF := VF e' |>.
(** The pseudo-code AddWithCarry of the architecture. *)
Definition AddWithCarry (x y c : Z) : Z * flags :=
  let result := wrap 32 (x + y + c) in
  (result, mkFlags (Z.testbit result 31) (result =? 0) (negb (x + y + c =? result)) (negb (sgn 32 x + sgn 32 y + c =? sgn 32 result))).
(** The shifts LSL_C, LSR_C, ASR_C and ROR_C by a positive number. *)
Inductive srtype : Type := LSL | LSR | ASR | ROR.
Definition Shift_C (t : srtype) (x n : Z) : Z * bool :=
  match t with
  | LSL => (wrap 32 (Z.shiftl x n), Z.testbit (Z.shiftl x n) 32)
  | LSR => (Z.shiftr x n, Z.testbit x (n - 1))
  | ASR => (wrap 32 (Z.shiftr (sgn 32 x) n), Z.testbit (sgn 32 x) (n - 1))
  | ROR => let r := Z.lor (Z.shiftr x (n mod 32)) (wrap 32 (Z.shiftl x (32 - n mod 32))) in (r, Z.testbit r 31)
  end.
Inductive arith_insn : Type := ADD | ADC | SUB | SBC | SHIFT (t : srtype).
Definition arith_run (o : arith_insn) : Z -> Z -> CPU Z :=
  match o with
  | ADD => add_cc | ADC => adc_cc | SUB => sub_cc | SBC => sbc_cc
  | SHIFT LSL => shl_cc | SHIFT LSR => shr_cc | SHIFT ASR => sar_cc | SHIFT ROR => ror_cc
  end.
Definition arith_spec (o : arith_insn) (f : flags) (x y : Z) : Z * flags :=
  match o with
  | ADD => AddWithCarry x y 0 | ADC => AddWithCarry x y (Z.b2z (fC f))
  | SUB => AddWithCarry x (not32 y) 1 | SBC => AddWithCarry x (not32 y) (Z.b2z (fC f))
  | SHIFT t => if y mod 256 =? 0 then (x, f) else let '(r, c) := Shift_C t x (y mod 256) in (r, mkFlags (fN f) (fZ f) c (fV f))
  end.

Lemma lnot_fits x : fits 32 x -> not32 x = 2 ^ 32 - 1 - x.
Proof. unfold fits. intros. unfold not32, Z.lnot. rewrite wrap_neg by lia. lia. Qed.
Lemma awc_overflow x y c : fits 32 x -> fits 32 y -> 0 <= c <= 1 -> let r := wrap 32 (x + y + c) in
  negb (xorb (Z.testbit x 31) (Z.testbit y 31)) && xorb (Z.testbit x 31) (Z.testbit r 31) = negb (sgn 32 x + sgn 32 y + c =? sgn 32 r).
Proof.
  intros Hx Hy Hc r. assert (fits 32 r) as Hr by (apply fits_wrap; lia).
  assert (r = if x + y + c <? 2 ^ 32 then x + y + c else x + y + c - 2 ^ 32) as Hre.
  { unfold r, wrap, fits in *. destruct (Z.ltb_spec (x + y + c) (2 ^ 32)); [apply Z.mod_small; lia|]. symmetry. apply (Z.mod_unique_pos _ _ 1); lia. }
  clearbody r. rewrite !(sgn_msb 32) by (done || lia). change (32 - 1) with 31. pose proof (msb_spec 32 x ltac:(lia) Hx) as E1. pose proof (msb_spec 32 y ltac:(lia) Hy) as E2.
  pose proof (msb_spec 32 r ltac:(lia) Hr) as E3. change (32 - 1) with 31 in *. rewrite E1, E2, E3. unfold fits in *.
  destruct (Z.ltb_spec (x + y + c) (2 ^ 32)), (Z.leb_spec (2 ^ 31) x), (Z.leb_spec (2 ^ 31) y), (Z.leb_spec (2 ^ 31) r); cbn [xorb negb andb]; symmetry;
    first [apply negb_true_iff, Z.eqb_neq; lia | apply negb_false_iff, Z.eqb_eq; lia].
Qed.
Lemma awc_carry x y c : fits 32 x -> fits 32 y -> 0 <= c <= 1 -> negb (x + y + c =? wrap 32 (x + y + c)) = (2 ^ 32 <=? x + y + c).
Proof.
  unfold fits. intros. destruct (Z.leb_spec (2 ^ 32) (x + y + c)).
  - apply negb_true_iff, Z.eqb_neq. pose proof (fits_wrap 32 (x + y + c) ltac:(lia)) as Hf. unfold fits in Hf. lia.
  - apply negb_false_iff, Z.eqb_eq. by rewrite wrap_fits by (unfold fits; lia).
Qed.
Lemma vf_add a b r : Z.testbit (Z.land (Z.lxor (Z.lxor a b) all_ones) (Z.lxor a r)) 31 =
  negb (xorb (Z.testbit a 31) (Z.testbit b 31)) && xorb (Z.testbit a 31) (Z.testbit r 31).
Proof. rewrite Z.land_spec, !Z.lxor_spec. change (Z.testbit all_ones 31) with true. by rewrite xorb_true_r. Qed.
Lemma vf_sub a b r : 0 <= b -> Z.testbit (Z.land (Z.lxor a b) (Z.lxor a r)) 31 =
  negb (xorb (Z.testbit a 31) (Z.testbit (not32 b) 31)) && xorb (Z.testbit a 31) (Z.testbit r 31).
Proof. intros. rewrite Z.land_spec, !Z.lxor_spec, not32_testbit by lia. change (31 <? 32) with true. cbn [andb]. f_equal. by destruct (Z.testbit a 31), (Z.testbit b 31). Qed.

Lemma set_flags_ok r cf vf (c v : bool) e : truth cf = c -> Z.testbit vf 31 = v ->
  exists e', (set_flags r cf vf ;; mret r) e = Ok (r, e') /\ flags_of e' = mkFlags (Z.testbit r 31) (r =? 0) c v /\ same_but_flags e e'.
Proof. intros <- <-. eexists. split; [reflexivity|]. split; reflexivity. Qed.
Lemma b2z_truth b : truth (Z.b2z b) = b.
Proof. by destruct b. Qed.
Lemma wrap_sub_not a b : fits 32 b -> wrap 32 (a - b) = wrap 32 (a + not32 b + 1).
Proof. intros. rewrite lnot_fits by done. replace (a + (2 ^ 32 - 1 - b) + 1) with (a - b + 1 * 2 ^ 32) by lia. unfold wrap. by rewrite Z.mod_add. Qed.
Lemma wrap_sbc_not a b : fits 32 b -> wrap 32 (a - b - 1) = wrap 32 (a + not32 b + 0).
Proof. intros. rewrite lnot_fits by done. replace (a + (2 ^ 32 - 1 - b) + 0) with (a - b - 1 + 1 * 2 ^ 32) by lia. unfold wrap. by rewrite Z.mod_add. Qed.
Lemma carry_lt x y : fits 32 x -> fits 32 y -> (wrap 32 (x + y) <? x) = (2 ^ 32 <=? x + y + 0).
Proof. intros Hx Hy. rewrite wrap_plus by done. unfold fits in *. destruct (Z.ltb_spec (x + y) (2 ^ 32)), (Z.leb_spec (2 ^ 32) (x + y + 0)); lia || (apply Z.ltb_lt; lia) || (apply Z.ltb_ge; lia). Qed.
Lemma carry_le x y : fits 32 x -> fits 32 y -> (wrap 32 (x + y + 1) <=? x) = (2 ^ 32 <=? x + y + 1).
Proof.
  unfold fits. intros Hx Hy. destruct (Z.leb_spec (2 ^ 32) (x + y + 1)).
  - replace (wrap 32 (x + y + 1)) with (x + y + 1 - 2 ^ 32) by (apply (Z.mod_unique_pos _ _ 1); lia). apply Z.leb_le. lia.
  - rewrite wrap_fits by (unfold fits; lia). apply Z.leb_gt. lia.
Qed.
Lemma borrow x y : fits 32 y -> (y <=? x) = (2 ^ 32 <=? x + not32 y + 1).
Proof. intros Hy. rewrite lnot_fits by done. destruct (Z.leb_spec y x), (Z.leb_spec (2 ^ 32) (x + (2 ^ 32 - 1 - y) + 1)); lia || done. Qed.
Lemma borrow_c x y : fits 32 y -> (y <? x) = (2 ^ 32 <=? x + not32 y + 0).
Proof. intros Hy. rewrite lnot_fits by done. destruct (Z.ltb_spec y x), (Z.leb_spec (2 ^ 32) (x + (2 ^ 32 - 1 - y) + 0)); lia || done. Qed.
Ltac run_get := match goal with |- context [(get ≫= ?f) ?e] => change ((get ≫= f) e) with (f e e); cbv beta end.
Lemma arith_cc o a b e : fits 32 a -> fits 32 b -> match o with SHIFT _ => False | _ => True end ->
  exists e', arith_run o a b e = Ok ((arith_spec o (flags_of e) a b).1, e') /\ flags_of e' = (arith_spec o (flags_of e) a b).2 /\ same_but_flags e e'.
Proof.
  intros Ha Hb Ho. pose proof (fits_not32 b) as Hn. assert (0 <= b) as Hb0 by (unfold fits in Hb; lia). destruct o; try done; cbn [arith_run arith_spec AddWithCarry fst snd fC flags_of].
  - unfold add_cc. cbv zeta. rewrite Z.add_0_r. apply set_flags_ok.
    + rewrite b2z_truth, carry_lt by done. rewrite <- awc_carry by (done || lia). by rewrite Z.add_0_r.
    + rewrite vf_add. pose proof (awc_overflow a b 0 Ha Hb ltac:(lia)) as H. cbv zeta in H. by rewrite !Z.add_0_r in *.
  - unfold adc_cc. run_get. destruct (truth (CF e)) eqn:HC; cbn [negb Z.b2z]; cbv zeta iota.
    + apply set_flags_ok; [by rewrite b2z_truth, carry_le, <- awc_carry by (done || lia)|]. rewrite vf_add. by apply awc_overflow.
    + rewrite Z.add_0_r. apply set_flags_ok.
      * rewrite b2z_truth, carry_lt by done. rewrite <- awc_carry by (done || lia). by rewrite Z.add_0_r.
      * rewrite vf_add. pose proof (awc_overflow a b 0 Ha Hb ltac:(lia)) as H. cbv zeta in H. by rewrite !Z.add_0_r in *.
  - unfold sub_cc. cbv zeta. rewrite wrap_sub_not by done. apply set_flags_ok.
    + by rewrite b2z_truth, borrow, <- awc_carry by (done || lia).
    + rewrite vf_sub by done. by apply awc_overflow.
  - unfold sbc_cc. run_get. destruct (truth (CF e)) eqn:HC; cbn [negb Z.b2z]; cbv zeta iota.
    + rewrite wrap_sub_not by done. apply set_flags_ok; [by rewrite b2z_truth, borrow, <- awc_carry by (done || lia)|]. rewrite vf_sub by done. by apply awc_overflow.
    + rewrite wrap_sbc_not by done. apply set_flags_ok; [by rewrite b2z_truth, borrow_c, <- awc_carry by (done || lia)|]. rewrite vf_sub by done. by apply awc_overflow.
Qed.

Lemma land_255 y : Z.land y 0xff = y mod 256.
Proof. exact (Z.land_ones y 8 ltac:(lia)). Qed.
Lemma truth_shiftr x k : 0 <= k -> truth (Z.land (Z.shiftr x k) 1) = Z.testbit x k.
Proof. intros. change 1 with (bit 0). rewrite truth_land_bit, Z.shiftr_spec by lia. reflexivity. Qed.
Lemma set_CF_ok (r cf : Z) c e : truth cf = c ->
  exists e', (set_CF cf ;; mret r : CPU Z) e = Ok (r, e') /\ flags_of e' = mkFlags (fN (flags_of e)) (fZ (flags_of e)) c (fV (flags_of e)) /\ same_but_flags e e'.
Proof. intros <-. eexists. split; [reflexivity|]. split; reflexivity. Qed.
Lemma same_refl e : same_but_flags e e.
Proof. by destruct e. Qed.
Lemma shiftr_high x n : fits 32 x -> 32 <= n -> Z.shiftr x n = 0.
Proof. unfold fits. intros Hx Hn. rewrite Z.shiftr_div_pow2 by lia. apply Z.div_small. pose proof (Z.pow_le_mono_r 2 32 n). lia. Qed.
Lemma shiftl_high x n : 32 <= n -> wrap 32 (Z.shiftl x n) = 0.
Proof. intros Hn. rewrite Z.shiftl_mul_pow2 by lia. replace n with (n - 32 + 32) by lia. rewrite Z.pow_add_r by lia. unfold wrap. rewrite Z.mul_assoc. apply Z.mod_mul. lia. Qed.
Lemma sgn_testbit w x i : 1 <= w -> 0 <= i -> Z.testbit (sgn w x) i = Z.testbit x (Z.min i (w - 1)).
Proof.
  intros Hw Hi. destruct (pow_half w Hw) as [HP HP0]. pose proof (sgn_sfits w x Hw) as Hs.
  assert (forall j, 0 <= j < w -> Z.testbit (sgn w x) j = Z.testbit x j) as Hlow.
  { intros j Hj. assert (Z.testbit (wrap w (sgn w x)) j = Z.testbit (wrap w x) j) as H by (by rewrite wrap_sgn). rewrite !wrap_testbit in H by lia.
    by rewrite (proj2 (Z.ltb_lt j w)) in H by lia. }
  destruct (Z.lt_ge_cases i w) as [|Hge]; [rewrite Hlow by lia; f_equal; lia|].
  rewrite Z.min_r, <- Hlow by lia. rewrite !Z.testbit_eqb by lia. unfold sfits in Hs. pose proof (Z.pow_le_mono_r 2 (w - 1) i ltac:(lia) ltac:(lia)).
  destruct (Z.lt_ge_cases (sgn w x) 0).
  - replace (sgn w x / 2 ^ i) with (-1) by (apply (Z.div_unique_pos _ _ _ (sgn w x + 2 ^ i)); lia).
    by replace (sgn w x / 2 ^ (w - 1)) with (-1) by (apply (Z.div_unique_pos _ _ _ (sgn w x + 2 ^ (w - 1))); lia).
  - by rewrite !Z.div_small by lia.
Qed.
Lemma shift_cc t x y e : fits 32 x ->
  exists e', arith_run (SHIFT t) x y e = Ok ((arith_spec (SHIFT t) (flags_of e) x y).1, e') /\
    flags_of e' = (arith_spec (SHIFT t) (flags_of e) x y).2 /\ same_but_flags e e'.
Proof.
  intros Hx. assert (0 <= x) as Hx0 by (unfold fits in Hx; lia). pose proof (Z.mod_pos_bound y 256 ltac:(lia)) as Hm. cbn [arith_spec].
  assert (forall k, 32 <= k -> Z.testbit x k = false) as Hhi by (intros k Hk; by apply (fits_testbit 32)).
  destruct t; cbn [arith_run Shift_C]; [unfold shl_cc|unfold shr_cc|unfold sar_cc|unfold ror_cc]; cbv zeta; rewrite land_255; set (n := y mod 256) in *.
  - destruct (Z.leb_spec 32 n).
    + destruct (Z.eqb_spec n 0) as [|]; [lia|]. cbn [fst snd]. rewrite (shiftl_high x n) by lia. apply set_CF_ok. rewrite Z.shiftl_spec by lia. destruct (Z.eqb_spec n 32) as [->|].
      * by rewrite <- (Z.shiftr_0_r x) at 1; rewrite truth_shiftr.
      * by rewrite Z.testbit_neg_r by lia.
    + destruct (Z.eqb_spec n 0) as [|]; cbn [negb fst snd]; [eexists; split; [reflexivity|]; split; [done|apply same_refl]|].
      apply set_CF_ok. rewrite truth_shiftr, Z.shiftl_spec by lia. done.
  - destruct (Z.leb_spec 32 n).
    + destruct (Z.eqb_spec n 0) as [|]; [lia|]. cbn [fst snd]. rewrite (shiftr_high x n) by (done || lia). apply set_CF_ok. destruct (Z.eqb_spec n 32) as [->|].
      * by rewrite truth_shiftr.
      * by rewrite Hhi by lia.
    + destruct (Z.eqb_spec n 0) as [|]; cbn [negb fst snd]; [eexists; split; [reflexivity|]; split; [done|apply same_refl]|].
      apply set_CF_ok. by rewrite truth_shiftr by lia.
  - destruct (Z.leb_spec 32 n).
    + destruct (Z.eqb_spec n 0) as [|]; [lia|]. cbn [fst snd]. replace (Z.shiftr (sgn 32 x) n) with (Z.shiftr (sgn 32 x) 31).
      * apply set_CF_ok. rewrite truth_shiftr, sgn_testbit by lia. by rewrite Z.min_r by lia.
      * apply Z.bits_inj'. intros i Hi. rewrite !Z.shiftr_spec, !sgn_testbit by lia. by rewrite !Z.min_r by lia.
    + destruct (Z.eqb_spec n 0) as [|]; cbn [negb fst snd]; [eexists; split; [reflexivity|]; split; [done|apply same_refl]|].
      apply set_CF_ok. rewrite truth_shiftr, sgn_testbit by lia. by rewrite Z.min_l by lia.
  - change (Z.land n 0x1f) with (Z.land n (Z.ones 5)). rewrite Z.land_ones by lia. change (2 ^ 5) with 32.
    destruct (Z.eqb_spec n 0) as [->|Hn0]; cbn [fst snd].
    + change (0 mod 32 =? 0) with true. cbv iota. eexists. split; [reflexivity|]. split; [done|apply same_refl].
    + pose proof (Z.mod_pos_bound n 32 ltac:(lia)). destruct (Z.eqb_spec (n mod 32) 0) as [->|]; cbn [negb].
      * rewrite Z.shiftr_0_r. change (32 - 0) with 32. rewrite shiftl_high, Z.lor_0_r by lia. cbn [when]. apply set_CF_ok. by rewrite truth_shiftr by lia.
      * apply set_CF_ok. rewrite truth_shiftr by lia. rewrite Z.lor_spec, Z.shiftr_spec, wrap_testbit, Z.shiftl_spec by lia. rewrite (Hhi (31 + n mod 32)) by lia. cbn [orb].
        change (31 <? 32) with true. cbn [andb]. f_equal. lia.
Qed.

(** C24: the helpers of the data-processing instructions compute the result and the flags N,
    Z, C and V of the architecture's pseudo-code (AddWithCarry, LSL_C, LSR_C, ASR_C, ROR_C):
    C is the unsigned carry or the last bit shifted out, V the signed overflow; a shift by
    zero keeps the carry.  Nothing else of the processor changes, and the shifts that set no
    flags give the same results. *)
Theorem data_processing o a b e : fits 32 a -> fits 32 b ->
  let '(r, f) := arith_spec o (flags_of e) a b in
  (exists e', arith_run o a b e = Ok (r, e') /\ flags_of e' = f /\ same_but_flags e e') /\
  match o with SHIFT LSL => helper_shl a b = r | SHIFT LSR => helper_shr a b = r | SHIFT ASR => helper_sar a b = r | _ => True end.
Proof.
  intros Ha Hb. destruct (arith_spec o (flags_of e) a b) as [r f] eqn:Hs. split.
  - destruct o as [| | | |t]; [pose proof (arith_cc ADD a b e Ha Hb I) as H|pose proof (arith_cc ADC a b e Ha Hb I) as H|pose proof (arith_cc SUB a b e Ha Hb I) as H|
      pose proof (arith_cc SBC a b e Ha Hb I) as H|pose proof (shift_cc t a b e Ha) as H]; rewrite Hs in H; exact H.
  - destruct o as [| | | |t]; [done..|]. cbn [arith_spec] in Hs. pose proof (Z.mod_pos_bound b 256 ltac:(lia)) as Hm.
    destruct t; try done; unfold helper_shl, helper_shr, helper_sar; rewrite land_255; cbv zeta; destruct (Z.eqb_spec (b mod 256) 0) as [H0|H0]; injection Hs as <- _.
    + rewrite H0. cbn [Z.leb Z.compare]. by rewrite Z.shiftl_0_r, wrap_fits.
    + destruct (Z.leb_spec 32 (b mod 256)); [by rewrite shiftl_high|done].
    + rewrite H0. cbn [Z.leb Z.compare]. by rewrite Z.shiftr_0_r.
    + destruct (Z.leb_spec 32 (b mod 256)); [by rewrite shiftr_high|done].
    + rewrite H0. cbn [Z.leb Z.compare]. by rewrite Z.shiftr_0_r, wrap_sgn, wrap_fits by (done || lia).
    + destruct (Z.leb_spec 32 (b mod 256)); [|done]. f_equal. apply Z.bits_inj'. intros i Hi. rewrite !Z.shiftr_spec, !sgn_testbit by lia. by rewrite !Z.min_r by lia.
Qed.

(** ** Parallel instructions *)
Inductive pfx : Type := Pq | Puq | Ps | Pu | Psh | Puh.
Definition ops_of (p : pfx) : addsub_ops :=
  match p with Pq => q_ops | Puq => uq_ops | Ps => s_ops | Pu => u_ops | Psh => sh_ops | Puh => uh_ops end.
Definition is_signed (p : pfx) : bool := match p with Pq | Ps | Psh => true | _ => false end.
Definition operand (p : pfx) (w x : Z) : Z := if is_signed p then sgn w x else wrap w x.
(** What the lane keeps of the exact result [v]. *)
Definition keep (p : pfx) (w v : Z) : Z :=
  match p with
  | Pq => wrap w (sclamp w v) | Puq => uclamp w v
  | Ps | Pu => wrap w v | Psh | Puh => wrap w (v / 2)
  end.
(** The GE flags of the lane: after an unsigned addition, the carry; after a subtraction, no
    borrow; after a signed operation, the sign of the result that is kept. *)
Definition lane_ge (p : pfx) (w : Z) (sub : bool) (v : Z) : bool :=
  match p with
  | Ps => 0 <=? sgn w v
  | Pu => if sub then 0 <=? v else 2 ^ w <=? v
  | _ => false
  end.
Definition exact_result (p : pfx) (w : Z) (sub : bool) (a b : Z) : Z :=
  if sub then operand p w a - operand p w b else operand p w a + operand p w b.
(** One lane's contribution to the accumulators. *)
Definition lane_step (p : pfx) (w : Z) (sub : bool) (a b n : Z) (s : addsub_acc) : addsub_acc :=
  let v := exact_result p w sub a b in
  mkAcc (Z.lor (acc_res s) (Z.shiftl (keep p w v) (n * w)))
    (if lane_ge p w sub v then Z.lor (acc_ge s) (Z.shiftl (2 ^ (w / 8) - 1) (n * (w / 8))) else acc_ge s).

Lemma keep_fits p w v : 1 <= w -> fits w (keep p w v).
Proof. intros. destruct p; cbn [keep]; try (apply fits_wrap; lia). apply uclamp_fits. lia. Qed.
Lemma sat_lane16 (sub : bool) a b :
  (if sub then sub16_sat a b else add16_sat a b) = wrap 16 (sclamp 16 (if sub then sgn 16 a - sgn 16 b else sgn 16 a + sgn 16 b)).
Proof.
  pose proof (fits_wrap 16 a ltac:(lia)) as Ha. pose proof (fits_wrap 16 b ltac:(lia)) as Hb.
  destruct sub; [destruct (sat_sub 16 _ _ ltac:(lia) Ha Hb) as [H _]; unfold sub16_sat|destruct (sat_add 16 _ _ ltac:(lia) Ha Hb) as [H _]; unfold add16_sat];
    cbv beta zeta in H |- *; rewrite !sgn_wrap in H by lia; rewrite <- H, !(truth_xor_msb 16) by lia; by rewrite (truth_land_bit _ 15) by lia.
Qed.
Lemma sat_lane8 (sub : bool) a b :
  (if sub then sub8_sat a b else add8_sat a b) = wrap 8 (sclamp 8 (if sub then sgn 8 a - sgn 8 b else sgn 8 a + sgn 8 b)).
Proof.
  pose proof (fits_wrap 8 a ltac:(lia)) as Ha. pose proof (fits_wrap 8 b ltac:(lia)) as Hb.
  destruct sub; [destruct (sat_sub 8 _ _ ltac:(lia) Ha Hb) as [H _]; unfold sub8_sat|destruct (sat_add 8 _ _ ltac:(lia) Ha Hb) as [H _]; unfold add8_sat];
    cbv beta zeta in H |- *; rewrite !sgn_wrap in H by lia; rewrite <- H, !(truth_xor_msb 8) by lia; by rewrite (truth_land_bit _ 7) by lia.
Qed.
Lemma usat_sub w a b : 0 <= w -> fits w a -> fits w b -> (if b <? a then a - b else 0) = uclamp w (a - b).
Proof. unfold fits, uclamp. intros. destruct (Z.ltb_spec b a); lia. Qed.
Lemma wrap_wrap w w' x : 0 <= w <= w' -> wrap w (wrap w' x) = wrap w x.
Proof.
  intros. unfold wrap. replace w' with (w + (w' - w)) by lia. rewrite Z.pow_add_r by lia.
  rewrite Z.rem_mul_r by (apply Z.pow_nonzero || apply Z.pow_pos_nonneg; lia). rewrite Z.mul_comm, Z.mod_add by (apply Z.pow_nonzero; lia). apply Z.mod_mod, Z.pow_nonzero; lia.
Qed.
Lemma half_wrap w v : 1 <= w < 32 -> wrap w (Z.shiftr (wrap 32 v) 1) = wrap w (v / 2).
Proof.
  intros. replace (v / 2) with (Z.shiftr v 1) by by rewrite Z.shiftr_div_pow2.
  apply Z.bits_inj'. intros i Hi. rewrite !wrap_testbit, !Z.shiftr_spec, wrap_testbit by lia.
  destruct (Z.ltb_spec i w), (Z.ltb_spec (i + 1) 32); lia || done.
Qed.
Lemma carry_bits w v : 0 < w < 32 -> 0 <= v < 2 * 2 ^ w -> (Z.shiftr (wrap 32 v) w =? 1) = (2 ^ w <=? v).
Proof.
  intros Hw Hv. assert (2 * 2 ^ w <= 2 ^ 32) by (rewrite <- Z.pow_succ_r by lia; apply Z.pow_le_mono_r; lia).
  rewrite wrap_fits by (unfold fits; lia). rewrite Z.shiftr_div_pow2 by lia. destruct (Z.leb_spec (2 ^ w) v).
  - apply Z.eqb_eq. symmetry. apply (Z.div_unique_pos _ _ _ (v - 2 ^ w)); lia.
  - apply Z.eqb_neq. by rewrite Z.div_small by lia.
Qed.
Lemma borrow_bits w v : 0 < w < 32 -> - 2 ^ w < v < 2 ^ w -> (Z.shiftr (wrap 32 v) w =? 0) = (0 <=? v).
Proof.
  intros Hw Hv. assert (2 * 2 ^ w <= 2 ^ 32) by (rewrite <- Z.pow_succ_r by lia; apply Z.pow_le_mono_r; lia). pose proof (Z.pow_pos_nonneg 2 w).
  rewrite Z.shiftr_div_pow2 by lia. destruct (Z.leb_spec 0 v).
  - apply Z.eqb_eq. rewrite wrap_fits by (unfold fits; lia). apply Z.div_small. lia.
  - apply Z.eqb_neq. rewrite wrap_neg by lia. enough (0 < (v + 2 ^ 32) / 2 ^ w) by lia. apply Z.div_str_pos. lia.
Qed.
Lemma result_step w val n s : RESULT w val n s = mkAcc (Z.lor (acc_res s) (Z.shiftl (wrap w val) (n * w))) (acc_ge s).
Proof. done. Qed.
Lemma ge_step c bits s v : GE_bits c bits (mkAcc v (acc_ge s)) = mkAcc v (if c then Z.lor (acc_ge s) bits else acc_ge s).
Proof. by destruct c. Qed.
Lemma wrap_op (sub : bool) w a b : 1 <= w ->
  wrap w (if sub then wrap w a - wrap w b else wrap w a + wrap w b) = wrap w (if sub then sgn w a - sgn w b else sgn w a + sgn w b).
Proof.
  intros Hw. pose proof (wrap_sgn w a Hw) as Ha. pose proof (wrap_sgn w b Hw) as Hb. unfold wrap in *. pose proof (Z.pow_nonzero 2 w ltac:(lia) ltac:(lia)).
  destruct sub; [rewrite <- Ha, <- Hb, <- Zminus_mod|rewrite <- Ha, <- Hb, <- Zplus_mod]; done.
Qed.
Lemma usat_lane16 (sub : bool) a b :
  (if sub then sub16_usat a b else add16_usat a b) = uclamp 16 (if sub then wrap 16 a - wrap 16 b else wrap 16 a + wrap 16 b).
Proof.
  pose proof (fits_wrap 16 a ltac:(lia)) as Ha. pose proof (fits_wrap 16 b ltac:(lia)) as Hb.
  destruct sub; [exact (usat_sub 16 _ _ ltac:(lia) Ha Hb)|exact (proj1 (sat_uadd 16 _ _ ltac:(lia) Ha Hb))].
Qed.
Lemma usat_lane8 (sub : bool) a b :
  (if sub then sub8_usat a b else add8_usat a b) = uclamp 8 (if sub then wrap 8 a - wrap 8 b else wrap 8 a + wrap 8 b).
Proof.
  pose proof (fits_wrap 8 a ltac:(lia)) as Ha. pose proof (fits_wrap 8 b ltac:(lia)) as Hb.
  destruct sub; [exact (usat_sub 8 _ _ ltac:(lia) Ha Hb)|exact (proj1 (sat_uadd 8 _ _ ltac:(lia) Ha Hb))].
Qed.
(** The macros of a prefix do the step of its kind. *)
Lemma lane16 p (sub : bool) a b n s : (if sub then SUB16 else ADD16) (ops_of p) a b n s = lane_step p 16 sub a b n s.
Proof.
  pose proof (fits_wrap 16 a ltac:(lia)) as Ha. pose proof (fits_wrap 16 b ltac:(lia)) as Hb. unfold fits in Ha, Hb.
  unfold lane_step, exact_result, operand. cbv zeta. destruct p; cbn [ops_of is_signed keep lane_ge].
  - transitivity (RESULT 16 (if sub then sub16_sat a b else add16_sat a b) n s); [by destruct sub|]. by rewrite sat_lane16, result_step, wrap_idem by lia.
  - transitivity (RESULT 16 (if sub then sub16_usat a b else add16_usat a b) n s); [by destruct sub|]. by rewrite usat_lane16, result_step, wrap_fits by (apply uclamp_fits; lia).
  - transitivity (SARITH16 (if sub then Z.sub else Z.add) a b n s); [by destruct sub|]. unfold SARITH16. cbv zeta. rewrite result_step, ge_step, wrap_sgn by lia.
    rewrite <- (sgn_wrap 16 (_ (wrap 16 a) (wrap 16 b))), <- (sgn_wrap 16 (if sub then _ else _)) by lia. pose proof (wrap_op sub 16 a b ltac:(lia)) as H. by destruct sub; rewrite H.
  - destruct sub; cbn [SUB16 ADD16 u_ops]; cbv zeta; rewrite result_step, ge_step, wrap_wrap by lia; [rewrite borrow_bits by lia|rewrite carry_bits by lia]; done.
  - destruct sub; cbn [SUB16 ADD16 sh_ops]; rewrite result_step; by rewrite Z.shiftr_div_pow2.
  - destruct sub; cbn [SUB16 ADD16 uh_ops]; rewrite result_step; by rewrite half_wrap by lia.
Qed.
Lemma lane8 p (sub : bool) a b n s : (if sub then SUB8 else ADD8) (ops_of p) a b n s = lane_step p 8 sub a b n s.
Proof.
  pose proof (fits_wrap 8 a ltac:(lia)) as Ha. pose proof (fits_wrap 8 b ltac:(lia)) as Hb. unfold fits in Ha, Hb.
  unfold lane_step, exact_result, operand. cbv zeta. change (8 / 8) with 1. rewrite Z.mul_1_r. destruct p; cbn [ops_of is_signed keep lane_ge].
  - transitivity (RESULT 8 (if sub then sub8_sat a b else add8_sat a b) n s); [by destruct sub|]. by rewrite sat_lane8, result_step, wrap_idem by lia.
  - transitivity (RESULT 8 (if sub then sub8_usat a b else add8_usat a b) n s); [by destruct sub|]. by rewrite usat_lane8, result_step, wrap_fits by (apply uclamp_fits; lia).
  - transitivity (SARITH8 (if sub then Z.sub else Z.add) a b n s); [by destruct sub|]. unfold SARITH8. cbv zeta. rewrite result_step, ge_step, wrap_sgn by lia.
    rewrite <- (sgn_wrap 8 (_ (wrap 8 a) (wrap 8 b))), <- (sgn_wrap 8 (if sub then _ else _)) by lia. pose proof (wrap_op sub 8 a b ltac:(lia)) as H. by destruct sub; rewrite H.
  - destruct sub; cbn [SUB8 ADD8 u_ops]; cbv zeta; rewrite result_step, ge_step, wrap_wrap by lia; [rewrite borrow_bits by lia|rewrite carry_bits by lia]; done.
  - destruct sub; cbn [SUB8 ADD8 sh_ops]; rewrite result_step; by rewrite Z.shiftr_div_pow2.
  - destruct sub; cbn [SUB8 ADD8 uh_ops]; rewrite result_step; by rewrite half_wrap by lia.
Qed.

(** The number with digits [ds] in base 2^w, the lowest first. *)
Fixpoint positional (w : Z) (ds : list Z) : Z := match ds with [] => 0 | d :: ds => d + 2 ^ w * positional w ds end.
(** Per lane: addition or subtraction, and the positions of the operands in [a] and [b]. *)
Abbreviation lane_desc := (bool * Z * Z)%type.
Inductive par_insn : Type := PADD16 | PADD8 | PSUB16 | PSUB8 | PSUBADDX | PADDSUBX.
Definition par_run (p : pfx) (i : par_insn) : Z -> Z -> addsub_acc :=
  match i with
  | PADD16 => add16 (ops_of p) | PADD8 => add8 (ops_of p) | PSUB16 => sub16 (ops_of p) | PSUB8 => sub8 (ops_of p)
  | PSUBADDX => subaddx (ops_of p) | PADDSUBX => addsubx (ops_of p)
  end.
Definition par_width (i : par_insn) : Z := match i with PADD8 | PSUB8 => 8 | _ => 16 end.
Definition par_lanes (i : par_insn) : list lane_desc :=
  match i with
  | PADD16 => [(false, 0, 0); (false, 16, 16)]
  | PSUB16 => [(true, 0, 0); (true, 16, 16)]
  | PADD8 => [(false, 0, 0); (false, 8, 8); (false, 16, 16); (false, 24, 24)]
  | PSUB8 => [(true, 0, 0); (true, 8, 8); (true, 16, 16); (true, 24, 24)]
  | PSUBADDX => [(false, 0, 16); (true, 16, 0)]
  | PADDSUBX => [(true, 0, 16); (false, 16, 0)]
  end.
Definition lane_exact (p : pfx) (w a b : Z) '((sub, i, j) : lane_desc) : Z := exact_result p w sub (Z.shiftr a i) (Z.shiftr b j).
Definition lane_flag (p : pfx) (w a b : Z) (l : lane_desc) : bool := lane_ge p w l.1.1 (lane_exact p w a b l).

Lemma positional_lor w d ds : 0 <= w -> fits w d -> Z.lor d (Z.shiftl (positional w ds) w) = positional w (d :: ds).
Proof. intros Hw Hd. rewrite Z.shiftl_mul_pow2 by done. rewrite Z.lor_comm, or_disjoint by done. cbn [positional]. lia. Qed.
Fixpoint run_lanes (p : pfx) (w : Z) (ls : list lane_desc) (a b n : Z) (s : addsub_acc) : addsub_acc :=
  match ls with
  | [] => s
  | (sub, i, j) :: ls => run_lanes p w ls a b (n + 1) (lane_step p w sub (Z.shiftr a i) (Z.shiftr b j) n s)
  end.
Definition ge_digit (w : Z) (c : bool) : Z := if c then 2 ^ (w / 8) - 1 else 0.
Lemma ge_digit_fits w c : 8 <= w -> fits (w / 8) (ge_digit w c).
Proof.
  intros Hw. assert (1 <= w / 8) by (apply Z.div_le_lower_bound; lia). unfold ge_digit, fits. pose proof (Z.pow_pos_nonneg 2 (w / 8)). destruct c; lia.
Qed.
Lemma run_lanes_spec p w ls a b : 8 <= w -> forall n s, 0 <= n ->
  run_lanes p w ls a b n s = mkAcc
    (Z.lor (acc_res s) (Z.shiftl (positional w (List.map (fun l => keep p w (lane_exact p w a b l)) ls)) (n * w)))
    (Z.lor (acc_ge s) (Z.shiftl (positional (w / 8) (List.map (fun l => ge_digit w (lane_flag p w a b l)) ls)) (n * (w / 8)))).
Proof.
  intros Hw. assert (1 <= w / 8) as H8 by (apply Z.div_le_lower_bound; lia). induction ls as [|[[sub i] j] ls IH]; intros n s Hn; cbn [run_lanes List.map].
  - cbn [positional]. rewrite !Z.shiftl_0_l, !Z.lor_0_r. by destruct s.
  - rewrite IH by lia. unfold lane_step. cbv zeta. cbn [acc_res acc_ge]. rewrite <- (positional_lor w) by (try apply keep_fits; lia).
    rewrite <- (positional_lor (w / 8)).
    + rewrite !Z.shiftl_lor, !Z.shiftl_shiftl by nia. unfold lane_flag. cbn [lane_exact fst].
      replace (w + n * w) with ((n + 1) * w) by lia. replace (w / 8 + n * (w / 8)) with ((n + 1) * (w / 8)) by lia. f_equal; [by rewrite Z.lor_assoc|].
      unfold ge_digit. destruct (lane_ge _ _ _ _); [by rewrite Z.lor_assoc|]. by rewrite Z.shiftl_0_l, Z.lor_0_l.
    + lia.
    + by apply ge_digit_fits.
Qed.
Lemma add16_step p a b n s : ADD16 (ops_of p) a b n s = lane_step p 16 false a b n s.
Proof. exact (lane16 p false a b n s). Qed.
Lemma sub16_step p a b n s : SUB16 (ops_of p) a b n s = lane_step p 16 true a b n s.
Proof. exact (lane16 p true a b n s). Qed.
Lemma add8_step p a b n s : ADD8 (ops_of p) a b n s = lane_step p 8 false a b n s.
Proof. exact (lane8 p false a b n s). Qed.
Lemma sub8_step p a b n s : SUB8 (ops_of p) a b n s = lane_step p 8 true a b n s.
Proof. exact (lane8 p true a b n s). Qed.
Lemma par_run_lanes p i a b : par_run p i a b = run_lanes p (par_width i) (par_lanes i) a b 0 (mkAcc 0 0).
Proof.
  destruct i; cbn [par_run par_lanes par_width run_lanes]; unfold add16, add8, sub16, sub8, subaddx, addsubx;
    rewrite ?add16_step, ?sub16_step, ?add8_step, ?sub8_step, ?Z.shiftr_0_r; reflexivity.
Qed.

Definition byte_at (x i : Z) : Z := Z.shiftr x (8 * i) mod 256.
Lemma byte_testbit x i k : 0 <= i -> 0 <= k < 8 -> Z.testbit (byte_at x i) k = Z.testbit x (8 * i + k).
Proof. intros. unfold byte_at. change 256 with (2 ^ 8). rewrite Z.mod_pow2_bits_low, Z.shiftr_spec by lia. f_equal. lia. Qed.
Definition bytes4 (f : Z -> Z) : Z := positional 8 [f 0; f 1; f 2; f 3].
Lemma positional_testbit w ds i : 0 < w -> Forall (fits w) ds -> 0 <= i ->
  Z.testbit (positional w ds) i = Z.testbit (default 0 (rd ds (i / w))) (i mod w).
Proof.
  intros Hw Hds. revert i. induction Hds as [|d ds Hd Hds IH]; intros i Hi.
  - cbn [positional]. unfold rd. destruct (0 <=? i / w); by rewrite ?lookup_nil, !Z.bits_0.
  - rewrite <- positional_lor, Z.lor_spec, Z.shiftl_spec by (done || lia). destruct (Z.lt_ge_cases i w).
    + rewrite Z.div_small, Z.mod_small, (Z.testbit_neg_r _ (i - w)), orb_false_r by lia. done.
    + rewrite (fits_testbit w d) by (done || lia). cbn [orb]. rewrite IH by lia. replace i with (i - w + 1 * w) at 3 4 by lia. rewrite Z.div_add, Z.mod_add by lia.
      unfold rd. pose proof (Z.div_pos (i - w) w ltac:(lia) Hw). rewrite !(proj2 (Z.leb_le _ _)) by lia. by replace (Z.to_nat ((i - w) / w + 1)) with (S (Z.to_nat ((i - w) / w))) by lia.
Qed.
Lemma bytes4_testbit f i : (forall k, fits 8 (f k)) -> 0 <= i -> Z.testbit (bytes4 f) i = (i <? 32) && Z.testbit (f (i / 8)) (i mod 8).
Proof.
  intros Hf Hi. unfold bytes4. rewrite positional_testbit by (try lia; repeat constructor; apply Hf). destruct (Z.ltb_spec i 32).
  - assert (i / 8 = 0 \/ i / 8 = 1 \/ i / 8 = 2 \/ i / 8 = 3) as Hc by (pose proof (Z.div_lt_upper_bound i 8 4); pose proof (Z.div_pos i 8); lia).
    destruct Hc as [->|[->|[->| ->]]]; done.
  - pose proof (Z.div_le_lower_bound i 8 4). unfold rd. rewrite (proj2 (Z.leb_le _ _)) by lia. rewrite lookup_ge_None_2 by (cbn; lia). by rewrite Z.bits_0.
Qed.
Lemma byte_at_fits x i : fits 8 (byte_at x i).
Proof. apply (fits_wrap 8). lia. Qed.
Lemma byte_at_testbit x i : 0 <= i -> Z.testbit (byte_at x (i / 8)) (i mod 8) = Z.testbit x i.
Proof.
  intros. pose proof (Z.div_mod i 8). pose proof (Z.mod_pos_bound i 8). pose proof (Z.div_pos i 8). rewrite byte_testbit by lia. f_equal. lia.
Qed.
Ltac ge_fits := first [lia | repeat (apply List.Forall_cons; [apply (ge_digit_fits 8); lia|]); apply List.Forall_nil].
(** SEL takes the bytes of [a] whose flag is set, and the other ones of [b]. *)
Lemma sel_flags_spec fl a b : fits 32 a -> fits 32 b ->
  sel_flags fl a b = bytes4 (fun k => if Z.testbit fl k then byte_at a k else byte_at b k).
Proof.
  intros Ha Hb. set (m := bytes4 (fun k => if Z.testbit fl k then 0xff else 0)).
  assert (sel_flags fl a b = Z.lor (Z.land a m) (Z.land b (not32 m))) as ->.
  { unfold sel_flags. cbv zeta. change 1 with (bit 0). change 2 with (bit 1). change 4 with (bit 2). change 8 with (bit 3). rewrite !truth_land_bit by lia.
    unfold m, bytes4. by destruct (Z.testbit fl 0), (Z.testbit fl 1), (Z.testbit fl 2), (Z.testbit fl 3). }
  apply Z.bits_inj'. intros i Hi. assert (Z.testbit m i = (i <? 32) && Z.testbit fl (i / 8)) as Hm.
  { unfold m. rewrite bytes4_testbit; [|intros k; by destruct (Z.testbit fl k)|done]. f_equal. destruct (Z.testbit fl (i / 8)); [|apply Z.bits_0].
    change 0xff with (Z.ones 8). pose proof (Z.mod_pos_bound i 8). by rewrite Z.ones_spec_low by lia. }
  rewrite bytes4_testbit; [|intros k; destruct (Z.testbit fl k); apply byte_at_fits|done].
  rewrite Z.lor_spec, !Z.land_spec, not32_testbit, Hm by done. destruct (Z.ltb_spec i 32); cbn [andb negb].
  - destruct (Z.testbit fl (i / 8)); cbn [negb]; rewrite byte_at_testbit by done; by rewrite ?andb_false_r, ?andb_true_r, ?orb_false_r.
  - rewrite (fits_testbit 32 a) by (done || lia). by rewrite !andb_false_r.
Qed.

(** C25: the parallel instructions compute lane by lane.  In each half or byte the result is
    the exact sum or difference of the operands, signed or not, wrapped, clamped to the range
    of the lane, or halved, by the prefix; no carry crosses a lane; the GE flags of a lane
    are the carry, the absence of a borrow, or the sign.  So the two instructions USUB8 and
    SEL together select the larger byte in each lane. *)
Theorem parallel_arith p i a b : fits 32 a -> fits 32 b ->
  let w := par_width i in
  par_run p i a b = mkAcc
    (positional w (List.map (fun l => keep p w (lane_exact p w a b l)) (par_lanes i)))
    (positional (w / 8) (List.map (fun l => ge_digit w (lane_flag p w a b l)) (par_lanes i))) /\
  sel_flags (acc_ge (sub8 u_ops a b)) a b = bytes4 (fun k => Z.max (byte_at a k) (byte_at b k)).
Proof.
  intros Ha Hb w. assert (forall p i, par_run p i a b = mkAcc
    (positional (par_width i) (List.map (fun l => keep p (par_width i) (lane_exact p (par_width i) a b l)) (par_lanes i)))
    (positional (par_width i / 8) (List.map (fun l => ge_digit (par_width i) (lane_flag p (par_width i) a b l)) (par_lanes i)))) as H.
  { intros p' i'. rewrite par_run_lanes, run_lanes_spec by (destruct i'; cbn; lia). cbn [acc_res acc_ge]. by rewrite !Z.lor_0_l, !Z.mul_0_l, !Z.shiftl_0_r. }
  split; [apply H|]. rewrite sel_flags_spec by done. specialize (H Pu PSUB8). cbn [par_run ops_of] in H. rewrite H. cbn [acc_ge par_width par_lanes List.map].
  change (8 / 8) with 1. unfold bytes4. assert (forall j, lane_flag Pu 8 a b (true, 8 * j, 8 * j) = (byte_at b j <=? byte_at a j)) as Hf.
  { intros j. unfold lane_flag, lane_exact, exact_result, operand. cbn [fst is_signed lane_ge]. unfold byte_at, wrap. change (2 ^ 8) with 256.
    destruct (Z.leb_spec (Z.shiftr b (8 * j) mod 256) (Z.shiftr a (8 * j) mod 256)); [apply Z.leb_le; lia|apply Z.leb_gt; lia]. }
  pose proof (Hf 0) as F0. pose proof (Hf 1) as F1. pose proof (Hf 2) as F2. pose proof (Hf 3) as F3. change (8 * 0) with 0 in F0. change (8 * 1) with 8 in F1. change (8 * 2) with 16 in F2. change (8 * 3) with 24 in F3. rewrite F0, F1, F2, F3.
  assert (forall k, 0 <= k < 4 -> (if Z.testbit (positional 1 [ge_digit 8 (byte_at b 0 <=? byte_at a 0); ge_digit 8 (byte_at b 1 <=? byte_at a 1);
    ge_digit 8 (byte_at b 2 <=? byte_at a 2); ge_digit 8 (byte_at b 3 <=? byte_at a 3)]) k then byte_at a k else byte_at b k) = Z.max (byte_at a k) (byte_at b k)) as Hk.
  { intros k Hk. rewrite positional_testbit by ge_fits. rewrite Z.div_1_r, Z.mod_1_r.
    assert (k = 0 \/ k = 1 \/ k = 2 \/ k = 3) as Hc by lia. destruct Hc as [->|[->|[->| ->]]];
      unfold ge_digit, rd; cbn -[byte_at]; (destruct (Z.leb_spec (byte_at b 0) (byte_at a 0)), (Z.leb_spec (byte_at b 1) (byte_at a 1)), (Z.leb_spec (byte_at b 2) (byte_at a 2)), (Z.leb_spec (byte_at b 3) (byte_at a 3)); match goal with |- context [Z.odd ?x] => let v := eval vm_compute in (Z.odd x) in change (Z.odd x) with v end; cbv iota; lia). }
  by rewrite !Hk by lia.
Qed.

(** ** Saturating instructions *)
Inductive sat_insn : Type := QADD | QSUB | QDBL | UQADD | UQSUB | SSAT (n : Z) | USAT (n : Z).
Definition sat_run (i : sat_insn) (a b : Z) : CPU Z :=
  match i with
  | QADD => add_saturate a b | QSUB => sub_saturate a b | QDBL => double_saturate (sgn 32 a)
  | UQADD => add_usaturate a b | UQSUB => sub_usaturate a b | SSAT n => ssat a n | USAT n => usat a n
  end.
(** The exact result, and the range it is clamped to. *)
Definition sat_value (i : sat_insn) (a b : Z) : Z :=
  match i with
  | QADD => sgn 32 a + sgn 32 b | QSUB => sgn 32 a - sgn 32 b | QDBL => 2 * sgn 32 a
  | UQADD => a + b | UQSUB => a - b | SSAT _ | USAT _ => sgn 32 a
  end.
Definition sat_range (i : sat_insn) : Z * Z :=
  match i with
  | QADD | QSUB | QDBL => (- 2 ^ 31, 2 ^ 31 - 1)
  | UQADD | UQSUB => (0, 2 ^ 32 - 1)
  | SSAT n => (- 2 ^ n, 2 ^ n - 1)
  | USAT n => (0, 2 ^ n - 1)
  end.
Definition sat_insn_ok (i : sat_insn) : Prop := match i with SSAT n | USAT n => 0 <= n < 32 | _ => True end.

Lemma shiftr_sgn x : fits 32 x -> Z.shiftr (sgn 32 x) 16 = sgn 16 (Z.shiftr x 16).
Proof.
  intros Hx. apply Z.bits_inj'. intros i Hi. rewrite Z.shiftr_spec, !sgn_testbit, Z.shiftr_spec by lia. f_equal. lia.
Qed.
Lemma sgn_mono w w' x : 1 <= w <= w' -> sfits w x -> sfits w' x.
Proof. unfold sfits. intros Hw Hx. pose proof (Z.pow_le_mono_r 2 (w - 1) (w' - 1)). lia. Qed.
Lemma halves_pack l h : Z.lor (wrap 16 l) (wrap 32 (Z.shiftl h 16)) = positional 16 [wrap 16 l; wrap 16 h].
Proof.
  rewrite <- positional_lor by (try apply fits_wrap; lia). cbn [positional]. rewrite Z.mul_0_r, Z.add_0_r. f_equal.
  apply Z.bits_inj'. intros i Hi. rewrite wrap_testbit, !Z.shiftl_spec, wrap_testbit by lia. destruct (Z.ltb_spec i 32), (Z.ltb_spec (i - 16) 16); lia || done.
Qed.
(** The saturating instructions clamp.  Each returns the exact result clamped to the
    range of its type (for SSAT and USAT, to the range the instruction names), and sets
    the sticky flag Q exactly when the result is outside it; SSAT16 and USAT16 do so for
    both halves.  One exception: the doubling of QDADD and QDSUB sets Q also at -2^30, whose
    double fits. *)
Theorem saturating_arith i a b e : fits 32 a -> fits 32 b -> sat_insn_ok i ->
  let '(lo, hi) := sat_range i in
  sat_run i a b e = Ok (wrap 32 (clamp lo hi (sat_value i a b)),
    saturated (match i with QDBL => lo + 1 | _ => lo end) hi (sat_value i a b) e) /\
  add_setq a b e = Ok (wrap 32 (a + b), saturated (- 2 ^ 31) (2 ^ 31 - 1) (sgn 32 a + sgn 32 b) e) /\
  forall n, 0 <= n < 32 -> let x0 := sgn 16 a in let x1 := sgn 16 (Z.shiftr a 16) in
    ssat16 a n e = Ok (positional 16 [wrap 16 (clamp (- 2 ^ n) (2 ^ n - 1) x0); wrap 16 (clamp (- 2 ^ n) (2 ^ n - 1) x1)],
      saturated (- 2 ^ n) (2 ^ n - 1) x1 (saturated (- 2 ^ n) (2 ^ n - 1) x0 e)) /\
    usat16 a n e = Ok (positional 16 [wrap 16 (clamp 0 (2 ^ n - 1) x0); wrap 16 (clamp 0 (2 ^ n - 1) x1)],
      saturated 0 (2 ^ n - 1) x1 (saturated 0 (2 ^ n - 1) x0 e)).
Proof.
  intros Ha Hb Hi. pose proof (sgn_sfits 32 a ltac:(lia)) as Hs. destruct (sat_range i) as [lo hi] eqn:Hr. split; [|split; [by apply add_setq_run|]].
  - destruct i; injection Hr as <- <-; cbn [sat_run sat_value]; [by apply add_saturate_run|by apply sub_saturate_run|by apply double_saturate_run|
      by apply add_usaturate_run|by apply sub_usaturate_run|by apply do_ssat_run|by apply do_usat_run].
  - intros n Hn. cbv zeta. unfold ssat16, usat16. rewrite shiftr_sgn by done.
    pose proof (sgn_mono 16 32 _ ltac:(lia) (sgn_sfits 16 a ltac:(lia))) as H0. pose proof (sgn_mono 16 32 _ ltac:(lia) (sgn_sfits 16 (Z.shiftr a 16) ltac:(lia))) as H1.
    unfold mbind, ST_bind. cbv beta. rewrite !do_ssat_run, !do_usat_run by done. cbv iota beta. rewrite ?do_ssat_run, ?do_usat_run by done. cbv iota beta. unfold mret, ST_ret.
    rewrite !halves_pack, !(wrap_wrap 16 32) by lia. done.
Qed.


(** ** Witnesses *)
(** 0x7fffffff + 1 overflows into the sign; 33 is a shift by more than the width. *)
Example data_processing_witness :
  (exists e', add_cc 0x7fffffff 1 sample_cpu = Ok (0x80000000, e') /\ flags_of e' = mkFlags true false false true /\ same_but_flags sample_cpu e') /\
  exists e', shl_cc 1 33 sample_cpu = Ok (0, e') /\ truth (CF e') = false.
Proof.
  split.
  - exact (proj1 (data_processing ADD 0x7fffffff 1 sample_cpu ltac:(unfold fits; lia) ltac:(unfold fits; lia))).
  - destruct (proj1 (data_processing (SHIFT LSL) 1 33 sample_cpu ltac:(unfold fits; lia) ltac:(unfold fits; lia))) as (e' & Hrun & Hf & _).
    exists e'. split; [exact Hrun|]. exact (f_equal fC Hf).
Defined.
(** SADD16 of 0x7fff and 1 in the low half: the wrapped result is negative, so GE is clear. *)
Example parallel_arith_witness :
  add16 s_ops 0x00017fff 0x00010001 = mkAcc 0x00028000 0xc /\
  sel_flags (acc_ge (sub8 u_ops 0x01ff0305 0x02fe0305)) 0x01ff0305 0x02fe0305 = 0x02ff0305.
Proof.
  destruct (parallel_arith Ps PADD16 0x00017fff 0x00010001 ltac:(unfold fits; lia) ltac:(unfold fits; lia)) as [H _].
  destruct (parallel_arith Ps PADD16 0x01ff0305 0x02fe0305 ltac:(unfold fits; lia) ltac:(unfold fits; lia)) as [_ H'].
  split; [exact H|exact H'].
Defined.
Example saturating_arith_witness :
  add_saturate 0x7fffffff 2 sample_cpu = Ok (0x7fffffff, sample_cpu <| QF := 1 |>) /\
  double_saturate (sgn 32 0xc0000000) sample_cpu = Ok (0x80000000, sample_cpu <| QF := 1 |>) /\
  ssat16 0x0100ff00 7 sample_cpu = Ok (0x007fff80, sample_cpu <| QF := 1 |> <| QF := 1 |>).
Proof.
  split; [exact (proj1 (saturating_arith QADD 0x7fffffff 2 sample_cpu ltac:(unfold fits; lia) ltac:(unfold fits; lia) I))|].
  split; [exact (proj1 (saturating_arith QDBL 0xc0000000 0 sample_cpu ltac:(unfold fits; lia) ltac:(unfold fits; lia) I))|].
  exact (proj1 (proj2 (proj2 (saturating_arith QADD 0x0100ff00 0 sample_cpu ltac:(unfold fits; lia) ltac:(unfold fits; lia) I)) 7 ltac:(lia))).
Defined.
