(* ===== verification/ArmNeon.v ===== *)
(** * ArmNeon: the integer operations of NEON (target-arm/neon_helper.c, op_helper.c)

    A vector operand of a helper is a word of 32 or 64 bits that holds lanes; a lane is
    unpacked into an integer of its type, and packed by wrapping it.  The macros NEON_VOP,
    NEON_VOP_ENV, NEON_POP and NEON_VOP1 are the functions of the same names, with the macro
    NEON_FN as argument; [dest] is converted to the type of the lane where the code reads it
    back.  A helper that saturates sets the sticky flag QC.  An [int] shifted by a
    negative number or by 32 and more, and the overflow of an [int] sum or product, are
    undefined ([Fault]); shifting bits into or out of the sign is done as gcc does it.  The operations on
    floating-point lanes call SoftFloat and are not modelled. *)
From S2P Require Import Prelude HostUtils ArmCpu ArmModes ArmArith.
#[local] Open Scope Z_scope.

(** ** Vectors *)
Definition ARM_VFP_FPSCR : Z := 1.
(** SET_QC() assigns to the whole register. *)
Definition SET_QC : CPU unit := put_xreg ARM_VFP_FPSCR CPSR_Q.
Record vtype := mkV { vsigned : bool; vbits : Z; vcount : nat }.
Definition neon_s8 : vtype := mkV true 8 4.
Definition neon_u8 : vtype := mkV false 8 4.
Definition neon_s16 : vtype := mkV true 16 2.
Definition neon_u16 : vtype := mkV false 16 2.
Definition neon_s32 : vtype := mkV true 32 1.
Definition neon_u32 : vtype := mkV false 32 1.
(** Conversion to the type of a lane. *)
Definition elt (t : vtype) (v : Z) : Z := if vsigned t then sgn (vbits t) v else wrap (vbits t) v.
Definition lane_of (t : vtype) (x : Z) (i : nat) : Z := elt t (Z.shiftr x (vbits t * Z.of_nat i)).
Definition NEON_UNPACK (t : vtype) (val : Z) : list Z := List.map (lane_of t val) (seq 0 (vcount t)).
Definition NEON_PACK (t : vtype) (vs : list Z) : Z := positional (vbits t) (List.map (wrap (vbits t)) vs).

Definition NEON_VOP (t : vtype) (fn : Z -> Z -> Z) (arg1 arg2 : Z) : Z :=
  NEON_PACK t (zip_with fn (NEON_UNPACK t arg1) (NEON_UNPACK t arg2)).
Fixpoint for_lanes (fn : Z -> Z -> CPU Z) (l : list (Z * Z)) : CPU (list Z) :=
  match l with
  | [] => mret []
  | (x, y) :: l => d ← fn x y; ds ← for_lanes fn l; mret (d :: ds)
  end.
Definition NEON_VOP_ENV (t : vtype) (fn : Z -> Z -> CPU Z) (arg1 arg2 : Z) : CPU Z :=
  ds ← for_lanes fn (zip (NEON_UNPACK t arg1) (NEON_UNPACK t arg2));
  mret (NEON_PACK t ds).
Fixpoint pairs (l : list Z) : list (Z * Z) := match l with x :: y :: l => (x, y) :: pairs l | _ => [] end.
Definition NEON_POP (t : vtype) (fn : Z -> Z -> Z) (arg1 arg2 : Z) : Z :=
  NEON_PACK t (List.map (fun '(x, y) => fn x y) (pairs (NEON_UNPACK t arg1 ++ NEON_UNPACK t arg2))).
Definition NEON_VOP1 (t : vtype) (fn : Z -> Z) (arg : Z) : Z := NEON_PACK t (List.map fn (NEON_UNPACK t arg)).

(** ** Saturating addition and subtraction *)
Definition NEON_USAT (t : vtype) (op : Z -> Z -> Z) (limit src1 src2 : Z) : CPU Z :=
  let tmp := wrap 32 (op (wrap 32 src1) (wrap 32 src2)) in
  if negb (tmp =? elt t tmp) then SET_QC ;; mret limit else mret tmp.
Definition qadd_u8 : Z -> Z -> CPU Z := NEON_VOP_ENV neon_u8 (NEON_USAT neon_u8 Z.add (-1)).
Definition qadd_u16 : Z -> Z -> CPU Z := NEON_VOP_ENV neon_u16 (NEON_USAT neon_u16 Z.add (-1)).
Definition qsub_u8 : Z -> Z -> CPU Z := NEON_VOP_ENV neon_u8 (NEON_USAT neon_u8 Z.sub 0).
Definition qsub_u16 : Z -> Z -> CPU Z := NEON_VOP_ENV neon_u16 (NEON_USAT neon_u16 Z.sub 0).
Definition qadd_u32 (a b : Z) : CPU Z :=
  let res := wrap 32 (a + b) in if res <? a then SET_QC ;; mret all_ones else mret res.
Definition qsub_u32 (a b : Z) : CPU Z :=
  let res := wrap 32 (a - b) in if a <? res then SET_QC ;; mret 0 else mret res.
(** [up src2] says that the result is too large. *)
Definition NEON_SSAT (t : vtype) (op : Z -> Z -> Z) (up : Z -> bool) (src1 src2 : Z) : CPU Z :=
  let tmp := sgn 32 (op (wrap 32 src1) (wrap 32 src2)) in
  if negb (tmp =? elt t tmp) then
    SET_QC ;; mret (if up src2 then Z.shiftl 1 (vbits t - 1) - 1 else Z.shiftl 1 (vbits t - 1))
  else mret tmp.
Definition qadd_s8 : Z -> Z -> CPU Z := NEON_VOP_ENV neon_s8 (NEON_SSAT neon_s8 Z.add (fun y => 0 <? y)).
Definition qadd_s16 : Z -> Z -> CPU Z := NEON_VOP_ENV neon_s16 (NEON_SSAT neon_s16 Z.add (fun y => 0 <? y)).
Definition qsub_s8 : Z -> Z -> CPU Z := NEON_VOP_ENV neon_s8 (NEON_SSAT neon_s8 Z.sub (fun y => y <? 0)).
Definition qsub_s16 : Z -> Z -> CPU Z := NEON_VOP_ENV neon_s16 (NEON_SSAT neon_s16 Z.sub (fun y => y <? 0)).
Definition qadd_s32 (a b : Z) : CPU Z :=
  let res := wrap 32 (a + b) in
  if truth (Z.land (Z.lxor res a) SIGNBIT) && negb (truth (Z.land (Z.lxor a b) SIGNBIT)) then SET_QC ;; mret (limit_of a) else mret res.
Definition qsub_s32 (a b : Z) : CPU Z :=
  let res := wrap 32 (a - b) in
  if truth (Z.land (Z.lxor res a) SIGNBIT) && truth (Z.land (Z.lxor a b) SIGNBIT) then SET_QC ;; mret (limit_of a) else mret res.

(** The 64-bit ones are in op_helper.c and set QF, the flag of the integer instructions. *)
Definition limit64 (a : Z) : Z := Z.lxor (wrap 64 (Z.shiftr (sgn 64 a) 63)) (not64 SIGNBIT64).
Definition neon_add_saturate_s64 (src1 src2 : Z) : CPU Z :=
  let res := wrap 64 (src1 + src2) in
  if truth (Z.land (Z.lxor res src1) SIGNBIT64) && negb (truth (Z.land (Z.lxor src1 src2) SIGNBIT64)) then
    set_QF ;; mret (limit64 src1)
  else mret res.
Definition neon_add_saturate_u64 (src1 src2 : Z) : CPU Z :=
  let res := wrap 64 (src1 + src2) in if res <? src1 then set_QF ;; mret (not64 0) else mret res.
Definition neon_sub_saturate_s64 (src1 src2 : Z) : CPU Z :=
  let res := wrap 64 (src1 - src2) in
  if truth (Z.land (Z.lxor res src1) SIGNBIT64) && truth (Z.land (Z.lxor src1 src2) SIGNBIT64) then
    set_QF ;; mret (limit64 src1)
  else mret res.
Definition neon_sub_saturate_u64 (src1 src2 : Z) : CPU Z :=
  if src1 <? src2 then set_QF ;; mret 0 else mret (wrap 64 (src1 - src2)).
Definition addl_lane (x y : Z) : CPU Z :=
  let low := wrap 32 (x + y) in
  if truth (Z.land (Z.lxor low x) SIGNBIT) && negb (truth (Z.land (Z.lxor x y) SIGNBIT)) then
    SET_QC ;; mret (Z.lxor (wrap 32 (Z.shiftr (sgn 32 x) 31)) (not32 SIGNBIT))
  else mret low.
Definition addl_saturate_s32 (a b : Z) : CPU Z :=
  low ← addl_lane (wrap 32 a) (wrap 32 b);
  high ← addl_lane (wrap 32 (Z.shiftr a 32)) (wrap 32 (Z.shiftr b 32));
  mret (Z.lor low (Z.shiftl high 32)).
Definition addl_saturate_s64 (a b : Z) : CPU Z :=
  let result := wrap 64 (a + b) in
  if truth (Z.land (Z.lxor result a) SIGNBIT64) && negb (truth (Z.land (Z.lxor a b) SIGNBIT64)) then SET_QC ;; mret (limit64 a) else mret result.

(** ** Halving operations *)
Definition HADD (x y : Z) : Z := Z.shiftr (x + y) 1.
Definition hadd_s8 : Z -> Z -> Z := NEON_VOP neon_s8 HADD.
Definition hadd_u8 : Z -> Z -> Z := NEON_VOP neon_u8 HADD.
Definition hadd_s16 : Z -> Z -> Z := NEON_VOP neon_s16 HADD.
Definition hadd_u16 : Z -> Z -> Z := NEON_VOP neon_u16 HADD.
(** The arguments and results of the 32-bit ones are of type int32_t or uint32_t. *)
Definition hadd_s32 (src1 src2 : Z) : Z :=
  Z.shiftr src1 1 + Z.shiftr src2 1 + (if truth (Z.land (Z.land src1 src2) 1) then 1 else 0).
Definition hadd_u32 (src1 src2 : Z) : Z :=
  wrap 32 (Z.shiftr src1 1 + Z.shiftr src2 1 + (if truth (Z.land (Z.land src1 src2) 1) then 1 else 0)).
Definition RHADD (x y : Z) : Z := Z.shiftr (x + y + 1) 1.
Definition rhadd_s8 : Z -> Z -> Z := NEON_VOP neon_s8 RHADD.
Definition rhadd_u8 : Z -> Z -> Z := NEON_VOP neon_u8 RHADD.
Definition rhadd_s16 : Z -> Z -> Z := NEON_VOP neon_s16 RHADD.
Definition rhadd_u16 : Z -> Z -> Z := NEON_VOP neon_u16 RHADD.
Definition rhadd_s32 (src1 src2 : Z) : Z :=
  Z.shiftr src1 1 + Z.shiftr src2 1 + (if truth (Z.land (Z.lor src1 src2) 1) then 1 else 0).
Definition rhadd_u32 (src1 src2 : Z) : Z :=
  wrap 32 (Z.shiftr src1 1 + Z.shiftr src2 1 + (if truth (Z.land (Z.lor src1 src2) 1) then 1 else 0)).
Definition HSUB (x y : Z) : Z := Z.shiftr (x - y) 1.
Definition hsub_s8 : Z -> Z -> Z := NEON_VOP neon_s8 HSUB.
Definition hsub_u8 : Z -> Z -> Z := NEON_VOP neon_u8 HSUB.
Definition hsub_s16 : Z -> Z -> Z := NEON_VOP neon_s16 HSUB.
Definition hsub_u16 : Z -> Z -> Z := NEON_VOP neon_u16 HSUB.
Definition hsub_s32 (src1 src2 : Z) : Z :=
  Z.shiftr src1 1 - Z.shiftr src2 1 - (if truth (Z.land (Z.land (Z.lnot src1) src2) 1) then 1 else 0).
Definition hsub_u32 (src1 src2 : Z) : Z :=
  wrap 32 (Z.shiftr src1 1 - Z.shiftr src2 1 - (if truth (Z.land (Z.land (not32 src1) src2) 1) then 1 else 0)).

(** ** Comparisons, minimum, maximum, absolute difference *)
Definition CGT (x y : Z) : Z := if y <? x then -1 else 0.
Definition CGE (x y : Z) : Z := if y <=? x then -1 else 0.
Definition MIN (x y : Z) : Z := if x <? y then x else y.
Definition MAX (x y : Z) : Z := if y <? x then x else y.
Definition ABD (x y : Z) : Z := if y <? x then x - y else y - x.
Definition TST (x y : Z) : Z := if truth (Z.land x y) then -1 else 0.
Definition CEQ (x y : Z) : Z := if x =? y then -1 else 0.
Definition cgt (t : vtype) : Z -> Z -> Z := NEON_VOP t CGT.
Definition cge (t : vtype) : Z -> Z -> Z := NEON_VOP t CGE.
Definition neon_min (t : vtype) : Z -> Z -> Z := NEON_VOP t MIN.
Definition neon_max (t : vtype) : Z -> Z -> Z := NEON_VOP t MAX.
Definition pmin (t : vtype) : Z -> Z -> Z := NEON_POP t MIN.
Definition pmax (t : vtype) : Z -> Z -> Z := NEON_POP t MAX.
Definition tst (t : vtype) : Z -> Z -> Z := NEON_VOP t TST.
Definition ceq (t : vtype) : Z -> Z -> Z := NEON_VOP t CEQ.
(** For int32_t the subtraction can overflow. *)
Definition abd (t : vtype) : Z -> Z -> CPU Z :=
  NEON_VOP_ENV t (fun x y => let d := ABD x y in if vsigned t && (vbits t =? 32) && (2 ^ 31 <=? d) then throw Fault else mret d).

(** ** Shifts by a signed byte *)
(** The type of an expression on lanes of type [t]: uint32_t for u32, otherwise int. *)
Definition unsigned32 (t : vtype) : bool := negb (vsigned t) && (vbits t =? 32).
(** [x << n], [x >> n], [x + y] and [1 << n] in that type. *)
Definition c_shl (t : vtype) (x n : Z) : CPU Z :=
  if (0 <=? n) && (n <? 32) then mret (if unsigned32 t then wrap 32 (Z.shiftl x n) else sgn 32 (Z.shiftl x n)) else throw Fault.
Definition c_shr (x n : Z) : CPU Z := if (0 <=? n) && (n <? 32) then mret (Z.shiftr x n) else throw Fault.
Definition c_add (t : vtype) (x y : Z) : CPU Z :=
  let v := x + y in
  if unsigned32 t then mret (wrap 32 v) else if (- 2 ^ 31 <=? v) && (v <? 2 ^ 31) then mret v else throw Fault.
Definition int_bit (n : Z) : CPU Z := if (0 <=? n) && (n <? 32) then mret (sgn 32 (Z.shiftl 1 n)) else throw Fault.
(** [dest = (src1 + (1 << (-1 - tmp))) >> -tmp] *)
Definition round_shr (t : vtype) (src1 tmp : Z) : CPU Z :=
  b ← int_bit (-1 - tmp); s ← c_add t src1 b; c_shr s (- tmp).

Definition SHL_U (t : vtype) (src1 src2 : Z) : CPU Z :=
  let tmp := sgn 8 src2 in
  if (vbits t <=? tmp) || (tmp <=? - vbits t) then mret 0
  else if tmp <? 0 then c_shr src1 (- tmp)
  else c_shl t src1 tmp.
Definition shl_u (t : vtype) : Z -> Z -> CPU Z := NEON_VOP_ENV t (SHL_U t).
(** The arguments of the 64-bit ones are of type uint64_t. *)
Definition shl_u64 (val shiftop : Z) : Z :=
  let shift := sgn 8 shiftop in
  if (64 <=? shift) || (shift <=? -64) then 0
  else if shift <? 0 then Z.shiftr val (- shift)
  else wrap 64 (Z.shiftl val shift).
Definition SHL_S (t : vtype) (src1 src2 : Z) : CPU Z :=
  let tmp := sgn 8 src2 in
  if vbits t <=? tmp then mret 0
  else if tmp <=? - vbits t then c_shr src1 (vbits t - 1)
  else if tmp <? 0 then c_shr src1 (- tmp)
  else c_shl t src1 tmp.
Definition shl_s (t : vtype) : Z -> Z -> CPU Z := NEON_VOP_ENV t (SHL_S t).
Definition shl_s64 (valop shiftop : Z) : Z :=
  let shift := sgn 8 shiftop in
  let val := sgn 64 valop in
  wrap 64 (if 64 <=? shift then 0
    else if shift <=? -64 then Z.shiftr val 63
    else if shift <? 0 then Z.shiftr val (- shift)
    else sgn 64 (Z.shiftl val shift)).
Definition RSHL_S (t : vtype) (src1 src2 : Z) : CPU Z :=
  let tmp := sgn 8 src2 in
  if vbits t <=? tmp then mret 0
  else if tmp <? - vbits t then c_shr src1 (vbits t - 1)
  else if tmp =? - vbits t then
    dest ← c_shr src1 (tmp - 1);
    let dest := elt t (elt t dest + 1) in
    mret (Z.shiftr dest 1)
  else if tmp <? 0 then round_shr t src1 tmp
  else c_shl t src1 tmp.
Definition rshl_s (t : vtype) : Z -> Z -> CPU Z := NEON_VOP_ENV t (RSHL_S t).
(** Sums of int64_t that overflow, and [(int64_t)1 << n] for [n] out of range, are undefined. *)
Definition c_add64 (x y : Z) : CPU Z := if (- 2 ^ 63 <=? x + y) && (x + y <? 2 ^ 63) then mret (x + y) else throw Fault.
Definition int64_bit (n : Z) : CPU Z := if (0 <=? n) && (n <? 64) then mret (sgn 64 (Z.shiftl 1 n)) else throw Fault.
Definition c_shr64 (x n : Z) : CPU Z := if (0 <=? n) && (n <? 64) then mret (Z.shiftr x n) else throw Fault.
Definition c_shl64 (x n : Z) : CPU Z := if (0 <=? n) && (n <? 64) then mret (Z.shiftl x n) else throw Fault.
Definition rshl_s64 (valop shiftop : Z) : CPU Z :=
  let shift := sgn 8 shiftop in
  let val := sgn 64 valop in
  val ← (if 64 <=? shift then mret 0
    else if shift <? -64 then mret (Z.shiftr val 63)
    else if shift =? -63 then mret (Z.shiftr (Z.shiftr val 63 + 1) 1)
    else if shift <? 0 then b ← int64_bit (-1 - shift); s ← c_add64 val b; c_shr64 s (- shift)
    else mret (sgn 64 (Z.shiftl val shift)));
  mret (wrap 64 val).
Definition RSHL_U (t : vtype) (src1 src2 : Z) : CPU Z :=
  let tmp := sgn 8 src2 in
  if (vbits t <=? tmp) || (tmp <? - vbits t) then mret 0
  else if tmp =? - vbits t then c_shr src1 (tmp - 1)
  else if tmp <? 0 then round_shr t src1 tmp
  else c_shl t src1 tmp.
Definition rshl_u (t : vtype) : Z -> Z -> CPU Z := NEON_VOP_ENV t (RSHL_U t).
(** The second [if] is not an [else if]. *)
Definition rshl_u64 (val shiftop : Z) : CPU Z :=
  let shift := sgn 8 (wrap 8 shiftop) in
  let val := if (64 <=? shift) || (shift <? 64) then 0 else if shift =? -64 then Z.shiftr val 63 else val in
  if shift <? 0 then
    b ← c_shl64 1 (-1 - shift);
    val ← c_shr64 (wrap 64 (val + wrap 64 b)) (- shift);
    c_shr64 val (- shift)
  else r ← c_shl64 val shift; mret (wrap 64 r).

(** ** Saturating shifts *)
(** [dest] is the lane, so [dest >> tmp] sees the wrapped value. *)
Definition QSHL_U (t : vtype) (src1 src2 : Z) : CPU Z :=
  let tmp := sgn 8 src2 in
  if vbits t <=? tmp then if truth src1 then SET_QC ;; mret (-1) else mret 0
  else if tmp <=? - vbits t then mret 0
  else if tmp <? 0 then c_shr src1 (- tmp)
  else
    d ← c_shl t src1 tmp;
    let dest := elt t d in
    if negb (Z.shiftr dest tmp =? src1) then SET_QC ;; mret (-1) else mret dest.
Definition qshl_u (t : vtype) : Z -> Z -> CPU Z := NEON_VOP_ENV t (QSHL_U t).
Definition qshl_u64 (val shiftop : Z) : CPU Z :=
  let shift := sgn 8 shiftop in
  if 64 <=? shift then if truth val then SET_QC ;; mret (not64 0) else mret 0
  else if shift <=? -64 then mret 0
  else if shift <? 0 then mret (Z.shiftr val (- shift))
  else
    let val' := wrap 64 (Z.shiftl val shift) in
    if negb (Z.shiftr val' shift =? val) then SET_QC ;; mret (not64 0) else mret val'.
Definition QSHL_S (t : vtype) (src1 src2 : Z) : CPU Z :=
  let tmp := sgn 8 src2 in
  if vbits t <=? tmp then when (truth src1) SET_QC ;; mret (Z.shiftr src1 31)
  else if tmp <=? - vbits t then mret (Z.shiftr src1 31)
  else if tmp <? 0 then c_shr src1 (- tmp)
  else
    d ← c_shl t src1 tmp;
    let dest := elt t d in
    if negb (Z.shiftr dest tmp =? src1) then SET_QC ;; mret (Z.shiftr src2 31) else mret dest.
Definition qshl_s (t : vtype) : Z -> Z -> CPU Z := NEON_VOP_ENV t (QSHL_S t).
Definition qshl_s64 (valop shiftop : Z) : CPU Z :=
  let shift := sgn 8 (wrap 8 shiftop) in
  let val := sgn 64 valop in
  val ← (if 64 <=? shift then
      if truth val then SET_QC ;; mret (Z.land (Z.shiftr val 63) (not64 SIGNBIT64)) else mret val
    else if shift <=? 64 then mret (Z.shiftr val 63)
    else if shift <? 0 then mret (Z.shiftr val (- shift))
    else
      let tmp := val in
      let val := sgn 64 (Z.shiftl val shift) in
      if negb (Z.shiftr val shift =? tmp) then SET_QC ;; mret (Z.lxor (Z.shiftr tmp 63) (not64 SIGNBIT64)) else mret val);
  mret (wrap 64 val).
(** "FIXME: This is wrong." *)
Definition QRSHL (t : vtype) (limit : Z -> Z) (src1 src2 : Z) : CPU Z :=
  let tmp := sgn 8 src2 in
  if tmp <? 0 then round_shr t src1 tmp
  else
    d ← c_shl t src1 tmp;
    let dest := elt t d in
    back ← c_shr dest tmp;
    if negb (back =? src1) then SET_QC ;; mret (limit src1) else mret dest.
Definition qrshl_u (t : vtype) : Z -> Z -> CPU Z := NEON_VOP_ENV t (QRSHL t (fun _ => -1)).
Definition qrshl_s (t : vtype) : Z -> Z -> CPU Z := NEON_VOP_ENV t (QRSHL t (fun src1 => Z.shiftr src1 31)).
Definition qrshl_u64 (val shiftop : Z) : CPU Z :=
  let shift := sgn 8 shiftop in
  if shift <? 0 then b ← int_bit (-1 - shift); c_shr64 (wrap 64 (val + wrap 64 b)) (- shift)
  else
    v ← c_shl64 val shift;
    let val' := wrap 64 v in
    if negb (Z.shiftr val' shift =? val) then SET_QC ;; mret (wrap 64 (-1)) else mret val'.
Definition qrshl_s64 (valop shiftop : Z) : CPU Z :=
  let shift := sgn 8 (wrap 8 shiftop) in
  let val := sgn 64 valop in
  val ← (if shift <? 0 then b ← int_bit (-1 - shift); s ← c_add64 val b; c_shr64 s (- shift)
    else
      v ← c_shl64 val shift;
      let val' := sgn 64 v in
      if negb (Z.shiftr val' shift =? val) then SET_QC ;; mret (Z.shiftr val 31) else mret val');
  mret (wrap 64 val).

(** ** Addition, subtraction, multiplication *)
Definition neon_add_u8 (a b : Z) : Z :=
  let mask := Z.land (Z.lxor a b) 0x80808080 in
  Z.lxor (wrap 32 (Z.land a (not32 0x80808080) + Z.land b (not32 0x80808080))) mask.
Definition neon_add_u16 (a b : Z) : Z :=
  let mask := Z.land (Z.lxor a b) 0x80008000 in
  Z.lxor (wrap 32 (Z.land a (not32 0x80008000) + Z.land b (not32 0x80008000))) mask.
Definition padd_u8 : Z -> Z -> Z := NEON_POP neon_u8 Z.add.
Definition padd_u16 : Z -> Z -> Z := NEON_POP neon_u16 Z.add.
Definition neon_sub_u8 : Z -> Z -> Z := NEON_VOP neon_u8 Z.sub.
Definition neon_sub_u16 : Z -> Z -> Z := NEON_VOP neon_u16 Z.sub.
Definition neon_mul_u8 : Z -> Z -> Z := NEON_VOP neon_u8 Z.mul.
(** The product of two uint16_t is an [int]. *)
Definition neon_mul_u16 : Z -> Z -> CPU Z := NEON_VOP_ENV neon_u16 (fun x y => if 2 ^ 31 <=? x * y then throw Fault else mret (x * y)).
(** The loop of neon_mul_p8; [None] when the fuel runs out. *)
Definition p8_mask (op1 : Z) : Z :=
  Z.lor (if truth (Z.land op1 1) then 0xff else 0) (Z.lor (if truth (Z.land op1 (bit 8)) then Z.shiftl 0xff 8 else 0)
    (Z.lor (if truth (Z.land op1 (bit 16)) then Z.shiftl 0xff 16 else 0) (if truth (Z.land op1 (bit 24)) then Z.shiftl 0xff 24 else 0))).
Fixpoint p8_loop (fuel : nat) (op1 op2 result : Z) : option Z :=
  if truth op1 then
    match fuel with
    | O => None
    | S fuel =>
      p8_loop fuel (Z.land (Z.shiftr op1 1) 0x7f7f7f7f) (Z.land (wrap 32 (Z.shiftl op2 1)) 0xfefefefe)
        (Z.lxor result (Z.land op2 (p8_mask op1)))
    end
  else Some result.
Definition neon_mul_p8 (op1 op2 : Z) : option Z := p8_loop 8 op1 op2 0.

(** ** Absolute values and bit counts *)
Definition ABS (x : Z) : Z := if x <? 0 then - x else x.
Definition neon_abs_s8 : Z -> Z := NEON_VOP1 neon_s8 ABS.
Definition neon_abs_s16 : Z -> Z := NEON_VOP1 neon_s16 ABS.
(** [for (n = w; x; n--) x >>= 1;], for an [x] of w bits. *)
Fixpoint do_clz (w : nat) (x n : Z) : Z := match w with O => n | S w => if truth x then do_clz w (Z.shiftr x 1) (n - 1) else n end.
Definition do_clz8 (x : Z) : Z := do_clz 8 (wrap 8 x) 8.
Definition do_clz16 (x : Z) : Z := do_clz 16 (wrap 16 x) 16.
Definition neon_clz_u8 : Z -> Z := NEON_VOP1 neon_u8 do_clz8.
Definition neon_clz_u16 : Z -> Z := NEON_VOP1 neon_u16 do_clz16.
Definition neon_cls_s8 : Z -> Z := NEON_VOP1 neon_s8 (fun x => do_clz8 (if x <? 0 then Z.lnot x else x) - 1).
Definition neon_cls_s16 : Z -> Z := NEON_VOP1 neon_s16 (fun x => do_clz16 (if x <? 0 then Z.lnot x else x) - 1).
Definition neon_cls_s32 (x : Z) : Z := wrap 32 (do_clz 32 (if sgn 32 x <? 0 then not32 x else x) 32 - 1).
Definition neon_cnt_u8 (x : Z) : Z :=
  let x := wrap 32 (Z.land x 0x55555555 + Z.land (Z.shiftr x 1) 0x55555555) in
  let x := wrap 32 (Z.land x 0x33333333 + Z.land (Z.shiftr x 2) 0x33333333) in
  wrap 32 (Z.land x 0x0f0f0f0f + Z.land (Z.shiftr x 4) 0x0f0f0f0f).

(** ** Doubling multiplications *)
Definition QDMULH16 (round : bool) (src1 src2 : Z) : CPU Z :=
  let tmp := wrap 32 (sgn 16 src1 * sgn 16 src2) in
  let over := truth (Z.land (Z.lxor tmp (wrap 32 (Z.shiftl tmp 1))) SIGNBIT) in
  when over SET_QC ;;
  let tmp := if over then Z.lxor (Z.shiftr tmp 31) (not32 SIGNBIT) else tmp in
  let tmp := wrap 32 (Z.shiftl tmp 1) in
  if round then
    let old := sgn 32 tmp in
    let tmp := wrap 32 (tmp + bit 15) in
    if sgn 32 tmp <? old then SET_QC ;; mret (Z.shiftr (SIGNBIT - 1) 16) else mret (Z.shiftr tmp 16)
  else mret (Z.shiftr tmp 16).
Definition qdmulh_s16 : Z -> Z -> CPU Z := NEON_VOP_ENV neon_s16 (QDMULH16 false).
Definition qrdmulh_s16 : Z -> Z -> CPU Z := NEON_VOP_ENV neon_s16 (QDMULH16 true).
Definition QDMULH32 (round : bool) (src1 src2 : Z) : CPU Z :=
  let tmp := wrap 64 (sgn 32 src1 * sgn 32 src2) in
  let over := truth (Z.land (Z.lxor tmp (wrap 64 (Z.shiftl tmp 1))) SIGNBIT64) in
  when over SET_QC ;;
  let tmp := if over then Z.lxor (Z.shiftr tmp 63) (not64 SIGNBIT64) else wrap 64 (Z.shiftl tmp 1) in
  if round then
    let old := sgn 64 tmp in
    let tmp := wrap 64 (tmp + bit 31) in
    if sgn 64 tmp <? old then SET_QC ;; mret (Z.shiftr (SIGNBIT64 - 1) 32) else mret (Z.shiftr tmp 32)
  else mret (Z.shiftr tmp 32).
Definition qdmulh_s32 : Z -> Z -> CPU Z := NEON_VOP_ENV neon_s32 (QDMULH32 false).
Definition qrdmulh_s32 : Z -> Z -> CPU Z := NEON_VOP_ENV neon_s32 (QDMULH32 true).

(** ** Narrowing *)
Definition neon_narrow_u8 (x : Z) : Z :=
  wrap 32 (Z.lor (Z.land x 0xff) (Z.lor (Z.land (Z.shiftr x 8) 0xff00) (Z.lor (Z.land (Z.shiftr x 16) 0xff0000) (Z.land (Z.shiftr x 24) 0xff000000)))).
Definition neon_narrow_u16 (x : Z) : Z := wrap 32 (Z.lor (Z.land x 0xffff) (Z.land (Z.shiftr x 16) 0xffff0000)).
Definition narrow_high_u8 (x : Z) : Z :=
  wrap 32 (Z.lor (Z.land (Z.shiftr x 8) 0xff) (Z.lor (Z.land (Z.shiftr x 16) 0xff00) (Z.lor (Z.land (Z.shiftr x 24) 0xff0000) (Z.land (Z.shiftr x 32) 0xff000000)))).
Definition narrow_high_u16 (x : Z) : Z := wrap 32 (Z.lor (Z.land (Z.shiftr x 16) 0xffff) (Z.land (Z.shiftr x 32) 0xffff0000)).
Definition narrow_round_high_u8 (x : Z) : Z :=
  narrow_high_u8 (wrap 64 (Z.land x 0xff80ff80ff80ff80 + 0x0080008000800080)).
Definition narrow_round_high_u16 (x : Z) : Z :=
  narrow_high_u16 (wrap 64 (Z.land x 0xffff8000ffff8000 + 0x0000800000008000)).
(** The lanes of a narrowing operation: SAT8(n) for n = 0, 16, 32, 48. *)
Definition sat8_lanes (f : Z -> CPU Z) (x : Z) : CPU Z :=
  d0 ← f x; d1 ← f (Z.shiftr x 16); d2 ← f (Z.shiftr x 32); d3 ← f (Z.shiftr x 48);
  mret (Z.lor (Z.lor (Z.lor d0 (Z.shiftl d1 8)) (Z.shiftl d2 16)) (Z.shiftl d3 24)).
Definition unarrow_sat8 : Z -> CPU Z := sat8_lanes (fun x =>
  let s := wrap 16 x in
  if truth (Z.land s 0x8000) then SET_QC ;; mret 0
  else if 0xff <? s then SET_QC ;; mret 0xff else mret (wrap 8 s)).
Definition narrow_sat_u8 : Z -> CPU Z := sat8_lanes (fun x =>
  let s := wrap 16 x in
  if 0xff <? s then SET_QC ;; mret 0xff else mret (wrap 8 s)).
Definition narrow_sat_s8 : Z -> CPU Z := sat8_lanes (fun x =>
  let s := sgn 16 x in
  if negb (s =? sgn 8 s) then SET_QC ;; mret (wrap 8 (Z.lxor (Z.shiftr s 15) 0x7f)) else mret (wrap 8 s)).
Definition sat16_lanes (f : Z -> CPU Z) (x : Z) : CPU Z :=
  low ← f x; high ← f (Z.shiftr x 32); mret (Z.lor low (wrap 32 (Z.shiftl high 16))).
Definition unarrow_sat16 : Z -> CPU Z := sat16_lanes (fun x =>
  let low := wrap 32 x in
  if truth (Z.land low 0x80000000) then SET_QC ;; mret 0
  else if 0xffff <? low then SET_QC ;; mret 0xffff else mret low).
Definition narrow_sat_u16 : Z -> CPU Z := sat16_lanes (fun x =>
  let low := wrap 32 x in
  if 0xffff <? low then SET_QC ;; mret 0xffff else mret low).
Definition sat_s16 (x : Z) : CPU Z :=
  let low := sgn 32 x in
  if negb (low =? sgn 16 low) then SET_QC ;; mret (Z.lxor (Z.shiftr low 31) 0x7fff) else mret low.
Definition narrow_sat_s16 (x : Z) : CPU Z :=
  low ← sat_s16 x; high ← sat_s16 (Z.shiftr x 32); mret (Z.lor (wrap 16 low) (wrap 32 (Z.shiftl high 16))).
Definition unarrow_sat32 (x : Z) : CPU Z :=
  if truth (Z.land x 0x8000000000000000) then SET_QC ;; mret 0
  else if 0xffffffff <? x then SET_QC ;; mret 0xffffffff else mret (wrap 32 x).
Definition narrow_sat_u32 (x : Z) : CPU Z := if 0xffffffff <? x then SET_QC ;; mret 0xffffffff else mret (wrap 32 x).
(** [x >> 63] is a shift of the unsigned [x]. *)
Definition narrow_sat_s32 (x : Z) : CPU Z :=
  if negb (sgn 64 x =? sgn 32 x) then SET_QC ;; mret (wrap 32 (Z.lxor (Z.shiftr x 63) 0x7fffffff)) else mret (wrap 32 x).

(** ** Widening *)
Definition lanes4 (f : Z -> Z) (x : Z) : Z :=
  Z.lor (Z.lor (Z.lor (f x) (Z.shiftl (f (Z.shiftr x 8)) 16)) (Z.shiftl (f (Z.shiftr x 16)) 32)) (Z.shiftl (f (Z.shiftr x 24)) 48).
Definition widen_u8 : Z -> Z := lanes4 (wrap 8).
Definition widen_s8 : Z -> Z := lanes4 (fun x => wrap 16 (sgn 8 x)).
Definition widen_u16 (x : Z) : Z := let high := wrap 16 (Z.shiftr x 16) in Z.lor (wrap 16 x) (Z.shiftl high 32).
Definition widen_s16 (x : Z) : Z :=
  let high := wrap 64 (sgn 16 (Z.shiftr x 16)) in Z.lor (wrap 32 (sgn 16 x)) (wrap 64 (Z.shiftl high 32)).

(** ** Arithmetic on vectors of 64 bits *)
Definition addl_mask (m a b : Z) : Z :=
  let mask := Z.land (Z.lxor a b) m in
  Z.lxor (wrap 64 (Z.land a (not64 m) + Z.land b (not64 m))) mask.
Definition addl_u16 : Z -> Z -> Z := addl_mask 0x8000800080008000.
Definition addl_u32 : Z -> Z -> Z := addl_mask 0x8000000080000000.
Definition subl_mask (m a b : Z) : Z :=
  let mask := Z.land (Z.lxor a (not64 b)) m in
  Z.lxor (wrap 64 (Z.lor a m - Z.land b (not64 m))) mask.
Definition subl_u16 : Z -> Z -> Z := subl_mask 0x8000800080008000.
Definition subl_u32 : Z -> Z -> Z := subl_mask 0x8000000080000000.
Definition paddl_u16 (a b : Z) : Z :=
  let tmp := wrap 64 (Z.land a 0x0000ffff0000ffff + Z.land (Z.shiftr a 16) 0x0000ffff0000ffff) in
  let tmp2 := wrap 64 (Z.land b 0xffff0000ffff0000 + Z.land (wrap 64 (Z.shiftl b 16)) 0xffff0000ffff0000) in
  Z.lor (Z.land tmp 0xffff) (Z.lor (Z.land (Z.shiftr tmp 16) 0xffff0000)
    (Z.lor (Z.land (wrap 64 (Z.shiftl tmp2 16)) 0xffff00000000) (Z.land tmp2 0xffff000000000000))).
Definition paddl_u32 (a b : Z) : Z :=
  let low := wrap 32 (a + Z.shiftr a 32) in
  let high := wrap 32 (b + Z.shiftr b 32) in
  wrap 64 (low + Z.shiftl high 32).
(** DO_ABD, with the conversion [type] of the operands and the width of [dest]. *)
Definition DO_ABD (conv : Z -> Z) (x y : Z) : Z := wrap 64 (ABD (conv x) (conv y)).
Definition lanes4_2 (f : Z -> Z -> Z) (a b : Z) : Z :=
  Z.lor (Z.lor (Z.lor (f a b) (Z.shiftl (f (Z.shiftr a 8) (Z.shiftr b 8)) 16)) (wrap 64 (Z.shiftl (f (Z.shiftr a 16) (Z.shiftr b 16)) 32)))
    (wrap 64 (Z.shiftl (f (Z.shiftr a 24) (Z.shiftr b 24)) 48)).
Definition lanes2_2 (f : Z -> Z -> Z) (a b : Z) : Z :=
  Z.lor (f a b) (wrap 64 (Z.shiftl (f (Z.shiftr a 16) (Z.shiftr b 16)) 32)).
Definition abdl_u16 : Z -> Z -> Z := lanes4_2 (DO_ABD (wrap 8)).
Definition abdl_s16 : Z -> Z -> Z := lanes4_2 (DO_ABD (sgn 8)).
Definition abdl_u32 : Z -> Z -> Z := lanes2_2 (DO_ABD (wrap 16)).
Definition abdl_s32 : Z -> Z -> Z := lanes2_2 (DO_ABD (sgn 16)).
Definition abdl_u64 : Z -> Z -> Z := DO_ABD (wrap 32).
(** The difference of two int32_t can overflow. *)
Definition abdl_s64 (a b : Z) : CPU Z :=
  let d := ABD (sgn 32 a) (sgn 32 b) in if 2 ^ 31 <=? d then throw Fault else mret d.
Definition DO_MULL (conv : Z -> Z) (w x y : Z) : Z := wrap w (wrap w (conv x) * wrap w (conv y)).
Definition mull_u8 : Z -> Z -> Z := lanes4_2 (DO_MULL (wrap 8) 16).
(** The product of two uint16_t is an [int], and overflows when both lanes are negative. *)
Definition mull_overflows (a b : Z) : bool := existsb (fun i => 2 ^ 31 <=? wrap 16 (sgn 8 (Z.shiftr a i)) * wrap 16 (sgn 8 (Z.shiftr b i))) [0; 8; 16; 24].
Definition mull_s8 (a b : Z) : CPU Z := if mull_overflows a b then throw Fault else mret (lanes4_2 (DO_MULL (sgn 8) 16) a b).
Definition mull_u16 : Z -> Z -> Z := lanes2_2 (DO_MULL (wrap 16) 32).
Definition mull_s16 : Z -> Z -> Z := lanes2_2 (DO_MULL (sgn 16) 32).
Definition negl_u16 (x : Z) : Z :=
  Z.lor (Z.lor (Z.lor (wrap 16 (- x)) (Z.shiftl (wrap 16 (- Z.shiftr x 16)) 16)) (Z.shiftl (wrap 16 (- Z.shiftr x 32)) 32))
    (Z.shiftl (wrap 16 (- Z.shiftr x 48)) 48).
Definition negl_u32 (x : Z) : Z := Z.lor (wrap 32 (- x)) (Z.shiftl (wrap 32 (- Z.shiftr x 32)) 32).
Definition negl_u64 (x : Z) : Z := wrap 64 (- x).

(** ** Saturating sign manipulation *)
Definition DO_QABS (w : Z) (x _y : Z) : CPU Z :=
  if x =? sgn w (bit (w - 1)) then SET_QC ;; mret (2 ^ (w - 1) - 1) else if x <? 0 then mret (- x) else mret x.
Definition DO_QNEG (w : Z) (x _y : Z) : CPU Z :=
  if x =? sgn w (bit (w - 1)) then SET_QC ;; mret (2 ^ (w - 1) - 1) else mret (- x).
Definition qabs_s8 (x : Z) : CPU Z := NEON_VOP_ENV neon_s8 (DO_QABS 8) x x.
Definition qneg_s8 (x : Z) : CPU Z := NEON_VOP_ENV neon_s8 (DO_QNEG 8) x x.
Definition qabs_s16 (x : Z) : CPU Z := NEON_VOP_ENV neon_s16 (DO_QABS 16) x x.
Definition qneg_s16 (x : Z) : CPU Z := NEON_VOP_ENV neon_s16 (DO_QNEG 16) x x.
Definition qabs_s32 (x : Z) : CPU Z :=
  if x =? SIGNBIT then SET_QC ;; mret (not32 SIGNBIT) else if sgn 32 x <? 0 then mret (wrap 32 (- x)) else mret x.
Definition qneg_s32 (x : Z) : CPU Z :=
  if x =? SIGNBIT then SET_QC ;; mret (not32 SIGNBIT) else mret (wrap 32 (- x)).

(** ** Permutations: the registers are the array env->vfp.regs *)
Definition ELEM (V N SIZE : Z) : Z := Z.land (Z.shiftr V (N * SIZE)) (bit SIZE - 1).
(** [e0 | e1 << SIZE | e2 << 2 * SIZE | ...] *)
Fixpoint join (SIZE : Z) (l : list Z) : Z := match l with [] => 0 | e :: l => Z.lor e (Z.shiftl (join SIZE l) SIZE) end.
Definition pick (SIZE : Z) (l : list (Z * Z)) : Z := join SIZE (List.map (fun '(v, n) => ELEM v n SIZE) l).
Definition rd_field (insn : Z) : Z := Z.lor (Z.land (Z.shiftr insn 18) 0x10) (Z.land (Z.shiftr insn 12) 0x0f).
Definition rm_field (insn : Z) : Z := Z.lor (Z.land (Z.shiftr insn 1) 0x10) (Z.land insn 0x0f).
Definition size_field (insn : Z) : Z := Z.land (Z.shiftr insn 18) 3.
(** d0, d1, m0 and m1 of the quadword forms, d and m of the doubleword forms. *)
Definition unzip_q (size zd0 zd1 zm0 zm1 : Z) : Z * Z * (Z * Z) :=
  if size =? 0 then
    (pick 8 [(zd0, 0); (zd0, 2); (zd0, 4); (zd0, 6); (zd1, 0); (zd1, 2); (zd1, 4); (zd1, 6)],
     pick 8 [(zm0, 0); (zm0, 2); (zm0, 4); (zm0, 6); (zm1, 0); (zm1, 2); (zm1, 4); (zm1, 6)],
     (pick 8 [(zd0, 1); (zd0, 3); (zd0, 5); (zd0, 7); (zd1, 1); (zd1, 3); (zd1, 5); (zd1, 7)],
      pick 8 [(zm0, 1); (zm0, 3); (zm0, 5); (zm0, 7); (zm1, 1); (zm1, 3); (zm1, 5); (zm1, 7)]))
  else if size =? 1 then
    (pick 16 [(zd0, 0); (zd0, 2); (zd1, 0); (zd1, 2)], pick 16 [(zm0, 0); (zm0, 2); (zm1, 0); (zm1, 2)],
     (pick 16 [(zd0, 1); (zd0, 3); (zd1, 1); (zd1, 3)], pick 16 [(zm0, 1); (zm0, 3); (zm1, 1); (zm1, 3)]))
  else if size =? 2 then
    (pick 32 [(zd0, 0); (zd1, 0)], pick 32 [(zm0, 0); (zm1, 0)], (pick 32 [(zd0, 1); (zd1, 1)], pick 32 [(zm0, 1); (zm1, 1)]))
  else (0, 0, (0, 0)).
Definition unzip_d (size zd zm : Z) : Z * Z :=
  if size =? 0 then
    (pick 8 [(zd, 0); (zd, 2); (zd, 4); (zd, 6); (zm, 0); (zm, 2); (zm, 4); (zm, 6)],
     pick 8 [(zd, 1); (zd, 3); (zd, 5); (zd, 7); (zm, 1); (zm, 3); (zm, 5); (zm, 7)])
  else if size =? 1 then
    (pick 16 [(zd, 0); (zd, 2); (zm, 0); (zm, 2)], pick 16 [(zd, 1); (zd, 3); (zm, 1); (zm, 3)])
  else (0, 0).
Definition zip_q (size zd0 zd1 zm0 zm1 : Z) : Z * Z * (Z * Z) :=
  if size =? 0 then
    (pick 8 [(zd0, 0); (zm0, 0); (zd0, 1); (zm0, 1); (zd0, 2); (zm0, 2); (zd0, 3); (zm0, 3)],
     pick 8 [(zd0, 4); (zm0, 4); (zd0, 5); (zm0, 5); (zd0, 6); (zm0, 6); (zd0, 7); (zm0, 7)],
     (pick 8 [(zd1, 0); (zm1, 0); (zd1, 1); (zm1, 1); (zd1, 2); (zm1, 2); (zd1, 3); (zm1, 3)],
      pick 8 [(zd1, 4); (zm1, 4); (zd1, 5); (zm1, 5); (zd1, 6); (zm1, 6); (zd1, 7); (zm1, 7)]))
  else if size =? 1 then
    (pick 16 [(zd0, 0); (zm0, 0); (zd0, 1); (zm0, 1)], pick 16 [(zd0, 2); (zm0, 2); (zd0, 3); (zm0, 3)],
     (pick 16 [(zd1, 0); (zm1, 0); (zd1, 1); (zm1, 1)], pick 16 [(zd1, 2); (zm1, 2); (zd1, 3); (zm1, 3)]))
  else if size =? 2 then
    (pick 32 [(zd0, 0); (zm0, 0)], pick 32 [(zd0, 1); (zm0, 1)], (pick 32 [(zd1, 0); (zm1, 0)], pick 32 [(zd1, 1); (zm1, 1)]))
  else (0, 0, (0, 0)).
Definition zip_d (size zd zm : Z) : Z * Z :=
  if size =? 0 then
    (pick 8 [(zd, 0); (zm, 0); (zd, 1); (zm, 1); (zd, 2); (zm, 2); (zd, 3); (zm, 3)],
     pick 8 [(zd, 4); (zm, 4); (zd, 5); (zm, 5); (zd, 6); (zm, 6); (zd, 7); (zm, 7)])
  else if size =? 1 then
    (pick 16 [(zd, 0); (zm, 0); (zd, 1); (zm, 1)], pick 16 [(zd, 2); (zm, 2); (zd, 3); (zm, 3)])
  else (0, 0).
(** Both helpers: read the operands, permute, write the results. [None] is an access
    outside the array. *)
Definition permute (q : Z -> Z -> Z -> Z -> Z -> Z * Z * (Z * Z)) (d : Z -> Z -> Z -> Z * Z) (insn : Z) (regs : list Z) : option (list Z) :=
  let rd_n := rd_field insn in
  let rm := rm_field insn in
  let size := size_field insn in
  if truth (Z.land insn 0x40) then
    zm0 ← rd regs rm; zm1 ← rd regs (rm + 1); zd0 ← rd regs rd_n; zd1 ← rd regs (rd_n + 1);
    let '(d0, d1, (m0, m1)) := q size zd0 zd1 zm0 zm1 in
    regs ← wr regs rm m0; regs ← wr regs (rm + 1) m1; regs ← wr regs rd_n d0; wr regs (rd_n + 1) d1
  else
    zm ← rd regs rm; zd ← rd regs rd_n;
    let '(d, m) := d size zd zm in
    regs ← wr regs rm m; wr regs rd_n d.
Definition neon_unzip : Z -> list Z -> option (list Z) := permute unzip_q unzip_d.
Definition neon_zip : Z -> list Z -> option (list Z) := permute zip_q zip_d.
(** One turn of the loop of neon_tbl, for byte [i] of the result. *)
Definition tbl_byte (ireg def rn maxindex : Z) (regs : list Z) (i : Z) : option Z :=
  let shift := 8 * i in
  let index := Z.land (Z.shiftr ireg shift) 0xff in
  if index <? maxindex then
    table ← rd regs (rn + Z.shiftr index 3);
    Some (Z.shiftl (Z.land (Z.shiftr table (Z.shiftl (Z.land index 7) 3)) 0xff) shift)
  else Some (Z.land def (wrap 32 (Z.shiftl 0xff shift))).
Definition neon_tbl (ireg def rn maxindex : Z) (regs : list Z) : option Z :=
  b0 ← tbl_byte ireg def rn maxindex regs 0; b1 ← tbl_byte ireg def rn maxindex regs 1;
  b2 ← tbl_byte ireg def rn maxindex regs 2; b3 ← tbl_byte ireg def rn maxindex regs 3;
  Some (Z.lor (Z.lor (Z.lor b0 b1) b2) b3).
