(* ===== verification/ArmNeonSat.v ===== *)
(** * ArmNeonSat: saturation in NEON operations

    The saturating helpers clamp the exact results of the lanes and set the sticky flag
    exactly when a lane is out of range; the helpers that do not do what their instruction
    says. *)
From S2P Require Import Prelude HostUtils ArmCpu ArmModes ArmArith ArmNeon.
#[local] Open Scope Z_scope.
(** ** Saturation clamps each lane *)
Definition qc (e : CPUARMState) : CPUARMState := e <| vfp_xregs := <[1%nat := CPSR_Q]> (vfp_xregs e) |>.
Definition qf (e : CPUARMState) : CPUARMState := e <| QF := 1 |>.
Definition has_fpscr (e : CPUARMState) : Prop := (1 < length (vfp_xregs e))%nat.
Definition lclamp (t : vtype) (v : Z) : Z := if vsigned t then sclamp (vbits t) v else uclamp (vbits t) v.
Definition lfits (t : vtype) (v : Z) : Prop := if vsigned t then sfits (vbits t) v else fits (vbits t) v.
#[export] Instance lfits_dec t v : Decision (lfits t v).
Proof. unfold lfits. destruct (vsigned t); apply _. Defined.
(** The lanes of the exact results [f x y] clamped, and the flag set if one is out of range. *)
Definition sat_outcome (flag : CPUARMState -> CPUARMState) (t : vtype) (f : Z -> Z -> Z) (a b : Z) (e : CPUARMState) : Z * CPUARMState :=
  (NEON_PACK t (zip_with (fun x y => lclamp t (f x y)) (NEON_UNPACK t a) (NEON_UNPACK t b)),
   if forallb (fun '(x, y) => bool_decide (lfits t (f x y))) (zip (NEON_UNPACK t a) (NEON_UNPACK t b)) then e else flag e).

Lemma SET_QC_run e : has_fpscr e -> SET_QC e = Ok (tt, qc e).
Proof. intros H. unfold has_fpscr in H. unfold SET_QC, put_xreg. run_get. by rewrite wr_Some by (unfold ARM_VFP_FPSCR; lia). Qed.
Lemma qc_qc e : qc (qc e) = qc e.
Proof. unfold qc. change (vfp_xregs (e <| vfp_xregs := ?l |>)) with l. cbn [vfp_xregs upd]. by rewrite list_insert_insert_eq. Qed.
Lemma has_fpscr_qc e : has_fpscr e -> has_fpscr (qc e).
Proof. unfold has_fpscr, qc. cbn [vfp_xregs upd]. by rewrite length_insert. Qed.
(** A lane function clamps [f]. *)
Definition lane_clamps (t : vtype) (fn : Z -> Z -> CPU Z) (f : Z -> Z -> Z) : Prop := forall x y e, lfits t x -> lfits t y -> has_fpscr e ->
  exists d, fn x y e = Ok (d, if bool_decide (lfits t (f x y)) then e else qc e) /\ wrap (vbits t) d = wrap (vbits t) (lclamp t (f x y)).
Lemma elt_lfits t v : 1 <= vbits t -> lfits t (elt t v).
Proof. intros. unfold lfits, elt. destruct (vsigned t); [by apply sgn_sfits|apply fits_wrap; lia]. Qed.
Lemma unpack_lfits t a : 1 <= vbits t -> Forall (lfits t) (NEON_UNPACK t a).
Proof. intros. unfold NEON_UNPACK. apply List.Forall_map, List.Forall_forall. intros i _. by apply elt_lfits. Qed.
Lemma for_lanes_clamps t fn f l e : lane_clamps t fn f -> Forall (fun '(x, y) => lfits t x /\ lfits t y) l -> has_fpscr e ->
  exists ds, for_lanes fn l e = Ok (ds, if forallb (fun '(x, y) => bool_decide (lfits t (f x y))) l then e else qc e) /\
    List.map (wrap (vbits t)) ds = List.map (fun '(x, y) => wrap (vbits t) (lclamp t (f x y))) l.
Proof.
  intros Hfn Hl. revert e. induction Hl as [|[x y] l [Hx Hy] Hl IH]; intros e He; [by exists []|].
  destruct (Hfn x y e Hx Hy He) as (d & Hd & Hw). set (e1 := if bool_decide (lfits t (f x y)) then e else qc e) in *.
  assert (has_fpscr e1) as He1 by (unfold e1; destruct (bool_decide _); [done|by apply has_fpscr_qc]).
  destruct (IH e1 He1) as (ds & Hds & Hws). exists (d :: ds). cbn [for_lanes]. unfold mbind, ST_bind. rewrite Hd, Hds. split.
  - cbn [forallb]. unfold mret, ST_ret. do 2 f_equal. unfold e1. destruct (bool_decide _); cbn [andb]; [done|]. destruct (forallb _ l); [done|]. apply qc_qc.
  - cbn [List.map]. by rewrite Hw, Hws.
Qed.
Lemma zip_with_zip {A B C} (g : A -> B -> C) l l' : zip_with g l l' = List.map (fun '(x, y) => g x y) (zip l l').
Proof. revert l'. induction l as [|x l IH]; intros [|y l']; cbn; [done..|]. by rewrite IH. Qed.
Lemma zip_Forall {A} (P : A -> Prop) l l' : Forall P l -> Forall P l' -> Forall (fun '(x, y) => P x /\ P y) (zip l l').
Proof. intros H. revert l'. induction H as [|x l Hx H IH]; intros l' H'; [constructor|]. destruct H'; constructor; [done|by apply IH]. Qed.
Lemma NEON_VOP_ENV_clamps t fn f a b e : 1 <= vbits t -> lane_clamps t fn f -> has_fpscr e -> NEON_VOP_ENV t fn a b e = Ok (sat_outcome qc t f a b e).
Proof.
  intros Ht Hfn He. destruct (for_lanes_clamps t fn f (zip (NEON_UNPACK t a) (NEON_UNPACK t b)) e Hfn) as (ds & Hds & Hw); [apply zip_Forall; by apply unpack_lfits|done|].
  unfold NEON_VOP_ENV, mbind, ST_bind. rewrite Hds. unfold mret, ST_ret, sat_outcome. do 2 f_equal. unfold NEON_PACK. rewrite Hw. f_equal.
  rewrite (zip_with_zip (fun x y => lclamp t (f x y))), List.map_map. apply map_ext. by intros [x y].
Qed.
(** A lane that sets the flag under [P]. *)
Lemma flag_case (P : Prop) `{Decision P} (x y : Z) e : has_fpscr e ->
  (if bool_decide P then SET_QC ;; mret x else mret y : CPU Z) e = Ok (if bool_decide P then x else y, if bool_decide P then qc e else e).
Proof. intros He. destruct (bool_decide P); [|done]. unfold mbind, ST_bind. by rewrite SET_QC_run. Qed.
Lemma bool_decide_lfits (b : bool) t v (e e' : CPUARMState) : b = bool_decide (~ lfits t v) -> (if b then e' else e) = if bool_decide (lfits t v) then e else e'.
Proof. intros ->. destruct (decide (lfits t v)); [rewrite bool_decide_false by tauto; by rewrite bool_decide_true|rewrite bool_decide_true by done; by rewrite bool_decide_false]. Qed.

Lemma usat_lane w n (sub : bool) : 1 <= w < 32 ->
  lane_clamps (mkV false w n) (NEON_USAT (mkV false w n) (if sub then Z.sub else Z.add) (if sub then 0 else -1)) (if sub then Z.sub else Z.add).
Proof.
  intros Hw x y e Hx Hy He. change (fits w x) in Hx. change (fits w y) in Hy. unfold NEON_USAT, elt. cbn [vsigned vbits]. cbv zeta.
  assert (2 * 2 ^ w <= 2 ^ 32) by (rewrite <- Z.pow_succ_r by lia; apply Z.pow_le_mono_r; lia). pose proof (Z.pow_pos_nonneg 2 w ltac:(lia) ltac:(lia)). unfold fits in Hx, Hy.
  set (v := (if sub then Z.sub else Z.add) x y).
  assert (- 2 ^ w < v < 2 * 2 ^ w - 1) as Hv by (unfold v; destruct sub; lia).
  replace ((if sub then Z.sub else Z.add) (wrap 32 x) (wrap 32 y)) with v by (rewrite !wrap_fits by (unfold fits; lia); done).
  assert (negb (wrap 32 v =? wrap w (wrap 32 v)) = bool_decide (~ lfits (mkV false w n) v)) as Hb.
  { rewrite wrap_wrap by lia. destruct (decide (lfits (mkV false w n) v)) as [Hf|Hf].
    - rewrite bool_decide_false by tauto. change (fits w v) in Hf. unfold fits in Hf. rewrite !wrap_fits by (unfold fits; lia). by rewrite Z.eqb_refl.
    - rewrite bool_decide_true by done. change (~ fits w v) in Hf. apply negb_true_iff, Z.eqb_neq. intros He'. pose proof (fits_wrap w v ltac:(lia)) as Hf'. rewrite <- He' in Hf'.
      unfold fits in Hf, Hf'. destruct (Z.lt_ge_cases v 0); [rewrite wrap_neg in Hf' by lia|rewrite wrap_fits in Hf' by (unfold fits; lia)]; lia. }
  rewrite Hb, flag_case by done. eexists. split; [f_equal; f_equal; by apply bool_decide_lfits|].
  change (lclamp (mkV false w n) v) with (uclamp w v). unfold uclamp. destruct (decide (lfits (mkV false w n) v)) as [Hf|Hf].
  - rewrite bool_decide_false by tauto. change (fits w v) in Hf. rewrite wrap_wrap by lia. unfold fits in Hf. f_equal. lia.
  - rewrite bool_decide_true by done. change (~ fits w v) in Hf. unfold v, fits in *. destruct sub.
    + f_equal. lia.
    + rewrite wrap_neg by lia. rewrite wrap_fits by (unfold fits; lia). lia.
Qed.
Lemma ssat_lane w n (sub : bool) : 1 <= w < 31 ->
  lane_clamps (mkV true w n) (NEON_SSAT (mkV true w n) (if sub then Z.sub else Z.add) (if sub then fun y => y <? 0 else fun y => 0 <? y)) (if sub then Z.sub else Z.add).
Proof.
  intros Hw x y e Hx Hy He. change (sfits w x) in Hx. change (sfits w y) in Hy. unfold NEON_SSAT, elt. cbn [vsigned vbits]. cbv zeta.
  destruct (pow_half w ltac:(lia)) as [HP HP0]. assert (2 * 2 ^ w <= 2 ^ 31) by (rewrite <- Z.pow_succ_r by lia; apply Z.pow_le_mono_r; lia). unfold sfits in Hx, Hy.
  set (v := (if sub then Z.sub else Z.add) x y).
  assert (sgn 32 ((if sub then Z.sub else Z.add) (wrap 32 x) (wrap 32 y)) = v) as ->.
  { rewrite <- sgn_wrap by lia. pose proof (wrap_op sub 32 x y ltac:(lia)) as H'. rewrite !(sgn_id 32) in H' by (unfold sfits; change (32 - 1) with 31; lia).
    transitivity (sgn 32 (wrap 32 v)); [unfold v; destruct sub; by rewrite H'|]. rewrite sgn_wrap by lia. apply sgn_id; [lia|]. unfold sfits, v. change (32 - 1) with 31. destruct sub; lia. }
  assert (negb (v =? sgn w v) = bool_decide (~ lfits (mkV true w n) v)) as Hb.
  { destruct (decide (lfits (mkV true w n) v)) as [Hf|Hf].
    - rewrite bool_decide_false by tauto. change (sfits w v) in Hf. rewrite sgn_id by (done || lia). by rewrite Z.eqb_refl.
    - rewrite bool_decide_true by done. change (~ sfits w v) in Hf. apply negb_true_iff, Z.eqb_neq. intros He'. apply Hf. rewrite He'. apply sgn_sfits. lia. }
  rewrite Hb, flag_case by done. eexists. split; [f_equal; f_equal; by apply bool_decide_lfits|].
  change (lclamp (mkV true w n) v) with (sclamp w v). unfold sclamp. rewrite !Z.shiftl_mul_pow2, !Z.mul_1_l by lia. destruct (decide (lfits (mkV true w n) v)) as [Hf|Hf].
  - rewrite bool_decide_false by tauto. change (sfits w v) in Hf. unfold sfits in Hf. f_equal. lia.
  - rewrite bool_decide_true by done. change (~ sfits w v) in Hf. unfold v, sfits in *. assert (wrap w (2 ^ (w - 1)) = wrap w (- 2 ^ (w - 1))) as Hm
      by (rewrite (wrap_neg w (- 2 ^ (w - 1))) by lia; rewrite (wrap_fits w (2 ^ (w - 1))) by (unfold fits; lia); lia).
    destruct sub; [destruct (Z.ltb_spec y 0)|destruct (Z.ltb_spec 0 y)]; rewrite ?Hm; f_equal; lia.
Qed.
Lemma shl_back w x k : 0 <= k -> 0 <= w -> fits w x -> (Z.shiftr (wrap w (Z.shiftl x k)) k =? x) = bool_decide (fits w (Z.shiftl x k)).
Proof.
  intros Hk Hw Hx. rewrite Z.shiftl_mul_pow2, Z.shiftr_div_pow2 by done. pose proof (Z.pow_pos_nonneg 2 k ltac:(lia) Hk). destruct (decide (fits w (x * 2 ^ k))) as [Hf|Hf].
  - rewrite bool_decide_true, wrap_fits by done. apply Z.eqb_eq. apply Z.div_mul. lia.
  - rewrite bool_decide_false by done. apply Z.eqb_neq. intros He. apply Hf. pose proof (fits_wrap w (x * 2 ^ k) Hw) as Hm.
    pose proof (Z.mul_div_le (wrap w (x * 2 ^ k)) (2 ^ k) ltac:(lia)). rewrite He in *. unfold fits in *. nia.
Qed.
Lemma qshl_u_lane w n : 1 <= w <= 32 -> lane_clamps (mkV false w n) (QSHL_U (mkV false w n)) (fun x y => Z.shiftl x (sgn 8 y)).
Proof.
  intros Hw x y e Hx _ He. change (fits w x) in Hx. pose proof (sgn_sfits 8 y ltac:(lia)) as Hk. unfold sfits in Hk. change (2 ^ (8 - 1)) with 128 in Hk.
  unfold QSHL_U. cbn [vbits]. cbv zeta. set (k := sgn 8 y) in *. change (lclamp (mkV false w n) (Z.shiftl x k)) with (uclamp w (Z.shiftl x k)).
  assert (forall v, lfits (mkV false w n) v <-> fits w v) as Hl by done. pose proof (Z.pow_pos_nonneg 2 w ltac:(lia) ltac:(lia)) as Hp. unfold fits in Hx.
  destruct (Z.leb_spec w k); [|destruct (Z.leb_spec k (- w)); [|destruct (Z.ltb_spec k 0)]].
  - assert (2 ^ w <= 2 ^ k) by (apply Z.pow_le_mono_r; lia). destruct (truth x) eqn:T.
    + apply truth_true in T. assert (2 ^ w <= Z.shiftl x k) by (rewrite Z.shiftl_mul_pow2 by lia; nia). rewrite bool_decide_false by (rewrite Hl; unfold fits; lia).
      eexists. unfold mbind, ST_bind. rewrite SET_QC_run by done. split; [reflexivity|]. unfold uclamp. rewrite wrap_neg, wrap_fits by (unfold fits; lia). lia.
    + apply truth_false in T as ->. rewrite Z.shiftl_0_l. rewrite bool_decide_true by (rewrite Hl; unfold fits; lia). exists 0. split; [done|]. f_equal. unfold uclamp. lia.
  - assert (Z.shiftl x k = 0) as ->.
    { replace k with (- - k) by lia. rewrite <- Z.shiftr_opp_r, Z.opp_involutive by lia. rewrite Z.shiftr_div_pow2 by lia. apply Z.div_small. pose proof (Z.pow_le_mono_r 2 w (- k)). lia. }
    rewrite bool_decide_true by (rewrite Hl; unfold fits; lia). exists 0. split; [done|]. f_equal. unfold uclamp. lia.
  - assert (Z.shiftl x k = Z.shiftr x (- k)) as -> by (by rewrite Z.shiftr_opp_r). assert (fits w (Z.shiftr x (- k))) as Hf by (apply fits_shiftr; [lia..|done]).
    rewrite bool_decide_true by (by rewrite Hl). unfold c_shr. replace ((0 <=? - k) && (- k <? 32)) with true by (symmetry; apply andb_true_iff; lia).
    eexists. split; [reflexivity|]. f_equal. unfold uclamp, fits in *. lia.
  - unfold c_shl. replace ((0 <=? k) && (k <? 32)) with true by (symmetry; apply andb_true_iff; lia). unfold mbind at 1, ST_bind at 1. unfold mret at 1, ST_ret at 1. cbv beta iota.
    assert (elt (mkV false w n) (if unsigned32 (mkV false w n) then wrap 32 (Z.shiftl x k) else sgn 32 (Z.shiftl x k)) = wrap w (Z.shiftl x k)) as ->.
    { unfold elt. cbn [vsigned vbits]. destruct (unsigned32 _); [by apply wrap_wrap; lia|]. rewrite <- (wrap_wrap w 32 (sgn 32 _)), wrap_sgn, wrap_wrap by lia. done. }
    rewrite shl_back by (done || lia). assert (negb (bool_decide (fits w (Z.shiftl x k))) = bool_decide (~ lfits (mkV false w n) (Z.shiftl x k))) as ->.
    { destruct (decide (fits w (Z.shiftl x k))); [rewrite bool_decide_true, bool_decide_false by (rewrite ?Hl; tauto); done|rewrite bool_decide_false, bool_decide_true by (rewrite ?Hl; tauto); done]. }
    rewrite flag_case by done. eexists. split; [f_equal; f_equal; by apply bool_decide_lfits|].
    assert (0 <= Z.shiftl x k) by (rewrite Z.shiftl_mul_pow2 by lia; nia). unfold uclamp. destruct (decide (fits w (Z.shiftl x k))) as [Hf|Hf].
    + rewrite bool_decide_false by (rewrite Hl; tauto). rewrite wrap_idem by lia. unfold fits in Hf. f_equal. lia.
    + rewrite bool_decide_true by (by rewrite Hl). unfold fits in Hf. rewrite wrap_neg, wrap_fits by (unfold fits; lia). lia.
Qed.
Lemma sgn_min w : 1 <= w -> sgn w (bit (w - 1)) = - 2 ^ (w - 1).
Proof.
  intros Hw. destruct (pow_half w Hw) as [HP HP0]. unfold bit. rewrite Z.shiftl_mul_pow2, Z.mul_1_l by lia.
  unfold sgn. cbv zeta. rewrite wrap_fits by (unfold fits; lia). rewrite Z.ltb_irrefl. lia.
Qed.
Lemma qabs_lane w n : 2 <= w -> lane_clamps (mkV true w n) (DO_QABS w) (fun x _ => Z.abs x).
Proof.
  intros Hw x y e Hx _ He. change (sfits w x) in Hx. destruct (pow_half w ltac:(lia)) as [HP HP0]. unfold DO_QABS. rewrite (sgn_min w) by lia. unfold sfits in Hx.
  change (lclamp (mkV true w n) (Z.abs x)) with (sclamp w (Z.abs x)). assert (forall v, lfits (mkV true w n) v <-> sfits w v) as Hl by done. unfold sclamp.
  destruct (Z.eqb_spec x (- 2 ^ (w - 1))) as [->|].
  - rewrite bool_decide_false by (rewrite Hl; unfold sfits; lia). eexists. unfold mbind, ST_bind. rewrite SET_QC_run by done. split; [reflexivity|]. f_equal. lia.
  - rewrite bool_decide_true by (rewrite Hl; unfold sfits; lia). destruct (Z.ltb_spec x 0); (eexists; split; [reflexivity|]; f_equal; lia).
Qed.
Lemma qneg_lane w n : 2 <= w -> lane_clamps (mkV true w n) (DO_QNEG w) (fun x _ => - x).
Proof.
  intros Hw x y e Hx _ He. change (sfits w x) in Hx. destruct (pow_half w ltac:(lia)) as [HP HP0]. unfold DO_QNEG. rewrite (sgn_min w) by lia. unfold sfits in Hx.
  change (lclamp (mkV true w n) (- x)) with (sclamp w (- x)). assert (forall v, lfits (mkV true w n) v <-> sfits w v) as Hl by done. unfold sclamp.
  destruct (Z.eqb_spec x (- 2 ^ (w - 1))) as [->|].
  - rewrite bool_decide_false by (rewrite Hl; unfold sfits; lia). eexists. unfold mbind, ST_bind. rewrite SET_QC_run by done. split; [reflexivity|]. f_equal. lia.
  - rewrite bool_decide_true by (rewrite Hl; unfold sfits; lia). eexists. split; [reflexivity|]. f_equal. lia.
Qed.
(** *** Vectors of one lane *)
Lemma sat_outcome_1 flag sg w f a b e : 1 <= w ->
  let x := elt (mkV sg w 1) a in let y := elt (mkV sg w 1) b in
  sat_outcome flag (mkV sg w 1) f a b e = (wrap w (lclamp (mkV sg w 1) (f x y)), if bool_decide (lfits (mkV sg w 1) (f x y)) then e else flag e).
Proof.
  intros Hw x y. unfold sat_outcome, NEON_UNPACK, lane_of, NEON_PACK. cbn [vcount seq List.map zip_with vbits positional forallb]. rewrite Z.mul_0_r, !Z.shiftr_0_r.
  fold x y. rewrite andb_true_r. f_equal. lia.
Qed.
Lemma flag_run (m : CPU unit) flag (c : bool) (x y : Z) e : m e = Ok (tt, flag e) ->
  (if c then m ;; mret x else mret y : CPU Z) e = Ok (if c then x else y, if c then flag e else e).
Proof. intros Hm. destruct c; [|done]. unfold mbind, ST_bind. by rewrite Hm. Qed.
(** The test of the code for signed overflow, in any width and with either flag. *)
Lemma signed_sat w (sub : bool) (m : CPU unit) flag a b lim e : 1 <= w -> fits w a -> fits w b -> m e = Ok (tt, flag e) ->
  lim = (if Z.testbit a (w - 1) then 2 ^ (w - 1) else 2 ^ (w - 1) - 1) ->
  let res := wrap w (if sub then a - b else a + b) in
  (if truth (Z.land (Z.lxor res a) (2 ^ (w - 1))) && (if sub then truth (Z.land (Z.lxor a b) (2 ^ (w - 1))) else negb (truth (Z.land (Z.lxor a b) (2 ^ (w - 1)))))
   then m ;; mret lim else mret res : CPU Z) e = Ok (sat_outcome flag (mkV true w 1) (if sub then Z.sub else Z.add) a b e).
Proof.
  intros Hw Ha Hb Hm -> res. rewrite (flag_run m flag) by done. rewrite sat_outcome_1 by done. cbv zeta. unfold elt. cbn [vsigned vbits].
  rewrite !truth_xor_msb by done. subst res. destruct sub.
  - destruct (sat_sub w a b Hw Ha Hb) as [H1 H2]. cbv beta zeta in H1, H2. change (lclamp (mkV true w 1) (sgn w a - sgn w b)) with (sclamp w (sgn w a - sgn w b)).
    rewrite <- H1, H2. do 2 f_equal. apply bool_decide_lfits. by apply bool_decide_ext.
  - destruct (sat_add w a b Hw Ha Hb) as [H1 H2]. cbv beta zeta in H1, H2. change (lclamp (mkV true w 1) (sgn w a + sgn w b)) with (sclamp w (sgn w a + sgn w b)).
    rewrite <- H1, H2. do 2 f_equal. apply bool_decide_lfits. by apply bool_decide_ext.
Qed.
Lemma unsigned_sat w (sub : bool) (m : CPU unit) flag a b e : 1 <= w -> fits w a -> fits w b -> m e = Ok (tt, flag e) ->
  let res := wrap w (if sub then a - b else a + b) in
  (if (if sub then a <? res else res <? a) then m ;; mret (if sub then 0 else 2 ^ w - 1) else mret res : CPU Z) e =
    Ok (sat_outcome flag (mkV false w 1) (if sub then Z.sub else Z.add) a b e).
Proof.
  intros Hw Ha Hb Hm res. rewrite (flag_run m flag) by done. rewrite sat_outcome_1 by done. cbv zeta. unfold elt. cbn [vsigned vbits]. rewrite (wrap_fits w a), (wrap_fits w b) by done. subst res. destruct sub.
  - destruct (sat_usub w a b ltac:(lia) Ha Hb) as [H1 H2]. change (lclamp (mkV false w 1) (a - b)) with (uclamp w (a - b)).
    rewrite (wrap_fits w (uclamp w (a - b))) by (apply uclamp_fits; lia). rewrite H1, H2. do 2 f_equal. apply bool_decide_lfits. by apply bool_decide_ext.
  - destruct (sat_uadd w a b ltac:(lia) Ha Hb) as [H1 H2]. change (lclamp (mkV false w 1) (a + b)) with (uclamp w (a + b)).
    rewrite (wrap_fits w (uclamp w (a + b))) by (apply uclamp_fits; lia). rewrite H1, H2. do 2 f_equal. apply bool_decide_lfits. by apply bool_decide_ext.
Qed.
Lemma set_QF_run e : set_QF e = Ok (tt, qf e).
Proof. done. Qed.
Lemma limit64_spec a : fits 64 a -> limit64 a = if Z.testbit a 63 then 2 ^ 63 else 2 ^ 63 - 1.
Proof.
  intros Ha. unfold limit64. pose proof (sgn_sfits 64 a ltac:(lia)) as Hs. pose proof (sgn_msb 64 a ltac:(lia) Ha) as Hm. change (64 - 1) with 63 in Hm.
  unfold sfits, fits in *. rewrite Z.shiftr_div_pow2 by done. destruct (Z.testbit a 63).
  - replace (sgn 64 a / 2 ^ 63) with (-1); [done|]. apply (Z.div_unique_pos _ _ _ (sgn 64 a + 2 ^ 63)); lia.
  - rewrite Z.div_small by lia. done.
Qed.
Lemma limit32_spec a : fits 32 a -> Z.lxor (wrap 32 (Z.shiftr (sgn 32 a) 31)) (not32 SIGNBIT) = if Z.testbit a 31 then 2 ^ 31 else 2 ^ 31 - 1.
Proof.
  intros Ha. pose proof (sgn_sfits 32 a ltac:(lia)) as Hs. pose proof (sgn_msb 32 a ltac:(lia) Ha) as Hm. change (32 - 1) with 31 in Hm.
  unfold sfits, fits in *. rewrite Z.shiftr_div_pow2 by done. destruct (Z.testbit a 31).
  - replace (sgn 32 a / 2 ^ 31) with (-1); [done|]. apply (Z.div_unique_pos _ _ _ (sgn 32 a + 2 ^ 31)); lia.
  - rewrite Z.div_small by lia. done.
Qed.
Lemma qshl_u64_run a b e : fits 64 a -> has_fpscr e -> qshl_u64 a b e = Ok (sat_outcome qc (mkV false 64 1) (fun x y => Z.shiftl x (sgn 8 y)) a b e).
Proof.
  intros Ha He. pose proof (sgn_sfits 8 b ltac:(lia)) as Hk. unfold sfits in Hk. change (2 ^ (8 - 1)) with 128 in Hk.
  rewrite sat_outcome_1 by lia. cbv zeta. unfold elt. cbn [vsigned vbits]. rewrite (wrap_fits 64 a) by done.
  replace (sgn 8 (wrap 64 b)) with (sgn 8 b) by (rewrite <- (sgn_wrap 8 (wrap 64 b)), wrap_wrap, sgn_wrap by lia; done).
  unfold qshl_u64. cbv zeta. set (k := sgn 8 b) in *. change (lclamp (mkV false 64 1) (Z.shiftl a k)) with (uclamp 64 (Z.shiftl a k)).
  assert (forall v, lfits (mkV false 64 1) v <-> fits 64 v) as Hl by done. change (not64 0) with (2 ^ 64 - 1). rewrite (wrap_fits 64 (uclamp _ _)) by (apply uclamp_fits; lia). unfold fits in Ha.
  destruct (Z.leb_spec 64 k); [|destruct (Z.leb_spec k (-64)); [|destruct (Z.ltb_spec k 0)]].
  - assert (2 ^ 64 <= 2 ^ k) by (apply Z.pow_le_mono_r; lia). destruct (truth a) eqn:T.
    + apply truth_true in T. assert (2 ^ 64 <= Z.shiftl a k) by (rewrite Z.shiftl_mul_pow2 by lia; nia). rewrite bool_decide_false by (rewrite Hl; unfold fits; lia).
      unfold mbind, ST_bind. rewrite SET_QC_run by done. unfold mret, ST_ret, uclamp. do 2 f_equal. lia.
    + apply truth_false in T as ->. rewrite Z.shiftl_0_l. rewrite bool_decide_true by (rewrite Hl; unfold fits; lia). done.
  - assert (Z.shiftl a k = 0) as ->.
    { replace k with (- - k) by lia. rewrite <- Z.shiftr_opp_r, Z.opp_involutive by lia. rewrite Z.shiftr_div_pow2 by lia. apply Z.div_small. pose proof (Z.pow_le_mono_r 2 64 (- k)). lia. }
    rewrite bool_decide_true by (rewrite Hl; unfold fits; lia). done.
  - assert (Z.shiftl a k = Z.shiftr a (- k)) as -> by (by rewrite Z.shiftr_opp_r). assert (fits 64 (Z.shiftr a (- k))) as Hf by (apply fits_shiftr; [lia..|done]).
    rewrite bool_decide_true by (by rewrite Hl). unfold mret, ST_ret, uclamp. do 2 f_equal. unfold fits in Hf. lia.
  - rewrite shl_back by (done || lia). assert (0 <= Z.shiftl a k) by (rewrite Z.shiftl_mul_pow2 by lia; nia). destruct (decide (fits 64 (Z.shiftl a k))) as [Hf|Hf].
    + rewrite !bool_decide_true by (by rewrite ?Hl). cbn [negb]. rewrite wrap_fits by done. unfold mret, ST_ret, uclamp. do 2 f_equal. unfold fits in Hf. lia.
    + rewrite !bool_decide_false by (by rewrite ?Hl). cbn [negb]. unfold mbind, ST_bind. rewrite SET_QC_run by done. unfold mret, ST_ret, uclamp. do 2 f_equal. unfold fits in Hf. lia.
Qed.
(** *** Narrowing *)
Definition narrow_outcome (wide t : vtype) (x : Z) (e : CPUARMState) : Z * CPUARMState :=
  (NEON_PACK t (List.map (lclamp t) (NEON_UNPACK wide x)),
   if forallb (fun v => bool_decide (lfits t v)) (NEON_UNPACK wide x) then e else qc e).
Definition narrows (wide t : vtype) (fn : Z -> CPU Z) : Prop := forall x e, has_fpscr e -> let v := elt wide x in
  exists d, fn x e = Ok (d, if bool_decide (lfits t v) then e else qc e) /\ d = wrap (vbits t) (lclamp t v).
Lemma qc_if_and (b c : bool) e : (if c then (if b then e else qc e) else qc (if b then e else qc e)) = if b && c then e else qc e.
Proof. destruct b, c; cbn [andb]; try done. by rewrite qc_qc. Qed.
Lemma has_fpscr_if (b : bool) e : has_fpscr e -> has_fpscr (if b then e else qc e).
Proof. intros. destruct b; [done|by apply has_fpscr_qc]. Qed.
Lemma positional4 w d0 d1 d2 d3 : 0 <= w -> fits w d0 -> fits w d1 -> fits w d2 -> fits w d3 ->
  Z.lor (Z.lor (Z.lor d0 (Z.shiftl d1 w)) (Z.shiftl d2 (2 * w))) (Z.shiftl d3 (3 * w)) = positional w [d0; d1; d2; d3].
Proof.
  intros. rewrite <- !positional_lor by done. cbn [positional]. rewrite Z.shiftl_0_l, Z.lor_0_r. rewrite !Z.shiftl_lor, !Z.shiftl_shiftl by lia.
  rewrite <- !Z.lor_assoc. repeat (f_equal; try lia).
Qed.
Lemma sat8_lanes_run sg sg' fn x e : narrows (mkV sg 16 4) (mkV sg' 8 4) fn -> has_fpscr e ->
  sat8_lanes fn x e = Ok (narrow_outcome (mkV sg 16 4) (mkV sg' 8 4) x e).
Proof.
  intros Hf He. unfold sat8_lanes, mbind, ST_bind. set (t := mkV sg' 8 4) in *. set (wd := mkV sg 16 4) in *.
  destruct (Hf x e He) as (d0 & H0 & E0). rewrite H0. pose proof (has_fpscr_if (bool_decide (lfits t (elt wd x))) e He) as He1.
  destruct (Hf (Z.shiftr x 16) _ He1) as (d1 & H1 & E1). rewrite H1, qc_if_and. pose proof (has_fpscr_if (bool_decide (lfits t (elt wd x)) && bool_decide (lfits t (elt wd (Z.shiftr x 16)))) e He) as He2.
  destruct (Hf (Z.shiftr x 32) _ He2) as (d2 & H2 & E2). rewrite H2, qc_if_and. pose proof (has_fpscr_if (bool_decide (lfits t (elt wd x)) && bool_decide (lfits t (elt wd (Z.shiftr x 16))) && bool_decide (lfits t (elt wd (Z.shiftr x 32)))) e He) as He3.
  destruct (Hf (Z.shiftr x 48) _ He3) as (d3 & H3 & E3). rewrite H3, qc_if_and. unfold mret, ST_ret, narrow_outcome. f_equal. f_equal.
  - change 16 with (2 * 8) at 1. change 24 with (3 * 8). rewrite positional4 by (subst; try (apply fits_wrap); cbn; lia).
    unfold NEON_PACK, NEON_UNPACK, lane_of. cbn [vcount wd seq List.map vbits t]. subst d0 d1 d2 d3. change (16 * Z.of_nat 0) with 0. by rewrite Z.shiftr_0_r.
  - unfold NEON_UNPACK, lane_of. cbn [vcount wd seq List.map vbits t forallb]. change (16 * Z.of_nat 0) with 0. rewrite Z.shiftr_0_r, andb_true_r, !andb_assoc. done.
Qed.
Lemma positional2 l h : fits 16 l -> Z.lor l (wrap 32 (Z.shiftl h 16)) = positional 16 [l; wrap 16 h].
Proof. intros Hl. rewrite <- (wrap_fits 16 l) at 2 by done. rewrite <- halves_pack. by rewrite (wrap_fits 16 l). Qed.
Lemma sat16_lanes_run sg fn x e : narrows (mkV sg 32 2) neon_u16 fn -> has_fpscr e ->
  sat16_lanes fn x e = Ok (narrow_outcome (mkV sg 32 2) neon_u16 x e).
Proof.
  intros Hf He. unfold sat16_lanes, mbind, ST_bind. set (wd := mkV sg 32 2) in *.
  destruct (Hf x e He) as (d0 & H0 & E0). rewrite H0. pose proof (has_fpscr_if (bool_decide (lfits neon_u16 (elt wd x))) e He) as He1.
  destruct (Hf (Z.shiftr x 32) _ He1) as (d1 & H1 & E1). rewrite H1, qc_if_and. unfold mret, ST_ret, narrow_outcome. f_equal. f_equal.
  - rewrite positional2 by (subst; apply fits_wrap; done). unfold NEON_PACK, NEON_UNPACK, lane_of. cbn [vcount wd seq List.map vbits neon_u16]. subst d0 d1. change (32 * Z.of_nat 0) with 0.
    rewrite Z.shiftr_0_r. cbn [vbits neon_u16]. by rewrite wrap_idem.
  - unfold NEON_UNPACK, lane_of. cbn [vcount wd seq List.map vbits forallb]. change (32 * Z.of_nat 0) with 0. rewrite Z.shiftr_0_r, andb_true_r. done.
Qed.
(** The flagged branch of a lane, when its condition is being out of range. *)
Lemma narrow_case t v (c : bool) (lim ok : Z) e : has_fpscr e -> c = bool_decide (~ lfits t v) -> (c = true -> lim = wrap (vbits t) (lclamp t v)) ->
  (c = false -> ok = wrap (vbits t) (lclamp t v)) ->
  exists d, (if c then SET_QC ;; mret lim else mret ok : CPU Z) e = Ok (d, if bool_decide (lfits t v) then e else qc e) /\ d = wrap (vbits t) (lclamp t v).
Proof.
  intros He Hc Hl Hk. rewrite (flag_run SET_QC qc) by (by apply SET_QC_run). eexists. split; [do 2 f_equal; by apply bool_decide_lfits|]. destruct c; auto.
Qed.
Lemma lclamp_id t v : lfits t v -> lclamp t v = v.
Proof. unfold lfits, lclamp, sfits, fits, sclamp, uclamp. destruct (vsigned t); lia. Qed.
Lemma out_of_range (P : Prop) `{Decision P} (c : bool) : (c = true <-> ~ P) -> c = bool_decide (~ P).
Proof. intros Hc. destruct (decide P); [rewrite bool_decide_false by tauto; destruct c; tauto|rewrite bool_decide_true by done; by apply Hc]. Qed.
Lemma narrow_sat_u_lane w n W N (g : Z -> Z) : 1 <= w < W -> (forall s, fits w s -> g s = s) -> narrows (mkV false W N) (mkV false w n)
  (fun x => let s := wrap W x in if 2 ^ w - 1 <? s then SET_QC ;; mret (2 ^ w - 1) else mret (g s)).
Proof.
  intros Hw Hg x e He. cbv zeta. change (elt (mkV false W N) x) with (wrap W x). pose proof (fits_wrap W x ltac:(lia)) as Hf. set (v := wrap W x) in *. unfold fits in Hf.
  pose proof (Z.pow_pos_nonneg 2 w ltac:(lia) ltac:(lia)).
  apply narrow_case; [done| | |].
  - apply out_of_range. change (lfits (mkV false w n) v) with (fits w v). unfold fits. rewrite Z.ltb_lt. lia.
  - rewrite Z.ltb_lt. intros. change (lclamp _ v) with (uclamp w v). rewrite wrap_fits by (apply uclamp_fits; cbn; lia). unfold uclamp. lia.
  - rewrite Z.ltb_ge. intros. rewrite Hg by (unfold fits; lia). change (lclamp _ v) with (uclamp w v). rewrite wrap_fits by (apply uclamp_fits; cbn; lia). unfold uclamp. lia.
Qed.
Lemma unarrow_lane w n W N (g : Z -> Z) : 1 <= w < W -> (forall s, fits w s -> g s = s) -> narrows (mkV true W N) (mkV false w n)
  (fun x => let s := wrap W x in if truth (Z.land s (2 ^ (W - 1))) then SET_QC ;; mret 0 else if 2 ^ w - 1 <? s then SET_QC ;; mret (2 ^ w - 1) else mret (g s)).
Proof.
  intros Hw Hg x e He. cbv zeta. change (elt (mkV true W N) x) with (sgn W x). pose proof (fits_wrap W x ltac:(lia)) as Hf.
  replace (2 ^ (W - 1)) with (bit (W - 1)) by (unfold bit; rewrite Z.shiftl_mul_pow2; lia). rewrite truth_land_bit by lia.
  pose proof (sgn_msb W (wrap W x) ltac:(lia) Hf) as Hm. rewrite sgn_wrap in Hm by lia. set (s := wrap W x) in *. pose proof (msb_spec W s ltac:(lia) Hf) as Hb.
  destruct (pow_half W ltac:(lia)) as [HP HP0]. pose proof (Z.pow_pos_nonneg 2 w ltac:(lia) ltac:(lia)). unfold fits in Hf. pose proof (Z.pow_le_mono_r 2 w (W - 1) ltac:(lia) ltac:(lia)).
  assert (forall v, lfits (mkV false w n) v <-> fits w v) as Hl by done. change (lclamp (mkV false w n) (sgn W x)) with (uclamp w (sgn W x)). change (vbits (mkV false w n)) with w.
  rewrite Hm. destruct (Z.testbit s (W - 1)).
  - symmetry in Hb. apply Z.leb_le in Hb. rewrite bool_decide_false by (rewrite Hl; unfold fits; lia). eexists. unfold mbind, ST_bind. rewrite SET_QC_run by done.
    split; [reflexivity|]. rewrite wrap_fits by (apply uclamp_fits; lia). unfold uclamp. lia.
  - change (uclamp w s) with (lclamp (mkV false w n) s). change (wrap w) with (wrap (vbits (mkV false w n))). apply narrow_case; [done| | |].
    + apply out_of_range. rewrite Hl. unfold fits. rewrite Z.ltb_lt. lia.
    + rewrite Z.ltb_lt. intros. change (lclamp _ s) with (uclamp w s). rewrite wrap_fits by (apply uclamp_fits; cbn; lia). unfold uclamp. lia.
    + rewrite Z.ltb_ge. intros. rewrite Hg by (unfold fits; lia). change (lclamp _ s) with (uclamp w s). rewrite wrap_fits by (apply uclamp_fits; cbn; lia). unfold uclamp. lia.
Qed.
Lemma shiftr_sign W s : 1 <= W -> sfits W s -> Z.shiftr s (W - 1) = if s <? 0 then -1 else 0.
Proof.
  unfold sfits. intros Hw Hs. rewrite Z.shiftr_div_pow2 by lia. destruct (Z.ltb_spec s 0).
  - symmetry. apply (Z.div_unique_pos _ _ _ (s + 2 ^ (W - 1))); lia.
  - apply Z.div_small. lia.
Qed.
Lemma narrow_sat_s_lane w n W N : 1 <= w < W -> narrows (mkV true W N) (mkV true w n)
  (fun x => let s := sgn W x in if negb (s =? sgn w s) then SET_QC ;; mret (wrap w (Z.lxor (Z.shiftr s (W - 1)) (2 ^ (w - 1) - 1))) else mret (wrap w s)).
Proof.
  intros Hw x e He. cbv zeta. change (elt (mkV true W N) x) with (sgn W x). pose proof (sgn_sfits W x ltac:(lia)) as Hf. set (s := sgn W x) in *.
  destruct (pow_half w ltac:(lia)) as [HP HP0]. assert (forall v, lfits (mkV true w n) v <-> sfits w v) as Hl by done.
  assert (negb (s =? sgn w s) = bool_decide (~ lfits (mkV true w n) s)) as Hc.
  { apply out_of_range. rewrite Hl, negb_true_iff, Z.eqb_neq. split; [intros H Hs; apply H; by rewrite sgn_id by (done || lia)|].
    intros H Hs. apply H. rewrite Hs. apply sgn_sfits. lia. }
  change (vbits (mkV true w n)) with w. apply narrow_case; [done|done| |].
  - rewrite Hc. intros Hd%bool_decide_eq_true. rewrite Hl in Hd. change (lclamp (mkV true w n) s) with (sclamp w s). cbn [vbits]. rewrite shiftr_sign by (done || lia).
    unfold sclamp, sfits in *. destruct (Z.ltb_spec s 0).
    + replace (Z.lxor (-1) (2 ^ (w - 1) - 1)) with (- 2 ^ (w - 1)); [f_equal; lia|]. rewrite Z.lxor_comm, Z.lxor_m1_r. unfold Z.lnot. lia.
    + rewrite Z.lxor_0_l. f_equal. lia.
  - rewrite Hc. intros Hd%bool_decide_eq_false. rewrite Hl in Hd. change (lclamp (mkV true w n) s) with (sclamp w s). cbn [vbits]. f_equal. unfold sclamp, sfits in *.
    destruct (decide (- 2 ^ (w - 1) <= s < 2 ^ (w - 1))); [lia|tauto].
Qed.
Lemma narrow_sat_s16_run x e : has_fpscr e -> narrow_sat_s16 x e = Ok (narrow_outcome (mkV true 32 2) neon_s16 x e).
Proof.
  intros He. unfold narrow_sat_s16, mbind, ST_bind.
  assert (forall x e, has_fpscr e -> exists d, sat_s16 x e = Ok (d, if bool_decide (lfits neon_s16 (sgn 32 x)) then e else qc e) /\ wrap 16 d = wrap 16 (sclamp 16 (sgn 32 x))) as Hs.
  { intros x' e' He'. destruct (narrow_sat_s_lane 16 2 32 2 ltac:(lia) x' e' He') as (d & Hd & E). cbv zeta in Hd. change (elt (mkV true 32 2) x') with (sgn 32 x') in *.
    change (lclamp (mkV true 16 2)) with (sclamp 16) in E. change (vbits (mkV true 16 2)) with 16 in E. unfold sat_s16. cbv zeta. set (s := sgn 32 x') in *.
    destruct (negb (s =? sgn 16 s)); unfold mbind, ST_bind in *; rewrite ?SET_QC_run in * by done; unfold mret, ST_ret in *; injection Hd as Hd1 Hd2; (eexists; split; [f_equal; f_equal; exact Hd2|]); rewrite <- E, <- Hd1; by rewrite ?wrap_idem by lia. }
  destruct (Hs x e He) as (d0 & H0 & E0). rewrite H0. pose proof (has_fpscr_if (bool_decide (lfits neon_s16 (sgn 32 x))) e He) as He1.
  destruct (Hs (Z.shiftr x 32) _ He1) as (d1 & H1 & E1). rewrite H1, qc_if_and. unfold mret, ST_ret, narrow_outcome. f_equal. f_equal.
  - rewrite halves_pack, E0, E1. unfold NEON_PACK, NEON_UNPACK, lane_of. cbn [vcount seq List.map vbits neon_s16]. change (32 * Z.of_nat 0) with 0. by rewrite Z.shiftr_0_r.
  - unfold NEON_UNPACK, lane_of. cbn [vcount seq List.map vbits forallb]. change (32 * Z.of_nat 0) with 0. rewrite Z.shiftr_0_r, andb_true_r. done.
Qed.
Lemma narrow_1 sg W sg' w fn x e : 1 <= w -> narrows (mkV sg W 1) (mkV sg' w 1) fn -> has_fpscr e -> fn x e = Ok (narrow_outcome (mkV sg W 1) (mkV sg' w 1) x e).
Proof.
  intros Hw Hf He. destruct (Hf x e He) as (d & Hd & ->). rewrite Hd. unfold narrow_outcome, NEON_PACK, NEON_UNPACK, lane_of. cbn [vcount seq List.map vbits forallb positional].
  rewrite Z.mul_0_r, Z.shiftr_0_r, andb_true_r. do 3 f_equal. lia.
Qed.
Lemma addl_saturate_s32_run a b e : has_fpscr e -> addl_saturate_s32 a b e = Ok (sat_outcome qc (mkV true 32 2) Z.add a b e).
Proof.
  intros He. assert (forall x y e, has_fpscr e -> addl_lane (wrap 32 x) (wrap 32 y) e =
    Ok (wrap 32 (sclamp 32 (sgn 32 x + sgn 32 y)), if bool_decide (lfits (mkV true 32 2) (sgn 32 x + sgn 32 y)) then e else qc e)) as H.
  { intros x y e' He'. pose proof (fits_wrap 32 x ltac:(lia)) as Hx. pose proof (fits_wrap 32 y ltac:(lia)) as Hy.
    pose proof (signed_sat 32 false SET_QC qc _ _ _ e' ltac:(lia) Hx Hy (SET_QC_run e' He') (limit32_spec _ Hx)) as H. rewrite sat_outcome_1 in H by lia.
    unfold elt in H. cbn [vsigned vbits] in H. rewrite <- (sgn_wrap 32 x), <- (sgn_wrap 32 y) by lia. exact H. }
  unfold addl_saturate_s32, mbind, ST_bind. rewrite H by done. set (ok0 := bool_decide _). rewrite H by by apply has_fpscr_if. rewrite qc_if_and. unfold mret, ST_ret, sat_outcome. f_equal. f_equal.
  - unfold NEON_PACK, NEON_UNPACK, lane_of. cbn [vcount seq List.map vbits zip_with]. change (32 * Z.of_nat 0) with 0. rewrite !Z.shiftr_0_r.
    rewrite <- (positional_lor 32) by (try apply fits_wrap; lia). cbn [positional]. rewrite Z.mul_0_r, Z.add_0_r. done.
  - unfold NEON_UNPACK, lane_of. cbn [vcount seq List.map vbits zip_with forallb]. change (32 * Z.of_nat 0) with 0. rewrite !Z.shiftr_0_r, andb_true_r. done.
Qed.
(** QABS and QNEG of 32 bits, as vectors of one lane. *)
Lemma qabs_s32_run x e : fits 32 x -> has_fpscr e -> qabs_s32 x e = Ok (sat_outcome qc neon_s32 (fun x _ => Z.abs x) x x e).
Proof.
  intros Hx He. rewrite <- (NEON_VOP_ENV_clamps neon_s32 (DO_QABS 32)) by (try apply qabs_lane; try done; cbn; lia).
  unfold NEON_VOP_ENV, NEON_UNPACK, lane_of, NEON_PACK. cbn [vcount neon_s32 seq List.map vbits zip_with for_lanes]. change (32 * Z.of_nat 0) with 0. rewrite Z.shiftr_0_r. unfold elt. cbn [vsigned vbits neon_s32].
  unfold DO_QABS, qabs_s32. change (sgn 32 (bit (32 - 1))) with (- 2 ^ 31). change (32 - 1) with 31. pose proof (sgn_msb 32 x ltac:(lia) Hx) as Hm. pose proof (msb_spec 32 x ltac:(lia) Hx) as Hb. change (32 - 1) with 31 in *.
  unfold fits in Hx. unfold mbind, ST_bind. destruct (Z.eqb_spec x SIGNBIT) as [->|Hn].
  - change (sgn 32 SIGNBIT) with (- 2 ^ 31). rewrite Z.eqb_refl. rewrite SET_QC_run by done. done.
  - destruct (Z.eqb_spec (sgn 32 x) (- 2 ^ 31)) as [H|_].
    + exfalso. apply Hn. rewrite Hm in H. destruct (Z.testbit x 31); unfold SIGNBIT; lia.
    + destruct (Z.ltb_spec (sgn 32 x) 0); unfold mret, ST_ret; do 2 f_equal; cbn [positional List.map]; rewrite Z.mul_0_r, Z.add_0_r.
      * destruct (Z.testbit x 31); [|lia]. rewrite Hm. replace (- (x - 2 ^ 32)) with (- x + 1 * 2 ^ 32) by lia. unfold wrap. by rewrite Z.mod_add.
      * by rewrite wrap_sgn, wrap_fits by (done || lia).
Qed.
Lemma qneg_s32_run x e : fits 32 x -> has_fpscr e -> qneg_s32 x e = Ok (sat_outcome qc neon_s32 (fun x _ => - x) x x e).
Proof.
  intros Hx He. rewrite <- (NEON_VOP_ENV_clamps neon_s32 (DO_QNEG 32)) by (try apply qneg_lane; try done; cbn; lia).
  unfold NEON_VOP_ENV, NEON_UNPACK, lane_of, NEON_PACK. cbn [vcount neon_s32 seq List.map vbits zip_with for_lanes]. change (32 * Z.of_nat 0) with 0. rewrite Z.shiftr_0_r. unfold elt. cbn [vsigned vbits neon_s32].
  unfold DO_QNEG, qneg_s32. change (sgn 32 (bit (32 - 1))) with (- 2 ^ 31). change (32 - 1) with 31. pose proof (sgn_msb 32 x ltac:(lia) Hx) as Hm. change (32 - 1) with 31 in *.
  unfold fits in Hx. unfold mbind, ST_bind. destruct (Z.eqb_spec x SIGNBIT) as [->|Hn].
  - change (sgn 32 SIGNBIT) with (- 2 ^ 31). rewrite Z.eqb_refl. rewrite SET_QC_run by done. done.
  - destruct (Z.eqb_spec (sgn 32 x) (- 2 ^ 31)) as [H|_].
    + exfalso. apply Hn. rewrite Hm in H. destruct (Z.testbit x 31); unfold SIGNBIT; lia.
    + unfold mret, ST_ret; do 2 f_equal; cbn [positional List.map]; rewrite Z.mul_0_r, Z.add_0_r. rewrite Hm. destruct (Z.testbit x 31); [|done].
      replace (- (x - 2 ^ 32)) with (- x + 1 * 2 ^ 32) by lia. unfold wrap. by rewrite Z.mod_add.
Qed.

(** An operation that saturates: its flag, its lanes, the exact result of a lane, the helper. *)
Record sat_op := mkSatOp { so_flag : CPUARMState -> CPUARMState; so_type : vtype; so_exact : Z -> Z -> Z; so_run : Z -> Z -> CPU Z }.
Definition saturating_ops : list sat_op :=
  [ mkSatOp qc neon_u8 Z.add qadd_u8; mkSatOp qc neon_u16 Z.add qadd_u16; mkSatOp qc neon_u32 Z.add qadd_u32;
    mkSatOp qc neon_s8 Z.add qadd_s8; mkSatOp qc neon_s16 Z.add qadd_s16; mkSatOp qc neon_s32 Z.add qadd_s32;
    mkSatOp qc neon_u8 Z.sub qsub_u8; mkSatOp qc neon_u16 Z.sub qsub_u16; mkSatOp qc neon_u32 Z.sub qsub_u32;
    mkSatOp qc neon_s8 Z.sub qsub_s8; mkSatOp qc neon_s16 Z.sub qsub_s16; mkSatOp qc neon_s32 Z.sub qsub_s32;
    mkSatOp qf (mkV true 64 1) Z.add neon_add_saturate_s64; mkSatOp qf (mkV false 64 1) Z.add neon_add_saturate_u64;
    mkSatOp qf (mkV true 64 1) Z.sub neon_sub_saturate_s64; mkSatOp qf (mkV false 64 1) Z.sub neon_sub_saturate_u64;
    mkSatOp qc (mkV true 32 2) Z.add addl_saturate_s32; mkSatOp qc (mkV true 64 1) Z.add addl_saturate_s64;
    mkSatOp qc neon_u8 (fun x y => Z.shiftl x (sgn 8 y)) (qshl_u neon_u8); mkSatOp qc neon_u16 (fun x y => Z.shiftl x (sgn 8 y)) (qshl_u neon_u16);
    mkSatOp qc neon_u32 (fun x y => Z.shiftl x (sgn 8 y)) (qshl_u neon_u32); mkSatOp qc (mkV false 64 1) (fun x y => Z.shiftl x (sgn 8 y)) qshl_u64 ].
(** The same of one operand. *)
Definition saturating_ops1 : list (vtype * (Z -> Z) * (Z -> CPU Z)) :=
  [ (neon_s8, Z.abs, qabs_s8); (neon_s16, Z.abs, qabs_s16); (neon_s32, Z.abs, qabs_s32);
    (neon_s8, Z.opp, qneg_s8); (neon_s16, Z.opp, qneg_s16); (neon_s32, Z.opp, qneg_s32) ].
(** Narrowing operations: the lanes of the operand, those of the result, the helper. *)
Definition narrowing_ops : list (vtype * vtype * (Z -> CPU Z)) :=
  [ (mkV true 16 4, neon_u8, unarrow_sat8); (mkV false 16 4, neon_u8, narrow_sat_u8); (mkV true 16 4, neon_s8, narrow_sat_s8);
    (mkV true 32 2, neon_u16, unarrow_sat16); (mkV false 32 2, neon_u16, narrow_sat_u16); (mkV true 32 2, neon_s16, narrow_sat_s16);
    (mkV true 64 1, neon_u32, unarrow_sat32); (mkV false 64 1, neon_u32, narrow_sat_u32) ].
Definition vector_width (t : vtype) : Z := vbits t * Z.of_nat (vcount t).

Lemma sat_binary op a b e : has_fpscr e -> op ∈ saturating_ops -> fits (vector_width (so_type op)) a -> fits (vector_width (so_type op)) b ->
  so_run op a b e = Ok (sat_outcome (so_flag op) (so_type op) (so_exact op) a b e).
Proof.
  intros He Hop Ha Hb. pose proof (SET_QC_run e He) as Hqc. unfold saturating_ops in Hop.
  repeat (apply elem_of_cons in Hop as [->|Hop]; [cbn [so_run so_flag so_type so_exact] in *|]); [..|by apply elem_of_nil in Hop].
  - apply NEON_VOP_ENV_clamps; [cbn; lia|exact (usat_lane 8 4 false ltac:(lia))|done].
  - apply NEON_VOP_ENV_clamps; [cbn; lia|exact (usat_lane 16 2 false ltac:(lia))|done].
  - exact (unsigned_sat 32 false SET_QC qc a b e ltac:(lia) Ha Hb Hqc).
  - apply NEON_VOP_ENV_clamps; [cbn; lia|exact (ssat_lane 8 4 false ltac:(lia))|done].
  - apply NEON_VOP_ENV_clamps; [cbn; lia|exact (ssat_lane 16 2 false ltac:(lia))|done].
  - exact (signed_sat 32 false SET_QC qc a b _ e ltac:(lia) Ha Hb Hqc (limit_of_spec a Ha)).
  - apply NEON_VOP_ENV_clamps; [cbn; lia|exact (usat_lane 8 4 true ltac:(lia))|done].
  - apply NEON_VOP_ENV_clamps; [cbn; lia|exact (usat_lane 16 2 true ltac:(lia))|done].
  - exact (unsigned_sat 32 true SET_QC qc a b e ltac:(lia) Ha Hb Hqc).
  - apply NEON_VOP_ENV_clamps; [cbn; lia|exact (ssat_lane 8 4 true ltac:(lia))|done].
  - apply NEON_VOP_ENV_clamps; [cbn; lia|exact (ssat_lane 16 2 true ltac:(lia))|done].
  - exact (signed_sat 32 true SET_QC qc a b _ e ltac:(lia) Ha Hb Hqc (limit_of_spec a Ha)).
  - exact (signed_sat 64 false set_QF qf a b _ e ltac:(lia) Ha Hb (set_QF_run e) (limit64_spec a Ha)).
  - exact (unsigned_sat 64 false set_QF qf a b e ltac:(lia) Ha Hb (set_QF_run e)).
  - exact (signed_sat 64 true set_QF qf a b _ e ltac:(lia) Ha Hb (set_QF_run e) (limit64_spec a Ha)).
  - rewrite <- (unsigned_sat 64 true set_QF qf a b e ltac:(lia) Ha Hb (set_QF_run e)). unfold neon_sub_saturate_u64. rewrite (proj2 (sat_usub 64 a b ltac:(lia) Ha Hb)).
    replace (a <? b) with (bool_decide (~ fits 64 (a - b))); [done|]. symmetry. apply out_of_range. unfold vector_width, fits in *. cbn in Ha, Hb. rewrite Z.ltb_lt. lia.
  - by apply addl_saturate_s32_run.
  - exact (signed_sat 64 false SET_QC qc a b _ e ltac:(lia) Ha Hb Hqc (limit64_spec a Ha)).
  - apply NEON_VOP_ENV_clamps; [cbn; lia|exact (qshl_u_lane 8 4 ltac:(lia))|done].
  - apply NEON_VOP_ENV_clamps; [cbn; lia|exact (qshl_u_lane 16 2 ltac:(lia))|done].
  - apply NEON_VOP_ENV_clamps; [cbn; lia|exact (qshl_u_lane 32 1 ltac:(lia))|done].
  - by apply qshl_u64_run.
Qed.
Lemma sat_unary t g run a e : has_fpscr e -> (t, g, run) ∈ saturating_ops1 -> fits (vector_width t) a ->
  run a e = Ok (sat_outcome qc t (fun x _ => g x) a a e).
Proof.
  intros He Hop Ha. unfold saturating_ops1 in Hop. repeat (apply elem_of_cons in Hop as [[= -> -> ->]|Hop]); [..|by apply elem_of_nil in Hop].
  - apply NEON_VOP_ENV_clamps; [cbn; lia|exact (qabs_lane 8 4 ltac:(lia))|done].
  - apply NEON_VOP_ENV_clamps; [cbn; lia|exact (qabs_lane 16 2 ltac:(lia))|done].
  - by apply qabs_s32_run.
  - apply NEON_VOP_ENV_clamps; [cbn; lia|exact (qneg_lane 8 4 ltac:(lia))|done].
  - apply NEON_VOP_ENV_clamps; [cbn; lia|exact (qneg_lane 16 2 ltac:(lia))|done].
  - by apply qneg_s32_run.
Qed.
Lemma sat_narrow wide t run a e : has_fpscr e -> (wide, t, run) ∈ narrowing_ops -> fits 64 a -> run a e = Ok (narrow_outcome wide t a e).
Proof.
  intros He Hop Ha. unfold narrowing_ops in Hop. repeat (apply elem_of_cons in Hop as [[= -> -> ->]|Hop]); [..|by apply elem_of_nil in Hop].
  - apply sat8_lanes_run; [|done]. exact (unarrow_lane 8 4 16 4 (wrap 8) ltac:(lia) (wrap_fits 8)).
  - apply sat8_lanes_run; [|done]. exact (narrow_sat_u_lane 8 4 16 4 (wrap 8) ltac:(lia) (wrap_fits 8)).
  - apply sat8_lanes_run; [|done]. exact (narrow_sat_s_lane 8 4 16 4 ltac:(lia)).
  - apply sat16_lanes_run; [|done]. exact (unarrow_lane 16 2 32 2 (fun s => s) ltac:(lia) (fun s _ => eq_refl)).
  - apply sat16_lanes_run; [|done]. exact (narrow_sat_u_lane 16 2 32 2 (fun s => s) ltac:(lia) (fun s _ => eq_refl)).
  - by apply narrow_sat_s16_run.
  - etransitivity; [|exact (narrow_1 true 64 false 32 _ a e ltac:(lia) (unarrow_lane 32 1 64 1 (wrap 32) ltac:(lia) (wrap_fits 32)) He)]. cbv beta zeta. by rewrite !(wrap_fits 64 a).
  - etransitivity; [|exact (narrow_1 false 64 false 32 _ a e ltac:(lia) (narrow_sat_u_lane 32 1 64 1 (wrap 32) ltac:(lia) (wrap_fits 32)) He)]. cbv beta zeta. by rewrite !(wrap_fits 64 a).
Qed.
(** The narrowing of one signed 64-bit lane: the code shifts the unsigned operand right, so
    a negative number out of range gives neither its clamp nor a negative number. *)
Definition narrow_s32_outcome (a : Z) (e : CPUARMState) : Z * CPUARMState :=
  if sgn 64 a <? - 2 ^ 31 then (0x7ffffffe, qc e) else narrow_outcome (mkV true 64 1) neon_s32 a e.
Lemma narrow_sat_s32_run a e : has_fpscr e -> fits 64 a -> narrow_sat_s32 a e = Ok (narrow_s32_outcome a e).
Proof.
  intros He Ha. pose proof (sgn_msb 64 a ltac:(lia) Ha) as Hm. pose proof (msb_spec 64 a ltac:(lia) Ha) as Hb.
  change (64 - 1) with 63 in *. pose proof (sgn_sfits 32 a ltac:(lia)) as H32. unfold sfits in H32. change (32 - 1) with 31 in H32.
  unfold narrow_s32_outcome. destruct (Z.ltb_spec (sgn 64 a) (- 2 ^ 31)) as [Hneg|Hge].
  - unfold narrow_sat_s32. destruct (Z.eqb_spec (sgn 64 a) (sgn 32 a)); [lia|]. cbn [negb]. unfold mbind, ST_bind. rewrite SET_QC_run by done.
    unfold mret, ST_ret. do 2 f_equal. unfold fits in Ha. destruct (Z.testbit a 63); [|lia]. symmetry in Hb. apply Z.leb_le in Hb.
    rewrite Z.shiftr_div_pow2 by lia. by replace (a / 2 ^ 63) with 1 by (apply (Z.div_unique_pos _ _ _ (a - 2 ^ 63)); lia).
  - etransitivity; [|exact (narrow_1 true 64 true 32 _ a e ltac:(lia) (narrow_sat_s_lane 32 1 64 1 ltac:(lia)) He)].
    unfold narrow_sat_s32. cbv zeta. destruct (Z.testbit a 63) eqn:Ht.
    + rewrite Hm in *. assert (wrap 32 (a - 2 ^ 64) = wrap 32 a) as Hw
        by (unfold wrap; rewrite <- (Z.mod_add a (- 2 ^ 32) (2 ^ 32)) by lia; f_equal; lia).
      assert (sgn 32 (a - 2 ^ 64) = sgn 32 a) as Hs by (unfold sgn; by rewrite Hw).
      assert (sgn 32 a = a - 2 ^ 64) as Hid.
      { rewrite <- Hs. apply sgn_id; [lia|]. unfold sfits, fits in *. change (32 - 1) with 31. lia. }
      by rewrite Hs, Hid, Z.eqb_refl, Hw.
    + by rewrite Hm.
Qed.
(** C26: saturating vector operations clamp every lane.  Each helper of the three tables
    (additions, subtractions, left shifts of unsigned lanes, absolute values, negations,
    and the narrowings to lanes of 8 and 16 bits and to unsigned ones of 32) returns the
    lanes of the exact integer results clamped to the range of the lane type, and flags
    it exactly if some lane is out of range.  The flag of the 64-bit additions and
    subtractions is Q ([qf]), not the sticky QC ([qc]) of the others, and setting QC
    rewrites the whole FPSCR word, as the code does.  The remaining narrowing,
    [narrow_sat_s32], does the same for numbers from -2^31 up, but turns every smaller one
    into 0x7ffffffe. *)
Theorem neon_saturating a b e : has_fpscr e ->
  (forall op, op ∈ saturating_ops -> fits (vector_width (so_type op)) a -> fits (vector_width (so_type op)) b ->
    so_run op a b e = Ok (sat_outcome (so_flag op) (so_type op) (so_exact op) a b e)) /\
  (forall t g run, (t, g, run) ∈ saturating_ops1 -> fits (vector_width t) a -> run a e = Ok (sat_outcome qc t (fun x _ => g x) a a e)) /\
  (forall wide t run, (wide, t, run) ∈ narrowing_ops -> fits 64 a -> run a e = Ok (narrow_outcome wide t a e)) /\
  (fits 64 a -> narrow_sat_s32 a e = Ok (if sgn 64 a <? - 2 ^ 31 then (0x7ffffffe, qc e) else narrow_outcome (mkV true 64 1) neon_s32 a e)).
Proof.
  intros He. split; [intros; by apply sat_binary|]. split; [intros; by apply sat_unary|].
  split; [intros; by apply sat_narrow|]. intros. by apply narrow_sat_s32_run.
Qed.

(** ** Where the code departs from the instructions *)
Lemma mul16_range x y : sfits 16 x -> sfits 16 y -> - 2 ^ 30 < x * y <= 2 ^ 30 /\ (x * y = 2 ^ 30 <-> x = - 2 ^ 15 /\ y = - 2 ^ 15).
Proof. unfold sfits. change (2 ^ (16 - 1)) with 32768. change (2 ^ 30) with (32768 * 32768). change (2 ^ 15) with 32768. intros. split; [nia|]. split; nia. Qed.
Lemma dbl_overflow w v : 2 <= w -> - 2 ^ (w - 2) <= v < 2 ^ (w - 2) ->
  truth (Z.land (Z.lxor (wrap w v) (wrap w (Z.shiftl (wrap w v) 1))) (2 ^ (w - 1))) = false.
Proof.
  intros Hw Hv. rewrite truth_xor_msb, !wrap_testbit, Z.shiftl_spec, !wrap_testbit by lia. rewrite !(proj2 (Z.ltb_lt _ _)) by lia. cbn [andb].
  assert (2 ^ (w - 1) = 2 * 2 ^ (w - 2)) as HP by (rewrite <- Z.pow_succ_r by lia; f_equal; lia). assert (0 < 2 ^ (w - 2)) by (apply Z.pow_pos_nonneg; lia).
  rewrite !Z.testbit_eqb by lia. replace (w - 1 - 1) with (w - 2) by lia. destruct (Z.lt_ge_cases v 0).
  - replace (v / 2 ^ (w - 1)) with (-1) by (apply (Z.div_unique_pos _ _ _ (v + 2 ^ (w - 1))); lia). by replace (v / 2 ^ (w - 2)) with (-1) by (apply (Z.div_unique_pos _ _ _ (v + 2 ^ (w - 2))); lia).
  - by rewrite !Z.div_small by lia.
Qed.
Lemma wrap_plus_wrap w x y : wrap w (wrap w x + y) = wrap w (x + y).
Proof. unfold wrap. apply Zplus_mod_idemp_l. Qed.
Lemma qdmulh16_lane (round : bool) x y e : sfits 16 x -> sfits 16 y -> has_fpscr e ->
  if bool_decide (x = - 2 ^ 15 /\ y = - 2 ^ 15) then QDMULH16 round x y e = Ok (if round then 0 else 2 ^ 16 - 1, qc e)
  else exists d, QDMULH16 round x y e = Ok (d, e) /\ wrap 16 d = wrap 16 ((2 * (x * y) + (if round then 2 ^ 15 else 0)) / 2 ^ 16).
Proof.
  intros Hx Hy He. destruct (mul16_range x y Hx Hy) as [Hr He2]. unfold QDMULH16. cbv zeta. rewrite (sgn_id 16 x), (sgn_id 16 y) by (done || lia). destruct (decide (x = - 2 ^ 15 /\ y = - 2 ^ 15)) as [[-> ->]|Hn].
  - rewrite bool_decide_true by done. change (truth (Z.land (Z.lxor (wrap 32 (- 2 ^ 15 * - 2 ^ 15)) (wrap 32 (Z.shiftl (wrap 32 (- 2 ^ 15 * - 2 ^ 15)) 1))) SIGNBIT)) with true.
    cbn [when]. unfold mbind, ST_bind. rewrite SET_QC_run by done. by destruct round.
  - rewrite bool_decide_false by done. set (v := x * y) in *. assert (- 2 ^ 30 <= v < 2 ^ 30) as Hv by (destruct (decide (v = 2 ^ 30)); [tauto|lia]).
    change SIGNBIT with (2 ^ (32 - 1)). rewrite dbl_overflow by (change (32 - 2) with 30; lia). cbn [when]. unfold mbind, ST_bind, mret at 1, ST_ret at 1.
    assert (wrap 32 (Z.shiftl (wrap 32 v) 1) = wrap 32 (2 * v)) as ->.
    { apply Z.bits_inj'. intros i Hi. rewrite !wrap_testbit, Z.shiftl_spec, wrap_testbit by lia. replace (2 * v) with (Z.shiftl v 1) by (rewrite Z.shiftl_mul_pow2; lia). rewrite Z.shiftl_spec by lia.
      destruct (Z.ltb_spec i 32), (Z.ltb_spec (i - 1) 32); lia || done. }
    assert (forall r, - 2 ^ 31 <= r < 2 ^ 31 -> wrap 16 (Z.shiftr (wrap 32 r) 16) = wrap 16 (r / 2 ^ 16)) as Hsh.
    { intros r _. rewrite <- (Z.shiftr_div_pow2 r 16) by lia. apply Z.bits_inj'. intros i Hi. rewrite !wrap_testbit, !Z.shiftr_spec, wrap_testbit by lia.
      destruct (Z.ltb_spec i 16), (Z.ltb_spec (i + 16) 32); lia || done. }
    assert (2 * v <= 2 ^ 31 - 2 ^ 16) as Hmax.
    { unfold v, sfits in *. change (2 ^ (16 - 1)) with 32768 in *. change (2 ^ 15) with 32768 in Hn. change (2 ^ 31 - 2 ^ 16) with (2 * (32768 * 32767)). nia. }
    destruct round.
    + rewrite (wrap_plus_wrap 32). change (bit 15) with (2 ^ 15). rewrite !sgn_wrap, !(sgn_id 32) by (unfold sfits; change (32 - 1) with 31; lia).
      destruct (Z.ltb_spec (2 * v + 2 ^ 15) (2 * v)); [lia|]. eexists. split; [reflexivity|]. by rewrite Hsh by lia.
    + eexists. split; [reflexivity|]. rewrite Hsh by lia. by rewrite Z.add_0_r.
Qed.
(** Operations that do not compute what their instruction says.  VQDMULH and VQRDMULH of
    16 bits are exact but for the product of the two smallest numbers, which gives -1 and 0
    instead of the largest one; the rounding shift of 64-bit unsigned lanes always gives 0;
    the saturating shift of signed 64-bit lanes gives the sign of the operand; the narrowing of
    a negative 64-bit lane out of range gives 0x7ffffffe instead of the smallest number. *)
Theorem neon_departures x y val sh (round : bool) e : sfits 16 x -> sfits 16 y -> fits 64 val -> -64 < sgn 8 sh < 64 -> has_fpscr e ->
  (if bool_decide (x = - 2 ^ 15 /\ y = - 2 ^ 15) then QDMULH16 round x y e = Ok (if round then 0 else 2 ^ 16 - 1, qc e)
   else exists d, QDMULH16 round x y e = Ok (d, e) /\ wrap 16 d = wrap 16 ((2 * (x * y) + (if round then 2 ^ 15 else 0)) / 2 ^ 16)) /\
  rshl_u64 val sh e = Ok (0, e) /\
  qshl_s64 val sh e = Ok (if Z.testbit val 63 then 2 ^ 64 - 1 else 0, e) /\
  (sgn 64 val < - 2 ^ 31 -> narrow_sat_s32 val e = Ok (0x7ffffffe, qc e)).
Proof.
  intros Hx Hy Hv Hs He. split; [by apply qdmulh16_lane|]. rewrite <- (sgn_wrap 8 sh) in Hs by lia. pose proof (sgn_msb 64 val ltac:(lia) Hv) as Hm. change (64 - 1) with 63 in Hm.
  split; [|split].
  - unfold rshl_u64. cbv zeta. set (k := sgn 8 (wrap 8 sh)) in *. replace ((64 <=? k) || (k <? 64)) with true by (symmetry; apply orb_true_iff; lia). destruct (Z.ltb_spec k 0).
    + unfold c_shl64, c_shr64. replace ((0 <=? -1 - k) && (-1 - k <? 64)) with true by (symmetry; apply andb_true_iff; lia).
      replace ((0 <=? - k) && (- k <? 64)) with true by (symmetry; apply andb_true_iff; lia). unfold mbind, ST_bind, mret, ST_ret. rewrite Z.add_0_l, wrap_idem by lia.
      pose proof (Z.pow_pos_nonneg 2 (-1 - k)). pose proof (Z.pow_lt_mono_r 2 (-1 - k) (- k)). pose proof (Z.pow_le_mono_r 2 (-1 - k) 63). rewrite Z.shiftl_mul_pow2, Z.mul_1_l, wrap_fits by (unfold fits; lia).
      rewrite (Z.shiftr_div_pow2 (2 ^ (-1 - k))), Z.div_small, Z.shiftr_0_l by lia. done.
    + unfold c_shl64. replace ((0 <=? k) && (k <? 64)) with true by (symmetry; apply andb_true_iff; lia). unfold mbind, ST_bind, mret, ST_ret. by rewrite Z.shiftl_0_l.
  - unfold qshl_s64. cbv zeta. set (k := sgn 8 (wrap 8 sh)) in *. destruct (Z.leb_spec 64 k); [lia|]. destruct (Z.leb_spec k 64); [|lia].
    unfold mbind, ST_bind, mret, ST_ret. pose proof (shiftr_sign 64 (sgn 64 val) ltac:(lia) (sgn_sfits 64 val ltac:(lia))) as Hsh. change (64 - 1) with 63 in Hsh. rewrite Hsh, Hm.
    unfold fits in Hv. destruct (Z.testbit val 63); [destruct (Z.ltb_spec (val - 2 ^ 64) 0); [done|lia]|destruct (Z.ltb_spec val 0); [lia|done]].
  - intros Hneg. rewrite narrow_sat_s32_run by done. unfold narrow_s32_outcome. by rewrite (proj2 (Z.ltb_lt _ _)).
Qed.

(** ** Witnesses *)
Example neon_saturating_witness : qadd_u8 0x01ff7f80 0x0101017f sample_cpu = Ok (0x02ff80ff, qc sample_cpu) /\
  qabs_s32 0x80000000 sample_cpu = Ok (0x7fffffff, qc sample_cpu) /\ narrow_sat_s8 0xff80007f00000100 sample_cpu = Ok (0x807f007f, qc sample_cpu) /\
  narrow_sat_s32 0x80000000 sample_cpu = Ok (0x7fffffff, qc sample_cpu) /\ narrow_sat_s32 0x8000000000000000 sample_cpu = Ok (0x7ffffffe, qc sample_cpu).
Proof.
  destruct (neon_saturating 0x01ff7f80 0x0101017f sample_cpu) as (H & _); [by vm_compute; repeat constructor|].
  destruct (neon_saturating 0x80000000 0 sample_cpu) as (_ & H1 & _); [by vm_compute; repeat constructor|].
  destruct (neon_saturating 0xff80007f00000100 0 sample_cpu) as (_ & _ & H2 & _); [by vm_compute; repeat constructor|].
  destruct (neon_saturating 0x80000000 0 sample_cpu) as (_ & _ & _ & H3); [by vm_compute; repeat constructor|].
  destruct (neon_saturating 0x8000000000000000 0 sample_cpu) as (_ & _ & _ & H4); [by vm_compute; repeat constructor|].
  split_and!; [| | |etransitivity; [by apply H3|reflexivity]|etransitivity; [by apply H4|reflexivity]].
  - etransitivity; [exact (H (mkSatOp qc neon_u8 Z.add qadd_u8) ltac:(by left) ltac:(done) ltac:(done))|reflexivity].
  - etransitivity; [exact (H1 neon_s32 Z.abs qabs_s32 ltac:(by do 2 right; left) ltac:(done))|reflexivity].
  - etransitivity; [exact (H2 (mkV true 16 4) neon_s8 narrow_sat_s8 ltac:(by do 2 right; left) ltac:(done))|reflexivity].
Defined.
Example neon_departures_witness : QDMULH16 true (-32768) (-32768) sample_cpu = Ok (0, qc sample_cpu) /\ rshl_u64 12 1 sample_cpu = Ok (0, sample_cpu) /\
  narrow_sat_s32 0xffffffff00000000 sample_cpu = Ok (0x7ffffffe, qc sample_cpu).
Proof.
  destruct (neon_departures (-32768) (-32768) 0xffffffff00000000 1 true sample_cpu) as (H & _ & _ & H2); [by vm_compute..|by vm_compute; repeat constructor|].
  destruct (neon_departures 0 0 12 1 true sample_cpu) as (_ & H1 & _); [by vm_compute..|by vm_compute; repeat constructor|].
  split; [exact H|]. split; [exact H1|]. by apply H2.
Defined.
