(* ===== verification/ArmNeonLanes.v ===== *)
(** * ArmNeonLanes: permutations and word arithmetic of NEON are lanewise

    VZIP and VUZP of the registers as operations on the sequence of their elements; the
    additions, subtractions, products and counts that the code does on whole words as
    operations on each lane. *)
From S2P Require Import Prelude HostUtils ArmCpu ArmModes ArmArith ArmNeon.
#[local] Open Scope Z_scope.
(** ** Elements of a register *)
Definition elem_size (insn : Z) : Z := 8 * 2 ^ size_field insn.
Definition elems (s z : Z) : list Z := List.map (fun n => ELEM z (Z.of_nat n) s) (seq 0 (Z.to_nat (64 / s))).
Lemma ELEM_wrap v n s : 0 <= s -> ELEM v n s = wrap s (Z.shiftr v (n * s)).
Proof. intros. unfold ELEM, wrap. replace (bit s - 1) with (Z.ones s); [by rewrite Z.land_ones|]. unfold bit. rewrite Z.ones_equiv, Z.shiftl_mul_pow2; lia. Qed.
Lemma ELEM_fits v n s : 0 <= s -> fits s (ELEM v n s).
Proof. intros. rewrite ELEM_wrap by done. by apply fits_wrap. Qed.
Lemma ELEM_testbit v n s i : 0 <= s -> 0 <= n -> 0 <= i -> Z.testbit (ELEM v n s) i = (i <? s) && Z.testbit v (n * s + i).
Proof. intros. rewrite ELEM_wrap, wrap_testbit, Z.shiftr_spec by lia. do 2 f_equal. lia. Qed.
Lemma join_positional s l : 0 <= s -> Forall (fits s) l -> join s l = positional s l.
Proof. intros Hs. induction 1 as [|d l Hd Hl IH]; [done|]. cbn [join]. by rewrite IH, positional_lor. Qed.
Lemma ELEM_join s l n : 0 < s -> Forall (fits s) l -> 0 <= n -> ELEM (join s l) n s = default 0 (rd l n).
Proof.
  intros Hs Hl Hn. rewrite join_positional by (done || lia). apply Z.bits_inj'. intros i Hi. rewrite ELEM_testbit by lia. destruct (Z.ltb_spec i s); cbn [andb].
  - rewrite positional_testbit by (done || nia). rewrite Z.add_comm, Z.div_add, Z.mod_add by lia. by rewrite Z.div_small, Z.mod_small by lia.
  - symmetry. apply (fits_testbit s); [lia| |lia]. destruct (rd l n) as [v|] eqn:E; [by eapply rd_Forall|]. unfold fits. cbn. pose proof (Z.pow_pos_nonneg 2 s). lia.
Qed.
Lemma pick_fits s l : 0 <= s -> Forall (fits s) (List.map (fun '(v, n) => ELEM v n s) l).
Proof. intros. induction l as [|[v n] l IH]; constructor; [by apply ELEM_fits|done]. Qed.
Lemma ELEM_pick s l n v k : 0 < s -> 0 <= n -> rd l n = Some (v, k) -> ELEM (pick s l) n s = ELEM v k s.
Proof.
  intros Hs Hn Hl. unfold pick. rewrite ELEM_join by (try apply pick_fits; lia). unfold rd in *. rewrite (proj2 (Z.leb_le 0 n) Hn) in *.
  change (List.map (fun '(v0, n0) => ELEM v0 n0 s) l) with ((fun '(v0, n0) => ELEM v0 n0 s) <$> l). by rewrite list_lookup_fmap, Hl.
Qed.
Lemma elems_fits s z : 0 <= s -> Forall (fits s) (elems s z).
Proof. intros. unfold elems. induction (seq _ _); constructor; [by apply ELEM_fits|done]. Qed.
Lemma join_elems s z : 0 < s -> 64 = s * (64 / s) -> fits 64 z -> join s (elems s z) = z.
Proof.
  intros Hs Hd Hz. unfold elems. assert (Forall (fits s) (elems s z)) as Hf.
  { apply elems_fits. lia. }
  rewrite join_positional by (done || lia). fold (elems s z). apply Z.bits_inj'. intros i Hi. rewrite positional_testbit by done.
  pose proof (Z.div_mod i s ltac:(lia)). pose proof (Z.mod_pos_bound i s Hs). pose proof (Z.div_pos i s Hi Hs). assert (0 <= 64 / s) by (apply Z.div_pos; lia).
  unfold rd. rewrite (proj2 (Z.leb_le _ _)) by done. unfold elems. change (List.map ?f ?l) with (f <$> l). rewrite list_lookup_fmap.
  destruct (Z.lt_ge_cases i 64).
  - assert (i / s < 64 / s) by (apply Z.div_lt_upper_bound; lia). rewrite lookup_seq_lt by lia. cbn [fmap option_fmap option_map]. match goal with |- context [default 0 (Some ?x)] => change (default 0 (Some x)) with x end. rewrite ELEM_testbit by lia.
    rewrite (proj2 (Z.ltb_lt _ _)) by lia. cbn [andb]. f_equal. rewrite Nat.add_0_l, Z2Nat.id by done. nia.
  - assert (64 / s <= i / s) by (apply Z.div_le_mono; lia). rewrite lookup_seq_ge by lia. cbn. rewrite Z.bits_0. symmetry. apply (fits_testbit 64); [lia|done|lia].
Qed.
Lemma pick_self s z : 0 < s -> 64 = s * (64 / s) -> fits 64 z -> pick s (List.map (fun n => (z, Z.of_nat n)) (seq 0 (Z.to_nat (64 / s)))) = z.
Proof. intros Hs Hd Hz. unfold pick. rewrite List.map_map. by apply join_elems. Qed.
Lemma join_fits s l : 0 <= s -> Forall (fits s) l -> fits (s * Z.of_nat (length l)) (join s l).
Proof.
  intros Hs Hl. rewrite join_positional by done. induction Hl as [|d l Hd Hl IH]; cbn [positional length]; [unfold fits; rewrite Z.mul_0_r; lia|].
  unfold fits in *. rewrite Nat2Z.inj_succ, Z.mul_succ_r, Z.pow_add_r by nia. nia.
Qed.
Lemma pick_ext s l l' : List.map (fun '(v, n) => ELEM v n s) l = List.map (fun '(v, n) => ELEM v n s) l' -> pick s l = pick s l'.
Proof. unfold pick. by intros ->. Qed.
Ltac elem_picks := cbn [List.map]; repeat match goal with |- context [ELEM (pick ?s ?l) ?n ?s] => rewrite (ELEM_pick s l n _ _ ltac:(lia) ltac:(lia) eq_refl) end; done.
(** A permutation that puts the elements back gives the register. *)
Lemma pick_back s l z : 0 < s -> 64 = s * (64 / s) -> fits 64 z -> List.map (fun '(v, n) => ELEM v n s) l = elems s z -> pick s l = z.
Proof. intros Hs Hd Hz H. unfold pick. rewrite H. by apply join_elems. Qed.
Lemma elems8 z : elems 8 z = [ELEM z 0 8; ELEM z 1 8; ELEM z 2 8; ELEM z 3 8; ELEM z 4 8; ELEM z 5 8; ELEM z 6 8; ELEM z 7 8].
Proof. reflexivity. Qed.
Lemma elems16 z : elems 16 z = [ELEM z 0 16; ELEM z 1 16; ELEM z 2 16; ELEM z 3 16].
Proof. reflexivity. Qed.
Lemma elems32 z : elems 32 z = [ELEM z 0 32; ELEM z 1 32].
Proof. reflexivity. Qed.
Definition unzip_quad size (x : Z * Z * (Z * Z)) : Z * Z * (Z * Z) := let '(d0, d1, (m0, m1)) := x in unzip_q size d0 d1 m0 m1.
Definition zip_quad size (x : Z * Z * (Z * Z)) : Z * Z * (Z * Z) := let '(d0, d1, (m0, m1)) := x in zip_q size d0 d1 m0 m1.
Lemma quad_zip_unzip size d0 d1 m0 m1 : 0 <= size <= 2 -> fits 64 d0 -> fits 64 d1 -> fits 64 m0 -> fits 64 m1 ->
  unzip_quad size (zip_q size d0 d1 m0 m1) = (d0, d1, (m0, m1)) /\ zip_quad size (unzip_q size d0 d1 m0 m1) = (d0, d1, (m0, m1)).
Proof.
  intros Hs F1 F2 F3 F4. assert (size = 0 \/ size = 1 \/ size = 2) as [->|[->| ->]] by lia; split;
    unfold unzip_quad, zip_quad, zip_q, unzip_q; cbn [Z.eqb Pos.eqb]; cbv iota beta; repeat apply (f_equal2 pair);
    (apply pick_back; [lia|reflexivity|done|]); rewrite ?elems8, ?elems16, ?elems32; elem_picks.
Qed.
Lemma dword_zip_unzip size d m : 0 <= size <= 1 -> fits 64 d -> fits 64 m ->
  (let '(d', m') := zip_d size d m in unzip_d size d' m') = (d, m) /\ (let '(d', m') := unzip_d size d m in zip_d size d' m') = (d, m).
Proof.
  intros Hs F1 F2. assert (size = 0 \/ size = 1) as [->| ->] by lia; split;
    unfold zip_d, unzip_d; cbn [Z.eqb Pos.eqb]; cbv iota beta; repeat apply (f_equal2 pair);
    (apply pick_back; [lia|reflexivity|done|]); rewrite ?elems8, ?elems16; elem_picks.
Qed.
(** ** Zipping and unzipping the elements of two vectors *)
Fixpoint evens (l : list Z) : list Z := match l with x :: _ :: l => x :: evens l | _ => [] end.
Fixpoint odds (l : list Z) : list Z := match l with _ :: y :: l => y :: odds l | _ => [] end.
Fixpoint interleave (l l' : list Z) : list Z := match l, l' with x :: l, y :: l' => x :: y :: interleave l l' | _, _ => [] end.
(** The registers of the operands, the vector of the destination first. *)
Definition quad (insn : Z) : bool := truth (Z.land insn 0x40).
Definition vregs (insn : Z) : list Z :=
  if quad insn then [rd_field insn; rd_field insn + 1; rm_field insn; rm_field insn + 1] else [rd_field insn; rm_field insn].
Definition vread (regs : list Z) (r : Z) : Z := default 0 (rd regs r).
Definition vector (insn : Z) (regs : list Z) : list Z :=
  List.concat (List.map (fun r => elems (elem_size insn) (vread regs r)) (vregs insn)).
(** Registers that exist and are distinct, and a size the instruction has. *)
Record perm_ok (insn : Z) (regs : list Z) : Prop := mkPermOk {
  po_nodup : NoDup (vregs insn); po_regs : Forall (fun r => 0 <= r < Z.of_nat (length regs)) (vregs insn);
  po_fits : Forall (fits 64) regs; po_size : size_field insn <= if quad insn then 2 else 1
}.
Definition zip_lists (insn : Z) (vs : list Z) : list Z :=
  match vs with
  | [d0; d1; m0; m1] => let '(d0, d1, (m0, m1)) := zip_q (size_field insn) d0 d1 m0 m1 in [d0; d1; m0; m1]
  | [d; m] => let '(d, m) := zip_d (size_field insn) d m in [d; m]
  | _ => []
  end.
Definition unzip_lists (insn : Z) (vs : list Z) : list Z :=
  match vs with
  | [d0; d1; m0; m1] => let '(d0, d1, (m0, m1)) := unzip_q (size_field insn) d0 d1 m0 m1 in [d0; d1; m0; m1]
  | [d; m] => let '(d, m) := unzip_d (size_field insn) d m in [d; m]
  | _ => []
  end.
Fixpoint store (rs vs : list Z) (l : list Z) : list Z :=
  match rs, vs with r :: rs, v :: vs => <[Z.to_nat r := v]> (store rs vs l) | _, _ => l end.

Lemma store_length rs vs l : length (store rs vs l) = length l.
Proof. revert vs. induction rs as [|r rs IH]; intros [|v vs]; cbn [store]; [done..|]. by rewrite length_insert. Qed.
Lemma store_other rs vs l r : 0 <= r -> Forall (fun r' => 0 <= r') rs -> r ∉ rs -> rd (store rs vs l) r = rd l r.
Proof.
  intros Hr Hp. revert vs. induction Hp as [|r' rs Hr' Hp IH]; intros [|v vs] Hn; cbn [store]; [done..|].
  apply not_elem_of_cons in Hn as [Hne Hn]. rewrite <- (IH vs Hn). unfold rd. destruct (Z.leb_spec 0 r); [|done]. apply list_lookup_insert_ne. lia.
Qed.
Lemma store_get rs vs l : NoDup rs -> length vs = length rs -> Forall (fun r => 0 <= r < Z.of_nat (length l)) rs -> List.map (vread (store rs vs l)) rs = vs.
Proof.
  intros Hnd. revert vs. induction Hnd as [|r rs Hn Hnd IH]; intros [|v vs] Hlen Hr; cbn [store List.map length] in *; [done..|].
  apply Forall_cons_1 in Hr as [Hr Hrs]. f_equal.
  - unfold vread, rd. rewrite (proj2 (Z.leb_le 0 r)) by lia. by rewrite list_lookup_insert_eq by (rewrite store_length; lia).
  - rewrite <- (IH vs) at 2 by (done || lia). apply map_ext_in. intros r' Hr'. unfold vread. f_equal.
    rewrite Forall_forall in Hrs. pose proof (Hrs r' Hr'). unfold rd. rewrite (proj2 (Z.leb_le 0 r')) by lia. apply list_lookup_insert_ne. intros H'. assert (r = r') as -> by lia. by apply Hn, list_elem_of_In.
Qed.
Lemma vread_nat l i : vread l (Z.of_nat i) = default 0 (l !! i).
Proof. unfold vread, rd. by rewrite (proj2 (Z.leb_le 0 _)), Nat2Z.id by lia. Qed.
(** What is stored, and what it is stored over, do not matter: only the last values do. *)
Lemma store_back rs vs l : NoDup rs -> Forall (fun r => 0 <= r < Z.of_nat (length l)) rs -> length vs = length rs ->
  store rs (List.map (vread l) rs) (store rs vs l) = l.
Proof.
  intros Hnd Hr Hlen. apply list_eq. intros i. destruct (decide (Z.of_nat i ∈ rs)) as [Hi|Hi].
  - assert (0 <= Z.of_nat i < Z.of_nat (length l)) as Hb by (rewrite Forall_forall in Hr; by apply Hr, list_elem_of_In).
    assert (List.map (vread (store rs (List.map (vread l) rs) (store rs vs l))) rs = List.map (vread l) rs) as Hg
      by (apply store_get; [done|apply length_map|by rewrite store_length]).
    assert (vread (store rs (List.map (vread l) rs) (store rs vs l)) (Z.of_nat i) = vread l (Z.of_nat i)) as Hv.
    { clear -Hg Hi. generalize dependent (store rs (List.map (vread l) rs) (store rs vs l)). intros l' Hg.
      induction rs as [|r rs IH]; [by apply elem_of_nil in Hi|]. cbn in Hg. injection Hg as Hg1 Hg2. apply elem_of_cons in Hi as [->|Hi]; [done|by apply IH]. }
    rewrite !vread_nat in Hv.
    destruct (lookup_lt_is_Some_2 l i) as [x Hx]; [lia|]. destruct (lookup_lt_is_Some_2 (store rs (List.map (vread l) rs) (store rs vs l)) i) as [y Hy]; [rewrite !store_length; lia|].
    rewrite Hx, Hy in Hv. cbn in Hv. rewrite Hx, Hy. by rewrite Hv.
  - assert (Forall (fun r => 0 <= r) rs) as Hp by (eapply List.Forall_impl; [|exact Hr]; cbn; lia).
    pose proof (store_other rs (List.map (vread l) rs) (store rs vs l) (Z.of_nat i) ltac:(lia) Hp Hi) as H1. pose proof (store_other rs vs l (Z.of_nat i) ltac:(lia) Hp Hi) as H2.
    rewrite H2 in H1. unfold rd in H1. by rewrite (proj2 (Z.leb_le 0 _)), Nat2Z.id in H1 by lia.
Qed.
Lemma vread_rd l r : 0 <= r < Z.of_nat (length l) -> rd l r = Some (vread l r).
Proof. intros H. unfold vread. by destruct (rd_Some l r H) as (x & -> & _). Qed.
Lemma permute_store (zipping : bool) insn regs : perm_ok insn regs ->
  (if zipping then neon_zip else neon_unzip) insn regs =
    Some (store (vregs insn) ((if zipping then zip_lists else unzip_lists) insn (List.map (vread regs) (vregs insn))) regs).
Proof.
  intros [Hnd Hr Hf Hs]. unfold vregs in *. unfold neon_zip, neon_unzip. transitivity (permute (if zipping then zip_q else unzip_q) (if zipping then zip_d else unzip_d) insn regs); [by destruct zipping|].
  unfold permute. cbv zeta. fold (quad insn). destruct (quad insn).
  - repeat (apply Forall_cons_1 in Hr as [? Hr]). 
    
    set (d := rd_field insn) in *. set (m := rm_field insn) in *.
    rewrite !vread_rd by done. cbn [mbind option_bind List.map].
    transitivity (let '(d0, d1, (m0, m1)) := (if zipping then zip_q else unzip_q) (size_field insn) (vread regs d) (vread regs (d + 1)) (vread regs m) (vread regs (m + 1)) in
      Some (store [d; d + 1; m; m + 1] [d0; d1; m0; m1] regs)).
    + destruct ((if zipping then zip_q else unzip_q) _ _ _ _ _) as [[d0 d1] [m0 m1]]. cbn [store].
      rewrite (wr_Some regs m) by done. cbn [mbind option_bind]. rewrite wr_Some by (by rewrite length_insert). cbn [mbind option_bind]. rewrite wr_Some by (by rewrite !length_insert).
      cbn [mbind option_bind]. rewrite wr_Some by (by rewrite !length_insert). f_equal.
      rewrite (list_insert_insert_ne regs (Z.to_nat m) (Z.to_nat (m + 1))) by lia.
      by rewrite (list_insert_insert_ne _ (Z.to_nat d) (Z.to_nat (d + 1))) by lia.
    + destruct zipping; cbn [zip_lists unzip_lists]; destruct (_ (size_field insn) _ _ _ _) as [[d0 d1] [m0 m1]]; done.
  - repeat (apply Forall_cons_1 in Hr as [? Hr]). set (d := rd_field insn) in *. set (m := rm_field insn) in *.
    rewrite !vread_rd by done. cbn [mbind option_bind List.map].
    transitivity (let '(d0, m0) := (if zipping then zip_d else unzip_d) (size_field insn) (vread regs d) (vread regs m) in Some (store [d; m] [d0; m0] regs)).
    + destruct ((if zipping then zip_d else unzip_d) _ _ _) as [d0 m0]. cbn [store].
      rewrite (wr_Some regs m) by done. cbn [mbind option_bind]. by rewrite wr_Some by (by rewrite length_insert).
    + destruct zipping; cbn [zip_lists unzip_lists]; destruct (_ (size_field insn) _ _) as [d0 m0]; done.
Qed.
Lemma perm_lists_length (zipping : bool) insn vs : (length vs = 4 \/ length vs = 2)%nat -> length ((if zipping then zip_lists else unzip_lists) insn vs) = length vs.
Proof.
  intros H. destruct vs as [|a [|b [|c [|d [|]]]]]; cbn in H; try lia; destruct zipping; cbn [zip_lists unzip_lists].
  - by destruct (zip_d _ _ _).
  - by destruct (unzip_d _ _ _).
  - by destruct (zip_q _ _ _ _ _) as [[] []].
  - by destruct (unzip_q _ _ _ _ _) as [[] []].
Qed.
Lemma size_nonneg insn : 0 <= size_field insn.
Proof. unfold size_field. apply Z.land_nonneg. lia. Qed.
Lemma lists_inverse (zipping : bool) insn vs : (length vs = if quad insn then 4 else 2)%nat -> Forall (fits 64) vs -> size_field insn <= (if quad insn then 2 else 1) ->
  (if zipping then unzip_lists else zip_lists) insn ((if zipping then zip_lists else unzip_lists) insn vs) = vs.
Proof.
  intros Hl Hf Hs. pose proof (size_nonneg insn). destruct (quad insn).
  - destruct vs as [|d0 [|d1 [|m0 [|m1 [|]]]]]; try discriminate Hl. repeat (apply Forall_cons_1 in Hf as [? Hf]).
    destruct (quad_zip_unzip (size_field insn) d0 d1 m0 m1 ltac:(lia) ltac:(done) ltac:(done) ltac:(done) ltac:(done)) as [I1 I2].
    destruct zipping; cbn [zip_lists unzip_lists]; [destruct (zip_q _ _ _ _ _) as [[] []]; cbn in I1 |- *; by rewrite I1|destruct (unzip_q _ _ _ _ _) as [[] []]; cbn in I2 |- *; by rewrite I2].
  - destruct vs as [|d [|m [|]]]; try discriminate Hl. repeat (apply Forall_cons_1 in Hf as [? Hf]).
    destruct (dword_zip_unzip (size_field insn) d m ltac:(lia) ltac:(done) ltac:(done)) as [I1 I2].
    destruct zipping; cbn [zip_lists unzip_lists]; [destruct (zip_d _ _ _); cbn in I1 |- *; by rewrite I1|destruct (unzip_d _ _ _); cbn in I2 |- *; by rewrite I2].
Qed.
Definition all_elems (insn : Z) (vs : list Z) : list Z := List.concat (List.map (elems (elem_size insn)) vs).
Lemma size_cases insn (b : Z) : size_field insn <= b -> b <= 2 -> size_field insn = 0 \/ size_field insn = 1 \/ (size_field insn = 2 /\ b = 2).
Proof. pose proof (size_nonneg insn). lia. Qed.
Lemma lists_elements insn vs : (length vs = if quad insn then 4 else 2)%nat -> size_field insn <= (if quad insn then 2 else 1) ->
  let X := all_elems insn vs in let h := (length X / 2)%nat in
  all_elems insn (zip_lists insn vs) = interleave (take h X) (drop h X) /\ all_elems insn (unzip_lists insn vs) = evens X ++ odds X.
Proof.
  intros Hl Hs. unfold all_elems, elem_size. destruct (quad insn).
  - destruct vs as [|d0 [|d1 [|m0 [|m1 [|]]]]]; try discriminate Hl. cbn [zip_lists unzip_lists].
    destruct (size_cases insn 2 Hs ltac:(lia)) as [->|[->|[-> _]]]; unfold zip_q, unzip_q; cbn [Z.eqb Pos.eqb]; cbv iota beta; cbn [Z.pow Z.pow_pos Pos.iter Z.mul Pos.mul List.map];
      rewrite ?elems8, ?elems16, ?elems32; cbn [List.concat app length Nat.div Nat.divmod fst take drop interleave evens odds]; split; elem_picks.
  - destruct vs as [|d [|m [|]]]; try discriminate Hl. cbn [zip_lists unzip_lists].
    destruct (size_cases insn 1 Hs ltac:(lia)) as [->|[->|[_ ?]]]; [| |lia]; unfold zip_d, unzip_d; cbn [Z.eqb Pos.eqb]; cbv iota beta; cbn [Z.pow Z.pow_pos Pos.iter Z.mul Pos.mul List.map];
      rewrite ?elems8, ?elems16; cbn [List.concat app length Nat.div Nat.divmod fst take drop interleave evens odds]; split; elem_picks.
Qed.
Lemma vector_elems insn regs : vector insn regs = all_elems insn (List.map (vread regs) (vregs insn)).
Proof. unfold vector, all_elems. by rewrite List.map_map. Qed.
Lemma vread_fits regs rs : Forall (fits 64) regs -> Forall (fits 64) (List.map (vread regs) rs).
Proof.
  intros Hf. apply List.Forall_map, List.Forall_forall. intros r _. unfold vread. destruct (rd regs r) as [v|] eqn:E; [by eapply rd_Forall|]. unfold fits. cbn. lia.
Qed.
Lemma store_fits rs vs l : Forall (fits 64) l -> Forall (fits 64) vs -> Forall (fits 64) (store rs vs l).
Proof.
  intros Hl Hv. revert vs Hv. induction rs as [|r rs IH]; intros [|v vs] Hv; cbn [store]; [done..|]. apply Forall_cons_1 in Hv as [Hv Hvs].
  apply Forall_insert; [by apply IH|done].
Qed.
Lemma pick_fits64 s l : 0 <= s -> s * Z.of_nat (length l) = 64 -> fits 64 (pick s l).
Proof. intros Hs Hl. rewrite <- Hl. rewrite <- (length_map (fun '(v, n) => ELEM v n s) l). apply join_fits; [done|]. by apply pick_fits. Qed.
Lemma lists_fits (zipping : bool) insn vs : Forall (fits 64) ((if zipping then zip_lists else unzip_lists) insn vs).
Proof.
  assert (fits 64 0) as H0 by (unfold fits; lia).
  destruct vs as [|a [|b [|c [|d [|]]]]]; destruct zipping; cbn [zip_lists unzip_lists]; try apply List.Forall_nil;
    unfold zip_q, zip_d, unzip_q, unzip_d; destruct (_ =? 0); [|destruct (_ =? 1)| |destruct (_ =? 1)| |destruct (_ =? 1); [|destruct (_ =? 2)]| |destruct (_ =? 1); [|destruct (_ =? 2)]];
    repeat (apply List.Forall_cons; [first [exact H0 | apply pick_fits64; [lia|reflexivity]]|]); apply List.Forall_nil.
Qed.
(** C28: zipping and unzipping are inverse permutations.  Of two distinct vectors of the
    register file, as one sequence of elements, VZIP interleaves the two halves and VUZP
    puts the elements of even number before the others; each undoes the other, so both
    orders give back the register file, and the other registers are not touched. *)
Theorem zip_unzip insn regs : perm_ok insn regs -> let X := vector insn regs in let h := (length X / 2)%nat in
  exists z u, neon_zip insn regs = Some z /\ neon_unzip insn regs = Some u /\
    neon_unzip insn z = Some regs /\ neon_zip insn u = Some regs /\
    vector insn z = interleave (take h X) (drop h X) /\ vector insn u = evens X ++ odds X /\
    forall r, 0 <= r -> r ∉ vregs insn -> rd z r = rd regs r /\ rd u r = rd regs r.
Proof.
  intros Hok. pose proof Hok as [Hnd Hr Hf Hs]. cbv zeta. rewrite !vector_elems. set (vs := List.map (vread regs) (vregs insn)).
  assert (length vs = if quad insn then 4 else 2)%nat as Hl by (unfold vs, vregs; by destruct (quad insn)).
  assert (Forall (fits 64) vs) as Hvf by (unfold vs; apply vread_fits; done).
  assert (forall b : bool, length ((if b then zip_lists else unzip_lists) insn vs) = length (vregs insn)) as Hlen
    by (intros b; rewrite perm_lists_length by (destruct (quad insn); lia); unfold vs; apply length_map).
  assert (forall b : bool, exists z, (if b then neon_zip else neon_unzip) insn regs = Some z /\ (if b then neon_unzip else neon_zip) insn z = Some regs /\
    List.map (vread z) (vregs insn) = (if b then zip_lists else unzip_lists) insn vs /\ forall r, 0 <= r -> r ∉ vregs insn -> rd z r = rd regs r) as H.
  { intros b. eexists. split; [by apply permute_store|]. fold vs. set (z := store _ _ regs).
    assert (List.map (vread z) (vregs insn) = (if b then zip_lists else unzip_lists) insn vs) as Hg by (by apply store_get).
    split; [|split; [exact Hg|intros r H0 Hn; apply store_other; [done|eapply List.Forall_impl; [|exact Hr]; cbn; lia|done]]].
    assert (perm_ok insn z) as Hz.
    { split; [done|by unfold z; rewrite store_length| |done]. unfold z. apply store_fits; [done|]. by apply lists_fits. }
    pose proof (permute_store (negb b) insn z Hz) as Hp. rewrite Hg in Hp. destruct b; cbn [negb] in Hp; rewrite Hp; f_equal.
    - rewrite (lists_inverse true insn vs Hl Hvf Hs). apply store_back; [done|done|exact (Hlen true)].
    - rewrite (lists_inverse false insn vs Hl Hvf Hs). apply store_back; [done|done|exact (Hlen false)]. }
  destruct (H true) as (z & Z1 & Z2 & Z3 & Z4). destruct (H false) as (u & U1 & U2 & U3 & U4). destruct (lists_elements insn vs Hl Hs) as [E1 E2].
  exists z, u. split_and!; [exact Z1|exact U1|exact Z2|exact U2|by rewrite vector_elems, Z3|by rewrite vector_elems, U3|]. intros r H0 Hn. by split; [apply Z4|apply U4].
Qed.

(** ** Lanes inside a word *)
Lemma positional_fits w l : 0 <= w -> Forall (fits w) l -> fits (w * Z.of_nat (length l)) (positional w l).
Proof. intros Hw Hl. rewrite <- join_positional by done. by apply join_fits. Qed.
Lemma unpack_fits sg w n a : 0 <= w -> Forall (fits w) (NEON_UNPACK (mkV false w n) a) /\ length (NEON_UNPACK (mkV sg w n) a) = n.
Proof.
  intros Hw. split; [|unfold NEON_UNPACK; by rewrite length_map, length_seq].
  unfold NEON_UNPACK. apply List.Forall_map, List.Forall_forall. intros i _. by apply fits_wrap.
Qed.
Lemma unpack_positional w n a : 0 < w -> fits (w * Z.of_nat n) a -> a = positional w (NEON_UNPACK (mkV false w n) a).
Proof.
  intros Hw. revert a. induction n as [|n IH]; intros a Ha.
  - unfold fits in Ha. rewrite Z.mul_0_r in Ha. cbn. lia.
  - unfold NEON_UNPACK. cbn [vcount seq List.map positional]. unfold lane_of at 1. cbn [vbits]. rewrite Z.mul_0_r, Z.shiftr_0_r.
    assert (List.map (lane_of (mkV false w (S n)) a) (seq 1 n) = NEON_UNPACK (mkV false w n) (Z.shiftr a w)) as ->.
    { unfold NEON_UNPACK. cbn [vcount]. rewrite <- seq_shift, List.map_map. apply map_ext. intros i. unfold lane_of. cbn [vbits vsigned]. rewrite Z.shiftr_shiftr by lia. do 2 f_equal. lia. }
    rewrite <- IH.
    + unfold elt. cbn [vsigned vbits]. unfold wrap. rewrite Z.shiftr_div_pow2 by lia. pose proof (Z.div_mod a (2 ^ w) ltac:(pose proof (Z.pow_pos_nonneg 2 w); lia)). lia.
    + unfold fits in *. rewrite Z.shiftr_div_pow2 by lia. pose proof (Z.pow_pos_nonneg 2 w). split; [apply Z.div_pos; lia|]. apply Z.div_lt_upper_bound; [lia|].
      rewrite <- Z.pow_add_r by lia. replace (w + w * Z.of_nat n) with (w * Z.of_nat (S n)) by lia. lia.
Qed.
(** Bitwise operations act on the digits. *)
Lemma positional_bitop (f : Z -> Z -> Z) (g : bool -> bool -> bool) w l l' :
  0 < w -> g false false = false -> (forall x y i, 0 <= i -> Z.testbit (f x y) i = g (Z.testbit x i) (Z.testbit y i)) -> f 0 0 = 0 ->
  Forall (fits w) l -> Forall (fits w) l' -> length l = length l' ->
  f (positional w l) (positional w l') = positional w (zip_with f l l').
Proof.
  intros Hw Hg Hf H0 Hl. revert l'. induction Hl as [|x l Hx Hl IH]; intros l' Hl' Hlen; [by destruct l'|]. destruct Hl' as [|y l' Hy Hl']; [done|]. cbn [zip_with].
  assert (fits w (f x y)) as Hfx.
  { rewrite fits_bits in * by lia. destruct Hx as [Hx Hx'], Hy as [Hy Hy']. assert (forall i, w <= i -> Z.testbit (f x y) i = false) as Hhi by (intros i Hi; by rewrite Hf, Hx', Hy' by lia).
    split; [|done]. destruct (Z.lt_ge_cases (f x y) 0) as [Hn|]; [|done]. exfalso. apply Z.bits_iff_neg_ex in Hn as (k & Hk). specialize (Hk (Z.max (k + 1) w) ltac:(lia)). by rewrite Hhi in Hk by lia. }
  rewrite <- !positional_lor by (done || lia). apply Z.bits_inj'. intros i Hi. rewrite Hf by done. rewrite !Z.lor_spec, !Z.shiftl_spec by done.
  destruct (Z.lt_ge_cases i w).
  - rewrite !(Z.testbit_neg_r _ (i - w)), !orb_false_r by lia. by rewrite Hf.
  - rewrite (fits_testbit w x), (fits_testbit w y), (fits_testbit w (f x y)) by (done || lia). cbn [orb]. rewrite <- IH by (done || (cbn in Hlen; lia)). by rewrite Hf by lia.
Qed.
Lemma positional_land w l l' : 0 < w -> Forall (fits w) l -> Forall (fits w) l' -> length l = length l' -> Z.land (positional w l) (positional w l') = positional w (zip_with Z.land l l').
Proof. intros. apply (positional_bitop Z.land andb); try done. intros. apply Z.land_spec. Qed.
Lemma positional_lxor w l l' : 0 < w -> Forall (fits w) l -> Forall (fits w) l' -> length l = length l' -> Z.lxor (positional w l) (positional w l') = positional w (zip_with Z.lxor l l').
Proof. intros. apply (positional_bitop Z.lxor xorb); try done. intros. apply Z.lxor_spec. Qed.
Lemma positional_or w l l' : 0 < w -> Forall (fits w) l -> Forall (fits w) l' -> length l = length l' -> Z.lor (positional w l) (positional w l') = positional w (zip_with Z.lor l l').
Proof. intros. apply (positional_bitop Z.lor orb); try done. intros. apply Z.lor_spec. Qed.
Lemma positional_add w l l' : length l = length l' -> positional w l + positional w l' = positional w (zip_with Z.add l l').
Proof. revert l'. induction l as [|x l IH]; intros [|y l'] Hl; try discriminate Hl; [done|]. cbn [positional zip_with]. rewrite <- IH by (by injection Hl). lia. Qed.
Lemma positional_sub w l l' : length l = length l' -> positional w l - positional w l' = positional w (zip_with Z.sub l l').
Proof. revert l'. induction l as [|x l IH]; intros [|y l'] Hl; try discriminate Hl; [done|]. cbn [positional zip_with]. rewrite <- IH by (by injection Hl). lia. Qed.
Lemma zip_with_ext_fits {w} (f g : Z -> Z -> Z) l l' : Forall (fits w) l -> Forall (fits w) l' -> (forall x y, fits w x -> fits w y -> f x y = g x y) -> zip_with f l l' = zip_with g l l'.
Proof. intros Hl. revert l'. induction Hl as [|x l Hx Hl IH]; intros l' Hl' Hfg; [done|]. destruct Hl' as [|y l' Hy Hl']; [done|]. cbn. by rewrite Hfg, IH. Qed.
Lemma zip_with_fits w (f : Z -> Z -> Z) l l' : Forall (fits w) l -> Forall (fits w) l' -> (forall x y, fits w x -> fits w y -> fits w (f x y)) -> Forall (fits w) (zip_with f l l').
Proof. intros Hl. revert l'. induction Hl as [|x l Hx Hl IH]; intros l' Hl' Hf; [constructor|]. destruct Hl' as [|y l' Hy Hl']; constructor; [by apply Hf|by apply IH]. Qed.
Lemma fits_lxor w x y : 0 <= w -> fits w x -> fits w y -> fits w (Z.lxor x y).
Proof.
  intros Hw. rewrite !fits_bits by done. intros [H0 H1] [H2 H3]. split; [apply Z.lxor_nonneg; tauto|]. intros i Hi. by rewrite Z.lxor_spec, H1, H3.
Qed.
(** One lane of the addition that keeps the sign bits apart. *)
Lemma toggle w s : 1 <= w -> fits w s -> Z.lxor s (2 ^ (w - 1)) = if s <? 2 ^ (w - 1) then s + 2 ^ (w - 1) else s - 2 ^ (w - 1).
Proof.
  intros Hw Hs. destruct (pow_half w Hw) as [HP HP0]. unfold fits in Hs. pose proof (msb_spec w s Hw Hs) as Hb.
  assert (Z.lxor s (2 ^ (w - 1)) = if Z.testbit s (w - 1) then s - 2 ^ (w - 1) else s + 2 ^ (w - 1)) as ->.
  { destruct (Z.testbit s (w - 1)) eqn:E.
    - assert (Z.ldiff (2 ^ (w - 1)) s = 0) as H0.
      { apply Z.bits_inj'. intros j Hj. rewrite Z.ldiff_spec, Z.pow2_bits_eqb, Z.bits_0 by lia. destruct (Z.eqb_spec (w - 1) j) as [<-|]; [by rewrite E|done]. }
      rewrite (Z.sub_nocarry_ldiff s _ H0). apply Z.bits_inj'. intros i Hi. rewrite Z.lxor_spec, Z.ldiff_spec, Z.pow2_bits_eqb by lia.
      destruct (Z.eqb_spec (w - 1) i) as [<-|]; [by rewrite E|by destruct (Z.testbit s i)].
    - symmetry. apply Z.add_nocarry_lxor. apply Z.bits_inj'. intros j Hj. rewrite Z.land_spec, Z.pow2_bits_eqb, Z.bits_0 by lia.
      destruct (Z.eqb_spec (w - 1) j) as [<-|]; [by rewrite E|apply andb_false_r]. }
  rewrite Hb. destruct (Z.leb_spec (2 ^ (w - 1)) s), (Z.ltb_spec s (2 ^ (w - 1))); lia.
Qed.
Lemma low_part w x : 1 <= w -> fits w x -> Z.land x (2 ^ (w - 1) - 1) = if Z.testbit x (w - 1) then x - 2 ^ (w - 1) else x.
Proof.
  intros Hw Hx. destruct (pow_half w Hw) as [HP HP0]. rewrite msb_spec by done. rewrite Z.sub_1_r, <- Z.ones_equiv, Z.land_ones by lia. unfold fits in Hx.
  destruct (Z.leb_spec (2 ^ (w - 1)) x); [symmetry; apply (Z.mod_unique_pos _ _ 1); lia|apply Z.mod_small; lia].
Qed.
Lemma sign_part w x : 1 <= w -> fits w x -> Z.land x (2 ^ (w - 1)) = if Z.testbit x (w - 1) then 2 ^ (w - 1) else 0.
Proof.
  intros Hw Hx. apply Z.bits_inj'. intros i Hi. rewrite Z.land_spec, Z.pow2_bits_eqb by lia. destruct (Z.eqb_spec (w - 1) i) as [<-|Hn].
  - destruct (Z.testbit x (w - 1)); [by rewrite Z.pow2_bits_true by lia|by rewrite Z.bits_0].
  - rewrite andb_false_r. destruct (Z.testbit x (w - 1)); [by rewrite Z.pow2_bits_false by lia|by rewrite Z.bits_0].
Qed.
Lemma swar_add_lane w x y : 1 <= w -> fits w x -> fits w y -> let lo z := Z.land z (2 ^ (w - 1) - 1) in
  fits w (lo x + lo y) /\ Z.lxor (lo x + lo y) (Z.land (Z.lxor x y) (2 ^ (w - 1))) = wrap w (x + y).
Proof.
  intros Hw Hx Hy. cbv zeta. destruct (pow_half w Hw) as [HP HP0]. rewrite !low_part by done. rewrite sign_part by (try apply fits_lxor; done || lia).
  rewrite Z.lxor_spec. rewrite wrap_plus by done. rewrite !msb_spec by done. unfold fits in *.
  assert (forall s, fits w s -> (if true then Z.lxor s (2 ^ (w - 1)) else 0) = if s <? 2 ^ (w - 1) then s + 2 ^ (w - 1) else s - 2 ^ (w - 1)) as Ht by (intros; by apply toggle).
  destruct (Z.leb_spec (2 ^ (w - 1)) x), (Z.leb_spec (2 ^ (w - 1)) y); cbn [xorb]; rewrite ?Z.lxor_0_r; (split; [lia|]);
    rewrite ?toggle by (unfold fits; lia); repeat match goal with |- context [?a <? ?b] => destruct (Z.ltb_spec a b) end; lia.
Qed.
Lemma swar_sub_lane w x y : 1 <= w -> fits w x -> fits w y -> let s := Z.lor x (2 ^ (w - 1)) - Z.land y (2 ^ (w - 1) - 1) in
  fits w s /\ Z.lxor s (Z.land (Z.lxor x (2 ^ w - 1 - y)) (2 ^ (w - 1))) = wrap w (x - y).
Proof.
  intros Hw Hx Hy. cbv zeta. destruct (pow_half w Hw) as [HP HP0]. assert (fits w (2 ^ w - 1 - y)) as Hn by (unfold fits in *; lia).
  rewrite low_part by done. rewrite sign_part by (try apply fits_lxor; done || lia). rewrite Z.lxor_spec. rewrite wrap_minus by done.
  assert (Z.lor x (2 ^ (w - 1)) = if Z.testbit x (w - 1) then x else x + 2 ^ (w - 1)) as ->.
  { destruct (Z.testbit x (w - 1)) eqn:E.
    - apply Z.bits_inj'. intros i Hi. rewrite Z.lor_spec, Z.pow2_bits_eqb by lia. destruct (Z.eqb_spec (w - 1) i) as [<-|]; [by rewrite E|apply orb_false_r].
    - rewrite <- Z.lxor_lor, <- Z.add_nocarry_lxor; [done| |]; apply Z.bits_inj'; intros i Hi; rewrite Z.land_spec, Z.pow2_bits_eqb, Z.bits_0 by lia;
        (destruct (Z.eqb_spec (w - 1) i) as [<-|]; [by rewrite E|apply andb_false_r]). }
  rewrite !msb_spec by done. unfold fits in *.
  destruct (Z.leb_spec (2 ^ (w - 1)) x), (Z.leb_spec (2 ^ (w - 1)) y), (Z.leb_spec (2 ^ (w - 1)) (2 ^ w - 1 - y)); try lia; cbn [xorb]; rewrite ?Z.lxor_0_r; (split; [lia|]);
    rewrite ?toggle by (unfold fits; lia); repeat match goal with |- context [?a <? ?b] => destruct (Z.ltb_spec a b) | |- context [?a <=? ?b] => destruct (Z.leb_spec a b) end; lia.
Qed.
(** The masks of the code, as digits. *)
Definition signs (w : Z) (n : nat) : list Z := replicate n (2 ^ (w - 1)).
Definition lows (w : Z) (n : nat) : list Z := replicate n (2 ^ (w - 1) - 1).
Lemma signs_fits w n : 1 <= w -> Forall (fits w) (signs w n) /\ Forall (fits w) (lows w n).
Proof. intros Hw. destruct (pow_half w Hw) as [HP HP0]. unfold signs, lows. split; apply Forall_replicate; unfold fits; lia. Qed.
Lemma zip_with_const (f : Z -> Z -> Z) l n c : length l = n -> zip_with f l (replicate n c) = List.map (fun x => f x c) l.
Proof. intros <-. induction l as [|x l IH]; [done|]. cbn. by rewrite IH. Qed.
Lemma zip_with_map (f g h : Z -> Z -> Z) c d l l' : zip_with f (List.map (fun x => g x c) l) (List.map (fun x => h x d) l') = zip_with (fun x y => f (g x c) (h y d)) l l'.
Proof. revert l'. induction l as [|x l IH]; intros [|y l']; cbn; [done..|]. by rewrite IH. Qed.
Lemma map_zip_with (k : Z -> Z) (f : Z -> Z -> Z) l l' : List.map k (zip_with f l l') = zip_with (fun x y => k (f x y)) l l'.
Proof. revert l'. induction l as [|x l IH]; intros [|y l']; cbn; [done..|]. by rewrite IH. Qed.
Lemma zip_with_zip_with (f g h : Z -> Z -> Z) l l' : zip_with f (zip_with g l l') (zip_with h l l') = zip_with (fun x y => f (g x y) (h x y)) l l'.
Proof. revert l'. induction l as [|x l IH]; intros [|y l']; cbn; [done..|]. by rewrite IH. Qed.
Lemma swar_add w n a b : 1 <= w -> fits (w * Z.of_nat n) a -> fits (w * Z.of_nat n) b ->
  let A := NEON_UNPACK (mkV false w n) a in let B := NEON_UNPACK (mkV false w n) b in
  let s := Z.land a (positional w (lows w n)) + Z.land b (positional w (lows w n)) in
  fits (w * Z.of_nat n) s /\ Z.lxor s (Z.land (Z.lxor a b) (positional w (signs w n))) = positional w (zip_with (fun x y => wrap w (x + y)) A B).
Proof.
  intros Hw Ha Hb A B s. destruct (unpack_fits false w n a ltac:(lia)) as [FA LA], (unpack_fits false w n b ltac:(lia)) as [FB LB]. destruct (signs_fits w n Hw) as [FS FL].
  assert (length (lows w n) = n /\ length (signs w n) = n) as [LL LS] by (split; apply length_replicate). fold A in FA, LA. fold B in FB, LB.
  assert (s = positional w (zip_with (fun x y => Z.land x (2 ^ (w - 1) - 1) + Z.land y (2 ^ (w - 1) - 1)) A B)) as ->.
  { unfold s. rewrite (unpack_positional w n a), (unpack_positional w n b) by (done || lia). fold A B. rewrite !positional_land by (done || lia || congruence).
    rewrite positional_add by (rewrite !length_zip_with; lia). f_equal. unfold lows. rewrite !zip_with_const by done. apply zip_with_map. }
  set (S := zip_with _ A B). assert (Forall (fits w) S) as FS' by (apply zip_with_fits; [done..|]; intros; by apply swar_add_lane).
  assert (length S = n) as LS' by (unfold S; rewrite length_zip_with; lia). split; [rewrite <- LS'; apply positional_fits; [lia|done]|].
  rewrite (unpack_positional w n a), (unpack_positional w n b) at 1 by (done || lia). fold A B. rewrite positional_lxor by (done || lia).
  assert (Forall (fits w) (zip_with Z.lxor A B)) as FX by (apply zip_with_fits; [done..|]; intros; apply fits_lxor; done || lia). assert (length (zip_with Z.lxor A B) = n) as LX by (rewrite length_zip_with; lia).
  rewrite positional_land, positional_lxor; try done; try lia.
  - f_equal. unfold S, signs. rewrite zip_with_const by done. rewrite map_zip_with, zip_with_zip_with. apply (zip_with_ext_fits (w := w)); [done..|]. intros. by apply swar_add_lane.
  - apply zip_with_fits; [done..|]. intros. by apply fits_land; [lia|..].
  - rewrite length_zip_with. lia.
Qed.
Lemma positional_ones w n : 0 <= w -> 2 ^ (w * Z.of_nat n) - 1 = positional w (replicate n (2 ^ w - 1)).
Proof.
  intros Hw. induction n as [|n IH]; [by rewrite Z.mul_0_r|]. cbn [replicate positional]. rewrite <- IH. rewrite Nat2Z.inj_succ, Z.mul_succ_r, Z.pow_add_r by nia. lia.
Qed.
Lemma zip_with_complement c n l : length l = n -> zip_with Z.sub (replicate n c) l = List.map (fun y => c - y) l.
Proof. intros <-. induction l as [|y l IH]; [done|]. cbn. by rewrite IH. Qed.
Lemma zip_with_map_r (f : Z -> Z -> Z) (k : Z -> Z) l l' : zip_with f l (List.map k l') = zip_with (fun x y => f x (k y)) l l'.
Proof. revert l'. induction l as [|x l IH]; intros [|y l']; cbn; [done..|]. by rewrite IH. Qed.
Lemma swar_sub w n a b : 1 <= w -> fits (w * Z.of_nat n) a -> fits (w * Z.of_nat n) b ->
  let A := NEON_UNPACK (mkV false w n) a in let B := NEON_UNPACK (mkV false w n) b in
  let s := Z.lor a (positional w (signs w n)) - Z.land b (positional w (lows w n)) in
  fits (w * Z.of_nat n) s /\
  Z.lxor s (Z.land (Z.lxor a (2 ^ (w * Z.of_nat n) - 1 - b)) (positional w (signs w n))) = positional w (zip_with (fun x y => wrap w (x - y)) A B).
Proof.
  intros Hw Ha Hb A B s. destruct (unpack_fits false w n a ltac:(lia)) as [FA LA], (unpack_fits false w n b ltac:(lia)) as [FB LB]. destruct (signs_fits w n Hw) as [FS FL].
  assert (length (lows w n) = n /\ length (signs w n) = n) as [LL LS] by (split; apply length_replicate). fold A in FA, LA. fold B in FB, LB.
  assert (s = positional w (zip_with (fun x y => Z.lor x (2 ^ (w - 1)) - Z.land y (2 ^ (w - 1) - 1)) A B)) as ->.
  { unfold s. rewrite (unpack_positional w n a), (unpack_positional w n b) by (done || lia). fold A B. rewrite positional_land, positional_or by (done || lia || congruence).
    rewrite positional_sub by (rewrite !length_zip_with; lia). f_equal. unfold lows, signs. rewrite !zip_with_const by done. apply zip_with_map. }
  set (S := zip_with _ A B). assert (Forall (fits w) S) as FS' by (apply zip_with_fits; [done..|]; intros; by apply swar_sub_lane).
  assert (length S = n) as LS' by (unfold S; rewrite length_zip_with; lia). split; [rewrite <- LS'; apply positional_fits; [lia|done]|].
  set (N := List.map (fun y => 2 ^ w - 1 - y) B). assert (Forall (fits w) N) as FN by (apply List.Forall_map; eapply List.Forall_impl; [|exact FB]; intros y H; unfold fits in *; lia).
  assert (length N = n) as LN by (unfold N; rewrite length_map; lia).
  assert (2 ^ (w * Z.of_nat n) - 1 - b = positional w N) as ->.
  { rewrite (unpack_positional w n b) by (done || lia). fold B. rewrite positional_ones by lia. rewrite positional_sub by (rewrite length_replicate; lia). f_equal.
    by apply zip_with_complement. }
  rewrite (unpack_positional w n a) by (done || lia). fold A. rewrite positional_lxor by (done || lia).
  assert (Forall (fits w) (zip_with Z.lxor A N)) as FX by (apply zip_with_fits; [done..|]; intros; apply fits_lxor; done || lia). assert (length (zip_with Z.lxor A N) = n) as LX by (rewrite length_zip_with; lia).
  rewrite positional_land, positional_lxor; try done; try lia.
  - f_equal. unfold S, signs. rewrite zip_with_const by done. unfold N. replace (zip_with Z.lxor A (List.map (fun y => 2 ^ w - 1 - y) B)) with (zip_with (fun x y => Z.lxor x (2 ^ w - 1 - y)) A B).
    + rewrite map_zip_with, zip_with_zip_with. apply (zip_with_ext_fits (w := w)); [done..|]. intros. by apply swar_sub_lane.
    + symmetry. apply zip_with_map_r.
  - apply zip_with_fits; [done..|]. intros. by apply fits_land; [lia|..].
  - rewrite length_zip_with. lia.
Qed.
(** Lanewise operations of the code that pack what they compute, without NEON_VOP. *)
Definition vmap2 (t : vtype) (f : Z -> Z -> Z) (a b : Z) : Z := NEON_PACK t (zip_with f (NEON_UNPACK t a) (NEON_UNPACK t b)).
Lemma vmap2_wrap t f a b : positional (vbits t) (zip_with (fun x y => wrap (vbits t) (f x y)) (NEON_UNPACK t a) (NEON_UNPACK t b)) = vmap2 t f a b.
Proof. unfold vmap2, NEON_PACK. by rewrite map_zip_with. Qed.
Lemma neon_add_u8_lanes a b : fits 32 a -> fits 32 b -> neon_add_u8 a b = vmap2 neon_u8 Z.add a b.
Proof.
  intros Ha Hb. destruct (swar_add 8 4 a b ltac:(lia) Ha Hb) as [Hf He]. unfold neon_add_u8. cbv zeta. rewrite <- vmap2_wrap. cbn [vbits neon_u8]. etransitivity; [|exact He].
  change (not32 0x80808080) with (positional 8 (lows 8 4)). change 0x80808080 with (positional 8 (signs 8 4)). by rewrite (wrap_fits 32) by exact Hf.
Qed.
Lemma neon_add_u16_lanes a b : fits 32 a -> fits 32 b -> neon_add_u16 a b = vmap2 neon_u16 Z.add a b.
Proof.
  intros Ha Hb. destruct (swar_add 16 2 a b ltac:(lia) Ha Hb) as [Hf He]. unfold neon_add_u16. cbv zeta. rewrite <- vmap2_wrap. cbn [vbits neon_u16]. etransitivity; [|exact He].
  change (not32 0x80008000) with (positional 16 (lows 16 2)). change 0x80008000 with (positional 16 (signs 16 2)). by rewrite (wrap_fits 32) by exact Hf.
Qed.
Lemma addl_mask_lanes w n m a b : 1 <= w -> w * Z.of_nat n = 64 -> m = positional w (signs w n) -> not64 m = positional w (lows w n) -> fits 64 a -> fits 64 b ->
  addl_mask m a b = vmap2 (mkV false w n) Z.add a b.
Proof.
  intros Hw Hwn Hm Hn Ha Hb. rewrite <- Hwn in Ha, Hb. destruct (swar_add w n a b Hw Ha Hb) as [Hf He]. rewrite Hwn in Hf. unfold addl_mask. cbv zeta. rewrite <- vmap2_wrap.
  cbn [vbits]. etransitivity; [|exact He]. rewrite Hn, Hm. by rewrite (wrap_fits 64) by exact Hf.
Qed.
Lemma subl_mask_lanes w n m a b : 1 <= w -> w * Z.of_nat n = 64 -> m = positional w (signs w n) -> not64 m = positional w (lows w n) -> fits 64 a -> fits 64 b ->
  subl_mask m a b = vmap2 (mkV false w n) Z.sub a b.
Proof.
  intros Hw Hwn Hm Hn Ha Hb. pose proof (not64_val b Hb) as Hnb. rewrite <- Hwn in Ha, Hb. destruct (swar_sub w n a b Hw Ha Hb) as [Hf He]. rewrite Hwn in Hf. unfold subl_mask. cbv zeta. rewrite <- vmap2_wrap.
  cbn [vbits]. etransitivity; [|exact He]. rewrite Hn, Hm, Hnb, Hwn. by rewrite (wrap_fits 64) by exact Hf.
Qed.
(** *** The carry-less product *)
(** The sum over GF(2) of the [y * X^i] for the bits i of [x] below [n]. *)
Definition poly (n : nat) (x y : Z) : Z :=
  fold_right Z.lxor 0 (List.map (fun i => if Z.testbit x (Z.of_nat i) then Z.shiftl y (Z.of_nat i) else 0) (seq 0 n)).
Definition clmul (x y : Z) : Z := poly 8 x y.
Lemma rd_map_default (f : Z -> Z) l j : f 0 = 0 -> default 0 (rd (List.map f l) j) = f (default 0 (rd l j)).
Proof. intros H0. unfold rd. destruct (0 <=? j); [|done]. rewrite list_lookup_fmap. by destruct (l !! Z.to_nat j). Qed.
Lemma rd_replicate n (m : Z) j : 0 <= j -> default 0 (rd (replicate n m) j) = if j <? Z.of_nat n then m else 0.
Proof.
  intros Hj. unfold rd. rewrite (proj2 (Z.leb_le 0 j)) by done. destruct (Z.ltb_spec j (Z.of_nat n)).
  - by rewrite lookup_replicate_2 by lia.
  - rewrite lookup_ge_None_2; [done|]. rewrite length_replicate. lia.
Qed.
Lemma rd_fits w l j : 0 <= w -> Forall (fits w) l -> fits w (default 0 (rd l j)).
Proof. intros Hw Hl. destruct (rd l j) as [v|] eqn:E; [by eapply rd_Forall|]. unfold fits. cbn. pose proof (Z.pow_pos_nonneg 2 w). lia. Qed.
Lemma rd_beyond l j : Z.of_nat (length l) <= j -> default 0 (rd l j) = 0.
Proof. intros Hj. destruct (rd l j) as [v|] eqn:E; [|done]. apply rd_bound in E. lia. Qed.
(** Shifting a word right by [k] and masking the bits that cross a lane shifts each lane. *)
Lemma lanes_shiftr w k m l : 0 < w -> 0 <= k <= w -> fits (w - k) m -> Forall (fits w) l ->
  Z.land (Z.shiftr (positional w l) k) (positional w (replicate (length l) m)) = positional w (List.map (fun b => Z.land (Z.shiftr b k) m) l).
Proof.
  intros Hw Hk Hm Hl. assert (fits w m) as Hm' by (eapply fits_le; [|exact Hm]; lia).
  assert (Forall (fits w) (List.map (fun b => Z.land (Z.shiftr b k) m) l)) as Hl'.
  { apply List.Forall_map. eapply List.Forall_impl; [|exact Hl]. intros b Hb. apply fits_land; [lia| |done]. apply fits_shiftr; lia || done. }
  apply Z.bits_inj'. intros i Hi. rewrite Z.land_spec, Z.shiftr_spec, !positional_testbit by (done || lia || by apply Forall_replicate).
  pose proof (Z.div_pos i w Hi Hw). pose proof (Z.div_mod i w ltac:(lia)) as Hd. pose proof (Z.mod_pos_bound i w Hw). rewrite rd_replicate by done. rewrite rd_map_default by (by rewrite Z.shiftr_0_l).
  destruct (Z.ltb_spec (i / w) (Z.of_nat (length l))).
  - rewrite Z.land_spec, Z.shiftr_spec by lia. destruct (Z.lt_ge_cases (i mod w) (w - k)).
    + replace ((i + k) / w) with (i / w) by (apply (Z.div_unique_pos _ _ _ (i mod w + k)); lia). by replace ((i + k) mod w) with (i mod w + k) by (apply (Z.mod_unique_pos _ _ (i / w)); lia).
    + by rewrite (fits_testbit (w - k) m), !andb_false_r by (done || lia).
  - rewrite Z.bits_0, andb_false_r. rewrite rd_beyond by done. by rewrite Z.shiftr_0_l, Z.land_0_l, Z.bits_0.
Qed.
Lemma lanes_shiftl w k l : 0 < w -> 0 <= k <= w -> Forall (fits w) l ->
  Z.land (wrap (w * Z.of_nat (length l)) (Z.shiftl (positional w l) k)) (positional w (replicate (length l) (wrap w (Z.shiftl (2 ^ w - 1) k)))) =
  positional w (List.map (fun b => wrap w (Z.shiftl b k)) l).
Proof.
  intros Hw Hk Hl. assert (Forall (fits w) (List.map (fun b => wrap w (Z.shiftl b k)) l)) as Hl'.
  { apply List.Forall_map, List.Forall_forall. intros b _. apply fits_wrap. lia. }
  apply Z.bits_inj'. intros i Hi. pose proof (Z.div_pos i w Hi Hw). pose proof (Z.div_mod i w ltac:(lia)) as Hd. pose proof (Z.mod_pos_bound i w Hw).
  rewrite Z.land_spec, wrap_testbit, Z.shiftl_spec by lia. rewrite (positional_testbit w (List.map _ _)), (positional_testbit w (replicate _ _)) by (done || lia || by apply Forall_replicate, fits_wrap; lia).
  rewrite rd_replicate by done. rewrite (rd_map_default (fun b => wrap w (Z.shiftl b k))) by (by rewrite Z.shiftl_0_l).
  rewrite wrap_testbit, Z.shiftl_spec by lia. rewrite (proj2 (Z.ltb_lt (i mod w) w)) by lia. cbn [andb].
  destruct (Z.ltb_spec (i / w) (Z.of_nat (length l))) as [Hin|Hin].
  - rewrite (proj2 (Z.ltb_lt i _)) by nia. cbn [andb]. rewrite wrap_testbit, Z.shiftl_spec by lia. rewrite (proj2 (Z.ltb_lt (i mod w) w)) by lia. cbn [andb]. destruct (Z.lt_ge_cases (i mod w) k).
    + rewrite !(Z.testbit_neg_r _ (i mod w - k)) by lia. apply andb_false_r.
    + rewrite positional_testbit by (done || lia). replace ((i - k) / w) with (i / w) by (apply (Z.div_unique_pos _ _ _ (i mod w - k)); lia).
      replace ((i - k) mod w) with (i mod w - k) by (apply (Z.mod_unique_pos _ _ (i / w)); lia).
      rewrite Z.sub_1_r, <- Z.ones_equiv, Z.testbit_ones_nonneg by lia. rewrite (proj2 (Z.ltb_lt _ w)) by lia. apply andb_true_r.
  - rewrite Z.bits_0, andb_false_r. rewrite rd_beyond by done. by rewrite Z.bits_0.
Qed.
Lemma fold_lxor_map (f : Z -> Z) l : f 0 = 0 -> (forall x y, f (Z.lxor x y) = Z.lxor (f x) (f y)) -> f (fold_right Z.lxor 0 l) = fold_right Z.lxor 0 (List.map f l).
Proof. intros H0 Hf. induction l as [|x l IH]; [done|]. cbn. by rewrite Hf, IH. Qed.
Lemma wrap_lxor w x y : 0 <= w -> wrap w (Z.lxor x y) = Z.lxor (wrap w x) (wrap w y).
Proof. intros Hw. apply Z.bits_inj'. intros i Hi. rewrite Z.lxor_spec, !wrap_testbit, Z.lxor_spec by done. by destruct (i <? w). Qed.
Lemma wrap_shiftl w x k : 0 <= w -> 0 <= k -> wrap w (Z.shiftl (wrap w x) k) = wrap w (Z.shiftl x k).
Proof.
  intros Hw Hk. apply Z.bits_inj'. intros i Hi. rewrite !wrap_testbit, !Z.shiftl_spec, wrap_testbit by lia. destruct (Z.ltb_spec i w), (Z.ltb_spec (i - k) w); lia || done.
Qed.
Lemma poly_wrap n x y : wrap 8 (poly n x (wrap 8 y)) = wrap 8 (poly n x y).
Proof.
  unfold poly. rewrite !(fold_lxor_map (wrap 8)) by (done || intros; by apply wrap_lxor). f_equal. rewrite !List.map_map. apply map_ext. intros i.
  destruct (Z.testbit x (Z.of_nat i)); [apply wrap_shiftl; lia|done].
Qed.
Lemma poly_step n x y : poly (S n) x y = Z.lxor (if Z.testbit x 0 then y else 0) (poly n (Z.shiftr x 1) (Z.shiftl y 1)).
Proof.
  unfold poly. cbn [seq List.map fold_right]. do 2 f_equal. rewrite <- seq_shift, List.map_map. apply map_ext. intros i.
  rewrite Nat2Z.inj_succ. unfold Z.succ. rewrite Z.shiftr_spec, Z.shiftl_shiftl by lia. by rewrite (Z.add_comm 1).
Qed.
Lemma poly_0 n y : poly n 0 y = 0.
Proof. unfold poly. induction (seq 0 n) as [|i l IH]; [done|]. cbn. by rewrite Z.bits_0, IH. Qed.
#[local] Ltac all_fits := repeat apply Forall_cons_2; try apply Forall_nil_2; try done.
(** One turn of the loop, on the four bytes. *)
Definition p8_keep (x y : Z) : Z := if Z.testbit x 0 then y else 0.
Lemma p8_mask_bytes x0 x1 x2 x3 : fits 8 x0 -> fits 8 x1 -> fits 8 x2 -> fits 8 x3 ->
  p8_mask (positional 8 [x0; x1; x2; x3]) = positional 8 (List.map (fun x => p8_keep x 0xff) [x0; x1; x2; x3]).
Proof.
  intros H0 H1 H2 H3. unfold p8_mask. change 1 with (bit 0) at 1. rewrite !truth_land_bit, !positional_testbit by (lia || by all_fits).
  change (0 / 8) with 0. change (8 / 8) with 1. change (16 / 8) with 2. change (24 / 8) with 3. change (0 mod 8) with 0. change (8 mod 8) with 0. change (16 mod 8) with 0. change (24 mod 8) with 0.
  cbn [List.map]. unfold p8_keep.
  change (default 0 (rd [x0; x1; x2; x3] 0)) with x0. change (default 0 (rd [x0; x1; x2; x3] 1)) with x1.
  change (default 0 (rd [x0; x1; x2; x3] 2)) with x2. change (default 0 (rd [x0; x1; x2; x3] 3)) with x3.
  by destruct (Z.testbit x0 0), (Z.testbit x1 0), (Z.testbit x2 0), (Z.testbit x3 0).
Qed.
Lemma fits8_shl y : fits 8 (wrap 8 (Z.shiftl y 1)).
Proof. by apply fits_wrap. Qed.
Lemma land_byte y x : fits 8 y -> Z.land y (p8_keep x 0xff) = p8_keep x y.
Proof. intros Hy. unfold p8_keep. destruct (Z.testbit x 0); [|apply Z.land_0_r]. change 0xff with (Z.ones 8). rewrite Z.land_ones by lia. by apply (wrap_fits 8). Qed.
Lemma land_7f x : fits 8 x -> Z.land (Z.shiftr x 1) 0x7f = Z.shiftr x 1.
Proof.
  intros Hx. change 0x7f with (Z.ones 7). rewrite Z.land_ones by lia. apply Z.mod_small. unfold fits in Hx. rewrite Z.shiftr_div_pow2 by lia.
  split; [apply Z.div_pos; lia|apply Z.div_lt_upper_bound; lia].
Qed.
Definition p8_step (r x y : Z) : Z := Z.lxor r (p8_keep x y).
Lemma p8_turn fuel x0 x1 x2 x3 y0 y1 y2 y3 r0 r1 r2 r3 :
  fits 8 x0 -> fits 8 x1 -> fits 8 x2 -> fits 8 x3 -> fits 8 y0 -> fits 8 y1 -> fits 8 y2 -> fits 8 y3 ->
  fits 8 r0 -> fits 8 r1 -> fits 8 r2 -> fits 8 r3 ->
  truth (positional 8 [x0; x1; x2; x3]) = true ->
  p8_loop (S fuel) (positional 8 [x0; x1; x2; x3]) (positional 8 [y0; y1; y2; y3]) (positional 8 [r0; r1; r2; r3]) =
  p8_loop fuel (positional 8 (List.map (fun x => Z.shiftr x 1) [x0; x1; x2; x3])) (positional 8 (List.map (fun y => wrap 8 (Z.shiftl y 1)) [y0; y1; y2; y3]))
    (positional 8 [p8_step r0 x0 y0; p8_step r1 x1 y1; p8_step r2 x2 y2; p8_step r3 x3 y3]).
Proof.
  intros. cbn [p8_loop]. rewrite H11. f_equal.
  - change 0x7f7f7f7f with (positional 8 (replicate (length [x0; x1; x2; x3]) 0x7f)). rewrite lanes_shiftr by (lia || (unfold fits; lia) || by all_fits).
    cbn [List.map]. by rewrite !land_7f.
  - change 0xfefefefe with (positional 8 (replicate (length [y0; y1; y2; y3]) (wrap 8 (Z.shiftl (2 ^ 8 - 1) 1)))). change 32 with (8 * Z.of_nat (length [y0; y1; y2; y3])).
    apply lanes_shiftl; [lia..|by all_fits].
  - rewrite p8_mask_bytes by done. assert (Forall (fits 8) (List.map (fun x => p8_keep x 0xff) [x0; x1; x2; x3])) as HF.
    { apply List.Forall_map, List.Forall_forall. intros x _. unfold p8_keep, fits. destruct (Z.testbit x 0); lia. }
    rewrite positional_land by (lia || done || by all_fits). cbn [List.map zip_with]. rewrite !land_byte by done.
    rewrite positional_lxor; [done|lia|by all_fits| |done]. repeat apply Forall_cons_2; try apply Forall_nil_2; unfold p8_keep; destruct (Z.testbit _ 0); done || (unfold fits; lia).
Qed.
Definition p8_out (n : nat) (r x y : Z) : Z := Z.lxor r (wrap 8 (poly n x y)).
Lemma p8_out_step n r x y : fits 8 y -> p8_out n (p8_step r x y) (Z.shiftr x 1) (wrap 8 (Z.shiftl y 1)) = p8_out (S n) r x y.
Proof.
  intros Hy. unfold p8_out, p8_step. rewrite poly_wrap, poly_step, wrap_lxor, Z.lxor_assoc by done. unfold p8_keep. do 2 f_equal.
  destruct (Z.testbit x 0); [by rewrite wrap_fits|done].
Qed.
Lemma shiftr1_fits n x : fits (Z.of_nat (S n)) x -> fits (Z.of_nat n) (Z.shiftr x 1).
Proof.
  unfold fits. intros Hx. rewrite Z.shiftr_div_pow2 by lia. rewrite Nat2Z.inj_succ, Z.pow_succ_r in Hx by lia. change (2 ^ 1) with 2.
  split; [apply Z.div_pos; lia|apply Z.div_lt_upper_bound; lia].
Qed.
Lemma p8_step_fits r x y : fits 8 r -> fits 8 y -> fits 8 (p8_step r x y).
Proof. intros Hr Hy. unfold p8_step, p8_keep. apply fits_lxor; [lia|done|]. destruct (Z.testbit x 0); [done|unfold fits; lia]. Qed.
Lemma fits_zero x : fits 0 x -> x = 0.
Proof. unfold fits. change (2 ^ 0) with 1. lia. Qed.
Lemma p8_out_0 n r y : p8_out n r 0 y = r.
Proof. unfold p8_out. rewrite poly_0. apply Z.lxor_0_r. Qed.
Lemma p8_done n x0 x1 x2 x3 y0 y1 y2 y3 r0 r1 r2 r3 : fits 8 x0 -> fits 8 x1 -> fits 8 x2 -> fits 8 x3 ->
  truth (positional 8 [x0; x1; x2; x3]) = false ->
  positional 8 [r0; r1; r2; r3] = positional 8 [p8_out n r0 x0 y0; p8_out n r1 x1 y1; p8_out n r2 x2 y2; p8_out n r3 x3 y3].
Proof.
  intros F0 F1 F2 F3 Ht. apply truth_false in Ht. cbn [positional] in Ht. unfold fits in *. change (2 ^ 8) with 256 in *.
  assert (x0 = 0 /\ x1 = 0 /\ x2 = 0 /\ x3 = 0) as (-> & -> & -> & ->) by lia. by rewrite !p8_out_0.
Qed.
Lemma p8_loop_spec n : (n <= 8)%nat -> forall x0 x1 x2 x3 y0 y1 y2 y3 r0 r1 r2 r3,
  fits (Z.of_nat n) x0 -> fits (Z.of_nat n) x1 -> fits (Z.of_nat n) x2 -> fits (Z.of_nat n) x3 ->
  fits 8 y0 -> fits 8 y1 -> fits 8 y2 -> fits 8 y3 -> fits 8 r0 -> fits 8 r1 -> fits 8 r2 -> fits 8 r3 ->
  p8_loop n (positional 8 [x0; x1; x2; x3]) (positional 8 [y0; y1; y2; y3]) (positional 8 [r0; r1; r2; r3]) =
  Some (positional 8 [p8_out n r0 x0 y0; p8_out n r1 x1 y1; p8_out n r2 x2 y2; p8_out n r3 x3 y3]).
Proof.
  induction n as [|n IH]; intros Hn x0 x1 x2 x3 y0 y1 y2 y3 r0 r1 r2 r3 X0 X1 X2 X3 Y0 Y1 Y2 Y3 R0 R1 R2 R3.
  - apply fits_zero in X0, X1, X2, X3. subst. by rewrite !p8_out_0.
  - assert (forall x, fits (Z.of_nat (S n)) x -> fits 8 x) as H8 by (intros x Hx; eapply fits_le; [|exact Hx]; lia).
    destruct (truth (positional 8 [x0; x1; x2; x3])) eqn:Ht.
    + rewrite p8_turn by auto. cbn [List.map]. rewrite IH by (auto using shiftr1_fits, fits8_shl, p8_step_fits; lia). by rewrite !p8_out_step.
    + unfold p8_loop. rewrite Ht. f_equal. by apply p8_done; auto.
Qed.
Lemma unpack_u8 a : fits 32 a -> a = positional 8 (NEON_UNPACK neon_u8 a).
Proof. apply (unpack_positional 8 4); lia. Qed.
Lemma neon_mul_p8_lanes a b : fits 32 a -> fits 32 b -> neon_mul_p8 a b = Some (vmap2 neon_u8 clmul a b).
Proof.
  intros Ha Hb. unfold neon_mul_p8, vmap2, NEON_PACK. rewrite (unpack_u8 a Ha), (unpack_u8 b Hb) at 1. change 0 with (positional 8 [0; 0; 0; 0]) at 1.
  unfold NEON_UNPACK. cbn [vcount neon_u8 vbits seq List.map zip_with]. assert (forall x i, fits 8 (lane_of neon_u8 x i)) as HF by (intros; by apply fits_wrap).
  rewrite (p8_loop_spec 8) by (exact (HF _ _) || lia || (unfold fits; lia)). unfold p8_out. by rewrite !Z.lxor_0_l.
Qed.
(** *** The number of bits set *)
Definition popcount (x : Z) : Z := fold_right Z.add 0 (List.map (fun i => Z.b2z (Z.testbit x (Z.of_nat i))) (seq 0 8)).
Definition cnt_step (k m x : Z) : Z := Z.land x m + Z.land (Z.shiftr x k) m.
Definition cnt_byte (x : Z) : Z := cnt_step 4 0x0f (cnt_step 2 0x33 (cnt_step 1 0x55 x)).
Lemma byte_cases (f g : Z -> Z) : forallb (fun i => f (Z.of_nat i) =? g (Z.of_nat i)) (seq 0 256) = true -> forall x, fits 8 x -> f x = g x.
Proof.
  intros H x Hx. rewrite forallb_forall in H. specialize (H (Z.to_nat x)). unfold fits in Hx. change (2 ^ 8) with 256 in Hx.
  rewrite Z2Nat.id in H by lia. apply Z.eqb_eq, H, in_seq. lia.
Qed.
Lemma byte_bound (f : Z -> Z) n : forallb (fun i => (0 <=? f (Z.of_nat i)) && (f (Z.of_nat i) <? n)) (seq 0 256) = true -> forall x, fits 8 x -> 0 <= f x < n.
Proof.
  intros H x Hx. rewrite forallb_forall in H. specialize (H (Z.to_nat x)). unfold fits in Hx. change (2 ^ 8) with 256 in Hx.
  rewrite Z2Nat.id in H by lia. assert ((0 <=? f x) && (f x <? n) = true) by (apply H, in_seq; lia). lia.
Qed.
Lemma zip_with_map_self (f : Z -> Z -> Z) (g h : Z -> Z) l : zip_with f (List.map g l) (List.map h l) = List.map (fun x => f (g x) (h x)) l.
Proof. induction l as [|x l IH]; [done|]. cbn. by rewrite IH. Qed.
Lemma cnt_step_lanes k m l : 0 <= k <= 8 -> fits (8 - k) m -> (forall x, fits 8 x -> fits 8 (cnt_step k m x)) -> Forall (fits 8) l -> length l = 4%nat ->
  wrap 32 (Z.land (positional 8 l) (positional 8 (replicate 4 m)) + Z.land (Z.shiftr (positional 8 l) k) (positional 8 (replicate 4 m))) =
  positional 8 (List.map (cnt_step k m) l) /\ Forall (fits 8) (List.map (cnt_step k m) l).
Proof.
  intros Hk Hm Hs Hl H4. assert (fits 8 m) as Hm' by (eapply fits_le; [|exact Hm]; lia).
  assert (Forall (fits 8) (List.map (cnt_step k m) l)) as HF by (apply List.Forall_map; eapply List.Forall_impl; [|exact Hl]; exact Hs). split; [|done].
  pose proof (lanes_shiftr 8 k m l ltac:(lia) Hk Hm Hl) as Hr. rewrite H4 in Hr. rewrite Hr. rewrite positional_land by (lia || done || by apply Forall_replicate).
  rewrite zip_with_const by done. rewrite positional_add by (rewrite !length_map; done). rewrite zip_with_map_self. apply wrap_fits.
  pose proof (positional_fits 8 _ ltac:(lia) HF) as Hp. by rewrite length_map, H4 in Hp.
Qed.
Definition cnt_word (k m x : Z) : Z := wrap 32 (Z.land x m + Z.land (Z.shiftr x k) m).
Lemma neon_cnt_u8_words x : neon_cnt_u8 x = cnt_word 4 0x0f0f0f0f (cnt_word 2 0x33333333 (cnt_word 1 0x55555555 x)).
Proof. reflexivity. Qed.
Lemma cnt_word_lanes k m M l : 0 <= k <= 8 -> fits (8 - k) m -> M = positional 8 (replicate 4 m) ->
  forallb (fun i => (0 <=? cnt_step k m (Z.of_nat i)) && (cnt_step k m (Z.of_nat i) <? 256)) (seq 0 256) = true -> Forall (fits 8) l -> length l = 4%nat ->
  cnt_word k M (positional 8 l) = positional 8 (List.map (cnt_step k m) l) /\ Forall (fits 8) (List.map (cnt_step k m) l) /\ length (List.map (cnt_step k m) l) = 4%nat.
Proof.
  intros Hk Hm -> Hb Hl H4. destruct (cnt_step_lanes k m l Hk Hm (byte_bound (cnt_step k m) 256 Hb) Hl H4) as [He HF]. split; [exact He|]. split; [done|]. by rewrite length_map.
Qed.
Lemma cnt_byte_popcount x : fits 8 x -> cnt_byte x = wrap 8 (popcount x).
Proof. apply (byte_cases cnt_byte (fun v => wrap 8 (popcount v))). by vm_compute. Qed.
Lemma neon_cnt_u8_lanes x : fits 32 x -> neon_cnt_u8 x = NEON_VOP1 neon_u8 popcount x.
Proof.
  intros Hx. pose proof (unpack_fits false 8 4 x ltac:(lia)) as [HF HL]. fold neon_u8 in HF, HL. rewrite neon_cnt_u8_words. unfold NEON_VOP1. rewrite (unpack_u8 x Hx) at 1.
  set (l := NEON_UNPACK neon_u8 x) in *. clearbody l.
  destruct (cnt_word_lanes 1 0x55 0x55555555 l ltac:(lia) ltac:(unfold fits; lia) eq_refl ltac:(by vm_compute) HF HL) as (-> & F1 & L1).
  destruct (cnt_word_lanes 2 0x33 0x33333333 _ ltac:(lia) ltac:(unfold fits; lia) eq_refl ltac:(by vm_compute) F1 L1) as (-> & F2 & L2).
  destruct (cnt_word_lanes 4 0x0f 0x0f0f0f0f _ ltac:(lia) ltac:(unfold fits; lia) eq_refl ltac:(by vm_compute) F2 L2) as (-> & _ & _).
  unfold NEON_PACK. rewrite !List.map_map. cbn [vbits neon_u8]. f_equal. apply map_ext_in. intros v Hv. rewrite List.Forall_forall in HF. by apply cnt_byte_popcount, HF.
Qed.
(** *** Halving operations on 32 bits *)
Lemma truth_odd v : truth (Z.land v 1) = Z.odd v.
Proof. change 1 with (bit 0). rewrite truth_land_bit by done. apply Z.bit0_odd. Qed.
Lemma odd_land x y : Z.odd (Z.land x y) = Z.odd x && Z.odd y.
Proof. by rewrite <- !Z.bit0_odd, Z.land_spec. Qed.
Lemma odd_lor x y : Z.odd (Z.lor x y) = Z.odd x || Z.odd y.
Proof. by rewrite <- !Z.bit0_odd, Z.lor_spec. Qed.
Lemma half_odd x : Z.shiftr x 1 = x / 2 /\ x = 2 * (x / 2) + Z.b2z (Z.odd x).
Proof.
  split; [by rewrite Z.shiftr_div_pow2|]. rewrite (Z.div_mod x 2) at 1 by done. f_equal. rewrite Zmod_odd. by destruct (Z.odd x).
Qed.
Lemma half_sum x y (f : Z -> Z -> bool) : (forall p q : bool, p = Z.odd x -> q = Z.odd y -> f x y = p && q) ->
  Z.shiftr x 1 + Z.shiftr y 1 + (if f x y then 1 else 0) = HADD x y.
Proof.
  intros Hf. unfold HADD. rewrite (Hf _ _ eq_refl eq_refl). destruct (half_odd x) as [-> Hx], (half_odd y) as [-> Hy]. rewrite Z.shiftr_div_pow2 by lia. change (2 ^ 1) with 2.
  set (p := x / 2) in *. set (q := y / 2) in *. destruct (Z.odd x), (Z.odd y); cbn [Z.b2z andb] in *; [apply (Z.div_unique_pos _ _ _ 0)|apply (Z.div_unique_pos _ _ _ 1)|apply (Z.div_unique_pos _ _ _ 1)|apply (Z.div_unique_pos _ _ _ 0)]; lia.
Qed.
Lemma hadd_exact x y : Z.shiftr x 1 + Z.shiftr y 1 + (if truth (Z.land (Z.land x y) 1) then 1 else 0) = HADD x y.
Proof. apply (half_sum x y (fun x y => truth (Z.land (Z.land x y) 1))). intros p q -> ->. by rewrite truth_odd, odd_land. Qed.
#[local] Ltac half_cases := cbn [Z.b2z andb orb negb] in *; match goal with |- _ = ?v / 2 => first [apply (Z.div_unique_pos _ _ _ 0); lia|apply (Z.div_unique_pos _ _ _ 1); lia] end.
Lemma rhadd_exact x y : Z.shiftr x 1 + Z.shiftr y 1 + (if truth (Z.land (Z.lor x y) 1) then 1 else 0) = RHADD x y.
Proof.
  unfold RHADD. rewrite truth_odd, odd_lor. destruct (half_odd x) as [-> Hx], (half_odd y) as [-> Hy]. rewrite Z.shiftr_div_pow2 by lia. change (2 ^ 1) with 2.
  set (p := x / 2) in *. set (q := y / 2) in *. destruct (Z.odd x), (Z.odd y); half_cases.
Qed.
Lemma hsub_exact x y n : Z.odd n = negb (Z.odd x) -> Z.shiftr x 1 - Z.shiftr y 1 - (if truth (Z.land (Z.land n y) 1) then 1 else 0) = HSUB x y.
Proof.
  intros Hn. unfold HSUB. rewrite truth_odd, odd_land, Hn. destruct (half_odd x) as [-> Hx], (half_odd y) as [-> Hy]. rewrite Z.shiftr_div_pow2 by lia. change (2 ^ 1) with 2.
  set (p := x / 2) in *. set (q := y / 2) in *. destruct (Z.odd x), (Z.odd y); half_cases.
Qed.
Lemma one_lane w f a b : 0 < w -> fits w a -> fits w b -> vmap2 (mkV false w 1) f a b = wrap w (f a b).
Proof.
  intros Hw Ha Hb. unfold vmap2, NEON_PACK, NEON_UNPACK. cbn [vcount vbits seq List.map zip_with positional]. unfold lane_of, elt. cbn [vbits vsigned].
  rewrite Z.mul_0_r, !Z.shiftr_0_r, (wrap_fits w a), (wrap_fits w b) by done. by rewrite Z.mul_0_r, Z.add_0_r.
Qed.
Lemma odd_lnot x : Z.odd (Z.lnot x) = negb (Z.odd x).
Proof. by rewrite <- !Z.bit0_odd, Z.lnot_spec. Qed.
Lemma odd_not32 x : Z.odd (not32 x) = negb (Z.odd x).
Proof. by rewrite <- !Z.bit0_odd, not32_testbit. Qed.
(** C27: vector arithmetic done on whole words is lanewise arithmetic.  The additions and
    subtractions that keep the sign bits of the lanes apart compute every lane modulo its
    width; the population count, the carry-less product (whose loop ends within eight
    turns) and the averages that avoid the overflow of 32 bits compute the exact function on
    every lane. *)
Theorem neon_lanes a b : fits 32 a -> fits 32 b ->
  neon_add_u8 a b = vmap2 neon_u8 Z.add a b /\
  neon_add_u16 a b = vmap2 neon_u16 Z.add a b /\
  neon_mul_p8 a b = Some (vmap2 neon_u8 clmul a b) /\
  neon_cnt_u8 a = NEON_VOP1 neon_u8 popcount a /\
  hadd_u32 a b = vmap2 neon_u32 HADD a b /\ hadd_s32 (sgn 32 a) (sgn 32 b) = HADD (sgn 32 a) (sgn 32 b) /\
  rhadd_u32 a b = vmap2 neon_u32 RHADD a b /\ rhadd_s32 (sgn 32 a) (sgn 32 b) = RHADD (sgn 32 a) (sgn 32 b) /\
  hsub_u32 a b = vmap2 neon_u32 HSUB a b /\ hsub_s32 (sgn 32 a) (sgn 32 b) = HSUB (sgn 32 a) (sgn 32 b) /\
  (forall c d, fits 64 c -> fits 64 d ->
    addl_u16 c d = vmap2 (mkV false 16 4) Z.add c d /\ addl_u32 c d = vmap2 (mkV false 32 2) Z.add c d /\
    subl_u16 c d = vmap2 (mkV false 16 4) Z.sub c d /\ subl_u32 c d = vmap2 (mkV false 32 2) Z.sub c d).
Proof.
  intros Ha Hb. split; [by apply neon_add_u8_lanes|]. split; [by apply neon_add_u16_lanes|]. split; [by apply neon_mul_p8_lanes|]. split; [by apply neon_cnt_u8_lanes|].
  unfold hadd_u32, hadd_s32, rhadd_u32, rhadd_s32, hsub_u32, hsub_s32, neon_u32. rewrite !(one_lane 32), !hadd_exact, !rhadd_exact, !hsub_exact by (done || lia || apply odd_not32 || apply odd_lnot).
  do 6 (split; [done|]). intros c d Hc Hd. unfold addl_u16, addl_u32, subl_u16, subl_u32. split; [|split; [|split]].
  - by apply addl_mask_lanes.
  - by apply addl_mask_lanes.
  - by apply subl_mask_lanes.
  - by apply subl_mask_lanes.
Qed.

(** ** Witnesses *)
(** VZIP.16 q0, q1. *)
Definition sample_vregs : list Z := [0x0004000300020001; 0x0008000700060005; 0x00a400a300a200a1; 0x00a800a700a600a5].
Example zip_unzip_witness : exists z u, neon_zip 0x40042 sample_vregs = Some z /\ neon_unzip 0x40042 sample_vregs = Some u /\ neon_unzip 0x40042 z = Some sample_vregs /\
  z = [0x00a2000200a10001; 0x00a4000400a30003; 0x00a6000600a50005; 0x00a8000800a70007].
Proof.
  destruct (zip_unzip 0x40042 sample_vregs) as (z & u & Z & U & B & _).
  - split; [apply (bool_decide_eq_true_1 _); reflexivity|apply (bool_decide_eq_true_1 _); reflexivity|unfold fits; apply (bool_decide_eq_true_1 _); reflexivity|by vm_compute].
  - exists z, u. split; [exact Z|]. split; [exact U|]. split; [exact B|]. vm_compute in Z. by injection Z as <-.
Defined.
Example neon_lanes_witness : neon_add_u8 0x01ff7f80 0x01018080 = 0x0200ff00 /\ neon_mul_p8 0x03 0x07 = Some 0x09.
Proof.
  destruct (neon_lanes 0x01ff7f80 0x01018080) as (H & _); [unfold fits; lia..|]. destruct (neon_lanes 0x03 0x07) as (_ & _ & P & _); [unfold fits; lia..|].
  split; [rewrite H; reflexivity|rewrite P; reflexivity].
Defined.
