(* ===== verification/Board.v ===== *)
(** * Board: an interrupt from a device's pin to the processor and back

    The composition of the interrupt controllers (file Pl192) with the processor (files
    ArmExc, ArmEntry): the processor's inputs (hw/arm_pic.c), the test for interrupts in
    the execution loop (cpu-exec.c), and the whole service of an interrupt: the pin is
    raised, the exception entered, the interrupt acknowledged, the pin lowered, the end
    signalled, and the program resumed as if nothing had happened.

    Each operation on the controllers is followed by the levels of the first controller's
    two lines.  pl192.c calls the handler of a line when it drives it; the handler depends
    on the level only, and calling it again with the same level changes nothing. *)
From S2P Require Import Prelude Irq Device Pl192 Physmem PhysAccess ArmCpu ArmModes ArmPsr ArmExc ArmEntry ArmTlb ArmCp15 ArmSys.
#[local] Open Scope Z_scope.

Definition ARM_PIC_CPU_IRQ : Z := 0.
Definition ARM_PIC_CPU_FIQ : Z := 1.
Definition CPU_INTERRUPT_HARD : Z := 0x02.
Definition CPU_INTERRUPT_FIQ : Z := 0x10.

Section board.
  Context {D : Type} `{!Devices D} `{!NvicOps D} `{!Semihosting D} `{!TbFlush D}.

(** ** The processor's inputs *)
Definition cpu_reset_interrupt (mask : Z) : SYS D unit :=
  on_cpu (modify (fun e => e <| interrupt_request := Z.land (interrupt_request e) (not32 mask) |>)).
Definition arm_pic_cpu_handler (irq level : Z) : SYS D unit :=
  if irq =? ARM_PIC_CPU_IRQ then
    if truth level then cpu_interrupt CPU_INTERRUPT_HARD else cpu_reset_interrupt CPU_INTERRUPT_HARD
  else if irq =? ARM_PIC_CPU_FIQ then
    if truth level then cpu_interrupt CPU_INTERRUPT_FIQ else cpu_reset_interrupt CPU_INTERRUPT_FIQ
  else hw_error.

(** ** The execution loop between two translation blocks *)
Definition raise_exception_index (x : Z) : SYS D unit := on_cpu (modify (fun e => e <| exception_index := x |>)) ;; do_interrupt.
(** The interrupts of the ARM target; [interrupt_request] is the cached value. *)
Definition exec_arm_interrupts (interrupt_request : Z) : SYS D unit :=
  e ← on_cpu get;
  when (truth (Z.land interrupt_request CPU_INTERRUPT_FIQ) && negb (truth (Z.land (uncached_cpsr e) CPSR_F))) (raise_exception_index EXCP_FIQ) ;;
  e ← on_cpu get;
  pc ← on_cpu (get_reg 15);
  when (truth (Z.land interrupt_request CPU_INTERRUPT_HARD) && (IS_M e && (pc <? 0xfffffff0) || negb (truth (Z.land (uncached_cpsr e) CPSR_I))))
    (raise_exception_index EXCP_IRQ).
Definition exec_exit_tb : SYS D unit :=
  on_cpu (modify (fun e => if truth (Z.land (interrupt_request e) CPU_INTERRUPT_EXITTB)
    then e <| interrupt_request := Z.land (interrupt_request e) (not32 CPU_INTERRUPT_EXITTB) |> else e)).
Definition exec_interrupts : SYS D unit :=
  e ← on_cpu get;
  when (truth (interrupt_request e)) (exec_arm_interrupts (interrupt_request e) ;; exec_exit_tb).

(** ** The board: the controllers and the processor *)
Abbreviation BOARD := (ST (store * (CPUARMState * machine D))).
Definition drive_input (input : Z) (line : option bool) : SYS D unit :=
  match line with Some level => arm_pic_cpu_handler input (b2z level) | None => mret tt end.
Definition cpu_lines (st : store) : SYS D unit :=
  match st with
  | v :: _ => drive_input ARM_PIC_CPU_FIQ (fiq v) ;; drive_input ARM_PIC_CPU_IRQ (irq v)
  | [] => mret tt
  end.
Definition on_vics {A} (m : ST store A) : BOARD A :=
  a ← on_dev m; st ← dev; on_bank (cpu_lines st) ;; mret a.
End board.

(** ** The first controller in service of one source *)
(** A run on the first controller of a chain concerns no other. *)
Lemma root_drives w x rest st' : drives 0 w (x :: rest) st' -> st' = w :: rest /\ chain_ok (w :: rest).
Proof.
  intros [(Hc' & Hl & Hj & _) H0]. destruct st' as [|w' rest']; [discriminate Hl|].
  injection H0 as ->. assert (rest' = rest) as -> by (apply list_eq; intros j; exact (Hj (S j) ltac:(lia))). done.
Qed.
Lemma root_wp {A} (m : ST store A) w x rest st (Q : A -> store -> Prop) :
  wp no_err m (fun _ st' => drives 0 w (x :: rest) st') st -> (forall r, chain_ok (w :: rest) -> Q r (w :: rest)) -> wp no_err m Q st.
Proof. intros H HQ. eapply wp_mono; [exact H|]. intros r st' [-> Hc]%root_drives. by apply HQ. Qed.
Lemma root_vic_ok v rest : chain_ok (v :: rest) -> vic_ok v.
Proof. intros H. by destruct (H 0%nat v eq_refl). Qed.

(** Source [k], of level [p] and vector [a], is the only one that may be pending;
    [pend]: it is; [serv]: it is in service; [level]: the IRQ line. *)
Record one_source (k p a : Z) (pend serv level : bool) (v : pl192_state) : Prop := mkOneSource {
  os_k : 0 <= k < 32; os_p : rd (vect_priority v) k = Some p; os_a : rd (vect_addr v) k = Some a;
  os_mask : Z.testbit (sw_priority_mask v) p = true;
  os_enable : Z.testbit (intenable v) k = true; os_irq : Z.testbit (intselect v) k = false;
  os_pending : Z.land (Z.lor (rawintr v) (softint v)) (intenable v) = if pend then bit k else 0;
  os_soft : Z.testbit (softint v) k = false; os_root : daisy v = None; os_daisy : daisy_input v = 0;
  os_lines : irq v = Some level /\ fiq v = Some false;
  os_current : current v = if serv then k else PL192_NO_IRQ;
  os_priority : priority v = if serv then p else 0x10;
  os_stack : stack_i v = if serv then 1 else 0;
  os_bottom : rd (priority_stack v) 0 = Some 0x10 /\ rd (irq_stack v) 0 = Some PL192_NO_IRQ
}.

Section source.
  Context (k p a : Z).
  Abbreviation view := (one_source k p a).

Lemma bit_mask_irq x : 0 <= k < 32 -> Z.testbit x k = false -> Z.land (bit k) (not32 x) = bit k /\ Z.land (bit k) x = 0.
Proof.
  intros Hk Hx. split; apply Z.bits_inj'; intros i Hi; rewrite ?Z.bits_0, Z.land_spec, ?not32_testbit, bit_testbit by lia;
    destruct (Z.eqb_spec k i) as [->|]; rewrite ?Hx; cbn; try done; rewrite ?andb_false_r; try done.
  by rewrite (proj2 (Z.ltb_lt i 32)) by lia.
Qed.
Lemma bit_neq_0 : 0 <= k < 32 -> truth (bit k) = true.
Proof. intros Hk. unfold truth, bit. rewrite Z.shiftl_mul_pow2, Z.mul_1_l by lia. assert (0 < 2 ^ k) by (apply Z.pow_pos_nonneg; lia). by rewrite (proj2 (Z.eqb_neq _ _)) by lia. Qed.

(** The sorter on the only pending source. *)
Lemma one_source_best pend serv level v : view pend serv level v -> vic_ok v ->
  pl192_priority_sorter (drive_line true false (with_status v)) = Some (if pend then k else PL192_NO_IRQ).
Proof.
  intros [Hk Hp Ha Hm He Hs Hpd Hso Hr Hd [Hi Hf] _ _ _ _] Hv. set (s1 := drive_line true false (with_status v)).
  assert (vic_ok s1) as Hv1 by (unfold s1, with_status, drive_line; exact Hv).
  assert (irq_status s1 = if pend then bit k else 0) as Hst.
  { unfold s1, with_status, drive_line. cbn. rewrite Hpd. destruct pend; [by apply bit_mask_irq|by rewrite Z.land_0_l]. }
  destruct (sorter_best s1 Hv1) as (h & Hh & Hb). rewrite Hh. f_equal. apply (is_best_unique s1 _ _ Hb).
  assert (forall w q, candidate s1 w q -> pend = true /\ w = k /\ q = p) as Hc.
  { intros w q [[(W1 & W2 & W3)|(W1 & W2 & W3)] _].
    - rewrite Hst in W2. destruct pend; [|by rewrite Z.bits_0 in W2]. rewrite bit_testbit in W2 by lia. apply Z.eqb_eq in W2 as ->.
      split; [done|]. split; [done|]. change (rd (vect_priority v) w = Some q) in W3. congruence.
    - change (daisy_input s1) with (daisy_input v) in W2. by rewrite Hd in W2. }
  destruct pend.
  - right. exists p. split.
    + split; [left; split; [done|split; [|exact Hp]]|exact Hm]. by rewrite Hst, bit_testbit, Z.eqb_refl by lia.
    + intros w q (_ & -> & ->)%Hc. right. split; [done|lia].
  - left. split; [done|]. intros w q Hw. by destruct (Hc w q Hw).
Qed.

(** An update drives the line of a source that is pending and not in service. *)
Lemma one_source_updated pend serv level v : view pend serv level v -> vic_ok v ->
  view pend serv (pend && (negb serv || level)) (updated v) /\
  current_highest (updated v) = (if pend then k else PL192_NO_IRQ) /\ (pend = true -> address (updated v) = a).
Proof.
  intros H Hv. pose proof (one_source_best _ _ _ _ H Hv) as Hsort. pose proof H as [Hk Hp Ha Hm He Hs Hpd Hso Hr Hd [Hi Hf] Hcu Hpr Hsk Hbt].
  assert (p < 16) as Hp16 by (destruct Hv as (_ & _ & _ & _ & _ & _ & V7 & _); apply (rd_Forall _ _ _ _ V7) in Hp; lia).
  assert (fiq_status (with_status v) = 0) as Hfs by (unfold with_status; cbn; rewrite Hpd; destruct pend; [by apply bit_mask_irq|done]).
  assert (irq_status (with_status v) = if pend then bit k else 0) as Hst.
  { unfold with_status. cbn. rewrite Hpd. destruct pend; [by apply bit_mask_irq|by rewrite Z.land_0_l]. }
  unfold updated. rewrite Hfs. change (truth 0) with false. set (s1 := drive_line true false (with_status v)) in *.
  change (irq_status s1) with (irq_status (with_status v)). change (daisy_input s1) with (daisy_input v). rewrite Hst, Hd, Hsort.
  change (default PL192_NO_IRQ (Some (if pend then k else PL192_NO_IRQ))) with (if pend then k else PL192_NO_IRQ).
  change (truth 0) with false. rewrite orb_false_r.
  assert (forall l w, irq w = Some l -> static w = static v -> fiq w = Some false -> daisy_input w = 0 -> view pend serv l w) as Hview.
  { intros l w W1 W2 W3 W4. pose proof (fun B (f : pl192_state -> B) => f_equal f W2) as F.
    pose proof (F _ vect_priority) as F1. pose proof (F _ vect_addr) as F2. pose proof (F _ sw_priority_mask) as F3.
    pose proof (F _ intenable) as F4. pose proof (F _ intselect) as F5. pose proof (F _ rawintr) as F6. pose proof (F _ softint) as F7.
    pose proof (F _ current) as F8. pose proof (F _ priority) as F9. pose proof (F _ stack_i) as F10. pose proof (F _ priority_stack) as F11.
    pose proof (F _ irq_stack) as F12. pose proof (F _ daisy) as F13. cbn in *. split; congruence || (rewrite ?F11, ?F12; done) || done. }
  assert (static s1 = static v) as Hst1 by (unfold s1; by rewrite static_drive_line).
  destruct pend.
  - rewrite (bit_neq_0 Hk). unfold settle.
    rewrite (proj2 (Z.ltb_lt k PL192_INT_SOURCES)) by vlia. change (current s1) with (current v). change (priority s1) with (priority v).
    change (vect_priority s1) with (vect_priority v). change (vect_addr s1) with (vect_addr v). rewrite Hp, Ha, Hcu, Hpr.
    change (default 0 (Some p)) with p. change (default 0 (Some a)) with a.
    destruct serv.
    + rewrite Z.eqb_refl. cbn [orb andb negb]. split; [|by split]. apply Hview; [exact Hi|exact Hst1|cbn; by rewrite Hf|done].
    + rewrite (proj2 (Z.eqb_neq k PL192_NO_IRQ)) by vlia. rewrite (proj2 (Z.leb_gt 16 p)) by done. cbn [orb andb negb].
      rewrite (proj2 (Z.leb_le k PL192_DAISY_IRQ)) by vlia. split; [|by split].
      apply Hview; [cbn; by rewrite Hi| |cbn; by rewrite Hf|done]. rewrite static_drive_line. exact Hst1.
  - change (truth 0) with false. split; [|by split].
    apply Hview; [cbn; by rewrite Hi| |cbn; by rewrite Hf|done]. rewrite static_drive_line. exact Hst1.
Qed.

(** The pin of the source. *)
Lemma one_source_pin pend serv level v (on : bool) : view pend serv level v -> vic_ok v ->
  view on serv level (v <| rawintr := raw_set v k (b2z on) |>).
Proof.
  intros [Hk Hp Ha Hm He Hs Hpd Hso Hr Hd Hl Hcu Hpr Hsk Hbt] Hv. split; try done.
  apply Z.bits_inj'. intros i Hi. rewrite Z.land_spec, Z.lor_spec. cbn [rawintr softint intenable upd].
  apply (f_equal (fun x => Z.testbit x i)) in Hpd. rewrite Z.land_spec, Z.lor_spec in Hpd.
  destruct Hv as (V1 & _ & V3 & _). destruct (Z.ltb_spec i 32) as [Hi32|Hi32].
  - rewrite raw_set_testbit by lia. replace (truth (b2z on)) with on by (by destruct on).
    assert (Z.testbit (if on then bit k else 0) i = if i =? k then on else false) as ->.
    { destruct on; [rewrite bit_testbit by lia; by rewrite Z.eqb_sym; destruct (i =? k)|rewrite Z.bits_0; by destruct (i =? k)]. }
    destruct (Z.eqb_spec i k) as [->|Hne]; [by rewrite He, Hso, orb_false_r, andb_true_r|]. rewrite Hpd.
    destruct pend; rewrite ?bit_testbit, ?Z.bits_0 by lia; [|done]. by apply Z.eqb_neq.
  - rewrite (fits_testbit 32 (intenable v)) by (done || lia). rewrite andb_false_r.
    destruct on; rewrite ?bit_testbit, ?Z.bits_0 by lia; [|done]. symmetry. apply Z.eqb_neq. lia.
Qed.

Lemma pin_wp pend serv level (on : bool) v rest (Q : unit -> store -> Prop) : view pend serv level v -> chain_ok (v :: rest) ->
  (forall v', view on serv (on && (negb serv || level)) v' -> chain_ok (v' :: rest) ->
     current_highest v' = (if on then k else PL192_NO_IRQ) -> (on = true -> address v' = a) -> Q tt (v' :: rest)) ->
  wp no_err (pl192_irq_handler 0 k (b2z on)) Q (v :: rest).
Proof.
  intros H Hc HQ. pose proof (root_vic_ok _ _ Hc) as Hv. pose proof (one_source_pin _ _ _ _ on H Hv) as H1.
  apply (root_wp _ _ _ _ _ _ (irq_handler_settles 0 (v :: rest) v k (b2z on) Hc eq_refl (os_k _ _ _ _ _ _ _ H))). intros [] Hc'.
  destruct (one_source_updated _ _ _ _ H1) as (H2 & H3 & H4).
  { destruct Hv as (V1 & Hv). split; [by apply raw_set_fits|exact Hv]. }
  by apply HQ.
Qed.

Lemma read_vectaddr : pl192_read 0 PL192_VECTADDR = (_ ← the 0; pl192_irq_ack 0).
Proof. reflexivity. Qed.
Lemma write_vectaddr x : pl192_write 0 PL192_VECTADDR x = (_ ← the 0; pl192_irq_fin 0).
Proof. reflexivity. Qed.

(** Accesses of the first controller. *)
Lemma the_root E v rest (Q : pl192_state -> store -> Prop) : Q v (v :: rest) -> wp E (the 0) Q (v :: rest).
Proof. done. Qed.
Lemma set_root E f v rest (Q : unit -> store -> Prop) : Q tt (f v :: rest) -> wp E (set_the 0 f) Q (v :: rest).
Proof. done. Qed.

(** The priority stack of the first controller. *)
Definition pushed (v : pl192_state) : pl192_state :=
  v <| stack_i := 1 |> <| priority := p |> <| priority_stack := <[1%nat := p]> (priority_stack v) |> <| irq_stack := <[1%nat := k]> (irq_stack v) |>.
Lemma prio_push_wp v rest (Q : unit -> store -> Prop) : chain_ok (v :: rest) -> stack_i v = 0 -> current v = k -> 0 <= k < 32 ->
  rd (vect_priority v) k = Some p -> Q tt (pushed v :: rest) -> wp no_err (pl192_mask_priority 0) Q (v :: rest).
Proof.
  intros Hc Hsk Hcu Hk Hp HQ. destruct (root_vic_ok _ _ Hc) as (_ & _ & _ & _ & _ & _ & _ & _ & _ & _ & O11 & O12 & _).
  unfold pl192_mask_priority. wp_step. apply the_root. rewrite Hsk. change (PL192_INT_SOURCES <=? 0) with false. cbv iota.
  wp_step. apply set_root. rewrite Hcu. rewrite (proj2 (Z.eqb_neq k PL192_DAISY_IRQ)) by vlia.
  wp_step. eapply deref_wp; [exact Hp|]. wp_step. apply set_root. wp_step. apply the_root. cbn [priority_stack irq_stack stack_i priority current upd].
  rewrite Hsk, Hcu, (wrap_fits 8 k) by (unfold fits; lia). change (0 + 1) with 1.
  wp_step. eapply deref_wp; [apply (wr_Some _ 1); lia|]. wp_step. apply set_root.
  wp_step. eapply deref_wp; [apply (wr_Some _ 1); lia|]. apply set_root. exact HQ.
Qed.

(** Changes of what the first controller serves keep the chain well formed. *)
Lemma serve_ok v w rest : chain_ok (v :: rest) -> vic_ok w -> daisy w = None -> daisy v = None -> irq w = irq v -> fiq w = fiq v ->
  daisy_callback w = daisy_callback v -> daisy_input w = daisy_input v -> current_highest w = current_highest v ->
  current w <> PL192_DAISY_IRQ -> (PL192_DAISY_IRQ ∈ irq_stack w -> PL192_DAISY_IRQ ∈ irq_stack v) -> chain_ok (w :: rest).
Proof.
  intros Hc Hw Hd Hd' Hi Hf Hcb Hdi Hch Hcu Hst. destruct (Hc 0%nat v eq_refl) as (_ & Hl & Hcbv).
  change (w :: rest) with (<[0%nat := w]> (v :: rest)). eapply chain_ok_set; [done|done|done| |].
  - unfold link_ok in *. rewrite Hd. rewrite Hd' in Hl. by rewrite Hi, Hf.
  - unfold cb_ok in *. rewrite Hcb, Hdi, Hch. destruct (daisy_callback v); [done|]. destruct Hcbv as (? & ? & _ & Hn). split_and!; try done. by intros ?%Hst.
Qed.

(** Reading VECTADDR puts the source in service; the line stays high. *)
Lemma ack_wp v rest (Q : Z -> store -> Prop) : view true false true v -> chain_ok (v :: rest) -> current_highest v = k -> address v = a ->
  (forall v', view true true true v' -> chain_ok (v' :: rest) -> Q a (v' :: rest)) ->
  wp no_err (pl192_read 0 PL192_VECTADDR) Q (v :: rest).
Proof.
  intros H Hc Hch Had HQ. pose proof H as [Hk Hp Ha Hm He Hs Hpd Hso Hr Hd Hl Hcu Hpr Hsk [Hb1 Hb2]].
  pose proof (root_vic_ok _ _ Hc) as (O1 & O2 & O3 & O4 & O5 & O6 & O7 & O8 & O9 & O10 & O11 & O12 & O13 & O14).
  rewrite read_vectaddr. wp_step. apply the_root. unfold pl192_irq_ack. wp_step. apply the_root.
  rewrite Hch, Had, (proj2 (Z.eqb_neq k PL192_DAISY_IRQ)) by vlia. wp_step. apply set_root. rewrite Hch.
  set (v1 := v <| current := k |>).
  assert (chain_ok (v1 :: rest)) as Hc1.
  { apply (serve_ok v); try done; [|cbn; vlia]. repeat (split; [assumption|]). cbn. lia. }
  wp_step. apply prio_push_wp; [done|done|done|done|exact Hp|]. set (v2 := pushed v1).
  pose proof (wr_Some (priority_stack v) 1 p ltac:(lia)) as Hw1. pose proof (wr_Some (irq_stack v) 1 k ltac:(lia)) as Hw2.
  pose proof (rd_Forall _ _ _ _ O7 Hp) as Hpb. cbv beta in Hpb.
  assert (vic_ok v2) as Hv2.
  { repeat (split; [assumption|]). cbn. rewrite !length_insert. split; [lia|]. split; [done|]. split; [done|].
    split; [apply Forall_insert; [done|lia]|lia]. }
  assert (chain_ok (v2 :: rest)) as Hc2.
  { apply (serve_ok v1); try done; [cbn; vlia|]. cbn. intros Hin. apply list_elem_of_lookup_1 in Hin as [j Hj].
    apply list_lookup_insert_Some in Hj as [(_ & E & _)|[_ Hj]]; [vlia|]. by eapply list_elem_of_lookup_2. }
  wp_step. apply the_root. wp_step. wp_step. wp_step.
  apply (root_wp _ _ _ _ _ _ (update_drives 0 (v2 :: rest) v2 Hc2 eq_refl)). intros [] Hc'. wp_step. apply HQ; [|exact Hc'].
  apply (one_source_updated true true true); [|done]. split; try done. split.
  - change (rd (<[Z.to_nat 1 := p]> (priority_stack v)) 0 = Some 0x10). by rewrite (rd_wr _ _ _ _ _ Hw1).
  - change (rd (<[Z.to_nat 1 := k]> (irq_stack v)) 0 = Some PL192_NO_IRQ). by rewrite (rd_wr _ _ _ _ _ Hw2).
Qed.

(** The end of the interrupt, after its pin is low. *)
Lemma eoi_wp v rest x (Q : unit -> store -> Prop) : view false true false v -> chain_ok (v :: rest) -> current_highest v = PL192_NO_IRQ ->
  (forall v', view false false false v' -> chain_ok (v' :: rest) -> Q tt (v' :: rest)) ->
  wp no_err (pl192_write 0 PL192_VECTADDR x) Q (v :: rest).
Proof.
  intros H Hc Hch HQ. pose proof H as [Hk Hp Ha Hm He Hs Hpd Hso Hr Hd Hl Hcu Hpr Hsk [Hb1 Hb2]].
  pose proof (root_vic_ok _ _ Hc) as (O1 & O2 & O3 & O4 & O5 & O6 & O7 & O8 & O9 & O10 & O11 & O12 & O13 & O14).
  rewrite write_vectaddr. wp_step. apply the_root. unfold pl192_irq_fin. wp_step. apply the_root.
  rewrite Hcu, (proj2 (Z.eqb_neq k PL192_DAISY_IRQ)) by vlia. wp_step. unfold pl192_unmask_priority.
  wp_step. apply the_root. rewrite Hsk. change (1 <? 1) with false. cbv iota. wp_step. apply set_root. wp_step. apply the_root.
  cbn [priority_stack irq_stack stack_i upd]. rewrite Hsk. change (1 - 1) with 0.
  wp_step. eapply deref_wp; [exact Hb1|]. wp_step. apply set_root. wp_step. eapply deref_wp; [exact Hb2|]. apply set_root.
  set (v1 := v <| stack_i := 0 |> <| priority := 0x10 |> <| current := PL192_NO_IRQ |>).
  change (wp no_err (the 0 ≫= fun _ => mret () ≫= fun _ => update 0 ≫= fun _ => the 0 ≫= fun v => if current v =? PL192_NO_IRQ then lower 0 false else mret tt) Q (v1 :: rest)).
  assert (chain_ok (v1 :: rest)) as Hc1 by (apply (serve_ok v); try done; repeat (split; [assumption|]); cbn; by repeat (split; [done || lia|])).
  assert (view false false false v1) as H1 by by split.
  destruct (one_source_updated _ _ _ _ H1 (root_vic_ok _ _ Hc1)) as (H2 & _). cbn [andb] in H2.
  wp_step. apply the_root. wp_step. wp_step. wp_step. apply (root_wp _ _ _ _ _ _ (update_drives 0 (v1 :: rest) v1 Hc1 eq_refl)). intros [] Hc2.
  wp_step. apply the_root. rewrite (os_current _ _ _ _ _ _ _ H2), Z.eqb_refl.
  apply (root_wp _ _ _ _ _ _ (lower_settles 0 (updated v1 :: rest) (updated v1) false Hc2 eq_refl)). intros [] Hc3. apply HQ; [|done].
  destruct H2 as [? ? ? ? ? ? ? ? ? ? [Hi2 Hf2] ? ? ? ?]. split; try done. split; [cbn; by rewrite Hi2|done].
Qed.
End source.

(** ** The processor's side *)
Section cpu.
  Context {D : Type} `{!Devices D} `{!NvicOps D} `{!Semihosting D} `{!TbFlush D} `{!TbFlushLaws D}.
  Implicit Types (e : CPUARMState) (s : machine D) (v : pl192_state).

Definition with_request (r : Z) (e : CPUARMState) : CPUARMState := e <| interrupt_request := r |>.
Definition with_index (x : Z) (e : CPUARMState) : CPUARMState := e <| exception_index := x |>.
(** The request bits after the lines have been driven, no fast interrupt pending. *)
Definition requested (level : bool) (r : Z) : Z :=
  let r := Z.land r (not32 CPU_INTERRUPT_FIQ) in
  if level then Z.lor r CPU_INTERRUPT_HARD else Z.land r (not32 CPU_INTERRUPT_HARD).
Lemma requested_fiq level r : Z.land (requested level r) CPU_INTERRUPT_FIQ = 0.
Proof.
  unfold requested. destruct level; rewrite ?Z.land_lor_distr_l, <- ?Z.land_assoc.
  - change (Z.land (not32 CPU_INTERRUPT_FIQ) CPU_INTERRUPT_FIQ) with 0. by rewrite Z.land_0_r.
  - change (Z.land (not32 CPU_INTERRUPT_FIQ) (Z.land (not32 CPU_INTERRUPT_HARD) CPU_INTERRUPT_FIQ)) with 0. by rewrite Z.land_0_r.
Qed.
Lemma requested_hard level r : truth (Z.land (requested level r) CPU_INTERRUPT_HARD) = level.
Proof.
  unfold requested. destruct level; rewrite ?Z.land_lor_distr_l, <- ?Z.land_assoc.
  - change (Z.land (not32 CPU_INTERRUPT_FIQ) CPU_INTERRUPT_HARD) with CPU_INTERRUPT_HARD. rewrite Z.land_diag.
    unfold truth. destruct (Z.eqb_spec (Z.lor (Z.land r CPU_INTERRUPT_HARD) CPU_INTERRUPT_HARD) 0) as [E|]; [|done].
    by apply Z.lor_eq_0_iff in E as [_ E].
  - change (Z.land (not32 CPU_INTERRUPT_FIQ) (Z.land (not32 CPU_INTERRUPT_HARD) CPU_INTERRUPT_HARD)) with 0. by rewrite Z.land_0_r.
Qed.

Lemma cpu_lines_wp E v rest level e s (Q : unit -> CPUARMState * machine D -> Prop) : fiq v = Some false -> irq v = Some level ->
  Q tt (with_request (requested level (interrupt_request e)) e, s) -> wp E (cpu_lines (v :: rest)) Q (e, s).
Proof.
  intros Hf Hi HQ. unfold cpu_lines. rewrite Hf, Hi. unfold drive_input, arm_pic_cpu_handler.
  change (ARM_PIC_CPU_FIQ =? ARM_PIC_CPU_IRQ) with false. change (ARM_PIC_CPU_FIQ =? ARM_PIC_CPU_FIQ) with true.
  change (ARM_PIC_CPU_IRQ =? ARM_PIC_CPU_IRQ) with true. cbv iota. change (truth (b2z false)) with false. cbv iota.
  wp_step. unfold cpu_reset_interrupt at 1. apply wp_on_cpu. wp_step. destruct level; cbn [b2z].
  - change (truth 1) with true. cbv iota. unfold cpu_interrupt. wp_step. apply wp_on_cpu. wp_step. apply unlink_law. exact HQ.
  - change (truth 0) with false. cbv iota. unfold cpu_reset_interrupt. apply wp_on_cpu. wp_step. exact HQ.
Qed.
Lemma on_vics_wp {A} (m : ST store A) st e s (Q : A -> store * (CPUARMState * machine D) -> Prop) :
  wp no_err m (fun a st' => exists v rest level, st' = v :: rest /\ fiq v = Some false /\ irq v = Some level /\
    Q a (st', (with_request (requested level (interrupt_request e)) e, s))) st ->
  wp no_err (on_vics m) Q (st, (e, s)).
Proof.
  intros H. unfold on_vics. wp_step. apply wp_on_dev. eapply wp_mono; [exact H|]. intros a st' (v & rest & level & -> & Hf & Hi & HQ).
  wp_step. apply dev_wp. wp_step. apply wp_on_bank. apply (cpu_lines_wp _ _ _ level); [done|done|]. by wp_step.
Qed.

Lemma with_request_ok r pc e : cpu_ok pc e -> cpu_ok pc (with_request r e).
Proof. intros [[] [] ? ? ?]. by split. Qed.
Lemma with_index_ok x pc e : cpu_ok pc e -> cpu_ok pc (with_index x e).
Proof. intros [[] [] ? ? ?]. by split. Qed.
Lemma entered_request m mask vector link r e e1 : entered m mask vector link e e1 -> entered m mask vector link e (with_request r e1).
Proof. intros [[] [] ? ? ? ? ? ? ? ?]. by split. Qed.
Lemma handled_request r e1 e2 : handled e1 e2 -> handled e1 (with_request r e2).
Proof. intros ([] & [] & ? & ? & ?). by split_and!. Qed.
Lemma request_system r e e' : system e' = system e -> interrupt_request e = r -> interrupt_request e' = r.
Proof. unfold system. congruence. Qed.

(** The loop takes an interrupt when one is requested and not disabled. *)
Lemma exec_irq_wp e s r pc (Q : unit -> CPUARMState * machine D -> Prop) : cpu_ok pc e -> semihosting_enabled (D := D) = false ->
  truth (Z.land (uncached_cpsr e) CPSR_I) = false ->
  (forall e', entered ARM_CPU_MODE_IRQ (Z.lor CPSR_A CPSR_I) (vector_of e 0x18) (wrap 32 (pc + 4)) e e' -> Q tt (e', s)) ->
  wp no_err exec_interrupts Q (with_request (requested true r) e, s).
Proof.
  intros Hok Hs HI HQ. pose proof (requested_hard true r) as Hh. pose proof (requested_fiq true r) as Hf. unfold exec_interrupts.
  wp_step. apply wp_on_cpu. wp_step. change (interrupt_request (with_request (requested true r) e)) with (requested true r).
  assert (truth (requested true r) = true) as ->.
  { unfold truth. destruct (Z.eqb_spec (requested true r) 0) as [E|]; [|done]. by rewrite E, Z.land_0_l in Hh. }
  wp_step. wp_step. unfold exec_arm_interrupts. wp_step. apply wp_on_cpu. wp_step. rewrite Hf. cbn [andb truth Z.eqb negb].
  wp_step. wp_step. wp_step. apply wp_on_cpu. wp_step. wp_step. apply wp_on_cpu. eapply get_reg_wp; [exact (ok_pc _ _ Hok)|].
  rewrite Hh. change (uncached_cpsr (with_request _ e)) with (uncached_cpsr e). rewrite HI. cbn [negb]. rewrite orb_true_r. cbn [andb].
  wp_step. unfold raise_exception_index. wp_step. apply wp_on_cpu. wp_step.
  set (e0 := with_index EXCP_IRQ (with_request (requested true r) e)).
  assert (cpu_ok pc e0) as Hok0 by (apply with_index_ok, with_request_ok, Hok).
  apply (do_interrupt_wp no_err e0 s pc ARM_CPU_MODE_IRQ 0x18 (Z.lor CPSR_A CPSR_I) 4); [exact Hok0|exact Hs|reflexivity|].
  intros e1 He1. unfold exec_exit_tb. apply wp_on_cpu. wp_step.
  assert (entered ARM_CPU_MODE_IRQ (Z.lor CPSR_A CPSR_I) (vector_of e 0x18) (wrap 32 (pc + 4)) e e1) as He by (destruct He1; by split).
  destruct (truth (Z.land (interrupt_request e1) CPU_INTERRUPT_EXITTB)); apply HQ; [by apply entered_request|done].
Qed.
(** With no line high nothing is taken. *)
Lemma exec_quiet_wp e s r pc (Q : unit -> CPUARMState * machine D -> Prop) : cpu_ok pc e -> interrupt_request e = requested false r ->
  (forall r', Q tt (with_request r' e, s)) -> wp no_err exec_interrupts Q (e, s).
Proof.
  intros Hok Hr HQ. pose proof (requested_hard false r) as Hh. pose proof (requested_fiq false r) as Hf. unfold exec_interrupts.
  assert (Q tt (e, s)) as HQ0 by (replace e with (with_request (interrupt_request e) e) by (by destruct e); apply HQ).
  wp_step. apply wp_on_cpu. wp_step. rewrite Hr. wp_step. destruct (truth (requested false r)); [|done].
  wp_step. unfold exec_arm_interrupts. wp_step. apply wp_on_cpu. wp_step. rewrite Hf. cbn [andb truth Z.eqb negb].
  wp_step. wp_step. wp_step. apply wp_on_cpu. wp_step. wp_step. apply wp_on_cpu. eapply get_reg_wp; [exact (ok_pc _ _ Hok)|].
  rewrite Hh. cbn [andb]. wp_step. unfold exec_exit_tb. apply wp_on_cpu. wp_step.
  destruct (truth (Z.land (interrupt_request e) CPU_INTERRUPT_EXITTB)); [apply HQ|done].
Qed.

End cpu.

(** ** Witness: source 3 of the board's first controller, a program in user mode at 0x8000 *)
#[local] Existing Instance ArmEntry.no_devices.
#[local] Existing Instance ArmEntry.no_nvic.
#[local] Existing Instance ArmEntry.no_debugger.
#[local] Existing Instance ArmSys.no_tb_flush.
#[local] Existing Instance ArmSys.no_tb_flush_laws.
Definition vic_3 : pl192_state :=
  (pl192_init1 (Some false) (Some false)) <| intenable := 8 |> <| vect_addr := <[3%nat := 0x1230]> (replicate 32 0) |>.
Definition chained : store := tail (default [] board_vics).
Lemma vic_3_chain : chain_ok (vic_3 :: chained).
Proof.
  intros i w Hi. assert (i < 4)%nat as Hlt by (by apply lookup_lt_Some in Hi).
  destruct i as [|[|[|[|i]]]]; [..|lia]; cbn in Hi; injection Hi as <-;
    (split; [by apply (bool_decide_unpack _); vm_compute|]); (split; [vm_compute; first [lia|done]|]);
    unfold cb_ok; cbn; split_and!; try done; by apply (bool_decide_unpack _); vm_compute.
Qed.
Lemma vic_3_source : one_source 3 0xf 0x1230 false false false vic_3.
Proof. split; first [done | split; done | split; lia | reflexivity]. Qed.
